(* ===== verification/_CoqProject ===== *)
-Q . S2P
Prelude.v
BootInfo.v
Pmm.v
PmmInit.v
PmmSpec.v
Heap.v
HeapInv.v
HeapSpec.v
HeapClient.v
Ipc.v
Journal.v
JournalFormat.v
JournalLog.v
JournalSafety.v
Ramfs.v
Persistent.v
BlockDevice.v
Fat.v
FatSpec.v
FatRead.v
FatMount.v
FatNames.v
Vfs.v
IrqState.v
AhciLayout.v
AhciTable.v
AtaDma.v
HpetTime.v
RtcTime.v
Checked.v
KernelCall.v
Acpi.v
AcpiSpec.v
AcpiMadt.v
Elf.v
ElfSpec.v
ElfPlace.v
PagingState.v
PagingPae.v
Paging.v
PagingEntry.v
PagingForest.v
PagingView.v
PagingInv.v
PagingOps.v
PagingMap.v
PagingProtect.v
PagingUnmap.v
PagingSpaces.v
PagingCreate.v
PagingDestroy.v
PagingHw.v
PagingDangling.v
PagingLoaded.v
PagingInit.v
PagingUser.v
PagingTotal.v
PagingBoot.v
PagingSystem.v
PagingClient.v
PagingWork.v
PagingLife.v
PagingTheorems.v
PagingGaps.v
ElfLoad.v
ElfLoadSpec.v
ElfTheorems.v
Scheduler.v
SchedulerSpec.v
SchedulerSwitch.v
SchedulerTheorems.v
