(* ===== verification/Prelude.v ===== *)
(** * EfesOS: a verified model of the kernel's services

    EfesOS is a 32-bit x86 operating system in C. This library models its memory management and
    address spaces, interprocess communication, filesystems and the data-structure half of its storage and time
    drivers, and proves what they promise to their callers.

    ** The program and its parts

    Stage 2 of the boot loader hands the kernel a validated structure with the firmware memory
    map ([include/boot_info.h], [memory/e820.c]). From it the physical memory manager
    ([memory/pmm.c]) builds its frame bitmaps; the kernel heap ([memory/heap.c]) takes frames
    from it and maps them. Address spaces are page tables in two formats, two-level or with
    physical address extension ([memory/paging.c]), built from the same frames; user memory is
    checked and copied through them. Tasks exchange messages through one ring ([kernel/ipc.c]). Disks are
    reached through block devices ([drivers/block_device.c]); for AHCI disks a table of probed
    devices ([drivers/ahci_device_table.c]) and a command builder ([drivers/ahci_layout.c]) stand
    behind them, with small state machines for completion interrupts and error recovery
    ([drivers/ahci_irq_state.c], [drivers/ata_irq_state.c], [drivers/ahci_recovery_state.c]) and
    bus-master descriptors for the older ATA path ([drivers/ata_dma.c], [drivers/pci_layout.c]).
    The virtual filesystem ([fs/vfs.c]) mounts one FAT16 volume ([fs/fat.c]) read-only. The RAM
    filesystem ([fs/ramfs.c]) is made persistent ([fs/persistent.c]) by a journal
    ([fs/journal.c]) in the last sectors of the ATA disk, outside the FAT volume. Time comes from
    the HPET ([drivers/hpet_time.c]) and the CMOS clock ([drivers/rtc_time.c], [drivers/rtc.c]).
    The firmware describes timers and interrupt controllers in tables the kernel parses
    ([drivers/acpi_tables.c]). User programs are ELF images ([process/elf_loader.c]). Tasks share
    the processor by turns ([process/scheduler.c]).

    ** Files

    - [Prelude]: C arithmetic, loops, arrays, the tactics and hint databases, shared lemmas.
    - [BootInfo]: boot structure and memory map.
    - [Pmm], [PmmInit], [PmmSpec]: the frame allocator, its initialisation, and the refinement of
      a specification in which every frame has one owner.
    - [Heap], [HeapInv], [HeapSpec], [HeapClient]: the heap over byte-addressed memory, its chain
      of blocks, the functions' contracts, and what any well-behaved client may rely on.
    - [Ipc]: the message ring as a first-in first-out queue with receiver filtering.
    - [Journal], [JournalFormat], [JournalLog], [JournalSafety]: record formats and CRC, the log
      on a sector device, crash safety of the append, correctness of the replay.
    - [Ramfs]: the RAM filesystem as a finite map.
    - [Persistent]: the two together; boot, format and updates across crashes.
    - [BlockDevice]: mediation between clients and drivers.
    - [Fat], [FatSpec], [FatRead], [FatMount], [FatNames]: the FAT code; the contents of a volume
      as pure functions of its sectors; reading, mounting and short names.
    - [Vfs]: retries, partition search and the journal region test over the block layer and FAT.
    - [IrqState]: modules [Ahci], [Ata] and [Recovery], one per state machine.
    - [AhciLayout], [AhciTable]: command structures and the device table over [BlockDevice].
    - [AtaDma]: region descriptors, transfer modes, PCI base addresses.
    - [HpetTime], [RtcTime]: time arithmetic and the clock.
    - [Checked]: outcomes of parsers with checked accesses, used by [Acpi] and [Elf].
    - [KernelCall]: calls on a shared state that return, panic, fault or run out of fuel.
    - [Acpi], [AcpiSpec], [AcpiMadt]: the firmware tables' parsers with checked accesses; their
      safety; the interrupt topology a table describes.
    - [Elf], [ElfSpec], [ElfPlace]: validation of ELF images; the images accepted; where an image
      is placed.
    - [PagingState], [PagingPae], [Paging]: the variables, table words and control registers;
      the code of [memory/paging.c] for either format; the processor's page walk.
    - [PagingEntry], [PagingForest], [PagingView], [PagingInv]: entries of either width; the
      invariant of a set of address spaces over an abstract view of their tables; the view of
      concrete tables, so that both formats share all proofs that follow.
    - [PagingOps], [PagingMap], [PagingProtect], [PagingUnmap], [PagingSpaces], [PagingCreate],
      [PagingDestroy]: what each operation does to the view, the frames and the invariant.
    - [PagingHw], [PagingLoaded], [PagingDangling], [PagingUser]: the page walk finds the entries of
      the view as far as the pointer registers agree with the tables; which calls keep them in
      agreement; the unmap that leaves a link to a free frame; user ranges and copies.
    - [PagingInit], [PagingTotal], [PagingBoot], [PagingSystem]: boot; success with free frames;
      reachable and settled states.
    - [PagingTheorems], [PagingGaps]: the properties; the states in which they fail.
    - [PagingClient], [PagingWork], [PagingLife]: the same operations seen by a client that works
      in a space of its own: its pages one by one, the frames it is charged with, what it leaves
      alone, and entering, leaving and destroying the space.
    - [ElfLoad], [ElfLoadSpec], [ElfTheorems]: loading and unloading of programs.
    - [Scheduler], [SchedulerSpec], [SchedulerSwitch], [SchedulerTheorems]: the task table and the
      functions of [process/scheduler.c]; the invariant and the operations; the interrupts; every
      sequence of both, identifiers, and the time a task waits for the processor.

    ** How code is represented

    A function keeps its C name. An [unsigned int] is a [Z] and each operation that can leave its
    width wraps ([x +32 y], [x -64 y], [shl32]); a test [(x & m) != 0] is [flag x m]. A static
    object is a record threaded through the calls, a returned 0 or null is [false], 0 or [None],
    an output parameter part of the result. Loops bounded by a constant or a counter recurse on
    it or use [for_loop], [find_first], [all_range]; a loop with an early return is split off as
    a function of its own. Sections that mask interrupts are single steps. A null test on a
    pointer that every caller takes from a live object is left out, as each file says.

    Code outside the model is a parameter. The heap uses frames and page tables through the class
    [PageSource]; the journal a disk through [SectorDisk] with [SectorDiskLaws] (a sector write is
    atomic, may fail, and a failed one leaves the old or the new sector); the persistent
    filesystem the ATA driver and the volume through [PersistentEnv]; the clock byte ports through
    [Ports]; a block device any callback on an arbitrary machine state; the VFS the stack buffer
    of a transfer through a function [load]. The scheduler's functions take what memory answers them
    as a record [answers].

    ** What is proved

    Memory: [pmm_init] frees exactly the frames inside usable and outside reserved memory; from
    then on every call is a step of the ownership specification, no frame is handed out twice,
    and freeing undoes allocating. Heap allocations are aligned, disjoint, stay intact and
    return whenever space remains; misuse of a canary or a double free panics.

    Address spaces, for both formats. A state is [reachable] by any sequence of calls after a
    successful boot, and of allocations elsewhere, with two exceptions: an unmap, in the space of the
    kernel, of the last page of a table that another space links ([unmap_safe]), which leaves the other
    space with a link to a free frame; and a copy to user memory before a changed pointer entry has
    been loaded ([coherent]). In every reachable state tables are well formed, kernel-owned
    and shared only with the kernel, and a frame counts as mapped for user mode exactly when one user
    page maps it. Mapping, protecting, unmapping, creating and destroying change exactly the pages and
    frames they name, and succeed when frames are free.

    With pointer tables the processor keeps the four pointer entries in registers, and the code does
    not reload them when it adds or frees a page directory. What is said about the processor is
    therefore proved for [settled] runs, those that enter another space after such a call; with
    two-level tables every reachable state is one ([settled_narrow]). Where a freed directory has been
    left, an address user mode can access maps a user frame that no other page maps for user mode and
    that holds no table, and with the no-execute bit nothing is writable and executable. Where a new
    one has been loaded as well, the check of a user range accepts exactly what the processor lets
    user mode access, and the copies do not fault. Boot gives every address the translation of
    [boot_page]; with pointer tables that leaves read-only data writable.

    Messages: every run of the ring has the results of the queue.

    Storage of files: for every pattern of device failures and at every point of a crash the
    journal holds the old or the new log, a record with one changed byte is rejected, encoding
    and decoding are inverse; a persistent update is all or nothing and the next boot restores
    it; formatting never touches a sector in use. A file read through VFS, FAT and the block
    layer delivers exactly the bytes the volume's tables assign to its name, never exceeds the
    buffer and ends on every allocation table, cyclic ones included; the journal region test
    accepts exactly the regions disjoint from the volume; short names print as they were typed,
    in capitals.

    Drivers: only requests inside the medium reach a driver, and for a registered AHCI disk the
    command built for such a request makes the controller transfer exactly its sectors; an
    interrupt is credited only to the command it belongs to; recovery escalates at most once per
    step and fails for good; a DMA descriptor never crosses a 64 KiB boundary.

    Time: tick conversion is exact up to saturation; in every register format the clock decodes
    to the time encoded, and an unstable clock is reported as unavailable after eight attempts.

    Firmware tables: on every input the parsers stay inside their bytes and arrays and end; the
    interrupt topology reported is the one the table's structures state, without duplicates.

    Programs: validation accepts exactly the images whose headers, segments and entry point obey
    the rules of [elf_ok], reading nothing outside the image; the load bias is the first of the
    32 proposals that puts every segment into free pages of the user area. Loading always returns: it adds exactly the pages of the image,
    with its contents and permissions, or leaves every page and frame as before; unloading takes
    them back exactly when the image has no gap.

    Tasks: over every sequence of operations and interrupts no identifier is given out twice. Once
    the scheduler has started, a task that can run has the processor after at most eight timer ticks
    or yields for every other slot in use, whatever the priorities, as long as the memory side finds
    nothing wrong; none of these interrupts finds the table without a task to run.

    The theorems that expose a defect of the code are [ramfs_self_test_effect] (the boot self
    test fails on a full filesystem), [persistent_format_drops_edits],
    [pae_rodata_writable] (read-only data stays writable with pointer tables),
    [pae_new_directory_unseen] (a new pointer entry is not loaded), [pae_directory_outlives] and
    [pae_stale_run] (a freed page directory stays in use), [trampoline_tick_loses_stack] (a tick at
    the end of a task loses its stack), [add_user_task_refused] and, in one conjunct each,
    [acpi_tables_safe] (a truncated root pointer is read past its end), [elf_unload_exact] (an
    image with a gap is loaded but cannot be unloaded) and [paging_unmap_correct] (a table of the
    kernel is freed while other spaces link it).

    ** Bounds and fuel

    Functions whose C loop has no syntactic bound take fuel and have an outcome for its
    exhaustion ([Diverges] in the heap and the ACPI tables, [NoFuel] in FAT, [None] in the
    HPET multiplication), which the theorems exclude. Heap walks have one step per header
    that fits into the mapped bytes; FAT chains one step more than the volume has clusters,
    which the code's own guard enforces; path walks one step per character; an ACPI table
    one step per byte, each structure having two; the page search for a load bias one step
    per page of the largest image; unloading one step per page of the user area; a user range or the kernel image one step per page and one
    more; the multiplication 32 steps for a 32-bit factor; the scheduler is entered at most twice in
    one interrupt, since a task that faults on the way out has ended the second time.

    ** Not modelled

    Boot and interrupt assembly, CPU and interrupt-controller setup ([cpu/]), the register
    sequences of [drivers/ahci.c], [drivers/ata.c], [drivers/hpet.c] and [drivers/pci.c],
    the console drivers, shell, games and messages are hardware access or user interface.
    Of [memory/paging.c] the self tests are left out, which call the modelled operations on
    scratch pages, and so is the translation buffer: the model's processor always walks the
    tables, so the invalidations have no effect in it, while the processor's own copy of the
    pointer entries is represented. The heap still sees page mapping
    through [PageSource]. Of [process/scheduler.c] everything that changes the task table is modelled,
    and not the pages of the task stacks with the interrupt frames on them, which the switch,
    [process/user_process.c] and [kernel/syscall.c] work on: a frame is written by assembly and by
    the processor. The
    search for ACPI tables and MSI setup ([drivers/acpi.c], [drivers/pci_msi.c]) are sequences of
    port and memory-mapped accesses. *)

From Stdlib Require Export ZArith Lia Bool ZifyBool.
From stdpp Require Export base list list_numbers numbers gmap option.

#[export] Set Default Goal Selector "!".

Open Scope Z_scope.

Declare Scope c_scope.
Delimit Scope c_scope with C.

(** ** C unsigned arithmetic

    A C [unsigned int] is a [Z] in [[0, 2^32)] and an [unsigned long long] a [Z] in
    [[0, 2^64)]; every operation that can leave the range wraps explicitly. *)

Definition u8 (x : Z) : Z := x mod 256.
Definition u16 (x : Z) : Z := x mod 65536.
Definition u32 (x : Z) : Z := x mod 4294967296.
Definition u64 (x : Z) : Z := x mod 18446744073709551616.

Definition UINT32_MAX : Z := 4294967295.
Definition UINT64_MAX : Z := 18446744073709551615.

Definition not8 (x : Z) : Z := 255 - x.
Definition not16 (x : Z) : Z := 65535 - x.
Definition not32 (x : Z) : Z := UINT32_MAX - x.

Definition shl32 (x n : Z) : Z := u32 (Z.shiftl x n).
Definition shl64 (x n : Z) : Z := u64 (Z.shiftl x n).

Notation "x +32 y" := (u32 (x + y)) (at level 50, left associativity) : c_scope.
Notation "x -32 y" := (u32 (x - y)) (at level 50, left associativity) : c_scope.
Notation "x *32 y" := (u32 (x * y)) (at level 40, left associativity) : c_scope.
Notation "x +64 y" := (u64 (x + y)) (at level 50, left associativity) : c_scope.
Notation "x -64 y" := (u64 (x - y)) (at level 50, left associativity) : c_scope.
Notation "x *64 y" := (u64 (x * y)) (at level 40, left associativity) : c_scope.

Definition is_u8 (x : Z) : Prop := 0 <= x < 256.
Definition is_u16 (x : Z) : Prop := 0 <= x < 65536.
Definition is_u32 (x : Z) : Prop := 0 <= x < 4294967296.
Definition is_u64 (x : Z) : Prop := 0 <= x < 18446744073709551616.

(** [flag x m] is the C test [(x & m) != 0]. *)
Definition flag (x m : Z) : bool := negb (Z.land x m =? 0).

(** ** Loops

    [for_loop lo hi body s] is [for (i = lo; i < hi; i++) s = body(i, s);], [find_first] the
    search loop that stops at the first index satisfying a test, [all_range] the loop that
    returns 0 at the first index failing a test. *)

Fixpoint for_count {S : Type} (n : nat) (i : Z) (body : Z -> S -> S) (s : S) : S :=
  match n with
  | O => s
  | S n => for_count n (i + 1) body (body i s)
  end.

Definition for_loop {S : Type} (lo hi : Z) (body : Z -> S -> S) (s : S) : S :=
  for_count (Z.to_nat (hi - lo)) lo body s.

Fixpoint find_count (n : nat) (i : Z) (p : Z -> bool) : option Z :=
  match n with
  | O => None
  | S n => if p i then Some i else find_count n (i + 1) p
  end.

Definition find_first (lo hi : Z) (p : Z -> bool) : option Z :=
  find_count (Z.to_nat (hi - lo)) lo p.

Definition all_range (lo hi : Z) (p : Z -> bool) : bool :=
  match find_first lo hi (fun i => negb (p i)) with
  | Some _ => false
  | None => true
  end.

(** Number of indices of [[0, n)] satisfying a test. *)
Fixpoint countb (p : Z -> bool) (n : nat) : Z :=
  match n with
  | O => 0
  | S n => countb p n + (if p (Z.of_nat n) then 1 else 0)
  end.

(** The same with a [Z] bound, sealed: conversion never unfolds a large bound in unary. *)
Definition count_to_aux : seal (fun (m : Z) (p : Z -> bool) => countb p (Z.to_nat m)).
Proof. by eexists. Qed.
Definition count_to : Z -> (Z -> bool) -> Z := count_to_aux.(unseal).
Definition count_to_unseal : count_to = fun m p => countb p (Z.to_nat m) :=
  count_to_aux.(seal_eq).

(** ** Arrays of machine words

    An array is a list; [arr a i] reads it at a [Z] index. The default 0 stands for an
    index the models never reach: each model either proves its indices in range or uses
    [arr_opt], whose [None] is an out-of-bounds access. *)

Definition arr (a : list Z) (i : Z) : Z := nth (Z.to_nat i) a 0.

Definition arr_opt (a : list Z) (i : Z) : option Z :=
  if (0 <=? i) && (i <? Z.of_nat (length a)) then Some (arr a i) else None.

Definition arr_set (a : list Z) (i v : Z) : list Z := <[Z.to_nat i := v]> a.

(** ** Tactics *)

(** Case analysis on every test of the goal or of a hypothesis. *)
Ltac case_if :=
  match goal with
  | |- context [if ?b then _ else _] => destruct b eqn:?
  | H : context [if ?b then _ else _] |- _ => destruct b eqn:?
  end.

(** Split conjunctions of booleans that hold and disjunctions that do not. *)
Ltac split_bools :=
  repeat match goal with
  | H : _ && _ = true |- _ => apply andb_prop in H; destruct H
  | H : _ || _ = false |- _ => apply orb_false_elim in H; destruct H
  | H : negb _ = true |- _ => apply negb_true_iff in H
  | H : negb _ = false |- _ => apply negb_false_iff in H
  | H : (_, _) = (_, _) |- _ => injection H as; subst
  | H : Some _ = Some _ |- _ => injection H as; subst
  | H : true = false |- _ => discriminate H
  | H : false = true |- _ => discriminate H
  | H : Some _ = None |- _ => discriminate H
  | H : None = Some _ |- _ => discriminate H
  end.

(** Step past the early returns of a function whose successful result is assumed. *)
Ltac guards :=
  cbv zeta;
  repeat match goal with
  | |- (if ?b then None else _) = Some _ -> _ => destruct b eqn:?; [discriminate|]
  | |- (if ?b then (None, _) else _) = (Some _, _) -> _ => destruct b eqn:?; [discriminate|]
  | |- (if ?b then false else _) = true -> _ => destruct b eqn:?; [discriminate|]
  | |- (if ?b then (false, _) else _) = (true, _) -> _ => destruct b eqn:?; [discriminate|]
  end.

(** Linear arithmetic with division and modulo by constants. *)
Ltac dmlia := Z.div_mod_to_equations; lia.

Create HintDb efes.
Create Rewrite HintDb len.

(** ** Lemmas on machine integers *)

Lemma u32_id x : is_u32 x -> u32 x = x.
Proof. intros H. apply Z.mod_small, H. Qed.

Lemma u64_id x : is_u64 x -> u64 x = x.
Proof. intros H. apply Z.mod_small, H. Qed.

Lemma u16_id x : is_u16 x -> u16 x = x.
Proof. intros H. apply Z.mod_small, H. Qed.

Lemma u8_id x : is_u8 x -> u8 x = x.
Proof. intros H. apply Z.mod_small, H. Qed.

Lemma u8_range x : is_u8 (u8 x).
Proof. apply Z.mod_pos_bound. lia. Qed.

Lemma u16_range x : is_u16 (u16 x).
Proof. apply Z.mod_pos_bound. lia. Qed.

Lemma u32_range x : is_u32 (u32 x).
Proof. apply Z.mod_pos_bound. lia. Qed.

Lemma u64_range x : is_u64 (u64 x).
Proof. apply Z.mod_pos_bound. lia. Qed.

#[export] Hint Resolve u8_range u16_range u32_range u64_range : efes.

Lemma land_mask x n : 0 <= n -> Z.land x (2 ^ n - 1) = x mod 2 ^ n.
Proof.
  intros Hn. replace (2 ^ n - 1) with (Z.ones n) by (rewrite Z.ones_equiv; lia).
  by apply Z.land_ones.
Qed.

Lemma land_4095 x : Z.land x 4095 = x mod 4096.
Proof. apply (land_mask x 12). lia. Qed.

Lemma land_255 x : Z.land x 255 = x mod 256.
Proof. apply (land_mask x 8). lia. Qed.

Lemma land_65535 x : Z.land x 65535 = x mod 65536.
Proof. apply (land_mask x 16). lia. Qed.

Lemma shl1_pow2 k : 0 <= k < 32 -> shl32 1 k = 2 ^ k.
Proof.
  intros Hk. unfold shl32. rewrite Z.shiftl_mul_pow2, Z.mul_1_l by lia.
  apply u32_id. split; [lia|].
  change 4294967296 with (2 ^ 32). apply Z.pow_lt_mono_r; lia.
Qed.

Lemma land_pow2_zero w k : 0 <= k -> (Z.land w (2 ^ k) =? 0) = negb (Z.testbit w k).
Proof.
  intros Hk. destruct (Z.testbit w k) eqn:E; simpl.
  - apply Z.eqb_neq. intros Hz.
    assert (Z.testbit (Z.land w (2 ^ k)) k = true) as Ht.
    { by rewrite Z.land_spec, E, Z.pow2_bits_true. }
    by rewrite Hz, Z.bits_0 in Ht.
  - apply Z.eqb_eq, Z.bits_inj'. intros n Hn.
    rewrite Z.land_spec, Z.bits_0. destruct (decide (n = k)) as [->|Hne].
    + by rewrite E.
    + rewrite Z.pow2_bits_false by lia. apply andb_false_r.
Qed.

Lemma flag_pow2 w k : 0 <= k -> flag w (2 ^ k) = Z.testbit w k.
Proof. intros Hk. unfold flag. by rewrite land_pow2_zero, negb_involutive. Qed.

Lemma not32_testbit w k : is_u32 w -> 0 <= k < 32 ->
  Z.testbit (not32 w) k = negb (Z.testbit w k).
Proof.
  intros Hw Hk.
  replace (not32 w) with (Z.lnot w mod 2 ^ 32).
  - rewrite Z.mod_pow2_bits_low by lia. rewrite Z.lnot_spec by lia. done.
  - unfold not32, UINT32_MAX, Z.lnot, is_u32 in *. change (2 ^ 32) with 4294967296.
    symmetry. apply Z.mod_unique with (-1); lia.
Qed.

(** Masking the low bits away. *)
Lemma land_not32 x k : is_u32 x -> 0 <= k < 32 -> Z.land x (not32 (2 ^ k - 1)) = x / 2 ^ k * 2 ^ k.
Proof.
  intros Hx Hk. assert (Hp : is_u32 (2 ^ k - 1)).
  { pose proof (Z.pow_pos_nonneg 2 k ltac:(lia) ltac:(lia)).
    pose proof (Z.pow_lt_mono_r 2 k 32 ltac:(lia) ltac:(lia) ltac:(lia)). unfold is_u32. lia. }
  rewrite <- Z.shiftr_div_pow2, <- Z.shiftl_mul_pow2, <- Z.ldiff_ones_r by lia.
  rewrite Z.ones_equiv, <- Z.sub_1_r. apply Z.bits_inj'. intros n Hn. rewrite Z.land_spec, Z.ldiff_spec.
  destruct (Z_lt_ge_dec n 32) as [Hlt|Hge]; [by rewrite not32_testbit by (done || lia)|].
  rewrite (Z.bits_above_log2 x n); [done|unfold is_u32 in Hx; lia|].
  destruct (decide (x = 0)) as [->|Hnz]; [cbn; lia|]. apply Z.lt_le_trans with 32; [|lia].
  unfold is_u32 in Hx. apply Z.log2_lt_pow2; [lia|]. change (2 ^ 32) with 4294967296. lia.
Qed.

Lemma pow2_u32 k : 0 <= k < 32 -> is_u32 (2 ^ k).
Proof.
  intros Hk. split; [apply Z.pow_nonneg; lia|].
  change 4294967296 with (2 ^ 32). apply Z.pow_lt_mono_r; lia.
Qed.

Lemma lxor_u32 a b : is_u32 a -> is_u32 b -> is_u32 (Z.lxor a b).
Proof.
  unfold is_u32. change 4294967296 with (2 ^ 32). intros Ha Hb.
  split; [apply Z.lxor_nonneg; lia|].
  destruct (decide (Z.lxor a b = 0)) as [->|Hne]; [lia|].
  apply Z.log2_lt_pow2; [pose proof (proj2 (Z.lxor_nonneg a b)); lia|].
  pose proof (Z.log2_lxor a b ltac:(lia) ltac:(lia)).
  assert (forall x, 0 <= x < 2 ^ 32 -> Z.log2 x < 32) as Hlog.
  { intros x Hx. destruct (decide (x = 0)) as [->|]; [simpl; lia|]. apply Z.log2_lt_pow2; lia. }
  pose proof (Hlog a Ha). pose proof (Hlog b Hb). lia.
Qed.

(** ** Lemmas on loops *)

Lemma for_count_S {S} n i (body : Z -> S -> S) s :
  for_count (Datatypes.S n) i body s = body (i + Z.of_nat n) (for_count n i body s).
Proof.
  revert i s. induction n as [|n IH]; intros i s.
  - simpl. by rewrite Z.add_0_r.
  - change (for_count (Datatypes.S (Datatypes.S n)) i body s)
      with (for_count (Datatypes.S n) (i + 1) body (body i s)).
    rewrite IH. simpl for_count. f_equal. lia.
Qed.

(** Loop rule: an invariant indexed by the counter. *)
Lemma for_loop_inv {S} (I : Z -> S -> Prop) lo hi body s :
  lo <= hi -> I lo s ->
  (forall i s, lo <= i < hi -> I i s -> I (i + 1) (body i s)) ->
  I hi (for_loop lo hi body s).
Proof.
  intros Hle H0 Hstep. unfold for_loop.
  assert (forall n, Z.of_nat n <= hi - lo ->
    I (lo + Z.of_nat n) (for_count n lo body s)) as Hn.
  { induction n as [|n IH]; intros Hn.
    - simpl. by rewrite Z.add_0_r.
    - rewrite for_count_S. replace (lo + Z.of_nat (Datatypes.S n))
        with (lo + Z.of_nat n + 1) by lia.
      apply Hstep; [lia|]. apply IH. lia. }
  specialize (Hn (Z.to_nat (hi - lo))).
  replace (lo + Z.of_nat (Z.to_nat (hi - lo))) with hi in Hn by lia.
  apply Hn. lia.
Qed.

Lemma for_loop_empty {S} lo hi (body : Z -> S -> S) s :
  hi <= lo -> for_loop lo hi body s = s.
Proof. intros H. unfold for_loop. by replace (Z.to_nat (hi - lo)) with O by lia. Qed.

Lemma for_loop_snoc {S} lo hi (body : Z -> S -> S) s :
  lo <= hi -> for_loop lo (hi + 1) body s = body hi (for_loop lo hi body s).
Proof.
  intros H. unfold for_loop.
  replace (Z.to_nat (hi + 1 - lo)) with (Datatypes.S (Z.to_nat (hi - lo))) by lia.
  rewrite for_count_S. f_equal. lia.
Qed.

Lemma for_loop_cons {S} lo hi (body : Z -> S -> S) s :
  lo < hi -> for_loop lo hi body s = for_loop (lo + 1) hi body (body lo s).
Proof.
  intros H. unfold for_loop.
  by replace (Z.to_nat (hi - lo)) with (Datatypes.S (Z.to_nat (hi - (lo + 1)))) by lia.
Qed.

Lemma find_count_Some n i p r :
  find_count n i p = Some r <->
  i <= r < i + Z.of_nat n /\ p r = true /\ (forall j, i <= j < r -> p j = false).
Proof.
  revert i. induction n as [|n IH]; intros i; simpl.
  { split; [done|]. lia. }
  destruct (p i) eqn:E.
  - split.
    + intros [= <-]. repeat split; [lia|lia|done|]. intros j Hj. lia.
    + intros (Hr & Hp & Hlow). destruct (decide (r = i)) as [->|Hne]; [done|].
      rewrite (Hlow i) in E by lia. done.
  - rewrite IH. split; intros (Hr & Hp & Hlow).
    + repeat split; [lia|lia|done|]. intros j Hj.
      destruct (decide (j = i)) as [->|]; [done|]. apply Hlow. lia.
    + assert (r <> i) by (intros ->; congruence).
      repeat split; [lia|lia|done|]. intros j Hj. apply Hlow. lia.
Qed.

Lemma find_count_None n i p :
  find_count n i p = None <-> (forall j, i <= j < i + Z.of_nat n -> p j = false).
Proof.
  revert i. induction n as [|n IH]; intros i; simpl.
  { split; [|done]. intros _ j Hj. lia. }
  destruct (p i) eqn:E.
  - split; [done|]. intros H. rewrite H in E by lia. done.
  - rewrite IH. split; intros H j Hj.
    + destruct (decide (j = i)) as [->|]; [done|]. apply H. lia.
    + apply H. lia.
Qed.

Lemma find_first_Some lo hi p r :
  find_first lo hi p = Some r <->
  lo <= r < hi /\ p r = true /\ (forall j, lo <= j < r -> p j = false).
Proof. unfold find_first. rewrite find_count_Some. intuition lia. Qed.

Lemma find_first_None lo hi p :
  find_first lo hi p = None <-> (forall j, lo <= j < hi -> p j = false).
Proof.
  unfold find_first. rewrite find_count_None.
  split; intros H j Hj; apply H; lia.
Qed.

Lemma all_range_true lo hi p :
  all_range lo hi p = true <-> (forall i, lo <= i < hi -> p i = true).
Proof.
  unfold all_range. destruct (find_first lo hi _) as [r|] eqn:E.
  - apply find_first_Some in E as (Hr & Hp & _). split; [done|].
    intros H. rewrite H in Hp by lia. done.
  - pose proof (proj1 (find_first_None _ _ _) E) as Hn. split; [|done].
    intros _ i Hi. specialize (Hn i Hi). by apply negb_false_iff in Hn.
Qed.

Lemma find_first_ext lo hi p q :
  (forall i, lo <= i < hi -> p i = q i) -> find_first lo hi p = find_first lo hi q.
Proof.
  intros H. destruct (find_first lo hi q) as [r|] eqn:E.
  - apply find_first_Some in E as (Hr & Hp & Hl). apply find_first_Some.
    split; [done|]. split; [rewrite H; [done|lia]|].
    intros j Hj. rewrite H by lia. by apply Hl.
  - pose proof (proj1 (find_first_None _ _ _) E) as Hn.
    apply find_first_None. intros j Hj. rewrite H by done. by apply Hn.
Qed.

(** ** Lemmas on counting *)

Lemma countb_ext p q n :
  (forall i, 0 <= i < Z.of_nat n -> p i = q i) -> countb p n = countb q n.
Proof.
  induction n as [|n IH]; intros H; simpl; [done|].
  rewrite IH, H; [done|lia|]. intros i Hi. apply H. lia.
Qed.

Lemma countb_range p n : 0 <= countb p n <= Z.of_nat n.
Proof. induction n as [|n IH]; simpl; [lia|]. destruct (p _); lia. Qed.

(** Turning one index on adds one. *)
Lemma countb_set p q n b :
  0 <= b < Z.of_nat n -> p b = false -> q b = true ->
  (forall i, 0 <= i < Z.of_nat n -> i <> b -> q i = p i) -> countb q n = countb p n + 1.
Proof.
  intros Hb Hp Hq Hne. induction n as [|n IH]; [lia|]. simpl.
  destruct (decide (b = Z.of_nat n)) as [->|Hbn].
  - rewrite Hp, Hq, (countb_ext q p n); [lia|]. intros i Hi. apply Hne; lia.
  - rewrite IH; [|lia|intros i Hi; apply Hne; lia].
    rewrite (Hne (Z.of_nat n)) by lia. lia.
Qed.

Lemma countb_clear p q n b :
  0 <= b < Z.of_nat n -> p b = true -> q b = false ->
  (forall i, 0 <= i < Z.of_nat n -> i <> b -> q i = p i) -> countb q n = countb p n - 1.
Proof.
  intros Hb Hp Hq Hne.
  rewrite (countb_set q p n b); [lia|done..|]. intros i Hi Hn. symmetry. by apply Hne.
Qed.

Lemma countb_false p n :
  (forall i, 0 <= i < Z.of_nat n -> p i = false) -> countb p n = 0.
Proof.
  induction n as [|n IH]; intros H; simpl; [done|].
  rewrite IH, H; [done|lia|]. intros i Hi. apply H. lia.
Qed.

Lemma countb_pos p n b :
  0 <= b < Z.of_nat n -> p b = true -> 0 < countb p n.
Proof.
  intros Hb Hp. induction n as [|n IH]; [lia|]. simpl.
  pose proof (countb_range p n). destruct (decide (b = Z.of_nat n)) as [->|].
  - rewrite Hp. lia.
  - assert (0 < countb p n) by (apply IH; lia). destruct (p (Z.of_nat n)); lia.
Qed.

Lemma countb_le p q n :
  (forall i, 0 <= i < Z.of_nat n -> p i = true -> q i = true) -> countb p n <= countb q n.
Proof.
  induction n as [|n IH]; intros H; simpl; [lia|].
  assert (countb p n <= countb q n) by (apply IH; intros i Hi; apply H; lia).
  destruct (p (Z.of_nat n)) eqn:E; [|destruct (q _); lia].
  rewrite (H (Z.of_nat n)) by (done || lia). lia.
Qed.

Section count_to.
Context (m : Z).

Lemma count_to_ext p q :
  (forall b, 0 <= b < m -> p b = q b) -> count_to m p = count_to m q.
Proof. rewrite !count_to_unseal. intros H. apply countb_ext. intros i Hi. apply H. lia. Qed.

Lemma count_to_range p : 0 <= m -> 0 <= count_to m p <= m.
Proof. intros Hm. rewrite count_to_unseal. pose proof (countb_range p (Z.to_nat m)). lia. Qed.

Lemma count_to_set p q b : 0 <= b < m -> p b = false -> q b = true ->
  (forall i, 0 <= i < m -> i <> b -> q i = p i) -> count_to m q = count_to m p + 1.
Proof. rewrite !count_to_unseal. intros Hb Hp Hq H. apply countb_set with b; try done; [lia|]. intros i Hi. apply H. lia. Qed.

Lemma count_to_clear p q b : 0 <= b < m -> p b = true -> q b = false ->
  (forall i, 0 <= i < m -> i <> b -> q i = p i) -> count_to m q = count_to m p - 1.
Proof. rewrite !count_to_unseal. intros Hb Hp Hq H. apply countb_clear with b; try done; [lia|]. intros i Hi. apply H. lia. Qed.

Lemma count_to_false p : (forall b, 0 <= b < m -> p b = false) -> count_to m p = 0.
Proof. rewrite !count_to_unseal. intros H. apply countb_false. intros i Hi. apply H. lia. Qed.

Lemma count_to_pos p b : 0 <= b < m -> p b = true -> 0 < count_to m p.
Proof. rewrite !count_to_unseal. intros Hb Hp. apply countb_pos with b; [lia|done]. Qed.

Lemma count_to_sub (p q r : Z -> bool) :
  (forall b, 0 <= b < m ->
     (if p b then 1 else 0) - (if q b then 1 else 0) = if r b then 1 else 0) ->
  count_to m p - count_to m q = count_to m r.
Proof.
  rewrite count_to_unseal. intros H.
  assert (forall n : nat, (n <= Z.to_nat m)%nat -> countb p n - countb q n = countb r n) as Hn.
  { induction n as [|n IH]; intros Hle; [done|]. simpl.
    specialize (H (Z.of_nat n)). lia. }
  by apply Hn.
Qed.

End count_to.

(** ** Lemmas on arrays *)

Lemma arr_opt_in a i : 0 <= i < Z.of_nat (length a) -> arr_opt a i = Some (arr a i).
Proof. intros H. unfold arr_opt. by replace (_ && _) with true by lia. Qed.

Lemma length_arr_set a i v : length (arr_set a i v) = length a.
Proof. apply length_insert. Qed.

Lemma arr_lookup a i x : a !! Z.to_nat i = Some x -> arr a i = x.
Proof. intros H. unfold arr. apply nth_lookup_Some with (d := 0) in H. done. Qed.

Lemma arr_set_eq a i v : 0 <= i < Z.of_nat (length a) -> arr (arr_set a i v) i = v.
Proof.
  intros H. apply arr_lookup. unfold arr_set. apply list_lookup_insert_eq. lia.
Qed.

Lemma arr_set_ne a i j v : 0 <= i -> 0 <= j -> i <> j -> arr (arr_set a i v) j = arr a j.
Proof.
  intros Hi Hj Hne. unfold arr, arr_set. rewrite !nth_lookup.
  rewrite list_lookup_insert_ne by lia. done.
Qed.

#[export] Hint Rewrite length_arr_set : len.

Lemma arr_nth_lookup a i : 0 <= i < Z.of_nat (length a) -> a !! Z.to_nat i = Some (arr a i).
Proof.
  intros H. destruct (lookup_lt_is_Some_2 a (Z.to_nat i)) as [x Hx]; [lia|].
  by rewrite (arr_lookup a i x Hx).
Qed.

(** The byte-copy loop [for (i = 0; i < n; i++) dst[i] = src[i];]. *)
Definition copy_loop (n : Z) (src dst : list Z) : list Z :=
  for_loop 0 n (fun i d => arr_set d i (arr src i)) dst.

Lemma copy_loop_spec n src dst :
  0 <= n <= Z.of_nat (length src) -> n <= Z.of_nat (length dst) ->
  copy_loop n src dst = take (Z.to_nat n) src ++ drop (Z.to_nat n) dst.
Proof.
  intros Hs Hd. unfold copy_loop.
  apply (for_loop_inv (fun k d => d = take (Z.to_nat k) src ++ drop (Z.to_nat k) dst));
    [lia|done|].
  intros k d Hk ->. unfold arr_set. rewrite insert_app_r_alt by (rewrite length_take; lia).
  rewrite length_take, Nat.min_l, Nat.sub_diag by lia.
  replace (Z.to_nat (k + 1)) with (S (Z.to_nat k)) by lia.
  rewrite (take_S_r _ _ _ (arr_nth_lookup src k ltac:(lia))), <- app_assoc. f_equal.
  rewrite (drop_S dst (arr dst k)) by (apply arr_nth_lookup; lia). done.
Qed.

Lemma length_copy_loop n src dst : 0 <= n -> length (copy_loop n src dst) = length dst.
Proof.
  intros Hn. unfold copy_loop.
  apply (for_loop_inv (fun _ d => length d = length dst)); [lia|done|].
  intros i d _ <-. apply length_arr_set.
Qed.

(** ** First matching element *)

(** The first element satisfying [p], and the list without it. *)
Fixpoint take_first {A : Type} (p : A -> bool) (l : list A) : option (A * list A) :=
  match l with
  | [] => None
  | x :: l =>
      if p x then Some (x, l) else
      match take_first p l with
      | None => None
      | Some (y, l) => Some (y, x :: l)
      end
  end.

Lemma take_first_index {A} (p : A -> bool) l i x :
  l !! i = Some x -> p x = true -> (forall j y, (j < i)%nat -> l !! j = Some y -> p y = false) ->
  take_first p l = Some (x, delete i l).
Proof.
  revert i. induction l as [|y l IH]; intros i Hi Hp Hlow; [done|]. simpl.
  destruct i as [|i]; simpl in Hi.
  - injection Hi as ->. by rewrite Hp.
  - rewrite (Hlow 0%nat y) by (done || lia).
    rewrite (IH i) by (try done; intros j z Hj; apply (Hlow (S j)); lia). done.
Qed.

Lemma take_first_None {A} (p : A -> bool) l :
  (forall i x, l !! i = Some x -> p x = false) -> take_first p l = None.
Proof.
  induction l as [|y l IH]; intros H; [done|]. simpl. rewrite (H 0%nat y) by done.
  rewrite IH; [done|]. intros i x. apply (H (S i)).
Qed.

(** ** Deleting from a list *)

Lemma elem_of_delete {A} (l : list A) i x : x ∈ delete i l -> x ∈ l.
Proof.
  intros [k Hk]%list_elem_of_lookup. rewrite list_lookup_delete in Hk.
  by eapply list_elem_of_lookup_2.
Qed.

Lemma NoDup_delete {A} (l : list A) i : NoDup l -> NoDup (delete i l).
Proof.
  intros H. revert i. induction H as [|x l Hx Hl IH]; intros i; [by destruct i; apply NoDup_nil_2|].
  destruct i as [|i]; simpl; [done|]. apply NoDup_cons_2; [|apply IH].
  intros ?%elem_of_delete. done.
Qed.

Lemma fmap_delete_list {A B} (f : A -> B) (l : list A) i :
  f <$> delete i l = delete i (f <$> l).
Proof. by rewrite !delete_take_drop, fmap_app, fmap_take, fmap_drop. Qed.

Lemma Forall_delete_list {A} (P : A -> Prop) (l : list A) i : Forall P l -> Forall P (delete i l).
Proof. intros H. rewrite delete_take_drop. apply Forall_app. split; [by apply Forall_take|by apply Forall_drop]. Qed.

(** ** Little-endian fields *)

Definition bytes_ok (l : list Z) : Prop := Forall is_u8 l.

Lemma arr_u8 l i : bytes_ok l -> is_u8 (arr l i).
Proof.
  intros H. unfold arr. destruct (nth_in_or_default (Z.to_nat i) l 0) as [Hin | ->].
  - apply (proj1 (Forall_forall _ _) H). exact Hin.
  - unfold is_u8. lia.
Qed.

Lemma bytes_ok_set l i v : bytes_ok l -> is_u8 v -> bytes_ok (arr_set l i v).
Proof. intros H Hv. by apply Forall_insert. Qed.

(** Bits that do not overlap: [lor] is addition. *)
Lemma lor_shiftl a b k : 0 <= k -> 0 <= a < 2 ^ k -> Z.lor a (Z.shiftl b k) = a + b * 2 ^ k.
Proof.
  intros Hk Ha. rewrite Z.shiftl_mul_pow2 by lia. rewrite <- Z.add_lor_land.
  replace (Z.land a (b * 2 ^ k)) with 0; [lia|]. symmetry.
  apply Z.bits_inj'. intros n Hn. rewrite Z.land_spec, Z.bits_0.
  destruct (Z_lt_ge_dec n k) as [Hlt|Hge].
  - rewrite Z.mul_pow2_bits_low by lia. apply andb_false_r.
  - replace a with (a mod 2 ^ k) by (apply Z.mod_small; lia).
    rewrite Z.mod_pow2_bits_high by lia. done.
Qed.

Lemma lor_shl8 a b : 0 <= a < 256 -> Z.lor a (Z.shiftl b 8) = a + 256 * b.
Proof. intros. rewrite lor_shiftl by (done || lia). lia. Qed.

Lemma lor_shl16 a b : 0 <= a < 65536 -> Z.lor a (Z.shiftl b 16) = a + 65536 * b.
Proof. intros. rewrite lor_shiftl by (done || lia). lia. Qed.

Lemma lor_shl24 a b : 0 <= a < 16777216 -> Z.lor a (Z.shiftl b 24) = a + 16777216 * b.
Proof. intros. rewrite lor_shiftl by (done || lia). lia. Qed.

Lemma arr_set_get l i j v : 0 <= i < Z.of_nat (length l) -> 0 <= j ->
  arr (arr_set l i v) j = if i =? j then v else arr l j.
Proof.
  intros Hi Hj. destruct (Z.eqb_spec i j) as [->|Hne]; [by apply arr_set_eq|].
  apply arr_set_ne; lia.
Qed.

(** Two arrays of one length that agree at every index are equal. *)
Lemma arr_ext l l' : length l = length l' ->
  (forall i, 0 <= i < Z.of_nat (length l) -> arr l i = arr l' i) -> l = l'.
Proof.
  intros Hlen H. apply list_eq_same_length with (length l); [done|done|].
  intros i x y Hi Hx Hy. specialize (H (Z.of_nat i) ltac:(lia)).
  rewrite (arr_lookup l (Z.of_nat i) x), (arr_lookup l' (Z.of_nat i) y) in H
    by (by rewrite Nat2Z.id). done.
Qed.
