(* ===== verification/BootInfo.v ===== *)
(** * Boot metadata and the E820 memory map

    The structure stage 2 hands to the kernel, its validation
    ([include/boot_info.h], [boot_info_is_valid]) and the two-pass application of the
    firmware memory map ([memory/e820.c], [e820_apply_memory_map]). *)

From S2P Require Import Prelude.
Local Open Scope c_scope.
Local Open Scope Z_scope.

(** ** Constants *)

Definition BOOT_INFO_MAGIC : Z := 0x534F4645.
Definition BOOT_INFO_MAX_MEMORY_MAP_ENTRIES : Z := 32.
Definition BOOT_MEMORY_AVAILABLE : Z := 1.
Definition BOOT_VIDEO_FONT_AVAILABLE : Z := 1.
Definition BOOT_KERNEL_INTEGRITY_VERIFIED : Z := 2.
Definition BOOT_INFO_KNOWN_FLAGS : Z :=
  Z.lor BOOT_VIDEO_FONT_AVAILABLE BOOT_KERNEL_INTEGRITY_VERIFIED.
Definition BOOT_MEMORY_KNOWN_ATTRIBUTES : Z := 3.
(** [sizeof(struct boot_memory_map_entry)]: six packed 32-bit words. *)
Definition sizeof_boot_memory_map_entry : Z := 24.

(** ** Data *)

Record boot_memory_map_entry := {
  base_low : Z;
  base_high : Z;
  length_low : Z;
  length_high : Z;
  type : Z;
  attributes : Z
}.

Definition null_entry : boot_memory_map_entry := Build_boot_memory_map_entry 0 0 0 0 0 0.

Record boot_info := {
  magic : Z;
  boot_drive : Z;
  memory_map_entry_count : Z;
  memory_map_entry_size : Z;
  vga_font_address : Z;
  video_flags : Z;
  memory_map : list boot_memory_map_entry;
  acpi_rsdp_address : Z
}.

(** [&info->memory_map[index]]; every index used is below the validated count. *)
Definition map_entry (info : boot_info) (index : Z) : boot_memory_map_entry :=
  nth (Z.to_nat index) (memory_map info) null_entry.

Definition entry_base (entry : boot_memory_map_entry) : Z :=
  Z.lor (shl64 (base_high entry) 32) (base_low entry).

Definition entry_length (entry : boot_memory_map_entry) : Z :=
  Z.lor (shl64 (length_high entry) 32) (length_low entry).

(** ** Validation *)

(** The header conjuncts of [boot_info_is_valid], before its entry loop. *)
Definition boot_header_ok (info : boot_info) : bool :=
  negb (negb (magic info =? BOOT_INFO_MAGIC) ||
    (0xFF <? boot_drive info) ||
    negb (memory_map_entry_size info =? sizeof_boot_memory_map_entry) ||
    (memory_map_entry_count info =? 0) ||
    (BOOT_INFO_MAX_MEMORY_MAP_ENTRIES <? memory_map_entry_count info) ||
    flag (video_flags info) (not32 BOOT_INFO_KNOWN_FLAGS) ||
    (flag (video_flags info) BOOT_VIDEO_FONT_AVAILABLE &&
      ((vga_font_address info <? 0x1000) || (0x003FF000 <=? vga_font_address info))) ||
    (negb (flag (video_flags info) BOOT_VIDEO_FONT_AVAILABLE) &&
      negb (vga_font_address info =? 0)) ||
    (negb (acpi_rsdp_address info =? 0) &&
      (flag (acpi_rsdp_address info) 0x0F ||
       negb (((0x00080000 <=? acpi_rsdp_address info) &&
              (acpi_rsdp_address info <? 0x000A0000)) ||
             ((0x000E0000 <=? acpi_rsdp_address info) &&
              (acpi_rsdp_address info <? 0x00100000)))))).

(** The body of the entry loop: [true] when the entry is accepted. *)
Definition boot_entry_ok (entry : boot_memory_map_entry) : bool :=
  let base := entry_base entry in
  let length := entry_length entry in
  let end_ := (base +64 length)%C in
  negb ((length =? 0) || (end_ <? base) || (type entry =? 0) ||
    flag (attributes entry) (not32 BOOT_MEMORY_KNOWN_ATTRIBUTES)).

(** [None] is the null pointer. *)
Definition boot_info_is_valid (info : option boot_info) : bool :=
  match info with
  | None => false
  | Some info =>
      boot_header_ok info &&
      all_range 0 (memory_map_entry_count info)
        (fun index => boot_entry_ok (map_entry info index))
  end.

(** ** Applying the map *)

Definition entry_active (entry : boot_memory_map_entry) : bool := flag (attributes entry) 1.

(** One pass of [e820_apply_memory_map]: the handler runs on each active entry whose type
    satisfies the pass's test. *)
Definition e820_pass {S : Type} (info : boot_info) (select : boot_memory_map_entry -> bool)
    (handler : Z -> Z -> S -> S) (s : S) : S :=
  for_loop 0 (memory_map_entry_count info)
    (fun index s =>
       let entry := map_entry info index in
       if entry_active entry && select entry
       then handler (entry_base entry) (entry_length entry) s
       else s) s.

Definition is_available (entry : boot_memory_map_entry) : bool :=
  type entry =? BOOT_MEMORY_AVAILABLE.

(** Usable ranges first, every active non-usable range second. *)
Definition e820_apply_memory_map {S : Type} (info : option boot_info)
    (usable_handler reserved_handler : option (Z -> Z -> S -> S)) (s : S) : bool * S :=
  match info, usable_handler, reserved_handler with
  | Some i, Some usable, Some reserved =>
      if negb (boot_info_is_valid info) then (false, s) else
      let s := e820_pass i is_available usable s in
      let s := e820_pass i (fun e => negb (is_available e)) reserved s in
      (true, s)
  | _, _, _ => (false, s)
  end.

(** ** Representation: every field is an unsigned 32-bit word *)

Definition entry_wf (e : boot_memory_map_entry) : Prop :=
  is_u32 (base_low e) /\ is_u32 (base_high e) /\ is_u32 (length_low e) /\
  is_u32 (length_high e) /\ is_u32 (type e) /\ is_u32 (attributes e).

Definition boot_info_wf (info : boot_info) : Prop :=
  is_u32 (magic info) /\ is_u32 (boot_drive info) /\
  is_u32 (memory_map_entry_count info) /\ is_u32 (memory_map_entry_size info) /\
  is_u32 (vga_font_address info) /\ is_u32 (video_flags info) /\
  is_u32 (acpi_rsdp_address info) /\
  length (memory_map info) = 32%nat /\ Forall entry_wf (memory_map info).

(** The entries the code looks at: the first [memory_map_entry_count]. *)
Definition map_entries (info : boot_info) : list boot_memory_map_entry :=
  take (Z.to_nat (memory_map_entry_count info)) (memory_map info).

(** ** Lemmas *)

Lemma lor_shl64 hi lo : is_u32 hi -> is_u32 lo ->
  Z.lor (shl64 hi 32) lo = hi * 4294967296 + lo.
Proof.
  unfold is_u32, shl64. intros Hh Hl.
  rewrite Z.shiftl_mul_pow2 by lia. change (2 ^ 32) with 4294967296.
  rewrite u64_id by (unfold is_u64; lia).
  rewrite <- Z.add_lor_land.
  replace (Z.land (hi * 4294967296) lo) with 0; [lia|].
  symmetry. apply Z.bits_inj'. intros n Hn. rewrite Z.land_spec, Z.bits_0.
  change 4294967296 with (2 ^ 32) in *.
  destruct (Z_lt_ge_dec n 32) as [Hlt|Hge].
  - rewrite Z.mul_pow2_bits_low by lia. done.
  - rewrite (Z.bits_above_log2 lo n); [apply andb_false_r|lia|].
    destruct (decide (lo = 0)) as [->|Hnz]; [simpl; lia|].
    apply Z.log2_lt_pow2; [lia|].
    apply Z.lt_le_trans with (2 ^ 32); [lia|]. apply Z.pow_le_mono_r; lia.
Qed.

Lemma entry_base_u64 e : entry_wf e -> is_u64 (entry_base e).
Proof.
  intros (? & ? & _). unfold entry_base. rewrite lor_shl64 by done.
  unfold is_u32, is_u64 in *. lia.
Qed.

Lemma entry_length_u64 e : entry_wf e -> is_u64 (entry_length e).
Proof.
  intros (_ & _ & ? & ? & _). unfold entry_length. rewrite lor_shl64 by done.
  unfold is_u32, is_u64 in *. lia.
Qed.

(** An accepted entry describes a non-empty range that does not wrap. *)
Lemma boot_entry_ok_range e : entry_wf e -> boot_entry_ok e = true ->
  0 < entry_length e /\ entry_base e + entry_length e < 18446744073709551616.
Proof.
  intros Hwf Hok. pose proof (entry_base_u64 e Hwf) as Hb.
  pose proof (entry_length_u64 e Hwf) as Hl.
  unfold boot_entry_ok in Hok. split_bools. unfold is_u64, u64 in *.
  dmlia.
Qed.

Lemma boot_info_valid_count info :
  boot_info_is_valid (Some info) = true ->
  0 < memory_map_entry_count info <= 32 \/ memory_map_entry_count info < 0.
Proof.
  simpl. unfold boot_header_ok, BOOT_INFO_MAX_MEMORY_MAP_ENTRIES.
  intros H. split_bools. lia.
Qed.

Lemma map_entry_lookup info i e :
  map_entries info !! i = Some e -> map_entry info (Z.of_nat i) = e.
Proof.
  intros H. unfold map_entry. rewrite Nat2Z.id.
  unfold map_entries in H. apply lookup_take_Some in H as [H _].
  by apply nth_lookup_Some.
Qed.

Lemma map_entries_ok info :
  boot_info_wf info -> boot_info_is_valid (Some info) = true ->
  Forall (fun e => entry_wf e /\ boot_entry_ok e = true) (map_entries info).
Proof.
  intros Hwf Hv. apply Forall_lookup. intros i e Hi. split.
  - destruct Hwf as (_ & _ & _ & _ & _ & _ & _ & _ & Hf).
    unfold map_entries in Hi. apply lookup_take_Some in Hi as [Hi _].
    rewrite Forall_lookup in Hf. by eapply Hf.
  - simpl in Hv. apply andb_prop in Hv as [_ Hv].
    rewrite all_range_true in Hv. rewrite <- (map_entry_lookup _ _ _ Hi). apply Hv.
    apply lookup_lt_Some in Hi. unfold map_entries in Hi. rewrite length_take in Hi. lia.
Qed.

(** A pass is a fold over the entries the code looks at. *)
Lemma e820_pass_foldl {S} info select (handler : Z -> Z -> S -> S) s :
  boot_info_wf info -> boot_info_is_valid (Some info) = true ->
  e820_pass info select handler s =
  foldl (fun s e => if entry_active e && select e
                    then handler (entry_base e) (entry_length e) s else s)
        s (map_entries info).
Proof.
  intros Hwf Hv. pose proof (boot_info_valid_count _ Hv) as Hc.
  destruct Hwf as (_ & _ & Hu & _ & _ & _ & _ & Hlen & _). unfold is_u32 in Hu.
  unfold e820_pass, map_entries.
  set (body := fun index s => _).
  apply (for_loop_inv (fun i s' => s' =
    foldl (fun s e => if entry_active e && select e
                      then handler (entry_base e) (entry_length e) s else s)
          s (take (Z.to_nat i) (memory_map info)))); [lia|done|].
  intros i s' Hi ->.
  destruct (lookup_lt_is_Some_2 (memory_map info) (Z.to_nat i)) as [e He]; [lia|].
  replace (Z.to_nat (i + 1)) with (Datatypes.S (Z.to_nat i)) by lia.
  rewrite (take_S_r _ _ _ He), foldl_app. simpl.
  unfold body. replace (map_entry info i) with e; [done|].
  symmetry. unfold map_entry. by apply nth_lookup_Some.
Qed.
