(* ===== verification/Pmm.v ===== *)
(** * Physical memory manager

    [memory/pmm.c]: one bit per 4 KiB frame of the 32-bit physical address space in four
    bitmaps, three counters, and the operations that build, hand out and take back frames.
    The state is the record [pmm]; the bitmaps keep the code's word layout (bit [b % 32] of
    word [b / 32]). *)

From S2P Require Import Prelude BootInfo.
Local Open Scope c_scope.
Local Open Scope Z_scope.

(** ** Constants *)

Definition PMM_BLOCK_SIZE : Z := 4096.
Definition PMM_MAX_BLOCKS : Z := 1048576.
Definition PMM_BITMAP_WORDS : Z := 32768.
Definition PMM_LOW_MEMORY_END : Z := 0x00100000.
Definition PMM_BOOTSTRAP_RESERVED_END : Z := 0x00100000.
Definition PMM_FRAMEBUFFER_BASE : Z := 0xE0000000.
Definition PMM_FRAMEBUFFER_PAGES : Z := 768.
Definition PMM_USER_MIN_ADDRESS : Z := 0x00400000.
Definition PMM_USER_MAX_ADDRESS : Z := 0x10000000.
Definition PMM_USER_MAX_BLOCKS : Z := 65536.
Definition PMM_USER_BITMAP_WORDS : Z := 2048.

(** ** Bitmaps: word arrays and their single-bit operations *)

(** [bm[i]]; the domain of the map is the array's index range (see [words_ok]). *)
Definition word (bm : gmap Z Z) (i : Z) : Z := default 0 (bm !! i).

Definition bit_mask (block : Z) : Z := shl32 1 (block mod 32).

Definition test_bit (bm : gmap Z Z) (block : Z) : bool :=
  flag (word bm (block / 32)) (bit_mask block).

Definition set_bit (bm : gmap Z Z) (block : Z) : gmap Z Z :=
  <[block / 32 := Z.lor (word bm (block / 32)) (bit_mask block)]> bm.

Definition clear_bit (bm : gmap Z Z) (block : Z) : gmap Z Z :=
  <[block / 32 := Z.land (word bm (block / 32)) (not32 (bit_mask block))]> bm.

(** The initialisation loop [for (word = 0; word < n; word++) bm[word] = v;]. *)
Definition fill_words (n v : Z) (bm : gmap Z Z) : gmap Z Z :=
  for_loop 0 n (fun i bm => <[i := v]> bm) bm.

(** ** State *)

Record pmm := {
  bitmap : gmap Z Z;
  usable_bitmap : gmap Z Z;
  user_bitmap : gmap Z Z;
  user_mapped_bitmap : gmap Z Z;
  detected_blocks : Z;
  managed_blocks : Z;
  used_managed_blocks : Z
}.

Definition set_bitmap (s : pmm) (b : gmap Z Z) : pmm :=
  Build_pmm b (usable_bitmap s) (user_bitmap s) (user_mapped_bitmap s)
    (detected_blocks s) (managed_blocks s) (used_managed_blocks s).
Definition set_usable_bitmap (s : pmm) (b : gmap Z Z) : pmm :=
  Build_pmm (bitmap s) b (user_bitmap s) (user_mapped_bitmap s)
    (detected_blocks s) (managed_blocks s) (used_managed_blocks s).
Definition set_user_bitmap (s : pmm) (b : gmap Z Z) : pmm :=
  Build_pmm (bitmap s) (usable_bitmap s) b (user_mapped_bitmap s)
    (detected_blocks s) (managed_blocks s) (used_managed_blocks s).
Definition set_user_mapped_bitmap (s : pmm) (b : gmap Z Z) : pmm :=
  Build_pmm (bitmap s) (usable_bitmap s) (user_bitmap s) b
    (detected_blocks s) (managed_blocks s) (used_managed_blocks s).
Definition set_detected (s : pmm) (n : Z) : pmm :=
  Build_pmm (bitmap s) (usable_bitmap s) (user_bitmap s) (user_mapped_bitmap s)
    n (managed_blocks s) (used_managed_blocks s).
Definition set_managed (s : pmm) (n : Z) : pmm :=
  Build_pmm (bitmap s) (usable_bitmap s) (user_bitmap s) (user_mapped_bitmap s)
    (detected_blocks s) n (used_managed_blocks s).
Definition set_used_managed (s : pmm) (n : Z) : pmm :=
  Build_pmm (bitmap s) (usable_bitmap s) (user_bitmap s) (user_mapped_bitmap s)
    (detected_blocks s) (managed_blocks s) n.

(** ** Single-block helpers *)

Definition block_is_used (s : pmm) (block : Z) : bool := test_bit (bitmap s) block.

Definition block_is_usable (s : pmm) (block : Z) : bool := test_bit (usable_bitmap s) block.

Definition mark_block_used (block : Z) (s : pmm) : pmm :=
  set_bitmap s (set_bit (bitmap s) block).

Definition mark_block_user_owned (block : Z) (s : pmm) : pmm :=
  if PMM_USER_MAX_BLOCKS <=? block then s
  else set_user_bitmap s (set_bit (user_bitmap s) block).

Definition mark_block_kernel_owned (block : Z) (s : pmm) : pmm :=
  if PMM_USER_MAX_BLOCKS <=? block then s
  else set_user_bitmap s (clear_bit (user_bitmap s) block).

Definition user_mapped (s : pmm) (block : Z) : bool :=
  (block <? PMM_USER_MAX_BLOCKS) && test_bit (user_mapped_bitmap s) block.

Definition mark_user_mapped (block : Z) (s : pmm) : pmm :=
  if block <? PMM_USER_MAX_BLOCKS
  then set_user_mapped_bitmap s (set_bit (user_mapped_bitmap s) block) else s.

Definition mark_user_unmapped (block : Z) (s : pmm) : pmm :=
  if block <? PMM_USER_MAX_BLOCKS
  then set_user_mapped_bitmap s (clear_bit (user_mapped_bitmap s) block) else s.

Definition mark_block_free (block : Z) (s : pmm) : pmm :=
  set_bitmap s (clear_bit (bitmap s) block).

Definition mark_block_available (block : Z) (s : pmm) : pmm :=
  if (PMM_MAX_BLOCKS <=? block) || block_is_usable s block then s else
  let s := set_usable_bitmap s (set_bit (usable_bitmap s) block) in
  let s := set_managed s (managed_blocks s +32 1) in
  mark_block_free block s.

Definition mark_block_reserved (block : Z) (s : pmm) : pmm :=
  if PMM_MAX_BLOCKS <=? block then s else
  let s :=
    if block_is_usable s block then
      let s := set_usable_bitmap s (clear_bit (usable_bitmap s) block) in
      let s := set_managed s (managed_blocks s -32 1) in
      if block_is_used s block then set_used_managed s (used_managed_blocks s -32 1) else s
    else s in
  mark_block_used block s.

Definition clamp_block_index (value : Z) : Z :=
  if PMM_MAX_BLOCKS <=? value then PMM_MAX_BLOCKS else u32 value.

(** ** Range handlers and initialisation *)

Definition release_e820_range (base length : Z) (s : pmm) : pmm :=
  let end_ := base +64 length in
  if (length =? 0) || (end_ <? base) then s else
  let first_block_64 := Z.shiftr base 12 in
  let first_block_64 :=
    if flag base (PMM_BLOCK_SIZE - 1) then first_block_64 +64 1 else first_block_64 in
  let end_block_64 := Z.shiftr end_ 12 in
  let first_block := clamp_block_index first_block_64 in
  let end_block := clamp_block_index end_block_64 in
  let s := if detected_blocks s <? end_block then set_detected s end_block else s in
  for_loop first_block end_block mark_block_available s.

Definition reserve_e820_range (base length : Z) (s : pmm) : pmm :=
  let end_ := base +64 length in
  if (length =? 0) || (end_ <? base) then s else
  let first_block_64 := Z.shiftr base 12 in
  let end_block_64 := Z.shiftr end_ 12 in
  let end_block_64 :=
    if flag end_ (PMM_BLOCK_SIZE - 1) then end_block_64 +64 1 else end_block_64 in
  let first_block := clamp_block_index first_block_64 in
  let end_block := clamp_block_index end_block_64 in
  for_loop first_block end_block mark_block_reserved s.

Definition pmm_reserve_range (address length : Z) (s : pmm) : pmm :=
  if length =? 0 then s else
  let end_ := address +64 length in
  let first_block := address / PMM_BLOCK_SIZE in
  let end_block :=
    clamp_block_index (Z.shiftr ((end_ +64 PMM_BLOCK_SIZE) -64 1) 12) in
  for_loop first_block end_block mark_block_reserved s.

(** The linker symbols [__kernel_start] and [__kernel_end] are arguments. *)
Definition pmm_init (kernel_start kernel_end : Z) (info : option boot_info) (s : pmm)
    : bool * pmm :=
  if negb (boot_info_is_valid info) || (kernel_end <=? kernel_start) then (false, s) else
  let s := set_bitmap s (fill_words PMM_BITMAP_WORDS UINT32_MAX (bitmap s)) in
  let s := set_usable_bitmap s (fill_words PMM_BITMAP_WORDS 0 (usable_bitmap s)) in
  let s := set_user_bitmap s (fill_words PMM_USER_BITMAP_WORDS 0 (user_bitmap s)) in
  let s := set_user_mapped_bitmap s
             (fill_words PMM_USER_BITMAP_WORDS 0 (user_mapped_bitmap s)) in
  let s := set_used_managed (set_managed (set_detected s 0) 0) 0 in
  let '(ok, s) := e820_apply_memory_map info (Some release_e820_range)
                    (Some reserve_e820_range) s in
  if negb ok then (false, s) else
  let s := pmm_reserve_range 0 PMM_BOOTSTRAP_RESERVED_END s in
  let s := pmm_reserve_range kernel_start (kernel_end -32 kernel_start) s in
  let s := pmm_reserve_range PMM_FRAMEBUFFER_BASE
             (PMM_FRAMEBUFFER_PAGES *32 PMM_BLOCK_SIZE) s in
  if (detected_blocks s =? 0) || (managed_blocks s =? 0) then (false, s) else (true, s).

(** ** Allocation *)

Definition pmm_alloc_block_below (limit : Z) (s : pmm) : Z * pmm :=
  let end_block := limit / PMM_BLOCK_SIZE in
  let end_block :=
    if detected_blocks s <? end_block then detected_blocks s else end_block in
  match find_first (PMM_LOW_MEMORY_END / PMM_BLOCK_SIZE) end_block
          (fun block => negb (block_is_used s block)) with
  | Some block =>
      let s := mark_block_used block s in
      let s := mark_block_kernel_owned block s in
      let s := set_used_managed s (used_managed_blocks s +32 1) in
      (block *32 PMM_BLOCK_SIZE, s)
  | None => (0, s)
  end.

Definition pmm_alloc_block (s : pmm) : Z * pmm := pmm_alloc_block_below UINT32_MAX s.

Definition pmm_alloc_user_block (s : pmm) : Z * pmm :=
  let start_block := PMM_USER_MIN_ADDRESS / PMM_BLOCK_SIZE in
  let end_block := detected_blocks s in
  let end_block :=
    if PMM_USER_MAX_BLOCKS <? end_block then PMM_USER_MAX_BLOCKS else end_block in
  match find_first start_block end_block
          (fun block => negb (block_is_used s block) && block_is_usable s block) with
  | Some block =>
      let s := mark_block_used block s in
      let s := mark_block_user_owned block s in
      let s := set_used_managed s (used_managed_blocks s +32 1) in
      (block *32 PMM_BLOCK_SIZE, s)
  | None => (0, s)
  end.

Definition pmm_block_is_user_owned (s : pmm) (address : Z) : bool :=
  if flag address (PMM_BLOCK_SIZE - 1) then false else
  let block := address / PMM_BLOCK_SIZE in
  (block <? detected_blocks s) && (block <? PMM_USER_MAX_BLOCKS) &&
  block_is_usable s block && block_is_used s block && test_bit (user_bitmap s) block.

Definition pmm_claim_user_block (address : Z) (s : pmm) : bool * pmm :=
  if negb (pmm_block_is_user_owned s address) then (false, s) else
  let block := address / PMM_BLOCK_SIZE in
  if user_mapped s block then (false, s) else
  (true, mark_user_mapped block s).

Definition pmm_release_user_block (address : Z) (s : pmm) : pmm :=
  if negb (flag address (PMM_BLOCK_SIZE - 1))
  then mark_user_unmapped (address / PMM_BLOCK_SIZE) s else s.

Definition pmm_user_block_is_mapped (s : pmm) (address : Z) : bool :=
  if negb (pmm_block_is_user_owned s address) then false else
  user_mapped s (address / PMM_BLOCK_SIZE).

Definition pmm_free_block (address : Z) (s : pmm) : pmm :=
  if flag address (PMM_BLOCK_SIZE - 1) then s else
  let block := address / PMM_BLOCK_SIZE in
  if (block <? PMM_LOW_MEMORY_END / PMM_BLOCK_SIZE) || (detected_blocks s <=? block) ||
     negb (block_is_usable s block) || negb (block_is_used s block) then s else
  if user_mapped s block then s else
  let s := mark_block_free block s in
  let s := mark_block_kernel_owned block s in
  set_used_managed s (used_managed_blocks s -32 1).

Definition pmm_total_blocks (s : pmm) : Z := managed_blocks s.

Definition pmm_used_blocks (s : pmm) : Z := used_managed_blocks s.

Definition pmm_free_blocks (s : pmm) : Z := managed_blocks s -32 used_managed_blocks s.

(** The boot-time self test, as the sequence of calls it makes. *)
Definition pmm_self_test (s : pmm) : bool * pmm :=
  let free_before := pmm_free_blocks s in
  let '(first, s) := pmm_alloc_block_below 0x00400000 s in
  let '(second, s) := pmm_alloc_block_below 0x00400000 s in
  let '(user, s) := pmm_alloc_user_block s in
  if (first =? 0) || (second =? 0) || (first =? second) || (user =? 0) ||
     pmm_block_is_user_owned s first || negb (pmm_block_is_user_owned s user) ||
     pmm_block_is_user_owned s (user +32 1)
  then
    let s := if negb (first =? 0) then pmm_free_block first s else s in
    let s := if negb (second =? 0) && negb (second =? first)
             then pmm_free_block second s else s in
    let s := if negb (user =? 0) then pmm_free_block user s else s in
    (false, s)
  else
    let s := pmm_free_block first s in
    let s := pmm_free_block second s in
    let s := pmm_free_block user s in
    (negb (pmm_block_is_user_owned s user) && (pmm_free_blocks s =? free_before), s).

(** ** Well-formedness *)

Definition words_ok (n : Z) (bm : gmap Z Z) : Prop :=
  forall i, is_Some (bm !! i) <-> 0 <= i < n.

(** The four arrays have their declared sizes: no access ever leaves them. *)
Definition arrays_ok (s : pmm) : Prop :=
  words_ok PMM_BITMAP_WORDS (bitmap s) /\ words_ok PMM_BITMAP_WORDS (usable_bitmap s) /\
  words_ok PMM_USER_BITMAP_WORDS (user_bitmap s) /\
  words_ok PMM_USER_BITMAP_WORDS (user_mapped_bitmap s).

Definition in_blocks (b : Z) : Prop := 0 <= b < PMM_MAX_BLOCKS.

(** Number of frames satisfying a test. *)
Definition count_blocks (p : Z -> bool) : Z := count_to PMM_MAX_BLOCKS p.

Record pmm_wf (s : pmm) : Prop := {
  wf_arrays : arrays_ok s;
  wf_detected : 0 <= detected_blocks s <= PMM_MAX_BLOCKS;
  wf_free_usable : forall b, in_blocks b ->
    block_is_used s b = false -> block_is_usable s b = true;
  wf_usable_range : forall b, in_blocks b -> block_is_usable s b = true ->
    PMM_LOW_MEMORY_END / PMM_BLOCK_SIZE <= b < detected_blocks s;
  wf_managed : managed_blocks s = count_blocks (block_is_usable s);
  wf_used_managed : used_managed_blocks s =
    count_blocks (fun b => block_is_usable s b && block_is_used s b);
  wf_user : forall b, 0 <= b < PMM_USER_MAX_BLOCKS -> test_bit (user_bitmap s) b = true ->
    block_is_usable s b = true /\ block_is_used s b = true /\
    PMM_USER_MIN_ADDRESS / PMM_BLOCK_SIZE <= b;
  wf_mapped : forall b, 0 <= b < PMM_USER_MAX_BLOCKS ->
    test_bit (user_mapped_bitmap s) b = true -> test_bit (user_bitmap s) b = true
}.

(** ** Abstract specification: every frame has one owner *)

Inductive owner := Reserved | Free | Kernel | User (mapped : bool).

#[export] Instance owner_eq_dec : EqDecision owner.
Proof. solve_decision. Defined.

Definition frame_owner (s : pmm) (b : Z) : owner :=
  if negb (block_is_usable s b) then Reserved
  else if negb (block_is_used s b) then Free
  else if (b <? PMM_USER_MAX_BLOCKS) && test_bit (user_bitmap s) b
       then User (user_mapped s b) else Kernel.

(** The calls other components make. *)
Inductive pmm_op :=
  | OpAllocBelow (limit : Z)
  | OpAllocUser
  | OpClaim (address : Z)
  | OpRelease (address : Z)
  | OpFree (address : Z).

Definition bool_ret (b : bool) : Z := if b then 1 else 0.

Definition pmm_exec (op : pmm_op) (s : pmm) : Z * pmm :=
  match op with
  | OpAllocBelow limit => pmm_alloc_block_below limit s
  | OpAllocUser => pmm_alloc_user_block s
  | OpClaim a => let '(ok, s) := pmm_claim_user_block a s in (bool_ret ok, s)
  | OpRelease a => (0, pmm_release_user_block a s)
  | OpFree a => (0, pmm_free_block a s)
  end.

Definition op_ok (op : pmm_op) : Prop :=
  match op with
  | OpAllocBelow x | OpClaim x | OpRelease x | OpFree x => is_u32 x
  | OpAllocUser => True
  end.

Definition own_upd (m : Z -> owner) (b : Z) (o : owner) : Z -> owner :=
  fun b' => if decide (b' = b) then o else m b'.

(** What a call may do to the ownership map, and what it returns. *)
Inductive frame_step (m : Z -> owner) : pmm_op -> Z -> (Z -> owner) -> Prop :=
  | step_alloc limit b :
      m b = Free -> PMM_LOW_MEMORY_END <= b * 4096 -> (b + 1) * 4096 <= limit ->
      (forall b', PMM_LOW_MEMORY_END / 4096 <= b' < b -> m b' <> Free) ->
      frame_step m (OpAllocBelow limit) (b * 4096) (own_upd m b Kernel)
  | step_alloc_fail limit :
      (forall b, in_blocks b -> b < limit / 4096 -> m b <> Free) ->
      frame_step m (OpAllocBelow limit) 0 m
  | step_alloc_user b :
      m b = Free -> PMM_USER_MIN_ADDRESS <= b * 4096 < PMM_USER_MAX_ADDRESS ->
      (forall b', PMM_USER_MIN_ADDRESS / 4096 <= b' < b -> m b' <> Free) ->
      frame_step m OpAllocUser (b * 4096) (own_upd m b (User false))
  | step_alloc_user_fail :
      (forall b, PMM_USER_MIN_ADDRESS / 4096 <= b < PMM_USER_MAX_ADDRESS / 4096 ->
         m b <> Free) ->
      frame_step m OpAllocUser 0 m
  | step_claim b :
      m b = User false -> frame_step m (OpClaim (b * 4096)) 1 (own_upd m b (User true))
  | step_claim_fail a :
      (a mod 4096 = 0 -> m (a / 4096) <> User false) -> frame_step m (OpClaim a) 0 m
  | step_release b :
      m b = User true -> frame_step m (OpRelease (b * 4096)) 0 (own_upd m b (User false))
  | step_release_skip a :
      (a mod 4096 = 0 -> m (a / 4096) <> User true) -> frame_step m (OpRelease a) 0 m
  | step_free b :
      m b = Kernel \/ m b = User false ->
      frame_step m (OpFree (b * 4096)) 0 (own_upd m b Free)
  | step_free_skip a :
      (a mod 4096 = 0 -> m (a / 4096) <> Kernel /\ m (a / 4096) <> User false) ->
      frame_step m (OpFree a) 0 m.

(** ** Bit lemmas *)

Lemma test_bit_testbit bm b : 0 <= b ->
  test_bit bm b = Z.testbit (word bm (b / 32)) (b mod 32).
Proof.
  intros Hb. unfold test_bit, bit_mask.
  pose proof (Z.mod_pos_bound b 32). rewrite shl1_pow2 by lia. apply flag_pow2. lia.
Qed.

Lemma word_insert bm i j v : word (<[i := v]> bm) j = if decide (i = j) then v else word bm j.
Proof. unfold word. rewrite lookup_insert. by case_decide. Qed.

Lemma same_bit a b : 0 <= a -> 0 <= b -> a / 32 = b / 32 -> a mod 32 = b mod 32 -> a = b.
Proof. intros. dmlia. Qed.

Lemma test_set bm a b : 0 <= a -> 0 <= b ->
  test_bit (set_bit bm a) b = (a =? b) || test_bit bm b.
Proof.
  intros Ha Hb. rewrite !test_bit_testbit by done. unfold set_bit, bit_mask.
  pose proof (Z.mod_pos_bound a 32). pose proof (Z.mod_pos_bound b 32).
  rewrite word_insert, shl1_pow2 by lia. case_decide as Hw.
  - rewrite Hw, Z.lor_spec. destruct (Z.eqb_spec a b) as [->|Hne].
    + by rewrite Z.pow2_bits_true, orb_true_r by lia.
    + rewrite Z.pow2_bits_false by (intros E; apply Hne; apply same_bit; done).
      by rewrite orb_false_r.
  - destruct (Z.eqb_spec a b) as [->|Hne]; done.
Qed.

Lemma test_clear bm a b : 0 <= a -> 0 <= b ->
  test_bit (clear_bit bm a) b = negb (a =? b) && test_bit bm b.
Proof.
  intros Ha Hb. rewrite !test_bit_testbit by done. unfold clear_bit, bit_mask.
  pose proof (Z.mod_pos_bound a 32). pose proof (Z.mod_pos_bound b 32).
  rewrite word_insert, shl1_pow2 by lia. case_decide as Hw.
  - rewrite Hw, Z.land_spec, not32_testbit by (lia || (apply pow2_u32; lia)).
    destruct (Z.eqb_spec a b) as [->|Hne].
    + by rewrite Z.pow2_bits_true, andb_false_r by lia.
    + rewrite Z.pow2_bits_false by (intros E; apply Hne; apply same_bit; done).
      by rewrite andb_true_r.
  - destruct (Z.eqb_spec a b) as [->|Hne]; done.
Qed.

Lemma words_ok_insert n bm i v : words_ok n bm -> 0 <= i < n -> words_ok n (<[i := v]> bm).
Proof.
  intros H Hi j. rewrite lookup_insert_is_Some, (H j).
  destruct (decide (i = j)) as [->|]; intuition lia.
Qed.

Lemma words_ok_set n bm b : words_ok n bm -> 0 <= b < 32 * n -> words_ok n (set_bit bm b).
Proof. intros H Hb. apply words_ok_insert; [done|]. dmlia. Qed.

Lemma words_ok_clear n bm b : words_ok n bm -> 0 <= b < 32 * n -> words_ok n (clear_bit bm b).
Proof. intros H Hb. apply words_ok_insert; [done|]. dmlia. Qed.

#[export] Hint Resolve words_ok_set words_ok_clear : efes.

Lemma fill_words_spec n v bm : 0 <= n -> words_ok n bm ->
  words_ok n (fill_words n v bm) /\ (forall i, 0 <= i < n -> word (fill_words n v bm) i = v).
Proof.
  intros Hn H. unfold fill_words.
  apply (for_loop_inv (fun k bm' => words_ok n bm' /\
    (forall i, 0 <= i < k -> word bm' i = v))); [done| |].
  - split; [done|]. lia.
  - intros k bm' Hk [Hw Hv]. split; [by apply words_ok_insert|].
    intros i Hi. rewrite word_insert. case_decide; [done|]. apply Hv. lia.
Qed.

(** A zeroed static array has its declared size. *)
Lemma words_ok_zeroed n v : 0 <= n -> words_ok n (fill_words n v ∅).
Proof.
  intros Hn. apply (for_loop_inv (fun k bm => words_ok k bm)); [done| |].
  - intros i. rewrite lookup_empty. split; [by intros [? ?]|lia].
  - intros k bm Hk H i. rewrite lookup_insert_is_Some, (H i).
    destruct (decide (k = i)) as [->|]; intuition lia.
Qed.

Lemma test_bit_zeros n bm b : 0 <= b < 32 * n ->
  (forall i, 0 <= i < n -> word bm i = 0) -> test_bit bm b = false.
Proof.
  intros Hb H. rewrite test_bit_testbit by lia. rewrite H by dmlia. apply Z.bits_0.
Qed.

Lemma test_bit_ones n bm b : 0 <= b < 32 * n ->
  (forall i, 0 <= i < n -> word bm i = UINT32_MAX) -> test_bit bm b = true.
Proof.
  intros Hb H. rewrite test_bit_testbit by lia. rewrite H by dmlia.
  change UINT32_MAX with (Z.ones 32). apply Z.ones_spec_low. dmlia.
Qed.

(** Addresses and block numbers *)

Lemma flag_aligned a : flag a (PMM_BLOCK_SIZE - 1) = negb (a mod 4096 =? 0).
Proof.
  unfold flag, PMM_BLOCK_SIZE. change (4096 - 1) with 4095. by rewrite land_4095.
Qed.

Lemma block_addr_u32 b : in_blocks b -> u32 (b * PMM_BLOCK_SIZE) = b * 4096.
Proof.
  intros Hb. unfold in_blocks, PMM_MAX_BLOCKS, PMM_BLOCK_SIZE in *.
  apply u32_id. unfold is_u32. lia.
Qed.

(** ** Counting frames *)

Ltac block_consts :=
  unfold in_blocks, PMM_MAX_BLOCKS, PMM_BITMAP_WORDS, PMM_USER_BITMAP_WORDS,
    PMM_USER_MAX_BLOCKS, PMM_LOW_MEMORY_END, PMM_BLOCK_SIZE, PMM_USER_MIN_ADDRESS,
    PMM_USER_MAX_ADDRESS in *.

(** The array sizes survive single-bit updates. *)
Ltac solve_arrays :=
  unfold arrays_ok; simpl; refine (conj _ (conj _ (conj _ _))); repeat case_if;
  repeat first [assumption | apply words_ok_set | apply words_ok_clear]; block_consts; lia.

Lemma PMM_MAX_BLOCKS_nonneg : 0 <= PMM_MAX_BLOCKS.
Proof. unfold PMM_MAX_BLOCKS. lia. Qed.

Lemma count_blocks_set p q b : in_blocks b -> p b = false -> q b = true ->
  (forall i, in_blocks i -> i <> b -> q i = p i) -> count_blocks q = count_blocks p + 1.
Proof. apply count_to_set. Qed.

Lemma count_blocks_clear p q b : in_blocks b -> p b = true -> q b = false ->
  (forall i, in_blocks i -> i <> b -> q i = p i) -> count_blocks q = count_blocks p - 1.
Proof. apply count_to_clear. Qed.

Lemma count_blocks_range p : 0 <= count_blocks p <= PMM_MAX_BLOCKS.
Proof. apply count_to_range, PMM_MAX_BLOCKS_nonneg. Qed.

Lemma count_blocks_pos p b : in_blocks b -> p b = true -> 0 < count_blocks p.
Proof. apply count_to_pos. Qed.

Lemma count_blocks_ext p q : (forall b, in_blocks b -> p b = q b) -> count_blocks p = count_blocks q.
Proof. apply count_to_ext. Qed.

Lemma count_blocks_false p : (forall b, in_blocks b -> p b = false) -> count_blocks p = 0.
Proof. apply count_to_false. Qed.
