(* ===== verification/PmmInit.v ===== *)
(** * Physical memory manager: initialisation

    What [pmm_init] leaves in the bitmaps for a given memory map: the reference set
    [usable_frame] and the lemmas that carry it through the two E820 passes and the three
    boot reservations. *)

From S2P Require Import Prelude BootInfo Pmm.
Local Open Scope c_scope.
Local Open Scope Z_scope.
(** Keeps the tactics from unfolding loops over the whole frame table. *)
Local Opaque for_loop find_first fill_words.

(** ** Initialisation *)

(** The state while [pmm_init] runs: nothing allocated, and exactly the frames of [U] are
    usable and free. *)
Record init_state (s : pmm) (U : Z -> bool) : Prop := {
  is_arrays : arrays_ok s;
  is_detected : 0 <= detected_blocks s <= PMM_MAX_BLOCKS;
  is_usable : forall b, in_blocks b -> block_is_usable s b = U b;
  is_used : forall b, in_blocks b -> block_is_used s b = negb (U b);
  is_below : forall b, in_blocks b -> U b = true -> b < detected_blocks s;
  is_managed : managed_blocks s = count_blocks U;
  is_used_managed : used_managed_blocks s = 0;
  is_user : forall b, 0 <= b < PMM_USER_MAX_BLOCKS -> test_bit (user_bitmap s) b = false;
  is_user_mapped : forall b, 0 <= b < PMM_USER_MAX_BLOCKS ->
    test_bit (user_mapped_bitmap s) b = false
}.

Lemma init_state_ext s U V :
  (forall b, in_blocks b -> U b = V b) -> init_state s U -> init_state s V.
Proof.
  intros H [? ? Hu Hd Hb Hm ? ? ?]. split; try done.
  - intros b Hr. rewrite <- H by done. by apply Hu.
  - intros b Hr. rewrite <- H by done. by apply Hd.
  - intros b Hr HV. apply Hb; [done|]. by rewrite H.
  - rewrite Hm. by apply count_blocks_ext.
Qed.

Lemma mark_block_available_init s U b :
  init_state s U -> in_blocks b -> b < detected_blocks s ->
  init_state (mark_block_available b s) (fun x => U x || (b =? x)).
Proof.
  intros H Hb Hd. pose proof H as [(Ha1 & Ha2 & Ha3 & Ha4) Hdet Hu Hf Hbelow Hm Hum Hus Hmp].
  unfold mark_block_available.
  replace (PMM_MAX_BLOCKS <=? b) with false by (block_consts; lia). simpl.
  rewrite (Hu b Hb). destruct (U b) eqn:EU.
  { apply init_state_ext with U; [|done]. intros x Hx.
    destruct (Z.eqb_spec b x) as [<-|]; [by rewrite EU|]. by rewrite orb_false_r. }
  split; simpl; try done.
  - solve_arrays.
  - intros x Hx. unfold block_is_usable. simpl.
    rewrite test_set by (block_consts; lia). rewrite orb_comm. f_equal. by apply Hu.
  - intros x Hx. unfold block_is_used. simpl. rewrite test_clear by (block_consts; lia).
    rewrite negb_orb, andb_comm. f_equal. by apply Hf.
  - intros x Hx Ho. destruct (Z.eqb_spec b x) as [<-|]; [done|].
    rewrite orb_false_r in Ho. by apply Hbelow.
  - rewrite Hm. rewrite (count_blocks_set U (fun x => U x || (b =? x)) b); [|done..| |].
    + pose proof (count_blocks_range U). apply u32_id. block_consts. unfold is_u32. lia.
    + by rewrite Z.eqb_refl, orb_true_r.
    + intros i _ Hi. replace (b =? i) with false by lia. by rewrite orb_false_r.
Qed.

Lemma mark_block_reserved_init s U b :
  init_state s U -> 0 <= b ->
  init_state (mark_block_reserved b s) (fun x => U x && negb (b =? x)).
Proof.
  intros H Hb0. pose proof H as [(Ha1 & Ha2 & Ha3 & Ha4) Hdet Hu Hf Hbelow Hm Hum Hus Hmp].
  unfold mark_block_reserved. destruct (PMM_MAX_BLOCKS <=? b) eqn:EM.
  { apply init_state_ext with U; [|done]. intros x Hx.
    replace (b =? x) with false by (block_consts; lia). by rewrite andb_true_r. }
  assert (in_blocks b) as Hb by (block_consts; lia).
  rewrite (Hu b Hb). destruct (U b) eqn:EU.
  - unfold block_is_used at 1. simpl. fold (block_is_used s b). rewrite (Hf b Hb), EU. simpl.
    split; simpl; try done.
    + solve_arrays.
    + intros x Hx. unfold block_is_usable. simpl.
      rewrite test_clear by (block_consts; lia). rewrite andb_comm. f_equal. by apply Hu.
    + intros x Hx. unfold block_is_used. simpl. rewrite test_set by (block_consts; lia).
      rewrite negb_andb, negb_involutive, orb_comm. f_equal. by apply Hf.
    + intros x Hx Ho. apply andb_prop in Ho as [Ho _]. by apply Hbelow.
    + rewrite Hm. rewrite (count_blocks_clear U (fun x => U x && negb (b =? x)) b); [|done..| |].
      * pose proof (count_blocks_range U). pose proof (count_blocks_pos U b Hb EU).
        apply u32_id. block_consts. unfold is_u32. lia.
      * by rewrite Z.eqb_refl, andb_false_r.
      * intros i _ Hi. replace (b =? i) with false by lia. by rewrite andb_true_r.
  - apply init_state_ext with U.
    { intros x Hx. destruct (Z.eqb_spec b x) as [<-|]; [by rewrite EU|].
      by rewrite andb_true_r. }
    split; simpl; try done.
    + solve_arrays.
    + intros x Hx. unfold block_is_used. simpl. rewrite test_set by (block_consts; lia).
      destruct (Z.eqb_spec b x) as [<-|]; [by rewrite EU|]. by apply Hf.
Qed.

(** Frames of a half-open block range. *)
Definition in_range (first end_ b : Z) : bool := (first <=? b) && (b <? end_).

Lemma in_range_empty first end_ b : end_ <= first -> in_range first end_ b = false.
Proof. unfold in_range. lia. Qed.

Lemma available_loop_init s U first end_ :
  init_state s U -> 0 <= first -> end_ <= detected_blocks s ->
  init_state (for_loop first end_ mark_block_available s)
    (fun x => U x || in_range first end_ x).
Proof.
  intros H Hf He. destruct (Z_le_gt_dec first end_) as [Hle|Hgt].
  2: { rewrite for_loop_empty by lia. apply init_state_ext with U; [|done]. intros b Hb.
       rewrite in_range_empty by lia. by rewrite orb_false_r. }
  pose proof (is_detected _ _ H) as Hd.
  apply (for_loop_inv (fun k s' => init_state s' (fun x => U x || in_range first k x)
    /\ detected_blocks s' = detected_blocks s)); [done| |].
  - split; [|done]. apply init_state_ext with U; [|done]. intros b Hb.
    rewrite in_range_empty by lia. by rewrite orb_false_r.
  - intros k s' Hk [Hs' Hds']. split.
    + eapply init_state_ext; [|apply mark_block_available_init; [exact Hs'|..]].
      * intros x Hx. simpl. unfold in_range. rewrite <- orb_assoc. f_equal. lia.
      * unfold in_blocks. lia.
      * lia.
    + unfold mark_block_available. by case_if.
Qed.

Lemma mark_block_reserved_detected b s :
  detected_blocks (mark_block_reserved b s) = detected_blocks s.
Proof. unfold mark_block_reserved. repeat case_if; done. Qed.

Lemma reserved_loop_init s U first end_ :
  init_state s U -> 0 <= first ->
  init_state (for_loop first end_ mark_block_reserved s)
    (fun x => U x && negb (in_range first end_ x)).
Proof.
  intros H Hf. destruct (Z_le_gt_dec first end_) as [Hle|Hgt].
  2: { rewrite for_loop_empty by lia. apply init_state_ext with U; [|done]. intros b Hb.
       rewrite in_range_empty by lia. by rewrite andb_true_r. }
  apply (for_loop_inv (fun k s' =>
    init_state s' (fun x => U x && negb (in_range first k x)))); [done| |].
  - apply init_state_ext with U; [|done]. intros b Hb.
    rewrite in_range_empty by lia. by rewrite andb_true_r.
  - intros k s' Hk Hs'.
    eapply init_state_ext; [|apply mark_block_reserved_init; [exact Hs'|lia]].
    intros x Hx. simpl. unfold in_range. rewrite <- andb_assoc. f_equal. lia.
Qed.

(** The frame lies wholly inside, or meets, the byte range [[base, base + len)]. *)
Definition frame_covered (base len b : Z) : bool :=
  (base <=? b * 4096) && ((b + 1) * 4096 <=? base + len).

Definition frame_touched (base len b : Z) : bool :=
  (b * 4096 <? base + len) && (base <? (b + 1) * 4096).

(** Reference definition of the allocatable memory: frames inside some active available
    entry that meet no active reserved entry, nor low memory, the kernel image or the
    framebuffer. *)
Definition usable_frame (kernel_start kernel_end : Z) (info : boot_info) (b : Z) : bool :=
  existsb (fun e => entry_active e && is_available e &&
                    frame_covered (entry_base e) (entry_length e) b) (map_entries info) &&
  negb (existsb (fun e => entry_active e && negb (is_available e) &&
                    frame_touched (entry_base e) (entry_length e) b) (map_entries info)) &&
  negb (frame_touched 0 PMM_BOOTSTRAP_RESERVED_END b) &&
  negb (frame_touched kernel_start (kernel_end - kernel_start) b) &&
  negb (frame_touched PMM_FRAMEBUFFER_BASE (PMM_FRAMEBUFFER_PAGES * 4096) b).

Lemma clamp_block_index_min v : 0 <= v -> clamp_block_index v = Z.min v PMM_MAX_BLOCKS.
Proof.
  intros Hv. unfold clamp_block_index. case_if; [lia|].
  rewrite u32_id; [lia|]. unfold is_u32. block_consts. lia.
Qed.

Lemma shiftr12 x : Z.shiftr x 12 = x / 4096.
Proof. by rewrite Z.shiftr_div_pow2 by lia. Qed.

Lemma round_up_div x : 0 <= x < 18446744073709551616 ->
  (if flag x (PMM_BLOCK_SIZE - 1) then u64 (Z.shiftr x 12 + 1) else Z.shiftr x 12)
  = (x + 4095) / 4096.
Proof.
  intros Hx. rewrite flag_aligned, shiftr12. destruct (Z.eqb_spec (x mod 4096) 0); simpl.
  - dmlia.
  - rewrite u64_id by (unfold is_u64; dmlia). dmlia.
Qed.

Lemma release_e820_range_init s U base len :
  init_state s U -> 0 <= base -> 0 < len -> base + len < 18446744073709551616 ->
  init_state (release_e820_range base len s) (fun x => U x || frame_covered base len x).
Proof.
  intros H Hb Hl He. unfold release_e820_range.
  rewrite (u64_id (base + len)) by (unfold is_u64; lia).
  replace ((len =? 0) || (base + len <? base)) with false by lia. cbv zeta.
  rewrite round_up_div by lia. rewrite shiftr12, !clamp_block_index_min by dmlia.
  set (first := Z.min _ _). set (last := Z.min _ _).
  set (s1 := if detected_blocks s <? last then set_detected s last else s).
  assert (init_state s1 U /\ last <= detected_blocks s1) as [H1 Hd1].
  { unfold s1. destruct (detected_blocks s <? last) eqn:E; [|split; [done|lia]].
    destruct H as [? Hd ? ? Hbel ? ? ? ?]. split; [|simpl; lia].
    split; simpl; try done; [lia|]. intros b Hr Hu. specialize (Hbel b Hr Hu). lia. }
  eapply init_state_ext; [|apply available_loop_init; [exact H1| |exact Hd1]].
  - intros x Hx. simpl. f_equal. unfold in_range, frame_covered, first, last.
    block_consts. dmlia.
  - unfold first. block_consts. dmlia.
Qed.

Lemma reserve_e820_range_init s U base len :
  init_state s U -> 0 <= base -> 0 < len -> base + len < 18446744073709551616 ->
  init_state (reserve_e820_range base len s) (fun x => U x && negb (frame_touched base len x)).
Proof.
  intros H Hb Hl He. unfold reserve_e820_range.
  rewrite (u64_id (base + len)) by (unfold is_u64; lia).
  replace ((len =? 0) || (base + len <? base)) with false by lia. cbv zeta.
  rewrite round_up_div by lia. rewrite shiftr12, !clamp_block_index_min by dmlia.
  eapply init_state_ext; [|apply reserved_loop_init; [exact H|]].
  - intros x Hx. simpl. do 2 f_equal. unfold in_range, frame_touched. block_consts. dmlia.
  - block_consts. dmlia.
Qed.

Lemma pmm_reserve_range_init s U address len :
  init_state s U -> is_u32 address -> 0 < len <= 4294967296 ->
  init_state (pmm_reserve_range address len s)
    (fun x => U x && negb (frame_touched address len x)).
Proof.
  intros H Ha Hl. unfold pmm_reserve_range. unfold is_u32 in Ha.
  replace (len =? 0) with false by lia. cbv zeta.
  rewrite (u64_id (address + len)) by (unfold is_u64; lia).
  rewrite (u64_id (address + len + PMM_BLOCK_SIZE)) by (unfold is_u64; block_consts; lia).
  rewrite (u64_id (address + len + PMM_BLOCK_SIZE - 1)) by (unfold is_u64; block_consts; lia).
  rewrite shiftr12, clamp_block_index_min by (block_consts; dmlia).
  eapply init_state_ext; [|apply reserved_loop_init; [exact H|]].
  - intros x Hx. simpl. do 2 f_equal. unfold in_range, frame_touched. block_consts. dmlia.
  - block_consts. dmlia.
Qed.

(** The two passes over the map. *)
Lemma available_pass_init s U es :
  init_state s U -> Forall (fun e => entry_wf e /\ boot_entry_ok e = true) es ->
  init_state
    (foldl (fun s e => if entry_active e && is_available e
                       then release_e820_range (entry_base e) (entry_length e) s else s) s es)
    (fun x => U x || existsb (fun e => entry_active e && is_available e &&
                        frame_covered (entry_base e) (entry_length e) x) es).
Proof.
  intros H Hes. revert s U H. induction Hes as [|e es [Hwf Hok] _ IH]; intros s U H; simpl.
  { eapply init_state_ext; [|exact H]. intros. simpl. by rewrite orb_false_r. }
  pose proof (boot_entry_ok_range _ Hwf Hok). pose proof (entry_base_u64 _ Hwf) as [? _].
  destruct (entry_active e && is_available e) eqn:E; simpl.
  - eapply init_state_ext; [|apply IH, release_e820_range_init; [exact H|lia..]].
    intros b Hb. simpl. by rewrite orb_assoc.
  - eapply init_state_ext; [|apply IH, H]. done.
Qed.

Lemma reserved_pass_init s U es :
  init_state s U -> Forall (fun e => entry_wf e /\ boot_entry_ok e = true) es ->
  init_state
    (foldl (fun s e => if entry_active e && negb (is_available e)
                       then reserve_e820_range (entry_base e) (entry_length e) s else s) s es)
    (fun x => U x && negb (existsb (fun e => entry_active e && negb (is_available e) &&
                        frame_touched (entry_base e) (entry_length e) x) es)).
Proof.
  intros H Hes. revert s U H. induction Hes as [|e es [Hwf Hok] _ IH]; intros s U H; simpl.
  { eapply init_state_ext; [|exact H]. intros. simpl. by rewrite andb_true_r. }
  pose proof (boot_entry_ok_range _ Hwf Hok). pose proof (entry_base_u64 _ Hwf) as [? _].
  destruct (entry_active e && negb (is_available e)) eqn:E; simpl.
  - eapply init_state_ext; [|apply IH, reserve_e820_range_init; [exact H|lia..]].
    intros b Hb. simpl. by rewrite negb_orb, andb_assoc.
  - eapply init_state_ext; [|apply IH, H]. done.
Qed.

Lemma cleared_init_state s : arrays_ok s ->
  init_state
    (Build_pmm (fill_words PMM_BITMAP_WORDS UINT32_MAX (bitmap s))
       (fill_words PMM_BITMAP_WORDS 0 (usable_bitmap s))
       (fill_words PMM_USER_BITMAP_WORDS 0 (user_bitmap s))
       (fill_words PMM_USER_BITMAP_WORDS 0 (user_mapped_bitmap s)) 0 0 0)
    (fun _ => false).
Proof.
  intros (H1 & H2 & H3 & H4).
  destruct (fill_words_spec PMM_BITMAP_WORDS UINT32_MAX _ ltac:(by block_consts) H1) as [? Hw1].
  destruct (fill_words_spec PMM_BITMAP_WORDS 0 _ ltac:(by block_consts) H2) as [? Hw2].
  destruct (fill_words_spec PMM_USER_BITMAP_WORDS 0 _ ltac:(by block_consts) H3) as [? Hw3].
  destruct (fill_words_spec PMM_USER_BITMAP_WORDS 0 _ ltac:(by block_consts) H4) as [? Hw4].
  set (b1 := fill_words PMM_BITMAP_WORDS UINT32_MAX _) in *. clearbody b1.
  set (b2 := fill_words PMM_BITMAP_WORDS 0 _) in *. clearbody b2.
  set (b3 := fill_words PMM_USER_BITMAP_WORDS 0 (user_bitmap s)) in *. clearbody b3.
  set (b4 := fill_words PMM_USER_BITMAP_WORDS 0 _) in *. clearbody b4.
  split; simpl; try done.
  - intros b Hb. apply test_bit_zeros with PMM_BITMAP_WORDS; [block_consts; lia|done].
  - intros b Hb. apply test_bit_ones with PMM_BITMAP_WORDS; [block_consts; lia|done].
  - symmetry. by apply count_blocks_false.
  - intros b Hb. apply test_bit_zeros with PMM_USER_BITMAP_WORDS; [block_consts; lia|done].
  - intros b Hb. apply test_bit_zeros with PMM_USER_BITMAP_WORDS; [block_consts; lia|done].
Qed.

(** The state at the end of initialisation satisfies the run-time invariant. *)
Lemma init_state_wf s U : init_state s U ->
  (forall b, in_blocks b -> U b = true -> PMM_LOW_MEMORY_END / PMM_BLOCK_SIZE <= b) ->
  pmm_wf s.
Proof.
  intros [Harr Hdet Hu Hd Hb Hm Hum Hus Hmp] Hlow. split; try done.
  - intros b Hr. rewrite Hd, Hu by done. by destruct (U b).
  - intros b Hr. rewrite Hu by done. intros HU. split; [by apply Hlow|by apply Hb].
  - rewrite Hm. apply count_blocks_ext. intros b Hr. symmetry. by apply Hu.
  - rewrite Hum. symmetry. apply count_blocks_false. intros b Hr.
    rewrite Hu, Hd by done. apply andb_negb_r.
  - intros b Hr Ht. by rewrite Hus in Ht.
  - intros b Hr Ht. by rewrite Hmp in Ht.
Qed.

Lemma init_state_owner s U b : init_state s U -> in_blocks b ->
  frame_owner s b = if U b then Free else Reserved.
Proof.
  intros H Hb. unfold frame_owner.
  rewrite (is_usable _ _ H b Hb), (is_used _ _ H b Hb). by destruct (U b).
Qed.

(** The state [pmm_init] reaches once its guards have passed. *)
Lemma pmm_init_state ks ke info s :
  boot_info_wf info -> boot_info_is_valid (Some info) = true -> arrays_ok s ->
  is_u32 ks -> is_u32 ke -> ks < ke ->
  exists s', init_state s' (usable_frame ks ke info) /\
    pmm_init ks ke (Some info) s =
      (negb ((detected_blocks s' =? 0) || (managed_blocks s' =? 0)), s').
Proof.
  intros Hwf Hv Ha Hks Hke Hlt. unfold is_u32 in *.
  pose proof (map_entries_ok _ Hwf Hv) as Hes.
  pose proof (cleared_init_state s Ha) as H0.
  apply (available_pass_init _ _ _ H0) in Hes as H1.
  apply (reserved_pass_init _ _ _ H1) in Hes as H2.
  apply pmm_reserve_range_init with (address := 0) (len := PMM_BOOTSTRAP_RESERVED_END) in H2;
    [|unfold is_u32, PMM_BOOTSTRAP_RESERVED_END; lia..].
  apply pmm_reserve_range_init with (address := ks) (len := ke - ks) in H2; [|done|lia].
  apply pmm_reserve_range_init with (address := PMM_FRAMEBUFFER_BASE)
    (len := PMM_FRAMEBUFFER_PAGES * 4096) in H2;
    [|unfold is_u32, PMM_FRAMEBUFFER_BASE, PMM_FRAMEBUFFER_PAGES; lia..].
  eexists. split.
  { eapply init_state_ext; [|exact H2]. intros b Hb. unfold usable_frame. done. }
  unfold pmm_init. rewrite Hv. replace (ke <=? ks) with false by lia.
  unfold e820_apply_memory_map. rewrite Hv.
  rewrite !(e820_pass_foldl info) by done.
  rewrite (u32_id (ke - ks)) by (unfold is_u32; lia).
  change (u32 (PMM_FRAMEBUFFER_PAGES * PMM_BLOCK_SIZE)) with (PMM_FRAMEBUFFER_PAGES * 4096).
  cbv zeta beta. simpl negb. cbv iota.
  unfold set_bitmap, set_usable_bitmap, set_user_bitmap, set_user_mapped_bitmap,
    set_used_managed, set_managed, set_detected. simpl.
  by case_if.
Qed.

Lemma usable_frame_low ks ke info b : in_blocks b -> usable_frame ks ke info b = true ->
  PMM_LOW_MEMORY_END / PMM_BLOCK_SIZE <= b.
Proof.
  intros Hb Hu. unfold usable_frame, frame_touched in Hu. split_bools.
  unfold PMM_BOOTSTRAP_RESERVED_END in *. block_consts. dmlia.
Qed.

Lemma pmm_init_guards ks ke info s s' : pmm_init ks ke (Some info) s = (true, s') ->
  boot_info_is_valid (Some info) = true /\ ks < ke.
Proof.
  unfold pmm_init. destruct (_ || _) eqn:E; [done|]. split_bools. intros _. split; [done|lia].
Qed.

Lemma pmm_init_wf ks ke info s s' :
  boot_info_wf info -> arrays_ok s -> is_u32 ks -> is_u32 ke ->
  pmm_init ks ke (Some info) s = (true, s') -> pmm_wf s'.
Proof.
  intros Hwf Ha Hks Hke E. destruct (pmm_init_guards _ _ _ _ _ E) as [Hv Hlt].
  destruct (pmm_init_state ks ke info s) as (s1 & Hs1 & Heq); [done..|].
  rewrite Heq in E. injection E as _ <-.
  apply (init_state_wf _ _ Hs1). intros b. apply usable_frame_low.
Qed.

(** ** A concrete machine: 8 MiB of memory, the kernel at 1 MiB *)

Definition sample_info : boot_info :=
  Build_boot_info BOOT_INFO_MAGIC 0x80 2 24 0 0
    ([Build_boot_memory_map_entry 0x00100000 0 0x00700000 0 1 1;
      Build_boot_memory_map_entry 0x00200000 0 0x00001000 0 2 1] ++ replicate 30 null_entry) 0.

Definition zeroed_pmm : pmm :=
  Build_pmm (fill_words PMM_BITMAP_WORDS 0 ∅) (fill_words PMM_BITMAP_WORDS 0 ∅)
    (fill_words PMM_USER_BITMAP_WORDS 0 ∅) (fill_words PMM_USER_BITMAP_WORDS 0 ∅) 0 0 0.

Definition sample_booted : pmm :=
  snd (pmm_init 0x00100000 0x00180000 (Some sample_info) zeroed_pmm).

Lemma sample_info_wf : boot_info_wf sample_info.
Proof.
  unfold boot_info_wf, is_u32. simpl. repeat split; try done.
  repeat constructor; unfold is_u32; simpl; lia.
Qed.

Lemma zeroed_pmm_ok : arrays_ok zeroed_pmm.
Proof. refine (conj _ (conj _ (conj _ _))); by apply words_ok_zeroed. Qed.

Lemma sample_boot :
  pmm_init 0x00100000 0x00180000 (Some sample_info) zeroed_pmm = (true, sample_booted).
Proof.
  unfold sample_booted.
  assert (fst (pmm_init 0x00100000 0x00180000 (Some sample_info) zeroed_pmm) = true) as H
    by (vm_compute; reflexivity).
  destruct (pmm_init _ _ _ _). simpl in *. by subst.
Qed.

Lemma sample_booted_wf : pmm_wf sample_booted.
Proof.
  eapply pmm_init_wf; [apply sample_info_wf|apply zeroed_pmm_ok|..|apply sample_boot];
    unfold is_u32; lia.
Qed.
