(* ===== verification/PmmSpec.v ===== *)
(** * Physical memory manager: refinement of the ownership specification

    Every call of [memory/pmm.c] is a step of [frame_step], along every sequence of calls
    from boot. *)

From S2P Require Import Prelude BootInfo Pmm PmmInit.
Local Open Scope c_scope.
Local Open Scope Z_scope.
(** Keeps the tactics from unfolding loops over the whole frame table. *)
Local Opaque for_loop find_first fill_words.

(** ** Handing out and taking back a frame *)

Definition take_frame (user : bool) (b : Z) (s : pmm) : pmm :=
  let s := mark_block_used b s in
  let s := if user then mark_block_user_owned b s else mark_block_kernel_owned b s in
  set_used_managed s (u32 (used_managed_blocks s + 1)).

Definition give_frame (b : Z) (s : pmm) : pmm :=
  let s := mark_block_free b s in
  let s := mark_block_kernel_owned b s in
  set_used_managed s (u32 (used_managed_blocks s - 1)).

Lemma take_frame_fields user b s :
  usable_bitmap (take_frame user b s) = usable_bitmap s /\
  bitmap (take_frame user b s) = set_bit (bitmap s) b /\
  user_mapped_bitmap (take_frame user b s) = user_mapped_bitmap s /\
  detected_blocks (take_frame user b s) = detected_blocks s /\
  managed_blocks (take_frame user b s) = managed_blocks s /\
  used_managed_blocks (take_frame user b s) = u32 (used_managed_blocks s + 1) /\
  user_bitmap (take_frame user b s) =
    if PMM_USER_MAX_BLOCKS <=? b then user_bitmap s
    else if user then set_bit (user_bitmap s) b else clear_bit (user_bitmap s) b.
Proof.
  unfold take_frame, mark_block_user_owned, mark_block_kernel_owned, mark_block_used.
  destruct user; case_if; done.
Qed.

Lemma give_frame_fields b s :
  usable_bitmap (give_frame b s) = usable_bitmap s /\
  bitmap (give_frame b s) = clear_bit (bitmap s) b /\
  user_mapped_bitmap (give_frame b s) = user_mapped_bitmap s /\
  detected_blocks (give_frame b s) = detected_blocks s /\
  managed_blocks (give_frame b s) = managed_blocks s /\
  used_managed_blocks (give_frame b s) = u32 (used_managed_blocks s - 1) /\
  user_bitmap (give_frame b s) =
    if PMM_USER_MAX_BLOCKS <=? b then user_bitmap s else clear_bit (user_bitmap s) b.
Proof.
  unfold give_frame, mark_block_kernel_owned, mark_block_free. case_if; done.
Qed.

(** A mapped frame is user-owned, hence used. *)
Lemma mapped_used s b : pmm_wf s -> 0 <= b -> user_mapped s b = true ->
  b < PMM_USER_MAX_BLOCKS /\ test_bit (user_bitmap s) b = true /\ block_is_used s b = true.
Proof.
  intros Hwf Hb H. unfold user_mapped in H. split_bools.
  assert (test_bit (user_bitmap s) b = true) by (apply (wf_mapped _ Hwf); [lia|done]).
  repeat split; [lia|done|]. apply (wf_user _ Hwf); [lia|done].
Qed.

Section take.
Context (user : bool) (b : Z) (s : pmm) (Hb : in_blocks b).

Lemma take_frame_used x : 0 <= x ->
  block_is_used (take_frame user b s) x = (b =? x) || block_is_used s x.
Proof.
  intros Hx. unfold block_is_used. destruct (take_frame_fields user b s) as (_ & -> & _).
  apply test_set; block_consts; lia.
Qed.

Lemma take_frame_usable x : block_is_usable (take_frame user b s) x = block_is_usable s x.
Proof. unfold block_is_usable. by destruct (take_frame_fields user b s) as (-> & _). Qed.

Lemma take_frame_user x : 0 <= x < PMM_USER_MAX_BLOCKS ->
  test_bit (user_bitmap (take_frame user b s)) x =
  if b =? x then user else test_bit (user_bitmap s) x.
Proof.
  intros Hx. destruct (take_frame_fields user b s) as (_ & _ & _ & _ & _ & _ & ->).
  destruct (PMM_USER_MAX_BLOCKS <=? b) eqn:E; [by replace (b =? x) with false by lia|].
  destruct user; rewrite ?test_set, ?test_clear by (block_consts; lia);
    by destruct (Z.eqb_spec b x).
Qed.

Lemma take_frame_mapped x : user_mapped (take_frame user b s) x = user_mapped s x.
Proof.
  unfold user_mapped. by destruct (take_frame_fields user b s) as (_ & _ & -> & _).
Qed.

Lemma take_frame_arrays : arrays_ok s -> arrays_ok (take_frame user b s).
Proof.
  intros (A1 & A2 & A3 & A4). unfold arrays_ok.
  destruct (take_frame_fields user b s) as (-> & -> & -> & _ & _ & _ & ->).
  solve_arrays.
Qed.

Lemma take_frame_wf : pmm_wf s -> block_is_used s b = false ->
  (user = true -> PMM_USER_MIN_ADDRESS / PMM_BLOCK_SIZE <= b < PMM_USER_MAX_BLOCKS) ->
  pmm_wf (take_frame user b s).
Proof.
  intros [Harr Hdet Hfu Hru Hm Hum Hus Hmp] Hfree Hur.
  pose proof (Hfu b Hb Hfree) as Hub.
  destruct (take_frame_fields user b s) as (_ & _ & Fm & Fd & Fg & Fc & _).
  split; rewrite ?Fd, ?Fg, ?Fc.
  - by apply take_frame_arrays.
  - done.
  - intros x Hx. rewrite take_frame_used, take_frame_usable by (block_consts; lia).
    intros H. split_bools. by apply Hfu.
  - intros x Hx. rewrite take_frame_usable. by apply Hru.
  - rewrite Hm. apply count_blocks_ext. intros x _. by rewrite take_frame_usable.
  - rewrite Hum, (count_blocks_set (fun x => block_is_usable s x && block_is_used s x)
      (fun x => block_is_usable (take_frame user b s) x &&
                block_is_used (take_frame user b s) x) b); try done.
    + apply u32_id. pose proof (count_blocks_range
        (fun x => block_is_usable s x && block_is_used s x)). unfold is_u32. block_consts. lia.
    + by rewrite Hub, Hfree.
    + rewrite take_frame_usable, take_frame_used, Hub, Z.eqb_refl by (block_consts; lia). done.
    + intros i Hi Hn. rewrite take_frame_usable, take_frame_used by (block_consts; lia).
      by replace (b =? i) with false by lia.
  - intros x Hx. rewrite take_frame_usable, take_frame_used, take_frame_user by (done || lia).
    destruct (Z.eqb_spec b x) as [<-|]; simpl; [|apply Hus, Hx].
    intros ->. destruct Hur; done.
  - intros x Hx. rewrite Fm, take_frame_user by done. intros Ht. pose proof (Hmp x Hx Ht).
    destruct (Z.eqb_spec b x) as [<-|]; [|done].
    destruct (Hus b Hx) as (_ & ? & _); congruence.
Qed.

Lemma take_frame_owner x : pmm_wf s -> block_is_used s b = false ->
  (user = true -> b < PMM_USER_MAX_BLOCKS) -> in_blocks x ->
  frame_owner (take_frame user b s) x =
  own_upd (frame_owner s) b (if user then User false else Kernel) x.
Proof.
  intros Hwf Hfree Hur Hx. unfold frame_owner, own_upd.
  rewrite take_frame_usable, take_frame_used, take_frame_mapped by (block_consts; lia).
  case_decide as Hxb.
  - subst x. rewrite (wf_free_usable _ Hwf b Hb Hfree), Z.eqb_refl. simpl.
    assert (user_mapped s b = false) as ->.
    { destruct (user_mapped s b) eqn:E; [|done].
      apply mapped_used in E as (_ & _ & ?); [congruence|done|block_consts; lia]. }
    destruct (b <? PMM_USER_MAX_BLOCKS) eqn:E; simpl.
    + rewrite take_frame_user by (block_consts; lia). rewrite Z.eqb_refl. by destruct user.
    + destruct user; [|done]. specialize (Hur eq_refl). lia.
  - replace (b =? x) with false by lia. simpl.
    destruct (x <? PMM_USER_MAX_BLOCKS) eqn:E; simpl; [|done].
    rewrite take_frame_user by (block_consts; lia). by replace (b =? x) with false by lia.
Qed.

End take.

Section give.
Context (b : Z) (s : pmm) (Hb : in_blocks b).

Lemma give_frame_used x : 0 <= x ->
  block_is_used (give_frame b s) x = negb (b =? x) && block_is_used s x.
Proof.
  intros Hx. unfold block_is_used. destruct (give_frame_fields b s) as (_ & -> & _).
  apply test_clear; block_consts; lia.
Qed.

Lemma give_frame_usable x : block_is_usable (give_frame b s) x = block_is_usable s x.
Proof. unfold block_is_usable. by destruct (give_frame_fields b s) as (-> & _). Qed.

Lemma give_frame_user x : 0 <= x < PMM_USER_MAX_BLOCKS ->
  test_bit (user_bitmap (give_frame b s)) x =
  negb (b =? x) && test_bit (user_bitmap s) x.
Proof.
  intros Hx. destruct (give_frame_fields b s) as (_ & _ & _ & _ & _ & _ & ->).
  destruct (PMM_USER_MAX_BLOCKS <=? b) eqn:E; [by replace (b =? x) with false by lia|].
  apply test_clear; block_consts; lia.
Qed.

Lemma give_frame_mapped x : user_mapped (give_frame b s) x = user_mapped s x.
Proof. unfold user_mapped. by destruct (give_frame_fields b s) as (_ & _ & -> & _). Qed.

Lemma give_frame_arrays : arrays_ok s -> arrays_ok (give_frame b s).
Proof.
  intros (A1 & A2 & A3 & A4). unfold arrays_ok.
  destruct (give_frame_fields b s) as (-> & -> & -> & _ & _ & _ & ->).
  solve_arrays.
Qed.

Lemma give_frame_wf : pmm_wf s -> block_is_usable s b = true -> block_is_used s b = true ->
  user_mapped s b = false -> pmm_wf (give_frame b s).
Proof.
  intros [Harr Hdet Hfu Hru Hm Hum Hus Hmp] Hub Huse Hnm.
  destruct (give_frame_fields b s) as (_ & _ & Fm & Fd & Fg & Fc & _).
  split; rewrite ?Fd, ?Fg, ?Fc.
  - by apply give_frame_arrays.
  - done.
  - intros x Hx. rewrite give_frame_used, give_frame_usable by (block_consts; lia).
    destruct (Z.eqb_spec b x) as [<-|]; [done|]. apply Hfu, Hx.
  - intros x Hx. rewrite give_frame_usable. by apply Hru.
  - rewrite Hm. apply count_blocks_ext. intros x _. by rewrite give_frame_usable.
  - assert (block_is_usable s b && block_is_used s b = true) as Hboth by (by rewrite Hub, Huse).
    rewrite Hum, (count_blocks_clear (fun x => block_is_usable s x && block_is_used s x)
      (fun x => block_is_usable (give_frame b s) x &&
                block_is_used (give_frame b s) x) b); try done.
    + apply u32_id. pose proof (count_blocks_range
        (fun x => block_is_usable s x && block_is_used s x)).
      pose proof (count_blocks_pos (fun x => block_is_usable s x && block_is_used s x) b Hb Hboth).
      unfold is_u32. block_consts. lia.
    + rewrite give_frame_used, Z.eqb_refl by (block_consts; lia). apply andb_false_r.
    + intros i Hi Hn. rewrite give_frame_usable, give_frame_used by (block_consts; lia).
      by replace (b =? i) with false by lia.
  - intros x Hx. rewrite give_frame_usable, give_frame_used, give_frame_user by (done || lia).
    destruct (Z.eqb_spec b x) as [<-|]; simpl; [done|apply Hus, Hx].
  - intros x Hx. rewrite Fm, give_frame_user by done. intros Ht. rewrite (Hmp x Hx Ht).
    destruct (Z.eqb_spec b x) as [<-|]; [|done].
    unfold user_mapped in Hnm. rewrite Ht in Hnm. lia.
Qed.

Lemma give_frame_owner x : block_is_usable s b = true -> in_blocks x ->
  frame_owner (give_frame b s) x = own_upd (frame_owner s) b Free x.
Proof.
  intros Hub Hx. unfold frame_owner, own_upd.
  rewrite give_frame_usable, give_frame_used, give_frame_mapped by (block_consts; lia).
  case_decide as Hxb.
  - subst x. by rewrite Hub, Z.eqb_refl.
  - replace (b =? x) with false by lia. simpl.
    destruct (x <? PMM_USER_MAX_BLOCKS) eqn:E; simpl; [|done].
    rewrite give_frame_user by (block_consts; lia). by replace (b =? x) with false by lia.
Qed.

End give.

(** Setting or clearing the mapped bit of a user frame. *)
Lemma set_mapped_owner s bm :
  (forall x, 0 <= x -> test_bit (user_mapped_bitmap s) x = test_bit bm x ->
     frame_owner (set_user_mapped_bitmap s bm) x = frame_owner s x).
Proof. intros x Hx He. unfold frame_owner, user_mapped. simpl. by rewrite He. Qed.

Lemma set_mapped_wf s bm :
  pmm_wf s -> words_ok PMM_USER_BITMAP_WORDS bm ->
  (forall x, 0 <= x < PMM_USER_MAX_BLOCKS -> test_bit bm x = true ->
     test_bit (user_bitmap s) x = true) ->
  pmm_wf (set_user_mapped_bitmap s bm).
Proof. intros [(A1 & A2 & A3 & A4) ? ? ? ? ? ? ?] Hw Hm. by split. Qed.

(** What each ownership value says about the bits. *)
Lemma owner_free s b : pmm_wf s -> in_blocks b ->
  (frame_owner s b = Free <-> block_is_used s b = false).
Proof.
  intros Hwf Hb. unfold frame_owner. pose proof (wf_free_usable _ Hwf b Hb).
  destruct (block_is_usable s b); simpl; [|intuition congruence].
  destruct (block_is_used s b); simpl; [|intuition].
  by destruct (_ && _).
Qed.

Lemma owner_user s b m : pmm_wf s -> in_blocks b ->
  (frame_owner s b = User m <->
   b < PMM_USER_MAX_BLOCKS /\ test_bit (user_bitmap s) b = true /\ user_mapped s b = m).
Proof.
  intros Hwf Hb. unfold frame_owner. split.
  - repeat case_if; try done. intros [= <-]. split_bools. repeat split; [lia|done].
  - intros (Hlt & Hu & <-).
    destruct (wf_user _ Hwf b) as (-> & -> & _); [block_consts; lia|done|]. simpl.
    by replace (b <? PMM_USER_MAX_BLOCKS) with true by lia; rewrite Hu.
Qed.

Lemma user_owned_spec s a : pmm_wf s -> is_u32 a ->
  (pmm_block_is_user_owned s a = true <->
   a mod 4096 = 0 /\ exists m, frame_owner s (a / 4096) = User m).
Proof.
  intros Hwf Ha. assert (in_blocks (a / 4096)) as Hb by (unfold is_u32 in Ha; block_consts; dmlia).
  unfold pmm_block_is_user_owned. rewrite flag_aligned. change PMM_BLOCK_SIZE with 4096.
  destruct (Z.eqb_spec (a mod 4096) 0) as [Hal|]; simpl; [|intuition congruence].
  split.
  - intros H. split_bools. split; [done|]. eexists.
    apply owner_user; [done..|]. repeat split; [lia|done].
  - intros (_ & m & H). apply owner_user in H as (? & Hu & _); [|done..].
    destruct (wf_user _ Hwf (a / 4096)) as (Hus & -> & _); [unfold in_blocks in *; lia|done|].
    rewrite Hus, Hu. pose proof (wf_usable_range _ Hwf _ Hb Hus). lia.
Qed.

Lemma alloc_below_cases limit s a s' : pmm_wf s -> is_u32 limit ->
  pmm_alloc_block_below limit s = (a, s') ->
  (exists b, a = b * 4096 /\ s' = take_frame false b s /\ in_blocks b /\
     PMM_LOW_MEMORY_END / PMM_BLOCK_SIZE <= b < limit / 4096 /\
     block_is_used s b = false /\
     (forall j, PMM_LOW_MEMORY_END / PMM_BLOCK_SIZE <= j < b -> block_is_used s j = true)) \/
  (a = 0 /\ s' = s /\
   forall b, in_blocks b -> b < limit / 4096 -> block_is_used s b = true).
Proof.
  intros Hwf Hl. unfold is_u32 in Hl. pose proof (wf_detected _ Hwf) as Hd.
  unfold pmm_alloc_block_below. change (limit / PMM_BLOCK_SIZE) with (limit / 4096).
  destruct (find_first _ _ _) as [b|] eqn:E; intros [= <- <-].
  - left. apply find_first_Some in E as (Hr & Hu & Hlow). exists b.
    assert (in_blocks b /\ b < limit / 4096) as [Hb ?] by (case_if; block_consts; dmlia).
    rewrite block_addr_u32 by done. apply negb_true_iff in Hu.
    repeat split; try done; try (case_if; block_consts; dmlia).
    intros j Hj. apply negb_false_iff. by apply Hlow.
  - right. split; [done|]. split; [done|]. intros b Hb Hlt.
    destruct (block_is_used s b) eqn:Eu; [done|].
    pose proof (wf_usable_range _ Hwf b Hb (wf_free_usable _ Hwf b Hb Eu)).
    assert (negb (block_is_used s b) = false) as Hn
      by (apply (proj1 (find_first_None _ _ _) E); case_if; block_consts; dmlia).
    by rewrite Eu in Hn.
Qed.

Lemma alloc_user_cases s a s' : pmm_wf s -> pmm_alloc_user_block s = (a, s') ->
  (exists b, a = b * 4096 /\ s' = take_frame true b s /\ in_blocks b /\
     PMM_USER_MIN_ADDRESS / PMM_BLOCK_SIZE <= b < PMM_USER_MAX_BLOCKS /\
     block_is_used s b = false /\
     (forall j, PMM_USER_MIN_ADDRESS / PMM_BLOCK_SIZE <= j < b -> block_is_used s j = true)) \/
  (a = 0 /\ s' = s /\
   forall b, PMM_USER_MIN_ADDRESS / PMM_BLOCK_SIZE <= b < PMM_USER_MAX_BLOCKS ->
     block_is_used s b = true).
Proof.
  intros Hwf. pose proof (wf_detected _ Hwf) as Hd. unfold pmm_alloc_user_block.
  destruct (find_first _ _ _) as [b|] eqn:E; intros [= <- <-].
  - left. apply find_first_Some in E as (Hr & Hu & Hlow). split_bools. exists b.
    assert (in_blocks b) as Hb by (case_if; block_consts; dmlia).
    rewrite block_addr_u32 by done. repeat split; try done; try (case_if; block_consts; dmlia).
    intros j Hj. destruct (block_is_used s j) eqn:Eu; [done|].
    specialize (Hlow j Hj). rewrite Eu, (wf_free_usable _ Hwf j) in Hlow; [done| |done].
    block_consts. dmlia.
  - right. split; [done|]. split; [done|]. intros b Hb.
    destruct (block_is_used s b) eqn:Eu; [done|].
    assert (in_blocks b) as Hbb by (block_consts; dmlia).
    pose proof (wf_free_usable _ Hwf b Hbb Eu) as Hus.
    pose proof (wf_usable_range _ Hwf b Hbb Hus).
    assert (negb (block_is_used s b) && block_is_usable s b = false) as Hn
      by (apply (proj1 (find_first_None _ _ _) E); case_if; block_consts; dmlia).
    by rewrite Eu, Hus in Hn.
Qed.

(** ** Each call is a step of the specification *)

Definition refines_step (s : pmm) (op : pmm_op) (r : Z) (s' : pmm) : Prop :=
  pmm_wf s' /\ exists m', frame_step (frame_owner s) op r m' /\
    forall b, in_blocks b -> frame_owner s' b = m' b.

Lemma alloc_below_refines limit s a s' : pmm_wf s -> is_u32 limit ->
  pmm_alloc_block_below limit s = (a, s') -> refines_step s (OpAllocBelow limit) a s'.
Proof.
  intros Hwf Hl E.
  apply alloc_below_cases in E as [(b & -> & -> & Hb & Hr & Hf & Hlow)|(-> & -> & Hall)];
    [| |done..].
  - split; [by apply take_frame_wf|]. eexists. split; [apply step_alloc|].
    + by apply owner_free.
    + block_consts. dmlia.
    + block_consts. dmlia.
    + intros j Hj Ho. apply owner_free in Ho; [|done|block_consts; dmlia].
      rewrite Hlow in Ho; [done|block_consts; lia].
    + intros x Hx. by apply (take_frame_owner false).
  - split; [done|]. eexists. split; [apply step_alloc_fail|done].
    intros b Hb Hlt Ho. apply owner_free in Ho; [|done..]. by rewrite Hall in Ho.
Qed.

Lemma alloc_user_refines s a s' : pmm_wf s ->
  pmm_alloc_user_block s = (a, s') -> refines_step s OpAllocUser a s'.
Proof.
  intros Hwf E.
  apply alloc_user_cases in E as [(b & -> & -> & Hb & Hr & Hf & Hlow)|(-> & -> & Hall)];
    [| |done..].
  - split; [by apply take_frame_wf|]. eexists. split; [apply step_alloc_user|].
    + by apply owner_free.
    + block_consts. dmlia.
    + intros j Hj Ho. apply owner_free in Ho; [|done|block_consts; dmlia].
      rewrite Hlow in Ho; [done|block_consts; lia].
    + intros x Hx. apply (take_frame_owner true); [done..| |done]. lia.
  - split; [done|]. eexists. split; [apply step_alloc_user_fail|done].
    intros b Hb Ho. apply owner_free in Ho; [|done|block_consts; dmlia].
    rewrite Hall in Ho; [done|]. block_consts. dmlia.
Qed.

Lemma u32_block a : is_u32 a -> in_blocks (a / 4096).
Proof. unfold is_u32. intros. block_consts. dmlia. Qed.

Lemma claim_refines a s ok s' : pmm_wf s -> is_u32 a ->
  pmm_claim_user_block a s = (ok, s') -> refines_step s (OpClaim a) (bool_ret ok) s'.
Proof.
  intros Hwf Ha. pose proof (u32_block a Ha) as Hb. unfold pmm_claim_user_block.
  change (a / PMM_BLOCK_SIZE) with (a / 4096).
  destruct (pmm_block_is_user_owned s a) eqn:Eo; simpl.
  2: { intros [= <- <-]. split; [done|]. eexists. split; [apply step_claim_fail|done].
       intros Hal Hc. rewrite (proj2 (user_owned_spec s a Hwf Ha)) in Eo; [done|]. eauto. }
  apply user_owned_spec in Eo as (Hal & m & Ho); [|done..].
  pose proof (proj1 (owner_user s _ _ Hwf Hb) Ho) as (Hlt & Hub & Hm).
  rewrite Hm. destruct m; intros [= <- <-].
  { split; [done|]. eexists. split; [apply step_claim_fail|done]. congruence. }
  unfold mark_user_mapped. replace (a / 4096 <? PMM_USER_MAX_BLOCKS) with true by lia.
  assert (0 <= a / 4096) by (unfold in_blocks in Hb; lia).
  assert (pmm_wf (set_user_mapped_bitmap s (set_bit (user_mapped_bitmap s) (a / 4096)))) as Hwf1.
  { apply set_mapped_wf; [done| |].
    - apply words_ok_set; [apply Hwf|block_consts; lia].
    - intros x Hx. rewrite test_set by lia. destruct (Z.eqb_spec (a / 4096) x) as [<-|]; [done|].
      by apply (wf_mapped _ Hwf). }
  split; [done|]. exists (own_upd (frame_owner s) (a / 4096) (User true)). split.
  - replace a with (a / 4096 * 4096) at 1 by dmlia. by apply step_claim.
  - intros x Hx. unfold own_upd. case_decide as Hxa.
    + subst x. apply owner_user; [done..|]. split; [done|]. split; [done|].
      unfold user_mapped. simpl. rewrite test_set, Z.eqb_refl by lia. lia.
    + apply set_mapped_owner; [unfold in_blocks in Hx; lia|].
      rewrite test_set by (unfold in_blocks in *; lia).
      by replace (a / 4096 =? x) with false by lia.
Qed.

Lemma release_refines a s : pmm_wf s -> is_u32 a ->
  refines_step s (OpRelease a) 0 (pmm_release_user_block a s).
Proof.
  intros Hwf Ha. pose proof (u32_block a Ha) as Hb. unfold pmm_release_user_block.
  rewrite flag_aligned, negb_involutive. change (a / PMM_BLOCK_SIZE) with (a / 4096).
  destruct (Z.eqb_spec (a mod 4096) 0) as [Hal|Hal].
  2: { split; [done|]. eexists. split; [by apply step_release_skip|done]. }
  unfold mark_user_unmapped. destruct (a / 4096 <? PMM_USER_MAX_BLOCKS) eqn:E.
  2: { split; [done|]. eexists. split; [apply step_release_skip|done].
       intros _ Ho. apply owner_user in Ho; [lia|done..]. }
  assert (0 <= a / 4096) by (unfold in_blocks in Hb; lia).
  assert (pmm_wf (set_user_mapped_bitmap s (clear_bit (user_mapped_bitmap s) (a / 4096)))) as Hwf1.
  { apply set_mapped_wf; [done| |].
    - apply words_ok_clear; [apply Hwf|block_consts; lia].
    - intros x Hx. rewrite test_clear by lia. intros Ht. split_bools.
      by apply (wf_mapped _ Hwf). }
  split; [done|].
  assert (forall x, in_blocks x -> x <> a / 4096 ->
    frame_owner (set_user_mapped_bitmap s (clear_bit (user_mapped_bitmap s) (a / 4096))) x =
    frame_owner s x) as Hother.
  { intros x Hx Hne. apply set_mapped_owner; [unfold in_blocks in Hx; lia|].
    rewrite test_clear by (unfold in_blocks in *; lia).
    by replace (a / 4096 =? x) with false by lia. }
  destruct (decide (frame_owner s (a / 4096) = User true)) as [Ho|Ho].
  - exists (own_upd (frame_owner s) (a / 4096) (User false)). split.
    { replace a with (a / 4096 * 4096) at 1 by dmlia. by apply step_release. }
    intros x Hx. unfold own_upd. case_decide as Hxa; [|by apply Hother].
    subst x. apply owner_user in Ho as (? & ? & _); [|done..].
    apply owner_user; [done..|]. split; [done|]. split; [done|].
    unfold user_mapped. simpl. rewrite test_clear, Z.eqb_refl by lia. apply andb_false_r.
  - exists (frame_owner s). split; [by apply step_release_skip|].
    intros x Hx. destruct (decide (x = a / 4096)) as [->|]; [|by apply Hother].
    apply set_mapped_owner; [lia|]. rewrite test_clear, Z.eqb_refl by lia. simpl.
    destruct (test_bit (user_mapped_bitmap s) (a / 4096)) eqn:Et; [|done].
    exfalso. apply Ho. apply owner_user; [done..|]. repeat split; [lia| |].
    + apply (wf_mapped _ Hwf); [lia|done].
    + unfold user_mapped. rewrite Et. lia.
Qed.

Lemma free_refines a s : pmm_wf s -> is_u32 a ->
  refines_step s (OpFree a) 0 (pmm_free_block a s).
Proof.
  intros Hwf Ha. pose proof (u32_block a Ha) as Hb. unfold pmm_free_block.
  rewrite flag_aligned. change (a / PMM_BLOCK_SIZE) with (a / 4096).
  destruct (Z.eqb_spec (a mod 4096) 0) as [Hal|Hal]; simpl.
  2: { split; [done|]. eexists. split; [by apply step_free_skip|done]. }
  destruct (_ || _) eqn:Eg.
  { split; [done|]. eexists. split; [apply step_free_skip|done]. intros _.
    unfold frame_owner. destruct (block_is_usable s (a / 4096)) eqn:Eu; simpl; [|done].
    destruct (block_is_used s (a / 4096)) eqn:Ed; simpl; [|done].
    pose proof (wf_usable_range _ Hwf _ Hb Eu). exfalso. lia. }
  split_bools. destruct (user_mapped s (a / 4096)) eqn:Em.
  { split; [done|]. eexists. split; [apply step_free_skip|done]. intros _.
    assert (frame_owner s (a / 4096) = User true) as ->; [|done].
    apply owner_user; [done..|]. apply mapped_used in Em as Hm; [|done|unfold in_blocks in Hb; lia].
    by destruct Hm as (? & ? & _). }
  fold (give_frame (a / 4096) s). split; [by apply give_frame_wf|].
  exists (own_upd (frame_owner s) (a / 4096) Free). split; [|intros x Hx; by apply give_frame_owner].
  replace a with (a / 4096 * 4096) at 1 by dmlia. apply step_free. unfold frame_owner.
  replace (block_is_usable s (a / 4096)) with true by done.
  replace (block_is_used s (a / 4096)) with true by done. simpl. rewrite Em.
  destruct (_ && _); auto.
Qed.

Lemma pmm_exec_refines op s r s' : pmm_wf s -> op_ok op ->
  pmm_exec op s = (r, s') -> refines_step s op r s'.
Proof.
  intros Hwf Hok. destruct op as [limit| |a|a|a]; simpl in Hok |- *.
  - by apply alloc_below_refines.
  - by apply alloc_user_refines.
  - destruct (pmm_claim_user_block a s) as [ok s1] eqn:E. intros [= <- <-].
    by apply claim_refines.
  - intros [= <- <-]. by apply release_refines.
  - intros [= <- <-]. by apply free_refines.
Qed.

(** ** Sequences of calls *)

Definition pmm_run (ops : list pmm_op) (s : pmm) : pmm :=
  foldl (fun s op => snd (pmm_exec op s)) s ops.

(** States reachable from a successful boot by any sequence of calls. *)
Inductive pmm_reachable (kernel_start kernel_end : Z) (info : boot_info) : pmm -> Prop :=
  | reach_init s0 s : arrays_ok s0 ->
      pmm_init kernel_start kernel_end (Some info) s0 = (true, s) ->
      pmm_reachable kernel_start kernel_end info s
  | reach_step s op : pmm_reachable kernel_start kernel_end info s -> op_ok op ->
      pmm_reachable kernel_start kernel_end info (snd (pmm_exec op s)).

Definition is_alloc (op : pmm_op) : Prop :=
  match op with OpAllocBelow _ | OpAllocUser => True | _ => False end.

Lemma frame_step_not_free m op r m' b :
  frame_step m op r m' -> m b <> Free -> op <> OpFree (b * 4096) -> m' b <> Free.
Proof.
  intros Hstep Hb Hop.
  destruct Hstep; try done; unfold own_upd; case_decide; subst; done.
Qed.

Lemma frame_step_alloc m op r m' :
  frame_step m op r m' -> is_alloc op -> r <> 0 -> r mod 4096 = 0 /\ m (r / 4096) = Free.
Proof.
  intros Hstep Ha Hr. destruct Hstep; simpl in Ha; try done;
    rewrite Z.mod_mul, Z.div_mul by lia; done.
Qed.

Lemma pmm_run_not_free ops s b :
  pmm_wf s -> Forall op_ok ops -> OpFree (b * 4096) ∉ ops -> in_blocks b ->
  frame_owner s b <> Free ->
  pmm_wf (pmm_run ops s) /\ frame_owner (pmm_run ops s) b <> Free.
Proof.
  intros Hwf Hok Hnot Hb Ho. revert s Hwf Ho.
  induction Hok as [|op ops Hop _ IH]; intros s Hwf Ho; [done|]. simpl.
  apply not_elem_of_cons in Hnot as [Hne Hnot].
  destruct (pmm_exec op s) as [r s'] eqn:E.
  destruct (pmm_exec_refines _ _ _ _ Hwf Hop E) as (Hwf' & m' & Hstep & Hm').
  apply (IH Hnot); [done|]. simpl. rewrite Hm' by done.
  eapply frame_step_not_free; [exact Hstep|done|congruence].
Qed.

Lemma alloc_block_bounds op s r s' : pmm_wf s -> op_ok op -> is_alloc op ->
  pmm_exec op s = (r, s') -> r <> 0 ->
  exists b user, r = b * 4096 /\ in_blocks b /\ block_is_used s b = false /\
    s' = take_frame user b s /\ (user = true -> b < PMM_USER_MAX_BLOCKS) /\
    PMM_LOW_MEMORY_END / PMM_BLOCK_SIZE <= b.
Proof.
  intros Hwf Hok Ha E Hr. destruct op as [limit| |a|a|a]; simpl in *; try done.
  - apply alloc_below_cases in E as [(b & ? & ? & ? & ? & ? & _)|[? _]]; [|done..].
    exists b, false. repeat split; (done || lia || (block_consts; dmlia)).
  - apply alloc_user_cases in E as [(b & ? & ? & ? & ? & ? & _)|[? _]]; [|done..].
    exists b, true. repeat split; (done || lia || (block_consts; dmlia)).
Qed.

(** Freeing the frame just allocated undoes the allocation. *)
Lemma free_take_frame s b user : pmm_wf s -> in_blocks b -> block_is_used s b = false ->
  (user = true -> b < PMM_USER_MAX_BLOCKS) ->
  pmm_free_block (b * 4096) (take_frame user b s) = give_frame b (take_frame user b s).
Proof.
  intros Hwf Hb Hf Hu. unfold pmm_free_block. rewrite flag_aligned.
  change PMM_BLOCK_SIZE with 4096. rewrite Z.mod_mul, Z.div_mul by lia.
  pose proof (wf_free_usable _ Hwf b Hb Hf) as Hus.
  pose proof (wf_usable_range _ Hwf b Hb Hus) as Hrange.
  rewrite take_frame_usable, take_frame_used, take_frame_mapped, Hus, Z.eqb_refl
    by (done || (block_consts; lia)).
  destruct (take_frame_fields user b s) as (_ & _ & _ & -> & _).
  replace (user_mapped s b) with false; [|symmetry].
  2: { destruct (user_mapped s b) eqn:E; [|done].
       apply mapped_used in E as (_ & _ & ?); [congruence|done|block_consts; lia]. }
  simpl negb. simpl orb. by replace (_ || _) with false by (block_consts; lia).
Qed.

Lemma own_upd_undo m b o o' x : own_upd (own_upd m b o) b o' x = own_upd m b o' x.
Proof. unfold own_upd. by case_decide. Qed.

Lemma pmm_free_blocks_count s : pmm_wf s ->
  pmm_free_blocks s = count_blocks (fun b => bool_decide (frame_owner s b = Free)).
Proof.
  intros Hwf. unfold pmm_free_blocks. rewrite (wf_managed _ Hwf), (wf_used_managed _ Hwf).
  unfold count_blocks. rewrite (count_to_sub _ _ _ (fun b => bool_decide (frame_owner s b = Free))).
  - apply u32_id. pose proof (count_blocks_range (fun b => bool_decide (frame_owner s b = Free))).
    unfold count_blocks in *. block_consts. unfold is_u32. lia.
  - intros b _. unfold frame_owner.
    destruct (block_is_usable s b), (block_is_used s b); try done. simpl.
    by destruct (_ && _).
Qed.

(** ** Properties *)

(** C1: [pmm_init] succeeds exactly when the boot metadata is valid, the kernel image is
    non-empty and some frame is allocatable; it then leaves a well-formed allocator in which
    exactly the frames of [usable_frame] (inside an active available E820 entry, meeting no
    active reserved entry whatever the order of the entries, low memory, the kernel image or
    the framebuffer) are free and every other frame is reserved. *)
Theorem pmm_init_correct ks ke info s :
  boot_info_wf info -> arrays_ok s -> is_u32 ks -> is_u32 ke ->
  let '(ok, s') := pmm_init ks ke (Some info) s in
  (ok = true <-> boot_info_is_valid (Some info) = true /\ ks < ke /\
     exists b, in_blocks b /\ usable_frame ks ke info b = true) /\
  (ok = true -> pmm_wf s' /\ forall b, in_blocks b ->
     frame_owner s' b = if usable_frame ks ke info b then Free else Reserved).
Proof.
  intros Hwf Ha Hks Hke. destruct (boot_info_is_valid (Some info)) eqn:Hv.
  2: { unfold pmm_init. rewrite Hv. simpl. intuition congruence. }
  destruct (Z_lt_ge_dec ks ke) as [Hlt|Hge].
  2: { unfold pmm_init. rewrite Hv. replace (ke <=? ks) with true by lia. simpl. intuition lia. }
  destruct (pmm_init_state ks ke info s) as (s' & Hs' & ->); [done..|].
  pose proof (is_managed _ _ Hs') as Hm. pose proof (is_detected _ _ Hs').
  pose proof (count_blocks_range (usable_frame ks ke info)). split.
  - split.
    + intros Hok. split; [done|]. split; [done|].
      destruct (find_first 0 PMM_MAX_BLOCKS (usable_frame ks ke info)) as [b|] eqn:E.
      * apply find_first_Some in E as (Hb & Hu & _). by exists b.
      * rewrite (count_blocks_false (usable_frame ks ke info)) in Hm; [lia|].
        intros i Hi. by apply (proj1 (find_first_None _ _ _) E).
    + intros (_ & _ & b & Hb & Hu).
      pose proof (count_blocks_pos (usable_frame ks ke info) b Hb Hu).
      pose proof (is_below _ _ Hs' b Hb Hu). unfold in_blocks in Hb. lia.
  - intros _. split; [|intros b Hb; by apply init_state_owner].
    apply (init_state_wf _ _ Hs'). intros b. apply usable_frame_low.
Qed.

(** C2: every call of the allocator's interface, from any state reachable from a successful
    boot, is a step of the ownership specification [frame_step]: it keeps the invariant,
    returns what the specification allows (the lowest free frame in range, or 0 only when
    there is none) and changes the owner of no other frame. *)
Theorem pmm_refines_ownership ks ke info s op r s' :
  boot_info_wf info -> is_u32 ks -> is_u32 ke ->
  pmm_reachable ks ke info s -> op_ok op -> pmm_exec op s = (r, s') ->
  pmm_wf s /\ pmm_wf s' /\
  exists m', frame_step (frame_owner s) op r m' /\
    forall b, in_blocks b -> frame_owner s' b = m' b.
Proof.
  intros Hbi Hks Hke Hreach Hok E.
  assert (pmm_wf s) as Hwf.
  { clear op r s' Hok E. induction Hreach as [s0 s Ha Hinit|s op _ IH Hok].
    - exact (pmm_init_wf _ _ _ _ _ Hbi Ha Hks Hke Hinit).
    - destruct (pmm_exec op s) as [r s'] eqn:E. simpl.
      by destruct (pmm_exec_refines _ _ _ _ IH Hok E). }
  split; [done|]. exact (pmm_exec_refines _ _ _ _ Hwf Hok E).
Qed.

(** C4: no double allocation. A frame handed out by either allocator is never handed out
    again, by either allocator, after any sequence of calls that does not free it. *)
Theorem pmm_no_double_allocation s op a s1 ops op' :
  pmm_wf s -> op_ok op -> is_alloc op -> pmm_exec op s = (a, s1) -> a <> 0 ->
  Forall op_ok ops -> OpFree a ∉ ops -> op_ok op' -> is_alloc op' ->
  fst (pmm_exec op' (pmm_run ops s1)) <> a.
Proof.
  intros Hwf Hok Hal E Ha Hops Hnf Hok' Hal' Heq.
  destruct (alloc_block_bounds _ _ _ _ Hwf Hok Hal E Ha) as (b & user & -> & Hb & Hf & -> & Hu & Hlow).
  pose proof (pmm_exec_refines _ _ _ _ Hwf Hok E) as (Hwf1 & _ & _ & _).
  assert (frame_owner (take_frame user b s) b <> Free) as Hnot.
  { rewrite take_frame_owner by done. unfold own_upd. case_decide; by destruct user. }
  destruct (pmm_run_not_free ops _ b Hwf1 Hops Hnf Hb Hnot) as [Hwf2 Hnot2].
  destruct (pmm_exec op' (pmm_run ops (take_frame user b s))) as [r s3] eqn:E'.
  simpl in Heq. subst r.
  destruct (pmm_exec_refines _ _ _ _ Hwf2 Hok' E') as (_ & m' & Hstep & _).
  destruct (frame_step_alloc _ _ _ _ Hstep Hal' Ha) as [_ Hfree].
  rewrite Z.div_mul in Hfree by lia. done.
Qed.

(** Allocating a frame and freeing it gives back every frame's owner and all the
    counters, and [pmm_free_blocks] is the number of free frames before and after. *)
Theorem pmm_alloc_free_roundtrip s op a s1 :
  pmm_wf s -> op_ok op -> is_alloc op -> pmm_exec op s = (a, s1) -> a <> 0 ->
  let s2 := pmm_free_block a s1 in
  (forall b, in_blocks b -> frame_owner s2 b = frame_owner s b) /\
  used_managed_blocks s2 = used_managed_blocks s /\
  managed_blocks s2 = managed_blocks s /\
  pmm_free_blocks s1 = pmm_free_blocks s - 1 /\
  pmm_free_blocks s2 = count_blocks (fun b => bool_decide (frame_owner s b = Free)).
Proof.
  intros Hwf Hok Hal E Ha. cbv zeta.
  destruct (alloc_block_bounds _ _ _ _ Hwf Hok Hal E Ha) as (b & user & -> & Hb & Hf & -> & Hu & Hlow).
  pose proof (pmm_exec_refines _ _ _ _ Hwf Hok E) as (Hwf1 & _ & _ & _).
  rewrite free_take_frame by done.
  pose proof (wf_free_usable _ Hwf b Hb Hf) as Hus.
  destruct (take_frame_fields user b s) as (_ & _ & _ & _ & Fg & Fc & _).
  destruct (give_frame_fields b (take_frame user b s)) as (_ & _ & _ & _ & Fg' & Fc' & _).
  pose proof (count_blocks_range (fun x => block_is_usable s x && block_is_used s x)) as Hr.
  pose proof (wf_used_managed _ Hwf) as Hum. rewrite Fc in Fc'.
  assert (u32 (used_managed_blocks s + 1) = used_managed_blocks s + 1) as E1
    by (apply u32_id; unfold is_u32; block_consts; lia).
  assert (used_managed_blocks (give_frame b (take_frame user b s)) = used_managed_blocks s) as E2
    by (rewrite Fc', E1, Z.add_simpl_r; apply u32_id; unfold is_u32; block_consts; lia).
  assert (0 < pmm_free_blocks s) as Hpos.
  { rewrite pmm_free_blocks_count by done. apply count_blocks_pos with b; [done|].
    apply bool_decide_eq_true. by apply owner_free. }
  repeat split.
  - intros x Hx. rewrite give_frame_owner; [|done|by rewrite take_frame_usable|done].
    unfold own_upd at 1. case_decide as Hxb.
    + subst x. symmetry. by apply owner_free.
    + rewrite take_frame_owner by done. unfold own_upd. by case_decide.
  - done.
  - congruence.
  - unfold pmm_free_blocks in *. rewrite Fg, Fc, E1. unfold u32 in *. dmlia.
  - unfold pmm_free_blocks. rewrite E2, Fg', Fg. by apply pmm_free_blocks_count.
Qed.

(** ** Witnesses *)

Lemma pmm_init_correct_witness :
  let '(ok, s') := pmm_init 0x00100000 0x00180000 (Some sample_info) zeroed_pmm in
  ok = true /\ frame_owner s' 300 = Reserved /\ frame_owner s' 512 = Reserved /\
  frame_owner s' 513 = Free.
Proof.
  pose proof (pmm_init_correct 0x00100000 0x00180000 sample_info zeroed_pmm sample_info_wf
    zeroed_pmm_ok ltac:(unfold is_u32; lia) ltac:(unfold is_u32; lia)) as H.
  destruct (pmm_init _ _ _ _) as [ok s']. destruct H as [H1 H2].
  assert (ok = true) as Hok.
  { apply H1. split; [vm_compute; reflexivity|]. split; [lia|]. exists 513.
    split; [block_consts; lia|vm_compute; reflexivity]. }
  destruct (H2 Hok) as [_ Ho]. split; [done|].
  repeat split; (rewrite Ho by (block_consts; lia)); vm_compute; reflexivity.
Defined.

Lemma pmm_refines_ownership_witness :
  pmm_wf (snd (pmm_exec OpAllocUser sample_booted)).
Proof.
  destruct (pmm_exec OpAllocUser sample_booted) as [r s'] eqn:E.
  apply (pmm_refines_ownership 0x00100000 0x00180000 sample_info sample_booted OpAllocUser r s'
    sample_info_wf ltac:(unfold is_u32; lia) ltac:(unfold is_u32; lia)
    (reach_init _ _ _ _ _ zeroed_pmm_ok sample_boot) I E).
Defined.

Lemma pmm_no_double_allocation_witness :
  fst (pmm_exec (OpAllocBelow 0x00400000)
    (pmm_run [OpAllocUser; OpFree 0x00400000]
       (snd (pmm_exec (OpAllocBelow 0x00400000) sample_booted)))) <> 0x00180000.
Proof.
  assert (fst (pmm_exec (OpAllocBelow 0x00400000) sample_booted) = 0x00180000) as Hr
    by (vm_compute; reflexivity).
  destruct (pmm_exec (OpAllocBelow 0x00400000) sample_booted) as [a s1] eqn:E.
  simpl in Hr. subst a. simpl snd.
  refine (pmm_no_double_allocation sample_booted (OpAllocBelow 0x00400000) 0x00180000 s1
    [OpAllocUser; OpFree 0x00400000] (OpAllocBelow 0x00400000) sample_booted_wf _ I E _ _ _ _ I).
  - unfold op_ok, is_u32. lia.
  - lia.
  - repeat constructor; unfold is_u32; lia.
  - intros Hin. repeat (apply elem_of_cons in Hin as [Hin|Hin]; [discriminate Hin|]).
    by apply elem_of_nil in Hin.
  - unfold op_ok, is_u32. lia.
Defined.

Lemma pmm_alloc_free_roundtrip_witness :
  pmm_free_blocks (snd (pmm_exec OpAllocUser sample_booted)) = pmm_free_blocks sample_booted - 1.
Proof.
  assert (fst (pmm_exec OpAllocUser sample_booted) <> 0) as Hr by (vm_compute; discriminate).
  destruct (pmm_exec OpAllocUser sample_booted) as [a s1] eqn:E.
  destruct (pmm_alloc_free_roundtrip sample_booted OpAllocUser a s1 sample_booted_wf I I E Hr)
    as (_ & _ & _ & H & _). exact H.
Defined.
