(* ===== verification/Heap.v ===== *)
(** * Kernel heap

    [memory/heap.c]: a first-fit allocator over one growing virtual range. Block headers and
    canaries live in the same bytes as the data handed out, so the memory is modelled byte by
    byte and every header access is a load or store in it. [kernel_panic] is an outcome. The
    frame allocator and the page tables appear through the interface [PageSource]; mapping a
    page makes its bytes usable and [zero_page] clears them. *)

From S2P Require Import Prelude.
Local Open Scope c_scope.
Local Open Scope Z_scope.

(** ** Constants *)

Definition PAGE_SIZE : Z := 4096.
Definition PAGE_FLAG_WRITABLE : Z := 0x002.
Definition HEAP_START : Z := 0xD0000000.
Definition HEAP_MAX_SIZE : Z := 16777216.
Definition HEAP_ALIGNMENT : Z := 16.
Definition HEAP_BLOCK_MAGIC : Z := 0x48454150.
Definition HEAP_COOKIE_SEED : Z := 0xEF05C0DE.
Definition HEAP_BLOCK_FREE : Z := 1.
(** [sizeof(struct heap_block)]: eight 32-bit words. *)
Definition sizeof_heap_block : Z := 32.

(** ** Memory *)

Notation mem := (gmap Z Z).

Definition byte (m : mem) (a : Z) : Z := default 0 (m !! a).

Definition load32 (m : mem) (a : Z) : Z :=
  byte m a + 256 * byte m (a + 1) + 65536 * byte m (a + 2) + 16777216 * byte m (a + 3).

Definition store32 (m : mem) (a v : Z) : mem :=
  <[a + 3 := u8 (v / 16777216)]> (<[a + 2 := u8 (v / 65536)]>
    (<[a + 1 := u8 (v / 256)]> (<[a := u8 v]> m))).

(** ** Interface to the frame allocator and the page tables *)

Class PageSource (E : Type) := {
  env_alloc_block : E -> Z * E;
  env_free_block : Z -> E -> E;
  paging_map_page : Z -> Z -> Z -> E -> bool * E;
  paging_unmap_page : Z -> E -> Z * E
}.

(** ** State *)

Section ops.
Context {E : Type} `{PageSource E}.

Record heap := {
  memory : mem;
  first_block : Z;
  mapped_bytes : Z;
  used_bytes : Z;
  initialized : bool;
  env : E
}.

Definition with_memory (m : mem) (h : heap) : heap :=
  Build_heap m (first_block h) (mapped_bytes h) (used_bytes h) (initialized h) (env h).
Definition with_env (e : E) (h : heap) : heap :=
  Build_heap (memory h) (first_block h) (mapped_bytes h) (used_bytes h) (initialized h) e.
Definition with_used (n : Z) (h : heap) : heap :=
  Build_heap (memory h) (first_block h) (mapped_bytes h) n (initialized h) (env h).

(** A computation returns, panics, or (a search in a circular list) does not end. *)
Inductive result (A : Type) := Ok (a : A) (h : heap) | Panic | Diverges.
Arguments Ok {A} a h.
Arguments Panic {A}.
Arguments Diverges {A}.

Definition bind {A B : Type} (r : result A) (f : A -> heap -> result B) : result B :=
  match r with
  | Ok a h => f a h
  | Panic => Panic
  | Diverges => Diverges
  end.

(** ** Block headers: the fields of [struct heap_block] at address [b] *)

Definition magic (h : heap) (b : Z) : Z := load32 (memory h) b.
Definition capacity (h : heap) (b : Z) : Z := load32 (memory h) (b + 4).
Definition requested (h : heap) (b : Z) : Z := load32 (memory h) (b + 8).
Definition cookie (h : heap) (b : Z) : Z := load32 (memory h) (b + 12).
Definition previous (h : heap) (b : Z) : Z := load32 (memory h) (b + 16).
Definition next (h : heap) (b : Z) : Z := load32 (memory h) (b + 20).
Definition flags (h : heap) (b : Z) : Z := load32 (memory h) (b + 24).

Definition store (a v : Z) (h : heap) : heap := with_memory (store32 (memory h) a v) h.

Definition set_magic (b v : Z) : heap -> heap := store b v.
Definition set_capacity (b v : Z) : heap -> heap := store (b + 4) v.
Definition set_requested (b v : Z) : heap -> heap := store (b + 8) v.
Definition set_cookie (b v : Z) : heap -> heap := store (b + 12) v.
Definition set_previous (b v : Z) : heap -> heap := store (b + 16) v.
Definition set_next (b v : Z) : heap -> heap := store (b + 20) v.
Definition set_flags (b v : Z) : heap -> heap := store (b + 24) v.
Definition set_reserved (b v : Z) : heap -> heap := store (b + 28) v.

Definition align_up (value : Z) : Z :=
  Z.land ((value +32 HEAP_ALIGNMENT) -32 1) (not32 (HEAP_ALIGNMENT - 1)).

Definition cookie_of (b cap req : Z) : Z :=
  Z.lxor (Z.lxor (Z.lxor HEAP_COOKIE_SEED b) cap) req.

Definition block_cookie (h : heap) (b : Z) : Z := cookie_of b (capacity h b) (requested h b).

Definition refresh_block_cookie (b : Z) (h : heap) : heap := set_cookie b (block_cookie h b) h.

Definition block_is_valid (h : heap) (address : Z) : bool :=
  let heap_end := HEAP_START +32 mapped_bytes h in
  (HEAP_START <=? address) && (address <=? heap_end -32 sizeof_heap_block) &&
  (magic h address =? HEAP_BLOCK_MAGIC) &&
  (capacity h address <=? (heap_end -32 address) -32 sizeof_heap_block) &&
  (cookie h address =? block_cookie h address).

(** The word after the requested bytes of the payload at [block + 1]. *)
Definition block_canary (h : heap) (b : Z) : Z := b + sizeof_heap_block + requested h b.

Definition write_canary (b : Z) (h : heap) : heap := store (block_canary h b) (cookie h b) h.

Definition canary_is_valid (h : heap) (b : Z) : bool :=
  load32 (memory h) (block_canary h b) =? cookie h b.

Definition is_free (h : heap) (b : Z) : bool := flag (flags h b) HEAP_BLOCK_FREE.

(** ** Growing *)

Definition zero_page (virtual_address : Z) (h : heap) : heap :=
  for_loop 0 (PAGE_SIZE / 4) (fun index => store (virtual_address + 4 * index) 0) h.

Fixpoint rollback_pages (start_offset : Z) (page_count : nat) (h : heap) : heap :=
  match page_count with
  | O => h
  | S page_count =>
      let virtual_address :=
        (HEAP_START +32 start_offset) +32 (Z.of_nat page_count *32 PAGE_SIZE) in
      let '(physical_address, e) := paging_unmap_page virtual_address (env h) in
      let e := if negb (physical_address =? 0) then env_free_block physical_address e else e in
      rollback_pages start_offset page_count (with_env e h)
  end.

(** The mapping loop with [n] pages to go. *)
Fixpoint map_pages (n : nat) (old_mapped_bytes mapped_pages : Z) (h : heap) : bool * heap :=
  match n with
  | O => (true, h)
  | S n =>
      let '(physical_address, e) := env_alloc_block (env h) in
      let virtual_address :=
        (HEAP_START +32 old_mapped_bytes) +32 (mapped_pages *32 PAGE_SIZE) in
      if physical_address =? 0
      then (false, rollback_pages old_mapped_bytes (Z.to_nat mapped_pages) (with_env e h)) else
      let '(ok, e) :=
        paging_map_page virtual_address physical_address PAGE_FLAG_WRITABLE e in
      if negb ok then
        (false, rollback_pages old_mapped_bytes (Z.to_nat mapped_pages)
                  (with_env (env_free_block physical_address e) h))
      else
        map_pages n old_mapped_bytes (mapped_pages +32 1)
          (zero_page virtual_address (with_env e h))
  end.

(** The list is at most this long: every block has a header. *)
Definition walk_fuel (h : heap) : nat := S (Z.to_nat (mapped_bytes h / sizeof_heap_block)).

Fixpoint find_last (fuel : nat) (last_ : Z) (h : heap) : result Z :=
  match fuel with
  | O => Diverges
  | S fuel =>
      if negb (block_is_valid h last_) then Panic else
      if next h last_ =? 0 then Ok last_ h else
      if next h last_ <=? last_ then Panic else
      find_last fuel (next h last_) h
  end.

(** A fresh free block: all fields but the cookie, then the cookie. *)
Definition write_free_block (b cap prev nxt : Z) (h : heap) : heap :=
  let h := set_magic b HEAP_BLOCK_MAGIC h in
  let h := set_capacity b cap h in
  let h := set_requested b 0 h in
  let h := set_previous b prev h in
  let h := set_next b nxt h in
  let h := set_flags b HEAP_BLOCK_FREE h in
  set_reserved b 0 h.

Definition expand_heap (minimum_bytes : Z) (h : heap) : result bool :=
  let old_mapped_bytes := mapped_bytes h in
  if (minimum_bytes =? 0) || (HEAP_MAX_SIZE -32 mapped_bytes h <? minimum_bytes)
  then Ok false h else
  let page_count := ((minimum_bytes +32 PAGE_SIZE) -32 1) / PAGE_SIZE in
  let added_bytes := page_count *32 PAGE_SIZE in
  if HEAP_MAX_SIZE -32 mapped_bytes h <? added_bytes then Ok false h else
  let '(ok, h) := map_pages (Z.to_nat page_count) old_mapped_bytes 0 h in
  if negb ok then Ok false h else
  let h := Build_heap (memory h) (first_block h) (mapped_bytes h +32 added_bytes) (used_bytes h)
             (initialized h) (env h) in
  if first_block h =? 0 then
    let h := Build_heap (memory h) HEAP_START (mapped_bytes h) (used_bytes h) (initialized h)
               (env h) in
    let h := write_free_block HEAP_START (added_bytes -32 sizeof_heap_block) 0 0 h in
    Ok true (refresh_block_cookie HEAP_START h)
  else
    bind (find_last (walk_fuel h) (first_block h) h) (fun last_ h =>
      if is_free h last_ then
        let h := set_capacity last_ (capacity h last_ +32 added_bytes) h in
        Ok true (refresh_block_cookie last_ h)
      else
        let new_block := HEAP_START +32 old_mapped_bytes in
        let h := write_free_block new_block (added_bytes -32 sizeof_heap_block) last_ 0 h in
        let h := refresh_block_cookie new_block h in
        let h := set_next last_ new_block h in
        Ok true (refresh_block_cookie last_ h)).

(** ** Searching, splitting, merging *)

Fixpoint find_from (fuel : nat) (block cap : Z) (h : heap) : result Z :=
  if block =? 0 then Ok 0 h else
  match fuel with
  | O => Diverges
  | S fuel =>
      if negb (block_is_valid h block) then Panic else
      if is_free h block && (cap <=? capacity h block) then Ok block h else
      find_from fuel (next h block) cap h
  end.

Definition find_free_block (cap : Z) (h : heap) : result Z :=
  find_from (walk_fuel h) (first_block h) cap h.

Definition split_block (block cap : Z) (h : heap) : heap :=
  if capacity h block <? (cap +32 sizeof_heap_block) +32 HEAP_ALIGNMENT then h else
  let remainder := block + sizeof_heap_block + cap in
  let h := write_free_block remainder ((capacity h block -32 cap) -32 sizeof_heap_block) block
             (next h block) h in
  let h := if negb (next h remainder =? 0) then
             let h := set_previous (next h remainder) remainder h in
             refresh_block_cookie (next h remainder) h
           else h in
  let h := refresh_block_cookie remainder h in
  let h := set_capacity block cap h in
  let h := set_next block remainder h in
  refresh_block_cookie block h.

Definition merge_with_next (block : Z) (h : heap) : result unit :=
  let nxt := next h block in
  if nxt =? 0 then Ok tt h else
  if negb (block_is_valid h nxt) then Panic else
  if negb (is_free h nxt) then Ok tt h else
  if negb (block + sizeof_heap_block + capacity h block =? nxt) then Panic else
  let h := set_capacity block (capacity h block +32 (sizeof_heap_block +32 capacity h nxt)) h in
  let h := set_next block (next h nxt) h in
  let h := if negb (next h block =? 0) then
             let h := set_previous (next h block) block h in
             refresh_block_cookie (next h block) h
           else h in
  Ok tt (refresh_block_cookie block h).

(** ** The interface *)

Definition heap_init (h : heap) : result bool :=
  if initialized h then Ok true h else
  bind (expand_heap PAGE_SIZE h) (fun ok h =>
    Ok ok (if ok then Build_heap (memory h) (first_block h) (mapped_bytes h) (used_bytes h) true
                        (env h)
           else h)).

(** The part of [kmalloc] after the search, for a block it found. *)
Definition take_block (block size cap : Z) (h : heap) : heap :=
  let h := split_block block cap h in
  let h := set_requested block size h in
  let h := set_flags block (Z.land (flags h block) (not32 HEAP_BLOCK_FREE)) h in
  let h := with_used (used_bytes h +32 size) h in
  let h := refresh_block_cookie block h in
  write_canary block h.

Definition kmalloc (size : Z) (h : heap) : result Z :=
  if negb (initialized h) || (size =? 0) ||
     ((HEAP_MAX_SIZE -32 4) -32 HEAP_ALIGNMENT <? size) then Ok 0 h else
  let required_capacity := align_up (size +32 4) in
  bind (find_free_block required_capacity h) (fun block h =>
  bind (if block =? 0 then
          bind (expand_heap (required_capacity +32 sizeof_heap_block) h) (fun ok h =>
            if ok then find_free_block required_capacity h else Ok block h)
        else Ok block h) (fun block h =>
  if block =? 0 then Ok 0 h else
  Ok (block + sizeof_heap_block) (take_block block size required_capacity h))).

Definition store_byte (a v : Z) (h : heap) : heap := with_memory (<[a := u8 v]> (memory h)) h.

Definition kcalloc (count size : Z) (h : heap) : result Z :=
  if negb (count =? 0) && (0xFFFFFFFF / count <? size) then Ok 0 h else
  let total := count *32 size in
  bind (kmalloc total h) (fun pointer h =>
    if pointer =? 0 then Ok 0 h else
    Ok pointer (for_loop 0 total (fun index => store_byte (pointer + index) 0) h)).

Definition kfree (pointer : Z) (h : heap) : result unit :=
  if pointer =? 0 then Ok tt h else
  if (pointer <? HEAP_START +32 sizeof_heap_block) ||
     (HEAP_START +32 mapped_bytes h <=? pointer) || flag pointer (HEAP_ALIGNMENT - 1)
  then Panic else
  let block := pointer - sizeof_heap_block in
  if negb (block_is_valid h block) || is_free h block || (capacity h block <? 4) ||
     (capacity h block -32 4 <? requested h block) || negb (canary_is_valid h block)
  then Panic else
  let h := with_used (used_bytes h -32 requested h block) h in
  let h := set_requested block 0 h in
  let h := set_flags block (Z.lor (flags h block) HEAP_BLOCK_FREE) h in
  let h := refresh_block_cookie block h in
  bind (merge_with_next block h) (fun _ h =>
    if previous h block =? 0 then Ok tt h else
    if negb (block_is_valid h (previous h block)) then Panic else
    if is_free h (previous h block) then merge_with_next (previous h block) h
    else Ok tt h).

Definition heap_mapped_bytes (h : heap) : Z := mapped_bytes h.
Definition heap_used_bytes (h : heap) : Z := used_bytes h.

(** ** Self test *)

Definition all_zero_words (a n : Z) (h : heap) : bool :=
  all_range 0 n (fun index => load32 (memory h) (a + 4 * index) =? 0).

Definition fill_bytes (a n mask : Z) (h : heap) : heap :=
  for_loop 0 n (fun index => store_byte (a + index) (Z.lxor index mask)) h.

Definition heap_self_test (h : heap) : result bool :=
  bind (kmalloc 31 h) (fun small h =>
  bind (kmalloc 8192 h) (fun large h =>
  bind (kcalloc 64 4 h) (fun zeroed h =>
  if (small =? 0) || (large =? 0) || (zeroed =? 0) || flag small (HEAP_ALIGNMENT - 1) ||
     flag large (HEAP_ALIGNMENT - 1) then Ok false h else
  if negb (all_zero_words zeroed 64 h) then Ok false h else
  let h := fill_bytes small 31 0xA5 h in
  let h := fill_bytes large 8192 0x5A h in
  bind (kfree large h) (fun _ h =>
  bind (kfree small h) (fun _ h =>
  bind (kfree zeroed h) (fun _ h =>
  bind (kmalloc 9000 h) (fun coalesced h =>
  if coalesced =? 0 then Ok false h else
  bind (kfree coalesced h) (fun _ h => Ok (heap_used_bytes h =? 0) h)))))))).

End ops.

Arguments Ok {E A} a h.
Arguments Panic {E A}.
Arguments Diverges {E A}.
