(* ===== verification/HeapInv.v ===== *)
(** * The heap as a chain of blocks

    The invariant of [memory/heap.c]: the bytes of the mapped range are tiled by blocks whose
    headers and canaries are intact. The lemmas describe what each piece of code does to that
    chain. *)

From S2P Require Import Prelude Heap.
Local Open Scope c_scope.
Local Open Scope Z_scope.

(** ** Loads and stores *)

Lemma byte_insert m a v c : byte (<[a := v]> m) c = if decide (a = c) then v else byte m c.
Proof. unfold byte. rewrite lookup_insert. by case_decide. Qed.

Lemma byte_store_ne m a v c : c < a \/ a + 4 <= c -> byte (store32 m a v) c = byte m c.
Proof. intros Hc. unfold store32. rewrite !byte_insert. by rewrite !decide_False by lia. Qed.

Lemma load_store_ne m a b v : a + 4 <= b \/ b + 4 <= a -> load32 (store32 m a v) b = load32 m b.
Proof. intros Hd. unfold load32. by rewrite !byte_store_ne by lia. Qed.

Lemma load_store_eq m a b v : a = b -> is_u32 v -> load32 (store32 m a v) b = v.
Proof.
  intros <- Hv. unfold load32, store32. rewrite !byte_insert.
  repeat (case_decide; try lia). unfold u8, is_u32 in *.
  pose proof (Z.div_div v 256 256). pose proof (Z.div_div v 65536 256). dmlia.
Qed.

(** Equal bytes on an interval. *)
Definition agree (m m' : mem) (lo hi : Z) : Prop := forall c, lo <= c < hi -> byte m' c = byte m c.

Lemma load_agree m m' lo hi a : agree m m' lo hi -> lo <= a -> a + 4 <= hi ->
  load32 m' a = load32 m a.
Proof. intros Ha Hlo Hhi. unfold load32. by rewrite !Ha by lia. Qed.

Lemma agree_trans m m' m'' lo hi : agree m m' lo hi -> agree m' m'' lo hi -> agree m m'' lo hi.
Proof. intros H1 H2 c Hc. by rewrite H2, H1. Qed.

Ltac mem_step :=
  match goal with
  | |- context [load32 (store32 ?m ?a ?v) ?b] =>
      first [ rewrite (load_store_ne m a b v) by lia | rewrite (load_store_eq m a b v) by (lia || done) ]
  end.

(** ** Blocks *)

Record blk := { b_cap : Z; b_req : Z; b_free : bool }.

Definition size_of (b : blk) : Z := 32 + b_cap b.

Definition blk_ok (b : blk) : Prop :=
  0 <= b_cap b < 16777216 /\ b_cap b mod 16 = 0 /\
  (if b_free b then b_req b = 0 else 0 < b_req b /\ b_req b + 4 <= b_cap b).

(** The fields of a header, all but the cookie. *)
Definition hdr0 (m : mem) (a cap req prev nxt fl : Z) : Prop :=
  load32 m a = HEAP_BLOCK_MAGIC /\ load32 m (a + 4) = cap /\ load32 m (a + 8) = req /\
  load32 m (a + 16) = prev /\ load32 m (a + 20) = nxt /\ load32 m (a + 24) = fl.

Definition hdr (m : mem) (a cap req prev nxt fl : Z) : Prop :=
  hdr0 m a cap req prev nxt fl /\ load32 m (a + 12) = cookie_of a cap req.

Definition free_word (b : blk) : Z := if b_free b then 1 else 0.

Definition canary_ok (m : mem) (a : Z) (b : blk) : Prop :=
  b_free b = false -> load32 m (a + 32 + b_req b) = cookie_of a (b_cap b) (b_req b).

Definition block_at (m : mem) (a : Z) (b : blk) (prev nxt : Z) : Prop :=
  blk_ok b /\ hdr m a (b_cap b) (b_req b) prev nxt (free_word b) /\ canary_ok m a b.

(** The blocks [l] from address [a] to [e]: the first one's predecessor is [prev], the last
    one's successor [z]. *)
Fixpoint chain (m : mem) (prev a : Z) (l : list blk) (z e : Z) : Prop :=
  match l with
  | [] => a = e
  | b :: l =>
      block_at m a b prev (match l with [] => z | _ => a + size_of b end) /\
      chain m a (a + size_of b) l z e
  end.

Fixpoint span (l : list blk) : Z :=
  match l with
  | [] => 0
  | b :: l => size_of b + span l
  end.

(** Address of the last block, or [prev]. *)
Fixpoint last_addr (prev a : Z) (l : list blk) : Z :=
  match l with
  | [] => prev
  | b :: l => last_addr a (a + size_of b) l
  end.

(** What has been handed out: addresses and sizes. *)
Fixpoint allocs (a : Z) (l : list blk) : list (Z * Z) :=
  match l with
  | [] => []
  | b :: l => (if b_free b then [] else [(a + 32, b_req b)]) ++ allocs (a + size_of b) l
  end.

Fixpoint total_requested (l : list blk) : Z :=
  match l with
  | [] => 0
  | b :: l => b_req b + total_requested l
  end.

(** No two neighbours are free. *)
Definition free_first (l : list blk) : bool :=
  match l with [] => false | b :: _ => b_free b end.

Fixpoint coalesced (l : list blk) : Prop :=
  match l with
  | [] => True
  | b :: l => b_free b && free_first l = false /\ coalesced l
  end.

Fixpoint free_last (l : list blk) : bool :=
  match l with
  | [] => false
  | [b] => b_free b
  | _ :: l => free_last l
  end.

(** ** Lemmas on lists of blocks *)

Lemma span_app l1 l2 : span (l1 ++ l2) = span l1 + span l2.
Proof. induction l1 as [|b l1 IH]; simpl; lia. Qed.

Lemma allocs_app a l1 l2 : allocs a (l1 ++ l2) = allocs a l1 ++ allocs (a + span l1) l2.
Proof.
  revert a. induction l1 as [|b l1 IH]; intros a; simpl; [by rewrite Z.add_0_r|].
  rewrite IH, <- app_assoc. do 3 f_equal. lia.
Qed.

Lemma requested_app l1 l2 : total_requested (l1 ++ l2) = total_requested l1 + total_requested l2.
Proof. induction l1 as [|b l1 IH]; simpl; lia. Qed.

Lemma coalesced_app l1 l2 :
  coalesced (l1 ++ l2) <-> coalesced l1 /\ coalesced l2 /\ free_last l1 && free_first l2 = false.
Proof.
  induction l1 as [|b l1 IH]; simpl; [intuition|]. rewrite IH.
  destruct l1 as [|b' l1]; simpl; [rewrite andb_false_r; intuition|]. intuition.
Qed.

Lemma free_last_snoc l b : free_last (l ++ [b]) = b_free b.
Proof. induction l as [|b' l IH]; [done|]. simpl. destruct l; [done|]. exact IH. Qed.

Lemma last_addr_snoc prev a l b : last_addr prev a (l ++ [b]) = a + span l.
Proof.
  revert prev a. induction l as [|b' l IH]; intros prev a; simpl; [lia|]. rewrite IH. lia.
Qed.

(** ** Lemmas on chains *)

Section chain.
Context (m m' : mem).

Lemma chain_span prev a l z e : chain m prev a l z e -> e = a + span l.
Proof.
  revert prev a. induction l as [|b l IH]; intros prev a; simpl; [lia|].
  intros [_ Hc]. apply IH in Hc. lia.
Qed.

Lemma chain_size prev a l z e : chain m prev a l z e -> Forall blk_ok l.
Proof.
  revert prev a. induction l as [|b l IH]; intros prev a; simpl; [intros _; apply Forall_nil_2|].
  intros [[Hb _] Hc]. apply Forall_cons_2; [done|by eapply IH].
Qed.

Lemma span_length l : Forall blk_ok l -> 32 * Z.of_nat (length l) <= span l.
Proof.
  induction 1 as [|b l Hb _ IH]; simpl; [lia|]. destruct Hb as (? & _). unfold size_of. lia.
Qed.

Lemma block_agree a b prev nxt : agree m m' a (a + size_of b) ->
  block_at m a b prev nxt -> block_at m' a b prev nxt.
Proof.
  unfold size_of. intros Ha (Hok & [(H1 & H2 & H3 & H4 & H5 & H6) H7] & Hc).
  destruct Hok as (Hcap & Hmod & Hreq).
  split; [done|]. split.
  - unfold hdr, hdr0. rewrite !(load_agree m m' a (a + (32 + b_cap b))) by (done || lia). done.
  - intros Hf. unfold canary_ok in Hc. rewrite Hf in Hreq.
    rewrite (load_agree m m' a (a + (32 + b_cap b))) by (done || lia). by apply Hc.
Qed.

Lemma chain_agree prev a l z e : agree m m' a e -> chain m prev a l z e -> chain m' prev a l z e.
Proof.
  revert prev a. induction l as [|b l IH]; intros prev a Ha; simpl; [done|].
  intros [Hb Hc]. pose proof (chain_span _ _ _ _ _ Hc) as He.
  pose proof (span_length l (chain_size _ _ _ _ _ Hc)).
  pose proof (proj1 Hb) as (Hcap & _). unfold size_of in *.
  split; [apply block_agree; [|done]|apply IH; [|done]]; intros c Hx; apply Ha; unfold size_of in *; lia.
Qed.

Lemma chain_app prev a l1 b l2 z e :
  chain m prev a (l1 ++ b :: l2) z e <->
  chain m prev a l1 (a + span l1) (a + span l1) /\
  chain m (last_addr prev a l1) (a + span l1) (b :: l2) z e.
Proof.
  revert prev a. induction l1 as [|b1 l1 IH]; intros prev a.
  - simpl app. simpl span. simpl last_addr. rewrite Z.add_0_r. simpl (chain m prev a [] _ _).
    intuition.
  - simpl app. cbn [span last_addr]. replace (a + (size_of b1 + span l1)) with
      (a + size_of b1 + span l1) by lia.
    change (chain m prev a (b1 :: l1 ++ b :: l2) z e) with
      (block_at m a b1 prev (match l1 ++ b :: l2 with [] => z | _ => a + size_of b1 end) /\
       chain m a (a + size_of b1) (l1 ++ b :: l2) z e).
    rewrite IH. cbn [chain]. destruct l1 as [|b2 l1]; cbn [app span].
    + rewrite Z.add_0_r. intuition.
    + intuition.
Qed.

(** Every allocation lies inside its block, clear of the headers. *)
Lemma allocs_range a l p s : Forall blk_ok l -> (p, s) ∈ allocs a l ->
  a + 32 <= p /\ 0 < s /\ p + s + 4 <= a + span l.
Proof.
  intros Hl. revert a. induction Hl as [|b l (Hc & _ & Hr) Hl IH]; intros a; cbn [allocs span].
  - intros Hin. by apply elem_of_nil in Hin.
  - pose proof (span_length l Hl). unfold size_of in *. rewrite elem_of_app. intros [Hin|Hin].
    + destruct (b_free b); [by apply elem_of_nil in Hin|].
      apply list_elem_of_singleton in Hin. injection Hin as -> ->. lia.
    + apply IH in Hin. lia.
Qed.

End chain.

(** ** Header updates *)

(** Equal bytes outside an interval. *)
Definition outside (m m' : mem) (lo hi : Z) : Prop :=
  forall c, c < lo \/ hi <= c -> byte m' c = byte m c.

Lemma outside_refl m lo hi : outside m m lo hi.
Proof. done. Qed.

Lemma outside_trans m m' m'' lo hi lo' hi' lo'' hi'' :
  outside m m' lo hi -> outside m' m'' lo' hi' ->
  lo'' <= lo -> hi <= hi'' -> lo'' <= lo' -> hi' <= hi'' -> outside m m'' lo'' hi''.
Proof. intros H1 H2 ? ? ? ? c Hc. rewrite H2, H1 by lia. done. Qed.

Lemma outside_agree m m' lo hi lo' hi' : outside m m' lo hi -> hi' <= lo \/ hi <= lo' ->
  agree m m' lo' hi'.
Proof. intros Ho Hd c Hc. apply Ho. lia. Qed.

Lemma outside_store m a v lo hi : lo <= a -> a + 4 <= hi -> outside m (store32 m a v) lo hi.
Proof. intros ? ? c Hc. apply byte_store_ne. lia. Qed.

Lemma cookie_u32 a cap req : is_u32 a -> is_u32 cap -> is_u32 req -> is_u32 (cookie_of a cap req).
Proof. intros. unfold cookie_of. by repeat apply lxor_u32. Qed.

Lemma hdr_agree m m' a cap req prev nxt fl : agree m m' a (a + 32) ->
  hdr m a cap req prev nxt fl -> hdr m' a cap req prev nxt fl.
Proof.
  intros Ha [(H1 & H2 & H3 & H4 & H5 & H6) H7]. unfold hdr, hdr0.
  rewrite !(load_agree m m' a (a + 32)) by (done || lia). done.
Qed.

Lemma hdr0_agree m m' a cap req prev nxt fl : agree m m' a (a + 32) ->
  hdr0 m a cap req prev nxt fl -> hdr0 m' a cap req prev nxt fl.
Proof.
  intros Ha (H1 & H2 & H3 & H4 & H5 & H6). unfold hdr0.
  rewrite !(load_agree m m' a (a + 32)) by (done || lia). done.
Qed.

Section updates.
Context {E : Type} `{PageSource E}.
Implicit Types h : heap (E := E).

Lemma refresh_spec h b cap req prev nxt fl :
  hdr0 (memory h) b cap req prev nxt fl -> is_u32 b -> is_u32 cap -> is_u32 req ->
  exists m', refresh_block_cookie b h = with_memory m' h /\
    hdr m' b cap req prev nxt fl /\ outside (memory h) m' b (b + 32).
Proof.
  intros (H1 & H2 & H3 & H4 & H5 & H6) Hb Hc Hr. eexists. split; [done|].
  unfold block_cookie, capacity, requested. rewrite H2, H3.
  pose proof (cookie_u32 b cap req Hb Hc Hr). split; [|apply outside_store; lia].
  unfold hdr, hdr0. repeat mem_step. done.
Qed.

Lemma free_block_spec h b cap prev nxt : is_u32 cap -> is_u32 prev -> is_u32 nxt ->
  exists m', write_free_block b cap prev nxt h = with_memory m' h /\
    hdr0 m' b cap 0 prev nxt 1 /\ outside (memory h) m' b (b + 32).
Proof.
  intros Hc Hp Hn. eexists. split; [done|]. simpl. split.
  - unfold hdr0. repeat mem_step. done.
  - intros c Hx. rewrite !byte_store_ne by lia. done.
Qed.

(** The fields [previous], [capacity] and [next] are changed, and the cookie refreshed. *)
Lemma relink_spec h b cap req prev nxt fl prev' :
  hdr (memory h) b cap req prev nxt fl -> is_u32 b -> is_u32 cap -> is_u32 req -> is_u32 prev' ->
  exists m', refresh_block_cookie b (set_previous b prev' h) = with_memory m' h /\
    hdr m' b cap req prev' nxt fl /\ outside (memory h) m' b (b + 32).
Proof.
  intros [(H1 & H2 & H3 & H4 & H5 & H6) _] Hb Hc Hr Hp.
  destruct (refresh_spec (set_previous b prev' h) b cap req prev' nxt fl) as (m' & -> & Hm & Ho);
    try done.
  - unfold hdr0. simpl. repeat mem_step. done.
  - exists m'. split; [done|]. split; [done|].
    eapply outside_trans; [apply (outside_store _ (b + 16) prev' b (b + 32)); lia|exact Ho|lia..].
Qed.

Lemma resize_spec h b cap req prev nxt fl cap' nxt' :
  hdr (memory h) b cap req prev nxt fl -> is_u32 b -> is_u32 cap' -> is_u32 req -> is_u32 nxt' ->
  exists m', refresh_block_cookie b (set_next b nxt' (set_capacity b cap' h)) = with_memory m' h /\
    hdr m' b cap' req prev nxt' fl /\ outside (memory h) m' b (b + 32).
Proof.
  intros [(H1 & H2 & H3 & H4 & H5 & H6) _] Hb Hc Hr Hn.
  destruct (refresh_spec (set_next b nxt' (set_capacity b cap' h)) b cap' req prev nxt' fl)
    as (m' & -> & Hm & Ho); try done.
  - unfold hdr0. simpl. repeat mem_step. done.
  - exists m'. split; [done|]. split; [done|].
    eapply (outside_trans _ _ _ b (b + 32) b (b + 32)); [|exact Ho|lia..].
    intros c Hx. simpl. rewrite !byte_store_ne by lia. done.
Qed.

(** ** Validity *)

Definition heap_end h : Z := HEAP_START + mapped_bytes h.

Definition heap_range h : Prop := 0 <= mapped_bytes h <= 16777216.

Lemma block_valid h b cap req prev nxt fl : heap_range h ->
  hdr (memory h) b cap req prev nxt fl -> HEAP_START <= b -> 0 <= cap ->
  b + 32 + cap <= heap_end h -> block_is_valid h b = true.
Proof.
  unfold heap_range, heap_end, HEAP_START. intros Hr [(H1 & H2 & H3 & _) H7] Hb Hc He.
  unfold block_is_valid, magic, capacity, cookie, block_cookie, requested, HEAP_START, sizeof_heap_block.
  unfold capacity, requested. rewrite H1, H2, H3, H7, !Z.eqb_refl.
  rewrite (u32_id (_ + mapped_bytes h)) by (unfold is_u32; lia).
  rewrite (u32_id (_ - b)) by (unfold is_u32; lia).
  rewrite !u32_id by (unfold is_u32; lia). lia.
Qed.

Lemma is_free_word h b cap req prev nxt k : hdr0 (memory h) b cap req prev nxt (free_word k) ->
  is_free h b = b_free k.
Proof.
  intros (_ & _ & _ & _ & _ & Hf). unfold is_free, flags. rewrite Hf. unfold free_word. by destruct (b_free k).
Qed.

(** ** Walking the list *)

Definition fits (cap : Z) (b : blk) : bool := b_free b && (cap <=? b_cap b).

(** First fit: the address of the first block that fits, or 0. *)
Lemma find_from_spec h l prev a fuel cap : heap_range h ->
  chain (memory h) prev a l 0 (heap_end h) -> HEAP_START <= a -> (length l < fuel)%nat ->
  exists r, find_from fuel (match l with [] => 0 | _ => a end) cap h = Ok r h /\
    ((exists l1 b l2, l = l1 ++ b :: l2 /\ fits cap b = true /\ r = a + span l1) \/
     (Forall (fun b => fits cap b = false) l /\ r = 0)).
Proof.
  intros Hr. revert prev a fuel. induction l as [|b l IH]; intros prev a fuel Hc Ha Hf.
  { exists 0. destruct fuel; (split; [done|]); right; split; (apply Forall_nil_2 || done). }
  pose proof (chain_span _ _ _ _ _ _ Hc) as He.
  pose proof (span_length l (chain_size _ _ _ _ _ _ (proj2 Hc))).
  destruct Hc as [(Hok & Hh & _) Hc]. pose proof Hok as (Hcap & _). cbn [span] in He.
  unfold size_of in *. destruct fuel as [|fuel]; [simpl in Hf; lia|]. cbn [find_from].
  replace (a =? 0) with false by (unfold HEAP_START in Ha; lia).
  rewrite (block_valid h a _ _ _ _ _ Hr Hh) by (unfold size_of in *; lia). cbn [negb].
  destruct Hh as [Hh0 _]. rewrite (is_free_word h a _ _ _ _ b Hh0).
  pose proof Hh0 as (_ & H2 & _ & _ & H5 & _). unfold capacity, next. rewrite H2, H5.
  fold (fits cap b). destruct (fits cap b) eqn:Ef.
  - exists a. split; [done|]. left. exists [], b, l. simpl. split; [done|]. split; [done|]. lia.
  - destruct (IH a (a + (32 + b_cap b)) fuel Hc ltac:(lia) ltac:(simpl in Hf; lia))
      as (r & Er & Hres). exists r. split; [destruct l; exact Er|].
    destruct Hres as [(l1 & b1 & l2 & -> & Hfit & ->)|[Hall ->]].
    + left. exists (b :: l1), b1, l2. simpl. unfold size_of. split; [done|]. split; [done|]. lia.
    + right. split; [by apply Forall_cons_2|done].
Qed.

Lemma find_last_spec h l b prev a e fuel : heap_range h ->
  chain (memory h) prev a (l ++ [b]) 0 e -> e <= heap_end h -> HEAP_START <= a ->
  (length (l ++ [b]) <= fuel)%nat -> find_last fuel a h = Ok (a + span l) h.
Proof.
  intros Hr. revert prev a fuel. induction l as [|b0 l IH]; intros prev a fuel Hc Hle Ha Hf.
  - pose proof (chain_span _ _ _ _ _ _ Hc) as He. destruct Hc as [(Hok & Hh & _) _].
    pose proof Hok as (Hcap & _). cbn [span app] in He. unfold size_of in *.
    destruct fuel as [|fuel]; [simpl in Hf; lia|]. cbn [find_last app span].
    rewrite (block_valid h a _ _ _ _ _ Hr Hh) by (unfold size_of in *; lia). cbn [negb].
    destruct Hh as [(_ & _ & _ & _ & H5 & _) _]. unfold next. rewrite H5. by rewrite Z.add_0_r.
  - pose proof (chain_span _ _ _ _ _ _ Hc) as He.
    pose proof (span_length (l ++ [b]) (chain_size _ _ _ _ _ _ (proj2 Hc))).
    destruct Hc as [(Hok & Hh & _) Hc]. pose proof Hok as (Hcap & _). cbn [span app] in He.
    unfold size_of in *. destruct fuel as [|fuel]; [simpl in Hf; lia|]. cbn [find_last span].
    rewrite (block_valid h a _ _ _ _ _ Hr Hh) by (unfold size_of in *; lia). cbn [negb].
    destruct Hh as [(_ & _ & _ & _ & H5 & _) _].
    assert (next h a = a + (32 + b_cap b0)) as Hn
      by (unfold next; rewrite H5; unfold size_of; by destruct l).
    rewrite Hn. unfold HEAP_START in Ha. replace (_ =? 0) with false by lia.
    replace (_ <=? _) with false by lia.
    rewrite (IH a (a + (32 + b_cap b0)) fuel Hc Hle); [|unfold HEAP_START; lia|simpl in Hf; lia].
    f_equal. unfold size_of. lia.
Qed.

(** ** Mapping pages *)

Definition same_but_env h (m : mem) (e : E) : heap :=
  Build_heap m (first_block h) (mapped_bytes h) (used_bytes h) (initialized h) e.

Lemma zero_page_spec va h : exists m', zero_page va h = with_memory m' h /\
  outside (memory h) m' va (va + 4096).
Proof.
  unfold zero_page. change (PAGE_SIZE / 4) with 1024.
  assert (forall i h', 0 <= i < 1024 ->
    (exists m', h' = with_memory m' h /\ outside (memory h) m' va (va + 4096)) ->
    exists m', store (va + 4 * i) 0 h' = with_memory m' h /\ outside (memory h) m' va (va + 4096))
    as Hstep.
  { intros i h' Hi (m' & -> & Ho). eexists. split; [done|].
    eapply outside_trans; [exact Ho|apply (outside_store m' (va + 4 * i) 0 va (va + 4096)); lia|lia..]. }
  apply (for_loop_inv (fun _ h' => exists m', h' = with_memory m' h /\
    outside (memory h) m' va (va + 4096))); [lia| |].
  - exists (memory h). split; [by destruct h|apply outside_refl].
  - intros i h' Hi Hh. by apply Hstep.
Qed.

Lemma rollback_spec old n h : exists e', rollback_pages old n h = same_but_env h (memory h) e'.
Proof.
  revert h. induction n as [|n IH]; intros h; cbn [rollback_pages]; [exists (env h); by destruct h|].
  destruct (paging_unmap_page _ _) as [pa e]. destruct (IH (with_env (if negb (pa =? 0) then
    env_free_block pa e else e) h)) as [e' He]. exists e'. exact He.
Qed.

Lemma map_pages_spec n old i h ok h' :
  0 <= old -> 0 <= i -> old + (i + Z.of_nat n) * 4096 <= 16777216 ->
  map_pages n old i h = (ok, h') ->
  exists m' e', h' = same_but_env h m' e' /\
    outside (memory h) m' (HEAP_START + old + i * 4096) (HEAP_START + old + (i + Z.of_nat n) * 4096).
Proof.
  revert i h. induction n as [|n IH]; intros i h Hold Hi Hmax; cbn [map_pages].
  { intros [= <- <-]. exists (memory h), (env h). split; [by destruct h|apply outside_refl]. }
  destruct (env_alloc_block (env h)) as [pa e]. destruct (pa =? 0).
  { destruct (rollback_spec old (Z.to_nat i) (with_env e h)) as [e' ->]. intros [= <- <-].
    exists (memory h), e'. split; [done|apply outside_refl]. }
  unfold PAGE_SIZE. rewrite (u32_id (i * 4096)) by (unfold is_u32; lia).
  rewrite (u32_id (HEAP_START + old)) by (unfold is_u32, HEAP_START; lia).
  rewrite (u32_id (HEAP_START + old + i * 4096)) by (unfold is_u32, HEAP_START; lia).
  destruct (paging_map_page _ _ _ _) as [okm e1]. destruct okm; cbn [negb]; cbv iota.
  - rewrite (u32_id (i + 1)) by (unfold is_u32; lia).
    destruct (zero_page_spec (HEAP_START + old + i * 4096) (with_env e1 h)) as (m1 & -> & Ho).
    intros Em. apply IH in Em as (m' & e' & -> & Ho'); [|lia..].
    exists m', e'. split; [done|]. eapply outside_trans; [exact Ho|exact Ho'|lia..].
  - destruct (rollback_spec old (Z.to_nat i) (with_env (env_free_block pa e1) h)) as [e' ->].
    intros [= <- <-]. exists (memory h), e'. split; [done|apply outside_refl].
Qed.

(** ** Relinking the successor *)

(** The address stored in a [next] field before the blocks [l] at [a]. *)
Definition link (a : Z) (l : list blk) : Z := match l with [] => 0 | _ => a end.

Lemma link_u32 a l : is_u32 a -> is_u32 (link a l).
Proof. intros Ha. destruct l; [unfold is_u32; simpl; lia|done]. Qed.

Lemma chain_cons m prev a b l e :
  chain m prev a (b :: l) 0 e <->
  block_at m a b prev (link (a + size_of b) l) /\ chain m a (a + size_of b) l 0 e.
Proof. by destruct l. Qed.

(** Bounds of the blocks of a chain inside the heap. *)
Lemma chain_bounds m prev a b l z e : chain m prev a (b :: l) z e ->
  HEAP_START <= a -> e <= HEAP_START + 16777216 ->
  is_u32 a /\ is_u32 (a + size_of b) /\ is_u32 (b_cap b) /\ is_u32 (b_req b) /\ a + size_of b <= e.
Proof.
  intros Hc Ha He. pose proof (chain_span _ _ _ _ _ _ Hc) as Hs.
  pose proof (span_length l (chain_size _ _ _ _ _ _ (proj2 Hc))).
  destruct Hc as [((Hcap & _ & Hreq) & _) _]. cbn [span] in Hs.
  unfold is_u32, size_of, HEAP_START in *. destruct (b_free b); lia.
Qed.

Lemma relink_chain h prev a l e p :
  chain (memory h) prev a l 0 e -> HEAP_START <= a -> e <= HEAP_START + 16777216 -> is_u32 p ->
  exists m', (if negb (link a l =? 0)
              then refresh_block_cookie (link a l) (set_previous (link a l) p h) else h) =
             with_memory m' h /\
    chain m' p a l 0 e /\ outside (memory h) m' a (a + 32).
Proof.
  intros Hc Ha He Hp. destruct l as [|b l].
  { exists (memory h). split; [by destruct h|]. split; [done|apply outside_refl]. }
  destruct (chain_bounds _ _ _ _ _ _ _ Hc Ha He) as (Hu & _ & Hcap & Hreq & _).
  apply (proj1 (chain_cons _ _ _ _ _ _)) in Hc as [(Hok & Hh & Hcan) Hc]. cbn [link].
  replace (a =? 0) with false by (unfold HEAP_START in Ha; lia). cbn [negb].
  destruct (relink_spec h a _ _ _ _ _ p Hh Hu Hcap Hreq Hp) as (m' & -> & Hh' & Ho).
  exists m'. split; [done|]. split; [|done]. apply chain_cons. pose proof Hok as (Hc0 & _).
  split; [split; [done|split; [done|]]|].
  - intros Hf. rewrite <- (Hcan Hf). pose proof Hok as (_ & _ & Hr). rewrite Hf in Hr.
    apply (load_agree _ _ (a + 32) (a + 32 + b_cap b)); [|lia..]. apply (outside_agree _ _ _ _ _ _ Ho). lia.
  - eapply chain_agree; [|exact Hc]. apply (outside_agree _ _ _ _ _ _ Ho). unfold size_of. lia.
Qed.

(** ** Splitting *)

Definition split_list (b : blk) (c : Z) : list blk :=
  if b_cap b <? c + 48 then [b] else [Build_blk c 0 true; Build_blk (b_cap b - c - 32) 0 true].

(** A fresh free block in front of the blocks [l]. *)
Lemma insert_free_spec h r cap prev p0 l n e :
  chain (memory h) p0 n l 0 e -> HEAP_START <= r -> r + 32 <= n -> n <= e ->
  e <= HEAP_START + 16777216 -> is_u32 cap -> is_u32 prev ->
  exists m',
    (let h := write_free_block r cap prev (link n l) h in
     let h := if negb (next h r =? 0) then
                let h := set_previous (next h r) r h in refresh_block_cookie (next h r) h
              else h in
     refresh_block_cookie r h) = with_memory m' h /\
    hdr m' r cap 0 prev (link n l) 1 /\ chain m' r n l 0 e /\ outside (memory h) m' r (n + 32).
Proof.
  intros Hl Hr Hn Hne He Hcap Hprev. unfold HEAP_START in *. cbv zeta.
  assert (is_u32 r /\ is_u32 n) as [Hru Hnu] by (unfold is_u32; lia).
  destruct (free_block_spec h r cap prev (link n l)) as (m1 & -> & Hr1 & Ho1);
    [done|done|by apply link_u32|].
  assert (next (with_memory m1 h) r = link n l) as Hnext by apply Hr1. rewrite Hnext.
  assert (chain m1 p0 n l 0 e) as Hl1.
  { eapply chain_agree; [|exact Hl]. apply (outside_agree _ _ _ _ _ _ Ho1). lia. }
  destruct (relink_chain (with_memory m1 h) p0 n l e r Hl1) as (m2 & Hm2 & Hl2 & Ho2);
    [unfold HEAP_START; lia|unfold HEAP_START; lia|done|].
  assert (next (set_previous (link n l) r (with_memory m1 h)) r = link n l) as Hnext2.
  { unfold next. simpl. rewrite load_store_ne by (destruct l; simpl; lia). exact Hnext. }
  rewrite Hnext2, Hm2. cbn [with_memory memory] in *.
  assert (hdr0 m2 r cap 0 prev (link n l) 1) as Hr2.
  { apply (hdr0_agree m1); [|done]. apply (outside_agree _ _ _ _ _ _ Ho2). lia. }
  destruct (refresh_spec (with_memory m2 h) r _ _ _ _ _ Hr2) as (m3 & Hm3 & Hr3 & Ho3);
    [done|done|unfold is_u32; lia|].
  exists m3. split; [exact Hm3|]. split; [done|]. cbn [memory with_memory] in Ho3. split.
  - eapply chain_agree; [|exact Hl2]. apply (outside_agree _ _ _ _ _ _ Ho3). lia.
  - apply (outside_trans _ _ _ r (r + 32) r (n + 32) r (n + 32) Ho1); [|lia..].
    apply (outside_trans _ _ _ n (n + 32) r (r + 32) r (n + 32) Ho2 Ho3); lia.
Qed.

Lemma split_spec h prev a b l e c :
  chain (memory h) prev a (b :: l) 0 e -> HEAP_START <= a -> e <= HEAP_START + 16777216 ->
  b_free b = true -> 0 <= c <= b_cap b -> c mod 16 = 0 ->
  exists m', split_block a c h = with_memory m' h /\
    chain m' prev a (split_list b c ++ l) 0 e /\
    outside (memory h) m' a (a + size_of b + 32).
Proof.
  intros Hc Ha He Hf Hcc Hmod.
  destruct (chain_bounds _ _ _ _ _ _ _ Hc Ha He) as (Hu & Hu2 & Hcap & Hreq & Hend).
  destruct (proj1 (chain_cons _ _ _ _ _ _) Hc) as [(Hok & Hh & _) Hl].
  pose proof Hok as (Hrange & Hm16 & Hz). rewrite Hf in Hz.
  unfold split_block, split_list, sizeof_heap_block, HEAP_ALIGNMENT. cbv zeta.
  pose proof (proj1 Hh) as (_ & H2 & _ & _ & H5 & _).
  change (capacity h a) with (load32 (memory h) (a + 4)).
  change (next h a) with (load32 (memory h) (a + 20)). rewrite H2, H5.
  rewrite (u32_id (c + 32)), (u32_id (c + 32 + 16)) by (unfold is_u32; lia).
  replace (c + 32 + 16) with (c + 48) by lia. destruct (b_cap b <? c + 48) eqn:Esz.
  { exists (memory h). split; [by destruct h|]. split; [done|apply outside_refl]. }
  rewrite (u32_id (b_cap b - c)), (u32_id (b_cap b - c - 32)) by (unfold is_u32; lia).
  set (r := a + 32 + c). set (n := a + size_of b) in *.
  assert (n = r + 32 + (b_cap b - c - 32)) as Hn by (subst r n; unfold size_of; lia).
  assert (is_u32 r) as Hru by (unfold is_u32 in *; lia).
  destruct (insert_free_spec h r (b_cap b - c - 32) a a l n e Hl) as (m1 & Hm1 & Hr1 & Hl1 & Ho1);
    [lia|lia|lia|done|unfold is_u32; lia|done|]. cbv zeta in Hm1. rewrite Hm1.
  assert (hdr m1 a (b_cap b) (b_req b) prev (link n l) (free_word b)) as Ha1.
  { apply (hdr_agree (memory h)); [|done]. apply (outside_agree _ _ _ _ _ _ Ho1). lia. }
  destruct (resize_spec (with_memory m1 h) a _ _ _ _ _ c r Ha1) as (m2 & Hm2 & Ha2 & Ho2);
    [done|unfold is_u32; lia|done|done|]. rewrite Hm2. cbn [memory with_memory] in Ho2.
  exists m2. split; [done|]. split; [|apply (outside_trans _ _ _ r (n + 32) a (a + 32) _ _ Ho1 Ho2); lia].
  change ([_; _] ++ l) with (Build_blk c 0 true :: Build_blk (b_cap b - c - 32) 0 true :: l).
  apply chain_cons. cbn [link]. unfold size_of at 1 2. cbn [b_cap]. replace (a + (32 + c)) with r by lia.
  split; [|apply chain_cons; unfold size_of at 1 2; cbn [b_cap]; replace (r + (32 + (b_cap b - c - 32))) with n by lia; split].
  - split; [split; [simpl; lia|done]|]. rewrite Hz in Ha2. unfold free_word in Ha2. rewrite Hf in Ha2.
    split; [exact Ha2|intros [=]].
  - split; [split; [simpl; lia|split; [simpl; dmlia|done]]|]. split; [|intros [=]].
    apply (hdr_agree m1); [|exact Hr1]. apply (outside_agree _ _ _ _ _ _ Ho2). lia.
  - eapply chain_agree; [|exact Hl1]. apply (outside_agree _ _ _ _ _ _ Ho2). lia.
Qed.

(** ** Marking a block used or free *)

(** New [requested] and [flags] fields, then the cookie. *)
Lemma mark_spec h a cap req prev nxt fl req' fl' u :
  hdr (memory h) a cap req prev nxt fl -> is_u32 a -> is_u32 cap -> is_u32 req' -> is_u32 fl' ->
  exists m', refresh_block_cookie a (with_used u (set_flags a fl' (set_requested a req' h))) =
             with_used u (with_memory m' h) /\
    hdr m' a cap req' prev nxt fl' /\ outside (memory h) m' a (a + 32).
Proof.
  intros [(H1 & H2 & H3 & H4 & H5 & H6) _] Ha Hc Hr Hf.
  set (h1 := with_used u (set_flags a fl' (set_requested a req' h))).
  destruct (refresh_spec h1 a cap req' prev nxt fl') as (m' & -> & Hm & Ho); try done.
  - unfold hdr0. simpl. repeat mem_step. done.
  - exists m'. split; [done|]. split; [done|].
    eapply (outside_trans _ _ _ a (a + 32) a (a + 32)); [|exact Ho|lia..].
    intros c Hx. simpl. rewrite !byte_store_ne by lia. done.
Qed.

(** The last steps of [kmalloc]. *)
Lemma use_spec h prev a b l e size u :
  chain (memory h) prev a (b :: l) 0 e -> HEAP_START <= a -> e <= HEAP_START + 16777216 ->
  b_free b = true -> 0 < size -> size + 4 <= b_cap b ->
  exists m', write_canary a (refresh_block_cookie a (with_used u (set_flags a 0 (set_requested a size h)))) =
             with_used u (with_memory m' h) /\
    chain m' prev a (Build_blk (b_cap b) size false :: l) 0 e /\
    outside (memory h) m' a (a + size_of b).
Proof.
  intros Hc Ha He Hf Hs Hcap.
  destruct (chain_bounds _ _ _ _ _ _ _ Hc Ha He) as (Hu & Hu2 & Hcu & Hreq & Hend).
  destruct (proj1 (chain_cons _ _ _ _ _ _) Hc) as [(Hok & Hh & _) Hl].
  pose proof Hok as (Hrange & Hm16 & _). assert (is_u32 size) as Hsu by (unfold is_u32 in *; lia).
  destruct (mark_spec h a _ _ _ _ _ size 0 u Hh Hu Hcu Hsu ltac:(unfold is_u32; lia))
    as (m1 & -> & Hh1 & Ho1).
  pose proof Hh1 as [(_ & _ & H3 & _) H7]. pose proof (cookie_u32 a (b_cap b) size Hu Hcu Hsu) as Hck.
  unfold write_canary, block_canary, requested, cookie, sizeof_heap_block. cbn [memory with_used with_memory].
  rewrite H3, H7. eexists. split; [reflexivity|]. unfold size_of in *.
  assert (outside (memory h) (store32 m1 (a + 32 + size) (cookie_of a (b_cap b) size)) a
    (a + (32 + b_cap b))) as Ho.
  { apply (outside_trans _ _ _ a (a + 32) (a + 32) (a + (32 + b_cap b)) _ _ Ho1); [|lia..].
    apply outside_store; lia. }
  split; [|done]. apply chain_cons. split.
  - split; [refine (conj Hrange (conj Hm16 _)); cbn; lia|]. split.
    + apply (hdr_agree m1); [|exact Hh1]. intros c Hx. apply byte_store_ne. lia.
    + intros _. cbn [b_req b_cap]. by apply load_store_eq.
  - unfold size_of. cbn [b_cap]. eapply chain_agree; [|exact Hl]. apply (outside_agree _ _ _ _ _ _ Ho). lia.
Qed.

(** ** Merging *)

Definition merge_list (b : blk) (l : list blk) : list blk :=
  match l with
  | b2 :: l' => if b_free b2 then Build_blk (b_cap b + (32 + b_cap b2)) 0 true :: l' else b :: l
  | [] => [b]
  end.

(** The stores of a merge of [b] with its free successor [b2]. *)
Lemma merge_links h a prev b b2 l n :
  heap_range h -> chain (memory h) prev a (b :: b2 :: l) 0 (heap_end h) -> HEAP_START <= a ->
  b_free b = true -> n = a + size_of b ->
  exists m',
    (let h := set_capacity a (b_cap b + (32 + b_cap b2)) h in
     let h := set_next a (next h n) h in
     let h := if negb (next h a =? 0) then
                let h := set_previous (next h a) a h in refresh_block_cookie (next h a) h
              else h in
     refresh_block_cookie a h) = with_memory m' h /\
    chain m' prev a (Build_blk (b_cap b + (32 + b_cap b2)) 0 true :: l) 0 (heap_end h) /\
    (forall c, c < a \/ a + 32 <= c -> c < n + size_of b2 \/ n + size_of b2 + 32 <= c ->
       byte m' c = byte (memory h) c).
Proof.
  intros Hr Hc Ha Hf ->. assert (heap_end h <= HEAP_START + 16777216) as He by (unfold heap_end, heap_range in *; lia).
  destruct (chain_bounds _ _ _ _ _ _ _ Hc Ha He) as (Hu & Hu2 & Hcap & Hreq & Hend).
  destruct (proj1 (chain_cons _ _ _ _ _ _) Hc) as [(Hok & Hh & _) Hl].
  pose proof Hok as (Hrange & Hm16 & Hz). rewrite Hf in Hz. rewrite Hz in Hh.
  unfold free_word in Hh. rewrite Hf in Hh. set (n := a + size_of b) in *.
  destruct (chain_bounds _ _ _ _ _ _ _ Hl ltac:(subst n; unfold size_of; lia) He)
    as (_ & Hu3 & Hcap2 & _ & Hend2).
  destruct (proj1 (chain_cons _ _ _ _ _ _) Hl) as [(Hok2 & Hh2 & _) Hl2].
  pose proof Hok2 as (Hrange2 & Hm162 & _). set (n2 := n + size_of b2) in *.
  set (c' := b_cap b + (32 + b_cap b2)).
  assert (is_u32 c') as Hcu by (subst c' n n2; unfold is_u32, size_of, heap_end, HEAP_START in *; lia).
  cbv zeta. destruct Hh as [(G1 & G2 & G3 & G4 & G5 & G6) _].
  assert (next (set_capacity a c' h) n = link n2 l) as Hn1.
  { unfold next. simpl. rewrite load_store_ne by (subst n; unfold size_of; lia). apply (proj1 Hh2). }
  rewrite Hn1. set (h1 := set_next a (link n2 l) (set_capacity a c' h)).
  pose proof (link_u32 n2 l Hu3) as Hlu.
  assert (hdr0 (memory h1) a c' 0 prev (link n2 l) 1) as Hh1 by (unfold hdr0; simpl; repeat mem_step; done).
  assert (outside (memory h) (memory h1) a (a + 32)) as Ho1
    by (intros c Hx; simpl; rewrite !byte_store_ne by lia; done).
  assert (next h1 a = link n2 l) as Hn2 by apply Hh1. rewrite Hn2.
  assert (chain (memory h1) n n2 l 0 (heap_end h)) as Hl1.
  { eapply chain_agree; [|exact Hl2]. apply (outside_agree _ _ _ _ _ _ Ho1). subst n n2. unfold size_of. lia. }
  destruct (relink_chain h1 n n2 l (heap_end h) a Hl1) as (m2 & Hm2 & Hl2' & Ho2);
    [subst n n2; unfold size_of; lia|done|done|].
  assert (next (set_previous (link n2 l) a h1) a = link n2 l) as Hn3.
  { unfold next. simpl (memory _). rewrite load_store_ne; [exact Hn2|].
    subst n n2. unfold size_of, HEAP_START in *. destruct l; simpl; lia. }
  rewrite Hn3, Hm2.
  assert (hdr0 m2 a c' 0 prev (link n2 l) 1) as Hh2'.
  { apply (hdr0_agree (memory h1)); [|done]. apply (outside_agree _ _ _ _ _ _ Ho2). subst n n2. unfold size_of. lia. }
  destruct (refresh_spec (with_memory m2 h1) a _ _ _ _ _ Hh2' Hu Hcu ltac:(unfold is_u32; lia))
    as (m3 & -> & Hh3 & Ho3). cbn [memory with_memory] in Ho3.
  exists m3. split; [done|]. split.
  - apply chain_cons. unfold size_of at 1 2. cbn [b_cap].
    replace (a + (32 + c')) with n2 by (subst n n2 c'; unfold size_of; lia). split.
    + split; [|split; [exact Hh3|intros [=]]].
      split; [cbn; subst c' n n2; unfold size_of, heap_end, HEAP_START in *; lia|]. split; [cbn; subst c'; dmlia|done].
    + eapply chain_agree; [|exact Hl2']. apply (outside_agree _ _ _ _ _ _ Ho3). subst n n2. unfold size_of. lia.
  - intros c Hx Hx2. rewrite Ho3, Ho2, Ho1 by done. done.
Qed.

Lemma merge_spec h prev a b l :
  heap_range h -> chain (memory h) prev a (b :: l) 0 (heap_end h) -> HEAP_START <= a ->
  b_free b = true ->
  exists m', merge_with_next a h = Ok tt (with_memory m' h) /\
    chain m' prev a (merge_list b l) 0 (heap_end h) /\
    (forall c, c < a \/ a + 32 <= c ->
       (forall b2 l', l = b2 :: l' -> b_free b2 = true ->
          c < a + size_of b + size_of b2 \/ a + size_of b + size_of b2 + 32 <= c) ->
       byte m' c = byte (memory h) c).
Proof.
  intros Hr Hc Ha Hf. assert (heap_end h <= HEAP_START + 16777216) as He by (unfold heap_end, heap_range in *; lia).
  destruct (chain_bounds _ _ _ _ _ _ _ Hc Ha He) as (Hu & Hu2 & Hcap & Hreq & Hend).
  destruct (proj1 (chain_cons _ _ _ _ _ _) Hc) as [(Hok & Hh & _) Hl].
  pose proof Hok as (Hrange & Hm16 & Hz). rewrite Hf in Hz.
  pose proof (proj1 Hh) as (_ & H2 & _ & _ & H5 & _).
  unfold merge_with_next. replace (next h a) with (link (a + size_of b) l).
  destruct l as [|b2 l]; [exists (memory h); split; [by destruct h|done]|]. cbn [link merge_list].
  replace (a + size_of b =? 0) with false by (unfold size_of, HEAP_START in *; lia).
  set (n := a + size_of b) in *.
  destruct (chain_bounds _ _ _ _ _ _ _ Hl ltac:(subst n; unfold size_of; lia) He)
    as (_ & Hu3 & Hcap2 & _ & Hend2).
  destruct (proj1 (chain_cons _ _ _ _ _ _) Hl) as [(Hok2 & Hh2 & _) Hl2].
  pose proof Hok2 as (Hrange2 & Hm162 & _).
  rewrite (block_valid h n _ _ _ _ _ Hr Hh2) by (subst n; unfold size_of in *; lia). cbn [negb].
  rewrite (is_free_word h n _ _ _ _ b2 (proj1 Hh2)).
  destruct (b_free b2) eqn:Hf2; cbn [negb]; cbv iota.
  2: { exists (memory h). split; [by destruct h|]. split; [done|]. intros c _. done. }
  change (capacity h a) with (load32 (memory h) (a + 4)). rewrite H2.
  unfold sizeof_heap_block. replace (_ =? n) with true by (subst n; unfold size_of; lia).
  cbn [negb]. cbv zeta iota.
  change (capacity h n) with (load32 (memory h) (n + 4)).
  replace (load32 (memory h) (n + 4)) with (b_cap b2) by (symmetry; apply (proj1 Hh2)).
  rewrite (u32_id (32 + b_cap b2)) by (unfold is_u32; lia).
  rewrite (u32_id (b_cap b + (32 + b_cap b2)))
    by (subst n; unfold is_u32, size_of, heap_end, HEAP_START, heap_range in *; lia).
  destruct (merge_links h a prev b b2 l n) as (m' & Hm' & Hch & Ho); try done.
  exists m'. split; [f_equal; exact Hm'|]. split; [exact Hch|]. intros c Hx Hx2. apply Ho; [done|].
  by apply (Hx2 b2 l).
Qed.


End updates.
