(* ===== verification/HeapSpec.v ===== *)
(** * Correctness of the kernel heap

    What the functions of [memory/heap.c] promise to their callers, proved from the chain of
    blocks of [HeapInv]. *)

From S2P Require Import Prelude Heap HeapInv.
Local Open Scope c_scope.
Local Open Scope Z_scope.

Section spec.
Context {E : Type} `{PageSource E}.
Implicit Types h : heap (E := E).

(** The heap after [heap_init]: the blocks [l] tile the mapped range. *)
Record heap_inv h (l : list blk) : Prop := {
  hi_chain : chain (memory h) 0 HEAP_START l 0 (heap_end h);
  hi_first : first_block h = HEAP_START;
  hi_mapped : 0 < mapped_bytes h <= 16777216;
  hi_coalesced : coalesced l;
  hi_used : used_bytes h = total_requested l;
  hi_initialized : initialized h = true
}.

(** Bytes of the allocations [A] are the same in both states. *)
Definition preserved h h' (A : list (Z * Z)) : Prop :=
  forall p s c, (p, s) ∈ A -> p <= c < p + s -> byte (memory h') c = byte (memory h) c.

Definition live (l : list blk) : list (Z * Z) := allocs HEAP_START l.

Lemma inv_range h l : heap_inv h l -> heap_range h.
Proof. intros Hi. pose proof (hi_mapped _ _ Hi). unfold heap_range. lia. Qed.

Lemma inv_end h l : heap_inv h l -> heap_end h <= HEAP_START + 16777216.
Proof. intros Hi. pose proof (hi_mapped _ _ Hi). unfold heap_end. lia. Qed.

Lemma inv_span h l : heap_inv h l -> span l = mapped_bytes h.
Proof. intros Hi. pose proof (chain_span _ _ _ _ _ _ (hi_chain _ _ Hi)). unfold heap_end in *. lia. Qed.

Lemma inv_blocks h l : heap_inv h l -> Forall blk_ok l.
Proof. intros Hi. apply (chain_size _ _ _ _ _ _ (hi_chain _ _ Hi)). Qed.

Lemma inv_snoc h l : heap_inv h l -> exists l0 b, l = l0 ++ [b].
Proof.
  intros Hi. destruct (exists_last (l := l)) as (l0 & b & ->); [|by eauto].
  intros ->. pose proof (inv_span _ _ Hi). pose proof (hi_mapped _ _ Hi). simpl in *. lia.
Qed.

Lemma inv_fuel h l : heap_inv h l -> (length l < walk_fuel h)%nat.
Proof.
  intros Hi. pose proof (inv_span _ _ Hi). pose proof (span_length l (inv_blocks _ _ Hi)).
  unfold walk_fuel, sizeof_heap_block. dmlia.
Qed.

Lemma blocks_aligned l : Forall blk_ok l -> (HEAP_START + span l) mod 16 = 0.
Proof.
  induction 1 as [|b l (Hc & Hm & _) Hl IH]; cbn [span]; [done|]. unfold HEAP_START, size_of in *. dmlia.
Qed.

Lemma requested_bound l : Forall blk_ok l -> 0 <= total_requested l <= span l.
Proof.
  induction 1 as [|b l (Hc & _ & Hr) _ IH]; cbn [total_requested span]; [lia|].
  unfold size_of. destruct (b_free b); lia.
Qed.

(** ** Growing *)

Definition grow (l0 : list blk) (b : blk) (added : Z) : list blk :=
  if b_free b then l0 ++ [Build_blk (b_cap b + added) 0 true]
  else (l0 ++ [b]) ++ [Build_blk (added - 32) 0 true].

Lemma grow_live l0 b added : live (grow l0 b added) = live (l0 ++ [b]).
Proof.
  unfold grow, live. destruct (b_free b) eqn:Ef; rewrite !allocs_app; simpl; rewrite ?Ef; simpl;
    by rewrite ?app_nil_r.
Qed.

Lemma grow_requested l0 b added : blk_ok b ->
  total_requested (grow l0 b added) = total_requested (l0 ++ [b]).
Proof.
  intros (_ & _ & Hr). unfold grow. destruct (b_free b); rewrite !requested_app; simpl; lia.
Qed.

Lemma grow_coalesced l0 b added : coalesced (l0 ++ [b]) -> coalesced (grow l0 b added).
Proof.
  unfold grow. destruct (b_free b) eqn:Ef; rewrite !coalesced_app; cbn; rewrite ?Ef, ?andb_false_r, ?free_last_snoc, ?Ef.
  - intuition.
  - intuition.
Qed.

(** A last block that is free takes the new bytes. *)
Lemma grow_free_block h prev a b added e : chain (memory h) prev a [b] 0 e ->
  HEAP_START <= a -> 0 < added -> added mod 16 = 0 -> e + added <= HEAP_START + 16777216 ->
  b_free b = true ->
  exists m', refresh_block_cookie a (set_capacity a (capacity h a +32 added) h) = with_memory m' h /\
    chain m' prev a [Build_blk (b_cap b + added) 0 true] 0 (e + added) /\
    outside (memory h) m' a (a + 32).
Proof.
  intros Hb Ha Hpos Hmod He Hf.
  destruct (chain_bounds _ _ _ _ _ _ _ Hb Ha ltac:(lia)) as (Hu & Hu2 & Hcap & Hreq & Hend).
  destruct Hb as [((Hrange & Hm16 & Hz) & Hh & _) Heq]. cbn [chain] in Heq. unfold size_of in *.
  assert (capacity h a = b_cap b) as -> by apply (proj1 Hh). unfold HEAP_START in *.
  rewrite (u32_id (b_cap b + added)) by (unfold is_u32; lia).
  pose proof Hh as [(G1 & G2 & G3 & G4 & G5 & G6) _].
  destruct (refresh_spec (set_capacity a (b_cap b + added) h) a (b_cap b + added) 0 prev 0 1)
    as (m' & -> & Hh' & Ho); [|done|unfold is_u32; lia|unfold is_u32; lia|].
  { unfold hdr0, free_word in *. rewrite Hf in *. rewrite Hz in G3. simpl.
    assert (is_u32 (b_cap b + added)) by (unfold is_u32; lia). repeat mem_step. done. }
  exists m'. split; [done|]. split.
  - split; [|cbn; unfold size_of; cbn; lia]. split; [split; [cbn; lia|split; [cbn; dmlia|done]]|].
    split; [exact Hh'|intros [=]].
  - eapply (outside_trans _ _ _ a (a + 32) a (a + 32)); [|exact Ho|lia..]. apply outside_store; lia.
Qed.

(** A last block that is in use gets a free successor. *)
Lemma grow_used_block h prev a b added e : chain (memory h) prev a [b] 0 e ->
  HEAP_START <= a -> 32 <= added -> added mod 16 = 0 -> e + added <= HEAP_START + 16777216 ->
  b_free b = false ->
  exists m',
    (let h := write_free_block e (added -32 sizeof_heap_block) a 0 h in
     let h := refresh_block_cookie e h in
     refresh_block_cookie a (set_next a e h)) = with_memory m' h /\
    chain m' prev a [b; Build_blk (added - 32) 0 true] 0 (e + added) /\
    (forall c, c < e -> c < a \/ a + 32 <= c -> byte m' c = byte (memory h) c).
Proof.
  intros Hb Ha Hpos Hmod He Hf. cbv zeta.
  destruct (chain_bounds _ _ _ _ _ _ _ Hb Ha ltac:(lia)) as (Hu & Hu2 & Hcap & Hreq & Hend).
  destruct Hb as [(Hok & Hh & Hcan) Heq]. cbn [chain] in Heq. pose proof Hok as (Hrange & Hm16 & Hz).
  rewrite Heq in *. unfold size_of, sizeof_heap_block, HEAP_START in *.
  rewrite (u32_id (added - 32)) by (unfold is_u32; lia).
  destruct (free_block_spec h e (added - 32) a 0) as (m1 & -> & Hh1 & Ho1);
    [unfold is_u32; lia|done|unfold is_u32; lia|].
  destruct (refresh_spec (with_memory m1 h) e _ _ _ _ _ Hh1) as (m2 & -> & Hh2 & Ho2);
    [done|unfold is_u32; lia|unfold is_u32; lia|]. cbn [memory with_memory] in Ho2.
  assert (outside (memory h) m2 e (e + 32)) as Ho by (apply (outside_trans _ _ _ e (e + 32) e (e + 32) _ _ Ho1 Ho2); lia).
  assert (hdr m2 a (b_cap b) (b_req b) prev 0 (free_word b)) as Ha2.
  { apply (hdr_agree (memory h)); [|done]. apply (outside_agree _ _ _ _ _ _ Ho). lia. }
  pose proof Ha2 as [(G1 & G2 & G3 & G4 & G5 & G6) _]. set (h2 := with_memory m2 h).
  destruct (refresh_spec (set_next a e h2) a (b_cap b) (b_req b) prev e (free_word b))
    as (m3 & Hm3 & Hh3 & Ho3); [unfold hdr0; simpl; repeat mem_step; done|done..|].
  cbn [memory set_next store with_memory h2] in Ho3.
  assert (outside m2 m3 a (a + 32)) as Ho3'.
  { eapply (outside_trans _ _ _ a (a + 32) a (a + 32)); [|exact Ho3|lia..]. apply outside_store; lia. }
  exists m3. split; [exact Hm3|]. split.
  - split; [|split].
    + split; [done|]. split; [unfold size_of; by rewrite Heq|]. intros _. rewrite <- (Hcan Hf).
      rewrite Hf in Hz. transitivity (load32 m2 (a + 32 + b_req b)).
      * apply (load_agree _ _ (a + 32) e); [apply (outside_agree _ _ _ _ _ _ Ho3'); lia|lia..].
      * apply (load_agree _ _ a e); [apply (outside_agree _ _ _ _ _ _ Ho); lia|lia..].
    + unfold size_of. rewrite Heq. split; [split; [cbn; lia|split; [cbn; dmlia|done]]|]. split; [|intros [=]].
      apply (hdr_agree m2); [|exact Hh2]. apply (outside_agree _ _ _ _ _ _ Ho3'). lia.
    + unfold size_of. cbn. lia.
  - intros c Hx Hx2. rewrite Ho3' by done. apply Ho. lia.
Qed.

(** The search for the last block and the growth, once the pages are mapped. *)
Lemma attach_spec h l0 b added e : heap_range h -> first_block h = HEAP_START ->
  chain (memory h) 0 HEAP_START (l0 ++ [b]) 0 e -> e + added = heap_end h ->
  32 <= added -> added mod 16 = 0 -> (length (l0 ++ [b]) <= walk_fuel h)%nat ->
  exists m',
    bind (find_last (walk_fuel h) (first_block h) h) (fun last_ h =>
      if is_free h last_ then
        let h := set_capacity last_ (capacity h last_ +32 added) h in
        Ok true (refresh_block_cookie last_ h)
      else
        let new_block := e in
        let h := write_free_block new_block (added -32 sizeof_heap_block) last_ 0 h in
        let h := refresh_block_cookie new_block h in
        let h := set_next last_ new_block h in
        Ok true (refresh_block_cookie last_ h)) = Ok true (with_memory m' h) /\
    chain m' 0 HEAP_START (grow l0 b added) 0 (heap_end h) /\
    (forall c, c < e -> c < HEAP_START + span l0 \/ HEAP_START + span l0 + 32 <= c ->
       byte m' c = byte (memory h) c).
Proof.
  intros Hr Hfirst Hc He Hsz Hmod Hfuel. rewrite Hfirst.
  rewrite (find_last_spec h l0 b 0 HEAP_START e (walk_fuel h) Hr Hc) by (done || lia).
  cbn [bind]. pose proof (chain_size _ _ _ _ _ _ Hc) as Hall. apply Forall_app in Hall as [Hl0 _].
  pose proof (span_length l0 Hl0). apply chain_app in Hc as [Hpre Hb].
  set (a := HEAP_START + span l0) in *.
  assert (e <= HEAP_START + 16777216 - added) by (unfold heap_end, heap_range in *; lia).
  destruct (chain_bounds _ _ _ _ _ _ _ Hb ltac:(lia) ltac:(lia)) as (_ & _ & _ & _ & Hend).
  rewrite (is_free_word h a _ _ _ _ b (proj1 (proj1 (proj2 (proj1 Hb))))).
  pose proof (proj1 (proj1 Hb)) as (Hrange & _). unfold size_of in Hend.
  assert (forall m', (forall c, HEAP_START <= c < a -> byte m' c = byte (memory h) c) ->
    chain m' 0 HEAP_START l0 a a) as Hpre' by (intros m' Hag; eapply chain_agree; [exact Hag|exact Hpre]).
  unfold grow. destruct (b_free b) eqn:Ef.
  - destruct (grow_free_block h _ a b added e Hb) as (m' & Hm' & Hch & Ho); [lia|lia|done|lia|done|].
    exists m'. split; [cbv zeta; by rewrite Hm'|]. split; [|intros c _ Hx; by apply Ho].
    apply chain_app. split; [|by rewrite <- He]. apply Hpre'. intros c Hx. apply Ho. lia.
  - destruct (grow_used_block h _ a b added e Hb) as (m' & Hm' & Hch & Ho); [lia|lia|done|lia|done|].
    exists m'. split; [cbv zeta in *; by rewrite Hm'|]. split; [|done].
    rewrite <- app_assoc. apply chain_app. split; [|by rewrite <- He].
    apply Hpre'. intros c Hx. apply Ho; lia.
Qed.

Lemma preserved_weaken h h' (l1 l2 : list blk) b :
  (forall c, HEAP_START <= c < HEAP_START + span (l1 ++ b :: l2) ->
     c < HEAP_START + span l1 \/ HEAP_START + span l1 + 32 <= c ->
     byte (memory h') c = byte (memory h) c) ->
  Forall blk_ok (l1 ++ b :: l2) -> preserved h h' (live (l1 ++ b :: l2)).
Proof.
  intros Hb Hok p s c Hin Hc. pose proof (allocs_range _ _ _ _ Hok Hin) as Hr.
  apply Hb; [lia|]. unfold live in Hin. rewrite allocs_app, elem_of_app in Hin.
  apply Forall_app in Hok as [Hok1 Hok2]. pose proof (span_length l1 Hok1).
  destruct Hin as [Hin|Hin]; apply allocs_range in Hin; try done; lia.
Qed.

Lemma expand_spec h l n : heap_inv h l -> 0 < n <= 33554432 ->
  exists ok h', expand_heap n h = Ok ok h' /\ preserved h h' (live l) /\
    (ok = false -> heap_inv h' l) /\
    (ok = true -> exists l0 b added, l = l0 ++ [b] /\ n <= added /\ heap_inv h' (grow l0 b added)).
Proof.
  intros Hi Hn. pose proof Hi as [Hc Hfirst Hmap Hco Hus Hin]. pose proof (inv_range _ _ Hi) as Hr.
  assert (preserved h h (live l)) as Hrefl by (by intros p s c _ _).
  unfold expand_heap, HEAP_MAX_SIZE. rewrite (u32_id (16777216 - mapped_bytes h)) by (unfold is_u32; lia).
  destruct (_ || _) eqn:Eg; [exists false, h; done|]. split_bools. unfold PAGE_SIZE.
  rewrite (u32_id (n + 4096)), (u32_id (n + 4096 - 1)) by (unfold is_u32; lia).
  set (pages := (n + 4096 - 1) / 4096).
  assert (n <= pages * 4096 < n + 4096) as Hpages by (subst pages; dmlia).
  rewrite (u32_id (pages * 4096)) by (unfold is_u32; lia).
  destruct (16777216 - mapped_bytes h <? pages * 4096) eqn:Emax; [exists false, h; done|].
  destruct (map_pages (Z.to_nat pages) (mapped_bytes h) 0 h) as [ok h1] eqn:Em.
  apply map_pages_spec in Em as (m1 & e1 & -> & Ho); [|lia..].
  replace (HEAP_START + mapped_bytes h + 0 * 4096) with (heap_end h) in Ho by (unfold heap_end; lia).
  assert (chain m1 0 HEAP_START l 0 (heap_end h)) as Hc1.
  { eapply chain_agree; [|exact Hc]. apply (outside_agree _ _ _ _ _ _ Ho). lia. }
  destruct (inv_snoc _ _ Hi) as (l0 & b & ->).
  assert (forall h' m', (forall c, c < heap_end h -> c < HEAP_START + span l0 \/ HEAP_START + span l0 + 32 <= c ->
    byte m' c = byte m1 c) -> memory h' = m' -> preserved h h' (live (l0 ++ [b]))) as Hpres.
  { intros h' m' Hb <-. apply preserved_weaken; [|apply (inv_blocks _ _ Hi)].
    rewrite (inv_span _ _ Hi). intros c Hx Hx2. rewrite Hb by (unfold heap_end; lia). apply Ho.
    unfold heap_end. lia. }
  destruct ok; cbn [negb]; cbv iota.
  2: { exists false, (same_but_env h m1 e1). split; [done|]. split; [by apply (Hpres _ m1)|].
       split; [|done]. intros _. by split. }
  cbn [first_block mapped_bytes same_but_env memory used_bytes initialized Heap.env].
  rewrite (u32_id (mapped_bytes h + pages * 4096)) by (unfold is_u32; lia).
  rewrite (u32_id (HEAP_START + mapped_bytes h)) by (unfold is_u32, HEAP_START; lia).
  set (h2 := Build_heap m1 (first_block h) (mapped_bytes h + pages * 4096) (used_bytes h) (initialized h) e1).
  replace (first_block h =? 0) with false by (rewrite Hfirst; done).
  change (HEAP_START + mapped_bytes h) with (heap_end h).
  pose proof (inv_fuel _ _ Hi) as Hfuel.
  destruct (attach_spec h2 l0 b (pages * 4096) (heap_end h)) as (m' & Hatt & Hch & Hb').
  - unfold heap_range. cbn. lia.
  - done.
  - done.
  - unfold heap_end. cbn. lia.
  - lia.
  - dmlia.
  - unfold walk_fuel, sizeof_heap_block in *. cbn [mapped_bytes h2] in *.
    assert (mapped_bytes h / 32 <= (mapped_bytes h + pages * 4096) / 32) by (apply Z.div_le_mono; lia). lia.
  - exists true, (with_memory m' h2). split; [exact Hatt|].
    split; [by apply (Hpres _ m')|]. split; [done|]. intros _. exists l0, b, (pages * 4096).
    split; [done|]. split; [lia|]. pose proof (inv_blocks _ _ Hi) as Hall.
    apply Forall_app in Hall as [_ Hb]. apply Forall_inv in Hb.
    split; [exact Hch|done|cbn; lia|by apply grow_coalesced|cbn; by rewrite grow_requested|done].
Qed.

(** ** Allocating *)

Lemma align_up_spec n : 0 <= n < 4294967000 -> align_up n = (n + 15) / 16 * 16.
Proof.
  intros Hn. unfold align_up, HEAP_ALIGNMENT.
  rewrite (u32_id (n + 16)), (u32_id (n + 16 - 1)) by (unfold is_u32; lia).
  replace (n + 16 - 1) with (n + 15) by lia. set (x := n + 15).
  assert (is_u32 x) as Hx by (subst x; unfold is_u32; lia).
  change (x / 16) with (x / 2 ^ 4). change (x / 2 ^ 4 * 16) with (x / 2 ^ 4 * 2 ^ 4).
  rewrite <- Z.shiftr_div_pow2, <- Z.shiftl_mul_pow2 by lia.
  apply Z.bits_inj'. intros k Hk. rewrite Z.land_spec, Z.shiftl_spec by lia.
  destruct (Z_lt_ge_dec k 32) as [H32|H32].
  - rewrite not32_testbit by (unfold is_u32; lia). destruct (Z_lt_ge_dec k 4) as [H4|H4].
    + rewrite (Z.testbit_neg_r _ (k - 4)) by lia.
      assert (k = 0 \/ k = 1 \/ k = 2 \/ k = 3) as [-> | [-> | [-> | ->]]] by lia; apply andb_false_r.
    + rewrite Z.shiftr_spec by lia. replace (k - 4 + 4) with k by lia.
      rewrite (Z.bits_above_log2 (16 - 1) k); [apply andb_true_r|lia|change (Z.log2 (16 - 1)) with 3; lia].
  - assert (forall y, is_u32 y -> Z.testbit y k = false) as Hhigh.
    { intros y Hy. rewrite <- (u32_id y Hy). unfold u32. change 4294967296 with (2 ^ 32).
      apply Z.mod_pow2_bits_high. lia. }
    rewrite (Hhigh x Hx). rewrite Z.shiftr_spec by lia. replace (k - 4 + 4) with k by lia.
    by rewrite (Hhigh x Hx).
Qed.

(** What replaces the free block [b] of which [c] bytes serve an allocation of [size]. *)
Definition taken (b : blk) (size c : Z) : list blk :=
  if b_cap b <? c + 48 then [Build_blk (b_cap b) size false]
  else [Build_blk c size false; Build_blk (b_cap b - c - 32) 0 true].

Lemma taken_span b size c : span (taken b size c) = size_of b.
Proof. unfold taken. case_if; simpl; unfold size_of; simpl; lia. Qed.

Lemma taken_split b size c : exists b1 rest, split_list b c = b1 :: rest /\
  taken b size c = Build_blk (b_cap b1) size false :: rest /\ (b_free b = true -> b_free b1 = true) /\
  (c <= b_cap b -> c <= b_cap b1) /\ size_of b1 + span rest = size_of b.
Proof.
  unfold split_list, taken. case_if; (eexists _, _; split; [done|]; split; [done|]; split; [done|]);
    (split; [intros; cbn [b_cap]; lia|cbn [span]; unfold size_of; cbn [b_cap]; lia]).
Qed.

Lemma take_spec h l1 b l2 size c : heap_inv h (l1 ++ b :: l2) -> b_free b = true ->
  c <= b_cap b -> c mod 16 = 0 -> 0 < size -> size + 4 <= c ->
  heap_inv (take_block (HEAP_START + span l1) size c h) (l1 ++ taken b size c ++ l2) /\
  preserved h (take_block (HEAP_START + span l1) size c h) (live (l1 ++ b :: l2)).
Proof.
  intros Hi Hf Hc Hmod Hs Hsz. pose proof Hi as [Hch Hfirst Hmap Hco Hus Hin].
  pose proof (inv_end _ _ Hi) as He. pose proof (inv_blocks _ _ Hi) as Hall.
  pose proof (inv_span _ _ Hi) as Hspan. rewrite span_app in Hspan. cbn [span] in Hspan.
  apply Forall_app in Hall as [Hl1 Hbl]. pose proof (Forall_inv Hbl) as Hb.
  pose proof (Forall_inv_tail Hbl) as Hl2. pose proof (span_length l1 Hl1).
  pose proof (span_length l2 Hl2). apply chain_app in Hch as [Hpre Hrest].
  set (a := HEAP_START + span l1) in *. pose proof Hb as (Hrange & Hm16 & Hz). rewrite Hf in Hz.
  destruct (split_spec h _ a b l2 _ c Hrest ltac:(lia) He Hf ltac:(lia) Hmod) as (m1 & Hm1 & Hch1 & Ho1).
  destruct (taken_split b size c) as (b1 & rest & Hsp & Htk & Hfb & Hcb & Hsize). rewrite Hsp in Hch1.
  destruct (use_spec (with_memory m1 h) _ a b1 (rest ++ l2) _ size (used_bytes h +32 size) Hch1
    ltac:(lia) He (Hfb Hf) Hs ltac:(lia)) as (m2 & Hm2 & Hch2 & Ho2).
  assert (take_block a size c h = with_used (used_bytes h +32 size) (with_memory m2 h)) as Etk.
  { unfold take_block. rewrite Hm1.
    replace (Z.land (flags (set_requested a size (with_memory m1 h)) a) (not32 HEAP_BLOCK_FREE)) with 0.
    - exact Hm2.
    - unfold flags. simpl. mem_step. destruct (proj1 (chain_cons _ _ _ _ _ _) Hch1) as [(_ & [Hh1 _] & _) _].
      destruct Hh1 as (_ & _ & _ & _ & _ & ->). unfold free_word. by rewrite (Hfb Hf). }
  rewrite Etk. unfold size_of in *.
  assert (outside (memory h) m2 a (a + (32 + b_cap b) + 32)) as Ho.
  { assert (Forall blk_ok rest) as Hrk.
    { apply chain_size, Forall_inv_tail in Hch1. by apply Forall_app in Hch1 as [? _]. }
    pose proof (span_length rest Hrk).
    apply (outside_trans _ _ _ _ _ _ _ a (a + (32 + b_cap b) + 32) Ho1 Ho2); lia. }
  split.
  - split; cbn [memory first_block mapped_bytes used_bytes initialized with_used with_memory]; try done.
    + rewrite Htk. apply chain_app. split; [|exact Hch2]. eapply chain_agree; [|exact Hpre].
      apply (outside_agree _ _ _ _ _ _ Ho). lia.
    + revert Hco. unfold taken. rewrite !coalesced_app. cbn [coalesced free_first]. rewrite Hf.
      rewrite !andb_true_l, andb_true_r. destruct (_ <? _); cbn; rewrite ?andb_false_r; intuition.
    + rewrite Hus, !requested_app. cbn [total_requested]. rewrite Hz.
      assert (total_requested (taken b size c) = size) as ->
        by (unfold taken; case_if; simpl; lia).
      pose proof (requested_bound _ Hl1). pose proof (requested_bound _ Hl2).
      rewrite u32_id by (unfold is_u32; lia). lia.
  - intros p s x Hin' Hx. apply Ho. unfold live in Hin'. rewrite allocs_app, elem_of_app in Hin'.
    cbn [allocs] in Hin'. rewrite Hf in Hin'. cbn [app] in Hin'. fold a in Hin'. unfold size_of in Hin'.
    destruct Hin' as [Hin'|Hin']; apply allocs_range in Hin'; try done; lia.
Qed.

Lemma find_spec h l c : heap_inv h l ->
  exists r, find_free_block c h = Ok r h /\
    ((exists l1 b l2, l = l1 ++ b :: l2 /\ fits c b = true /\ r = HEAP_START + span l1) \/
     (Forall (fun b => fits c b = false) l /\ r = 0)).
Proof.
  intros Hi. unfold find_free_block. rewrite (hi_first _ _ Hi).
  destruct (find_from_spec h l 0 HEAP_START (walk_fuel h) c (inv_range _ _ Hi) (hi_chain _ _ Hi)
    ltac:(lia) (inv_fuel _ _ Hi)) as (r & Hr & Hres).
  exists r. split; [|done]. destruct (inv_snoc _ _ Hi) as (l0 & b & ->). by destruct l0.
Qed.

(** A grown heap has a block that fits. *)
Lemma find_grown h l0 b added c : heap_inv h (grow l0 b added) -> c + 32 <= added -> blk_ok b ->
  exists l1 b1 l2, grow l0 b added = l1 ++ b1 :: l2 /\ fits c b1 = true /\
    find_free_block c h = Ok (HEAP_START + span l1) h.
Proof.
  intros Hi Hadd (Hcap & _). destruct (find_spec h _ c Hi) as (r & Hr & [(l1 & b1 & l2 & El & Hfit & ->)|[Hno _]]).
  - by exists l1, b1, l2.
  - exfalso. unfold grow in Hno. destruct (b_free b);
      (apply Forall_app in Hno as [_ Hno]; apply Forall_inv in Hno; unfold fits in Hno; cbn in Hno; lia).
Qed.

(** Results of an allocation of [size] bytes. *)
Definition alloc_result h l size (p : Z) (l' : list blk) : Prop :=
  (p = 0 /\ live l' = live l /\
   (size = 0 \/ 16777196 < size \/
    (Forall (fun b => fits (align_up (size + 4)) b = false) l /\
     exists h1, expand_heap (align_up (size + 4) + 32) h = Ok false h1))) \/
  (HEAP_START < p /\ p mod 16 = 0 /\
   exists A1 A2, live l = A1 ++ A2 /\ live l' = A1 ++ (p, size) :: A2).

Lemma live_taken l1 b l2 size c : b_free b = true ->
  live (l1 ++ b :: l2) = live l1 ++ allocs (HEAP_START + span l1 + size_of b) l2 /\
  live (l1 ++ taken b size c ++ l2) =
    live l1 ++ (HEAP_START + span l1 + 32, size) :: allocs (HEAP_START + span l1 + size_of b) l2.
Proof.
  intros Hf. unfold live. rewrite !allocs_app, taken_span. cbn [allocs]. rewrite Hf. split; [done|].
  f_equal. unfold taken. case_if; done.
Qed.

Lemma take_found h h0 l l1 b l2 size : heap_inv h (l1 ++ b :: l2) -> live (l1 ++ b :: l2) = live l ->
  preserved h0 h (live l) -> fits (align_up (size + 4)) b = true -> 0 < size <= 16777196 ->
  let h' := take_block (HEAP_START + span l1) size (align_up (size + 4)) h in
  exists l', heap_inv h' l' /\ preserved h0 h' (live l) /\
    alloc_result h0 l size (HEAP_START + span l1 + 32) l'.
Proof.
  intros Hi Hlive Hpres Hfit Hs h'. unfold fits in Hfit. split_bools.
  assert (align_up (size + 4) mod 16 = 0 /\ size + 4 <= align_up (size + 4)) as [Hm Hge]
    by (rewrite align_up_spec by lia; split; dmlia).
  destruct (take_spec h l1 b l2 size (align_up (size + 4)) Hi) as [Hi' Hp']; [done|lia|done|lia|lia|].
  exists (l1 ++ taken b size (align_up (size + 4)) ++ l2). split; [done|]. split.
  - intros p s c Hin Hc. rewrite (Hp' p s) by (rewrite ?Hlive; done). by apply (Hpres p s).
  - right. pose proof (inv_blocks _ _ Hi) as Hall. apply Forall_app in Hall as [Hl1 _].
    pose proof (span_length l1 Hl1). pose proof (blocks_aligned l1 Hl1). split; [lia|]. split; [dmlia|].
    destruct (live_taken l1 b l2 size (align_up (size + 4))) as [E1 E2]; [done|].
    rewrite <- Hlive. by eexists _, _.
Qed.

Lemma kmalloc_spec h l size : heap_inv h l -> is_u32 size ->
  exists p h' l', kmalloc size h = Ok p h' /\ heap_inv h' l' /\ preserved h h' (live l) /\
    alloc_result h l size p l'.
Proof.
  intros Hi Hsz. unfold kmalloc. rewrite (hi_initialized _ _ Hi). cbn [negb orb].
  unfold HEAP_MAX_SIZE, HEAP_ALIGNMENT. change ((16777216 -32 4) -32 16) with 16777196.
  assert (preserved h h (live l)) as Hrefl by (by intros p s c _ _).
  destruct ((size =? 0) || (16777196 <? size)) eqn:Eg.
  { exists 0, h, l. split; [done|]. split; [done|]. split; [done|]. left. split; [done|]. split; [done|]. lia. }
  unfold is_u32 in Hsz. rewrite (u32_id (size + 4)) by (unfold is_u32; lia).
  pose proof (align_up_spec (size + 4) ltac:(lia)) as Hal.
  assert (size + 4 <= align_up (size + 4) < size + 20) as Hrange by (rewrite Hal; dmlia).
  destruct (find_spec h l (align_up (size + 4)) Hi) as (r & -> & Hres). cbn [bind].
  destruct Hres as [(l1 & b & l2 & -> & Hfit & ->)|[Hno ->]].
  - pose proof (inv_blocks _ _ Hi) as Hall. apply Forall_app in Hall as [Hl1 _]. pose proof (span_length l1 Hl1).
    replace (HEAP_START + span l1 =? 0) with false by (unfold HEAP_START; lia). cbn [bind].
    replace (HEAP_START + span l1 =? 0) with false by (unfold HEAP_START; lia).
    destruct (take_found h h (l1 ++ b :: l2) l1 b l2 size Hi eq_refl Hrefl Hfit ltac:(lia))
      as (l' & Hi' & Hp' & Hr'). by eexists _, _, l'.
  - rewrite Z.eqb_refl. unfold sizeof_heap_block.
    rewrite (u32_id (align_up (size + 4) + 32)) by (unfold is_u32; lia).
    destruct (expand_spec h l (align_up (size + 4) + 32) Hi ltac:(lia)) as (ok & h1 & He & Hp1 & Hf & Ht).
    rewrite He. cbn [bind]. destruct ok.
    + destruct (Ht eq_refl) as (l0 & b & added & -> & Hadd & Hi1).
      pose proof (inv_blocks _ _ Hi) as Hall. apply Forall_app in Hall as [_ Hb%Forall_inv].
      destruct (find_grown h1 l0 b added (align_up (size + 4)) Hi1 ltac:(lia) Hb)
        as (l1 & b1 & l2 & Eg1 & Hfit & ->). cbn [bind].
      pose proof (inv_blocks _ _ Hi1) as Hall. rewrite Eg1 in Hall.
      apply Forall_app in Hall as [Hl1 _]. pose proof (span_length l1 Hl1).
      replace (HEAP_START + span l1 =? 0) with false by (unfold HEAP_START; lia).
      pose proof (grow_live l0 b added) as Hlive. rewrite Eg1 in Hi1, Hlive.
      destruct (take_found h1 h (l0 ++ [b]) l1 b1 l2 size Hi1 Hlive Hp1 Hfit ltac:(lia))
        as (l' & Hi' & Hp' & Hr'). by eexists _, _, l'.
    + cbn [bind Z.eqb]. exists 0, h1, l. split; [done|]. split; [by apply Hf|]. split; [done|].
      left. split; [done|]. split; [done|]. right. right. split; [done|]. by exists h1.
Qed.

(** ** Freeing *)

Lemma allocs_split a l p s : (p, s) ∈ allocs a l ->
  exists l1 b l2, l = l1 ++ b :: l2 /\ b_free b = false /\ p = a + span l1 + 32 /\ s = b_req b.
Proof.
  revert a. induction l as [|b l IH]; intros a; cbn [allocs]; [intros Hin; by apply elem_of_nil in Hin|].
  rewrite elem_of_app. intros [Hin|Hin].
  - destruct (b_free b) eqn:Ef; [by apply elem_of_nil in Hin|]. apply list_elem_of_singleton in Hin.
    injection Hin as -> ->. exists [], b, l. simpl. repeat split; [done|lia].
  - destruct (IH _ Hin) as (l1 & b1 & l2 & -> & Hf & -> & ->). exists (b :: l1), b1, l2.
    cbn [span app]. repeat split; [done|lia].
Qed.

Definition released (b : blk) : blk := Build_blk (b_cap b) 0 true.

Lemma merge_list_facts b l : b_free b = true -> b_req b = 0 -> coalesced l -> Forall blk_ok l ->
  exists c l', merge_list b l = Build_blk c 0 true :: l' /\ b_cap b <= c /\
    coalesced (merge_list b l) /\ total_requested (merge_list b l) = total_requested l /\
    (forall a, allocs a (merge_list b l) = allocs (a + size_of b) l) /\
    (size_of b <= 32 + c /\ (c = b_cap b \/ exists b2, l = b2 :: l' /\ b_free b2 = true /\ c = b_cap b + size_of b2)).
Proof.
  intros Hf Hr Hco Hok. destruct b as [cap req fr]. simpl in Hf, Hr. subst req fr.
  unfold merge_list, size_of. cbn [b_cap]. destruct l as [|b2 l].
  - exists cap, []. repeat split; try done; cbn; try lia.
  - destruct Hco as [Hj Hco]. pose proof (Forall_inv Hok) as (Hc2 & _ & Hr2).
    destruct (b_free b2) eqn:Ef.
    + cbn in Hj. eexists _, l. split; [done|]. split; [lia|]. split; [cbn; by rewrite Hj|].
      split; [cbn; lia|]. split; [intros a; cbn [allocs b_free app]; rewrite Ef; cbn [app]; f_equal; unfold size_of; cbn [b_cap]; lia|].
      split; [lia|]. right. exists b2. done.
    + exists cap, (b2 :: l). split; [done|]. split; [lia|]. split; [cbn; rewrite Ef; cbn; done|].
      split; [done|]. split; [done|]. split; [lia|]. left. done.
Qed.

(** The state after the first half of [kfree]: the block is marked free. *)
Lemma mark_free_spec h prev a b l e u :
  chain (memory h) prev a (b :: l) 0 e -> HEAP_START <= a -> e <= HEAP_START + 16777216 ->
  b_free b = false ->
  exists m',
    (let h := with_used u h in
     let h := set_requested a 0 h in
     let h := set_flags a (Z.lor (flags h a) HEAP_BLOCK_FREE) h in
     refresh_block_cookie a h) = with_used u (with_memory m' h) /\
    chain m' prev a (released b :: l) 0 e /\ outside (memory h) m' a (a + 32).
Proof.
  intros Hc Ha He Hf. destruct (chain_bounds _ _ _ _ _ _ _ Hc Ha He) as (Hu & Hu2 & Hcap & Hreq & Hend).
  destruct (proj1 (chain_cons _ _ _ _ _ _) Hc) as [(Hok & Hh & _) Hl]. pose proof Hok as (Hrange & Hm16 & _).
  destruct (mark_spec h a _ _ _ _ _ 0 1 u Hh Hu Hcap ltac:(unfold is_u32; lia) ltac:(unfold is_u32; lia))
    as (m' & Hm' & Hh' & Ho).
  exists m'. split.
  - cbv zeta. rewrite <- Hm'. replace (Z.lor _ HEAP_BLOCK_FREE) with 1; [reflexivity|].
    unfold flags. simpl. mem_step. destruct Hh as [(_ & _ & _ & _ & _ & ->) _]. unfold free_word. by rewrite Hf.
  - split; [|done]. apply chain_cons. split.
    + split; [by refine (conj Hrange (conj Hm16 _))|]. split; [exact Hh'|intros [=]].
    + change (size_of (released b)) with (size_of b). eapply chain_agree; [|exact Hl].
      apply (outside_agree _ _ _ _ _ _ Ho). unfold size_of. lia.
Qed.

(** The checks of [kfree] on a live allocation. *)
Lemma kfree_checks h l1 b l2 : heap_inv h (l1 ++ b :: l2) -> b_free b = false ->
  let a := HEAP_START + span l1 in
  ((a + 32 <? HEAP_START +32 sizeof_heap_block) || (HEAP_START +32 mapped_bytes h <=? a + 32) ||
   flag (a + 32) (HEAP_ALIGNMENT - 1)) = false /\
  (negb (block_is_valid h a) || is_free h a || (capacity h a <? 4) ||
   (capacity h a -32 4 <? requested h a) || negb (canary_is_valid h a)) = false /\
  requested h a = b_req b.
Proof.
  intros Hi Hf a. pose proof (inv_range _ _ Hi) as Hr. pose proof (inv_end _ _ Hi) as He.
  pose proof (inv_blocks _ _ Hi) as Hall. pose proof (inv_span _ _ Hi) as Hspan. rewrite span_app in Hspan.
  cbn [span] in Hspan. pose proof (hi_chain _ _ Hi) as Hc. apply Forall_app in Hall as [Hl1 Hbl].
  pose proof (span_length l1 Hl1). pose proof (span_length l2 (Forall_inv_tail Hbl)).
  pose proof (blocks_aligned l1 Hl1) as Hal.
  apply chain_app in Hc as [_ Hc]. fold a in Hc, Hal. unfold heap_range, size_of in *.
  destruct (proj1 (chain_cons _ _ _ _ _ _) Hc) as [((Hrange & Hm16 & Hq) & Hh & Hcan) _].
  rewrite Hf in Hq. pose proof Hh as [(G1 & G2 & G3 & G4 & G5 & G6) G7]. split; [|split].
  - unfold flag, HEAP_ALIGNMENT, sizeof_heap_block. change (16 - 1) with (2 ^ 4 - 1).
    rewrite land_mask by lia. change (2 ^ 4) with 16.
    rewrite !u32_id by (unfold is_u32, HEAP_START; lia).
    replace ((a + 32) mod 16) with 0 by dmlia. subst a. cbn. lia.
  - rewrite (block_valid h a _ _ _ _ _ Hr Hh) by (unfold heap_end; lia).
    rewrite (is_free_word h a _ _ _ _ b (proj1 Hh)), Hf.
    unfold canary_is_valid, block_canary, capacity, requested, cookie, sizeof_heap_block.
    rewrite G2, G3, G7, (Hcan Hf), Z.eqb_refl. rewrite u32_id by (unfold is_u32; lia). lia.
  - exact G3.
Qed.

(** Bytes of the allocations after a block survive its merge. *)
Lemma merge_clear a b l p s c : 0 <= b_cap b -> Forall blk_ok l ->
  (p, s) ∈ allocs (a + size_of b) l -> p <= c < p + s ->
  (c < a \/ a + 32 <= c) /\
  (forall b2 l', l = b2 :: l' -> b_free b2 = true ->
     c < a + size_of b + size_of b2 \/ a + size_of b + size_of b2 + 32 <= c).
Proof.
  intros Hb Hl Hin Hc. pose proof (allocs_range _ _ _ _ Hl Hin). unfold size_of in *. split; [lia|].
  intros b2 l' -> Hf. cbn [allocs] in Hin. rewrite Hf in Hin. cbn [app] in Hin.
  apply allocs_range in Hin; [unfold size_of in *; lia|by apply Forall_inv_tail in Hl].
Qed.

(** The second half of [kfree]: from the state where the freed block has been merged with its
    successor into the first block of [r]. *)
Lemma merge_previous h l1 b r u :
  heap_range h -> 0 < mapped_bytes h -> first_block h = HEAP_START -> initialized h = true ->
  chain (memory h) 0 HEAP_START (l1 ++ b :: r) 0 (heap_end h) ->
  coalesced l1 -> coalesced (b :: r) -> b_free b = true ->
  used_bytes h = u -> u = total_requested (l1 ++ b :: r) ->
  let a := HEAP_START + span l1 in
  exists h' l',
    (if previous h a =? 0 then Ok tt h else
     if negb (block_is_valid h (previous h a)) then Panic else
     if is_free h (previous h a) then merge_with_next (previous h a) h else Ok tt h) = Ok tt h' /\
    heap_inv h' l' /\ live l' = live (l1 ++ b :: r) /\
    preserved h h' (live (l1 ++ b :: r)) /\ is_free h' a = true.
Proof.
  intros Hr Hpos Hfirst Hinit Hc Hco1 Hco Hf Hus Hu a.
  pose proof (chain_size _ _ _ _ _ _ Hc) as Hall. apply Forall_app in Hall as [Hl1 Hbr].
  pose proof (proj2 (proj1 (chain_app _ _ _ _ _ _ _ _) Hc)) as Hb. fold a in Hb.
  destruct (proj1 (chain_cons _ _ _ _ _ _) Hb) as [(Hok & Hh & _) _].
  assert (previous h a = last_addr 0 HEAP_START l1) as -> by apply (proj1 Hh).
  assert (is_free h a = true) as Hfa by (rewrite (is_free_word h a _ _ _ _ b (proj1 Hh)); done).
  assert (free_last l1 = false -> exists h' l', Ok tt h = Ok tt h' /\ heap_inv h' l' /\
    live l' = live (l1 ++ b :: r) /\ preserved h h' (live (l1 ++ b :: r)) /\ is_free h' a = true) as Hstay.
  { intros Hfl. exists h, (l1 ++ b :: r). split; [done|]. split; [|split; [done|split; [by intros ? ? ? _ _|done]]].
    split; [done|done|unfold heap_range in *; lia| |congruence|done].
    apply coalesced_app. split; [done|]. split; [done|]. by rewrite Hfl. }
  destruct (decide (l1 = [])) as [->|Hne]; [by apply Hstay|].
  destruct (exists_last Hne) as (l0 & pb & ->). rewrite last_addr_snoc. rewrite <- app_assoc in Hc.
  apply Forall_app in Hl1 as [Hl0 Hpb%Forall_inv]. pose proof (span_length l0 Hl0).
  destruct (proj1 (chain_app _ _ _ _ _ _ _ _) Hc) as [Hpre Hp]. set (ap := HEAP_START + span l0) in *.
  assert (ap <> 0) by (subst ap; unfold HEAP_START; lia). replace (ap =? 0) with false by lia.
  assert (heap_end h <= HEAP_START + 16777216) as He by (unfold heap_end, heap_range in *; lia).
  destruct (chain_bounds _ _ _ _ _ _ _ Hp ltac:(subst ap; lia) He) as (_ & _ & _ & _ & Hpend).
  destruct (proj1 (chain_cons _ _ _ _ _ _) Hp) as [(Hokp & Hhp & _) _]. pose proof Hokp as (Hrp & _ & Hzp).
  rewrite (block_valid h ap _ _ _ _ _ Hr Hhp) by (subst ap; unfold size_of in *; lia). cbn [negb].
  rewrite (is_free_word h ap _ _ _ _ pb (proj1 Hhp)).
  destruct (b_free pb) eqn:Efp; [|apply Hstay; rewrite free_last_snoc; exact Efp].
  assert (a = ap + size_of pb) as Ha by (subst a ap; rewrite span_app; cbn; unfold size_of; lia).
  destruct (merge_spec h _ ap pb (b :: r) Hr Hp ltac:(subst ap; lia) Efp) as (m' & -> & Hch & Hfr).
  destruct (merge_list_facts pb (b :: r) Efp Hzp Hco Hbr) as (c & l' & Eml & _ & Hcml & Htr & Hal & _).
  exists (with_memory m' h), (l0 ++ merge_list pb (b :: r)). split; [done|].
  assert (live (l0 ++ merge_list pb (b :: r)) = live ((l0 ++ [pb]) ++ b :: r)) as Elive.
  { unfold live. rewrite <- app_assoc. cbn [app]. rewrite !allocs_app, Hal.
    change (allocs (HEAP_START + span l0) (pb :: b :: r)) with
      ((if b_free pb then [] else [(HEAP_START + span l0 + 32, b_req pb)]) ++
       allocs (HEAP_START + span l0 + size_of pb) (b :: r)). by rewrite Efp. }
  split; [|split; [done|split]].
  - apply coalesced_app in Hco1 as (Hco0 & _ & Hj). cbn in Hj. rewrite Efp, andb_true_r in Hj.
    split; cbn [memory first_block mapped_bytes used_bytes initialized with_memory]; try done.
    + rewrite Eml in Hch |- *. apply chain_app. split; [|exact Hch].
      eapply chain_agree; [|exact Hpre]. intros x Hx. apply Hfr; [lia|]. intros b2 l2 [= <- <-] _.
      pose proof (Forall_inv Hbr) as (? & _). unfold size_of in *. lia.
    + unfold heap_range in *. lia.
    + apply coalesced_app. split; [done|]. split; [done|]. by rewrite Hj.
    + rewrite Hus, Hu, !requested_app, Htr. cbn. lia.
  - intros p s x Hin Hx. unfold live in Hin. rewrite <- app_assoc, allocs_app, elem_of_app in Hin.
    cbn [memory with_memory]. fold ap in Hin. destruct Hin as [Hin|Hin].
    + apply allocs_range in Hin; [|done]. fold ap in Hin. apply Hfr; [lia|]. intros b2 l2 [= <- <-] _.
      pose proof (Forall_inv Hbr) as (? & _). unfold size_of in *. lia.
    + cbn [app allocs] in Hin. rewrite Efp in Hin. cbn [app] in Hin.
      destruct (merge_clear ap pb (b :: r) p s x ltac:(lia) Hbr Hin Hx). by apply Hfr.
  - unfold is_free, flags in *. cbn [memory with_memory].
    rewrite (load_agree (memory h) m' a (a + 32)); [done| |lia..]. intros x Hx.
    pose proof (Forall_inv Hbr) as (? & _). unfold size_of in *.
    apply Hfr; [lia|]. intros b2 l2 [= <- <-] _. lia.
Qed.

Lemma kfree_spec h l1 b l2 : heap_inv h (l1 ++ b :: l2) -> b_free b = false ->
  let A := live l1 ++ allocs (HEAP_START + span l1 + size_of b) l2 in
  exists h' l', kfree (HEAP_START + span l1 + 32) h = Ok tt h' /\ heap_inv h' l' /\
    live l' = A /\ preserved h h' A /\ is_free h' (HEAP_START + span l1) = true.
Proof.
  intros Hi Hf A. destruct (kfree_checks h l1 b l2 Hi Hf) as (Hg1 & Hg2 & Hreq).
  pose proof Hi as [Hc Hfirst Hmap Hco Hus Hin]. pose proof (inv_range _ _ Hi) as Hr.
  pose proof (inv_end _ _ Hi) as He. pose proof (inv_blocks _ _ Hi) as Hall.
  pose proof (inv_span _ _ Hi) as Hspan. rewrite span_app in Hspan. cbn [span] in Hspan.
  apply Forall_app in Hall as [Hl1 Hbl]. pose proof (Forall_inv_tail Hbl) as Hl2.
  pose proof (Forall_inv Hbl) as (Hrange & _ & Hrb). rewrite Hf in Hrb.
  pose proof (span_length l1 Hl1). pose proof (requested_bound l1 Hl1). pose proof (requested_bound l2 Hl2).
  destruct (proj1 (chain_app _ _ _ _ _ _ _ _) Hc) as [Hpre Hb].
  set (a := HEAP_START + span l1) in *. unfold kfree.
  replace (a + 32 =? 0) with false by (subst a; unfold HEAP_START; lia).
  rewrite Hg1. unfold sizeof_heap_block. replace (a + 32 - 32) with a by (clear; lia). rewrite Hg2, Hreq.
  clear Hg1 Hg2 Hreq.
  assert (used_bytes h = total_requested l1 + b_req b + total_requested l2) as Hus'
    by (rewrite Hus, requested_app; cbn; lia).
  rewrite (u32_id (used_bytes h - b_req b)) by (unfold is_u32, size_of in *; lia).
  destruct (mark_free_spec h _ a b l2 _ (used_bytes h - b_req b) Hb ltac:(lia) He Hf)
    as (m1 & Hm1 & Hch1 & Ho1). cbv zeta in Hm1. rewrite Hm1.
  set (h1 := with_used (used_bytes h - b_req b) (with_memory m1 h)).
  destruct (merge_spec h1 _ a (released b) l2 Hr Hch1 ltac:(lia) eq_refl) as (m2 & -> & Hch2 & Hfr). cbn [bind].
  apply coalesced_app in Hco as (Hco1 & [_ Hco2] & _).
  destruct (merge_list_facts (released b) l2 eq_refl eq_refl Hco2 Hl2)
    as (c & r & Eml & Hcge & Hcml & Htr & Hal & _). rewrite Eml in *. unfold size_of in *. cbn [b_cap released] in *.
  assert (chain m2 0 HEAP_START (l1 ++ Build_blk c 0 true :: r) 0 (heap_end h1)) as Hfull.
  { apply chain_app. split; [|exact Hch2]. eapply chain_agree; [|exact Hpre]. intros x Hx.
    rewrite Hfr; [apply Ho1; lia|lia|]. intros b2 l' El _. subst l2.
    pose proof (Forall_inv Hl2) as (? & _). unfold size_of. cbn. lia. }
  destruct (merge_previous (with_memory m2 h1) l1 (Build_blk c 0 true) r (used_bytes h - b_req b))
    as (h' & l' & Eh & Hi' & Hlive & Hpres & Hfree);
    [exact Hr|exact (proj1 Hmap)|exact Hfirst|exact Hin|exact Hfull|exact Hco1|exact Hcml|reflexivity|
     reflexivity|rewrite requested_app, Htr; lia|].
  - assert (live (l1 ++ Build_blk c 0 true :: r) = A) as EA
      by (subst A; unfold live; rewrite allocs_app; f_equal; apply Hal).
    exists h', l'. split; [exact Eh|]. split; [done|]. rewrite EA in Hlive, Hpres. split; [done|]. split; [|done].
    intros p s x Hin' Hx. rewrite (Hpres p s x Hin' Hx). cbn [memory with_memory].
    subst A. apply elem_of_app in Hin' as [Hin'|Hin'].
    + apply allocs_range in Hin'; [|done]. fold a in Hin'. rewrite Hfr; [apply Ho1; lia|lia|].
      intros b2 l2' El _. subst l2. pose proof (Forall_inv Hl2) as (? & _). unfold size_of. cbn. lia.
    + pose proof (allocs_range _ _ _ _ Hl2 Hin').
      destruct (merge_clear a (released b) l2 p s x ltac:(cbn; lia) Hl2 Hin' Hx) as [Hx1 Hx2].
      rewrite (Hfr x Hx1 Hx2). apply Ho1. lia.
Qed.

(** ** Initialisation *)

(** The static variables before [heap_init]. *)
Definition heap_static (e : E) : heap := Build_heap ∅ 0 0 0 false e.

Lemma heap_init_spec h ok h' : first_block h = 0 -> mapped_bytes h = 0 -> used_bytes h = 0 ->
  initialized h = false -> heap_init h = Ok ok h' ->
  if ok then heap_inv h' [Build_blk 4064 0 true]
  else first_block h' = 0 /\ mapped_bytes h' = 0 /\ used_bytes h' = 0 /\ initialized h' = false.
Proof.
  intros Hf Hm Hu Hi. unfold heap_init. rewrite Hi. unfold expand_heap. rewrite Hm.
  change ((PAGE_SIZE =? 0) || (HEAP_MAX_SIZE -32 0 <? PAGE_SIZE)) with false. cbv iota.
  change (((PAGE_SIZE +32 PAGE_SIZE) -32 1) / PAGE_SIZE) with 1. change (1 *32 PAGE_SIZE) with 4096.
  change (HEAP_MAX_SIZE -32 0 <? 4096) with false. cbv iota. change (Z.to_nat 1) with 1%nat.
  destruct (map_pages 1 0 0 h) as [okm h1] eqn:Em. apply map_pages_spec in Em as (m1 & e1 & -> & _); [|lia..].
  destruct okm; cbn [negb]; cbv iota; cbn [bind]; [|intros [= <- <-]; done].
  cbn [first_block same_but_env]. rewrite Hf. cbn [Z.eqb]. cbv zeta.
  cbn [first_block mapped_bytes used_bytes initialized memory Heap.env same_but_env]. rewrite Hm.
  set (h2 := Build_heap m1 HEAP_START (0 +32 4096) (used_bytes h) (initialized h) e1).
  change (4096 -32 sizeof_heap_block) with 4064.
  destruct (free_block_spec h2 HEAP_START 4064 0 0) as (m2 & -> & Hh2 & _); [unfold is_u32; lia..|].
  destruct (refresh_spec (with_memory m2 h2) HEAP_START _ _ _ _ _ Hh2) as (m3 & -> & Hh3 & _);
    [unfold is_u32, HEAP_START; lia|unfold is_u32; lia|unfold is_u32; lia|].
  cbn [bind]. intros [= <- <-]. split; cbn [memory first_block mapped_bytes used_bytes initialized]; try done.
Qed.

Lemma init_total e e1 e2 pa : env_alloc_block e = (pa, e1) -> pa <> 0 ->
  paging_map_page HEAP_START pa PAGE_FLAG_WRITABLE e1 = (true, e2) ->
  exists h, heap_init (heap_static e) = Ok true h.
Proof.
  intros Ea Hpa Em. unfold heap_init, expand_heap. cbn [initialized heap_static mapped_bytes].
  change ((PAGE_SIZE =? 0) || (HEAP_MAX_SIZE -32 0 <? PAGE_SIZE)) with false. cbv iota.
  change (((PAGE_SIZE +32 PAGE_SIZE) -32 1) / PAGE_SIZE) with 1. change (1 *32 PAGE_SIZE) with 4096.
  change (HEAP_MAX_SIZE -32 0 <? 4096) with false. cbv iota. change (Z.to_nat 1) with 1%nat.
  cbn [map_pages Heap.env heap_static]. rewrite Ea. replace (pa =? 0) with false by lia.
  change ((HEAP_START +32 0) +32 (0 *32 PAGE_SIZE)) with HEAP_START. rewrite Em. cbn [negb]. cbv iota.
  destruct (zero_page_spec HEAP_START (with_env e2 (heap_static e))) as (m' & -> & _).
  cbn [negb first_block with_memory with_env heap_static Z.eqb bind]. by eexists.
Qed.

(** ** Client writes *)

Lemma store_spec h l p s a v : heap_inv h l -> (p, s) ∈ live l -> p <= a < p + s ->
  heap_inv (store_byte a v h) l.
Proof.
  intros Hi Hin Ha. destruct (allocs_split _ _ _ _ Hin) as (l1 & b & l2 & -> & Hf & -> & ->).
  pose proof (inv_blocks _ _ Hi) as Hall. apply Forall_app in Hall as [Hl1 Hbl].
  pose proof (span_length l1 Hl1). pose proof (span_length l2 (Forall_inv_tail Hbl)).
  destruct Hi as [Hc Hfirst Hmap Hco Hus Hin']. split; try done. cbn [store_byte memory with_memory].
  assert (forall lo hi, hi <= a \/ a < lo -> agree (memory h) (<[a := u8 v]> (memory h)) lo hi) as Hag.
  { intros lo hi Hd c Hc'. rewrite byte_insert, decide_False by lia. done. }
  apply chain_app in Hc as [Hpre Hb]. apply chain_app. set (A := HEAP_START + span l1) in *.
  split; [eapply chain_agree; [|exact Hpre]; apply Hag; lia|].
  destruct (proj1 (chain_cons _ _ _ _ _ _) Hb) as [(Hok & Hh & Hcan) Hl]. pose proof Hok as (Hr & _ & Hq).
  rewrite Hf in Hq. apply chain_cons. unfold size_of in *. split.
  - split; [done|]. split; [apply (hdr_agree (memory h)); [apply Hag; lia|done]|].
    intros _. rewrite <- (Hcan Hf). apply (load_agree _ _ (A + 32 + b_req b) (A + 36 + b_req b)); [apply Hag; lia|lia..].
  - eapply chain_agree; [|exact Hl]. apply Hag. lia.
Qed.

Lemma fill_spec h l p s n : heap_inv h l -> (p, s) ∈ live l -> 0 <= n <= s ->
  let h' := for_loop 0 n (fun index => store_byte (p + index) 0) h in
  heap_inv h' l /\ (forall c, p <= c < p + n -> byte (memory h') c = 0) /\
  (forall c, c < p \/ p + n <= c -> byte (memory h') c = byte (memory h) c).
Proof.
  intros Hi Hin Hn. cbv zeta.
  apply (for_loop_inv (fun i h' => heap_inv h' l /\ (forall c, p <= c < p + i -> byte (memory h') c = 0) /\
    (forall c, c < p \/ p + i <= c -> byte (memory h') c = byte (memory h) c))); [lia| |].
  - split; [done|]. split; [intros c Hc; lia|done].
  - intros i h' Hr (Hi' & Hz & Ho). split; [by apply (store_spec h' l p s); [| |lia]|].
    cbn [store_byte memory with_memory]. split; intros c Hc; rewrite byte_insert; case_decide; try done;
      [apply Hz; lia|lia|apply Ho; lia].
Qed.

(** ** Overruns *)

Lemma overrun_load m b i v : 0 <= i < 4 -> u8 v <> byte m (b + i) ->
  load32 (<[b + i := u8 v]> m) b <> load32 m b.
Proof.
  intros Hi Hv. unfold load32. rewrite !byte_insert.
  assert (i = 0 \/ i = 1 \/ i = 2 \/ i = 3) as [-> | [-> | [-> | ->]]] by lia;
    rewrite ?Z.add_0_r in *; repeat (case_decide; try lia).
Qed.

End spec.
