(* ===== verification/HeapClient.v ===== *)
(** * What heap clients may rely on

    Properties of [kmalloc], [kcalloc] and [kfree], and the safety of every client that writes
    only inside its allocations and frees each of them once. *)

From S2P Require Import Prelude Heap HeapInv HeapSpec.
Local Open Scope c_scope.
Local Open Scope Z_scope.

(** ** Live allocations *)

Lemma allocs_order a l i j p s q t : Forall blk_ok l ->
  allocs a l !! i = Some (p, s) -> allocs a l !! j = Some (q, t) -> (i < j)%nat -> p + s + 36 <= q.
Proof.
  intros Hl. revert a i j. induction Hl as [|b l (Hc & _ & Hr) Hl IH]; intros a i j; cbn [allocs]; [done|].
  destruct (b_free b); cbn [app]; [apply IH|]. destruct i as [|i]; cbn.
  - intros [= <- <-] Hj Hij. destruct j as [|j]; [lia|]. cbn in Hj. apply list_elem_of_lookup_2 in Hj.
    pose proof (allocs_range _ _ _ _ Hl Hj). unfold size_of in *. lia.
  - destruct j as [|j]; [lia|]. cbn. intros Hi Hj Hij. apply (IH (a + size_of b) i j); (done || lia).
Qed.

Lemma allocs_disjoint a l p s q t : Forall blk_ok l -> (p, s) ∈ allocs a l -> (q, t) ∈ allocs a l ->
  (p = q /\ s = t) \/ p + s <= q \/ q + t <= p.
Proof.
  intros Hl [i Hi]%list_elem_of_lookup [j Hj]%list_elem_of_lookup.
  destruct (lt_eq_lt_dec i j) as [[Hlt|<-]|Hgt].
  - pose proof (allocs_order _ _ _ _ _ _ _ _ Hl Hi Hj Hlt). lia.
  - rewrite Hi in Hj. injection Hj as <- <-. by left.
  - pose proof (allocs_order _ _ _ _ _ _ _ _ Hl Hj Hi Hgt). lia.
Qed.

Lemma allocs_NoDup a l : Forall blk_ok l -> NoDup (allocs a l).*1.
Proof.
  intros Hl. apply NoDup_alt. intros i j p Hi Hj. rewrite list_lookup_fmap in Hi, Hj.
  apply fmap_Some in Hi as ([q s] & Hi & ->). apply fmap_Some in Hj as ([q' t] & Hj & Heq).
  simpl in Heq. subst q'.
  pose proof (allocs_range _ _ _ _ Hl (list_elem_of_lookup_2 _ _ _ Hi)).
  pose proof (allocs_range _ _ _ _ Hl (list_elem_of_lookup_2 _ _ _ Hj)).
  destruct (lt_eq_lt_dec i j) as [[Hlt|Heq]|Hgt]; [|done|].
  - pose proof (allocs_order _ _ _ _ _ _ _ _ Hl Hi Hj Hlt). lia.
  - pose proof (allocs_order _ _ _ _ _ _ _ _ Hl Hj Hi Hgt). lia.
Qed.

Lemma allocs_aligned l p s : Forall blk_ok l -> (p, s) ∈ live l -> p mod 16 = 0.
Proof.
  intros Hl Hin. destruct (allocs_split _ _ _ _ Hin) as (l1 & b & l2 & -> & _ & -> & _).
  apply Forall_app in Hl as [Hl1 _]. pose proof (blocks_aligned l1 Hl1). dmlia.
Qed.

(** One allocation among the others. *)
Lemma fresh_disjoint l A1 A2 p s q t : Forall blk_ok l -> live l = A1 ++ (p, s) :: A2 ->
  (q, t) ∈ A1 ++ A2 -> p + s <= q \/ q + t <= p.
Proof.
  intros Hok EA Hq. pose proof (allocs_NoDup HEAP_START l Hok) as Hnd. fold (live l) in Hnd.
  rewrite EA, fmap_app in Hnd. apply list.NoDup_app in Hnd as (_ & Hd & Hnd2). cbn in Hd, Hnd2.
  destruct (allocs_disjoint HEAP_START l p s q t Hok) as [[<- <-]|Hdis].
  - fold (live l). rewrite EA. apply elem_of_app. right. apply elem_of_cons. by left.
  - fold (live l). rewrite EA. apply elem_of_app in Hq. apply elem_of_app. rewrite elem_of_cons. intuition.
  - exfalso. apply elem_of_app in Hq as [Hq|Hq]; apply (list_elem_of_fmap_2 fst) in Hq; cbn in Hq.
    + apply (Hd p Hq). apply elem_of_cons. by left.
    + by apply NoDup_cons_1_1 in Hnd2.
  - done.
Qed.

Section client.
Context {E : Type} `{PageSource E}.
Implicit Types h : heap (E := E).

Lemma kcalloc_cases h l count size : heap_inv h l -> is_u32 count -> is_u32 size ->
  exists p h' l', kcalloc count size h = Ok p h' /\ heap_inv h' l' /\ preserved h h' (live l) /\
    (p = 0 /\ live l' = live l \/
     count * size < 4294967296 /\ alloc_result h l (count * size) p l' /\ HEAP_START < p /\
     (forall c, p <= c < p + count * size -> byte (memory h') c = 0)).
Proof.
  intros Hi Hn Hs. unfold kcalloc.
  destruct (negb (count =? 0) && (4294967295 / count <? size)) eqn:Eg.
  { exists 0, h, l. split; [done|]. split; [done|]. split; [by intros ? ? ? _ _|]. by left. }
  assert (0 <= count * size < 4294967296) as Hprod.
  { unfold is_u32 in *. destruct (decide (count = 0)) as [->|Hne]; [lia|].
    replace (negb (count =? 0)) with true in Eg by lia. simpl in Eg.
    assert (size <= 4294967295 / count) as Hle by lia.
    pose proof (Z.mul_div_le 4294967295 count ltac:(lia)). nia. }
  rewrite (u32_id (count * size)) by done.
  destruct (kmalloc_spec h l (count * size) Hi Hprod) as (p & h1 & l1 & -> & Hi1 & Hp1 & Hres).
  cbn [bind]. destruct (Z.eqb_spec p 0) as [->|Hp].
  { exists 0, h1, l1. split; [done|]. split; [done|]. split; [done|]. left. split; [done|].
    destruct Hres as [(_ & ? & _)|(? & _)]; [done|unfold HEAP_START in *; lia]. }
  pose proof Hres as Hres'. destruct Hres' as [(? & _)|(Hpos & _ & A1 & A2 & EA & EA')]; [done|].
  assert ((p, count * size) ∈ live l1) as Hin by (rewrite EA'; apply elem_of_app; right; apply elem_of_cons; by left).
  destruct (fill_spec h1 l1 p (count * size) (count * size) Hi1 Hin ltac:(lia)) as (Hi2 & Hz & Ho).
  eexists p, _, l1. split; [done|]. split; [done|]. split; [|right; split; [lia|done]].
  intros q t c Hq Hc. rewrite Ho; [by apply (Hp1 q t)|].
  rewrite EA in Hq. pose proof (fresh_disjoint l1 A1 A2 _ _ q t (inv_blocks _ _ Hi1) EA' Hq). lia.
Qed.

(** ** Well-behaved clients *)

Definition total (A : list (Z * Z)) : Z := foldr (fun a n => snd a + n) 0 A.

#[global] Instance total_proper : Proper (Permutation ==> eq) total.
Proof. intros A B Hp. induction Hp; simpl; lia. Qed.

Lemma total_app A B : total (A ++ B) = total A + total B.
Proof. induction A as [|a A IH]; simpl; [done|]. rewrite IH. lia. Qed.

Lemma total_live a l : Forall blk_ok l -> total (allocs a l) = total_requested l.
Proof.
  intros Hl. revert a. induction Hl as [|b l (_ & _ & Hr) _ IH]; intros a; [done|].
  cbn [allocs total_requested]. rewrite total_app, IH. destruct (b_free b); cbn; lia.
Qed.

(** The heap with the allocations [A] a client holds: it allocates, frees what it holds, and
    writes inside what it holds. *)
Inductive client : heap (E := E) -> list (Z * Z) -> Prop :=
  | client_init e h : heap_init (heap_static e) = Ok true h -> client h []
  | client_malloc h A size p h' : client h A -> is_u32 size -> kmalloc size h = Ok p h' ->
      client h' (if p =? 0 then A else (p, size) :: A)
  | client_calloc h A count size p h' : client h A -> is_u32 count -> is_u32 size ->
      kcalloc count size h = Ok p h' ->
      client h' (if p =? 0 then A else (p, count * size) :: A)
  | client_free h A A' p s h' : client h A -> Permutation A ((p, s) :: A') ->
      kfree p h = Ok tt h' -> client h' A'
  | client_store h A p s a v : client h A -> (p, s) ∈ A -> p <= a < p + s ->
      client (store_byte a v h) A.

Lemma alloc_perm h l size p l' A : alloc_result h l size p l' -> Permutation (live l) A ->
  Permutation (live l') (if p =? 0 then A else (p, size) :: A).
Proof.
  intros [(-> & -> & _)|(Hp & _ & A1 & A2 & E1 & ->)] HA; [done|].
  replace (p =? 0) with false by (unfold HEAP_START in Hp; lia). rewrite <- HA, E1.
  symmetry. apply Permutation_middle.
Qed.

Lemma live_split h l p s A' : heap_inv h l -> Permutation (live l) ((p, s) :: A') ->
  exists l1 b l2, l = l1 ++ b :: l2 /\ b_free b = false /\ p = HEAP_START + span l1 + 32 /\
    s = b_req b /\ Permutation A' (live l1 ++ allocs (HEAP_START + span l1 + size_of b) l2).
Proof.
  intros Hi HA. assert ((p, s) ∈ live l) as Hin by (rewrite HA; apply elem_of_cons; by left).
  destruct (allocs_split _ _ _ _ Hin) as (l1 & b & l2 & -> & Hf & -> & ->). exists l1, b, l2.
  repeat (split; [done|]). unfold live in HA. rewrite allocs_app in HA. cbn [allocs] in HA. rewrite Hf in HA.
  apply (Permutation_cons_inv (a := (HEAP_START + span l1 + 32, b_req b))). rewrite <- HA.
  symmetry. apply Permutation_middle.
Qed.

Lemma client_inv h A : client h A -> exists l, heap_inv h l /\ Permutation (live l) A.
Proof.
  induction 1 as [e h Ei|h A size p h' _ (l & Hi & HA) Hsz Ek|h A count size p h' _ (l & Hi & HA) Hc Hsz Ek
    |h A A' p s h' _ (l & Hi & HA) Hp Ek|h A p s a v _ (l & Hi & HA) Hin Ha].
  - apply heap_init_spec in Ei; [|done..]. by eexists.
  - destruct (kmalloc_spec h l size Hi Hsz) as (p1 & h1 & l1 & Ek1 & Hi1 & _ & Hr). rewrite Ek in Ek1.
    injection Ek1 as <- <-. exists l1. split; [done|]. by eapply alloc_perm.
  - destruct (kcalloc_cases h l count size Hi Hc Hsz) as (p1 & h1 & l1 & Ek1 & Hi1 & _ & Hr). rewrite Ek in Ek1.
    injection Ek1 as <- <-. exists l1. split; [done|].
    destruct Hr as [[-> ->]|(_ & Hr & _)]; [done|by eapply alloc_perm].
  - rewrite Hp in HA. destruct (live_split h l p s A' Hi HA) as (l1 & b & l2 & -> & Hf & -> & _ & HA').
    destruct (kfree_spec h l1 b l2 Hi Hf) as (h1 & l' & Ek1 & Hi1 & Hl' & _). rewrite Ek in Ek1.
    injection Ek1 as <-. exists l'. split; [done|]. by rewrite Hl', HA'.
  - exists l. split; [|done]. apply (store_spec h l p s); [done|by rewrite HA|done].
Qed.

(** The call comes back: no panic, no endless search. *)
Definition returns {A : Type} (r : result (E := E) A) : Prop := exists a h, r = Ok a h.

End client.

(** ** Properties *)

(** C5: every client is safe. Whatever a client does with [kmalloc], [kcalloc], [kfree] of what
    it holds and writes inside what it holds, from a successful [heap_init] on: its allocations
    are 16-byte aligned, inside the mapped heap and pairwise disjoint, [heap_used_bytes] is the
    sum of their sizes, and the next allocation or release returns instead of panicking or
    looping. *)
Theorem heap_client_safe {E} `{PageSource E} (h : heap (E := E)) A : client h A ->
  (forall p s, (p, s) ∈ A -> p mod 16 = 0 /\ HEAP_START + 32 <= p /\ 0 < s /\
     p + s <= HEAP_START + heap_mapped_bytes h /\ returns (kfree p h)) /\
  (forall p s q t, (p, s) ∈ A -> (q, t) ∈ A -> p = q /\ s = t \/ p + s <= q \/ q + t <= p) /\
  NoDup A.*1 /\ heap_used_bytes h = total A /\
  (forall size, is_u32 size -> returns (kmalloc size h)).
Proof.
  intros Hc. destruct (client_inv h A Hc) as (l & Hi & HA). pose proof (inv_blocks _ _ Hi) as Hok.
  pose proof (inv_span _ _ Hi) as Hspan. split; [|split; [|split; [|split]]].
  - intros p s Hin. rewrite <- HA in Hin. pose proof (allocs_range _ _ _ _ Hok Hin).
    split; [by eapply allocs_aligned|]. split; [lia|]. split; [lia|]. unfold heap_mapped_bytes. split; [lia|].
    destruct (allocs_split _ _ _ _ Hin) as (l1 & b & l2 & -> & Hf & -> & _).
    destruct (kfree_spec h l1 b l2 Hi Hf) as (h' & l' & Ek & _). by exists tt, h'.
  - intros p s q t Hp Hq. rewrite <- HA in Hp, Hq. by eapply allocs_disjoint.
  - rewrite <- HA. by apply allocs_NoDup.
  - unfold heap_used_bytes. rewrite <- HA, (hi_used _ _ Hi). symmetry. by apply total_live.
  - intros size Hs. destruct (kmalloc_spec h l size Hi Hs) as (p & h' & _ & Ek & _). by exists p, h'.
Qed.

(** C16: [kmalloc] on a well-formed heap returns; the heap stays well-formed and no live byte
    changes. A null result means a size of zero or beyond the limit, or that no free block fits
    and the heap could not grow. Otherwise the pointer is aligned, the new allocation is added
    to the live ones and overlaps none of them. *)
Theorem kmalloc_correct {E} `{PageSource E} (h : heap (E := E)) l size :
  heap_inv h l -> is_u32 size ->
  exists p h' l', kmalloc size h = Ok p h' /\ heap_inv h' l' /\ preserved h h' (live l) /\
    alloc_result h l size p l' /\
    (p <> 0 -> forall q t, (q, t) ∈ live l -> p + size <= q \/ q + t <= p).
Proof.
  intros Hi Hs. destruct (kmalloc_spec h l size Hi Hs) as (p & h' & l' & Ek & Hi' & Hp & Hr).
  exists p, h', l'. repeat (split; [done|]). intros Hne q t Hq.
  destruct Hr as [(? & _)|(_ & _ & A1 & A2 & E1 & E2)]; [done|].
  rewrite E1 in Hq. by apply (fresh_disjoint l' A1 A2); [apply (inv_blocks _ _ Hi')| |].
Qed.

(** C17: [kfree] of a live allocation returns, removes exactly that allocation from the live ones
    and changes no byte of the others; the heap stays well-formed, with no two adjacent free
    blocks. *)
Theorem kfree_correct {E} `{PageSource E} (h : heap (E := E)) l p s :
  heap_inv h l -> (p, s) ∈ live l ->
  exists h' l' A1 A2, kfree p h = Ok tt h' /\ heap_inv h' l' /\ coalesced l' /\
    live l = A1 ++ (p, s) :: A2 /\ live l' = A1 ++ A2 /\ preserved h h' (A1 ++ A2).
Proof.
  intros Hi Hin. destruct (allocs_split _ _ _ _ Hin) as (l1 & b & l2 & -> & Hf & -> & ->).
  destruct (kfree_spec h l1 b l2 Hi Hf) as (h' & l' & Ek & Hi' & Hl' & Hp & _).
  eexists h', l', _, _. split; [exact Ek|]. split; [done|]. split; [apply Hi'|]. split; [|by split].
  unfold live. rewrite allocs_app. cbn [allocs]. by rewrite Hf.
Qed.

(** [kcalloc] refuses a product that overflows 32 bits; when it returns a block, every byte
    of it is zero. *)
Theorem kcalloc_zeroed {E} `{PageSource E} (h : heap (E := E)) l count size :
  heap_inv h l -> is_u32 count -> is_u32 size ->
  exists p h' l', kcalloc count size h = Ok p h' /\ heap_inv h' l' /\ preserved h h' (live l) /\
    (4294967296 <= count * size -> p = 0) /\
    (p = 0 /\ live l' = live l \/
     alloc_result h l (count * size) p l' /\
     (forall c, p <= c < p + count * size -> byte (memory h') c = 0)).
Proof.
  intros Hi Hc Hs. destruct (kcalloc_cases h l count size Hi Hc Hs) as (p & h' & l' & Ek & Hi' & Hp & Hr).
  exists p, h', l'. repeat (split; [done|]). destruct Hr as [[-> Hl]|(Hlt & Hr & Hpos & Hz)].
  - split; [done|]. by left.
  - split; [lia|]. by right.
Qed.

(** Misuse is caught. Freeing an allocation after a write has changed any of the four bytes
    behind it panics, and so does freeing the same pointer twice in a row. *)
Theorem heap_misuse_detected {E} `{PageSource E} (h : heap (E := E)) l p s :
  heap_inv h l -> (p, s) ∈ live l ->
  (forall i v, 0 <= i < 4 -> u8 v <> byte (memory h) (p + s + i) ->
     kfree p (store_byte (p + s + i) v h) = Panic) /\
  (exists h', kfree p h = Ok tt h' /\ kfree p h' = Panic).
Proof.
  intros Hi Hin. destruct (allocs_split _ _ _ _ Hin) as (l1 & b & l2 & -> & Hf & -> & ->).
  set (a := HEAP_START + span l1). pose proof (inv_blocks _ _ Hi) as Hall.
  apply Forall_app in Hall as [Hl1 _]. pose proof (span_length l1 Hl1).
  assert ((a + 32 =? 0) = false) as Hnz by (subst a; unfold HEAP_START; lia). split.
  - intros i v Hiv Hv. unfold kfree. rewrite Hnz. destruct (_ || _ || _); [done|].
    replace (a + 32 - sizeof_heap_block) with a by (unfold sizeof_heap_block; lia).
    replace (negb (canary_is_valid _ a)) with true; [by rewrite orb_true_r|]. symmetry. apply negb_true_iff.
    pose proof (proj2 (proj1 (chain_app _ _ _ _ _ _ _ _) (hi_chain _ _ Hi))) as Hb. fold a in Hb.
    destruct (proj1 (chain_cons _ _ _ _ _ _) Hb) as [((_ & _ & Hq) & Hh & Hcan) _]. rewrite Hf in Hq.
    unfold canary_is_valid, block_canary, requested, cookie, sizeof_heap_block. cbn [memory store_byte with_memory].
    assert (agree (memory h) (<[a + 32 + b_req b + i := u8 v]> (memory h)) a (a + 32)) as Hag.
    { intros c Hc. rewrite byte_insert, decide_False by lia. done. }
    rewrite (load_agree (memory h) _ a (a + 32) (a + 8) Hag), (load_agree (memory h) _ a (a + 32) (a + 12) Hag)
      by lia. pose proof Hh as [(_ & _ & -> & _) ->].
    rewrite <- (Hcan Hf). apply Z.eqb_neq. by apply overrun_load.
  - destruct (kfree_spec h l1 b l2 Hi Hf) as (h' & l' & Ek & _ & _ & _ & Hfree). exists h'. split; [exact Ek|].
    unfold kfree. fold a. rewrite Hnz. destruct (_ || _ || _); [done|].
    replace (a + 32 - sizeof_heap_block) with a by (unfold sizeof_heap_block; lia).
    fold a in Hfree. by rewrite Hfree, orb_true_r.
Qed.

(** ** Witnesses *)

(** Pages without end. *)
#[local] Instance plenty : PageSource unit := {
  env_alloc_block _ := (4096, tt);
  env_free_block _ _ := tt;
  paging_map_page _ _ _ _ := (true, tt);
  paging_unmap_page _ _ := (4096, tt)
}.

Lemma plenty_init : exists h : heap (E := unit), heap_init (heap_static tt) = Ok true h.
Proof. by apply (init_total tt tt tt 4096). Qed.

Lemma plenty_inv (h : heap (E := unit)) : heap_init (heap_static tt) = Ok true h ->
  heap_inv h [Build_blk 4064 0 true].
Proof. intros Ei. by apply heap_init_spec in Ei. Qed.

(** A heap holding one allocation of 31 bytes. *)
Lemma plenty_alloc : exists (h : heap (E := unit)) l p, client h [(p, 31)] /\ heap_inv h l /\ live l = [(p, 31)].
Proof.
  destruct plenty_init as [h0 Ei]. pose proof (plenty_inv h0 Ei) as Hi0.
  destruct (kmalloc_spec h0 _ 31 Hi0 ltac:(unfold is_u32; lia)) as (p & h & l & Ek & Hi & _ & Hr).
  destruct Hr as [(_ & _ & [?|[?|[Hno _]]])|(Hp & _ & A1 & A2 & E1 & E2)]; [lia|lia| |].
  { apply Forall_inv in Hno. vm_compute in Hno. discriminate Hno. }
  destruct A1, A2; try discriminate E1. cbn in E2. exists h, l, p. split; [|split; [exact Hi|exact E2]].
  pose proof (client_malloc h0 [] 31 p h (client_init tt h0 Ei) ltac:(unfold is_u32; lia) Ek) as Hc.
  replace (p =? 0) with false in Hc by (unfold HEAP_START in Hp; lia). exact Hc.
Qed.

Lemma heap_client_safe_witness : exists (h : heap (E := unit)) p, client h [(p, 31)] /\
  p mod 16 = 0 /\ heap_used_bytes h = 31 /\ returns (kfree p h).
Proof.
  destruct plenty_alloc as (h & l & p & Hc & _ & _). exists h, p. split; [exact Hc|].
  destruct (heap_client_safe h [(p, 31)] Hc) as (H1 & _ & _ & H4 & _).
  destruct (H1 p 31) as (Ha & _ & _ & _ & Hk); [apply elem_of_cons; left; reflexivity|].
  split; [exact Ha|]. split; [exact H4|exact Hk].
Defined.

Lemma kmalloc_correct_witness : exists (h h' : heap (E := unit)) l l' p, heap_inv h l /\
  kmalloc 100 h = Ok p h' /\ heap_inv h' l'.
Proof.
  destruct plenty_init as [h0 Ei].
  destruct (kmalloc_correct h0 [Build_blk 4064 0 true] 100 (plenty_inv h0 Ei) ltac:(unfold is_u32; lia))
    as (p & h' & l' & Ek & Hi' & _).
  exists h0, h', [Build_blk 4064 0 true], l', p. split; [exact (plenty_inv h0 Ei)|]. split; [exact Ek|exact Hi'].
Defined.

Lemma kfree_correct_witness : exists (h h' : heap (E := unit)) p l', kfree p h = Ok tt h' /\
  heap_inv h' l' /\ live l' = [].
Proof.
  destruct plenty_alloc as (h & l & p & _ & Hi & Hl).
  destruct (kfree_correct h l p 31 Hi) as (h' & l' & A1 & A2 & Ek & Hi' & _ & E1 & E2 & _).
  - rewrite Hl. apply elem_of_cons. left. reflexivity.
  - exists h, h', p, l'. split; [exact Ek|]. split; [exact Hi'|]. rewrite Hl in E1.
    destruct A1 as [|? A1]; [destruct A2; [exact E2|discriminate E1]|destruct A1; discriminate E1].
Defined.

Lemma kcalloc_zeroed_witness : exists (h h' : heap (E := unit)), kcalloc 65536 65536 h = Ok 0 h'.
Proof.
  destruct plenty_init as [h0 Ei].
  destruct (kcalloc_zeroed h0 [Build_blk 4064 0 true] 65536 65536 (plenty_inv h0 Ei))
    as (p & h' & l' & Ek & _ & _ & Hov & _); [unfold is_u32; lia|unfold is_u32; lia|].
  rewrite (Hov ltac:(lia)) in Ek. exists h0, h'. exact Ek.
Defined.

Lemma heap_misuse_detected_witness : exists (h h' : heap (E := unit)) p, kfree p h = Ok tt h' /\
  kfree p h' = Panic.
Proof.
  destruct plenty_alloc as (h & l & p & _ & Hi & Hl).
  destruct (heap_misuse_detected h l p 31 Hi) as (_ & h' & E1 & E2).
  - rewrite Hl. apply elem_of_cons. left. reflexivity.
  - exists h, h', p. split; [exact E1|exact E2].
Defined.

(** The boot-time self test on such a machine. *)
Lemma plenty_self_test :
  match bind (heap_init (heap_static tt)) (fun _ h => heap_self_test h) with
  | Ok ok h => ok = true /\ heap_mapped_bytes h = 16384 /\ heap_used_bytes h = 0
  | _ => False
  end.
Proof. vm_compute. auto. Qed.
