(* ===== verification/Ipc.v ===== *)
(** * Inter-process message queue

    [kernel/ipc.c]: a ring of sixteen messages shared by all tasks, and the specification it
    implements, a first-in first-out list from which a receiver takes the first message
    addressed to it. The code masks interrupts around every access, so each call is one
    atomic step. The wake-ups a send asks of the scheduler are values of the result. *)

From S2P Require Import Prelude.
Local Open Scope c_scope.
Local Open Scope Z_scope.

(** ** Data *)

Definition IPC_QUEUE_CAPACITY : Z := 16.
Definition IPC_MESSAGE_MAX : Z := 64.

Record ipc_message := {
  sender_id : Z;
  receiver_id : Z;
  msg_type : Z;
  msg_length : Z;
  msg_data : list Z
}.

Record ipc := {
  queue : list ipc_message;
  head : Z;
  tail : Z;
  count : Z
}.

(** What a successful send asks of the scheduler: [scheduler_wake_task_id] or
    [scheduler_wake_user_tasks]. *)
Inductive wake := WakeTask (id : Z) | WakeUserTasks.

Definition zero_message : ipc_message := Build_ipc_message 0 0 0 0 (replicate 64 0).

Definition message_at (q : list ipc_message) (position : Z) : ipc_message :=
  nth (Z.to_nat position) q zero_message.

Definition set_message (q : list ipc_message) (position : Z) (m : ipc_message)
    : list ipc_message := <[Z.to_nat position := m]> q.

(** The static variables before [ipc_init]. *)
Definition ipc_static : ipc := Build_ipc (replicate 16 zero_message) 0 0 0.

(** ** Operations *)

Definition ipc_init (s : ipc) : ipc := Build_ipc (queue s) 0 0 0.

(** [data] is [None] for a null pointer. Bytes past [length] keep what the slot held. *)
Definition ipc_send_from_to (sender receiver type : Z) (data : option (list Z)) (length : Z)
    (s : ipc) : bool * option wake * ipc :=
  if (IPC_MESSAGE_MAX <? length) ||
     (negb (length =? 0) && match data with None => true | Some _ => false end)
  then (false, None, s) else
  if IPC_QUEUE_CAPACITY <=? count s then (false, None, s) else
  let slot := message_at (queue s) (head s) in
  let bytes := copy_loop length (default [] data) (msg_data slot) in
  let m := Build_ipc_message sender receiver type length bytes in
  let s := Build_ipc (set_message (queue s) (head s) m)
             ((head s +32 1) mod IPC_QUEUE_CAPACITY) (tail s) (count s +32 1) in
  (true, Some (if negb (receiver =? 0) then WakeTask receiver else WakeUserTasks), s).

Definition ipc_send (type : Z) (data : option (list Z)) (length : Z) (s : ipc)
    : bool * option wake * ipc := ipc_send_from_to 0 0 type data length s.

Definition message_matches (m : ipc_message) (receiver : Z) : bool :=
  (receiver =? 0) || (receiver_id m =? 0) || (receiver_id m =? receiver).

Definition copy_message (destination source : Z) (q : list ipc_message) : list ipc_message :=
  let from := message_at q source in
  let to := message_at q destination in
  set_message q destination
    (Build_ipc_message (sender_id from) (receiver_id from) (msg_type from) (msg_length from)
       (copy_loop IPC_MESSAGE_MAX (msg_data from) (msg_data to))).

(** The loop that closes the gap below a removed interior message. *)
Fixpoint shift_up (offset : nat) (position : Z) (q : list ipc_message) : list ipc_message :=
  match offset with
  | O => q
  | S offset =>
      let previous := ((position +32 IPC_QUEUE_CAPACITY) -32 1) mod IPC_QUEUE_CAPACITY in
      shift_up offset previous (copy_message position previous q)
  end.

(** The caller's out-parameters: [None] is a null pointer, [Some] the pointed-to value. *)
Record receive_out := {
  out_type : option Z;
  out_length : option Z;
  out_data : option (list Z)
}.

Definition slot_of (s : ipc) (offset : Z) : Z := (tail s +32 offset) mod IPC_QUEUE_CAPACITY.

Definition ipc_receive_for (receiver capacity : Z) (out : receive_out) (s : ipc)
    : bool * receive_out * ipc :=
  match find_first 0 (count s)
          (fun offset => message_matches (message_at (queue s) (slot_of s offset)) receiver) with
  | None => (false, out, s)
  | Some offset =>
      let position := slot_of s offset in
      let m := message_at (queue s) position in
      let message_length := msg_length m in
      if (capacity <? message_length) ||
         (negb (message_length =? 0) && match out_data out with None => true | _ => false end)
      then (false, out, s) else
      let out := Build_receive_out
        (match out_type out with None => None | Some _ => Some (msg_type m) end)
        (match out_length out with None => None | Some _ => Some message_length end)
        (match out_data out with
         | None => None
         | Some d => Some (copy_loop message_length (msg_data m) d)
         end) in
      (true, out,
       Build_ipc (shift_up (Z.to_nat offset) position (queue s)) (head s)
         ((tail s +32 1) mod IPC_QUEUE_CAPACITY) (count s -32 1))
  end.

Definition ipc_receive (capacity : Z) (out : receive_out) (s : ipc)
    : bool * receive_out * ipc := ipc_receive_for 0 capacity out s.

Definition ipc_pending (s : ipc) : Z := count s.

Definition ipc_pending_for (receiver : Z) (s : ipc) : Z :=
  for_loop 0 (count s)
    (fun offset pending =>
       if message_matches (message_at (queue s) (slot_of s offset)) receiver
       then pending +32 1 else pending) 0.

(** Removing the message at [offset] by moving every later one down. *)
Definition purge_at (offset : Z) (s : ipc) : ipc :=
  let q := for_loop offset (count s -32 1)
    (fun shift q => copy_message (slot_of s shift)
       (((tail s +32 shift) +32 1) mod IPC_QUEUE_CAPACITY) q) (queue s) in
  let count' := count s -32 1 in
  Build_ipc q ((tail s +32 count') mod IPC_QUEUE_CAPACITY) (tail s) count'.

(** The purge loop: every iteration advances [offset] or removes a message, so [count]
    iterations are enough. *)
Fixpoint purge_loop (fuel : nat) (field : ipc_message -> Z) (id offset removed : Z) (s : ipc)
    : Z * ipc :=
  match fuel with
  | O => (removed, s)
  | S fuel =>
      if negb (offset <? count s) then (removed, s) else
      if negb (field (message_at (queue s) (slot_of s offset)) =? id)
      then purge_loop fuel field id (offset +32 1) removed s
      else purge_loop fuel field id offset (removed +32 1) (purge_at offset s)
  end.

Definition ipc_purge_receiver (receiver : Z) (s : ipc) : Z * ipc :=
  if receiver =? 0 then (0, s) else
  purge_loop (Z.to_nat (count s)) receiver_id receiver 0 0 s.

Definition ipc_purge_field (task_id : Z) (match_sender : bool) (s : ipc) : Z * ipc :=
  if task_id =? 0 then (0, s) else
  purge_loop (Z.to_nat (count s)) (if match_sender then sender_id else receiver_id) task_id 0 0 s.

Definition ipc_purge_sender (sender : Z) (s : ipc) : Z * ipc := ipc_purge_field sender true s.

(** ** Specification: a list of messages in arrival order *)

Record message := {
  m_sender : Z;
  m_receiver : Z;
  m_type : Z;
  m_payload : list Z
}.

Definition view (m : ipc_message) : message :=
  Build_message (sender_id m) (receiver_id m) (msg_type m)
    (take (Z.to_nat (msg_length m)) (msg_data m)).

(** The queue's messages, oldest first. *)
Definition contents (s : ipc) : list message :=
  map (fun k => view (message_at (queue s) (slot_of s k))) (seqZ 0 (count s)).

Inductive ipc_op :=
  | IpcInit
  | IpcSend (sender receiver type : Z) (data : option (list Z)) (length : Z)
  | IpcReceive (receiver capacity : Z) (out : receive_out)
  | IpcPending
  | IpcPendingFor (receiver : Z)
  | IpcPurgeReceiver (receiver : Z)
  | IpcPurgeSender (sender : Z).

Inductive ipc_ret :=
  | RetUnit
  | RetSend (ok : bool) (w : option wake)
  | RetReceive (ok : bool) (out : receive_out)
  | RetCount (n : Z).

Definition ipc_exec (op : ipc_op) (s : ipc) : ipc_ret * ipc :=
  match op with
  | IpcInit => (RetUnit, ipc_init s)
  | IpcSend sender receiver type data length =>
      let '(ok, w, s) := ipc_send_from_to sender receiver type data length s in (RetSend ok w, s)
  | IpcReceive receiver capacity out =>
      let '(ok, out, s) := ipc_receive_for receiver capacity out s in (RetReceive ok out, s)
  | IpcPending => (RetCount (ipc_pending s), s)
  | IpcPendingFor receiver => (RetCount (ipc_pending_for receiver s), s)
  | IpcPurgeReceiver receiver => let '(n, s) := ipc_purge_receiver receiver s in (RetCount n, s)
  | IpcPurgeSender sender => let '(n, s) := ipc_purge_sender sender s in (RetCount n, s)
  end.

Definition addressed_to (receiver : Z) (m : message) : bool :=
  (receiver =? 0) || (m_receiver m =? 0) || (m_receiver m =? receiver).

(** Storing a received message through the caller's pointers. *)
Definition deliver (m : message) (out : receive_out) : receive_out :=
  let n := length (m_payload m) in
  Build_receive_out ((fun _ => m_type m) <$> out_type out)
    ((fun _ => Z.of_nat n) <$> out_length out)
    ((fun d => m_payload m ++ drop n d) <$> out_data out).

Definition purge (drop_it : message -> bool) (q : list message) : Z * list message :=
  (Z.of_nat (length (List.filter drop_it q)), List.filter (fun m => negb (drop_it m)) q).

Definition fifo_exec (op : ipc_op) (q : list message) : ipc_ret * list message :=
  match op with
  | IpcInit => (RetUnit, [])
  | IpcSend sender receiver type data len =>
      if (len <=? 64) && ((len =? 0) || bool_decide (is_Some data)) &&
         (Z.of_nat (length q) <? 16)
      then (RetSend true (Some (if receiver =? 0 then WakeUserTasks else WakeTask receiver)),
            q ++ [Build_message sender receiver type (take (Z.to_nat len) (default [] data))])
      else (RetSend false None, q)
  | IpcReceive receiver capacity out =>
      match take_first (addressed_to receiver) q with
      | Some (m, rest) =>
          if (Z.of_nat (length (m_payload m)) <=? capacity) &&
             (bool_decide (m_payload m = []) || bool_decide (is_Some (out_data out)))
          then (RetReceive true (deliver m out), rest)
          else (RetReceive false out, q)
      | None => (RetReceive false out, q)
      end
  | IpcPending => (RetCount (Z.of_nat (length q)), q)
  | IpcPendingFor receiver =>
      (RetCount (Z.of_nat (length (List.filter (addressed_to receiver) q))), q)
  | IpcPurgeReceiver receiver =>
      if receiver =? 0 then (RetCount 0, q) else
      let '(n, q) := purge (fun m => m_receiver m =? receiver) q in (RetCount n, q)
  | IpcPurgeSender sender =>
      if sender =? 0 then (RetCount 0, q) else
      let '(n, q) := purge (fun m => m_sender m =? sender) q in (RetCount n, q)
  end.

(** ** Invariant *)

Definition message_wf (m : ipc_message) : Prop :=
  length (msg_data m) = 64%nat /\ 0 <= msg_length m <= 64.

Record ipc_wf (s : ipc) : Prop := {
  ipc_slots : length (queue s) = 16%nat;
  ipc_messages : Forall message_wf (queue s);
  ipc_tail : 0 <= tail s < 16;
  ipc_count : 0 <= count s <= 16;
  ipc_head : head s = (tail s + count s) mod 16
}.

(** The caller's side: buffers at least as long as the sizes passed with them. *)
Definition ipc_op_ok (op : ipc_op) : Prop :=
  match op with
  | IpcSend _ _ _ data len =>
      is_u32 len /\ (forall d, data = Some d -> len <= Z.of_nat (length d))
  | IpcReceive _ capacity out =>
      is_u32 capacity /\ (forall d, out_data out = Some d -> capacity <= Z.of_nat (length d))
  | _ => True
  end.

(** ** The boot-time self test *)

(** A call and the test its result must pass; the first failing test ends the run with 0. *)
Definition check : Type := ipc_op * (ipc_ret -> bool).

Fixpoint run_checks (cs : list check) (s : ipc) : bool * ipc :=
  match cs with
  | [] => (true, s)
  | (op, ok) :: cs =>
      let '(r, s) := ipc_exec op s in
      if ok r then run_checks cs s else (false, s)
  end.

Definition bytes_equal (left_ right_ : list Z) (length : Z) : bool :=
  all_range 0 length (fun i => arr left_ i =? arr right_ i).

Definition sends (expect : bool) (sender receiver type : Z) (data : option (list Z))
    (length : Z) : check :=
  (IpcSend sender receiver type data length,
   fun r => match r with RetSend ok _ => Bool.eqb ok expect | _ => false end).

(** [out] holds the caller's locals [type], [length] and [output] before the call. *)
Definition receives (receiver type : Z) (bytes : list Z) (length : Z) : check :=
  (IpcReceive receiver IPC_MESSAGE_MAX
     (Build_receive_out (Some 0) (Some 0) (Some (replicate 64 0))),
   fun r => match r with
            | RetReceive ok out =>
                ok && (default 0 (out_type out) =? type) &&
                (default 0 (out_length out) =? length) &&
                bytes_equal (default [] (out_data out)) bytes (default 0 (out_length out))
            | _ => false
            end).

Definition counts (op : ipc_op) (n : Z) : check :=
  (op, fun r => match r with RetCount m => m =? n | _ => false end).

Definition inits : check := (IpcInit, fun _ => true).

Definition self_test_first : list Z := [111; 110; 101].
Definition self_test_second : list Z := [116; 119; 111].

Definition self_test_checks : list check :=
  let first := Some self_test_first in
  let second := Some self_test_second in
  [inits;
   sends false 0 0 0 (Some (replicate 65 0)) 65; sends false 0 0 0 None 1;
   sends true 0 0 1 first 3; sends true 0 0 2 second 3; counts IpcPending 2;
   receives 0 1 self_test_first 3; receives 0 2 self_test_second 3] ++
  map (fun i => sends true 0 0 i None 0) (seqZ 0 16) ++
  [sends false 0 0 16 None 0; counts IpcPending 16] ++
  map (fun i => receives 0 i [] 0) (seqZ 0 16) ++
  [counts IpcPending 0; inits;
   sends true 0x101 0x202 7 first 3; sends true 0x303 0x404 8 second 3;
   sends true 0 0 9 None 0; counts (IpcPendingFor 0x202) 2; counts (IpcPendingFor 0x404) 2;
   receives 0x202 7 self_test_first 3; counts (IpcPendingFor 0x202) 1;
   receives 0x404 8 self_test_second 3; counts (IpcPendingFor 0x404) 1; inits;
   sends true 0x505 0x606 10 first 3; sends true 0x707 0x606 11 second 3;
   sends true 0x808 0x909 12 first 3; sends true 0 0 9 None 0;
   counts (IpcPurgeSender 0x707) 1; counts (IpcPurgeReceiver 0x606) 1;
   counts (IpcPendingFor 0x606) 1; counts (IpcPendingFor 0x909) 2;
   receives 0x909 12 self_test_first 3; receives 0x505 9 [] 0; counts IpcPending 0].

Definition ipc_self_test (s : ipc) : bool * ipc := run_checks self_test_checks s.

(** The same run on the specification. *)
Fixpoint fifo_checks (cs : list check) (q : list message) : bool * list message :=
  match cs with
  | [] => (true, q)
  | (op, ok) :: cs =>
      let '(r, q) := fifo_exec op q in
      if ok r then fifo_checks cs q else (false, q)
  end.

(** ** Ring lemmas *)

Definition ring_ok (q : list ipc_message) : Prop :=
  length q = 16%nat /\ Forall message_wf q.

Lemma message_at_set q p j m : length q = 16%nat -> 0 <= p < 16 -> 0 <= j ->
  message_at (set_message q p m) j = if decide (p = j) then m else message_at q j.
Proof.
  intros Hq Hp Hj. unfold message_at, set_message. rewrite !nth_lookup.
  case_decide as E; [subst; rewrite list_lookup_insert_eq by lia; done|].
  by rewrite list_lookup_insert_ne by lia.
Qed.

Lemma message_at_wf q p : ring_ok q -> 0 <= p < 16 -> message_wf (message_at q p).
Proof.
  intros [Hq Hf] Hp. unfold message_at.
  apply Forall_nth; [done|]. rewrite Hq. lia.
Qed.

Lemma ring_set q p m : ring_ok q -> message_wf m -> ring_ok (set_message q p m).
Proof.
  intros [Hq Hf] Hm. split; [unfold set_message; by rewrite length_insert|].
  by apply Forall_insert.
Qed.

(** With full-size buffers, copying field by field is copying the message. *)
Lemma copy_message_set d p q : ring_ok q -> 0 <= d < 16 -> 0 <= p < 16 ->
  copy_message d p q = set_message q d (message_at q p).
Proof.
  intros Hq Hd Hp. unfold copy_message. f_equal.
  destruct (message_at_wf q p Hq Hp) as [Hs _]. destruct (message_at_wf q d Hq Hd) as [Ht _].
  rewrite copy_loop_spec by (unfold IPC_MESSAGE_MAX; lia).
  unfold IPC_MESSAGE_MAX. rewrite take_ge, drop_ge, app_nil_r by lia.
  by destruct (message_at q p).
Qed.

Lemma ring_copy d p q : ring_ok q -> 0 <= d < 16 -> 0 <= p < 16 -> ring_ok (copy_message d p q).
Proof. intros. rewrite copy_message_set by done. apply ring_set; [done|]. by apply message_at_wf. Qed.

Lemma shift_up_spec n t q : ring_ok q -> 0 <= t -> (n < 16)%nat ->
  t + Z.of_nat n < 4294967280 ->
  ring_ok (shift_up n ((t + Z.of_nat n) mod 16) q) /\
  forall k, 0 <= k < 16 ->
    message_at (shift_up n ((t + Z.of_nat n) mod 16) q) ((t + k) mod 16) =
    message_at q ((t + (if (1 <=? k) && (k <=? Z.of_nat n) then k - 1 else k)) mod 16).
Proof.
  intros Hq Ht. revert q Hq. induction n as [|n IH]; intros q Hq Hn Hb.
  { split; [done|]. intros k Hk. cbn [shift_up].
    by replace ((1 <=? k) && (k <=? Z.of_nat 0)) with false by lia. }
  cbn [shift_up]. unfold IPC_QUEUE_CAPACITY. set (p := (t + Z.of_nat (S n)) mod 16).
  assert (0 <= p < 16) by (unfold p; dmlia).
  replace (((p +32 16) -32 1) mod 16) with ((t + Z.of_nat n) mod 16)
    by (rewrite (u32_id (p + 16)), (u32_id (p + 16 - 1)) by (unfold is_u32; lia);
        unfold p; dmlia).
  assert (0 <= (t + Z.of_nat n) mod 16 < 16) by dmlia.
  destruct (IH (copy_message p ((t + Z.of_nat n) mod 16) q)) as [Hr Hk];
    [by apply ring_copy|lia|lia|].
  split; [done|]. intros k Hk0. rewrite Hk by done.
  rewrite copy_message_set by done.
  rewrite message_at_set by (done || apply Hq || dmlia).
  case_decide as E; unfold p in E.
  - destruct (decide (k = Z.of_nat (S n))) as [->|];
      [|exfalso; revert E; case_if; intros; split_bools; dmlia].
    replace (_ && _) with true by lia. f_equal. f_equal. lia.
  - f_equal. f_equal. f_equal. repeat case_if; split_bools; try lia.
    exfalso. apply E. f_equal. lia.
Qed.

(** ** The list view *)

Section view.
Context (s : ipc) (Hwf : ipc_wf s).

Lemma wf_ring : ring_ok (queue s).
Proof. split; apply Hwf. Qed.

Lemma slot_of_mod k : 0 <= k <= 16 -> slot_of s k = (tail s + k) mod 16.
Proof.
  intros Hk. unfold slot_of. pose proof (ipc_tail _ Hwf).
  by rewrite u32_id by (unfold is_u32; lia).
Qed.

Lemma length_contents : Z.of_nat (length (contents s)) = count s.
Proof.
  pose proof (ipc_count _ Hwf). unfold contents. rewrite length_map, length_seqZ. lia.
Qed.

Lemma contents_lookup k : 0 <= k < count s ->
  contents s !! Z.to_nat k = Some (view (message_at (queue s) ((tail s + k) mod 16))).
Proof.
  intros Hk. pose proof (ipc_count _ Hwf). unfold contents.
  rewrite list_lookup_fmap, lookup_seqZ_lt by lia. simpl.
  rewrite Z2Nat.id, slot_of_mod by lia. done.
Qed.

End view.

Lemma contents_eq s l : ipc_wf s -> Z.of_nat (length l) = count s ->
  (forall k, 0 <= k < count s ->
     l !! Z.to_nat k = Some (view (message_at (queue s) ((tail s + k) mod 16)))) ->
  contents s = l.
Proof.
  intros Hwf Hlen Hl. pose proof (length_contents s Hwf).
  apply list_eq_same_length with (length l); [done|lia|].
  intros i x y Hi Hx Hy. rewrite <- (Nat2Z.id i) in Hx, Hy.
  rewrite contents_lookup in Hx by (done || lia). rewrite Hl in Hy by lia. congruence.
Qed.

(** Taking one message out of the ring deletes it from the list. *)
Lemma contents_delete s s' offset : ipc_wf s -> ipc_wf s' -> 0 <= offset < count s ->
  count s' = count s - 1 ->
  (forall k, 0 <= k < count s' ->
     message_at (queue s') ((tail s' + k) mod 16) =
     message_at (queue s) ((tail s + (if k <? offset then k else k + 1)) mod 16)) ->
  contents s' = delete (Z.to_nat offset) (contents s).
Proof.
  intros Hwf Hwf' Ho Hc Hk. pose proof (length_contents s Hwf).
  apply contents_eq; [done| |].
  - destruct (lookup_lt_is_Some_2 (contents s) (Z.to_nat offset)) as [x Hx]; [lia|].
    rewrite length_delete by eauto. lia.
  - intros k Hr. rewrite Hk by done. destruct (k <? offset) eqn:E.
    + rewrite list_lookup_delete_lt by lia. apply contents_lookup; [done|lia].
    + rewrite list_lookup_delete_ge by lia. replace (S (Z.to_nat k)) with (Z.to_nat (k + 1)) by lia.
      apply contents_lookup; [done|lia].
Qed.

(** ** Each call refines the list operation *)

Definition ipc_refines (op : ipc_op) (s : ipc) (r : ipc_ret) (s' : ipc) : Prop :=
  fifo_exec op (contents s) = (r, contents s') /\ ipc_wf s'.

Lemma send_refines sender receiver type data len s r s' :
  ipc_wf s -> ipc_op_ok (IpcSend sender receiver type data len) ->
  ipc_exec (IpcSend sender receiver type data len) s = (r, s') ->
  ipc_refines (IpcSend sender receiver type data len) s r s'.
Proof.
  intros Hwf [Hlen Hd] E. unfold ipc_refines. cbn [fifo_exec ipc_exec] in *.
  rewrite length_contents by done. unfold is_u32 in Hlen.
  pose proof (ipc_tail _ Hwf). pose proof (ipc_count _ Hwf). pose proof (ipc_head _ Hwf) as Hh.
  unfold ipc_send_from_to, IPC_MESSAGE_MAX, IPC_QUEUE_CAPACITY in E.
  replace ((len <=? 64) && ((len =? 0) || bool_decide (is_Some data)) && (count s <? 16))
    with (negb ((64 <? len) || (negb (len =? 0) && match data with None => true | _ => false end))
          && negb (16 <=? count s))
    by (destruct data; [rewrite bool_decide_true by eauto|rewrite bool_decide_false by (by intros [? ?])]; lia).
  destruct ((64 <? len) || _) eqn:E1; [by simplify_eq|]. simpl negb.
  destruct (16 <=? count s) eqn:E2; [by simplify_eq|]. simpl.
  injection E as <- <-. split_bools.
  assert (len <= Z.of_nat (length (default [] data))) as Hdl
    by (destruct data; [by apply Hd|simpl; lia]).
  assert (0 <= head s < 16) as Hhr by (rewrite Hh; dmlia).
  destruct (message_at_wf _ _ (wf_ring _ Hwf) Hhr) as [Hslot _].
  set (m := Build_ipc_message _ _ _ _ _).
  assert (message_wf m) as Hm.
  { split; simpl; [|lia]. rewrite length_copy_loop by lia. done. }
  destruct (ring_set (queue s) (head s) m (wf_ring _ Hwf) Hm) as [Hr1 Hr2].
  set (s' := Build_ipc _ _ _ _).
  assert (ipc_wf s') as Hwf'.
  { split; simpl; try done; rewrite ?(u32_id (count s + 1)), ?(u32_id (head s + 1))
      by (unfold is_u32; lia); [lia|]. rewrite Hh. dmlia. }
  split; [|done]. f_equal; [by destruct (receiver =? 0)|]. symmetry.
  apply contents_eq; [done| |].
  - rewrite length_app. simpl. pose proof (length_contents s Hwf).
    rewrite u32_id by (unfold is_u32; lia). lia.
  - intros k. simpl. rewrite u32_id by (unfold is_u32; lia). intros Hk.
    rewrite message_at_set by (try apply Hwf; dmlia). case_decide as Hkh.
    + assert (k = count s) as -> by dmlia.
      rewrite lookup_app_r by (pose proof (length_contents s Hwf); lia).
      replace (_ - _)%nat with O by (pose proof (length_contents s Hwf); lia). simpl.
      unfold m, view. simpl. rewrite copy_loop_spec by lia.
      rewrite take_app_le by (rewrite length_take; lia). by rewrite take_take, Nat.min_id.
    + assert (k <> count s) by congruence.
      rewrite lookup_app_l by (pose proof (length_contents s Hwf); lia).
      apply contents_lookup; [done|lia].
Qed.

Lemma matches_view m receiver : message_matches m receiver = addressed_to receiver (view m).
Proof. done. Qed.

Lemma payload_length m : message_wf m -> Z.of_nat (length (m_payload (view m))) = msg_length m.
Proof. intros [Hd Hl]. simpl. rewrite length_take. lia. Qed.

(** The state after removing the message at [offset]. *)
Lemma receive_state s offset : ipc_wf s -> 0 <= offset < count s ->
  let s' := Build_ipc (shift_up (Z.to_nat offset) (slot_of s offset) (queue s)) (head s)
              ((tail s +32 1) mod IPC_QUEUE_CAPACITY) (count s -32 1) in
  ipc_wf s' /\ contents s' = delete (Z.to_nat offset) (contents s).
Proof.
  intros Hwf Ho s'. pose proof (ipc_tail _ Hwf). pose proof (ipc_count _ Hwf).
  destruct (shift_up_spec (Z.to_nat offset) (tail s) (queue s)) as [[Hr1 Hr2] Hk];
    [by apply wf_ring|lia..|].
  rewrite Z2Nat.id in Hr1, Hr2, Hk by lia. rewrite <- (slot_of_mod s Hwf offset) in * by lia.
  assert (count s' = count s - 1) as Hc by (simpl; apply u32_id; unfold is_u32; lia).
  assert (tail s' = (tail s + 1) mod 16) as Ht
    by (simpl; by rewrite u32_id by (unfold is_u32; lia)).
  assert (ipc_wf s') as Hwf'.
  { split; rewrite ?Hc, ?Ht; try done; [dmlia|lia|]. simpl. rewrite (ipc_head _ Hwf). dmlia. }
  split; [done|]. apply contents_delete; [done..|]. rewrite Hc, Ht. intros k Hr.
  simpl. replace (((tail s + 1) mod 16 + k) mod 16) with ((tail s + (k + 1)) mod 16) by dmlia.
  rewrite Hk by lia. do 3 f_equal. repeat case_if; split_bools; lia.
Qed.

Lemma receive_refines receiver capacity out s r s' :
  ipc_wf s -> ipc_op_ok (IpcReceive receiver capacity out) ->
  ipc_exec (IpcReceive receiver capacity out) s = (r, s') ->
  ipc_refines (IpcReceive receiver capacity out) s r s'.
Proof.
  intros Hwf [Hcap Hd] E. unfold ipc_refines. cbn [fifo_exec ipc_exec] in *.
  unfold ipc_receive_for in E.
  destruct (find_first _ _ _) as [offset|] eqn:Ef.
  2: { rewrite take_first_None; [by simplify_eq|]. intros i x Hx.
       pose proof (lookup_lt_Some _ _ _ Hx). pose proof (length_contents s Hwf).
       rewrite <- (Nat2Z.id i), contents_lookup in Hx by (done || lia). injection Hx as <-.
       rewrite <- matches_view, <- slot_of_mod by (pose proof (ipc_count _ Hwf); done || lia).
       apply (proj1 (find_first_None _ _ _) Ef). lia. }
  apply find_first_Some in Ef as (Ho & Hp & Hlow). cbv beta in Hp.
  pose proof (ipc_count _ Hwf). rewrite slot_of_mod in Hp by (done || lia).
  destruct (receive_state s offset Hwf Ho) as [Hwf' Hdel].
  rewrite (take_first_index _ _ (Z.to_nat offset) _ (contents_lookup s Hwf offset Ho));
    [|done|].
  2: { intros j y Hj Hy. rewrite <- (Nat2Z.id j), contents_lookup in Hy by (done || lia).
       injection Hy as <-. rewrite <- matches_view, <- slot_of_mod by (done || lia).
       apply Hlow. lia. }
  rewrite slot_of_mod in E, Hwf', Hdel by (done || lia).
  set (p := (tail s + offset) mod 16) in *. set (m := message_at (queue s) p) in *.
  assert (message_wf m) as Hm by (apply message_at_wf; [by apply wf_ring|unfold p; dmlia]).
  pose proof (payload_length m Hm) as Hpl. rewrite Hpl.
  assert (bool_decide (m_payload (view m) = []) = (msg_length m =? 0)) as ->.
  { case_bool_decide as Hn; [rewrite Hn in Hpl; simpl in Hpl; lia|].
    destruct (m_payload (view m)); [done|simpl in Hpl; lia]. }
  replace ((msg_length m <=? capacity) && ((msg_length m =? 0) || bool_decide (is_Some (out_data out))))
    with (negb ((capacity <? msg_length m) ||
       (negb (msg_length m =? 0) && match out_data out with None => true | _ => false end)))
    by (destruct (out_data out); [rewrite bool_decide_true by eauto|
          rewrite bool_decide_false by (by intros [? ?])]; lia).
  destruct ((capacity <? msg_length m) || _) eqn:Eg; simpl negb; [by simplify_eq|].
  injection E as <- <-. rewrite Hdel. split; [|done]. do 2 f_equal.
  unfold deliver. rewrite Hpl. f_equal.
  destruct (out_data out) as [d|]; [|done]. simpl. f_equal.
  destruct Hm as [Hm1 Hm2]. specialize (Hd d eq_refl).
  rewrite copy_loop_spec by lia. do 2 f_equal. simpl in Hpl. lia.
Qed.

Lemma pending_for_count s receiver : ipc_wf s ->
  ipc_pending_for receiver s =
  Z.of_nat (length (List.filter (addressed_to receiver) (contents s))).
Proof.
  intros Hwf. pose proof (ipc_count _ Hwf). pose proof (length_contents s Hwf) as Hlen.
  unfold ipc_pending_for.
  assert (for_loop 0 (count s) (fun offset pending =>
      if message_matches (message_at (queue s) (slot_of s offset)) receiver
      then pending +32 1 else pending) 0 =
    Z.of_nat (length (List.filter (addressed_to receiver)
      (take (Z.to_nat (count s)) (contents s))))) as ->.
  2: { by rewrite take_ge by lia. }
  apply (for_loop_inv (fun k n => n = Z.of_nat (length (List.filter (addressed_to receiver)
      (take (Z.to_nat k) (contents s)))))); [lia|done|].
  intros k n Hk ->. replace (Z.to_nat (k + 1)) with (S (Z.to_nat k)) by lia.
  rewrite (take_S_r _ _ _ (contents_lookup s Hwf k Hk)), filter_app, length_app. simpl.
  rewrite matches_view, slot_of_mod by (done || lia).
  pose proof (filter_length_le (addressed_to receiver) (take (Z.to_nat k) (contents s))) as Hf.
  rewrite length_take in Hf.
  case_if; simpl; [|lia]. rewrite u32_id by (unfold is_u32; lia). lia.
Qed.

Lemma purge_at_spec s offset : ipc_wf s -> 0 <= offset < count s ->
  ipc_wf (purge_at offset s) /\ count (purge_at offset s) = count s - 1 /\
  contents (purge_at offset s) = delete (Z.to_nat offset) (contents s).
Proof.
  intros Hwf Ho. pose proof (ipc_tail _ Hwf). pose proof (ipc_count _ Hwf).
  unfold purge_at, IPC_QUEUE_CAPACITY. rewrite (u32_id (count s - 1)) by (unfold is_u32; lia).
  rewrite (u32_id (tail s + _)) by (unfold is_u32; lia).
  set (q := for_loop _ _ _ _).
  assert (ring_ok q /\ forall j, 0 <= j < 16 -> message_at q ((tail s + j) mod 16) =
    message_at (queue s) ((tail s + (if (offset <=? j) && (j <? count s - 1) then j + 1 else j)) mod 16))
    as [[Hr1 Hr2] Hj].
  { unfold q. apply (for_loop_inv (fun i q => ring_ok q /\ forall j, 0 <= j < 16 ->
      message_at q ((tail s + j) mod 16) = message_at (queue s)
        ((tail s + (if (offset <=? j) && (j <? i) then j + 1 else j)) mod 16))); [lia| |].
    { split; [by apply wf_ring|]. intros j Hj. by replace (_ && _) with false by lia. }
    intros i q' Hi [Hr Hq]. rewrite slot_of_mod by (done || lia).
    rewrite (u32_id (tail s + i)), (u32_id (tail s + i + 1)) by (unfold is_u32; lia).
    assert (0 <= (tail s + i) mod 16 < 16 /\ 0 <= (tail s + i + 1) mod 16 < 16) as [? ?] by dmlia.
    split; [by apply ring_copy|]. intros j Hj. rewrite copy_message_set by done.
    rewrite message_at_set by (try apply Hr; dmlia). case_decide as E.
    - assert (j = i) as -> by dmlia. rewrite <- Z.add_assoc, Hq by lia.
      by replace ((offset <=? i) && (i <? i + 1)) with true by lia;
         replace ((offset <=? i + 1) && (i + 1 <? i)) with false by lia.
    - assert (j <> i) by congruence. rewrite Hq by done. do 3 f_equal.
      repeat case_if; split_bools; lia. }
  assert (ipc_wf (Build_ipc q ((tail s + (count s - 1)) mod 16) (tail s) (count s - 1))) as Hwf'.
  { split; simpl; try done. lia. }
  split; [done|]. split; [done|]. apply contents_delete; [done..|]. simpl. intros k Hk.
  rewrite Hj by lia. do 3 f_equal. repeat case_if; split_bools; lia.
Qed.

Lemma purge_loop_spec fuel field f id offset removed s :
  (forall m, field m = f (view m)) -> ipc_wf s -> 0 <= offset <= count s ->
  count s - offset <= Z.of_nat fuel -> 0 <= removed -> removed + count s <= 1024 ->
  exists s', purge_loop fuel field id offset removed s =
      (removed + Z.of_nat (length (List.filter (fun m => f m =? id)
         (drop (Z.to_nat offset) (contents s)))), s') /\ ipc_wf s' /\
    contents s' = take (Z.to_nat offset) (contents s) ++
      List.filter (fun m => negb (f m =? id)) (drop (Z.to_nat offset) (contents s)).
Proof.
  intros Hf. revert offset removed s. induction fuel as [|fuel IH];
    intros offset removed s Hwf Ho Hfuel Hrem Hmax; pose proof (length_contents s Hwf) as Hlen;
    pose proof (ipc_count _ Hwf); cbn [purge_loop].
  { exists s. rewrite drop_ge, take_ge by lia. simpl. by rewrite Z.add_0_r, app_nil_r. }
  destruct (offset <? count s) eqn:E; simpl negb; cbv iota.
  2: { exists s. rewrite drop_ge, take_ge by lia. simpl. by rewrite Z.add_0_r, app_nil_r. }
  assert (0 <= offset < count s) as Hlt by lia.
  pose proof (contents_lookup s Hwf offset Hlt) as Hx.
  rewrite (drop_S _ _ _ Hx), slot_of_mod by (done || lia). simpl List.filter. rewrite Hf.
  destruct (f (view _) =? id) eqn:Em; simpl negb; cbv iota.
  - destruct (purge_at_spec s offset Hwf Hlt) as (Hwf1 & Hc1 & Hd1).
    rewrite (u32_id (removed + 1)) by (unfold is_u32; lia).
    destruct (IH offset (removed + 1) (purge_at offset s)) as (s' & -> & Hwf' & Hs');
      [done|lia..|].
    exists s'. rewrite Hs', Hd1, delete_take_drop.
    rewrite drop_app_length', take_app_length' by (rewrite length_take; lia).
    split; [|done]. f_equal. simpl. lia.
  - rewrite (u32_id (offset + 1)) by (unfold is_u32; lia).
    destruct (IH (offset + 1) removed s) as (s' & -> & Hwf' & Hs'); [done|lia..|].
    exists s'. replace (Z.to_nat (offset + 1)) with (S (Z.to_nat offset)) in * by lia.
    rewrite Hs', (take_S_r _ _ _ Hx), <- app_assoc. done.
Qed.

Lemma purge_refines field f id s :
  (forall m, field m = f (view m)) -> ipc_wf s ->
  exists s', purge_loop (Z.to_nat (count s)) field id 0 0 s =
      (fst (purge (fun m => f m =? id) (contents s)), s') /\
    contents s' = snd (purge (fun m => f m =? id) (contents s)) /\ ipc_wf s'.
Proof.
  intros Hf Hwf. pose proof (ipc_count _ Hwf).
  destruct (purge_loop_spec (Z.to_nat (count s)) field f id 0 0 s) as (s' & E & Hwf' & Hs');
    [done..|lia|lia|lia|lia|]. by exists s'.
Qed.

Lemma ipc_init_wf s : ipc_wf s -> ipc_wf (ipc_init s).
Proof. intros [H1 H2 _ _ _]. by split. Qed.

Lemma ipc_static_wf : ipc_wf ipc_static.
Proof.
  split; try done. apply Forall_replicate. split; [done|simpl; lia].
Qed.

Lemma ipc_exec_refines op s r s' : ipc_wf s -> ipc_op_ok op -> ipc_exec op s = (r, s') ->
  ipc_refines op s r s'.
Proof.
  intros Hwf Hok E. destruct op as [|? ? ? ? ?|? ? ?| |receiver|receiver|sender].
  - simplify_eq/=. split; [done|by apply ipc_init_wf].
  - by apply send_refines.
  - by apply receive_refines.
  - simplify_eq/=. split; [|done]. unfold ipc_refines. simpl. by rewrite length_contents.
  - simplify_eq/=. split; [|done]. simpl. by rewrite pending_for_count.
  - cbn [ipc_exec] in E. unfold ipc_refines, ipc_purge_receiver in *. cbn [fifo_exec].
    destruct (receiver =? 0); [by simplify_eq|].
    destruct (purge_refines receiver_id m_receiver receiver s) as (s1 & H1 & H2 & H3); [done..|].
    rewrite H1 in E. injection E as <- <-. by rewrite H2.
  - cbn [ipc_exec] in E. unfold ipc_refines, ipc_purge_sender, ipc_purge_field in *.
    cbn [fifo_exec]. destruct (sender =? 0); [by simplify_eq|].
    destruct (purge_refines sender_id m_sender sender s) as (s1 & H1 & H2 & H3); [done..|].
    rewrite H1 in E. injection E as <- <-. by rewrite H2.
Qed.

Lemma run_checks_fifo cs s : ipc_wf s -> Forall (fun c => ipc_op_ok (fst c)) cs ->
  fst (run_checks cs s) = fst (fifo_checks cs (contents s)).
Proof.
  intros Hwf Hcs. revert s Hwf. induction Hcs as [|[op ok] cs Hok _ IH]; intros s Hwf; [done|].
  simpl. destruct (ipc_exec op s) as [r s1] eqn:E.
  destruct (ipc_exec_refines op s r s1 Hwf Hok E) as [Hf Hwf1]. rewrite Hf.
  destruct (ok r); [by apply IH|done].
Qed.

Ltac solve_op_ok :=
  simpl; unfold is_u32, IPC_MESSAGE_MAX;
  first [exact I | split; [lia|]; intros ? Heq; first [discriminate Heq | injection Heq as <-; simpl; lia]].

Lemma self_test_ops_ok : Forall (fun c => ipc_op_ok (fst c)) self_test_checks.
Proof.
  unfold self_test_checks. cbv zeta. rewrite !Forall_app.
  repeat split; try (apply Forall_fmap, Forall_true; intros; solve_op_ok);
    repeat (apply Forall_cons_2; [solve_op_ok|]); apply Forall_nil_2.
Qed.

(** Runs of calls from the initial state, code and specification side by side. *)
Fixpoint ipc_run (ops : list ipc_op) (s : ipc) : list ipc_ret * ipc :=
  match ops with
  | [] => ([], s)
  | op :: ops =>
      let '(r, s) := ipc_exec op s in
      let '(rs, s) := ipc_run ops s in (r :: rs, s)
  end.

Fixpoint fifo_run (ops : list ipc_op) (q : list message) : list ipc_ret * list message :=
  match ops with
  | [] => ([], q)
  | op :: ops =>
      let '(r, q) := fifo_exec op q in
      let '(rs, q) := fifo_run ops q in (r :: rs, q)
  end.

(** ** Properties *)

(** C12: the ring implements the first-in first-out list. Along every sequence of calls from
    the static initial state, every return value, stored out-parameter and wake-up request is
    the one of the list specification, the ring's contents are the list, and the ring
    invariant (sixteen slots, indices in range, [head = tail + count]) holds. *)
Theorem ipc_refines_fifo ops : Forall ipc_op_ok ops ->
  let '(rs, s) := ipc_run ops ipc_static in
  fifo_run ops [] = (rs, contents s) /\ ipc_wf s.
Proof.
  intros Hops. change (@nil message) with (contents ipc_static).
  generalize ipc_static_wf. generalize ipc_static.
  induction Hops as [|op ops Hok _ IH]; intros s Hwf; [done|]. simpl.
  destruct (ipc_exec op s) as [r s1] eqn:E.
  destruct (ipc_exec_refines _ _ _ _ Hwf Hok E) as [Hf Hwf1]. rewrite Hf.
  specialize (IH s1 Hwf1). destruct (ipc_run ops s1) as [rs s2].
  destruct IH as [-> ?]. done.
Qed.

Lemma ipc_refines_fifo_witness :
  fifo_run [IpcSend 5 7 1 (Some [10; 11]) 2; IpcSend 5 9 2 (Some [12]) 1;
            IpcReceive 9 4 (Build_receive_out (Some 0) (Some 0) (Some [0; 0; 0; 0]));
            IpcPurgeSender 5; IpcPending] [] =
  ([RetSend true (Some (WakeTask 7)); RetSend true (Some (WakeTask 9));
    RetReceive true (Build_receive_out (Some 2) (Some 1) (Some [12; 0; 0; 0]));
    RetCount 1; RetCount 0], []).
Proof.
  pose proof (ipc_refines_fifo
    [IpcSend 5 7 1 (Some [10; 11]) 2; IpcSend 5 9 2 (Some [12]) 1;
     IpcReceive 9 4 (Build_receive_out (Some 0) (Some 0) (Some [0; 0; 0; 0]));
     IpcPurgeSender 5; IpcPending]) as H.
  destruct H as [H _]; [|exact H].
  repeat (apply Forall_cons_2; [solve_op_ok|]); apply Forall_nil_2.
Defined.

(** The boot-time self test succeeds from every well-formed queue, whatever messages it
    holds. *)
Theorem ipc_self_test_passes s : ipc_wf s -> fst (ipc_self_test s) = true.
Proof.
  intros Hwf. unfold ipc_self_test. rewrite run_checks_fifo by (done || apply self_test_ops_ok).
  change self_test_checks with (inits :: List.tail self_test_checks). simpl fifo_checks.
  vm_compute. reflexivity.
Qed.

Lemma ipc_self_test_passes_witness : fst (ipc_self_test ipc_static) = true.
Proof. apply (ipc_self_test_passes ipc_static ipc_static_wf). Defined.
