(* ===== verification/Journal.v ===== *)
(** * Journal records

    [fs/journal.c]: the 512-byte record and superblock formats, their CRC-32, and the
    functions that scan, replay and append to the log. This file holds the definitions and
    the format theorems; [JournalLog] has the log. Sector buffers are locals of the callers
    and never null, so the null tests on them are not represented; [name] and [content] may
    be null and are options. *)

From S2P Require Import Prelude.
Local Open Scope c_scope.
Local Open Scope Z_scope.

(** ** Constants and data *)

Definition JOURNAL_SECTOR_SIZE : Z := 512.
Definition JOURNAL_NAME_MAX : Z := 32.
Definition JOURNAL_CONTENT_MAX : Z := 256.
Definition JOURNAL_MAX_DATA_SECTORS : Z := 1024.
Definition JOURNAL_OPERATION_WRITE : Z := 1.
Definition JOURNAL_OPERATION_REMOVE : Z := 2.
Definition JOURNAL_MAGIC : Z := 0x314A5346.
Definition JOURNAL_VERSION : Z := 1.
Definition JOURNAL_COMMIT : Z := 0xC0DE17ED.
Definition JOURNAL_SUPERBLOCK_MAGIC : Z := 0x314A5346.
Definition JOURNAL_SUPERBLOCK_VERSION : Z := 1.
Definition JOURNAL_HEADER_SIZE : Z := 20.
Definition JOURNAL_PAYLOAD_SIZE : Z := JOURNAL_NAME_MAX + JOURNAL_CONTENT_MAX.
Definition JOURNAL_COMMIT_OFFSET : Z := 508.

Record journal_entry := {
  operation : Z;
  sequence : Z;
  name_length : Z;
  content_length : Z;
  name : list Z;
  content : list Z
}.

(** ** Fields *)

Definition read_u16 (data : list Z) (offset : Z) : Z :=
  Z.lor (arr data offset) (Z.shiftl (arr data (offset + 1)) 8).

Definition read_u32 (data : list Z) (offset : Z) : Z :=
  Z.lor (Z.lor (Z.lor (arr data offset) (Z.shiftl (arr data (offset + 1)) 8))
               (Z.shiftl (arr data (offset + 2)) 16))
        (Z.shiftl (arr data (offset + 3)) 24).

Definition write_u16 (data : list Z) (offset value : Z) : list Z :=
  arr_set (arr_set data offset (Z.land value 0xFF)) (offset + 1)
    (Z.land (Z.shiftr value 8) 0xFF).

Definition write_u32 (data : list Z) (offset value : Z) : list Z :=
  write_u16 (write_u16 data offset (Z.land value 0xFFFF)) (offset + 2) (Z.shiftr value 16).

(** ** CRC-32 *)

Definition crc_bit (crc : Z) : Z :=
  Z.lxor (Z.shiftr crc 1) (if flag crc 1 then 0xEDB88320 else 0).

Definition crc_byte (crc byte : Z) : Z :=
  for_loop 0 8 (fun _ crc => crc_bit crc) (Z.lxor crc byte).

(** [crc32_update(crc, data + start, length)]. *)
Definition crc32_update (crc : Z) (data : list Z) (start length : Z) : Z :=
  for_loop 0 length (fun index crc => crc_byte crc (arr data (start + index))) crc.

Definition record_crc (sector : list Z) : Z :=
  let crc := crc32_update 0xFFFFFFFF sector 0 16 in
  let crc := crc32_update crc sector JOURNAL_HEADER_SIZE JOURNAL_PAYLOAD_SIZE in
  not32 crc.

Definition superblock_crc (sector : list Z) : Z :=
  not32 (crc32_update 0xFFFFFFFF sector 0 12).

(** ** Names *)

(** [value] is the memory from the pointer on; [None] is the null pointer. *)
Definition bounded_length (value : option (list Z)) (limit : Z) : Z :=
  match value with
  | None => limit
  | Some v => default limit (find_first 0 limit (fun length => arr v length =? 0))
  end.

(** [valid_name(data + start, length)]. *)
Definition valid_name (data : list Z) (start length : Z) : bool :=
  negb ((length =? 0) || (JOURNAL_NAME_MAX <=? length)) &&
  all_range 0 length (fun index =>
    let c := arr data (start + index) in
    negb ((c <? 33) || (c =? 47) || (c =? 92))).

(** ** Records *)

Definition zero_sector (sector : list Z) : list Z :=
  for_loop 0 JOURNAL_SECTOR_SIZE (fun index s => arr_set s index 0) sector.

(** [sector[base + index] = source[index]] for [index < length]. *)
Definition store_bytes (base length : Z) (source sector : list Z) : list Z :=
  for_loop 0 length (fun index s => arr_set s (base + index) (arr source index)) sector.

(** [None] is the return value 0; the sector is then left as it was. *)
Definition journal_encode_internal (sector : list Z) (operation sequence : Z)
    (name content : option (list Z)) (content_length : Z) (committed : bool)
    : option (list Z) :=
  if (sequence =? 0) ||
     (negb (operation =? JOURNAL_OPERATION_WRITE) &&
      negb (operation =? JOURNAL_OPERATION_REMOVE)) ||
     (JOURNAL_CONTENT_MAX <? content_length) ||
     (negb (content_length =? 0) && match content with None => true | Some _ => false end)
  then None else
  let name_length := bounded_length name JOURNAL_NAME_MAX in
  if negb (match name with None => false | Some n => valid_name n 0 name_length end) ||
     ((operation =? JOURNAL_OPERATION_REMOVE) && negb (content_length =? 0))
  then None else
  let sector := zero_sector sector in
  let sector := write_u32 sector 0 JOURNAL_MAGIC in
  let sector := write_u16 sector 4 JOURNAL_VERSION in
  let sector := write_u16 sector 6 operation in
  let sector := write_u32 sector 8 sequence in
  let sector := write_u16 sector 12 name_length in
  let sector := write_u16 sector 14 content_length in
  let sector := store_bytes JOURNAL_HEADER_SIZE name_length (default [] name) sector in
  let sector := store_bytes (JOURNAL_HEADER_SIZE + JOURNAL_NAME_MAX) content_length
                  (default [] content) sector in
  let sector := write_u32 sector 16 (record_crc sector) in
  Some (if committed then write_u32 sector JOURNAL_COMMIT_OFFSET JOURNAL_COMMIT else sector).

Definition journal_encode (sector : list Z) (operation sequence : Z)
    (name content : option (list Z)) (content_length : Z) : option (list Z) :=
  journal_encode_internal sector operation sequence name content content_length true.

Definition zero_range (sector : list Z) (first last : Z) : bool :=
  all_range first last (fun index => arr sector index =? 0).

(** The [n] bytes from [first] on, as the copy loops into the entry read them. *)
Definition sub_bytes (data : list Z) (first n : Z) : list Z :=
  map (fun index => arr data (first + index)) (seqZ 0 n).

Definition journal_decode_internal (sector : list Z) (require_commit : bool)
    : option journal_entry :=
  if negb (read_u32 sector 0 =? JOURNAL_MAGIC) ||
     negb (read_u16 sector 4 =? JOURNAL_VERSION) || (read_u32 sector 8 =? 0) ||
     (if require_commit then negb (read_u32 sector JOURNAL_COMMIT_OFFSET =? JOURNAL_COMMIT)
      else negb (read_u32 sector JOURNAL_COMMIT_OFFSET =? 0))
  then None else
  if negb (read_u16 sector 6 =? JOURNAL_OPERATION_WRITE) &&
     negb (read_u16 sector 6 =? JOURNAL_OPERATION_REMOVE)
  then None else
  let name_length := read_u16 sector 12 in
  let content_length := read_u16 sector 14 in
  if negb (valid_name sector JOURNAL_HEADER_SIZE name_length) ||
     (JOURNAL_CONTENT_MAX <? content_length) ||
     ((read_u16 sector 6 =? JOURNAL_OPERATION_REMOVE) && negb (content_length =? 0)) ||
     negb (read_u32 sector 16 =? record_crc sector)
  then None else
  if negb (arr sector (JOURNAL_HEADER_SIZE + name_length) =? 0) then None else
  if negb (zero_range sector (JOURNAL_HEADER_SIZE + (name_length + 1))
             (JOURNAL_HEADER_SIZE + JOURNAL_NAME_MAX)) then None else
  if negb (zero_range sector (JOURNAL_HEADER_SIZE + JOURNAL_NAME_MAX + content_length)
             (JOURNAL_HEADER_SIZE + JOURNAL_NAME_MAX + JOURNAL_CONTENT_MAX)) then None else
  if negb (zero_range sector (JOURNAL_HEADER_SIZE + JOURNAL_PAYLOAD_SIZE)
             JOURNAL_COMMIT_OFFSET) then None else
  Some (Build_journal_entry (read_u16 sector 6) (read_u32 sector 8) name_length content_length
          (sub_bytes sector JOURNAL_HEADER_SIZE JOURNAL_NAME_MAX)
          (sub_bytes sector (JOURNAL_HEADER_SIZE + JOURNAL_NAME_MAX) JOURNAL_CONTENT_MAX)).

Definition journal_decode (sector : list Z) : option journal_entry :=
  journal_decode_internal sector true.

Definition journal_decode_prepared (sector : list Z) : option journal_entry :=
  journal_decode_internal sector false.

(** ** Superblock *)

Definition journal_superblock_encode (sector : list Z) (data_sectors : Z) : option (list Z) :=
  if (data_sectors =? 0) || (JOURNAL_MAX_DATA_SECTORS <? data_sectors) then None else
  let sector := zero_sector sector in
  let sector := write_u32 sector 0 JOURNAL_SUPERBLOCK_MAGIC in
  let sector := write_u16 sector 4 JOURNAL_SUPERBLOCK_VERSION in
  let sector := write_u16 sector 6 data_sectors in
  let sector := write_u32 sector 8 0 in
  let sector := write_u32 sector 12 (superblock_crc sector) in
  Some (write_u32 sector JOURNAL_COMMIT_OFFSET JOURNAL_COMMIT).

Definition journal_superblock_decode (sector : list Z) : option Z :=
  if negb (read_u32 sector 0 =? JOURNAL_SUPERBLOCK_MAGIC) ||
     negb (read_u16 sector 4 =? JOURNAL_SUPERBLOCK_VERSION) ||
     negb (read_u32 sector JOURNAL_COMMIT_OFFSET =? JOURNAL_COMMIT)
  then None else
  let count := read_u16 sector 6 in
  if (count =? 0) || (JOURNAL_MAX_DATA_SECTORS <? count) ||
     negb (read_u32 sector 8 =? 0) || negb (read_u32 sector 12 =? superblock_crc sector)
  then None else
  if negb (zero_range sector 16 JOURNAL_COMMIT_OFFSET) then None else Some count.

Definition sector_is_empty (sector : list Z) : bool :=
  zero_range sector 0 JOURNAL_SECTOR_SIZE.

Definition sequence_is_newer (sequence previous : Z) : bool :=
  negb (sequence =? 0) && (previous <? sequence).

Definition region_fits (start_lba sector_count : Z) : bool :=
  negb (sector_count =? 0) && (start_lba <=? UINT64_MAX -64 (sector_count -64 1)).

(** ** Field lemmas *)

Definition bytes_equal (left_ right_ : list Z) (length : Z) : bool :=
  all_range 0 length (fun index => arr left_ index =? arr right_ index).

(** ** Self test *)

Definition flip_bit (sector : list Z) (offset : Z) : list Z :=
  arr_set sector offset (Z.lxor (arr sector offset) 1).

Definition is_none {A : Type} (x : option A) : bool :=
  match x with None => true | Some _ => false end.

(** "NOTE" and "safe"; each altered copy starts from [original], the encoded sector. *)
Definition journal_self_test : bool :=
  let note := [78; 79; 84; 69; 0] in
  let safe := [115; 97; 102; 101] in
  match journal_encode (replicate 512 0) JOURNAL_OPERATION_WRITE 1 (Some note) (Some safe) 4 with
  | None => false
  | Some original =>
      match journal_decode original with
      | None => false
      | Some entry =>
          (operation entry =? JOURNAL_OPERATION_WRITE) && (sequence entry =? 1) &&
          (name_length entry =? 4) && (content_length entry =? 4) &&
          bytes_equal (name entry) note 4 && bytes_equal (content entry) safe 4 &&
          is_none (journal_decode (flip_bit original 0)) &&
          is_none (journal_decode (flip_bit original JOURNAL_COMMIT_OFFSET)) &&
          is_none (journal_decode (arr_set original JOURNAL_HEADER_SIZE 47)) &&
          match journal_encode original JOURNAL_OPERATION_REMOVE 2 (Some note) None 0 with
          | None => false
          | Some sector =>
              match journal_decode sector with
              | None => false
              | Some entry =>
                  (operation entry =? JOURNAL_OPERATION_REMOVE) && (content_length entry =? 0) &&
                  is_none (journal_decode (replicate 512 255))
              end
          end
      end
  end.

Lemma journal_self_test_passes : journal_self_test = true.
Proof. vm_compute. reflexivity. Qed.

Definition sector_ok (s : list Z) : Prop := length s = 512%nat /\ bytes_ok s.

Ltac journal_consts :=
  unfold JOURNAL_SECTOR_SIZE, JOURNAL_NAME_MAX, JOURNAL_CONTENT_MAX, JOURNAL_PAYLOAD_SIZE,
    JOURNAL_HEADER_SIZE, JOURNAL_COMMIT_OFFSET, JOURNAL_OPERATION_WRITE,
    JOURNAL_OPERATION_REMOVE, JOURNAL_MAX_DATA_SECTORS, JOURNAL_NAME_MAX,
    JOURNAL_CONTENT_MAX in *.

Lemma read_u16_sum d o : bytes_ok d -> read_u16 d o = arr d o + 256 * arr d (o + 1).
Proof. intros H. apply lor_shl8. by apply arr_u8. Qed.

Lemma read_u32_sum d o : bytes_ok d -> read_u32 d o =
  arr d o + 256 * arr d (o + 1) + 65536 * arr d (o + 2) + 16777216 * arr d (o + 3).
Proof.
  intros H. unfold read_u32.
  pose proof (arr_u8 d o H). pose proof (arr_u8 d (o + 1) H). pose proof (arr_u8 d (o + 2) H).
  unfold is_u8 in *. rewrite lor_shl8, lor_shl16, lor_shl24 by lia. done.
Qed.

Lemma read_u32_range d o : bytes_ok d -> is_u32 (read_u32 d o).
Proof.
  intros H. rewrite read_u32_sum by done.
  pose proof (arr_u8 d o H). pose proof (arr_u8 d (o + 1) H). pose proof (arr_u8 d (o + 2) H).
  pose proof (arr_u8 d (o + 3) H). unfold is_u8, is_u32 in *. lia.
Qed.

Lemma read_u16_range d o : bytes_ok d -> is_u16 (read_u16 d o).
Proof.
  intros H. rewrite read_u16_sum by done.
  pose proof (arr_u8 d o H). pose proof (arr_u8 d (o + 1) H). unfold is_u8, is_u16 in *. lia.
Qed.

Lemma read_u16_ext d d' o : (forall j, o <= j < o + 2 -> arr d j = arr d' j) ->
  read_u16 d o = read_u16 d' o.
Proof. intros H. unfold read_u16. by rewrite !H by lia. Qed.

Lemma read_u32_ext d d' o : (forall j, o <= j < o + 4 -> arr d j = arr d' j) ->
  read_u32 d o = read_u32 d' o.
Proof. intros H. unfold read_u32. by rewrite !H by lia. Qed.

(** Equal fields have equal bytes. *)
Lemma read_u16_inj d d' o : bytes_ok d -> bytes_ok d' -> read_u16 d o = read_u16 d' o ->
  forall j, o <= j < o + 2 -> arr d j = arr d' j.
Proof.
  intros H H' E j Hj. rewrite !read_u16_sum in E by done.
  pose proof (arr_u8 d o H). pose proof (arr_u8 d (o + 1) H).
  pose proof (arr_u8 d' o H'). pose proof (arr_u8 d' (o + 1) H'). unfold is_u8 in *.
  assert (j = o \/ j = o + 1) as [-> | ->] by lia; lia.
Qed.

Lemma read_u32_inj d d' o : bytes_ok d -> bytes_ok d' -> read_u32 d o = read_u32 d' o ->
  forall j, o <= j < o + 4 -> arr d j = arr d' j.
Proof.
  intros H H' E j Hj. rewrite !read_u32_sum in E by done.
  pose proof (arr_u8 d o H). pose proof (arr_u8 d (o + 1) H). pose proof (arr_u8 d (o + 2) H).
  pose proof (arr_u8 d (o + 3) H). pose proof (arr_u8 d' o H').
  pose proof (arr_u8 d' (o + 1) H'). pose proof (arr_u8 d' (o + 2) H').
  pose proof (arr_u8 d' (o + 3) H'). unfold is_u8 in *.
  assert (j = o \/ j = o + 1 \/ j = o + 2 \/ j = o + 3) as [-> | [-> | [-> | ->]]] by lia; lia.
Qed.

Lemma length_write_u16 d o v : length (write_u16 d o v) = length d.
Proof. unfold write_u16. by rewrite !length_arr_set. Qed.

Lemma length_write_u32 d o v : length (write_u32 d o v) = length d.
Proof. unfold write_u32. by rewrite !length_write_u16. Qed.

Lemma bytes_write_u16 d o v : bytes_ok d -> bytes_ok (write_u16 d o v).
Proof.
  intros H. unfold write_u16.
  repeat apply bytes_ok_set; rewrite ?land_255; try done; apply u8_range.
Qed.

Lemma bytes_write_u32 d o v : bytes_ok d -> bytes_ok (write_u32 d o v).
Proof. intros H. by apply bytes_write_u16, bytes_write_u16. Qed.

Lemma arr_write_u16 d o v j : 0 <= o -> o + 1 < Z.of_nat (length d) -> 0 <= j ->
  arr (write_u16 d o v) j =
  if j =? o then v mod 256 else if j =? o + 1 then v / 256 mod 256 else arr d j.
Proof.
  intros Ho Hl Hj. unfold write_u16.
  rewrite !arr_set_get by (rewrite ?length_arr_set; lia).
  rewrite !land_255, Z.shiftr_div_pow2 by lia. change (2 ^ 8) with 256.
  repeat case_if; try done; lia.
Qed.

Lemma arr_write_u32 d o v j : 0 <= o -> o + 3 < Z.of_nat (length d) -> 0 <= j ->
  arr (write_u32 d o v) j =
  if j =? o then v mod 256 else if j =? o + 1 then v / 256 mod 256
  else if j =? o + 2 then v / 65536 mod 256 else if j =? o + 3 then v / 16777216 mod 256
  else arr d j.
Proof.
  intros Ho Hl Hj. unfold write_u32.
  rewrite !arr_write_u16 by (rewrite ?length_write_u16; lia).
  rewrite land_65535, Z.shiftr_div_pow2 by lia. change (2 ^ 16) with 65536.
  repeat case_if; try done; try lia; dmlia.
Qed.

Lemma read_write_u16 d o v : bytes_ok d -> 0 <= o -> o + 1 < Z.of_nat (length d) -> is_u16 v ->
  read_u16 (write_u16 d o v) o = v.
Proof.
  intros H Ho Hl Hv. unfold is_u16 in Hv. rewrite read_u16_sum by (by apply bytes_write_u16).
  rewrite !arr_write_u16 by lia.
  rewrite Z.eqb_refl. replace (o + 1 =? o) with false by lia. rewrite Z.eqb_refl. dmlia.
Qed.

Lemma read_write_u32 d o v : bytes_ok d -> 0 <= o -> o + 3 < Z.of_nat (length d) -> is_u32 v ->
  read_u32 (write_u32 d o v) o = v.
Proof.
  intros H Ho Hl Hv. unfold is_u32 in Hv. rewrite read_u32_sum by (by apply bytes_write_u32).
  rewrite !arr_write_u32 by lia. rewrite !Z.eqb_refl.
  replace (o + 1 =? o) with false by lia. replace (o + 2 =? o) with false by lia.
  replace (o + 3 =? o) with false by lia. replace (o + 2 =? o + 1) with false by lia.
  replace (o + 3 =? o + 1) with false by lia. replace (o + 3 =? o + 2) with false by lia.
  rewrite ?Z.eqb_refl. dmlia.
Qed.

Lemma store_bytes_spec base n src d : 0 <= base -> 0 <= n -> base + n <= Z.of_nat (length d) ->
  length (store_bytes base n src d) = length d /\
  forall j, 0 <= j -> arr (store_bytes base n src d) j =
    if (base <=? j) && (j <? base + n) then arr src (j - base) else arr d j.
Proof.
  intros Hb Hn Hl. unfold store_bytes.
  apply (for_loop_inv (fun k d' => length d' = length d /\ forall j, 0 <= j -> arr d' j =
    if (base <=? j) && (j <? base + k) then arr src (j - base) else arr d j)); [done| |].
  - split; [done|]. intros j Hj. by replace (_ && _) with false by lia.
  - intros k d' Hk [Hlen Hd']. split; [by rewrite length_arr_set|]. intros j Hj.
    rewrite arr_set_get by lia. destruct (Z.eqb_spec (base + k) j) as [<-|Hne].
    + replace (_ && _) with true by lia. f_equal. lia.
    + rewrite Hd' by done. repeat case_if; split_bools; try done; lia.
Qed.

Lemma store_bytes_ok base n src d : bytes_ok src -> bytes_ok d -> 0 <= n ->
  bytes_ok (store_bytes base n src d).
Proof.
  intros Hs Hd Hn. unfold store_bytes.
  apply (for_loop_inv (fun _ d => bytes_ok d)); [done|done|].
  intros i d' _ H. apply bytes_ok_set; [done|]. by apply arr_u8.
Qed.

Lemma zero_sector_spec d : length d = 512%nat -> zero_sector d = replicate 512 0.
Proof.
  intros Hl. unfold zero_sector, JOURNAL_SECTOR_SIZE.
  assert (length (for_loop 0 512 (fun i s => arr_set s i 0) d) = 512%nat /\
    forall j, 0 <= j < 512 -> arr (for_loop 0 512 (fun i s => arr_set s i 0) d) j = 0)
    as [H1 H2].
  { apply (for_loop_inv (fun k d' => length d' = 512%nat /\
      forall j, 0 <= j < k -> arr d' j = 0)); [lia|split; [done|lia]|].
    intros k d' Hk [Hlen H]. split; [by rewrite length_arr_set|]. intros j Hj.
    rewrite arr_set_get by lia. case_if; [done|]. apply H. lia. }
  apply arr_ext; [by rewrite length_replicate|]. intros i Hi. rewrite H2 by lia.
  symmetry. apply arr_lookup, lookup_replicate_2. lia.
Qed.

(** ** Checksum *)

Lemma crc32_update_ext crc d d' start n :
  (forall j, start <= j < start + n -> arr d j = arr d' j) ->
  crc32_update crc d start n = crc32_update crc d' start n.
Proof.
  intros H. destruct (Z_le_gt_dec 0 n) as [Hn|Hn].
  2: { unfold crc32_update. by rewrite !for_loop_empty by lia. }
  unfold crc32_update at 1.
  apply (for_loop_inv (fun k c => c = crc32_update crc d' start k)); [done|done|].
  intros i c Hi ->. unfold crc32_update. rewrite for_loop_snoc by lia.
  by rewrite H by lia.
Qed.

(** The bytes the record checksum covers. *)
Definition crc_covered (j : Z) : Prop := 0 <= j < 16 \/ 20 <= j < 308.

Lemma record_crc_eq d :
  record_crc d = not32 (crc32_update (crc32_update 0xFFFFFFFF d 0 16) d 20 288).
Proof. reflexivity. Qed.

Lemma record_crc_ext d d' : (forall j, crc_covered j -> arr d j = arr d' j) ->
  record_crc d = record_crc d'.
Proof.
  intros H. rewrite !record_crc_eq.
  rewrite (crc32_update_ext _ d d' 0 16) by (intros; apply H; unfold crc_covered; lia).
  by rewrite (crc32_update_ext _ d d' 20 288) by (intros; apply H; unfold crc_covered; lia).
Qed.

Lemma flag_1 c : flag c 1 = Z.odd c.
Proof. change 1 with (2 ^ 0). rewrite flag_pow2 by lia. apply Z.bit0_odd. Qed.

Lemma crc_bit_u32 c : is_u32 c -> is_u32 (crc_bit c).
Proof.
  intros Hc. apply lxor_u32; [|case_if; unfold is_u32; lia].
  unfold is_u32 in *. rewrite Z.shiftr_div_pow2 by lia. change (2 ^ 1) with 2. dmlia.
Qed.

(** The top bit of the polynomial is set, so one step can be undone. *)
Lemma crc_bit_inj c c' : is_u32 c -> is_u32 c' -> crc_bit c = crc_bit c' -> c = c'.
Proof.
  unfold is_u32. intros Hc Hc' E.
  assert (forall x, 0 <= x < 4294967296 -> Z.testbit (crc_bit x) 31 = Z.odd x) as Htop.
  { intros x Hx. unfold crc_bit. rewrite flag_1, Z.lxor_spec, Z.shiftr_spec by lia.
    replace x with (x mod 2 ^ 32) at 1 by (apply Z.mod_small; simpl; lia).
    rewrite Z.mod_pow2_bits_high by lia. by destruct (Z.odd x). }
  assert (Z.odd c = Z.odd c') as Ho by (rewrite <- !Htop by done; by rewrite E).
  unfold crc_bit in E. rewrite !flag_1, Ho in E.
  apply (f_equal (fun x => Z.lxor x (if Z.odd c' then 0xEDB88320 else 0))) in E.
  rewrite !Z.lxor_assoc, Z.lxor_nilpotent, !Z.lxor_0_r in E.
  rewrite !Z.shiftr_div_pow2 in E by lia. change (2 ^ 1) with 2 in E.
  rewrite !Zodd_mod in Ho. dmlia.
Qed.

Lemma crc_byte_u32 c b : is_u32 c -> is_u8 b -> is_u32 (crc_byte c b).
Proof.
  intros Hc Hb. unfold crc_byte. apply (for_loop_inv (fun _ c => is_u32 c)); [lia| |].
  - apply lxor_u32; [done|]. unfold is_u8, is_u32 in *. lia.
  - intros i c' _. apply crc_bit_u32.
Qed.

Lemma crc_bits_inj n i c c' : is_u32 c -> is_u32 c' ->
  for_count n i (fun _ => crc_bit) c = for_count n i (fun _ => crc_bit) c' -> c = c'.
Proof.
  revert i c c'. induction n as [|n IH]; intros i c c' Hc Hc' E; [done|]. simpl in E.
  apply IH in E; [|by apply crc_bit_u32..]. by apply crc_bit_inj.
Qed.

Lemma crc_byte_inj c c' b b' : is_u32 c -> is_u32 c' -> is_u8 b -> is_u8 b' ->
  crc_byte c b = crc_byte c' b' -> Z.lxor c b = Z.lxor c' b'.
Proof.
  intros Hc Hc' Hb Hb'. unfold is_u8 in *.
  apply (crc_bits_inj (Z.to_nat (8 - 0)) 0); apply lxor_u32; (done || (unfold is_u32; lia)).
Qed.

Lemma lxor_cancel_l a b c : Z.lxor a b = Z.lxor a c -> b = c.
Proof.
  intros E. apply (f_equal (Z.lxor a)) in E.
  by rewrite <- !Z.lxor_assoc, Z.lxor_nilpotent, !Z.lxor_0_l in E.
Qed.

Lemma lxor_cancel_r a b c : Z.lxor a c = Z.lxor b c -> a = b.
Proof. rewrite (Z.lxor_comm a), (Z.lxor_comm b). apply lxor_cancel_l. Qed.

Lemma crc32_update_u32 crc d start n : is_u32 crc -> bytes_ok d ->
  is_u32 (crc32_update crc d start n).
Proof.
  intros Hc Hd. unfold crc32_update. destruct (Z_le_gt_dec 0 n) as [Hn|Hn];
    [|by rewrite for_loop_empty by lia].
  apply (for_loop_inv (fun _ c => is_u32 c)); [done|done|].
  intros i c _ H. apply crc_byte_u32; [done|]. by apply arr_u8.
Qed.

Lemma crc32_update_snoc crc d start k : 0 <= k ->
  crc32_update crc d start (k + 1) = crc_byte (crc32_update crc d start k) (arr d (start + k)).
Proof. intros Hk. unfold crc32_update. by rewrite for_loop_snoc by lia. Qed.

(** Different registers stay different over equal bytes. *)
Lemma crc32_update_neq c c' d d' start n : 0 <= n -> is_u32 c -> is_u32 c' ->
  bytes_ok d -> bytes_ok d' -> c <> c' ->
  (forall j, start <= j < start + n -> arr d j = arr d' j) ->
  crc32_update c d start n <> crc32_update c' d' start n.
Proof.
  intros Hn Hc Hc' Hd Hd' Hne. revert n Hn.
  apply (natlike_ind (fun n => (forall j, start <= j < start + n -> arr d j = arr d' j) ->
    crc32_update c d start n <> crc32_update c' d' start n)); [done|].
  intros k Hk IH H E. unfold Z.succ in *. rewrite !crc32_update_snoc in E by done.
  apply crc_byte_inj in E; try (by apply arr_u8); try (by apply crc32_update_u32).
  rewrite (H (start + k)) in E by lia. apply lxor_cancel_r in E.
  apply IH in E; [done|]. intros j Hj. apply H. lia.
Qed.

(** One changed byte inside the covered range changes the checksum. *)
Lemma crc32_update_byte crc d d' start n i : is_u32 crc -> bytes_ok d -> bytes_ok d' ->
  0 <= n -> arr d i <> arr d' i ->
  (forall j, start <= j < start + n -> j <> i -> arr d j = arr d' j) ->
  start <= i < start + n -> crc32_update crc d start n <> crc32_update crc d' start n.
Proof.
  intros Hc Hd Hd' Hn Hne. revert n Hn.
  apply (natlike_ind (fun n => (forall j, start <= j < start + n -> j <> i -> arr d j = arr d' j) ->
    start <= i < start + n -> crc32_update crc d start n <> crc32_update crc d' start n)); [lia|].
  intros k Hk IH H Hi E. unfold Z.succ in *. rewrite !crc32_update_snoc in E by done.
  apply crc_byte_inj in E; try (by apply arr_u8); try (by apply crc32_update_u32).
  destruct (decide (i = start + k)) as [->|Hik].
  - rewrite (crc32_update_ext crc d d') in E by (intros j Hj; apply H; lia).
    by apply lxor_cancel_l in E.
  - rewrite (H (start + k)) in E by lia. apply lxor_cancel_r in E.
    apply IH in E; [done|intros j Hj; apply H; lia|lia].
Qed.

Lemma not32_inj a b : not32 a = not32 b -> a = b.
Proof. unfold not32. lia. Qed.

Lemma record_crc_u32 d : bytes_ok d -> is_u32 (record_crc d).
Proof.
  intros H. rewrite record_crc_eq.
  pose proof (crc32_update_u32 (crc32_update 0xFFFFFFFF d 0 16) d 20 288) as Hu.
  unfold not32, UINT32_MAX, is_u32 in *. destruct Hu; [|done|lia].
  apply crc32_update_u32; [unfold is_u32; lia|done].
Qed.

Lemma record_crc_byte d d' i : bytes_ok d -> bytes_ok d' -> crc_covered i ->
  arr d i <> arr d' i -> (forall j, crc_covered j -> j <> i -> arr d j = arr d' j) ->
  record_crc d <> record_crc d'.
Proof.
  intros Hd Hd' Hi Hne H E. rewrite !record_crc_eq in E. apply not32_inj in E. revert E.
  assert (is_u32 0xFFFFFFFF) by (unfold is_u32; lia).
  destruct (decide (i < 16)) as [Hlt|Hge].
  - apply crc32_update_neq; try done; try (by apply crc32_update_u32).
    + apply crc32_update_byte with i; try done; [|unfold crc_covered in Hi; lia].
      intros j Hj. apply H. unfold crc_covered. lia.
    + intros j Hj. apply H; unfold crc_covered; lia.
  - rewrite (crc32_update_ext _ d d' 0 16)
      by (intros j Hj; apply H; unfold crc_covered; lia).
    apply crc32_update_byte with i; try done; [by apply crc32_update_u32| |].
    + intros j Hj. apply H. unfold crc_covered. lia.
    + unfold crc_covered in Hi. lia.
Qed.
