(* ===== verification/JournalFormat.v ===== *)
(** * Journal records: format theorems

    Encoding and decoding are inverse to each other on valid records, the encoding of a record
    is unique, and a sector that differs from a valid one in one byte is rejected. *)

From S2P Require Import Prelude Journal.
Local Open Scope c_scope.
Local Open Scope Z_scope.
Local Opaque for_loop find_first all_range crc32_update record_crc superblock_crc.

(** ** The fields of a record *)

Record layout (s : list Z) (op seq nl cl : Z) (nm ct : list Z) (commit : Z) : Prop := {
  l_magic : read_u32 s 0 = JOURNAL_MAGIC;
  l_version : read_u16 s 4 = JOURNAL_VERSION;
  l_operation : read_u16 s 6 = op;
  l_sequence : read_u32 s 8 = seq;
  l_name_length : read_u16 s 12 = nl;
  l_content_length : read_u16 s 14 = cl;
  l_crc : read_u32 s 16 = record_crc s;
  l_name : forall i, 0 <= i < 32 -> arr s (20 + i) = if i <? nl then arr nm i else 0;
  l_content : forall i, 0 <= i < 256 -> arr s (52 + i) = if i <? cl then arr ct i else 0;
  l_padding : forall i, 308 <= i < 508 -> arr s i = 0;
  l_commit : read_u32 s 508 = commit
}.

(** What [journal_encode] accepts. *)
Record record_ok (op seq nl cl : Z) (nm ct : list Z) : Prop := {
  r_operation : op = 1 \/ op = 2;
  r_sequence : 0 < seq < 4294967296;
  r_name_length : 0 < nl < 32;
  r_content_length : 0 <= cl <= 256;
  r_remove : op = 2 -> cl = 0;
  r_name : forall i, 0 <= i < nl -> 33 <= arr nm i /\ arr nm i <> 47 /\ arr nm i <> 92
}.

(** The entry [journal_decode] builds for these fields. *)
Definition padded (n : Z) (used : Z) (l : list Z) : list Z :=
  map (fun i => if i <? used then arr l i else 0) (seqZ 0 n).

Definition entry_of (op seq nl cl : Z) (nm ct : list Z) : journal_entry :=
  Build_journal_entry op seq nl cl (padded 32 nl nm) (padded 256 cl ct).

Definition commit_word (committed : bool) : Z := if committed then JOURNAL_COMMIT else 0.

Lemma valid_name_spec d start n :
  valid_name d start n = true <->
  0 <> n /\ n < 32 /\ forall i, 0 <= i < n ->
    33 <= arr d (start + i) /\ arr d (start + i) <> 47 /\ arr d (start + i) <> 92.
Proof.
  unfold valid_name, JOURNAL_NAME_MAX. rewrite andb_true_iff, all_range_true. split.
  - intros [H1 H2]. split; [lia|]. split; [lia|]. intros i Hi. specialize (H2 i Hi). lia.
  - intros (H1 & H2 & H3). split; [lia|]. intros i Hi. specialize (H3 i Hi). lia.
Qed.

Lemma zero_range_spec s a b : zero_range s a b = true <-> forall i, a <= i < b -> arr s i = 0.
Proof.
  unfold zero_range. rewrite all_range_true. split; intros H i Hi; specialize (H i Hi); lia.
Qed.

Lemma sub_bytes_padded s base n used l :
  (forall i, 0 <= i < n -> arr s (base + i) = if i <? used then arr l i else 0) ->
  sub_bytes s base n = padded n used l.
Proof.
  intros H. unfold sub_bytes, padded. apply list_fmap_ext. intros k i Hi.
  apply lookup_seqZ in Hi as [-> ?]. apply H. lia.
Qed.

Lemma arr_sub_bytes d base n i : 0 <= i < n -> arr (sub_bytes d base n) i = arr d (base + i).
Proof.
  intros Hi. apply arr_lookup. unfold sub_bytes. rewrite list_lookup_fmap, lookup_seqZ_lt by lia.
  simpl. do 2 f_equal. lia.
Qed.

(** A sector with a valid layout decodes to its record. *)
Lemma layout_decode s op seq nl cl nm ct committed :
  record_ok op seq nl cl nm ct -> layout s op seq nl cl nm ct (commit_word committed) ->
  journal_decode_internal s committed = Some (entry_of op seq nl cl nm ct).
Proof.
  intros [Hop Hseq Hnl Hcl Hrm Hnm] [Lm Lv Lo Ls Ln Lc Lcrc Lname Lcont Lpad Lcom].
  unfold journal_decode_internal. journal_consts.
  rewrite Lm, Lv, Lo, Ls, Ln, Lc, Lcrc, Lcom, !Z.eqb_refl.
  replace (seq =? 0) with false by lia.
  replace (negb true || negb true || false || _) with false by (by destruct committed).
  replace (negb (op =? 1) && negb (op =? 2)) with false by lia.
  assert (valid_name s 20 nl = true) as ->.
  { apply valid_name_spec. split; [lia|]. split; [lia|]. intros i Hi. rewrite Lname by lia.
    replace (i <? nl) with true by lia. by apply Hnm. }
  replace (_ || _) with false by (simpl; lia).
  rewrite (Lname nl) by lia. replace (nl <? nl) with false by lia. simpl negb. cbv iota.
  assert (zero_range s (20 + (nl + 1)) (20 + 32) = true) as ->.
  { apply zero_range_spec. intros i Hi. replace i with (20 + (i - 20)) by lia.
    rewrite Lname by lia. by replace (i - 20 <? nl) with false by lia. }
  assert (zero_range s (20 + 32 + cl) (20 + 32 + 256) = true) as ->.
  { apply zero_range_spec. intros i Hi. replace i with (52 + (i - 52)) by lia.
    rewrite Lcont by lia. by replace (i - 52 <? cl) with false by lia. }
  assert (zero_range s (20 + (32 + 256)) 508 = true) as ->.
  { apply zero_range_spec. intros i Hi. apply Lpad. lia. }
  simpl negb. cbv iota. unfold entry_of. do 2 f_equal; by apply sub_bytes_padded.
Qed.

(** Conversely, an accepted sector has the layout of the entry it decodes to. *)
Lemma decode_layout s committed e : sector_ok s ->
  journal_decode_internal s committed = Some e ->
  record_ok (operation e) (sequence e) (name_length e) (content_length e) (name e) (content e) /\
  layout s (operation e) (sequence e) (name_length e) (content_length e) (name e) (content e)
    (commit_word committed) /\
  e = entry_of (operation e) (sequence e) (name_length e) (content_length e) (name e) (content e).
Proof.
  intros [Hlen Hb]. unfold journal_decode_internal. journal_consts.
  pose proof (read_u32_range s 8 Hb) as R8. pose proof (read_u16_range s 12 Hb) as R12.
  pose proof (read_u16_range s 14 Hb) as R14. unfold is_u32, is_u16 in *.
  guards. intros [= <-]. split_bools. simpl.
  repeat match goal with
  | H : valid_name _ _ _ = true |- _ => apply valid_name_spec in H as (? & ? & ?)
  | H : zero_range _ _ _ = true |- _ => rewrite zero_range_spec in H
  end.
  assert (forall i, 0 <= i < 32 -> arr (sub_bytes s 20 32) i = arr s (20 + i)) as Hn.
  { intros i Hi. apply arr_sub_bytes. lia. }
  assert (forall i, 0 <= i < 256 -> arr (sub_bytes s (20 + 32) 256) i = arr s (52 + i)) as Hc.
  { intros i Hi. rewrite arr_sub_bytes by lia. done. }
  assert (layout s (read_u16 s 6) (read_u32 s 8) (read_u16 s 12) (read_u16 s 14)
    (sub_bytes s 20 32) (sub_bytes s (20 + 32) 256) (commit_word committed)) as L.
  { split; try done; try lia.
    - intros i Hi. rewrite Hn by done. destruct (i <? read_u16 s 12) eqn:E; [done|].
      destruct (decide (i = read_u16 s 12)) as [->|]; [lia|].
      match goal with H : forall i, 20 + (_ + 1) <= i < _ -> _ |- _ => apply H end. lia.
    - intros i Hi. rewrite Hc by done. destruct (i <? read_u16 s 14) eqn:E; [done|].
      match goal with H : forall i, 20 + 32 + _ <= i < _ -> _ |- _ => apply H end. lia.
    - unfold commit_word. destruct committed; split_bools; lia. }
  split; [|split; [done|]].
  - split; [lia..|]. intros i Hi. rewrite Hn by lia. by match goal with H : _ |- _ => apply H end.
  - unfold entry_of. f_equal; apply sub_bytes_padded; apply L.
Qed.

(** ** Reading past writes to other fields *)

Lemma length_store_bytes base n src d : length (store_bytes base n src d) = length d.
Proof.
  unfold store_bytes. destruct (Z_le_gt_dec 0 n); [|by rewrite for_loop_empty by lia].
  apply (for_loop_inv (fun _ d' => length d' = length d)); [done|done|].
  intros i d' _ <-. apply length_arr_set.
Qed.

#[export] Hint Rewrite length_write_u16 length_write_u32 length_store_bytes : len.

Lemma arr_write_u16_ne d o v j : 0 <= o -> o + 1 < Z.of_nat (length d) -> 0 <= j ->
  j < o \/ o + 2 <= j -> arr (write_u16 d o v) j = arr d j.
Proof. intros. rewrite arr_write_u16 by done. by repeat case_if; lia || done. Qed.

Lemma arr_write_u32_ne d o v j : 0 <= o -> o + 3 < Z.of_nat (length d) -> 0 <= j ->
  j < o \/ o + 4 <= j -> arr (write_u32 d o v) j = arr d j.
Proof. intros. rewrite arr_write_u32 by done. by repeat case_if; lia || done. Qed.

Lemma arr_store_ne base n src d j : 0 <= base -> 0 <= n -> base + n <= Z.of_nat (length d) ->
  0 <= j -> j < base \/ base + n <= j -> arr (store_bytes base n src d) j = arr d j.
Proof.
  intros Hb Hn Hl Hj Hne. destruct (store_bytes_spec base n src d Hb Hn Hl) as [_ ->]; [|done].
  by replace (_ && _) with false by lia.
Qed.

Lemma arr_zeros n j : arr (replicate n 0) j = 0.
Proof.
  unfold arr. destruct (nth_in_or_default (Z.to_nat j) (replicate n 0) 0) as [Hin | ->]; [|done].
  by apply list_elem_of_In, elem_of_replicate in Hin as [-> _].
Qed.

Lemma bytes_zeros n : bytes_ok (replicate n 0).
Proof. apply Forall_replicate. unfold is_u8. lia. Qed.

(** [field_skip] moves a read past writes to disjoint ranges and evaluates it at its own. *)
Ltac field_side :=
  autorewrite with len; rewrite ?length_replicate;
  first [ lia | solve [unfold is_u32, is_u16; lia] | solve [eauto 12 using bytes_write_u16, bytes_write_u32, store_bytes_ok,
    bytes_zeros] ].

Ltac field_skip :=
  repeat first
  [ rewrite arr_write_u32_ne by field_side
  | rewrite arr_write_u16_ne by field_side
  | rewrite arr_store_ne by field_side ].

Ltac read_here :=
  match goal with
  | |- read_u32 (write_u32 _ ?o _) ?o = _ => apply read_write_u32; field_side
  | |- read_u16 (write_u16 _ ?o _) ?o = _ => apply read_write_u16; field_side
  | |- read_u32 (write_u32 ?d _ _) ?o = _ =>
      rewrite (read_u32_ext _ d) by (intros; field_skip; done); read_here
  | |- read_u32 (write_u16 ?d _ _) ?o = _ =>
      rewrite (read_u32_ext _ d) by (intros; field_skip; done); read_here
  | |- read_u32 (store_bytes _ _ _ ?d) ?o = _ =>
      rewrite (read_u32_ext _ d) by (intros; field_skip; done); read_here
  | |- read_u16 (write_u32 ?d _ _) ?o = _ =>
      rewrite (read_u16_ext _ d) by (intros; field_skip; done); read_here
  | |- read_u16 (write_u16 ?d _ _) ?o = _ =>
      rewrite (read_u16_ext _ d) by (intros; field_skip; done); read_here
  | |- read_u16 (store_bytes _ _ _ ?d) ?o = _ =>
      rewrite (read_u16_ext _ d) by (intros; field_skip; done); read_here
  end.

(** The sector before its checksum. *)
Definition record_body (op seq nl cl : Z) (nm ct : list Z) : list Z :=
  store_bytes 52 cl ct (store_bytes 20 nl nm
    (write_u16 (write_u16 (write_u32 (write_u16 (write_u16
      (write_u32 (replicate 512 0) 0 JOURNAL_MAGIC) 4 JOURNAL_VERSION) 6 op) 8 seq) 12 nl) 14 cl)).

Definition record_sector (op seq nl cl : Z) (nm ct : list Z) (committed : bool) : list Z :=
  let body := record_body op seq nl cl nm ct in
  let s := write_u32 body 16 (record_crc body) in
  if committed then write_u32 s 508 JOURNAL_COMMIT else s.

Section encode.
Context (op seq nl cl : Z) (nm ct : list Z).
Context (Hok : record_ok op seq nl cl nm ct) (Hnm : bytes_ok nm) (Hct : bytes_ok ct).

Lemma record_body_ok : sector_ok (record_body op seq nl cl nm ct).
Proof.
  destruct Hok. unfold record_body. split; [by autorewrite with len|].
  apply store_bytes_ok; [done| |lia]. apply store_bytes_ok; [done| |lia].
  eauto 10 using bytes_write_u16, bytes_write_u32, bytes_zeros.
Qed.

Lemma record_sector_ok committed : sector_ok (record_sector op seq nl cl nm ct committed).
Proof.
  destruct record_body_ok as [Hl Hb]. unfold record_sector.
  destruct committed; (split; [by autorewrite with len|]); auto using bytes_write_u32.
Qed.

Lemma record_body_read :
  let s := record_body op seq nl cl nm ct in
  read_u32 s 0 = JOURNAL_MAGIC /\ read_u16 s 4 = JOURNAL_VERSION /\ read_u16 s 6 = op /\
  read_u32 s 8 = seq /\ read_u16 s 12 = nl /\ read_u16 s 14 = cl.
Proof.
  destruct Hok as [Hop Hseq Hnl Hcl _ _]. unfold record_body, JOURNAL_MAGIC, JOURNAL_VERSION.
  cbv zeta. repeat split; read_here.
Qed.

Lemma record_body_arr j : 16 <= j < 512 -> arr (record_body op seq nl cl nm ct) j =
  if (20 <=? j) && (j <? 20 + nl) then arr nm (j - 20)
  else if (52 <=? j) && (j <? 52 + cl) then arr ct (j - 52) else 0.
Proof.
  destruct Hok as [Hop Hseq Hnl Hcl _ _]. intros Hj. unfold record_body.
  destruct (store_bytes_spec 52 cl ct (store_bytes 20 nl nm
    (write_u16 (write_u16 (write_u32 (write_u16 (write_u16
      (write_u32 (replicate 512 0) 0 JOURNAL_MAGIC) 4 JOURNAL_VERSION) 6 op) 8 seq) 12 nl) 14 cl)))
    as [_ ->]; [lia|lia|field_side| |lia].
  match goal with |- context [store_bytes 20 nl nm ?d] =>
    destruct (store_bytes_spec 20 nl nm d) as [_ ->]; [lia|lia|field_side| |lia] end.
  field_skip. rewrite arr_zeros. repeat case_if; split_bools; try done; lia.
Qed.

End encode.

Lemma record_sector_layout op seq nl cl nm ct committed :
  record_ok op seq nl cl nm ct -> bytes_ok nm -> bytes_ok ct ->
  layout (record_sector op seq nl cl nm ct committed) op seq nl cl nm ct (commit_word committed).
Proof.
  intros Hok Hnm Hct. destruct (record_body_ok _ _ _ _ _ _ Hok Hnm Hct) as [Hl Hb].
  pose proof (record_body_read _ _ _ _ _ _ Hok) as (R0 & R4 & R6 & R8 & R12 & R14).
  pose proof (record_body_arr _ _ _ _ _ _ Hok) as Ha.
  pose proof (record_crc_u32 _ Hb) as Hcrc.
  destruct Hok as [Hop Hseq Hnl Hcl _ _].
  set (b := record_body op seq nl cl nm ct) in *.
  assert (forall j, 0 <= j < 508 -> ~ 16 <= j < 20 ->
    arr (record_sector op seq nl cl nm ct committed) j = arr b j) as Hs.
  { intros j Hj Hne. unfold record_sector. fold b. destruct committed; by field_skip. }
  assert (read_u32 (record_sector op seq nl cl nm ct committed) 16 = record_crc b) as H16.
  { unfold record_sector. fold b. destruct committed; read_here. }
  split.
  - rewrite (read_u32_ext _ b) by (intros; apply Hs; lia). done.
  - rewrite (read_u16_ext _ b) by (intros; apply Hs; lia). done.
  - rewrite (read_u16_ext _ b) by (intros; apply Hs; lia). done.
  - rewrite (read_u32_ext _ b) by (intros; apply Hs; lia). done.
  - rewrite (read_u16_ext _ b) by (intros; apply Hs; lia). done.
  - rewrite (read_u16_ext _ b) by (intros; apply Hs; lia). done.
  - rewrite H16. apply record_crc_ext. intros j Hj. unfold crc_covered in Hj.
    symmetry. apply Hs; lia.
  - intros i Hi. rewrite Hs, Ha by lia. repeat case_if; split_bools; try lia; f_equal; lia.
  - intros i Hi. rewrite Hs, Ha by lia. repeat case_if; split_bools; try lia; f_equal; lia.
  - intros i Hi. rewrite Hs, Ha by lia. repeat case_if; lia.
  - unfold record_sector. fold b. destruct committed.
    + apply read_write_u32; [by apply bytes_write_u32|lia|field_side|unfold is_u32, commit_word, JOURNAL_COMMIT; lia].
    + rewrite (read_u32_ext _ b) by (intros; field_skip; done).
      assert (forall j, 508 <= j < 512 -> arr b j = 0) as Hz.
      { intros j Hj. rewrite Ha by lia. repeat case_if; lia. }
      unfold read_u32. by rewrite !Hz by lia.
Qed.

Lemma bounded_length_range v : 0 <= bounded_length (Some v) 32 <= 32.
Proof.
  unfold bounded_length. destruct (find_first _ _ _) as [k|] eqn:E; simpl; [|lia].
  apply find_first_Some in E as [? _]. lia.
Qed.

(** The encoder returns exactly these sectors, exactly for valid records. *)
Lemma encode_internal_valid buf op seq nm ct cl committed :
  let nl := bounded_length (Some nm) 32 in
  length buf = 512%nat -> (cl <> 0 -> is_Some ct) ->
  record_ok op seq nl cl nm (default [] ct) ->
  journal_encode_internal buf op seq (Some nm) ct cl committed =
  Some (record_sector op seq nl cl nm (default [] ct) committed).
Proof.
  intros nl Hbuf Hct [Hop Hseq Hnl Hcl Hrm Hnm]. unfold journal_encode_internal.
  replace (_ || _ || _ || _) with false.
  2: { journal_consts. destruct ct; [lia|]. destruct (decide (cl = 0)) as [->|]; [lia|].
       destruct Hct as [? ?]; done. }
  change (bounded_length (Some nm) JOURNAL_NAME_MAX) with nl. cbv zeta iota beta.
  replace (valid_name nm 0 nl) with true
    by (symmetry; apply valid_name_spec; simpl; split; [lia|]; split; [lia|done]).
  replace (_ || _) with false by (journal_consts; simpl; lia).
  rewrite zero_sector_spec by done. done.
Qed.

Lemma encode_internal_ok buf op seq name ct cl committed s :
  is_u32 seq -> 0 <= cl ->
  journal_encode_internal buf op seq name ct cl committed = Some s ->
  exists nm, name = Some nm /\ (cl <> 0 -> is_Some ct) /\
    record_ok op seq (bounded_length (Some nm) 32) cl nm (default [] ct).
Proof.
  unfold is_u32. intros Hseq Hcl. unfold journal_encode_internal. guards. intros _.
  destruct name as [nm|]; [|done]. exists nm. split; [done|].
  change (bounded_length (Some nm) JOURNAL_NAME_MAX) with (bounded_length (Some nm) 32) in *.
  pose proof (bounded_length_range nm). journal_consts. split_bools.
  match goal with H : valid_name _ _ _ = true |- _ => apply valid_name_spec in H as (? & ? & Hn) end.
  split; [intros; destruct ct; [by eauto|lia]|]. split; try lia. exact Hn.
Qed.

(** Sectors with the same fields are the same sector. *)
Lemma layout_unique s s' op seq nl cl nm ct commit : sector_ok s -> sector_ok s' ->
  layout s op seq nl cl nm ct commit -> layout s' op seq nl cl nm ct commit -> s = s'.
Proof.
  intros [Hl Hb] [Hl' Hb'] [L0 L4 L6 L8 L12 L14 L16 Ln Lc Lp L508]
    [M0 M4 M6 M8 M12 M14 M16 Mn Mc Mp M508].
  assert (forall j, 0 <= j < 512 -> ~ 16 <= j < 20 -> arr s j = arr s' j) as H.
  { intros j Hj Hne.
    assert (0 <= j < 4 \/ 4 <= j < 6 \/ 6 <= j < 8 \/ 8 <= j < 12 \/ 12 <= j < 14 \/ 14 <= j < 16 \/
      20 <= j < 52 \/ 52 <= j < 308 \/ 308 <= j < 508 \/ 508 <= j < 512)
      as [?|[?|[?|[?|[?|[?|[?|[?|[?|?]]]]]]]]] by lia.
    - apply (read_u32_inj s s' 0); [done..|congruence|lia].
    - apply (read_u16_inj s s' 4); [done..|congruence|lia].
    - apply (read_u16_inj s s' 6); [done..|congruence|lia].
    - apply (read_u32_inj s s' 8); [done..|congruence|lia].
    - apply (read_u16_inj s s' 12); [done..|congruence|lia].
    - apply (read_u16_inj s s' 14); [done..|congruence|lia].
    - replace j with (20 + (j - 20)) by lia. by rewrite Ln, Mn by lia.
    - replace j with (52 + (j - 52)) by lia. by rewrite Lc, Mc by lia.
    - by rewrite Lp, Mp by lia.
    - apply (read_u32_inj s s' 508); [done..|congruence|lia]. }
  apply arr_ext; [congruence|]. rewrite Hl. intros j Hj.
  destruct (decide (16 <= j < 20)) as [Hc|]; [|apply H; lia].
  apply (read_u32_inj s s' 16); [done..| |lia]. rewrite L16, M16.
  apply record_crc_ext. intros k Hk. unfold crc_covered in Hk. apply H; lia.
Qed.

Lemma layout_ext s op seq nl cl nm ct nm' ct' commit :
  (forall i, 0 <= i < nl -> arr nm i = arr nm' i) ->
  (forall i, 0 <= i < cl -> arr ct i = arr ct' i) ->
  layout s op seq nl cl nm ct commit -> layout s op seq nl cl nm' ct' commit.
Proof.
  intros Hn Hc [L0 L4 L6 L8 L12 L14 L16 Ln Lc Lp L508]. split; try assumption.
  - intros i Hi. rewrite Ln by done. case_if; [apply Hn; lia|done].
  - intros i Hi. rewrite Lc by done. case_if; [apply Hc; lia|done].
Qed.

(** ** C strings and padding *)

Lemma arr_app_l l l' i : 0 <= i < Z.of_nat (length l) -> arr (l ++ l') i = arr l i.
Proof. intros Hi. unfold arr. apply app_nth1. lia. Qed.

Lemma arr_app_r l l' i : Z.of_nat (length l) <= i ->
  arr (l ++ l') i = arr l' (i - Z.of_nat (length l)).
Proof. intros Hi. unfold arr. rewrite app_nth2 by lia. f_equal. lia. Qed.

Lemma length_padded n used l : 0 <= n -> length (padded n used l) = Z.to_nat n.
Proof. intros Hn. unfold padded. rewrite length_map, length_seqZ. lia. Qed.

Lemma arr_padded n used l i : 0 <= i < n ->
  arr (padded n used l) i = if i <? used then arr l i else 0.
Proof.
  intros Hi. apply arr_lookup. unfold padded. rewrite list_lookup_fmap, lookup_seqZ_lt by lia.
  cbn [fmap option_fmap option_map]. by rewrite Z.add_0_l, Z2Nat.id by lia.
Qed.

Lemma padded_app n l l' : Z.of_nat (length l) <= n ->
  padded n (Z.of_nat (length l)) (l ++ l') = l ++ replicate (Z.to_nat n - length l) 0.
Proof.
  intros Hl. apply arr_ext.
  - rewrite length_padded, length_app, length_replicate by lia. lia.
  - rewrite length_padded by lia. intros i Hi. rewrite arr_padded by lia. case_if.
    + by rewrite !arr_app_l by lia.
    + rewrite arr_app_r by lia. by rewrite arr_zeros.
Qed.

(** The length loop stops at the terminator. *)
Lemma bounded_length_cstring n : Forall (fun c => 0 < c < 256) n -> (length n < 32)%nat ->
  bounded_length (Some (n ++ [0])) 32 = Z.of_nat (length n).
Proof.
  intros Hn Hl. unfold bounded_length.
  rewrite (proj2 (find_first_Some 0 32 _ (Z.of_nat (length n)))); [done|].
  split; [lia|]. split.
  - rewrite arr_app_r by lia. by rewrite Z.sub_diag.
  - intros j Hj. rewrite arr_app_l by lia. apply Z.eqb_neq.
    destruct (lookup_lt_is_Some_2 n (Z.to_nat j)) as [c Hc]; [lia|].
    rewrite (arr_lookup _ _ _ Hc). apply (Forall_lookup_1 _ _ _ _ Hn) in Hc. lia.
Qed.

Lemma bounded_length_long n : Forall (fun c => 0 < c < 256) n -> (32 <= length n)%nat ->
  bounded_length (Some (n ++ [0])) 32 = 32.
Proof.
  intros Hn Hl. unfold bounded_length.
  rewrite (proj2 (find_first_None 0 32 _)); [done|]. intros j Hj. rewrite arr_app_l by lia.
  apply Z.eqb_neq. destruct (lookup_lt_is_Some_2 n (Z.to_nat j)) as [c Hc]; [lia|].
  rewrite (arr_lookup _ _ _ Hc). apply (Forall_lookup_1 _ _ _ _ Hn) in Hc. lia.
Qed.

Lemma cstring_bytes n : Forall (fun c => 0 < c < 256) n -> bytes_ok (n ++ [0]).
Proof.
  intros Hn. apply Forall_app. split; [|repeat constructor; lia].
  eapply Forall_impl; [|exact Hn]. unfold is_u8. simpl. lia.
Qed.

Lemma decode_body_sector s op seq nl cl nm ct committed :
  record_ok op seq nl cl nm ct -> bytes_ok nm -> bytes_ok ct ->
  s = record_sector op seq nl cl nm ct committed ->
  journal_decode_internal s committed = Some (entry_of op seq nl cl nm ct).
Proof. intros Hok Hn Hc ->. by apply layout_decode, record_sector_layout. Qed.

(** A character the name test accepts. *)
Definition name_char (c : Z) : bool := (33 <=? c) && negb (c =? 47) && negb (c =? 92).

(** What can be recorded: a write of up to 256 bytes or a removal, under a non-zero sequence
    number and a name of 1 to 31 accepted characters. *)
Definition recordable (op seq : Z) (n c : list Z) : bool :=
  ((op =? 1) || ((op =? 2) && bool_decide (c = []))) && (0 <? seq) &&
  (1 <=? Z.of_nat (length n)) && (Z.of_nat (length n) <=? 31) && forallb name_char n &&
  (Z.of_nat (length c) <=? 256).

Lemma recordable_ok op seq n c : Forall (fun c => 0 < c < 256) n -> is_u32 seq ->
  (recordable op seq n c = true <->
   record_ok op seq (bounded_length (Some (n ++ [0])) 32) (Z.of_nat (length c)) (n ++ [0]) c).
Proof.
  intros Hn Hseq. unfold recordable, is_u32 in *.
  assert (bool_decide (c = []) = (Z.of_nat (length c) =? 0)) as ->.
  { case_bool_decide as E; [by subst|]. destruct c; [done|simpl; lia]. }
  destruct (decide (length n < 32)%nat) as [Hl|Hl].
  2: { rewrite bounded_length_long by (done || lia). split; [lia|]. intros [_ _ ? _ _ _]. lia. }
  rewrite bounded_length_cstring by done. split.
  - intros H. split_bools. rewrite forallb_forall in *. split; try lia.
    intros i Hi. rewrite arr_app_l by lia.
    assert (name_char (arr n i) = true) as Hc; [|unfold name_char in Hc; lia].
    match goal with H : forall x, In x n -> _ |- _ => apply H end.
    apply nth_In. lia.
  - intros [Hop Hs Hnl Hcl Hrm Hname]. rewrite !andb_true_iff. repeat split; try lia.
    apply forallb_forall. intros x Hx. apply In_nth with (d := 0) in Hx as (k & Hk & <-).
    specialize (Hname (Z.of_nat k) ltac:(lia)). rewrite arr_app_l in Hname by lia.
    unfold arr in Hname. rewrite Nat2Z.id in Hname. unfold name_char. lia.
Qed.

(** ** Superblock *)

Lemma superblock_crc_u32 d : bytes_ok d -> is_u32 (superblock_crc d).
Proof.
  intros H. change (superblock_crc d) with (not32 (crc32_update 0xFFFFFFFF d 0 12)).
  pose proof (crc32_update_u32 0xFFFFFFFF d 0 12 ltac:(unfold is_u32; lia) H).
  unfold not32, UINT32_MAX, is_u32 in *. lia.
Qed.

Lemma superblock_crc_ext d d' : (forall j, 0 <= j < 12 -> arr d j = arr d' j) ->
  superblock_crc d = superblock_crc d'.
Proof.
  intros H. change (not32 (crc32_update 0xFFFFFFFF d 0 12) = not32 (crc32_update 0xFFFFFFFF d' 0 12)).
  by rewrite (crc32_update_ext _ d d' 0 12) by (intros; apply H; lia).
Qed.

Lemma superblock_decode_encode buf n s : length buf = 512%nat -> 0 <= n ->
  journal_superblock_encode buf n = Some s ->
  sector_ok s /\ journal_superblock_decode s = Some n /\ 1 <= n <= 1024.
Proof.
  intros Hbuf Hn. unfold journal_superblock_encode. rewrite zero_sector_spec by done.
  unfold JOURNAL_MAX_DATA_SECTORS. guards. split_bools.
  set (h := write_u32 (write_u16 (write_u16 (write_u32 (replicate 512 0) 0
    JOURNAL_SUPERBLOCK_MAGIC) 4 JOURNAL_SUPERBLOCK_VERSION) 6 n) 8 0).
  assert (length h = 512%nat) as Hl by (unfold h; by autorewrite with len).
  assert (bytes_ok h) as Hb by (unfold h; eauto using bytes_write_u16, bytes_write_u32, bytes_zeros).
  pose proof (superblock_crc_u32 h Hb) as Hcrc. set (crc := superblock_crc h) in *.
  assert (read_u32 h 0 = JOURNAL_SUPERBLOCK_MAGIC /\ read_u16 h 4 = 1 /\ read_u16 h 6 = n /\
    read_u32 h 8 = 0) as (R0 & R4 & R6 & R8).
  { unfold h, JOURNAL_SUPERBLOCK_MAGIC, JOURNAL_SUPERBLOCK_VERSION. repeat split; read_here. }
  assert (forall j, 12 <= j < 512 -> arr h j = 0) as Hz.
  { intros j Hj. unfold h. field_skip. apply arr_zeros. }
  clearbody h. intros [= <-].
  set (s := write_u32 (write_u32 h 12 crc) JOURNAL_COMMIT_OFFSET JOURNAL_COMMIT).
  assert (sector_ok s) as Hs
    by (split; [unfold s; by autorewrite with len|unfold s; auto using bytes_write_u32]).
  assert (forall j, 0 <= j < 12 \/ 16 <= j < 508 -> arr s j = arr h j) as Hsh
    by (intros j Hj; unfold s, JOURNAL_COMMIT_OFFSET; field_skip; done).
  assert (read_u32 s 12 = crc) as R12
    by (unfold s, JOURNAL_COMMIT_OFFSET; read_here).
  assert (read_u32 s 508 = JOURNAL_COMMIT) as R508
    by (unfold s; apply read_write_u32;
        [by apply bytes_write_u32|journal_consts; lia|journal_consts; field_side|unfold is_u32, JOURNAL_COMMIT; lia]).
  split; [done|]. split; [|lia]. unfold journal_superblock_decode.
  rewrite (read_u32_ext s h 0), (read_u16_ext s h 4), (read_u16_ext s h 6), (read_u32_ext s h 8)
    by (intros; apply Hsh; lia).
  rewrite (superblock_crc_ext s h) by (intros; apply Hsh; lia). fold crc.
  unfold JOURNAL_COMMIT_OFFSET, JOURNAL_SUPERBLOCK_VERSION, JOURNAL_MAX_DATA_SECTORS.
  rewrite R0, R4, R6, R8, R12, R508, !Z.eqb_refl. simpl negb. cbn [orb].
  replace ((n =? 0) || (1024 <? n) || false || false) with false by lia.
  replace (zero_range s 16 508) with true; [done|]. symmetry. apply zero_range_spec.
  intros i Hi. rewrite Hsh, Hz by lia. done.
Qed.

(** ** Properties *)

(** C40: the encoder accepts exactly the recordable operations, and decoding what it wrote gives
    the operation back: the same kind, sequence number, name and content, zero-padded. *)
Theorem journal_encode_decode buf op seq n c :
  length buf = 512%nat -> Forall (fun c => 0 < c < 256) n -> bytes_ok c -> is_u32 seq ->
  match journal_encode buf op seq (Some (n ++ [0])) (Some c) (Z.of_nat (length c)) with
  | None => recordable op seq n c = false
  | Some s =>
      recordable op seq n c = true /\ sector_ok s /\
      journal_decode s = Some (Build_journal_entry op seq (Z.of_nat (length n))
        (Z.of_nat (length c)) (n ++ replicate (32 - length n) 0)
        (c ++ replicate (256 - length c) 0))
  end.
Proof.
  intros Hbuf Hn Hc Hseq. pose proof (recordable_ok op seq n c Hn Hseq) as Hrec.
  unfold journal_encode. destruct (journal_encode_internal _ _ _ _ _ _ _) as [s|] eqn:E.
  - pose proof E as E'. apply encode_internal_ok in E' as (nm & [= <-] & _ & Hok); [|done|lia].
    rewrite encode_internal_valid in E by eauto. apply Some_inj in E.
    change (default [] (Some c)) with c in *.
    assert (length n < 32)%nat as Hl.
    { destruct (decide (length n < 32)%nat); [done|]. destruct Hok as [_ _ Hnl _ _ _].
      rewrite bounded_length_long in Hnl by (done || lia). lia. }
    split; [by apply Hrec|]. split; [subst s; apply record_sector_ok; auto using cstring_bytes|].
    unfold journal_decode. rewrite bounded_length_cstring in * by done.
    rewrite (decode_body_sector _ _ _ _ _ _ _ true Hok (cstring_bytes n Hn) Hc (eq_sym E)).
    unfold entry_of. do 2 f_equal; [apply padded_app; lia|].
    rewrite <- (app_nil_r c) at 2. apply padded_app. destruct Hok. lia.
  - apply not_true_iff_false. intros Er. apply Hrec in Er.
    by rewrite encode_internal_valid in E by eauto.
Qed.

(** The encoding is canonical. A sector the decoder accepts is, byte for byte, the one the
    encoder writes for the decoded entry. *)
Theorem journal_decode_canonical buf s e : length buf = 512%nat -> sector_ok s ->
  journal_decode s = Some e ->
  journal_encode buf (operation e) (sequence e) (Some (name e)) (Some (content e))
    (content_length e) = Some s.
Proof.
  intros Hbuf Hs Hd. destruct (decode_layout s true e Hs Hd) as (Hok & L & He).
  pose proof Hok as [Hop Hseq Hnl Hcl Hrm Hnm]. destruct Hs as [Hlen Hb].
  assert (forall i, 0 <= i < 32 -> arr (name e) i = if i <? name_length e then arr (name e) i else 0)
    as Hpad by (intros i Hi; rewrite He at 1; by apply arr_padded).
  assert (bounded_length (Some (name e)) 32 = name_length e) as Hbl.
  { unfold bounded_length. rewrite (proj2 (find_first_Some 0 32 _ (name_length e))); [done|].
    split; [lia|]. split.
    - rewrite Hpad by lia. by replace (name_length e <? name_length e) with false by lia.
    - intros j Hj. specialize (Hnm j Hj). lia. }
  assert (forall base n, bytes_ok (sub_bytes s base n)) as Hsub.
  { intros base n. apply Forall_fmap, Forall_forall. intros x _. by apply arr_u8. }
  assert (bytes_ok (name e) /\ bytes_ok (content e)) as [Hbn Hbc].
  { revert Hd. unfold journal_decode, journal_decode_internal. guards. intros [= <-]. split; apply Hsub. }
  unfold journal_encode. rewrite encode_internal_valid; [|done|by eauto|by rewrite Hbl].
  f_equal. rewrite Hbl. change (default [] (Some (content e))) with (content e).
  eapply layout_unique; [by apply record_sector_ok|done|by apply record_sector_layout|done].
Qed.

(** One damaged byte is always detected. No sector that differs in exactly one byte from a
    sector the decoder accepts is accepted, wherever the byte is. *)
Theorem journal_decode_detects_byte s s' e i : sector_ok s -> sector_ok s' ->
  journal_decode s = Some e -> 0 <= i < 512 -> arr s i <> arr s' i ->
  (forall j, 0 <= j < 512 -> j <> i -> arr s j = arr s' j) -> journal_decode s' = None.
Proof.
  intros Hs Hs' Hd Hi Hne Heq. destruct (journal_decode s') as [e'|] eqn:Hd'; [exfalso|done].
  destruct (decode_layout s true e Hs Hd) as (_ & [_ _ _ _ _ _ L16 _ _ Lp L508] & _).
  destruct (decode_layout s' true e' Hs' Hd') as (_ & [_ _ _ _ _ _ M16 _ _ Mp M508] & _).
  destruct Hs as [_ Hb], Hs' as [_ Hb'].
  assert (crc_covered i \/ 16 <= i < 20 \/ 308 <= i < 508 \/ 508 <= i < 512) as [Hc|[Hc|[Hc|Hc]]]
    by (unfold crc_covered; lia).
  - apply (record_crc_byte s s' i Hb Hb' Hc Hne).
    + intros j Hj. unfold crc_covered in Hj. apply Heq. lia.
    + rewrite <- L16, <- M16. apply read_u32_ext. intros j Hj. apply Heq; unfold crc_covered in Hc; lia.
  - apply Hne. apply (read_u32_inj s s' 16); [done..| |lia]. rewrite L16, M16.
    apply record_crc_ext. intros j Hj. unfold crc_covered in Hj. apply Heq; lia.
  - apply Hne. rewrite (Lp i Hc), (Mp i Hc). reflexivity.
  - apply Hne. apply (read_u32_inj s s' 508); [done..|congruence|lia].
Qed.

(** The superblock encoder accepts exactly the sizes 1 to 1024, and decoding what it wrote
    gives the size back. *)
Theorem journal_superblock_roundtrip buf n : length buf = 512%nat -> 0 <= n ->
  match journal_superblock_encode buf n with
  | None => ~ 1 <= n <= 1024
  | Some s => 1 <= n <= 1024 /\ sector_ok s /\ journal_superblock_decode s = Some n
  end.
Proof.
  intros Hbuf Hn. destruct (journal_superblock_encode buf n) as [s|] eqn:E.
  - by destruct (superblock_decode_encode buf n s Hbuf Hn E) as (? & ? & ?).
  - intros Hr. unfold journal_superblock_encode, JOURNAL_MAX_DATA_SECTORS in E.
    by replace ((n =? 0) || (1024 <? n)) with false in E by lia.
Qed.

(** ** Witnesses *)

Definition blank : list Z := replicate 512 0.

(** The record of the self test: a write of "safe" to NOTE. *)
Definition note_sector : list Z :=
  default [] (journal_encode blank 1 1 (Some [78; 79; 84; 69; 0]) (Some [115; 97; 102; 101]) 4).

Lemma note_sector_ok : sector_ok note_sector.
Proof.
  split; [vm_compute; reflexivity|].
  assert (forallb (fun b => (0 <=? b) && (b <? 256)) note_sector = true) as H
    by (vm_compute; reflexivity).
  apply Forall_forall. intros x Hx. rewrite forallb_forall in H.
  specialize (H x Hx). unfold is_u8. lia.
Qed.

Lemma journal_encode_decode_witness :
  journal_encode blank 1 1 (Some ([78; 79; 84; 69] ++ [0])) (Some [115; 97; 102; 101]) 4 <> None /\
  match journal_encode blank 1 1 (Some ([78; 79; 84; 69] ++ [0])) (Some [115; 97; 102; 101]) 4 with
  | None => recordable 1 1 [78; 79; 84; 69] [115; 97; 102; 101] = false
  | Some s =>
      recordable 1 1 [78; 79; 84; 69] [115; 97; 102; 101] = true /\ sector_ok s /\
      journal_decode s = Some (Build_journal_entry 1 1 4 4 ([78; 79; 84; 69] ++ replicate 28 0)
        ([115; 97; 102; 101] ++ replicate 252 0))
  end.
Proof.
  split; [vm_compute; discriminate|].
  apply (journal_encode_decode blank 1 1 [78; 79; 84; 69] [115; 97; 102; 101] eq_refl).
  - repeat constructor.
  - repeat constructor; unfold is_u8; lia.
  - unfold is_u32. lia.
Defined.

Lemma journal_decode_canonical_witness :
  exists e, journal_decode note_sector = Some e /\
    journal_encode blank (operation e) (sequence e) (Some (name e)) (Some (content e))
      (content_length e) = Some note_sector.
Proof.
  destruct (journal_decode note_sector) as [e|] eqn:E; [|vm_compute in E; discriminate E].
  exists e. split; [reflexivity|].
  apply (journal_decode_canonical blank note_sector e eq_refl note_sector_ok E).
Defined.

Lemma journal_decode_detects_byte_witness : journal_decode (arr_set note_sector 60 7) = None.
Proof.
  destruct note_sector_ok as [Hlen Hb].
  destruct (journal_decode note_sector) as [e|] eqn:E; [|vm_compute in E; discriminate E].
  apply (journal_decode_detects_byte note_sector (arr_set note_sector 60 7) e 60
    note_sector_ok); [|exact E|lia| |].
  - split; [by rewrite length_arr_set|]. apply bytes_ok_set; [exact Hb|]. unfold is_u8. lia.
  - vm_compute. discriminate.
  - intros j Hj Hne. symmetry. apply arr_set_ne; lia.
Defined.

Lemma journal_superblock_roundtrip_witness :
  match journal_superblock_encode blank 9 with
  | None => ~ 1 <= 9 <= 1024
  | Some s => 1 <= 9 <= 1024 /\ sector_ok s /\ journal_superblock_decode s = Some 9
  end.
Proof. apply (journal_superblock_roundtrip blank 9 eq_refl). lia. Defined.
