(* ===== verification/JournalLog.v ===== *)
(** * The journal as a log on a disk

    [scan_log], [journal_replay], [journal_next_sequence] and [journal_append] of
    [fs/journal.c] over an abstract sector device, and their crash safety: a record is
    published by a second write of a sector that is already complete but for its commit word. *)

From S2P Require Import Prelude Journal JournalFormat.
Local Open Scope c_scope.
Local Open Scope Z_scope.

(** ** The device
    The [read] and [write] callbacks for one sector. A failed read returns no data; a failed
    write may have reached the medium or not. *)

Class SectorDisk (D : Type) := {
  disk_read : Z -> D -> option (list Z) * D;
  disk_write : Z -> list Z -> D -> bool * D
}.

(** What the journal relies on: the device stores 512-byte sectors, reads return what is
    stored and change nothing, a write changes one sector, atomically. *)
Class SectorDiskLaws (D : Type) `{SectorDisk D} := {
  sector_at : D -> Z -> list Z;
  sector_at_ok d lba : sector_ok (sector_at d lba);
  read_frame lba d lba' : sector_at (snd (disk_read lba d)) lba' = sector_at d lba';
  read_value lba d b d' : disk_read lba d = (Some b, d') -> b = sector_at d lba;
  write_other lba b d lba' : lba' <> lba ->
    sector_at (snd (disk_write lba b d)) lba' = sector_at d lba';
  write_done lba b d d' : sector_ok b -> disk_write lba b d = (true, d') -> sector_at d' lba = b;
  write_failed lba b d d' : sector_ok b -> disk_write lba b d = (false, d') ->
    sector_at d' lba = sector_at d lba \/ sector_at d' lba = b
}.

(** ** Operations *)

Section ops.
Context {D : Type} `{SectorDisk D}.

Definition read_record (start_lba index : Z) (d : D) : option (list Z) * D :=
  disk_read ((start_lba +64 1) +64 index) d.

(** The first loop of [scan_log], [n] sectors from the end: index, record count and last
    sequence where it stopped, or [None] for the return value 0. *)
Fixpoint scan_records (n : nat) (start_lba index count previous : Z) (d : D)
    : option (Z * Z * Z) * D :=
  match n with
  | O => (Some (index, count, previous), d)
  | S n =>
      match read_record start_lba index d with
      | (None, d) => (None, d)
      | (Some sector, d) =>
          if sector_is_empty sector then (Some (index, count, previous), d) else
          let prepared :=
            (read_u32 sector JOURNAL_COMMIT_OFFSET =? 0) &&
            match journal_decode_prepared sector with
            | Some prepared => sequence_is_newer (sequence prepared) previous
            | None => false
            end in
          let torn := if prepared then (Some (index +32 1, count, previous), d) else (None, d) in
          match journal_decode sector with
          | None => torn
          | Some entry =>
              if sequence_is_newer (sequence entry) previous
              then scan_records n start_lba (index +32 1) (count +32 1) (sequence entry) d
              else torn
          end
      end
  end.

(** The second loop: every remaining sector is empty. *)
Fixpoint scan_tail (n : nat) (start_lba index : Z) (d : D) : bool * D :=
  match n with
  | O => (true, d)
  | S n =>
      match read_record start_lba index d with
      | (None, d) => (false, d)
      | (Some sector, d) =>
          if sector_is_empty sector then scan_tail n start_lba (index +32 1) d else (false, d)
      end
  end.

(** Record count and last sequence. *)
Definition scan_log (start_lba data_sectors : Z) (d : D) : option (Z * Z) * D :=
  match scan_records (Z.to_nat data_sectors) start_lba 0 0 0 d with
  | (None, d) => (None, d)
  | (Some (index, count, previous), d) =>
      match scan_tail (Z.to_nat (data_sectors - index)) start_lba index d with
      | (true, d) => (Some (count, previous), d)
      | (false, d) => (None, d)
      end
  end.

(** The guards [journal_replay], [journal_next_sequence] and [journal_append] share: the
    region and the superblock; the number of data sectors. *)
Definition open_log (start_lba sector_count : Z) (d : D) : option Z * D :=
  if (sector_count <? 2) || (JOURNAL_MAX_DATA_SECTORS +32 1 <? sector_count) ||
     negb (region_fits start_lba sector_count) then (None, d) else
  match disk_read start_lba d with
  | (None, d) => (None, d)
  | (Some sector, d) =>
      match journal_superblock_decode sector with
      | None => (None, d)
      | Some data_sectors =>
          if sector_count <? data_sectors +32 1 then (None, d) else (Some data_sectors, d)
      end
  end.

Section replay.
Context {A : Type} (apply : journal_entry -> A -> bool * A).

Fixpoint replay_loop (n : nat) (start_lba index : Z) (d : D) (a : A) : bool * D * A :=
  match n with
  | O => (true, d, a)
  | S n =>
      match read_record start_lba index d with
      | (None, d) => (false, d, a)
      | (Some sector, d) =>
          match journal_decode sector with
          | None => (false, d, a)
          | Some entry =>
              let '(ok, a) := apply entry a in
              if ok then replay_loop n start_lba (index +32 1) d a else (false, d, a)
          end
      end
  end.

(** Return value, [*applied], device and consumer state. *)
Definition journal_replay (start_lba sector_count : Z) (d : D) (a : A) : bool * Z * D * A :=
  match open_log start_lba sector_count d with
  | (None, d) => (false, 0, d, a)
  | (Some data_sectors, d) =>
      match scan_log start_lba data_sectors d with
      | (None, d) => (false, 0, d, a)
      | (Some (record_count, _), d) =>
          let '(ok, d, a) := replay_loop (Z.to_nat record_count) start_lba 0 d a in
          if ok then (true, record_count, d, a) else (false, 0, d, a)
      end
  end.

End replay.

Definition journal_next_sequence (start_lba sector_count : Z) (d : D) : option Z * D :=
  match open_log start_lba sector_count d with
  | (None, d) => (None, d)
  | (Some data_sectors, d) =>
      match scan_log start_lba data_sectors d with
      | (None, d) => (None, d)
      | (Some (_, last_sequence), d) =>
          if last_sequence =? 0xFFFFFFFF then (None, d) else (Some (last_sequence +32 1), d)
      end
  end.

(** Two-phase publication: the prepared sector, then the same with its commit word, read back. *)
Definition publish_record (target_lba : Z) (sector : list Z) (d : D) : bool * D :=
  let '(ok, d) := disk_write target_lba sector d in
  if negb ok then (false, d) else
  let sector := write_u32 sector JOURNAL_COMMIT_OFFSET JOURNAL_COMMIT in
  let '(ok, d) := disk_write target_lba sector d in
  if negb ok then (false, d) else
  match disk_read target_lba d with
  | (None, d) => (false, d)
  | (Some back, d) =>
      (match journal_decode back with Some _ => true | None => false end, d)
  end.

(** The local [sector] is uninitialised before the encoder clears it. *)
Definition journal_append (start_lba sector_count operation sequence : Z)
    (name content : option (list Z)) (content_length : Z) (d : D) : bool * D :=
  match open_log start_lba sector_count d with
  | (None, d) => (false, d)
  | (Some data_sectors, d) =>
      match scan_log start_lba data_sectors d with
      | (None, d) => (false, d)
      | (Some (record_count, last_sequence), d) =>
          if (data_sectors <=? record_count) ||
             negb (sequence_is_newer sequence last_sequence) then (false, d) else
          match journal_encode_internal (replicate 512 0) operation sequence name content
                  content_length false with
          | None => (false, d)
          | Some sector => publish_record ((start_lba +64 1) +64 record_count) sector d
          end
      end
  end.

End ops.

(** ** The log a region holds *)

(** Committed records with increasing sequence numbers, then at most one prepared record, then
    empty sectors; [None] when the region is malformed. *)
Fixpoint parse_log (previous : Z) (sectors : list (list Z)) : option (list journal_entry) :=
  match sectors with
  | [] => Some []
  | s :: rest =>
      let ended := if forallb sector_is_empty rest then Some [] else None in
      let torn := match journal_decode_prepared s with
                  | Some e => if sequence_is_newer (sequence e) previous then ended else None
                  | None => None
                  end in
      if sector_is_empty s then ended else
      match journal_decode s with
      | Some e => if sequence_is_newer (sequence e) previous
                  then cons e <$> parse_log (sequence e) rest else torn
      | None => torn
      end
  end.

Definition last_sequence (previous : Z) (l : list journal_entry) : Z :=
  foldl (fun _ e => sequence e) previous l.

Section sectors.
Context {D : Type} `{SectorDiskLaws D}.

Definition sectors_from (start_lba index : Z) (n : nat) (d : D) : list (list Z) :=
  map (fun i => sector_at d (start_lba + 1 + i)) (seqZ index (Z.of_nat n)).

Definition disk_log (start_lba data_sectors : Z) (d : D) : option (list journal_entry) :=
  parse_log 0 (sectors_from start_lba 0 (Z.to_nat data_sectors) d).

(** Devices with the same contents. *)
Definition same_disk (d d' : D) : Prop := forall lba, sector_at d lba = sector_at d' lba.

(** A device that never fails. *)
Definition reliable : Prop :=
  (forall lba (d : D), is_Some (fst (disk_read lba d))) /\
  (forall lba b (d : D), fst (disk_write lba b d) = true).

(** The region is in range and its superblock announces [n] data sectors. *)
Definition formatted (start_lba sector_count n : Z) (d : D) : Prop :=
  2 <= sector_count <= 1025 /\ 0 <= start_lba /\
  start_lba + sector_count <= 18446744073709551616 /\
  journal_superblock_decode (sector_at d start_lba) = Some n /\ n + 1 <= sector_count.

End sectors.

(** ** Lemmas on the parsed log *)

Lemma prepared_commit s e : journal_decode_prepared s = Some e -> read_u32 s 508 = 0.
Proof.
  unfold journal_decode_prepared, journal_decode_internal, JOURNAL_COMMIT_OFFSET. guards. intros _.
  split_bools. lia.
Qed.

Lemma decoded_nonempty s c e : journal_decode_internal s c = Some e -> sector_is_empty s = false.
Proof.
  intros Hd. apply not_true_iff_false. intros He. revert Hd.
  unfold sector_is_empty, JOURNAL_SECTOR_SIZE in He. rewrite zero_range_spec in He.
  unfold journal_decode_internal.
  replace (read_u32 s 0) with 0 by (unfold read_u32; by rewrite !He by lia). done.
Qed.

(** A log ends at a sector followed by empty ones, or starts with a committed record. *)
Lemma parse_log_cons prev s rest l : parse_log prev (s :: rest) = Some l ->
  (l = [] /\ forallb sector_is_empty rest = true) \/
  (exists e l', l = e :: l' /\ sector_is_empty s = false /\ journal_decode s = Some e /\
     sequence_is_newer (sequence e) prev = true /\ parse_log (sequence e) rest = Some l').
Proof.
  simpl. destruct (forallb sector_is_empty rest) eqn:Er, (sector_is_empty s) eqn:Es;
    try (by intros [= <-]; left);
    destruct (journal_decode s) as [e|]; try destruct (sequence_is_newer (sequence e) prev) eqn:En;
    try (destruct (journal_decode_prepared s) as [e'|]; [|done];
         destruct (sequence_is_newer (sequence e') prev); [|done]; intros [= <-]; by left);
    try done.
  all: destruct (parse_log (sequence e) rest) as [l'|] eqn:El; [|done]; intros [= <-]; right;
    by exists e, l'.
Qed.

Lemma parse_log_length prev secs l : parse_log prev secs = Some l -> (length l <= length secs)%nat.
Proof.
  revert prev l. induction secs as [|s rest IH]; intros prev l; [by intros [= <-]|].
  intros [[-> _]|(e & l' & -> & _ & _ & _ & E)]%parse_log_cons; simpl; [lia|].
  apply IH in E. lia.
Qed.

(** Sequence numbers grow along the log. *)
Fixpoint increasing (prev : Z) (l : list journal_entry) : Prop :=
  match l with
  | [] => True
  | e :: l => prev < sequence e /\ increasing (sequence e) l
  end.

Lemma parse_log_increasing prev secs l : parse_log prev secs = Some l -> increasing prev l.
Proof.
  revert prev l. induction secs as [|s rest IH]; intros prev l; [by intros [= <-]|].
  intros [[-> _]|(e & l' & -> & _ & _ & En & E)]%parse_log_cons; [done|].
  unfold sequence_is_newer in En. split; [lia|]. by apply IH.
Qed.

(** Replacing the first sector after the log. *)
Lemma parse_log_update prev secs l x l' :
  parse_log prev secs = Some l -> (length l < length secs)%nat ->
  (forall rest, forallb sector_is_empty rest = true ->
     parse_log (last_sequence prev l) (x :: rest) = Some l') ->
  parse_log prev (<[length l := x]> secs) = Some (l ++ l').
Proof.
  revert prev l. induction secs as [|s rest IH]; intros prev l; [simpl; lia|].
  intros [[-> Hr]|(e & l1 & -> & Es & Ed & En & E)]%parse_log_cons Hlen Hx; [by apply Hx|].
  simpl in Hlen |- *. rewrite Es, Ed, En, (IH (sequence e) l1); [done|done|lia|exact Hx].
Qed.

Lemma parse_prepared prev x rest e : forallb sector_is_empty rest = true ->
  journal_decode x = None -> journal_decode_prepared x = Some e ->
  sequence_is_newer (sequence e) prev = true -> parse_log prev (x :: rest) = Some [].
Proof.
  intros Hr Hd Hp Hn. simpl. by rewrite Hr, (decoded_nonempty _ _ _ Hp), Hd, Hp, Hn.
Qed.

Lemma parse_empty prev rest : forallb sector_is_empty rest = true -> parse_log prev rest = Some [].
Proof.
  destruct rest as [|x rest]; [done|]. simpl. intros [-> ->]%andb_prop. done.
Qed.

Lemma parse_committed prev x rest e : forallb sector_is_empty rest = true ->
  journal_decode x = Some e -> sequence_is_newer (sequence e) prev = true ->
  parse_log prev (x :: rest) = Some [e].
Proof.
  intros Hr Hd Hn. simpl. by rewrite (decoded_nonempty _ _ _ Hd), Hd, Hn, parse_empty.
Qed.

(** ** The device lemmas *)

Section device.
Context {D : Type} `{SectorDiskLaws D}.
Implicit Types d : D.

#[global] Instance same_disk_equivalence : Equivalence (@same_disk D _ _).
Proof.
  split.
  - intros d lba. done.
  - intros d d' E lba. by rewrite E.
  - intros d1 d2 d3 E1 E2 lba. by rewrite E1, E2.
Qed.

Lemma read_same lba d : same_disk (snd (disk_read lba d)) d.
Proof. intros lba'. apply read_frame. Qed.

Lemma sectors_from_same start index n d d' : same_disk d d' ->
  sectors_from start index n d = sectors_from start index n d'.
Proof. intros E. apply list_fmap_ext. intros. apply E. Qed.

Lemma sectors_from_S start index n d :
  sectors_from start index (S n) d =
  sector_at d (start + 1 + index) :: sectors_from start (index + 1) n d.
Proof.
  unfold sectors_from. rewrite seqZ_cons by lia. simpl.
  by replace (Z.pred (Z.of_nat (S n))) with (Z.of_nat n) by lia.
Qed.

Lemma length_sectors_from start index n d : length (sectors_from start index n d) = n.
Proof. unfold sectors_from. rewrite length_map, length_seqZ. lia. Qed.

#[global] Instance disk_log_proper start n : Proper (same_disk ==> eq) (@disk_log D _ _ start n).
Proof. intros d d' E. unfold disk_log. by rewrite (sectors_from_same _ _ _ d d' E). Qed.

#[global] Instance formatted_proper start c n : Proper (same_disk ==> iff) (@formatted D _ _ start c n).
Proof. intros d d' E. unfold formatted. by rewrite (E start). Qed.

(** One write changes one sector of the region. *)
Lemma sectors_from_write start n d d' k x :
  (forall lba, lba <> start + 1 + Z.of_nat k -> sector_at d' lba = sector_at d lba) ->
  sector_at d' (start + 1 + Z.of_nat k) = x ->
  sectors_from start 0 n d' = <[k := x]> (sectors_from start 0 n d).
Proof.
  intros Ho Hx. apply list_eq. intros i. unfold sectors_from.
  rewrite list_lookup_insert. case_decide as E.
  - destruct E as [<- Hk]. rewrite length_map, length_seqZ in Hk.
    rewrite list_lookup_fmap, lookup_seqZ_lt by lia. simpl. by rewrite <- Hx.
  - rewrite !list_lookup_fmap. destruct (seqZ 0 (Z.of_nat n) !! i) as [j|] eqn:Ei; [|done].
    simpl. f_equal. apply lookup_seqZ in Ei as [-> ?]. apply Ho. intros Heq. apply E.
    rewrite length_map, length_seqZ. lia.
Qed.

Definition region_ok (start index : Z) (n : nat) : Prop :=
  0 <= start /\ 0 <= index /\ index + Z.of_nat n <= 1024 /\
  start + 1 + index + Z.of_nat n <= 18446744073709551616.

Lemma region_ok_S start index n : region_ok start index (S n) -> region_ok start (index + 1) n.
Proof. unfold region_ok. lia. Qed.

Lemma read_record_lba start index n d : region_ok start index (S n) ->
  read_record start index d = disk_read (start + 1 + index) d.
Proof.
  unfold region_ok. intros Hr. unfold read_record.
  by rewrite (u64_id (start + 1)), (u64_id (start + 1 + index)) by (unfold is_u64; lia).
Qed.

(** Reads that can fail, and what they say when they do not. *)
Lemma read_cases lba d : exists r d', disk_read lba d = (r, d') /\ same_disk d' d /\
  (r = Some (sector_at d lba) \/ (r = None /\ ~ @reliable D _)).
Proof.
  destruct (disk_read lba d) as [r d'] eqn:E. exists r, d'. split; [done|].
  pose proof (read_same lba d) as Hs. rewrite E in Hs. split; [done|].
  destruct r as [b|]; [left; f_equal; by eapply read_value|]. right. split; [done|].
  intros [Hr _]. destruct (Hr lba d) as [b Hb]. by rewrite E in Hb.
Qed.

Lemma scan_tail_spec n start index d b d' : region_ok start index n ->
  scan_tail n start index d = (b, d') ->
  same_disk d' d /\
  (b = true -> forallb sector_is_empty (sectors_from start index n d) = true) /\
  (@reliable D _ -> b = forallb sector_is_empty (sectors_from start index n d)).
Proof.
  revert index d. induction n as [|n IH]; intros index d Hr E; simpl in E.
  { injection E as <- <-. done. }
  rewrite (read_record_lba _ _ n) in E by done.
  destruct (read_cases (start + 1 + index) d) as (r & d1 & Er & Hs1 & [-> | [-> Hn]]);
    rewrite Er in E.
  2: { injection E as <- <-. split; [done|]. split; [done|]. intros Hrel. by destruct Hn. }
  rewrite sectors_from_S. simpl.
  destruct (sector_is_empty (sector_at d (start + 1 + index))); simpl.
  2: { injection E as <- <-. done. }
  rewrite (u32_id (index + 1)) in E by (unfold is_u32, region_ok in *; lia).
  apply IH in E as (H1 & H2 & H3); [|by apply region_ok_S].
  rewrite (sectors_from_same _ _ _ d1 d Hs1) in H2, H3.
  split; [by etransitivity|done].
Qed.

(** Both loops of [scan_log], from any point on. *)
Definition scan_from (n : nat) (start index count previous : Z) (d : D) : option (Z * Z) * D :=
  match scan_records n start index count previous d with
  | (None, d) => (None, d)
  | (Some (i, c, p), d) =>
      match scan_tail (Z.to_nat (index + Z.of_nat n - i)) start i d with
      | (true, d) => (Some (c, p), d)
      | (false, d) => (None, d)
      end
  end.

Definition scan_result (n : nat) (start index count prev : Z) (d : D) (r : option (Z * Z)) : Prop :=
  (forall c p, r = Some (c, p) -> exists l,
     parse_log prev (sectors_from start index n d) = Some l /\
     c = count + Z.of_nat (length l) /\ p = last_sequence prev l) /\
  (@reliable D _ -> forall l, parse_log prev (sectors_from start index n d) = Some l ->
     r = Some (count + Z.of_nat (length l), last_sequence prev l)).

(** The scan ends at [i]: the rest must be empty. *)
Lemma scan_end n start index i (count prev : Z) d d0 (r : option (Z * Z)) d' :
  region_ok start index n -> index <= i <= index + Z.of_nat n -> same_disk d d0 ->
  match scan_tail (Z.to_nat (index + Z.of_nat n - i)) start i d with
  | (true, d) => (Some (count, prev), d) | (false, d) => (None, d) end = (r, d') ->
  let rest := sectors_from start i (Z.to_nat (index + Z.of_nat n - i)) d0 in
  same_disk d' d0 /\
  (forall c p, r = Some (c, p) -> forallb sector_is_empty rest = true /\ c = count /\ p = prev) /\
  (@reliable D _ -> forallb sector_is_empty rest = true -> r = Some (count, prev)).
Proof.
  intros Hr Hi Hs E rest. destruct (scan_tail _ _ _ _) as [b d1] eqn:Et.
  apply scan_tail_spec in Et as (H1 & H2 & H3); [|unfold region_ok in *; lia].
  rewrite (sectors_from_same _ _ _ d d0 Hs) in H2, H3. fold rest in H2, H3.
  assert (same_disk d1 d0) by (by etransitivity).
  destruct b; injection E as <- <-.
  - split; [done|]. split; [|done]. intros c p [= <- <-]. auto.
  - split; [done|]. split; [done|]. intros Hrel Hf. rewrite <- H3 in Hf by done. done.
Qed.

(** The torn-append test of the code and of [parse_log]. *)
Lemma prepared_test s prev :
  (read_u32 s JOURNAL_COMMIT_OFFSET =? 0) &&
  match journal_decode_prepared s with
  | Some p => sequence_is_newer (sequence p) prev | None => false end =
  match journal_decode_prepared s with
  | Some p => sequence_is_newer (sequence p) prev | None => false end.
Proof.
  destruct (journal_decode_prepared s) as [p|] eqn:E; [|apply andb_false_r].
  change JOURNAL_COMMIT_OFFSET with 508. by rewrite (prepared_commit _ _ E).
Qed.

(** The branch for a sector that is neither empty nor a newer committed record. *)
Lemma scan_torn n start index count prev d d1 r d' s :
  region_ok start index (S n) -> same_disk d1 d -> s = sector_at d (start + 1 + index) ->
  sector_is_empty s = false ->
  (forall e, journal_decode s = Some e -> sequence_is_newer (sequence e) prev = false) ->
  match (if (read_u32 s JOURNAL_COMMIT_OFFSET =? 0) &&
            match journal_decode_prepared s with
            | Some p => sequence_is_newer (sequence p) prev | None => false end
         then (Some (index +32 1, count, prev), d1) else (None, d1)) with
  | (None, d) => (None, d)
  | (Some (i, c, p), d) =>
      match scan_tail (Z.to_nat (index + Z.of_nat (S n) - i)) start i d with
      | (true, d) => (Some (c, p), d) | (false, d) => (None, d) end
  end = (r, d') ->
  same_disk d' d /\ scan_result (S n) start index count prev d r.
Proof.
  intros Hr Hs -> Hne Hd E. rewrite prepared_test in E. unfold scan_result.
  set (s := sector_at d (start + 1 + index)) in *. rewrite sectors_from_S. fold s.
  assert (parse_log prev (s :: sectors_from start (index + 1) n d) =
    match journal_decode_prepared s with
    | Some p => if sequence_is_newer (sequence p) prev
                then if forallb sector_is_empty (sectors_from start (index + 1) n d)
                     then Some [] else None else None
    | None => None end) as ->.
  { simpl. rewrite Hne. destruct (journal_decode s) as [e|]; [by rewrite (Hd e)|done]. }
  destruct (journal_decode_prepared s) as [p|]; [|by simplify_eq].
  destruct (sequence_is_newer (sequence p) prev); [|by simplify_eq].
  rewrite (u32_id (index + 1)) in E by (unfold is_u32, region_ok in *; lia).
  apply (scan_end (S n) start index (index + 1) count prev d1 d) in E as (H1 & H2 & H3);
    [|done|lia|done].
  replace (Z.to_nat (index + Z.of_nat (S n) - (index + 1))) with n in * by lia.
  split; [done|]. split.
  - intros c q Hq. destruct (H2 c q Hq) as (-> & -> & ->). exists []. simpl.
    by rewrite Z.add_0_r.
  - intros Hrel l. case_if; [|done]. intros [= <-]. simpl. rewrite Z.add_0_r. by apply H3.
Qed.

Lemma scan_from_spec n start index count prev d r d' :
  region_ok start index n -> 0 <= count <= index ->
  scan_from n start index count prev d = (r, d') ->
  same_disk d' d /\ scan_result n start index count prev d r.
Proof.
  revert index count prev d. induction n as [|n IH]; intros index count prev d Hr Hc E.
  { unfold scan_from in E. simpl in E. replace (Z.to_nat (index + Z.of_nat 0 - index)) with O in E by lia.
    simpl in E. injection E as <- <-. split; [done|]. split.
    - intros c p [= <- <-]. exists []. simpl. by rewrite Z.add_0_r.
    - intros _ l [= <-]. simpl. by rewrite Z.add_0_r. }
  unfold scan_from in E. cbn [scan_records] in E.
  rewrite (read_record_lba _ _ n) in E by done.
  destruct (read_cases (start + 1 + index) d) as (o & d1 & Eo & Hs1 & [-> | [-> Hn]]);
    rewrite Eo in E.
  2: { injection E as <- <-. by repeat split. }
  set (s := sector_at d (start + 1 + index)) in *. cbv zeta in E.
  destruct (sector_is_empty s) eqn:Es.
  { apply (scan_end (S n) start index index count prev d1 d) in E as (H1 & H2 & H3);
      [|done|lia|done].
    replace (Z.to_nat (index + Z.of_nat (S n) - index)) with (S n) in * by lia.
    split; [done|]. split.
    - intros c q Hq. destruct (H2 c q Hq) as (Hf & -> & ->). exists [].
      rewrite parse_empty by done. simpl. by rewrite Z.add_0_r.
    - intros Hrel l. rewrite sectors_from_S in *. fold s in H3 |- *.
      intros [[-> Hf]|(e & l' & _ & Hx & _)]%parse_log_cons; [|congruence].
      simpl. rewrite Z.add_0_r. apply H3; [done|]. simpl. by rewrite Es. }
  destruct (journal_decode s) as [e|] eqn:Ed; 
    [|by apply (scan_torn n start index count prev d d1 r d' s); try done; congruence].
  destruct (sequence_is_newer (sequence e) prev) eqn:En;
    [|apply (scan_torn n start index count prev d d1 r d' s); try done; intros e' He'; congruence].
  rewrite (u32_id (index + 1)), (u32_id (count + 1)) in E by (unfold is_u32, region_ok in *; lia).
  replace (index + Z.of_nat (S n)) with (index + 1 + Z.of_nat n) in E by lia.
  apply (IH (index + 1) (count + 1) (sequence e) d1) in E as (H1 & H2 & H3);
    [|by apply region_ok_S|lia].
  rewrite (sectors_from_same _ _ _ d1 d Hs1) in H2, H3. unfold scan_result.
  rewrite sectors_from_S. fold s. simpl. rewrite Es, Ed, En.
  split; [by etransitivity|]. split.
  - intros c p Hcp. destruct (H2 c p Hcp) as (l & -> & -> & ->). exists (e :: l).
    split; [done|]. split; [simpl; lia|done].
  - intros Hrel l. destruct (parse_log _ _) as [l'|]; [|done]. intros [= <-].
    rewrite (H3 Hrel l' eq_refl). do 2 f_equal. simpl. lia.
Qed.

(** ** The operations *)

Lemma superblock_decode_range s n : sector_ok s -> journal_superblock_decode s = Some n ->
  1 <= n <= 1024.
Proof.
  intros [_ Hb]. unfold journal_superblock_decode, JOURNAL_MAX_DATA_SECTORS. guards.
  intros [= <-]. pose proof (read_u16_range s 6 Hb). unfold is_u16 in *. split_bools. lia.
Qed.

Lemma formatted_range start sc n d : formatted start sc n d -> 1 <= n <= 1024.
Proof. intros (_ & _ & _ & Hd & _). eapply superblock_decode_range; [|done]. apply sector_at_ok. Qed.

Lemma formatted_region start sc n d : formatted start sc n d -> region_ok start 0 (Z.to_nat n).
Proof.
  intros Hf. pose proof (formatted_range _ _ _ _ Hf). destruct Hf as (? & ? & ? & _ & ?).
  unfold region_ok. lia.
Qed.

Lemma open_log_spec start sc d r d' : is_u64 start -> is_u32 sc ->
  open_log start sc d = (r, d') ->
  same_disk d' d /\ (forall n, r = Some n -> formatted start sc n d) /\
  (@reliable D _ -> forall n, formatted start sc n d -> r = Some n).
Proof.
  unfold is_u64, is_u32. intros Hst Hsc. unfold open_log, region_fits, UINT64_MAX.
  change (u32 (JOURNAL_MAX_DATA_SECTORS + 1)) with 1025.
  destruct (_ || _) eqn:Eg.
  { intros [= <- <-]. split; [done|]. split; [done|]. intros _ n (? & ? & ? & _).
    rewrite (u64_id (sc - 1)), u64_id in Eg by (unfold is_u64; try rewrite u64_id; unfold is_u64; lia).
    lia. }
  split_bools.
  assert (2 <= sc <= 1025) as Hsc2 by lia.
  rewrite (u64_id (sc - 1)), u64_id in * by (unfold is_u64; try rewrite u64_id; unfold is_u64; lia).
  destruct (read_cases start d) as (o & d1 & -> & Hs1 & [-> | [-> Hn]]).
  2: { intros [= <- <-]. split; [done|]. split; [done|]. intros Hrel. by destruct Hn. }
  destruct (journal_superblock_decode _) as [n|] eqn:Ed.
  2: { intros [= <- <-]. split; [done|]. split; [done|]. intros _ n (_ & _ & _ & ? & _). congruence. }
  pose proof (superblock_decode_range _ _ (sector_at_ok d start) Ed).
  rewrite (u32_id (n + 1)) by (unfold is_u32; lia).
  destruct (sc <? n + 1) eqn:Ec; intros [= <- <-]; (split; [done|]).
  - split; [done|]. intros _ m (_ & _ & _ & Hm & ?). rewrite Ed in Hm. injection Hm as <-. lia.
  - split.
    + intros m [= <-]. unfold formatted. repeat split; (done || lia).
    + intros _ m (_ & _ & _ & Hm & _). congruence.
Qed.

Lemma scan_log_spec start sc n d r d' : formatted start sc n d ->
  scan_log start n d = (r, d') ->
  same_disk d' d /\
  (forall c p, r = Some (c, p) -> exists l, disk_log start n d = Some l /\
     c = Z.of_nat (length l) /\ p = last_sequence 0 l) /\
  (@reliable D _ -> forall l, disk_log start n d = Some l ->
     r = Some (Z.of_nat (length l), last_sequence 0 l)).
Proof.
  intros Hf E. pose proof (formatted_range _ _ _ _ Hf).
  assert (scan_from (Z.to_nat n) start 0 0 0 d = (r, d')) as Es.
  { unfold scan_from. rewrite Z2Nat.id by lia. exact E. }
  apply scan_from_spec in Es as (A1 & A2 & A3); [|by eapply formatted_region|lia]. done.
Qed.

(** Up to the point where the operations start to differ. *)
Lemma open_scan start sc d : is_u64 start -> is_u32 sc ->
  exists r1 d1, open_log start sc d = (r1, d1) /\ same_disk d1 d /\
  (r1 = None /\ (@reliable D _ -> forall n, ~ formatted start sc n d) \/
   exists n, r1 = Some n /\ formatted start sc n d /\
   exists r2 d2, scan_log start n d1 = (r2, d2) /\ same_disk d2 d /\
   (r2 = None /\ (@reliable D _ -> disk_log start n d = None) \/
    exists l, disk_log start n d = Some l /\ (length l <= Z.to_nat n)%nat /\
      r2 = Some (Z.of_nat (length l), last_sequence 0 l))).
Proof.
  intros Hst Hsc. destruct (open_log start sc d) as [r1 d1] eqn:E1. exists r1, d1.
  apply open_log_spec in E1 as (Hs1 & Ho1 & Hr1); [|done..].
  split; [done|]. split; [done|]. destruct r1 as [n|].
  2: { left. split; [done|]. intros Hrel n Hf. by specialize (Hr1 Hrel n Hf). }
  right. exists n. pose proof (Ho1 n eq_refl) as Hf. split; [done|]. split; [done|].
  destruct (scan_log start n d1) as [r2 d2] eqn:E2. exists r2, d2.
  apply (scan_log_spec start sc) in E2 as (Hs2 & Ho2 & Hr2); [|by apply (formatted_proper start sc n d1 d Hs1)].
  split; [done|]. split; [by etransitivity|]. rewrite (disk_log_proper start n d1 d Hs1) in Ho2, Hr2.
  destruct r2 as [[c p]|].
  - right. destruct (Ho2 c p eq_refl) as (l & Hl & -> & ->). exists l. split; [done|].
    split; [|done]. apply parse_log_length in Hl. by rewrite length_sectors_from in Hl.
  - left. split; [done|]. intros Hrel. destruct (disk_log start n d) as [l|]; [|done].
    by specialize (Hr2 Hrel l eq_refl).
Qed.

Lemma write_cases lba b d : sector_ok b -> exists ok d', disk_write lba b d = (ok, d') /\
  (forall lba', lba' <> lba -> sector_at d' lba' = sector_at d lba') /\
  (sector_at d' lba = b \/ (sector_at d' lba = sector_at d lba /\ ok = false)) /\
  (@reliable D _ -> ok = true).
Proof.
  intros Hb. destruct (disk_write lba b d) as [ok d'] eqn:E. exists ok, d'. split; [done|].
  split; [|split].
  - intros lba' Hne. pose proof (write_other lba b d lba' Hne) as Hw. by rewrite E in Hw.
  - destruct ok; [left; by eapply write_done|].
    destruct (write_failed _ _ _ _ Hb E); auto.
  - intros [_ Hw]. specialize (Hw lba b d). by rewrite E in Hw.
Qed.

(** The region after its first free sector has been overwritten. *)
Lemma disk_log_write start sc n d d' l x l' :
  formatted start sc n d -> disk_log start n d = Some l -> (length l < Z.to_nat n)%nat ->
  (forall lba, lba <> start + 1 + Z.of_nat (length l) -> sector_at d' lba = sector_at d lba) ->
  sector_at d' (start + 1 + Z.of_nat (length l)) = x ->
  (forall rest, forallb sector_is_empty rest = true ->
     parse_log (last_sequence 0 l) (x :: rest) = Some l') ->
  formatted start sc n d' /\ disk_log start n d' = Some (l ++ l').
Proof.
  intros Hf Hl Hlen Ho Hx Hp. split.
  - unfold formatted. rewrite Ho by lia. exact Hf.
  - unfold disk_log. rewrite (sectors_from_write start _ d d' _ x Ho Hx).
    apply parse_log_update; [exact Hl|by rewrite length_sectors_from|exact Hp].
Qed.

End device.

(** ** The record an append publishes *)

Definition append_entry (op seq : Z) (name content : option (list Z)) (cl : Z) : journal_entry :=
  entry_of op seq (bounded_length name 32) cl (default [] name) (default [] content).

Section published.
Context (op seq cl : Z) (name content : option (list Z)) (s : list Z).
Context (Hseq : is_u32 seq) (Hcl : 0 <= cl).
Context (Hn : bytes_ok (default [] name)) (Hc : bytes_ok (default [] content)).
Context (E : journal_encode_internal (replicate 512 0) op seq name content cl false = Some s).

Lemma published_sector : exists nl nm, record_ok op seq nl cl nm (default [] content) /\
  bytes_ok nm /\ entry_of op seq nl cl nm (default [] content) = append_entry op seq name content cl /\
  s = record_sector op seq nl cl nm (default [] content) false.
Proof.
  pose proof E as E'. apply encode_internal_ok in E' as (nm & -> & Hct & Hok); [|done..].
  rewrite encode_internal_valid in E by done.
  exists (bounded_length (Some nm) 32), nm. split; [done|]. split; [done|]. split; [done|].
  by apply Some_inj in E.
Qed.

Lemma prepared_sector :
  sector_ok s /\ journal_decode s = None /\
  journal_decode_prepared s = Some (append_entry op seq name content cl).
Proof.
  destruct published_sector as (nl & nm & Hok & Hnm & <- & ->).
  split; [by apply record_sector_ok|]. split; [|by apply layout_decode, record_sector_layout].
  pose proof (record_sector_layout _ _ _ _ _ _ false Hok Hnm Hc) as L.
  unfold journal_decode, journal_decode_internal. change JOURNAL_COMMIT_OFFSET with 508.
  rewrite (l_commit _ _ _ _ _ _ _ _ L). by rewrite !orb_true_r.
Qed.

Lemma committed_sector :
  let s' := write_u32 s JOURNAL_COMMIT_OFFSET JOURNAL_COMMIT in
  sector_ok s' /\ journal_decode s' = Some (append_entry op seq name content cl).
Proof.
  destruct published_sector as (nl & nm & Hok & Hnm & <- & ->).
  change (write_u32 _ _ _) with (record_sector op seq nl cl nm (default [] content) true).
  split; [by apply record_sector_ok|]. by apply layout_decode, record_sector_layout.
Qed.

End published.
