(* ===== verification/JournalSafety.v ===== *)
(** * Journal: crash safety and replay

    The theorems about the log operations of [fs/journal.c], for every device that satisfies
    [SectorDiskLaws]. A power failure at any point of an operation is the special case of a
    device whose later accesses all fail without effect, so a statement about the state an
    operation leaves is a statement about every state a crash can leave. *)

From S2P Require Import Prelude Journal JournalFormat JournalLog.
Local Open Scope c_scope.
Local Open Scope Z_scope.
Local Opaque journal_encode_internal journal_decode write_u32.

Section append.
Context {D : Type} `{SectorDiskLaws D}.
Context (start sc op seq cl : Z) (name content : option (list Z)).
Context (Hst : is_u64 start) (Hsc : is_u32 sc) (Hseq : is_u32 seq) (Hcl : 0 <= cl).
Context (Hn : bytes_ok (default [] name)) (Hc : bytes_ok (default [] content)).

(** The record can be written: encodable, newer than the log, and the region has room. *)
Definition appendable (n : Z) (l : list journal_entry) : Prop :=
  Z.of_nat (length l) < n /\ sequence_is_newer seq (last_sequence 0 l) = true /\
  is_Some (journal_encode_internal (replicate 512 0) op seq name content cl false).

(** What the region holds for each value of the sector being published. *)
Lemma target_states (d d' : D) n l s :
  formatted start sc n d -> disk_log start n d = Some l -> appendable n l ->
  journal_encode_internal (replicate 512 0) op seq name content cl false = Some s ->
  let t := start + 1 + Z.of_nat (length l) in
  (forall lba, lba <> t -> sector_at d' lba = sector_at d lba) ->
  (sector_at d' t = sector_at d t \/ sector_at d' t = s ->
     formatted start sc n d' /\ disk_log start n d' = Some l) /\
  (sector_at d' t = write_u32 s JOURNAL_COMMIT_OFFSET JOURNAL_COMMIT ->
     formatted start sc n d' /\
     disk_log start n d' = Some (l ++ [append_entry op seq name content cl])).
Proof.
  intros Hf Hl (Hlen & Hnew & _) Ee t Ho.
  destruct (prepared_sector _ _ _ _ _ _ Hseq Hcl Hn Hc Ee) as (_ & Hd & Hp).
  destruct (committed_sector _ _ _ _ _ _ Hseq Hcl Hn Hc Ee) as (_ & Hd'). split.
  - intros [Ht|Ht].
    + assert (same_disk d' d) as Hsame
        by (intros lba; destruct (decide (lba = t)) as [->|]; auto).
      split; [by apply (formatted_proper _ _ _ _ _ Hsame)|].
      by rewrite (disk_log_proper _ _ _ _ Hsame).
    + rewrite <- (app_nil_r l). eapply disk_log_write; [done|done|lia|done|done|].
      intros rest Hr. by eapply parse_prepared.
  - intros Ht. eapply disk_log_write; [done|done|lia|done|done|].
    intros rest Hr. by eapply parse_committed.
Qed.

Lemma publish_cases (d d' : D) n l s ok :
  formatted start sc n d -> disk_log start n d = Some l -> appendable n l ->
  journal_encode_internal (replicate 512 0) op seq name content cl false = Some s ->
  publish_record (start + 1 + Z.of_nat (length l)) s d = (ok, d') ->
  formatted start sc n d' /\
  ((ok = false /\ disk_log start n d' = Some l) \/
   disk_log start n d' = Some (l ++ [append_entry op seq name content cl])) /\
  (reliable (D := D) -> ok = true).
Proof.
  intros Hf Hl Happ Ee E. pose proof (fun d' => target_states d d' n l s Hf Hl Happ Ee) as P.
  cbv zeta in P. set (t := start + 1 + Z.of_nat (length l)) in *.
  destruct (prepared_sector _ _ _ _ _ _ Hseq Hcl Hn Hc Ee) as (Hs & _ & _).
  destruct (committed_sector _ _ _ _ _ _ Hseq Hcl Hn Hc Ee) as (Hs' & Hd').
  unfold publish_record in E.
  destruct (write_cases t s d Hs) as (ok1 & d3 & E3 & Ho3 & Ht3 & Hr3). rewrite E3 in E.
  destruct ok1; simpl negb in E; cbv iota in E.
  2: { injection E as <- <-. destruct (P d3 Ho3) as [P1 _].
       destruct P1; [by destruct Ht3 as [?|[? _]]; auto|]. split; [done|].
       split; [by left|]. intros Hrel. by apply Hr3 in Hrel. }
  assert (sector_at d3 t = s) as Ht3' by (by destruct Ht3 as [?|[_ ?]]).
  destruct (write_cases t _ d3 Hs') as (ok2 & d4 & E4 & Ho4 & Ht4 & Hr4). rewrite E4 in E.
  assert (forall lba, lba <> t -> sector_at d4 lba = sector_at d lba) as Ho42
    by (intros lba Hne; rewrite Ho4 by done; by apply Ho3).
  destruct ok2; simpl negb in E; cbv iota in E.
  2: { injection E as <- <-. destruct (P d4 Ho42) as [P1 P2].
       assert (reliable (D := D) -> false = true) as Hrel by (intros Hrel; by apply Hr4 in Hrel).
       destruct Ht4 as [Ht4|[Ht4 _]]; [destruct (P2 Ht4); auto|].
       destruct P1; [right; congruence|]. auto. }
  assert (sector_at d4 t = write_u32 s JOURNAL_COMMIT_OFFSET JOURNAL_COMMIT) as Ht4'
    by (by destruct Ht4 as [?|[_ ?]]).
  destruct (read_cases t d4) as (r & d5 & E5 & Hs5 & Hr5). rewrite E5 in E.
  destruct (P d5) as [_ P2]; [intros lba Hne; rewrite (Hs5 lba); by apply Ho42|].
  destruct P2 as [Hf5 Hl5]; [by rewrite (Hs5 t)|].
  destruct Hr5 as [-> | [-> Hnr]].
  - rewrite Ht4', Hd' in E. injection E as <- <-. auto.
  - injection E as <- <-. split; [done|]. split; [by right|]. intros Hrel. by destruct Hnr.
Qed.

Lemma journal_append_cases (d d' : D) n l ok :
  formatted start sc n d -> disk_log start n d = Some l ->
  journal_append start sc op seq name content cl d = (ok, d') ->
  formatted start sc n d' /\
  ((ok = false /\ disk_log start n d' = Some l) \/
   (appendable n l /\ disk_log start n d' = Some (l ++ [append_entry op seq name content cl]))) /\
  (reliable (D := D) -> appendable n l -> ok = true).
Proof.
  intros Hf Hl E. unfold journal_append in E.
  destruct (open_scan start sc d Hst Hsc) as (r1 & d1 & E1 & Hs1 & [[-> Hno]|
    (n' & -> & Hf' & r2 & d2 & E2 & Hs2 & [[-> Hno]|(l' & Hl' & Hlen & ->)])]);
    rewrite E1 in E; clear E1.
  { injection E as <- <-. split; [by apply (formatted_proper _ _ _ _ _ Hs1)|].
    split; [left; by rewrite (disk_log_proper _ _ _ _ Hs1)|]. intros Hrel. by destruct (Hno Hrel n). }
  all: assert (n' = n) as -> by (destruct Hf as (_ & _ & _ & Hf & _), Hf' as (_ & _ & _ & ? & _); congruence);
    rewrite E2 in E; clear E2.
  { injection E as <- <-. split; [by apply (formatted_proper _ _ _ _ _ Hs2)|].
    split; [left; by rewrite (disk_log_proper _ _ _ _ Hs2)|]. intros Hrel. by rewrite Hno in Hl. }
  assert (l' = l) as -> by congruence. pose proof (formatted_range _ _ _ _ Hf).
  apply (formatted_proper _ _ _ _ _ Hs2) in Hf as Hf2.
  assert (disk_log start n d2 = Some l) as Hl2 by (by rewrite (disk_log_proper _ _ _ _ Hs2)).
  clear Hf Hf' Hl Hl' Hs1 Hs2 d d1.
  destruct (_ || _) eqn:Eg.
  { injection E as <- <-. split; [done|]. split; [by left|]. intros _ (? & Hnew & _).
    rewrite Hnew in Eg. lia. }
  split_bools. destruct (journal_encode_internal _ _ _ _ _ _ _) as [s|] eqn:Ee.
  2: { injection E as <- <-. split; [done|]. split; [by left|]. intros _ (_ & _ & ?).
       rewrite Ee in *. by destruct (is_Some_None (A := list Z)). }
  assert (appendable n l) as Happ by (split; [lia|]; split; [done|by rewrite Ee]).
  replace (u64 (u64 (start + 1) + Z.of_nat (length l))) with (start + 1 + Z.of_nat (length l)) in E.
  2: { destruct Hf2 as (? & ? & ? & _ & ?).
       by rewrite (u64_id (start + 1)), u64_id by (unfold is_u64; lia). }
  destruct (publish_cases _ _ _ _ _ _ Hf2 Hl2 Happ Ee E) as (? & [?|?] & ?); auto.
Qed.

End append.

(** ** Replay *)

Section replay.
Context {D A : Type} `{SectorDiskLaws D} (apply : journal_entry -> A -> bool * A).

(** Applying a list of entries in order, stopping at the first refusal. *)
Fixpoint apply_all (l : list journal_entry) (a : A) : bool * A :=
  match l with
  | [] => (true, a)
  | e :: l => let '(ok, a) := apply e a in if ok then apply_all l a else (false, a)
  end.

(** [a'] is reached after some first entries of the log only. *)
Definition applied_prefix (l : list journal_entry) (a a' : A) : Prop :=
  exists k, a' = snd (apply_all (take k l) a).

Lemma parse_log_decode prev secs l i e :
  parse_log prev secs = Some l -> l !! i = Some e ->
  exists s, secs !! i = Some s /\ journal_decode s = Some e.
Proof.
  revert prev l i. induction secs as [|s rest IH]; intros prev l i; [by intros [= <-]|].
  intros [[-> _]|(e' & l' & -> & _ & Hd & _ & E)]%parse_log_cons Hi; [done|].
  destruct i as [|i]; [simpl in Hi; simplify_eq; by exists s|]. by apply (IH (sequence e') l').
Qed.

Lemma applied_prefix_cons e l a a1 a' : apply e a = (true, a1) ->
  applied_prefix l a1 a' -> applied_prefix (e :: l) a a'.
Proof. intros E [k ->]. exists (S k). simpl. by rewrite E. Qed.

Lemma replay_loop_spec start n sc (d0 d : D) l l2 k a ok d' a' :
  formatted start sc n d0 -> disk_log start n d0 = Some l -> same_disk d d0 ->
  drop k l = l2 ->
  replay_loop apply (length l2) start (Z.of_nat k) d a = (ok, d', a') ->
  same_disk d' d0 /\ applied_prefix l2 a a' /\
  (ok = true -> apply_all l2 a = (true, a')) /\
  (reliable (D := D) -> apply_all l2 a = (ok, a')).
Proof.
  intros Hf Hl. revert k d a. induction l2 as [|e l2 IH]; intros k d a Hs Hk E.
  { injection E as <- <- <-. repeat split; try done. by exists O. }
  assert (l !! k = Some e) as Hlk by (rewrite <- (Nat.add_0_r k), <- lookup_drop, Hk; done).
  assert (drop (S k) l = l2) as Hk2 by (rewrite <- Nat.add_1_r, <- drop_drop, Hk; done).
  destruct (parse_log_decode _ _ _ _ _ Hl Hlk) as (s & Hsec & Hd).
  pose proof (lookup_lt_Some _ _ _ Hsec) as Hlt. rewrite length_sectors_from in Hlt.
  unfold sectors_from in Hsec. rewrite list_lookup_fmap, lookup_seqZ_lt in Hsec by lia.
  simpl in Hsec. apply Some_inj in Hsec. rewrite Z.add_0_l in Hsec.
  pose proof (formatted_region _ _ _ _ Hf) as Hreg. unfold region_ok in Hreg.
  cbn [replay_loop length] in E.
  rewrite (read_record_lba _ _ 0) in E by (unfold region_ok; lia).
  destruct (read_cases (start + 1 + Z.of_nat k) d) as (r & d1 & Er & Hs1 & [-> | [-> Hn]]);
    rewrite Er in E.
  2: { injection E as <- <- <-. split; [by etransitivity|]. split; [by exists O|].
       split; [done|]. intros Hrel. by destruct Hn. }
  rewrite (Hs (start + 1 + Z.of_nat k)), Hsec, Hd in E. simpl.
  destruct (apply e a) as [okA a1] eqn:Ea. destruct okA.
  - rewrite (u32_id (Z.of_nat k + 1)) in E by (unfold is_u32; lia).
    replace (Z.of_nat k + 1) with (Z.of_nat (S k)) in E by lia.
    apply IH in E as (A1 & A2 & A3 & A4); [|by etransitivity|done].
    split; [done|]. split; [by eapply applied_prefix_cons|done].
  - injection E as <- <- <-. split; [by etransitivity|].
    split; [exists 1%nat; simpl; by rewrite Ea|done].
Qed.

Lemma journal_replay_cases start sc (d : D) a ok applied d' a' : is_u64 start -> is_u32 sc ->
  journal_replay apply start sc d a = (ok, applied, d', a') ->
  same_disk d' d /\ (ok = false -> applied = 0) /\
  (a' = a /\ ok = false /\ (reliable (D := D) -> forall n, formatted start sc n d ->
     disk_log start n d = None) \/
   exists n l, formatted start sc n d /\ disk_log start n d = Some l /\ applied_prefix l a a' /\
     (ok = true -> apply_all l a = (true, a') /\ applied = Z.of_nat (length l)) /\
     (reliable (D := D) -> apply_all l a = (ok, a'))).
Proof.
  intros Hst Hsc E. unfold journal_replay in E.
  destruct (open_scan start sc d Hst Hsc) as (r1 & d1 & E1 & Hs1 & [[-> Hno]|
    (n & -> & Hf & r2 & d2 & E2 & Hs2 & [[-> Hno]|(l & Hl & Hlen & ->)])]);
    rewrite E1 in E.
  { injection E as <- <- <- <-. split; [done|]. split; [done|]. left. split; [done|].
    split; [done|]. intros Hrel n Hf. by destruct (Hno Hrel n). }
  all: rewrite E2 in E.
  { injection E as <- <- <- <-. split; [done|]. split; [done|]. left. split; [done|].
    split; [done|]. intros Hrel n' Hf'.
    assert (n' = n) as -> by (destruct Hf as (_ & _ & _ & Hf & _), Hf' as (_ & _ & _ & ? & _); congruence).
    by apply Hno. }
  rewrite Nat2Z.id in E. destruct (replay_loop _ _ _ _ _ _) as [[ok1 d3] a1] eqn:E3.
  apply (replay_loop_spec start n sc d d2 l l 0) in E3 as (A1 & A2 & A3 & A4); [|done..].
  destruct ok1; injection E as <- <- <- <-; (split; [done|]; split; [done|]; right; exists n, l).
  - repeat (split; [done|]). split; [intros _; auto|done].
  - repeat (split; [done|]). done.
Qed.

End replay.

(** Sequence numbers on disk are 32-bit. *)
Lemma log_sequence_u32 {D} `{SectorDiskLaws D} start i n (d : D) prev l :
  parse_log prev (sectors_from start i n d) = Some l -> is_u32 prev -> is_u32 (last_sequence prev l).
Proof.
  revert i prev l. induction n as [|n IH]; intros i prev l; [by intros [= <-]|].
  rewrite sectors_from_S.
  intros [[-> _]|(e & l' & -> & _ & Hd & _ & E)]%parse_log_cons Hp; [done|].
  apply (IH (i + 1) (sequence e) l' E).
  destruct (decode_layout _ _ _ (sector_at_ok d (start + 1 + i)) Hd) as ([_ ? _ _ _ _] & _).
  unfold is_u32. lia.
Qed.

(** ** Properties *)

(** C6: an append is atomic under crashes and device failures. From a well-formed region
    holding the log [l], whatever reads and writes fail, the region stays well-formed and holds
    either [l] or [l] with exactly the new record at its end; when the call reports success it
    holds the new record. *)
Theorem journal_append_crash_safe {D} `{SectorDiskLaws D} (d d' : D) start sc op seq name content
    cl n l ok :
  is_u64 start -> is_u32 sc -> is_u32 seq -> 0 <= cl ->
  bytes_ok (default [] name) -> bytes_ok (default [] content) ->
  formatted start sc n d -> disk_log start n d = Some l ->
  journal_append start sc op seq name content cl d = (ok, d') ->
  formatted start sc n d' /\
  (disk_log start n d' = Some l \/
   disk_log start n d' = Some (l ++ [append_entry op seq name content cl])) /\
  (ok = true -> disk_log start n d' = Some (l ++ [append_entry op seq name content cl])).
Proof.
  intros Hst Hsc Hseq Hcl Hn Hc Hf Hl E.
  destruct (journal_append_cases _ _ _ _ _ _ _ Hst Hsc Hseq Hcl Hn Hc _ _ _ _ _ Hf Hl E)
    as (Hf' & [[-> Hl']|[_ Hl']] & _); (split; [done|]; split; [by auto|done]).
Qed.

(** C28: on a device that does not fail, an append succeeds exactly when the region has room,
    the sequence number is newer than every recorded one and the record can be encoded. *)
Theorem journal_append_total {D} `{SectorDiskLaws D} (d : D) start sc op seq name content cl n l :
  is_u64 start -> is_u32 sc -> is_u32 seq -> 0 <= cl ->
  bytes_ok (default [] name) -> bytes_ok (default [] content) ->
  reliable (D := D) -> formatted start sc n d -> disk_log start n d = Some l ->
  (fst (journal_append start sc op seq name content cl d) = true <->
   appendable op seq cl name content n l).
Proof.
  intros Hst Hsc Hseq Hcl Hn Hc Hrel Hf Hl.
  destruct (journal_append start sc op seq name content cl d) as [ok d'] eqn:E.
  destruct (journal_append_cases _ _ _ _ _ _ _ Hst Hsc Hseq Hcl Hn Hc _ _ _ _ _ Hf Hl E)
    as (_ & Hcase & Hok). simpl. split; [|auto].
  intros ->. by destruct Hcase as [[? _]|[? _]].
Qed.

(** C27: replay validates before it applies. If it reports success, the consumer has received
    exactly the records of the log, in order; if it fails, at most some first records of a
    well-formed log, and none at all when the log is malformed; without device failures it
    applies the whole log of a well-formed region. The device is unchanged. *)
Theorem journal_replay_correct {D A} `{SectorDiskLaws D} (apply : journal_entry -> A -> bool * A)
    start sc (d : D) a ok applied d' a' :
  is_u64 start -> is_u32 sc ->
  journal_replay apply start sc d a = (ok, applied, d', a') ->
  same_disk d' d /\
  (ok = true -> exists n l, formatted start sc n d /\ disk_log start n d = Some l /\
     apply_all apply l a = (true, a') /\ applied = Z.of_nat (length l)) /\
  (ok = false -> applied = 0 /\ (a' = a \/ exists n l, formatted start sc n d /\
     disk_log start n d = Some l /\ applied_prefix apply l a a')) /\
  (reliable (D := D) -> forall n l, formatted start sc n d -> disk_log start n d = Some l ->
     apply_all apply l a = (ok, a')).
Proof.
  intros Hst Hsc E.
  destruct (journal_replay_cases apply start sc d a ok applied d' a' Hst Hsc E)
    as (Hs & H0' & [(-> & -> & Hno)|(n & l & Hf & Hl & Hp & Hok & Hr)]).
  - split; [done|]. split; [done|]. split; [by auto|]. intros Hrel n l Hf Hl.
    by rewrite (Hno Hrel n Hf) in Hl.
  - split; [done|]. split; [intros ->; exists n, l; destruct Hok; auto|]. split.
    + intros Hf0. split; [auto|]. right. by exists n, l.
    + intros Hrel n' l' Hf' Hl'.
      assert (n' = n) as -> by (destruct Hf as (_ & _ & _ & Hf & _), Hf' as (_ & _ & _ & ? & _); congruence).
      assert (l' = l) as -> by congruence. auto.
Qed.

(** The superblock fixes the number of data sectors. *)
Lemma formatted_inj {D} `{SectorDiskLaws D} start sc n n' (d : D) :
  formatted start sc n d -> formatted start sc n' d -> n' = n.
Proof. intros (_ & _ & _ & ? & _) (_ & _ & _ & ? & _). congruence. Qed.

Lemma next_sequence_cases {D} `{SectorDiskLaws D} (d d' : D) start sc r :
  is_u64 start -> is_u32 sc ->
  journal_next_sequence start sc d = (r, d') ->
  same_disk d' d /\
  (forall seq, r = Some seq ->
     exists n l, formatted start sc n d /\ disk_log start n d = Some l /\ increasing 0 l /\
       seq = last_sequence 0 l + 1 /\ 0 < seq < 4294967296) /\
  (reliable (D := D) -> forall n l, formatted start sc n d -> disk_log start n d = Some l ->
     last_sequence 0 l < 4294967295 -> r = Some (last_sequence 0 l + 1)).
Proof.
  intros Hst Hsc E. unfold journal_next_sequence in E.
  destruct (open_scan start sc d Hst Hsc) as (r1 & d1 & E1 & Hs1 & [[-> Hno]|
    (n & -> & Hf & r2 & d2 & E2 & Hs2 & [[-> Hno]|(l & Hl & Hlen & ->)])]); rewrite E1 in E.
  { injection E as <- <-. split; [done|]. split; [done|]. intros Hrel n l Hf. by destruct (Hno Hrel n). }
  all: rewrite E2 in E.
  { injection E as <- <-. split; [done|]. split; [done|]. intros Hrel n' l Hf' Hl.
    rewrite (formatted_inj _ _ _ _ _ Hf Hf'), (Hno Hrel) in Hl. done. }
  assert (is_u32 (last_sequence 0 l)) as Hlast.
  { eapply log_sequence_u32; [exact Hl|]. unfold is_u32. lia. }
  unfold is_u32 in Hlast.
  assert (forall n' l', formatted start sc n' d -> disk_log start n' d = Some l' -> l' = l) as Huniq.
  { intros n' l' Hf' Hl'. rewrite (formatted_inj _ _ _ _ _ Hf Hf'), Hl in Hl'. congruence. }
  case_if; injection E as <- <-; (split; [done|]; split).
  - done.
  - intros _ n' l' Hf' Hl'. rewrite (Huniq n' l' Hf' Hl'). lia.
  - intros seq [= <-]. rewrite (u32_id (last_sequence 0 l + 1)) by (unfold is_u32; lia).
    exists n, l. pose proof (parse_log_increasing _ _ _ Hl). repeat (split; [done|]). lia.
  - intros _ n' l' Hf' Hl' _. rewrite (Huniq n' l' Hf' Hl'), u32_id by (unfold is_u32; lia). done.
Qed.

(** The sequence numbers of a log strictly increase, and [journal_next_sequence] returns
    one more than the last, so that an append under it is accepted as newer. *)
Theorem journal_next_sequence_newer {D} `{SectorDiskLaws D} (d d' : D) start sc seq :
  is_u64 start -> is_u32 sc ->
  journal_next_sequence start sc d = (Some seq, d') ->
  exists n l, formatted start sc n d /\ disk_log start n d = Some l /\ increasing 0 l /\
    seq = last_sequence 0 l + 1 /\ sequence_is_newer seq (last_sequence 0 l) = true /\
    is_u32 seq /\ same_disk d' d.
Proof.
  intros Hst Hsc E. destruct (next_sequence_cases d d' start sc (Some seq) Hst Hsc E) as (Hs & H' & _).
  destruct (H' seq eq_refl) as (n & l & Hf & Hl & Hi & -> & Hr). exists n, l. unfold is_u32.
  repeat (split; [done || (unfold sequence_is_newer; lia)|]). done.
Qed.

(** ** Concrete devices *)

Definition sector_okb (b : list Z) : bool :=
  (Z.of_nat (length b) =? 512) && forallb (fun x => (0 <=? x) && (x <? 256)) b.

Lemma sector_okb_ok b : sector_okb b = true <-> sector_ok b.
Proof.
  unfold sector_okb, sector_ok, bytes_ok. rewrite andb_true_iff, forallb_forall, Forall_forall.
  unfold is_u8. split; intros [H1 H2]; (split; [lia|]); intros x Hx; specialize (H2 x Hx); lia.
Qed.

(** A memory disk: unwritten sectors are zero. *)
Definition mem_sector (m : gmap Z (list Z)) (lba : Z) : list Z :=
  match m !! lba with
  | Some b => if sector_okb b then b else blank
  | None => blank
  end.

#[export] Instance mem_disk : SectorDisk (gmap Z (list Z)) := {
  disk_read lba m := (Some (mem_sector m lba), m);
  disk_write lba b m := (true, <[lba := b]> m)
}.

Lemma mem_sector_ok m lba : sector_ok (mem_sector m lba).
Proof.
  assert (sector_ok blank) by (by apply sector_okb_ok; vm_compute).
  unfold mem_sector. destruct (m !! lba) as [b|]; [|done].
  destruct (sector_okb b) eqn:E; [by apply sector_okb_ok|done].
Qed.

Lemma mem_sector_insert m lba b lba' : sector_ok b ->
  mem_sector (<[lba := b]> m) lba' = if decide (lba = lba') then b else mem_sector m lba'.
Proof.
  intros Hb%sector_okb_ok. unfold mem_sector. rewrite lookup_insert.
  case_decide; [by rewrite Hb|done].
Qed.

#[export] Program Instance mem_disk_laws : SectorDiskLaws (gmap Z (list Z)) := {
  sector_at := mem_sector
}.
Next Obligation. apply mem_sector_ok. Qed.
Next Obligation. done. Qed.
Next Obligation. intros lba d b d' [= <- <-]. done. Qed.
Next Obligation.
  intros lba b d lba' Hne. simpl. unfold mem_sector. by rewrite lookup_insert_ne.
Qed.
Next Obligation.
  intros lba b d d' Hb [= <-]. rewrite mem_sector_insert by done. by case_decide.
Qed.
Next Obligation. intros lba b d d' Hb [=]. Qed.

(** The same with a schedule of failures; a failed write is lost. *)
Record faulty_disk := { medium : gmap Z (list Z); faults : list bool }.

#[export] Instance faulty_disk_ops : SectorDisk faulty_disk := {
  disk_read lba d :=
    (if default false (head (faults d)) then None else Some (mem_sector (medium d) lba),
     Build_faulty_disk (medium d) (List.tl (faults d)));
  disk_write lba b d :=
    if default false (head (faults d))
    then (false, Build_faulty_disk (medium d) (List.tl (faults d)))
    else (true, Build_faulty_disk (<[lba := b]> (medium d)) (List.tl (faults d)))
}.

#[export] Program Instance faulty_disk_laws : SectorDiskLaws faulty_disk := {
  sector_at d := mem_sector (medium d)
}.
Next Obligation. intros d lba. apply mem_sector_ok. Qed.
Next Obligation. done. Qed.
Next Obligation. intros lba d b d'. simpl. case_if; [done|]. by intros [= <- <-]. Qed.
Next Obligation.
  intros lba b d lba' Hne. simpl. case_if; [done|]. simpl. unfold mem_sector.
  by rewrite lookup_insert_ne.
Qed.
Next Obligation.
  intros lba b d d' Hb. simpl. case_if; [done|]. intros [= <-]. simpl.
  rewrite mem_sector_insert by done. by case_decide.
Qed.
Next Obligation. intros lba b d d' Hb. simpl. case_if; [|done]. intros [= <-]. by left. Qed.

(** A region of four sectors at LBA 100, empty. *)
Definition fresh_region : gmap Z (list Z) :=
  {[ 100 := default [] (journal_superblock_encode blank 3) ]}.

Definition note_name : option (list Z) := Some [78; 79; 84; 69; 0].
Definition note_content : option (list Z) := Some [115; 97; 102; 101].

Lemma fresh_formatted : journal_superblock_decode (mem_sector fresh_region 100) = Some 3.
Proof. vm_compute. reflexivity. Qed.

Lemma fresh_empty : parse_log 0 (map (fun i => mem_sector fresh_region (100 + 1 + i)) (seqZ 0 3)) = Some [].
Proof. vm_compute. reflexivity. Qed.

Lemma note_bytes : bytes_ok (default [] note_name) /\ bytes_ok (default [] note_content).
Proof. split; repeat constructor; unfold is_u8; lia. Qed.

(** ** Witnesses *)

(** The seventh access, the write of the commit word, fails. *)
Definition crashing_disk : faulty_disk :=
  Build_faulty_disk fresh_region [false; false; false; false; false; false; true].

Lemma journal_append_crash_safe_witness :
  disk_log 100 3 (snd (journal_append 100 4 1 1 note_name note_content 4 crashing_disk)) = Some [] \/
  disk_log 100 3 (snd (journal_append 100 4 1 1 note_name note_content 4 crashing_disk)) =
    Some ([] ++ [append_entry 1 1 note_name note_content 4]).
Proof.
  destruct (journal_append 100 4 1 1 note_name note_content 4 crashing_disk) as [ok d'] eqn:E.
  destruct (journal_append_crash_safe crashing_disk d' 100 4 1 1 note_name note_content 4 3 [] ok)
    as (_ & H & _); [unfold is_u64; lia|unfold is_u32; lia|unfold is_u32; lia|lia|
      exact (proj1 note_bytes)|exact (proj2 note_bytes)| |exact fresh_empty|exact E|exact H].
  refine (conj _ (conj _ (conj _ (conj fresh_formatted _)))); lia.
Defined.

Lemma journal_append_total_witness :
  fst (journal_append 100 4 1 1 note_name note_content 4 fresh_region) = true.
Proof.
  apply (journal_append_total fresh_region 100 4 1 1 note_name note_content 4 3 []);
    [unfold is_u64; lia|unfold is_u32; lia|unfold is_u32; lia|lia|
     exact (proj1 note_bytes)|exact (proj2 note_bytes)| | |exact fresh_empty|].
  - split; [intros lba d; by eexists|done].
  - refine (conj _ (conj _ (conj _ (conj fresh_formatted _)))); lia.
  - split; [simpl; lia|]. split; [reflexivity|].
    destruct (journal_encode_internal _ _ _ _ _ _ _) eqn:E; [by eexists|].
    vm_compute in E. discriminate E.
Defined.

(** Replaying into a list of sequence numbers, after one append. *)
Lemma journal_replay_correct_witness :
  let d := snd (journal_append 100 4 1 1 note_name note_content 4 fresh_region) in
  let '(ok, applied, _, a) := journal_replay (fun e a => (true, sequence e :: a)) 100 4 d [] in
  ok = true /\ exists n l, disk_log 100 n d = Some l /\
    apply_all (fun e a => (true, sequence e :: a)) l [] = (true, a) /\ applied = Z.of_nat (length l).
Proof.
  cbv zeta. set (d := snd (journal_append 100 4 1 1 note_name note_content 4 fresh_region)).
  assert (fst (fst (fst (journal_replay (fun e a => (true, sequence e :: a)) 100 4 d []))) = true)
    as Hok by (vm_compute; reflexivity).
  destruct (journal_replay _ _ _ _ _) as [[[ok applied] d'] a'] eqn:E. simpl in Hok.
  destruct (journal_replay_correct (fun e a => (true, sequence e :: a)) 100 4 d [] ok applied d' a')
    as (_ & H & _); [unfold is_u64; lia|unfold is_u32; lia|exact E|].
  split; [exact Hok|]. destruct (H Hok) as (n & l & _ & Hl). exists n, l. exact Hl.
Defined.

Lemma journal_next_sequence_newer_witness :
  let d := snd (journal_append 100 4 1 1 note_name note_content 4 fresh_region) in
  exists n l, disk_log 100 n d = Some l /\ increasing 0 l /\ 2 = last_sequence 0 l + 1.
Proof.
  cbv zeta. set (d := snd (journal_append 100 4 1 1 note_name note_content 4 fresh_region)).
  assert (fst (journal_next_sequence 100 4 d) = Some 2) as Hr by (vm_compute; reflexivity).
  destruct (journal_next_sequence 100 4 d) as [r d'] eqn:E. simpl in Hr. subst r.
  destruct (journal_next_sequence_newer d d' 100 4 2) as (n & l & _ & Hl & Hi & Hs & _);
    [unfold is_u64; lia|unfold is_u32; lia|exact E|].
  exists n, l. exact (conj Hl (conj Hi Hs)).
Defined.
