(* ===== verification/Ramfs.v ===== *)
(** * RAM filesystem

    [fs/ramfs.c]: sixteen slots of name and contents. A [char] array is represented by the C
    string it holds, the bytes before its terminator; no function of the file reads past it.
    Null pointers are [None]. The specification is a finite map from names to contents. *)

From S2P Require Import Prelude Journal.
Local Open Scope c_scope.
Local Open Scope Z_scope.

Definition RAMFS_MAX_FILES : Z := 16.
Definition RAMFS_NAME_MAX : Z := 32.
Definition RAMFS_CONTENT_MAX : Z := 256.

(** ** Data *)

Notation cstring := (list Z).

Record ramfs_file := {
  fname : cstring;
  fcontents : cstring
}.

Record ramfs := {
  files : list ramfs_file;
  file_count : Z
}.

(** The string in a buffer: the bytes before the first zero. *)
Fixpoint cstr (buffer : list Z) : cstring :=
  match buffer with
  | [] => []
  | c :: rest => if c =? 0 then [] else c :: cstr rest
  end.

Definition ramfs_static : ramfs := Build_ramfs (replicate 16 (Build_ramfs_file [] [])) 0.

Definition file_at (fs : list ramfs_file) (index : Z) : ramfs_file :=
  nth (Z.to_nat index) fs (Build_ramfs_file [] []).

Definition set_file (fs : list ramfs_file) (index : Z) (f : ramfs_file) : list ramfs_file :=
  <[Z.to_nat index := f]> fs.

(** ** Strings *)

Fixpoint string_equals_at (left_ right_ : cstring) : bool :=
  match left_, right_ with
  | x :: left_, y :: right_ => if negb (x =? y) then false else string_equals_at left_ right_
  | [], [] => true
  | _, _ => false
  end.

Definition string_equals (left_ right_ : option cstring) : bool :=
  match left_, right_ with
  | Some l, Some r => string_equals_at l r
  | _, _ => false
  end.

Definition string_length (value : option cstring) (limit : Z) : Z :=
  match value with
  | None => limit
  | Some v => Z.min (Z.of_nat (length v)) limit
  end.

(** Module of its own: the name is also the journal's. *)
Module Names.

Definition valid_name (name : option cstring) : bool :=
  let length := string_length name RAMFS_NAME_MAX in
  if (length =? 0) || (RAMFS_NAME_MAX <=? length) then false else
  all_range 0 length (fun index =>
    let character := arr (default [] name) index in
    negb ((character <? 33) || (character =? 47) || (character =? 92))).

End Names.

(** The new value of a destination of [capacity] bytes. *)
Definition copy_string (source : cstring) (capacity : Z) : cstring :=
  take (Z.to_nat (capacity - 1)) source.

(** ** Operations *)

Definition add_file (name contents : cstring) (s : ramfs) : ramfs :=
  if file_count s =? RAMFS_MAX_FILES then s else
  Build_ramfs
    (set_file (files s) (file_count s)
       (Build_ramfs_file (copy_string name RAMFS_NAME_MAX)
          (copy_string contents RAMFS_CONTENT_MAX)))
    (file_count s +32 1).

(** "README", "MOTD", "EFES" and their texts. *)
Definition README : cstring := [82; 69; 65; 68; 77; 69].
Definition MOTD : cstring := [77; 79; 84; 68].
Definition EFES : cstring := [69; 70; 69; 83].
Definition README_text : cstring :=
  [69; 102; 101; 115; 79; 83; 32; 82; 65; 77; 32; 102; 105; 108; 101; 115; 121; 115; 116; 101;
   109; 10].
Definition MOTD_text : cstring :=
  [66; 117; 105; 108; 100; 44; 32; 108; 101; 97; 114; 110; 44; 32; 97; 110; 100; 32; 100; 114;
   105; 110; 107; 32; 114; 101; 115; 112; 111; 110; 115; 105; 98; 108; 121; 46; 10].
Definition EFES_text : cstring :=
  [69; 102; 101; 115; 79; 83; 32; 82; 65; 77; 32; 102; 105; 108; 101; 115; 121; 115; 116; 101;
   109; 32; 101; 110; 116; 114; 121; 46; 10].

Definition ramfs_init (s : ramfs) : ramfs :=
  let s := Build_ramfs (files s) 0 in
  let s := add_file README README_text s in
  let s := add_file MOTD MOTD_text s in
  add_file EFES EFES_text s.

Definition ramfs_file_count (s : ramfs) : Z := file_count s.

Definition ramfs_is_pristine (s : ramfs) : bool :=
  (file_count s =? 3) &&
  string_equals (Some (fname (file_at (files s) 0))) (Some README) &&
  string_equals (Some (fname (file_at (files s) 1))) (Some MOTD) &&
  string_equals (Some (fname (file_at (files s) 2))) (Some EFES).

Definition ramfs_file_name (index : Z) (s : ramfs) : cstring :=
  if file_count s <=? index then [] else fname (file_at (files s) index).

(** The search loop the operations share: the first file with this name. *)
Definition find_file (name : option cstring) (s : ramfs) : option Z :=
  find_first 0 (file_count s)
    (fun index => string_equals name (Some (fname (file_at (files s) index)))).

Definition ramfs_file_contents (name : option cstring) (s : ramfs) : option cstring :=
  if negb (Names.valid_name name) then None else
  match find_file name s with
  | Some index => Some (fcontents (file_at (files s) index))
  | None => None
  end.

(** The return value and what is stored through [content_length], if anything. *)
Definition ramfs_can_write_file (name contents : option cstring) (s : ramfs)
    : bool * option Z :=
  if negb (Names.valid_name name) || match contents with None => true | _ => false end
  then (false, None) else
  let length := string_length contents RAMFS_CONTENT_MAX in
  if RAMFS_CONTENT_MAX <=? length then (false, None) else
  match find_file name s with
  | Some _ => (true, Some length)
  | None => (negb (file_count s =? RAMFS_MAX_FILES), Some length)
  end.

Definition ramfs_write_file (name contents : option cstring) (s : ramfs) : bool * ramfs :=
  if negb (fst (ramfs_can_write_file name contents s)) then (false, s) else
  match find_file name s with
  | Some index =>
      (true, Build_ramfs
        (set_file (files s) index
           (Build_ramfs_file (fname (file_at (files s) index))
              (copy_string (default [] contents) RAMFS_CONTENT_MAX)))
        (file_count s))
  | None => (true, add_file (default [] name) (default [] contents) s)
  end.

Definition ramfs_remove_file (name : option cstring) (s : ramfs) : bool * ramfs :=
  if negb (Names.valid_name name) then (false, s) else
  match find_file name s with
  | None => (false, s)
  | Some index =>
      let fs := for_loop (index +32 1) (file_count s)
        (fun move fs =>
           set_file fs (move -32 1)
             (Build_ramfs_file (copy_string (fname (file_at fs move)) RAMFS_NAME_MAX)
                (copy_string (fcontents (file_at fs move)) RAMFS_CONTENT_MAX))) (files s) in
      (true, Build_ramfs fs (file_count s -32 1))
  end.

Definition ramfs_apply_journal_entry (entry : journal_entry) (s : ramfs) : bool * ramfs :=
  if (name_length entry =? 0) || (RAMFS_NAME_MAX <=? name_length entry) ||
     (RAMFS_CONTENT_MAX <=? content_length entry) ||
     negb (arr (name entry) (name_length entry) =? 0) ||
     negb (Names.valid_name (Some (cstr (name entry))))
  then (false, s) else
  if operation entry =? JOURNAL_OPERATION_REMOVE then
    if negb (content_length entry =? 0) then (false, s) else
    match ramfs_file_contents (Some (cstr (name entry))) s with
    | None => (true, s)
    | Some _ => ramfs_remove_file (Some (cstr (name entry))) s
    end
  else
  if negb (operation entry =? JOURNAL_OPERATION_WRITE) then (false, s) else
  if negb (all_range 0 (content_length entry) (fun index => negb (arr (content entry) index =? 0)))
  then (false, s) else
  ramfs_write_file (Some (cstr (name entry)))
    (Some (take (Z.to_nat (content_length entry)) (content entry))) s.

(** "TEST", "safe write\n", "bad/name", "rejected" and the 36-character name. *)
Definition TEST : cstring := [84; 69; 83; 84].
Definition safe_write : cstring := [115; 97; 102; 101; 32; 119; 114; 105; 116; 101; 10].
Definition bad_name : cstring := [98; 97; 100; 47; 110; 97; 109; 101].
Definition rejected : cstring := [114; 101; 106; 101; 99; 116; 101; 100].
Definition long_name : cstring :=
  [84; 79; 79; 95; 76; 79; 78; 71; 95; 78; 65; 77; 69; 95; 84; 72; 65; 84; 95; 69; 88; 67; 69; 69;
   68; 83; 95; 84; 72; 69; 95; 76; 73; 77; 73; 84].

Definition ramfs_self_test (s : ramfs) : bool * ramfs :=
  let '(ok, s) := ramfs_write_file (Some TEST) (Some safe_write) s in
  if negb ok then (false, s) else
  let contents := ramfs_file_contents (Some TEST) s in
  if match contents with None => true | Some _ => false end ||
     negb (string_equals contents (Some safe_write)) then (false, s) else
  let '(ok, s) := ramfs_write_file (Some bad_name) (Some rejected) s in
  if ok then (false, s) else
  let '(ok, s) := ramfs_write_file (Some long_name) (Some rejected) s in
  if ok then (false, s) else
  if match ramfs_file_contents (Some long_name) s with None => false | Some _ => true end
  then (false, s) else
  let '(ok, s) := ramfs_remove_file (Some TEST) s in
  if negb ok then (false, s) else
  if match ramfs_file_contents (Some TEST) s with None => false | Some _ => true end
  then (false, s) else (true, s).

(** ** Specification: a map from names to contents *)

Definition name_ok (n : cstring) : bool :=
  (1 <=? Z.of_nat (length n)) && (Z.of_nat (length n) <=? 31) &&
  forallb (fun c => (33 <=? c) && negb (c =? 47) && negb (c =? 92)) n.

(** The used slots, in order. *)
Definition used (s : ramfs) : list (cstring * cstring) :=
  (fun f => (fname f, fcontents f)) <$> take (Z.to_nat (file_count s)) (files s).

Definition ramfs_map (s : ramfs) : gmap cstring cstring := list_to_map (used s).

Record ramfs_wf (s : ramfs) : Prop := {
  fs_slots : length (files s) = 16%nat;
  fs_count : 0 <= file_count s <= 16;
  fs_names : NoDup ((used s).*1);
  fs_valid : Forall (fun f => name_ok (fst f) = true /\ (length (snd f) < 256)%nat) (used s)
}.

(** ** String lemmas *)

Lemma string_equals_at_true l r : string_equals_at l r = true <-> l = r.
Proof.
  revert r. induction l as [|x l IH]; intros [|y r]; simpl; try done.
  destruct (Z.eqb_spec x y) as [->|Hne]; simpl; [rewrite IH; split; congruence|].
  split; [done|congruence].
Qed.

Lemma string_equals_true l r : string_equals (Some l) (Some r) = true <-> l = r.
Proof. apply string_equals_at_true. Qed.

Lemma valid_name_ok n : Names.valid_name (Some n) = name_ok n.
Proof.
  unfold Names.valid_name, name_ok, string_length, RAMFS_NAME_MAX. simpl default.
  destruct (decide (1 <= length n <= 31)%nat) as [Hl|Hl].
  2: { replace (_ || _) with true by lia. symmetry. apply andb_false_iff. left. lia. }
  replace (_ || _) with false by lia. rewrite Z.min_l by lia.
  replace ((1 <=? _) && (_ <=? 31)) with true by lia. simpl.
  apply eq_true_iff_eq. rewrite all_range_true, forallb_forall. split.
  - intros H x (k & Hk & <-)%(In_nth _ _ 0). specialize (H (Z.of_nat k) ltac:(lia)).
    unfold arr in H. rewrite Nat2Z.id in H. lia.
  - intros H i Hi. specialize (H (arr n i) ltac:(apply nth_In; lia)). lia.
Qed.

Lemma copy_string_id s c : Z.of_nat (length s) < c -> copy_string s c = s.
Proof. intros H. apply take_ge. lia. Qed.

(** ** Association lists *)

Lemma list_to_map_update (l : list (cstring * cstring)) i n c0 c :
  NoDup l.*1 -> l !! i = Some (n, c0) ->
  list_to_map (M := gmap cstring cstring) (<[i := (n, c)]> l) = <[n := c]> (list_to_map l).
Proof.
  revert i. induction l as [|[n1 c1] l IH]; intros i Hnd Hi; [done|].
  simpl in Hnd. pose proof (NoDup_cons_1_1 _ _ Hnd) as Hn1.
  apply NoDup_cons_1_2 in Hnd. destruct i as [|i]; simpl in *.
  - injection Hi as -> ->. by rewrite insert_insert_eq.
  - rewrite (IH i) by done. apply insert_insert_ne. intros ->. apply Hn1.
    apply (list_elem_of_fmap_2 fst l (n, c0)). by apply list_elem_of_lookup_2 with i.
Qed.

Lemma list_to_map_delete (l : list (cstring * cstring)) i n c :
  NoDup l.*1 -> l !! i = Some (n, c) ->
  list_to_map (M := gmap cstring cstring) (delete i l) = delete n (list_to_map l).
Proof.
  revert i. induction l as [|[n1 c1] l IH]; intros i Hnd Hi; [done|].
  simpl in Hnd. pose proof (NoDup_cons_1_1 _ _ Hnd) as Hn1.
  apply NoDup_cons_1_2 in Hnd. destruct i as [|i]; simpl in *.
  - injection Hi as -> ->. rewrite delete_insert_id; [done|].
    by apply not_elem_of_list_to_map_1.
  - rewrite (IH i) by done. rewrite delete_insert_ne; [done|]. intros ->. apply Hn1.
    apply (list_elem_of_fmap_2 fst l (n1, c)). by apply list_elem_of_lookup_2 with i.
Qed.

(** ** The used slots *)

Section wf.
Context (s : ramfs) (Hwf : ramfs_wf s).

Lemma length_used : Z.of_nat (length (used s)) = file_count s.
Proof.
  pose proof (fs_slots _ Hwf). pose proof (fs_count _ Hwf).
  unfold used. rewrite length_fmap, length_take. lia.
Qed.

Lemma file_at_lookup i : 0 <= i < 16 -> files s !! Z.to_nat i = Some (file_at (files s) i).
Proof.
  intros Hi. pose proof (fs_slots _ Hwf). unfold file_at.
  destruct (lookup_lt_is_Some_2 (files s) (Z.to_nat i)) as [f Hf]; [lia|].
  rewrite Hf. f_equal. symmetry. by apply nth_lookup_Some.
Qed.

Lemma used_lookup i : 0 <= i < file_count s ->
  used s !! Z.to_nat i =
  Some (fname (file_at (files s) i), fcontents (file_at (files s) i)).
Proof.
  intros Hi. pose proof (fs_count _ Hwf). unfold used.
  rewrite list_lookup_fmap, lookup_take_lt by lia. by rewrite file_at_lookup by lia.
Qed.

Lemma find_file_Some n i : find_file (Some n) s = Some i ->
  0 <= i < file_count s /\ used s !! Z.to_nat i = Some (n, fcontents (file_at (files s) i)) /\
  fname (file_at (files s) i) = n /\ ramfs_map s !! n = Some (fcontents (file_at (files s) i)).
Proof.
  intros (Hi & Heq & _)%find_first_Some. apply string_equals_true in Heq.
  pose proof (used_lookup i Hi) as Hu. rewrite <- Heq in Hu.
  repeat split; try done; try lia. apply elem_of_list_to_map; [apply Hwf|].
  by apply list_elem_of_lookup_2 with (Z.to_nat i).
Qed.

Lemma find_file_None n : find_file (Some n) s = None ->
  (n ∉ (used s).*1) /\ ramfs_map s !! n = None.
Proof.
  intros Hf. assert (n ∉ (used s).*1) as Hn.
  { intros ([n' c] & -> & Hin)%list_elem_of_fmap. apply list_elem_of_lookup in Hin as [k Hk].
    pose proof (lookup_lt_Some _ _ _ Hk). pose proof length_used.
    rewrite <- (Nat2Z.id k), used_lookup in Hk by lia. injection Hk as Hk _.
    assert (string_equals (Some n') (Some (fname (file_at (files s) (Z.of_nat k)))) = false) as Hx
      by (apply (proj1 (find_first_None _ _ _) Hf (Z.of_nat k)); lia).
    rewrite Hk in Hx. by rewrite (proj2 (string_equals_true n' n') eq_refl) in Hx. }
  split; [done|]. by apply not_elem_of_list_to_map.
Qed.

Lemma find_file_spec n : is_Some (find_file (Some n) s) <-> is_Some (ramfs_map s !! n).
Proof.
  destruct (find_file (Some n) s) as [i|] eqn:E.
  - apply find_file_Some in E as (_ & _ & _ & ->). split; by eexists.
  - apply find_file_None in E as [_ ->]. split; by intros [? ?].
Qed.

Lemma ramfs_map_size : Z.of_nat (size (ramfs_map s)) = file_count s.
Proof.
  unfold ramfs_map. rewrite map_size_list_to_map by apply Hwf. apply length_used.
Qed.

End wf.

(** A state whose used slots are [l]. *)
Lemma wf_intro fs n l : length fs = 16%nat -> 0 <= n <= 16 -> used (Build_ramfs fs n) = l ->
  NoDup l.*1 -> Forall (fun f => name_ok (fst f) = true /\ (length (snd f) < 256)%nat) l ->
  ramfs_wf (Build_ramfs fs n) /\ ramfs_map (Build_ramfs fs n) = list_to_map l.
Proof. intros H1 H2 H3 H4 H5. unfold ramfs_map. rewrite H3. by split; [split; rewrite ?H3|]. Qed.

Lemma name_ok_length n : name_ok n = true -> (1 <= length n <= 31)%nat.
Proof. unfold name_ok. intros H. split_bools. lia. Qed.

Lemma valid_file s i : ramfs_wf s -> 0 <= i < file_count s ->
  name_ok (fname (file_at (files s) i)) = true /\
  (length (fcontents (file_at (files s) i)) < 256)%nat.
Proof.
  intros Hwf Hi. pose proof (fs_valid _ Hwf) as Hv.
  exact (Forall_lookup_1 _ _ _ _ Hv (used_lookup s Hwf i Hi)).
Qed.

Lemma file_at_set fs i j f : length fs = 16%nat -> 0 <= i < 16 -> 0 <= j ->
  file_at (set_file fs i f) j = if decide (i = j) then f else file_at fs j.
Proof.
  intros Hl Hi Hj. unfold file_at, set_file. rewrite !nth_lookup.
  case_decide as E; [subst; by rewrite list_lookup_insert_eq by lia|].
  by rewrite list_lookup_insert_ne by lia.
Qed.

(** ** Operations on the map *)

Definition can_write (m : gmap cstring cstring) (n c : cstring) : bool :=
  name_ok n && (Z.of_nat (length c) <=? 255) &&
  (bool_decide (is_Some (m !! n)) || (Z.of_nat (size m) <? 16)).

Lemma can_write_spec s n c : ramfs_wf s ->
  fst (ramfs_can_write_file (Some n) (Some c) s) = can_write (ramfs_map s) n c.
Proof.
  intros Hwf. pose proof (ramfs_map_size s Hwf) as Hsz. pose proof (fs_count _ Hwf).
  unfold ramfs_can_write_file, can_write, string_length, RAMFS_CONTENT_MAX, RAMFS_MAX_FILES.
  rewrite valid_name_ok, orb_false_r. destruct (name_ok n); [simpl|done].
  destruct (Z.leb_spec (Z.of_nat (length c)) 255).
  2: { by replace (256 <=? Z.min _ 256) with true by lia. }
  replace (256 <=? Z.min _ 256) with false by lia. simpl.
  destruct (find_file (Some n) s) as [i|] eqn:E; simpl.
  - rewrite bool_decide_true; [done|]. apply (find_file_spec s Hwf). by rewrite E.
  - rewrite bool_decide_false; [simpl; lia|]. intros Hm. apply (find_file_spec s Hwf) in Hm.
    rewrite E in Hm. by destruct Hm.
Qed.

Lemma write_spec s n c ok s' : ramfs_wf s ->
  ramfs_write_file (Some n) (Some c) s = (ok, s') ->
  ramfs_wf s' /\ ok = can_write (ramfs_map s) n c /\
  ramfs_map s' = if ok then <[n := c]> (ramfs_map s) else ramfs_map s.
Proof.
  intros Hwf. unfold ramfs_write_file. rewrite can_write_spec by done.
  destruct (can_write (ramfs_map s) n c) eqn:Ew; [simpl negb; cbv iota|by intros [= <- <-]].
  unfold can_write in Ew. split_bools. pose proof (name_ok_length n ltac:(done)).
  pose proof (fs_slots _ Hwf) as Hlen. pose proof (fs_count _ Hwf).
  assert (copy_string c RAMFS_CONTENT_MAX = c) as Hcc
    by (apply copy_string_id; unfold RAMFS_CONTENT_MAX; lia).
  destruct (find_file (Some n) s) as [i|] eqn:E; intros [= <- <-]; simpl default; rewrite ?Hcc.
  - apply (find_file_Some s Hwf) in E as (Hi & Hu & Hn & _). rewrite Hn.
    destruct (wf_intro (set_file (files s) i (Build_ramfs_file n c)) (file_count s)
      (<[Z.to_nat i := (n, c)]> (used s))) as [Hwf' Hm].
    + unfold set_file. by rewrite length_insert.
    + done.
    + unfold used, set_file. cbn [files file_count]. rewrite take_insert_lt by lia.
      apply (list_fmap_insert (fun f => (fname f, fcontents f))).
    + rewrite (list_fmap_insert fst (used s) (Z.to_nat i) (n, c)), list_insert_id; [apply Hwf|].
      by rewrite list_lookup_fmap, Hu.
    + apply Forall_insert; [apply Hwf|]. simpl. split; [done|lia].
    + split; [done|]. split; [done|]. rewrite Hm.
      apply (list_to_map_update _ _ _ _ _ (fs_names _ Hwf) Hu).
  - apply (find_file_None s Hwf) in E as [Hn Hm0].
    assert (file_count s < 16).
    { rewrite <- (ramfs_map_size s Hwf). rewrite Hm0 in *.
      match goal with H : _ || _ = true |- _ => rewrite bool_decide_false in H by (by intros [? ?]) end.
      lia. }
    unfold add_file, RAMFS_MAX_FILES. replace (file_count s =? 16) with false by lia.
    rewrite Hcc, (copy_string_id n) by (unfold RAMFS_NAME_MAX; lia).
    rewrite (u32_id (file_count s + 1)) by (unfold is_u32; lia).
    destruct (wf_intro (set_file (files s) (file_count s) (Build_ramfs_file n c))
      (file_count s + 1) (used s ++ [(n, c)])) as [Hwf' Hm].
    + unfold set_file. by rewrite length_insert.
    + lia.
    + unfold used, set_file. cbn [files file_count].
      replace (Z.to_nat (file_count s + 1)) with (S (Z.to_nat (file_count s))) by lia.
      rewrite (take_S_r _ _ (Build_ramfs_file n c)) by (apply list_lookup_insert_eq; lia).
      rewrite take_insert_ge by lia. by rewrite fmap_app.
    + rewrite fmap_app. apply list.NoDup_app. split; [apply Hwf|]. split.
      * intros x Hx Hx'. apply list_elem_of_singleton in Hx'. simpl in Hx'. by subst.
      * apply NoDup_singleton.
    + apply Forall_app. split; [apply Hwf|]. apply Forall_singleton. simpl. split; [done|lia].
    + split; [done|]. split; [done|]. rewrite Hm. by apply list_to_map_snoc.
Qed.

(** The loop that closes the gap of a removed file. *)
Lemma remove_loop_spec s i : ramfs_wf s -> 0 <= i < file_count s ->
  let fs := for_loop (i + 1) (file_count s)
    (fun move fs => set_file fs (move -32 1)
       (Build_ramfs_file (copy_string (fname (file_at fs move)) RAMFS_NAME_MAX)
          (copy_string (fcontents (file_at fs move)) RAMFS_CONTENT_MAX))) (files s) in
  length fs = 16%nat /\ forall j, 0 <= j < 16 ->
    file_at fs j = file_at (files s) (if (i <=? j) && (j <? file_count s - 1) then j + 1 else j).
Proof.
  intros Hwf Hi. pose proof (fs_slots _ Hwf). pose proof (fs_count _ Hwf). cbv zeta.
  apply (for_loop_inv (fun k fs => length fs = 16%nat /\ forall j, 0 <= j < 16 ->
    file_at fs j = file_at (files s) (if (i <=? j) && (j <? k - 1) then j + 1 else j))); [lia| |].
  - split; [done|]. intros j Hj. by replace (_ && _) with false by lia.
  - intros k fs Hk [Hl Hfs]. rewrite (u32_id (k - 1)) by (unfold is_u32; lia).
    split; [unfold set_file; by rewrite length_insert|]. intros j Hj.
    rewrite file_at_set by lia. case_decide as E.
    + subst j. replace ((i <=? k - 1) && (k - 1 <? k + 1 - 1)) with true by lia.
      rewrite Hfs by lia. replace ((i <=? k) && (k <? k - 1)) with false by lia.
      replace (k - 1 + 1) with k by lia.
      destruct (valid_file s k Hwf ltac:(lia)) as [Hn Hc]. apply name_ok_length in Hn.
      rewrite !copy_string_id by (unfold RAMFS_NAME_MAX, RAMFS_CONTENT_MAX; lia).
      by destruct (file_at (files s) k).
    + rewrite Hfs by done. f_equal. repeat case_if; lia.
Qed.

Lemma remove_spec s n ok s' : ramfs_wf s -> ramfs_remove_file (Some n) s = (ok, s') ->
  ramfs_wf s' /\ ok = name_ok n && bool_decide (is_Some (ramfs_map s !! n)) /\
  ramfs_map s' = if ok then delete n (ramfs_map s) else ramfs_map s.
Proof.
  intros Hwf. unfold ramfs_remove_file. rewrite valid_name_ok.
  destruct (name_ok n); simpl negb; cbv iota; [|by intros [= <- <-]].
  pose proof (fs_count _ Hwf). destruct (find_file (Some n) s) as [i|] eqn:E.
  2: { intros [= <- <-]. apply (find_file_None s Hwf) in E as [_ Hm].
       rewrite Hm, bool_decide_false by (by intros [? ?]). done. }
  apply (find_file_Some s Hwf) in E as (Hi & Hu & Hn & Hm). rewrite Hm.
  rewrite (u32_id (i + 1)), (u32_id (file_count s - 1)) by (unfold is_u32; lia).
  destruct (remove_loop_spec s i Hwf Hi) as [Hl Hfs]. cbv zeta in Hl, Hfs.
  set (fs := for_loop _ _ _ _) in *. intros [= <- <-].
  destruct (wf_intro fs (file_count s - 1) (delete (Z.to_nat i) (used s))) as [Hwf' Hmap].
  - done.
  - lia.
  - pose proof (length_used s Hwf). apply list_eq_same_length with (length (used s) - 1)%nat.
    + rewrite length_delete by eauto. done.
    + unfold used. cbn [files file_count]. rewrite length_fmap, length_take.
      fold (used s). rewrite Hl. lia.
    + intros k x y Hk Hx Hy. unfold used in Hx. cbn [files file_count] in Hx.
      rewrite list_lookup_fmap, lookup_take_lt in Hx by lia.
      apply fmap_Some in Hx as (f & Hf & ->).
      assert (f = file_at fs (Z.of_nat k)) as ->
        by (unfold file_at; rewrite Nat2Z.id; symmetry; by apply nth_lookup_Some).
      rewrite Hfs by lia. destruct (decide (k < Z.to_nat i)%nat) as [Hlt|Hge].
      * rewrite list_lookup_delete_lt in Hy by done.
        rewrite <- (Nat2Z.id k), (used_lookup s Hwf) in Hy by lia. injection Hy as <-.
        by replace (_ && _) with false by lia.
      * rewrite list_lookup_delete_ge in Hy by lia.
        rewrite <- (Nat2Z.id (S k)), (used_lookup s Hwf) in Hy by lia. injection Hy as <-.
        replace (_ && _) with true by lia. by replace (Z.of_nat (S k)) with (Z.of_nat k + 1) by lia.
  - rewrite fmap_delete_list. apply NoDup_delete, Hwf.
  - apply Forall_delete_list, Hwf.
  - split; [done|]. split; [by rewrite bool_decide_true by eauto|]. rewrite Hmap.
    apply (list_to_map_delete _ _ _ _ (fs_names _ Hwf) Hu).
Qed.

Lemma contents_spec s n : ramfs_wf s ->
  ramfs_file_contents (Some n) s = if name_ok n then ramfs_map s !! n else None.
Proof.
  intros Hwf. unfold ramfs_file_contents. rewrite valid_name_ok.
  destruct (name_ok n); simpl; [|done]. destruct (find_file (Some n) s) as [i|] eqn:E.
  - by apply (find_file_Some s Hwf) in E as (_ & _ & _ & ->).
  - by apply (find_file_None s Hwf) in E as [_ ->].
Qed.

(** What a journal entry does to the map. *)
Definition apply_map (e : journal_entry) (m : gmap cstring cstring)
    : bool * gmap cstring cstring :=
  let n := cstr (name e) in
  let c := take (Z.to_nat (content_length e)) (content e) in
  if negb (negb (name_length e =? 0) && (name_length e <=? 31) && (content_length e <=? 255) &&
           (arr (name e) (name_length e) =? 0) && name_ok n) then (false, m) else
  if operation e =? 2 then
    if content_length e =? 0 then (true, delete n m) else (false, m)
  else if (operation e =? 1) &&
          all_range 0 (content_length e) (fun i => negb (arr (content e) i =? 0)) &&
          can_write m n c
  then (true, <[n := c]> m) else (false, m).

Lemma apply_spec e s ok s' : ramfs_wf s ->
  ramfs_apply_journal_entry e s = (ok, s') ->
  ramfs_wf s' /\ apply_map e (ramfs_map s) = (ok, ramfs_map s').
Proof.
  intros Hwf. unfold ramfs_apply_journal_entry, apply_map.
  unfold RAMFS_NAME_MAX, RAMFS_CONTENT_MAX, JOURNAL_OPERATION_REMOVE, JOURNAL_OPERATION_WRITE.
  rewrite valid_name_ok, contents_spec by done.
  set (n := cstr (name e)). set (c := take _ (content e)).
  replace (negb (negb (_ =? 0) && _ && _ && _ && _)) with
    ((name_length e =? 0) || (32 <=? name_length e) || (256 <=? content_length e) ||
     negb (arr (name e) (name_length e) =? 0) || negb (name_ok n)) by lia.
  destruct (_ || _ || _ || _ || _) eqn:Eg; [by intros [= <- <-]|]. split_bools.
  match goal with H : name_ok n = true |- _ => rewrite H; rename H into Hn end.
  destruct (operation e =? 2).
  { destruct (content_length e =? 0); simpl negb; cbv iota; [|by intros [= <- <-]].
    destruct (ramfs_map s !! n) as [c0|] eqn:Em.
    - intros E. apply (remove_spec s n) in E as (Hwf' & -> & ->); [|done].
      rewrite Hn, Em, bool_decide_true by eauto. done.
    - intros [= <- <-]. split; [done|]. by rewrite delete_id. }
  destruct (operation e =? 1); simpl; [|by intros [= <- <-]].
  destruct (all_range _ _ _); simpl; [|by intros [= <- <-]].
  intros E. apply (write_spec s n c) in E as (Hwf' & -> & ->); [|done].
  split; [done|]. by destruct (can_write (ramfs_map s) n c).
Qed.

Lemma ramfs_init_spec s : length (files s) = 16%nat ->
  ramfs_wf (ramfs_init s) /\
  ramfs_map (ramfs_init s) =
    list_to_map [(README, README_text); (MOTD, MOTD_text); (EFES, EFES_text)].
Proof.
  intros Hl. destruct s as [fs n]. simpl in Hl.
  do 16 (destruct fs as [|? fs]; [discriminate Hl|]). destruct fs; [|discriminate Hl].
  unfold ramfs_init, add_file. cbn [file_count files].
  change (0 =? RAMFS_MAX_FILES) with false. cbv iota. cbn [file_count files].
  change (u32 (0 + 1)) with 1. change (1 =? RAMFS_MAX_FILES) with false. cbv iota.
  cbn [file_count files]. change (u32 (1 + 1)) with 2. change (2 =? RAMFS_MAX_FILES) with false.
  cbv iota. cbn [file_count files]. change (u32 (2 + 1)) with 3.
  apply wf_intro; [done|lia|done| |].
  - apply (bool_decide_unpack (NoDup [README; MOTD; EFES])). by vm_compute.
  - apply Forall_forall. intros x Hx. simpl in Hx.
    destruct Hx as [<-|[<-|[<-|[]]]]; (split; [by vm_compute|simpl; lia]).
Qed.

(** ** Calls *)

Inductive fs_op :=
  | FsRead (name : option cstring)
  | FsWrite (name contents : option cstring)
  | FsRemove (name : option cstring)
  | FsApply (entry : journal_entry)
  | FsCount.

Inductive fs_ret := RetContents (c : option cstring) | RetOk (ok : bool) | RetFiles (n : Z).

Definition fs_exec (op : fs_op) (s : ramfs) : fs_ret * ramfs :=
  match op with
  | FsRead n => (RetContents (ramfs_file_contents n s), s)
  | FsWrite n c => let '(ok, s) := ramfs_write_file n c s in (RetOk ok, s)
  | FsRemove n => let '(ok, s) := ramfs_remove_file n s in (RetOk ok, s)
  | FsApply e => let '(ok, s) := ramfs_apply_journal_entry e s in (RetOk ok, s)
  | FsCount => (RetFiles (ramfs_file_count s), s)
  end.

Definition map_exec (op : fs_op) (m : gmap cstring cstring) : fs_ret * gmap cstring cstring :=
  match op with
  | FsRead (Some n) => (RetContents (if name_ok n then m !! n else None), m)
  | FsRead None => (RetContents None, m)
  | FsWrite (Some n) (Some c) =>
      if can_write m n c then (RetOk true, <[n := c]> m) else (RetOk false, m)
  | FsWrite _ _ => (RetOk false, m)
  | FsRemove (Some n) =>
      if name_ok n && bool_decide (is_Some (m !! n)) then (RetOk true, delete n m)
      else (RetOk false, m)
  | FsRemove None => (RetOk false, m)
  | FsApply e => let '(ok, m) := apply_map e m in (RetOk ok, m)
  | FsCount => (RetFiles (Z.of_nat (size m)), m)
  end.

Fixpoint fs_run (ops : list fs_op) (s : ramfs) : list fs_ret * ramfs :=
  match ops with
  | [] => ([], s)
  | op :: ops => let '(r, s) := fs_exec op s in let '(rs, s) := fs_run ops s in (r :: rs, s)
  end.

Fixpoint map_run (ops : list fs_op) (m : gmap cstring cstring)
    : list fs_ret * gmap cstring cstring :=
  match ops with
  | [] => ([], m)
  | op :: ops => let '(r, m) := map_exec op m in let '(rs, m) := map_run ops m in (r :: rs, m)
  end.

Lemma fs_exec_refines op s r s' : ramfs_wf s -> fs_exec op s = (r, s') ->
  ramfs_wf s' /\ map_exec op (ramfs_map s) = (r, ramfs_map s').
Proof.
  intros Hwf E. destruct op as [[n|]|[n|] [c|]|[n|]|e|]; cbn [fs_exec map_exec] in *;
    try (injection E as <- <-; done).
  - injection E as <- <-. by rewrite contents_spec.
  - destruct (ramfs_write_file _ _ s) as [ok s1] eqn:Ew. injection E as <- <-.
    apply write_spec in Ew as (? & -> & ->); [|done]. split; [done|].
    by destruct (can_write (ramfs_map s) n c).
  - unfold ramfs_write_file, ramfs_can_write_file in E. rewrite orb_true_r in E. by simplify_eq/=.
  - destruct (ramfs_remove_file _ s) as [ok s1] eqn:Er. injection E as <- <-.
    apply remove_spec in Er as (? & -> & ->); [|done]. split; [done|]. by case_if.
  - destruct (ramfs_apply_journal_entry e s) as [ok s1] eqn:Ea. injection E as <- <-.
    apply apply_spec in Ea as (? & ->); done.
  - injection E as <- <-. by rewrite ramfs_map_size.
Qed.

(** ** Properties *)

(** C29: the slots implement a finite map. Along every sequence of reads, writes, removals and
    journal entries after [ramfs_init], every result is the one of the map from names to
    contents (a write is refused exactly for a bad name, contents of 256 bytes or more, or a
    seventeenth file; a replayed removal of an absent file succeeds), and the slots stay
    well-formed: at most sixteen, with distinct valid names. *)
Theorem ramfs_refines_map ops :
  let '(rs, s) := fs_run ops (ramfs_init ramfs_static) in
  ramfs_wf s /\
  map_run ops (list_to_map [(README, README_text); (MOTD, MOTD_text); (EFES, EFES_text)]) =
    (rs, ramfs_map s).
Proof.
  destruct (ramfs_init_spec ramfs_static eq_refl) as [Hwf <-].
  revert Hwf. generalize (ramfs_init ramfs_static).
  induction ops as [|op ops IH]; intros s Hwf; [done|]. cbn [fs_run map_run].
  destruct (fs_exec op s) as [r s1] eqn:E.
  destruct (fs_exec_refines op s r s1 Hwf E) as [Hwf1 ->].
  specialize (IH s1 Hwf1). destruct (fs_run ops s1) as [rs s2]. destruct IH as [? ->]. done.
Qed.

(** What the boot-time self test really requires and does. It succeeds exactly when a file
    TEST exists or a slot is free, so it fails on a full filesystem, and when it succeeds it
    has removed any file called TEST. *)
Theorem ramfs_self_test_effect s : ramfs_wf s ->
  let '(ok, s') := ramfs_self_test s in
  ok = bool_decide (is_Some (ramfs_map s !! TEST)) || (Z.of_nat (size (ramfs_map s)) <? 16) /\
  ramfs_wf s' /\ ramfs_map s' = if ok then delete TEST (ramfs_map s) else ramfs_map s.
Proof.
  intros Hwf. unfold ramfs_self_test.
  destruct (ramfs_write_file (Some TEST) (Some safe_write) s) as [ok1 s1] eqn:E1.
  apply write_spec in E1 as (Hwf1 & Hok1 & Hm1); [|done].
  change (can_write (ramfs_map s) TEST safe_write) with
    (bool_decide (is_Some (ramfs_map s !! TEST)) || (Z.of_nat (size (ramfs_map s)) <? 16)) in Hok1.
  destruct ok1; simpl negb; cbv iota; [|by rewrite <- Hok1].
  rewrite contents_spec by done. change (name_ok TEST) with true. cbv iota.
  rewrite Hm1, lookup_insert_eq. change (string_equals _ _) with true. simpl orb. cbv iota.
  destruct (ramfs_write_file (Some bad_name) _ s1) as [ok2 s2] eqn:E2.
  apply write_spec in E2 as (Hwf2 & -> & Hm2); [|done].
  change (can_write (ramfs_map s1) bad_name rejected) with false in *. cbv iota in *.
  destruct (ramfs_write_file (Some long_name) _ s2) as [ok3 s3] eqn:E3.
  apply write_spec in E3 as (Hwf3 & -> & Hm3); [|done].
  change (can_write (ramfs_map s2) long_name rejected) with false in *. cbv iota in *.
  rewrite contents_spec by done. change (name_ok long_name) with false. cbv iota.
  destruct (ramfs_remove_file (Some TEST) s3) as [ok4 s4] eqn:E4.
  apply remove_spec in E4 as (Hwf4 & Hok4 & Hm4); [|done].
  rewrite Hm3, Hm2, Hm1, lookup_insert_eq in Hok4. change (name_ok TEST) with true in Hok4.
  simpl in Hok4. subst ok4. simpl negb. cbv iota in Hm4 |- *.
  rewrite contents_spec by done. change (name_ok TEST) with true. cbv iota.
  rewrite Hm4, lookup_delete_eq, <- Hok1. split; [done|]. split; [done|].
  rewrite Hm4, Hm3, Hm2, Hm1. apply delete_insert_eq.
Qed.

(** ** Witnesses *)

(** Thirteen files besides the three of [ramfs_init]. *)
Definition full_ramfs : ramfs :=
  foldl (fun s i => snd (ramfs_write_file (Some [65 + i]) (Some []) s))
    (ramfs_init ramfs_static) (seqZ 0 13).

Lemma full_ramfs_wf : ramfs_wf full_ramfs.
Proof.
  unfold full_ramfs. generalize (seqZ 0 13).
  destruct (ramfs_init_spec ramfs_static eq_refl) as [Hwf _]. revert Hwf.
  generalize (ramfs_init ramfs_static).
  intros s Hwf l. revert s Hwf. induction l as [|i l IH]; intros s Hwf; [done|]. simpl.
  apply IH. destruct (ramfs_write_file _ _ s) as [ok s'] eqn:E.
  by apply write_spec in E as (? & _).
Qed.

Lemma ramfs_self_test_effect_witness : fst (ramfs_self_test full_ramfs) = false.
Proof.
  pose proof (ramfs_self_test_effect full_ramfs full_ramfs_wf) as H.
  destruct (ramfs_self_test full_ramfs) as [ok s']. destruct H as [-> _].
  vm_compute. reflexivity.
Defined.
