(* ===== verification/Persistent.v ===== *)
(** * Persistent RAM filesystem

    [fs/persistent.c]: the RAM filesystem backed by a journal in the last 65 sectors of the
    ATA disk. A change is appended to the journal first and applied to the RAM filesystem
    after; at boot the journal is replayed onto the initial files. The ATA driver and the
    mounted volume appear through the interface [PersistentEnv]. Messages on the serial port
    are not represented. *)

From S2P Require Import Prelude Journal JournalFormat JournalLog JournalSafety Ramfs.
Local Open Scope c_scope.
Local Open Scope Z_scope.
Local Opaque journal_encode_internal write_u32.

Definition PERSISTENT_JOURNAL_REGION_SECTORS : Z := 65.

(** ** The storage below *)

Class PersistentEnv (D : Type) `{SectorDisk D} := {
  ata_present : D -> bool;
  ata_sector_count : D -> Z;
  ata_enable_transactional_writes : Z -> Z -> D -> bool * D;
  ata_disable_transactional_writes : D -> D;
  vfs_journal_region_available : Z -> Z -> D -> bool;
  (** [kmalloc] of a buffer and a multi-sector read into it; [None] if either fails. *)
  read_region : Z -> Z -> D -> option (list (list Z)) * D
}.

(** Opening or closing the write window changes no sector, and a region read returns what is
    stored. *)
Class PersistentEnvLaws (D : Type) `{SectorDiskLaws D} `{!PersistentEnv D} := {
  sector_count_u64 d : is_u64 (ata_sector_count d);
  sector_count_read lba d : ata_sector_count (snd (disk_read lba d)) = ata_sector_count d;
  enable_same a b d : same_disk (snd (ata_enable_transactional_writes a b d)) d;
  disable_same d : same_disk (ata_disable_transactional_writes d) d;
  disable_count d : ata_sector_count (ata_disable_transactional_writes d) = ata_sector_count d;
  region_same a b d : same_disk (snd (read_region a b d)) d;
  region_value a n d bs : 0 <= n -> fst (read_region a n d) = Some bs ->
    bs = map (fun i => sector_at d (a + i)) (seqZ 0 n)
}.

(** ** State and operations *)

Section ops.
Context {D : Type} `{PersistentEnv D}.

Record persistent := {
  persistent_enabled : bool;
  persistent_region_start : Z;
  persistent_next_sequence : Z;
  persistent_replay_records : Z;
  p_ramfs : ramfs;
  p_disk : D
}.

(** A call returns, or ends in [kernel_panic]. *)
Inductive outcome := Returns (ok : bool) | Panic.

(** A C string as the memory the pointer refers to. *)
Definition mem_of (v : option cstring) : option (list Z) := (fun v => v ++ [0]) <$> v.

Definition build_entry (operation sequence : Z) (name content : option (list Z))
    (content_length : Z) : option journal_entry :=
  match journal_encode (replicate 512 0) operation sequence name content content_length with
  | Some sector => journal_decode sector
  | None => None
  end.

(** The new sequence number; 0 once the numbers are used up. *)
Definition advance_sequence (next : Z) : Z :=
  if next =? 0xFFFFFFFF then 0 else next +32 1.

Definition persistent_ramfs_init (p : persistent) : bool * persistent :=
  let fs := p_ramfs p in
  let d := ata_disable_transactional_writes (p_disk p) in
  if negb (ata_present d) || (ata_sector_count d <=? PERSISTENT_JOURNAL_REGION_SECTORS)
  then (true, Build_persistent false 0 0 0 fs d) else
  let start := ata_sector_count d -64 PERSISTENT_JOURNAL_REGION_SECTORS in
  if negb (vfs_journal_region_available start PERSISTENT_JOURNAL_REGION_SECTORS d)
  then (true, Build_persistent false start 0 0 fs d) else
  match disk_read start d with
  | (None, d) => (true, Build_persistent false start 0 0 fs d)
  | (Some superblock, d) =>
      match journal_superblock_decode superblock with
      | None => (true, Build_persistent false start 0 0 fs d)
      | Some data_sectors =>
          if PERSISTENT_JOURNAL_REGION_SECTORS <? data_sectors +32 1
          then (false, Build_persistent false start 0 0 fs d) else
          let '(ok, applied, d, fs) := journal_replay ramfs_apply_journal_entry start
                                         PERSISTENT_JOURNAL_REGION_SECTORS d fs in
          if negb ok then (false, Build_persistent false start 0 applied fs d) else
          match journal_next_sequence start PERSISTENT_JOURNAL_REGION_SECTORS d with
          | (None, d) => (true, Build_persistent false start 0 applied fs d)
          | (Some next, d) =>
              let '(ok, d) := ata_enable_transactional_writes start
                                PERSISTENT_JOURNAL_REGION_SECTORS d in
              (ok, Build_persistent ok start next applied fs d)
          end
      end
  end.

Definition persistent_ramfs_format (p : persistent) : bool * persistent :=
  let d := p_disk p in
  let with_disk (start : Z) (d : D) :=
    Build_persistent (persistent_enabled p) start (persistent_next_sequence p)
      (persistent_replay_records p) (p_ramfs p) d in
  if persistent_enabled p || negb (ramfs_is_pristine (p_ramfs p)) || negb (ata_present d) ||
     (ata_sector_count d <=? PERSISTENT_JOURNAL_REGION_SECTORS) then (false, p) else
  let start := ata_sector_count d -64 PERSISTENT_JOURNAL_REGION_SECTORS in
  if negb (vfs_journal_region_available start PERSISTENT_JOURNAL_REGION_SECTORS d)
  then (false, with_disk start d) else
  match read_region start PERSISTENT_JOURNAL_REGION_SECTORS d with
  | (None, d) => (false, with_disk start d)
  | (Some sectors, d) =>
      if negb (forallb sector_is_empty sectors) then (false, with_disk start d) else
      match journal_superblock_encode (replicate 512 0)
              (PERSISTENT_JOURNAL_REGION_SECTORS -32 1) with
      | None => (false, with_disk start (ata_disable_transactional_writes d))
      | Some sector =>
          let '(ok, d) := ata_enable_transactional_writes start
                            PERSISTENT_JOURNAL_REGION_SECTORS d in
          if negb ok then (false, with_disk start (ata_disable_transactional_writes d)) else
          let '(ok, d) := disk_write start sector d in
          if negb ok then (false, with_disk start (ata_disable_transactional_writes d)) else
          match disk_read start d with
          | (None, d) => (false, with_disk start (ata_disable_transactional_writes d))
          | (Some back, d) =>
              match journal_superblock_decode back with
              | None => (false, with_disk start (ata_disable_transactional_writes d))
              | Some _ => (true, Build_persistent true start 1 0 (p_ramfs p) d)
              end
          end
      end
  end.

Definition persistent_ramfs_is_enabled (p : persistent) : bool := persistent_enabled p.
Definition persistent_ramfs_replay_count (p : persistent) : Z := persistent_replay_records p.

(** Append, then apply: the part [persistent_ramfs_write_file] and
    [persistent_ramfs_remove_file] share. *)
Definition commit_entry (operation : Z) (name content : option (list Z)) (content_length : Z)
    (entry : journal_entry) (p : persistent) : outcome * persistent :=
  let '(ok, d) := journal_append (persistent_region_start p) PERSISTENT_JOURNAL_REGION_SECTORS
                    operation (persistent_next_sequence p) name content content_length
                    (p_disk p) in
  let p := Build_persistent (persistent_enabled p) (persistent_region_start p)
             (persistent_next_sequence p) (persistent_replay_records p) (p_ramfs p) d in
  if negb ok then (Returns false, p) else
  let '(ok, fs) := ramfs_apply_journal_entry entry (p_ramfs p) in
  let next := advance_sequence (persistent_next_sequence p) in
  if negb ok then
    (Panic, Build_persistent (persistent_enabled p) (persistent_region_start p)
              (persistent_next_sequence p) (persistent_replay_records p) fs d)
  else
    (Returns (negb (next =? 0) || (next =? 0)),
     Build_persistent (persistent_enabled p) (persistent_region_start p) next
       (persistent_replay_records p) fs d).

Definition persistent_ramfs_write_file (name contents : option cstring) (p : persistent)
    : outcome * persistent :=
  if negb (persistent_enabled p) || (persistent_next_sequence p =? 0)
  then (Returns false, p) else
  match ramfs_can_write_file name contents (p_ramfs p) with
  | (true, Some content_length) =>
      match build_entry JOURNAL_OPERATION_WRITE (persistent_next_sequence p) (mem_of name)
              (mem_of contents) content_length with
      | None => (Returns false, p)
      | Some entry =>
          commit_entry JOURNAL_OPERATION_WRITE (mem_of name) (mem_of contents) content_length
            entry p
      end
  | _ => (Returns false, p)
  end.

Definition persistent_ramfs_remove_file (name : option cstring) (p : persistent)
    : outcome * persistent :=
  if negb (persistent_enabled p) || (persistent_next_sequence p =? 0)
  then (Returns false, p) else
  match ramfs_file_contents name (p_ramfs p) with
  | None => (Returns false, p)
  | Some _ =>
      match build_entry JOURNAL_OPERATION_REMOVE (persistent_next_sequence p) (mem_of name)
              None 0 with
      | None => (Returns false, p)
      | Some entry => commit_entry JOURNAL_OPERATION_REMOVE (mem_of name) None 0 entry p
      end
  end.

End ops.

(** ** The entries the two operations build *)

(** Bytes of a C string. *)
Definition nonzero (l : cstring) : Prop := Forall (fun c => 0 < c < 256) l.

Lemma cstr_app n r : nonzero n -> cstr (n ++ 0 :: r) = n.
Proof.
  induction 1 as [|c n Hc _ IH]; [done|]. simpl. replace (c =? 0) with false by lia. by rewrite IH.
Qed.

(** A write of [c] to [n], or the removal of [n] when [op] is 2 and [c] empty. *)
Section entry.
Context (op seq : Z) (n c : cstring) (content : option (list Z)).
Context (Hop : op = 1 \/ (op = 2 /\ c = [])) (Hseq : 0 < seq < 4294967296).
Context (Hn : nonzero n) (Hname : name_ok n = true) (Hc : nonzero c) (Hlen : (length c < 256)%nat).
Context (Hcontent : content = Some (c ++ [0]) \/ (c = [] /\ content = None)).

Let cl := Z.of_nat (length c).
Let e := append_entry op seq (Some (n ++ [0])) content cl.

Lemma content_prefix : exists r, default [] content = c ++ r.
Proof. destruct Hcontent as [-> | [-> ->]]; by eexists. Qed.

Lemma entry_bytes : bytes_ok (n ++ [0]) /\ bytes_ok (default [] content).
Proof.
  split; [by apply cstring_bytes|]. destruct Hcontent as [-> | [_ ->]]; [by apply cstring_bytes|].
  apply Forall_nil_2.
Qed.

Lemma entry_name_length : bounded_length (Some (n ++ [0])) 32 = Z.of_nat (length n).
Proof. apply bounded_length_cstring; [done|]. apply name_ok_length in Hname. lia. Qed.

Lemma entry_record_ok :
  record_ok op seq (bounded_length (Some (n ++ [0])) 32) cl (n ++ [0]) (default [] content).
Proof.
  pose proof (name_ok_length n Hname). rewrite entry_name_length. split; try lia.
  - destruct Hop as [-> | [_ ->]]; unfold cl; simpl; lia.
  - intros i Hi. rewrite arr_app_l by lia. unfold name_ok in Hname. split_bools.
    match goal with H : forallb _ n = true |- _ => rewrite forallb_forall in H;
      specialize (H (arr n i) ltac:(apply nth_In; lia)) end. lia.
Qed.

Lemma content_given : cl <> 0 -> is_Some content.
Proof. intros H. destruct Hcontent as [-> | [-> _]]; [by eexists|done]. Qed.

Lemma entry_encodes committed :
  is_Some (journal_encode_internal (replicate 512 0) op seq (Some (n ++ [0])) content cl committed).
Proof.
  eexists. apply encode_internal_valid; [done|apply content_given|apply entry_record_ok].
Qed.

Lemma build_entry_eq : build_entry op seq (Some (n ++ [0])) content cl = Some e.
Proof.
  unfold build_entry, journal_encode. destruct entry_bytes as [Hb1 Hb2].
  rewrite encode_internal_valid; [|done|apply content_given|apply entry_record_ok].
  apply (layout_decode _ _ _ _ _ _ _ true); [apply entry_record_ok|].
  apply record_sector_layout; [apply entry_record_ok|exact Hb1|exact Hb2].
Qed.

Lemma entry_fields :
  operation e = op /\ sequence e = seq /\ name_length e = Z.of_nat (length n) /\ content_length e = cl /\
  name e = n ++ 0 :: replicate (31 - length n) 0 /\
  Journal.content e = c ++ replicate (256 - length c) 0.
Proof.
  pose proof (name_ok_length n Hname) as Hnl. destruct content_prefix as [r Hr].
  unfold e, append_entry, entry_of.
  cbn [name Journal.content content_length operation sequence name_length].
  rewrite entry_name_length, Hr. unfold cl. cbn [default from_option id]. rewrite !padded_app by lia.
  do 4 (split; [done|]). split; [|done]. f_equal.
  replace (Z.to_nat 32 - length n)%nat with (S (31 - length n)) by lia. done.
Qed.

(** The entry's effect on the files. *)
Lemma apply_entry m :
  apply_map e m =
  if op =? 2 then (true, delete n m)
  else if can_write m n c then (true, <[n := c]> m) else (false, m).
Proof.
  pose proof (name_ok_length n Hname) as Hnl.
  destruct entry_fields as (E1 & _ & E2 & E3 & E4 & E5). unfold apply_map.
  rewrite E1, E2, E3, E4, E5, cstr_app, Hname by done. unfold cl. rewrite Nat2Z.id, take_app_length.
  rewrite (arr_lookup _ _ 0) by (rewrite Nat2Z.id, list_lookup_middle; done).
  replace (negb _) with false by lia. destruct Hop as [-> | [-> ->]]; [|done].
  change (1 =? 2) with false. change (1 =? 1) with true. cbv iota.
  replace (all_range _ _ _) with true; [done|]. symmetry. apply all_range_true. intros i Hi.
  rewrite arr_app_l by lia. pose proof (Forall_lookup_1 _ _ _ _ Hc (arr_nth_lookup c i Hi)) as Hb. cbn beta in Hb. lia.
Qed.

End entry.

(** ** The files a disk stores *)

Definition initial_files : gmap cstring cstring :=
  list_to_map [(README, README_text); (MOTD, MOTD_text); (EFES, EFES_text)].

(** Replay on the map and on the slots. *)
Lemma apply_all_refines l s ok s' : ramfs_wf s ->
  apply_all ramfs_apply_journal_entry l s = (ok, s') ->
  ramfs_wf s' /\ apply_all apply_map l (ramfs_map s) = (ok, ramfs_map s').
Proof.
  revert s. induction l as [|e l IH]; intros s Hwf; cbn [apply_all]; [by intros [= <- <-]|].
  destruct (ramfs_apply_journal_entry e s) as [ok1 s1] eqn:E.
  destruct (apply_spec e s ok1 s1 Hwf E) as [Hwf1 ->].
  destruct ok1; [by apply IH|]. by intros [= <- <-].
Qed.

Lemma apply_all_app {A} (apply : journal_entry -> A -> bool * A) l l' a a' :
  apply_all apply l a = (true, a') ->
  apply_all apply (l ++ l') a = apply_all apply l' a'.
Proof.
  revert a. induction l as [|e l IH]; intros a; cbn [apply_all app]; [by intros [= ->]|].
  destruct (apply e a) as [[] a1]; [apply IH|done].
Qed.

Lemma last_sequence_app prev l e : last_sequence prev (l ++ [e]) = sequence e.
Proof. unfold last_sequence. by rewrite foldl_app. Qed.

Section durability.
Context {D : Type} `{PersistentEnvLaws D}.

(** Replaying the journal of the disk onto the initial files gives [m]. *)
Definition stores (start n : Z) (d : D) (l : list journal_entry) (m : gmap cstring cstring) : Prop :=
  formatted start 65 n d /\ disk_log start n d = Some l /\
  apply_all apply_map l initial_files = (true, m).

(** The running system and the disk agree on the files [m]; [l] is the journal. *)
Record synced (start n : Z) (l : list journal_entry) (m : gmap cstring cstring)
    (p : persistent (D := D)) : Prop := {
  sy_wf : ramfs_wf (p_ramfs p);
  sy_map : ramfs_map (p_ramfs p) = m;
  sy_enabled : persistent_enabled p = true;
  sy_start : persistent_region_start p = start;
  sy_start_u64 : is_u64 start;
  sy_stores : stores start n (p_disk p) l m;
  sy_next : is_u32 (persistent_next_sequence p);
  sy_newer : persistent_next_sequence p <> 0 -> last_sequence 0 l < persistent_next_sequence p
}.

(** Calls, and their effect on the files; [None] when they are refused. *)
Inductive p_op := PWrite (name contents : cstring) | PRemove (name : cstring).

Definition p_exec (op : p_op) (p : persistent (D := D)) : outcome * persistent :=
  match op with
  | PWrite n c => persistent_ramfs_write_file (Some n) (Some c) p
  | PRemove n => persistent_ramfs_remove_file (Some n) p
  end.

Definition p_effect (op : p_op) (m : gmap cstring cstring) : option (gmap cstring cstring) :=
  match op with
  | PWrite n c => if can_write m n c then Some (<[n := c]> m) else None
  | PRemove n => if name_ok n && bool_decide (is_Some (m !! n)) then Some (delete n m) else None
  end.

Definition p_op_ok (op : p_op) : Prop :=
  match op with
  | PWrite n c => nonzero n /\ nonzero c
  | PRemove n => nonzero n
  end.

(** The outcomes of one call. *)
Definition p_result (start n : Z) (l : list journal_entry) (m : gmap cstring cstring)
    (effect : option (gmap cstring cstring)) (r : outcome) (p p' : persistent (D := D)) : Prop :=
  (exists m' e, r = Returns true /\ effect = Some m' /\ synced start n (l ++ [e]) m' p') \/
  (r = Returns false /\ p_ramfs p' = p_ramfs p /\
   (synced start n l m p' \/
    exists m' e, effect = Some m' /\ stores start n (p_disk p') (l ++ [e]) m')).

Lemma commit_spec start n l m op nm c content p r p' m' :
  op = 1 \/ (op = 2 /\ c = []) ->
  nonzero nm -> name_ok nm = true -> nonzero c -> (length c < 256)%nat ->
  content = Some (c ++ [0]) \/ (c = [] /\ content = None) ->
  synced start n l m p -> persistent_next_sequence p <> 0 ->
  let e := append_entry op (persistent_next_sequence p) (Some (nm ++ [0])) content
             (Z.of_nat (length c)) in
  apply_map e m = (true, m') ->
  commit_entry op (Some (nm ++ [0])) content (Z.of_nat (length c)) e p = (r, p') ->
  p_result start n l m (Some m') r p p' /\
  (reliable (D := D) -> Z.of_nat (length l) < n -> r = Returns true).
Proof.
  intros Hop Hn Hname Hc Hlen Hct [Hwf Hm Hen Hst Hst64 (Hf & Hl & Ha) Hnx Hnew] Hz e Hap.
  specialize (Hnew Hz).
  assert (0 < persistent_next_sequence p < 4294967296) as Hseq by (unfold is_u32 in Hnx; lia).
  destruct (entry_bytes op 0 nm c content Hn Hc Hct) as [Hb1 Hb2].
  unfold commit_entry. rewrite Hst.
  destruct (journal_append _ _ _ _ _ _ _ _) as [ok d'] eqn:Ea.
  destruct (journal_append_cases start 65 op (persistent_next_sequence p)
    (Z.of_nat (length c)) (Some (nm ++ [0])) content Hst64 ltac:(unfold is_u32; lia) Hnx ltac:(lia)
    Hb1 Hb2 (p_disk p) d' n l ok Hf Hl Ea) as (Hf' & Hcases & Hrel).
  assert (disk_log start n d' = Some (l ++ [e]) -> stores start n d' (l ++ [e]) m') as Hnew'.
  { intros Hd. split; [done|]. split; [done|].
    rewrite (apply_all_app apply_map l [e] _ m Ha). cbn [apply_all]. by rewrite Hap. }
  destruct ok; cbn [negb]; cbv iota.
  2: { intros [= <- <-]. split.
       - right. split; [done|]. split; [done|]. destruct Hcases as [[_ Hd]|[_ Hd]].
         + left. split; done.
         + right. exists m', e. split; [done|]. by apply Hnew'.
       - intros Hr Hroom. assert (false = true); [|done]. apply Hrel; [done|]. split; [done|].
         split; [unfold sequence_is_newer; lia|].
         apply (entry_encodes op _ nm c content Hop Hseq Hn Hname Hc Hlen Hct). }
  destruct Hcases as [[? _]|[_ Hd]]; [done|]. cbn [p_ramfs].
  destruct (ramfs_apply_journal_entry e (p_ramfs p)) as [ok2 fs] eqn:Er.
  destruct (apply_spec e (p_ramfs p) ok2 fs Hwf Er) as [Hwf' Hap'].
  rewrite Hm, Hap in Hap'. injection Hap' as <- Hm'.
  cbn [negb persistent_next_sequence]. cbv iota. intros [= <- <-]. split; [|intros _ _; by destruct (_ =? 0)].
  left. exists m', e. split; [by destruct (_ =? 0)|]. split; [done|].
  split; cbn [p_ramfs persistent_enabled persistent_region_start p_disk persistent_next_sequence];
    try done.
  - by apply Hnew'.
  - unfold advance_sequence. case_if; [unfold is_u32; lia|apply u32_range].
  - rewrite last_sequence_app. change (sequence e) with (persistent_next_sequence p).
    unfold advance_sequence. case_if; [done|]. intros _. rewrite u32_id; unfold is_u32 in *; lia.
Qed.

Lemma refused start n l m effect p :
  synced start n l m p -> p_result start n l m effect (Returns false) p p.
Proof. intros Hs. right. split; [done|]. split; [done|]. by left. Qed.

(** What a call gives, and that it succeeds when nothing stands in the way. *)
Definition p_outcome start n l m op (p : persistent (D := D)) (r : outcome) p' : Prop :=
  p_result start n l m (p_effect op m) r p p' /\
  (reliable (D := D) -> persistent_next_sequence p <> 0 -> is_Some (p_effect op m) ->
   Z.of_nat (length l) < n -> r = Returns true).

Lemma refused_outcome start n l m op p : synced start n l m p ->
  persistent_next_sequence p = 0 \/ p_effect op m = None ->
  p_outcome start n l m op p (Returns false) p.
Proof. intros Hs [Hz|He]; (split; [by apply refused|]); [done|]. rewrite He. by intros _ _ [? ?]. Qed.

Lemma can_write_length s n c len : ramfs_can_write_file (Some n) (Some c) s = (true, len) ->
  len = Some (Z.of_nat (length c)).
Proof.
  unfold ramfs_can_write_file, string_length, RAMFS_CONTENT_MAX. rewrite orb_false_r.
  destruct (negb _); [done|]. destruct (256 <=? _) eqn:E; [done|].
  rewrite Z.min_l by lia. destruct (find_file _ _); intros E'; by inversion E'.
Qed.

Lemma p_write_spec start n l m nm c p r p' :
  synced start n l m p -> nonzero nm -> nonzero c ->
  persistent_ramfs_write_file (Some nm) (Some c) p = (r, p') ->
  p_outcome start n l m (PWrite nm c) p r p'.
Proof.
  intros Hs Hn Hc. pose proof Hs as [Hwf Hm Hen _ _ _ Hnx _].
  unfold persistent_ramfs_write_file. rewrite Hen. cbn [negb orb].
  destruct (Z.eqb_spec (persistent_next_sequence p) 0) as [Hz|Hz];
    [intros [= <- <-]; apply refused_outcome; auto|].
  assert (0 < persistent_next_sequence p < 4294967296) as Hseq by (unfold is_u32 in Hnx; lia).
  pose proof (can_write_spec (p_ramfs p) nm c Hwf) as Hcw. rewrite Hm in Hcw.
  destruct (ramfs_can_write_file _ _ _) as [ok len] eqn:Ew. cbn [fst] in Hcw. subst ok.
  destruct (can_write m nm c) eqn:Ecw.
  2: { intros [= <- <-]. apply refused_outcome; [done|]. right. simpl. by rewrite Ecw. }
  apply can_write_length in Ew as ->.
  assert (name_ok nm = true /\ (length c < 256)%nat) as [Hname Hlen]
    by (unfold can_write in Ecw; split_bools; split; [done|lia]).
  unfold mem_of. cbn [fmap option_fmap option_map].
  rewrite (build_entry_eq JOURNAL_OPERATION_WRITE _ nm c (Some (c ++ [0])))
    by (done || by left). intros E.
  pose proof (apply_entry 1 (persistent_next_sequence p) nm c (Some (c ++ [0])) (or_introl eq_refl)
    Hn Hname Hc Hlen (or_introl eq_refl) m) as Ha. rewrite Ecw in Ha.
  destruct (commit_spec start n l m 1 nm c (Some (c ++ [0])) p r p' _ (or_introl eq_refl) Hn Hname
    Hc Hlen (or_introl eq_refl) Hs Hz Ha E) as [? Hlive].
  unfold p_outcome, p_effect. rewrite Ecw. split; [done|]. by intros ? _ _; apply Hlive.
Qed.

Lemma p_remove_spec start n l m nm p r p' :
  synced start n l m p -> nonzero nm ->
  persistent_ramfs_remove_file (Some nm) p = (r, p') ->
  p_outcome start n l m (PRemove nm) p r p'.
Proof.
  intros Hs Hn. pose proof Hs as [Hwf Hm Hen _ _ _ Hnx _].
  unfold persistent_ramfs_remove_file. rewrite Hen. cbn [negb orb].
  destruct (Z.eqb_spec (persistent_next_sequence p) 0) as [Hz|Hz];
    [intros [= <- <-]; apply refused_outcome; auto|].
  assert (0 < persistent_next_sequence p < 4294967296) as Hseq by (unfold is_u32 in Hnx; lia).
  rewrite contents_spec, Hm by done.
  destruct (name_ok nm) eqn:Hname.
  2: { intros [= <- <-]. apply refused_outcome; [done|]. right. simpl. by rewrite Hname. }
  destruct (m !! nm) as [c0|] eqn:Em.
  2: { intros [= <- <-]. apply refused_outcome; [done|]. right. simpl. by rewrite Hname, Em. }
  assert (nonzero []) as Hc by apply Forall_nil_2.
  assert ((length (A := Z) [] < 256)%nat) as Hlen by (simpl; lia).
  pose proof (or_intror (A := 2 = 1) (conj (eq_refl 2) (eq_refl (@nil Z)))) as Hop.
  pose proof (or_intror (A := None = Some ([] ++ [0]))
    (conj (eq_refl (@nil Z)) (eq_refl (@None (list Z))))) as Hct.
  pose proof (build_entry_eq 2 (persistent_next_sequence p) nm [] None Hop Hseq Hn Hname Hc Hlen Hct)
    as Hb. cbn [length] in Hb. change (Z.of_nat 0) with 0 in Hb.
  unfold mem_of, JOURNAL_OPERATION_REMOVE. cbn [fmap option_fmap option_map]. rewrite Hb. intros E.
  pose proof (apply_entry 2 (persistent_next_sequence p) nm [] None Hop Hn Hname Hc Hlen Hct m) as Ha.
  destruct (commit_spec start n l m 2 nm [] None p r p' _ Hop Hn Hname Hc Hlen Hct Hs Hz Ha E)
    as [? Hlive].
  unfold p_outcome, p_effect. rewrite Hname, Em, bool_decide_true by eauto.
  split; [done|]. by intros ? _ _; apply Hlive.
Qed.

(** ** Boot *)

(** Storage that is present, with the region at [start] outside the volume. *)
Record storage_ready (start : Z) : Prop := {
  ready_present : forall d : D, ata_present d = true;
  ready_count : forall d : D, ata_sector_count d = start + 65;
  ready_start : 0 < start;
  ready_volume : forall d : D, vfs_journal_region_available start 65 d = true;
  ready_enable : forall d : D, fst (ata_enable_transactional_writes start 65 d) = true
}.

Lemma stores_proper start n (d d' : D) l m : same_disk d d' ->
  stores start n d l m -> stores start n d' l m.
Proof.
  intros Hs (Hf & Hl & Ha). split; [by apply (formatted_proper start 65 n d d' Hs)|].
  by rewrite <- (disk_log_proper start n d d' Hs).
Qed.

(** The replay of a boot, from the initial files. *)
Lemma boot_replay start (d : D) fs ok applied d' fs' :
  is_u64 start -> ramfs_wf fs -> ramfs_map fs = initial_files ->
  journal_replay ramfs_apply_journal_entry start 65 d fs = (ok, applied, d', fs') ->
  same_disk d' d /\ ramfs_wf fs' /\
  (ok = true -> exists n l, stores start n d l (ramfs_map fs')) /\
  (reliable (D := D) -> forall n l m, stores start n d l m -> ok = true /\ ramfs_map fs' = m).
Proof.
  intros Hst Hwf Hm E.
  destruct (journal_replay_cases ramfs_apply_journal_entry start 65 d fs ok applied d' fs' Hst
    ltac:(unfold is_u32; lia) E) as (Hs & _ & [(-> & -> & Hno)|(n & l & Hf & Hl & [k Hk] & Hok & Hrel)]).
  - split; [done|]. split; [done|]. split; [done|]. intros Hr n l m (Hf & Hl & _).
    by rewrite (Hno Hr n Hf) in Hl.
  - split; [done|]. split.
    { destruct (apply_all ramfs_apply_journal_entry (take k l) fs) as [b fs1] eqn:E1.
      destruct (apply_all_refines _ _ _ _ Hwf E1) as [? _]. simpl in Hk. by subst. }
    split.
    + intros ->. destruct (Hok eq_refl) as [Ha _]. exists n, l. split; [done|]. split; [done|].
      apply (apply_all_refines _ _ _ _ Hwf) in Ha as [_ Ha]. by rewrite <- Hm.
    + intros Hr n' l' m (Hf' & Hl' & Ha'). rewrite (formatted_inj _ _ _ _ _ Hf Hf'), Hl in Hl'.
      injection Hl' as <-. destruct (apply_all_refines _ _ _ _ Hwf (Hrel Hr)) as [_ Ha].
      rewrite Hm, Ha' in Ha. by injection Ha as -> ->.
Qed.

Lemma formatted_superblock start n (d : D) r d' : disk_read start d = (r, d') ->
  formatted start 65 n d -> reliable (D := D) ->
  exists b, r = Some b /\ journal_superblock_decode b = Some n /\ (65 <? n +32 1) = false.
Proof.
  intros E (_ & _ & _ & Hd & Hn) [Hr _]. destruct (Hr start d) as [b Hb]. rewrite E in Hb. simpl in Hb.
  subst r. exists b. split; [done|]. rewrite (read_value _ _ _ _ E). split; [done|].
  apply superblock_decode_range in Hd; [|apply sector_at_ok]. rewrite u32_id by (unfold is_u32; lia). lia.
Qed.

(** What [persistent_ramfs_init] promises. *)
Definition boot_result (p : persistent (D := D)) (ok : bool) (p' : persistent) : Prop :=
  same_disk (p_disk p') (p_disk p) /\
  (persistent_enabled p' = true ->
     exists n l m, synced (persistent_region_start p') n l m p' /\
       stores (persistent_region_start p') n (p_disk p) l m) /\
  (forall start n l m, storage_ready start -> reliable (D := D) -> stores start n (p_disk p) l m ->
     last_sequence 0 l < 4294967295 -> ok = true /\ synced start n l m p').

Lemma boot_refused p ok p' : same_disk (p_disk p') (p_disk p) -> persistent_enabled p' = false ->
  (forall start n l m, storage_ready start -> reliable (D := D) -> stores start n (p_disk p) l m ->
     last_sequence 0 l < 4294967295 -> False) ->
  boot_result p ok p'.
Proof.
  intros Hs He Hno. split; [done|]. rewrite He. split; [done|]. intros. exfalso. by eapply Hno.
Qed.

(** The last steps: the replayed files, the next sequence number, the write window. *)
Lemma boot_finish p start n0 d fs applied ok p' :
  is_u64 start -> (forall start', storage_ready start' -> start' = start) ->
  same_disk d (p_disk p) -> ramfs_wf fs -> stores start n0 (p_disk p) (default [] (disk_log start n0 d)) (ramfs_map fs) ->
  match journal_next_sequence start 65 d with
  | (None, d) => (true, Build_persistent false start 0 applied fs d)
  | (Some next, d) =>
      let '(ok, d) := ata_enable_transactional_writes start 65 d in
      (ok, Build_persistent ok start next applied fs d)
  end = (ok, p') ->
  boot_result p ok p'.
Proof.
  intros Hst Hstart Hs Hwf Hsto.
  destruct (journal_next_sequence start 65 d) as [r d1] eqn:En.
  destruct (next_sequence_cases d d1 start 65 r Hst ltac:(unfold is_u32; lia) En) as (Hs1 & Hseq & Hlive).
  assert (same_disk d1 (p_disk p)) as Hs1' by (by etransitivity).
  destruct r as [next|].
  - destruct (ata_enable_transactional_writes start 65 d1) as [ok1 d2] eqn:Ee. intros [= <- <-].
    pose proof (enable_same start 65 d1) as Hs2. rewrite Ee in Hs2. simpl in Hs2.
    assert (same_disk d2 (p_disk p)) as Hs2' by (by etransitivity).
    destruct (Hseq next eq_refl) as (n & l & Hf & Hl & _ & -> & Hr).
    assert (n = n0) as -> .
    { eapply formatted_inj; [apply Hsto|]. by apply (formatted_proper start 65 n d (p_disk p) Hs). }
    rewrite Hl in Hsto. simpl in Hsto.
    assert (ok1 = true -> synced start n0 l (ramfs_map fs)
      (Build_persistent ok1 start (last_sequence 0 l + 1) applied fs d2)) as Hsy.
    { intros ->. split; try done; cbn; [|unfold is_u32; lia|lia].
      by apply (stores_proper start n0 (p_disk p)). }
    split; [done|]. split; [intros Hen; cbn in *; eexists _, _, _; split; [by apply Hsy|done]|].
    intros start' n l' m Hready Hrel Hst' Hlt. pose proof (Hstart _ Hready) as ->.
    assert (n = n0) as -> by (eapply formatted_inj; [apply Hsto|apply Hst']).
    destruct Hsto as (_ & Hl0 & Ha0), Hst' as (_ & Hl1 & Ha1). rewrite Hl0 in Hl1.
    injection Hl1 as <-. rewrite Ha0 in Ha1. injection Ha1 as <-.
    pose proof (ready_enable _ Hready d1) as Hok. rewrite Ee in Hok. cbn [fst] in Hok.
    split; [done|]. by apply Hsy.
  - intros [= <- <-]. apply boot_refused; [done|done|].
    intros start' n l m Hready Hrel Hst' Hlt. pose proof (Hstart _ Hready) as ->.
    apply (stores_proper start n (p_disk p) d) in Hst' as (Hf & Hl & _); [|done].
    by specialize (Hlive Hrel n l Hf Hl Hlt).
Qed.

Lemma init_spec p ok p' :
  ramfs_wf (p_ramfs p) -> ramfs_map (p_ramfs p) = initial_files ->
  persistent_ramfs_init p = (ok, p') -> boot_result p ok p'.
Proof.
  intros Hwf Hm. unfold persistent_ramfs_init, PERSISTENT_JOURNAL_REGION_SECTORS.
  set (d0 := ata_disable_transactional_writes (p_disk p)).
  assert (same_disk d0 (p_disk p)) as Hs0 by apply disable_same.
  destruct (negb (ata_present d0) || (ata_sector_count d0 <=? 65)) eqn:Ep.
  { intros [= <- <-]. apply boot_refused; [done|done|]. intros start n l m [Hp Hc Hpos _ _] _ _ _.
    rewrite Hp, Hc in Ep. lia. }
  pose proof (sector_count_u64 d0) as Hcount. unfold is_u64 in Hcount.
  rewrite (u64_id (ata_sector_count d0 - 65)) by (unfold is_u64; lia).
  set (start := ata_sector_count d0 - 65).
  assert (is_u64 start) as Hst by (unfold is_u64, start; lia).
  assert (forall start', storage_ready start' -> start' = start) as Hstart
    by (intros start' [_ Hc _ _ _]; unfold start; rewrite Hc; lia).
  destruct (vfs_journal_region_available start 65 d0) eqn:Ev; cbn [negb]; cbv iota.
  2: { intros [= <- <-]. apply boot_refused; [done|done|]. intros start' n l m Hr _ _ _.
       pose proof (Hstart _ Hr) as ->. by rewrite (ready_volume _ Hr) in Ev. }
  destruct (disk_read start d0) as [r d1] eqn:Er.
  assert (same_disk d1 (p_disk p)) as Hs1.
  { intros lba. rewrite <- (Hs0 lba), <- (read_frame start d0 lba), Er. done. }
  assert (forall start' n l m, storage_ready start' -> reliable (D := D) ->
    stores start' n (p_disk p) l m ->
    exists b, r = Some b /\ journal_superblock_decode b = Some n /\ (65 <? n +32 1) = false) as Hsb.
  { intros start' n l m Hr Hrel (Hf & _). pose proof (Hstart _ Hr) as ->.
    apply (formatted_superblock start n d0 r d1 Er); [|done].
    by apply (formatted_proper start 65 n d0 (p_disk p) Hs0). }
  destruct r as [b|].
  2: { intros [= <- <-]. apply boot_refused; [done|done|]. intros start' n l m Hr Hrel Hsto _.
       by destruct (Hsb _ _ _ _ Hr Hrel Hsto) as (b & ? & _). }
  destruct (journal_superblock_decode b) as [data|] eqn:Ed.
  2: { intros [= <- <-]. apply boot_refused; [done|done|]. intros start' n l m Hr Hrel Hsto _.
       destruct (Hsb _ _ _ _ Hr Hrel Hsto) as (b' & ? & ? & _). congruence. }
  destruct (65 <? data +32 1) eqn:Edata.
  { intros [= <- <-]. apply boot_refused; [done|done|]. intros start' n l m Hr Hrel Hsto _.
    destruct (Hsb _ _ _ _ Hr Hrel Hsto) as (b' & ? & ? & ?). congruence. }
  destruct (journal_replay _ _ _ _ _) as [[[okr applied] d2] fs] eqn:Ej.
  destruct (boot_replay start d1 (p_ramfs p) okr applied d2 fs Hst Hwf Hm Ej)
    as (Hs2 & Hwf' & Hok & Hrel).
  assert (same_disk d2 (p_disk p)) as Hs2' by (by etransitivity).
  destruct okr; cbn [negb]; cbv iota.
  - destruct (Hok eq_refl) as (n0 & l0 & Hsto). apply (boot_finish p start n0); try done.
    apply (stores_proper _ _ d1); [done|].
    rewrite (disk_log_proper start n0 d2 d1 Hs2). by rewrite (proj1 (proj2 Hsto)).
  - intros [= <- <-]. apply boot_refused; [done|done|]. intros start' n l m Hr Hrl Hsto _.
    pose proof (Hstart _ Hr) as ->. apply (stores_proper _ _ _ d1) in Hsto; [|done].
    by destruct (Hrel Hrl n l m Hsto).
Qed.

(** ** Formatting *)

Lemma empty_log start n (d d' : D) : 0 <= n <= 64 ->
  forallb sector_is_empty (map (fun i => sector_at d (start + i)) (seqZ 0 65)) = true ->
  (forall lba, lba <> start -> sector_at d' lba = sector_at d lba) ->
  disk_log start n d' = Some [].
Proof.
  intros Hn He Hfr. apply parse_empty. rewrite forallb_forall in He |- *. intros s Hs.
  unfold sectors_from in Hs. apply in_map_iff in Hs as (i & <- & Hi%list_elem_of_In).
  apply elem_of_seqZ in Hi. rewrite Hfr by lia. apply He. apply in_map_iff. exists (1 + i).
  split; [f_equal; lia|]. apply list_elem_of_In, elem_of_seqZ. lia.
Qed.

(** Only empty sectors are ever written; success leaves an empty journal of 64 sectors. *)
Definition format_result (p : persistent (D := D)) (ok : bool) (p' : persistent) : Prop :=
  p_ramfs p' = p_ramfs p /\
  (forall lba, sector_is_empty (sector_at (p_disk p) lba) = false ->
     sector_at (p_disk p') lba = sector_at (p_disk p) lba) /\
  (ok = false -> persistent_enabled p' = persistent_enabled p) /\
  (ok = true -> persistent_enabled p' = true /\ persistent_next_sequence p' = 1 /\
     ramfs_is_pristine (p_ramfs p) = true /\ is_u64 (persistent_region_start p') /\
     stores (persistent_region_start p') 64 (p_disk p') [] initial_files).

Lemma format_refused p start d : same_disk d (p_disk p) ->
  format_result p false (Build_persistent (persistent_enabled p) start (persistent_next_sequence p)
    (persistent_replay_records p) (p_ramfs p) d).
Proof. intros Hs. split; [done|]. split; [|done]. intros lba _. apply Hs. Qed.

(** A failure after the superblock may have been written. *)
Lemma format_failed p start d : (forall lba, lba <> start -> sector_at d lba = sector_at (p_disk p) lba) ->
  sector_is_empty (sector_at (p_disk p) start) = true ->
  format_result p false (Build_persistent (persistent_enabled p) start (persistent_next_sequence p)
    (persistent_replay_records p) (p_ramfs p) (ata_disable_transactional_writes d)).
Proof.
  intros Hfr He. split; [done|]. split; [|done]. intros lba Hne. cbn [p_disk].
  rewrite (disable_same d lba). apply Hfr. intros ->. congruence.
Qed.

Lemma format_spec p ok p' : persistent_ramfs_format p = (ok, p') -> format_result p ok p'.
Proof.
  unfold persistent_ramfs_format, PERSISTENT_JOURNAL_REGION_SECTORS.
  destruct (_ || _ || _ || _) eqn:Eg; [intros [= <- <-]; by apply (format_refused p (persistent_region_start p) (p_disk p))|].
  split_bools. pose proof (sector_count_u64 (p_disk p)) as Hcount. unfold is_u64 in Hcount.
  rewrite (u64_id (ata_sector_count (p_disk p) - 65)) by (unfold is_u64; lia).
  set (start := ata_sector_count (p_disk p) - 65).
  destruct (negb (vfs_journal_region_available _ _ _)); [intros [= <- <-]; by apply format_refused|].
  pose proof (region_same start 65 (p_disk p)) as Hs1. pose proof (region_value start 65 (p_disk p)) as Hv.
  destruct (read_region start 65 (p_disk p)) as [[secs|] d1]; cbn [fst snd] in *;
    [|intros [= <- <-]; by apply format_refused].
  destruct (forallb sector_is_empty secs) eqn:Ef; cbn [negb]; cbv iota; [|intros [= <- <-]; by apply format_refused].
  rewrite (Hv secs ltac:(lia) eq_refl) in Ef.
  assert (sector_is_empty (sector_at (p_disk p) start) = true) as He.
  { rewrite forallb_forall in Ef. apply Ef, in_map_iff. exists 0. split; [f_equal; lia|].
    apply list_elem_of_In, elem_of_seqZ. lia. }
  change (65 -32 1) with 64.
  destruct (journal_superblock_encode (replicate 512 0) 64) as [sb|] eqn:Esb.
  2: { intros [= <- <-]. apply format_failed; [|done]. intros lba _. apply Hs1. }
  destruct (superblock_decode_encode (replicate 512 0) 64 sb eq_refl ltac:(lia) Esb) as (Hok & Hdec & _).
  pose proof (enable_same start 65 d1) as Hs2.
  destruct (ata_enable_transactional_writes start 65 d1) as [[] d2]; cbn [fst snd negb] in *; cbv iota.
  2: { intros [= <- <-]. apply format_failed; [|done]. intros lba _. by rewrite (Hs2 lba). }
  destruct (write_cases start sb d2 Hok) as (okw & d3 & Ew & Hfr & Hw). rewrite Ew.
  assert (forall lba, lba <> start -> sector_at d3 lba = sector_at (p_disk p) lba) as Hfr3
    by (intros lba Hne; rewrite Hfr by done; by rewrite (Hs2 lba)).
  destruct okw; cbn [negb]; cbv iota; [|intros [= <- <-]; by apply format_failed].
  destruct (disk_read start d3) as [back d4] eqn:Er.
  assert (forall lba, sector_at d4 lba = sector_at d3 lba) as Hs4
    by (intros lba; rewrite <- (read_frame start d3 lba), Er; done).
  assert (forall lba, lba <> start -> sector_at d4 lba = sector_at (p_disk p) lba) as Hfr4
    by (intros lba Hne; rewrite Hs4; by apply Hfr3).
  destruct back as [b|]; [|intros [= <- <-]; by apply format_failed].
  destruct (journal_superblock_decode b); [|intros [= <- <-]; by apply format_failed].
  intros [= <- <-]. split; [done|]. split; [|split; [done|]].
  - intros lba Hne. apply Hfr4. intros ->. congruence.
  - intros _. split; [done|]. split; [done|]. split; [done|].
    split; [unfold is_u64, start; cbn; lia|]. cbn. split.
    + unfold formatted. rewrite Hs4, (write_done start sb d2 d3 Hok Ew). unfold start. split; [lia|].
      split; [lia|]. split; [lia|]. split; [done|lia].
    + split; [|done]. refine (empty_log start 64 (p_disk p) d4 _ Ef Hfr4). lia.
Qed.

End durability.

(** ** Properties *)

(** C7: a persistent write or removal is all-or-nothing across a crash. From a state where
    memory and disk agree, the call never panics; when it returns 1 both hold the updated
    files, one record longer; when it returns 0 memory is unchanged and the disk stores either
    the old or the updated files. On storage that does not fail, a call the filesystem admits
    succeeds while sequence numbers and journal sectors last. *)
Theorem persistent_update_atomic {D} `{PersistentEnvLaws D} start n l m op (p p' : persistent (D := D)) r :
  synced start n l m p -> p_op_ok op -> p_exec op p = (r, p') ->
  p_result start n l m (p_effect op m) r p p' /\
  (reliable (D := D) -> persistent_next_sequence p <> 0 -> is_Some (p_effect op m) ->
   Z.of_nat (length l) < n -> r = Returns true).
Proof.
  intros Hs Hok E. destruct op as [nm c|nm]; cbn [p_exec p_op_ok] in *.
  - destruct Hok. by apply p_write_spec.
  - by apply p_remove_spec.
Qed.

(** C14: a reboot restores the files. [persistent_ramfs_init] leaves the disk as it is; if it
    enables persistence, memory holds the files the disk stores and the next sequence number
    is fresh; and with the storage present and working, it does so for every journal whose
    numbers are not used up. *)
Theorem persistent_boot_restores {D} `{PersistentEnvLaws D} (p p' : persistent (D := D)) ok :
  p_ramfs p = ramfs_init ramfs_static -> persistent_ramfs_init p = (ok, p') ->
  same_disk (p_disk p') (p_disk p) /\
  (persistent_enabled p' = true ->
     exists n l m, synced (persistent_region_start p') n l m p' /\
       stores (persistent_region_start p') n (p_disk p) l m) /\
  (forall start n l m, storage_ready (D := D) start -> reliable (D := D) ->
     stores start n (p_disk p) l m -> last_sequence 0 l < 4294967295 ->
     ok = true /\ synced start n l m p').
Proof.
  intros Hr. destruct (ramfs_init_spec ramfs_static eq_refl) as [Hwf Hm]. rewrite <- Hr in Hwf, Hm.
  by apply init_spec.
Qed.

(** [persistent_ramfs_format] destroys nothing: a sector that is not blank keeps its
    contents and the RAM filesystem is untouched, whatever fails. On success the region holds
    an empty journal of 64 sectors and the next sequence number is 1. *)
Theorem persistent_format_safe {D} `{PersistentEnvLaws D} (p p' : persistent (D := D)) ok :
  persistent_ramfs_format p = (ok, p') ->
  p_ramfs p' = p_ramfs p /\
  (forall lba, sector_is_empty (sector_at (p_disk p) lba) = false ->
     sector_at (p_disk p') lba = sector_at (p_disk p) lba) /\
  (ok = false -> persistent_enabled p' = persistent_enabled p) /\
  (ok = true -> persistent_enabled p' = true /\ persistent_next_sequence p' = 1 /\
     ramfs_is_pristine (p_ramfs p) = true /\ is_u64 (persistent_region_start p') /\
     stores (persistent_region_start p') 64 (p_disk p') [] initial_files).
Proof. apply format_spec. Qed.

(** What formatting makes durable. The check that the RAM filesystem is pristine compares
    the three names only, and the new journal is empty, so the first boot after a successful
    format shows the initial files: edits made to README, MOTD or EFES before it are lost. *)
Theorem persistent_format_drops_edits {D} `{PersistentEnvLaws D} (p p1 p2 p3 : persistent (D := D)) ok :
  storage_ready (D := D) (persistent_region_start p1) -> reliable (D := D) ->
  persistent_ramfs_format p = (true, p1) ->
  p_ramfs p2 = ramfs_init ramfs_static -> p_disk p2 = p_disk p1 ->
  persistent_ramfs_init p2 = (ok, p3) ->
  p_ramfs p1 = p_ramfs p /\ ramfs_map (p_ramfs p3) = initial_files.
Proof.
  intros Hready Hrel Ef Hr Hd Ei. destruct (format_spec p true p1 Ef) as (Hsame & _ & _ & Hok).
  destruct (Hok eq_refl) as (_ & _ & _ & _ & Hsto). split; [done|]. rewrite <- Hd in Hsto.
  destruct (ramfs_init_spec ramfs_static eq_refl) as [Hwf Hm]. rewrite <- Hr in Hwf, Hm.
  destruct (init_spec p2 ok p3 Hwf Hm Ei) as (_ & _ & Hlive).
  destruct (Hlive _ _ _ _ Hready Hrel Hsto ltac:(by cbn)) as [_ Hs]. apply Hs.
Qed.

(** ** Witnesses *)

(** A memory disk of 165 sectors, the journal region from sector 100. *)
#[local] Instance mem_env : PersistentEnv (gmap Z (list Z)) := {
  ata_present _ := true;
  ata_sector_count _ := 165;
  ata_enable_transactional_writes _ _ d := (true, d);
  ata_disable_transactional_writes d := d;
  vfs_journal_region_available _ _ _ := true;
  read_region a n d := (Some (map (fun i => mem_sector d (a + i)) (seqZ 0 n)), d)
}.

#[local] Program Instance mem_env_laws : PersistentEnvLaws (gmap Z (list Z)).
Next Obligation. unfold is_u64. simpl. lia. Qed.
Next Obligation. done. Qed.
Next Obligation. done. Qed.
Next Obligation. done. Qed.
Next Obligation. done. Qed.
Next Obligation. done. Qed.
Next Obligation. intros a n d bs _ [= <-]. done. Qed.

Lemma mem_ready : storage_ready (D := gmap Z (list Z)) 100.
Proof. split; try done. Qed.

Lemma mem_reliable : reliable (D := gmap Z (list Z)).
Proof. split; [intros lba d; by eexists|done]. Qed.

Definition booted (d : gmap Z (list Z)) : persistent :=
  Build_persistent false 0 0 0 (ramfs_init ramfs_static) d.

Lemma booted_disk d : p_disk (booted d) = d.
Proof. reflexivity. Qed.

Lemma booted_ramfs d : p_ramfs (booted d) = ramfs_init ramfs_static.
Proof. reflexivity. Qed.

(** After [pformat] on a blank disk. *)
Definition formatted_state : persistent := snd (persistent_ramfs_format (booted ∅)).

Lemma formatted_state_eq : persistent_ramfs_format (booted ∅) = (true, formatted_state).
Proof. vm_compute. reflexivity. Qed.

Lemma formatted_start : persistent_region_start formatted_state = 100.
Proof. vm_compute. reflexivity. Qed.

Lemma formatted_synced : synced 100 64 [] initial_files formatted_state.
Proof.
  destruct (format_spec _ _ _ formatted_state_eq) as (Hr & _ & _ & Hok).
  destruct (Hok eq_refl) as (He & Hn & _ & _ & Hs). rewrite formatted_start in Hs.
  destruct (ramfs_init_spec ramfs_static eq_refl) as [Hwf Hm].
  split; rewrite ?Hr, ?Hn; try assumption.
  - exact formatted_start.
  - unfold is_u64. lia.
  - unfold is_u32. lia.
  - intros _. exact eq_refl.
Qed.

(** The file NOTE holding "hi". *)
Definition note : p_op := PWrite [78; 79; 84; 69] [104; 105].

Lemma note_ok : p_op_ok note.
Proof. split; repeat (apply Forall_cons_2; [lia|]); apply Forall_nil_2. Qed.

Lemma note_effect : is_Some (p_effect note initial_files).
Proof. exists (<[[78; 79; 84; 69] := [104; 105]]> initial_files). vm_compute. reflexivity. Qed.

Lemma formatted_next : persistent_next_sequence formatted_state = 1.
Proof. vm_compute. reflexivity. Qed.

Lemma note_next : persistent_next_sequence (snd (p_exec note formatted_state)) = 2.
Proof. vm_compute. reflexivity. Qed.

Lemma persistent_update_atomic_witness :
  fst (p_exec note formatted_state) = Returns true /\
  exists m', p_effect note initial_files = Some m' /\
    ramfs_map (p_ramfs (snd (p_exec note formatted_state))) = m'.
Proof.
  destruct (p_exec note formatted_state) as [r p'] eqn:E.
  destruct (persistent_update_atomic 100 64 [] initial_files note formatted_state p' r
    formatted_synced note_ok E) as [Hres Hlive].
  rewrite formatted_next in Hlive.
  specialize (Hlive mem_reliable ltac:(lia) note_effect ltac:(cbn [length]; lia)). subst r.
  split; [reflexivity|]. destruct Hres as [(m' & e & _ & He & Hs)|[[=] _]].
  exists m'. split; [exact He|apply Hs].
Defined.

(** The note is there after a reboot. *)
Lemma persistent_boot_restores_witness :
  let p1 := snd (p_exec note formatted_state) in
  let p2 := booted (p_disk p1) in
  fst (persistent_ramfs_init p2) = true /\
  ramfs_map (p_ramfs (snd (persistent_ramfs_init p2))) = ramfs_map (p_ramfs p1).
Proof.
  cbv zeta. pose proof note_next as Hnext.
  destruct (p_exec note formatted_state) as [r p1] eqn:E. cbn [snd] in *.
  destruct (p_write_spec 100 64 [] initial_files _ _ _ _ _ formatted_synced (proj1 note_ok)
    (proj2 note_ok) E) as [Hres Hlive]. rewrite formatted_next in Hlive.
  specialize (Hlive mem_reliable ltac:(lia) note_effect ltac:(cbn [length]; lia)). subst r.
  destruct Hres as [(m' & e & _ & He & Hs)|[[=] _]].
  destruct (persistent_ramfs_init (booted (p_disk p1))) as [ok p2] eqn:Ei.
  destruct (persistent_boot_restores (booted (p_disk p1)) p2 ok (booted_ramfs _) Ei) as (_ & _ & Hb).
  destruct (Hb 100 64 _ m' mem_ready mem_reliable (sy_stores _ _ _ _ _ Hs)) as [-> Hs2].
  - pose proof (sy_newer _ _ _ _ _ Hs) as Hl. rewrite Hnext in Hl. lia.
  - split; [reflexivity|]. cbn [snd]. by rewrite (sy_map _ _ _ _ _ Hs), (sy_map _ _ _ _ _ Hs2).
Defined.

Lemma persistent_format_safe_witness :
  stores 100 64 (p_disk formatted_state) [] initial_files.
Proof.
  destruct (persistent_format_safe (booted ∅) formatted_state true formatted_state_eq)
    as (_ & _ & _ & Hok).
  destruct (Hok eq_refl) as (_ & _ & _ & _ & Hs). rewrite formatted_start in Hs. exact Hs.
Defined.

(** A README rewritten before [pformat] is back to its first text after the reboot. *)
Definition edited : persistent (D := gmap Z (list Z)) :=
  Build_persistent false 0 0 0
    (snd (ramfs_write_file (Some README) (Some [120]) (ramfs_init ramfs_static))) ∅.

Definition edited_formatted : persistent (D := gmap Z (list Z)) := snd (persistent_ramfs_format edited).

Lemma edited_formatted_eq : persistent_ramfs_format edited = (true, edited_formatted).
Proof. vm_compute. reflexivity. Qed.

Lemma edited_formatted_start : persistent_region_start edited_formatted = 100.
Proof. vm_compute. reflexivity. Qed.

Lemma edited_contents : ramfs_map (p_ramfs edited) !! README = Some [120].
Proof. vm_compute. reflexivity. Qed.

Lemma persistent_format_drops_edits_witness :
  ramfs_map (p_ramfs edited_formatted) !! README = Some [120] /\
  ramfs_map (p_ramfs (snd (persistent_ramfs_init (booted (p_disk edited_formatted))))) = initial_files.
Proof.
  destruct (persistent_ramfs_init (booted (p_disk edited_formatted))) as [ok p3] eqn:E.
  assert (storage_ready (D := gmap Z (list Z)) (persistent_region_start edited_formatted)) as Hr
    by (rewrite edited_formatted_start; exact mem_ready).
  destruct (persistent_format_drops_edits edited edited_formatted (booted (p_disk edited_formatted))
    p3 ok Hr mem_reliable edited_formatted_eq (booted_ramfs _)
    (booted_disk _) E) as [Hsame Hm].
  rewrite Hsame. split; [exact edited_contents|exact Hm].
Defined.
