(* ===== verification/BlockDevice.v ===== *)
(** * The block device layer

    [drivers/block_device.c] and [include/block_device.h]: the descriptor every storage driver
    fills in and the two checked entry points its clients use. A driver callback is a function of
    its context, the request and the machine state [W]; pointers are [Z] with 0 the null pointer.
    The descriptors are static objects, so a null descriptor is not represented. *)

From S2P Require Import Prelude.
Local Open Scope c_scope.
Local Open Scope Z_scope.

Definition BLOCK_DEVICE_MAGIC : Z := 0x424C4B44.
Definition BLOCK_DEVICE_SECTOR_SIZE : Z := 512.
Definition BLOCK_DEVICE_TRANSFER_MAX : Z := 128.

Section device.
Context {W : Type}.

(** [read(context, lba, count, buffer)]: a result code and the machine afterwards. *)
Definition block_device_fn : Type := Z -> Z -> Z -> Z -> W -> Z * W.

Record block_device := {
  bd_magic : Z;
  bd_sector_count : Z;
  bd_sector_size : Z;
  bd_max_transfer_sectors : Z;
  bd_read : option block_device_fn;
  bd_write : option block_device_fn;
  bd_context : Z
}.

Definition block_device_reset (device : block_device) : block_device :=
  Build_block_device 0 0 0 0 None None 0.

Definition block_device_configure (sector_count sector_size max_transfer_sectors : Z)
    (read write : option block_device_fn) (context : Z) (device : block_device) : bool * block_device :=
  let device := block_device_reset device in
  if (sector_count =? 0) || negb (sector_size =? BLOCK_DEVICE_SECTOR_SIZE) ||
     (max_transfer_sectors =? 0) || (BLOCK_DEVICE_TRANSFER_MAX <? max_transfer_sectors) ||
     negb (bool_decide (is_Some read))
  then (false, device)
  else (true, Build_block_device BLOCK_DEVICE_MAGIC sector_count sector_size max_transfer_sectors
                read write context).

Definition block_device_is_ready (device : block_device) : bool :=
  (bd_magic device =? BLOCK_DEVICE_MAGIC) && negb (bd_sector_count device =? 0) &&
  (bd_sector_size device =? BLOCK_DEVICE_SECTOR_SIZE) &&
  negb (bd_max_transfer_sectors device =? 0) &&
  (bd_max_transfer_sectors device <=? BLOCK_DEVICE_TRANSFER_MAX) &&
  bool_decide (is_Some (bd_read device)).

Definition block_device_can_write (device : block_device) : bool :=
  block_device_is_ready device && bool_decide (is_Some (bd_write device)).

Definition block_device_sector_count (device : block_device) : Z :=
  if block_device_is_ready device then bd_sector_count device else 0.

Definition request_is_valid (device : block_device) (lba count buffer : Z) : bool :=
  block_device_is_ready device && negb (buffer =? 0) && negb (count =? 0) &&
  (count <=? bd_max_transfer_sectors device) && (lba <? bd_sector_count device) &&
  (count <=? bd_sector_count device -64 lba).

(** [device->read(...)]; [request_is_valid] has checked that the callback is there. *)
Definition call (f : option block_device_fn) (context lba count buffer : Z) (w : W) : Z * W :=
  match f with
  | Some f => f context lba count buffer w
  | None => (0, w)
  end.

Definition block_device_read (device : block_device) (lba count buffer : Z) (w : W) : Z * W :=
  if negb (request_is_valid device lba count buffer) then (0, w)
  else call (bd_read device) (bd_context device) lba count buffer w.

Definition block_device_write (device : block_device) (lba count buffer : Z) (w : W) : Z * W :=
  if negb (request_is_valid device lba count buffer) || negb (bool_decide (is_Some (bd_write device)))
  then (0, w)
  else call (bd_write device) (bd_context device) lba count buffer w.

(** ** Specification: what reaches the driver *)

Inductive request := Request (is_write : bool) (lba count buffer : Z).

(** The fields are C values: a 64-bit address, 32-bit count and pointer. *)
Definition request_wf (r : request) : Prop :=
  let 'Request _ lba count buffer := r in is_u64 lba /\ is_u32 count /\ is_u32 buffer.

Definition submit (device : block_device) (r : request) (w : W) : Z * W :=
  let 'Request is_write lba count buffer := r in
  if is_write then block_device_write device lba count buffer w
  else block_device_read device lba count buffer w.

(** A legal transfer on a medium of [n] sectors with at most [max] per request, in unbounded
    arithmetic. *)
Definition legal (n max : Z) (r : request) : Prop :=
  let 'Request _ lba count buffer := r in buffer <> 0 /\ 1 <= count <= max /\ lba + count <= n.

#[global] Instance legal_dec n max r : Decision (legal n max r).
Proof. destruct r. apply _. Defined.

(** The driver sees exactly the legal requests it has an entry point for. *)
Definition serve (n max : Z) (read write : option block_device_fn) (context : Z) (r : request)
    (w : W) : Z * W :=
  let 'Request is_write lba count buffer := r in
  if decide (legal n max r)
  then call (if is_write then write else read) context lba count buffer w
  else (0, w).

Fixpoint run (f : request -> W -> Z * W) (rs : list request) (w : W) : list Z * W :=
  match rs with
  | [] => ([], w)
  | r :: rs => let '(z, w) := f r w in let '(zs, w) := run f rs w in (z :: zs, w)
  end.

(** ** Lemmas *)

Lemma run_ext f g rs w : (forall r w, r ∈ rs -> f r w = g r w) -> run f rs w = run g rs w.
Proof.
  revert w. induction rs as [|r rs IH]; intros w H; [done|]. cbn.
  rewrite H by left. destruct (g r w) as [z w1]. rewrite IH; [done|]. intros r' w' Hr. apply H. by right.
Qed.

(** What configuring leaves behind. *)
Lemma configure_spec n size max read write context d :
  is_u64 n -> is_u32 max ->
  block_device_configure n size max read write context d =
  if decide (0 < n /\ size = 512 /\ 0 < max <= 128 /\ is_Some read)
  then (true, Build_block_device BLOCK_DEVICE_MAGIC n size max read write context)
  else (false, Build_block_device 0 0 0 0 None None 0).
Proof.
  unfold block_device_configure, is_u64, is_u32, BLOCK_DEVICE_SECTOR_SIZE, BLOCK_DEVICE_TRANSFER_MAX.
  intros Hn Hm. destruct (decide (is_Some read)) as [Hr|Hr].
  - rewrite (bool_decide_eq_true_2 _ Hr). cbn [negb]. rewrite orb_false_r.
    case_decide; case_if; try done; exfalso; split_bools; [lia|].
    match goal with H : ~ _ |- _ => apply H end. split_and!; [lia|lia|lia|lia|done].
  - rewrite (bool_decide_eq_false_2 _ Hr). cbn [negb]. rewrite orb_true_r.
    case_decide; [|done]. naive_solver.
Qed.

(** The wrap-around test of [request_is_valid] is the unbounded one. *)
Lemma request_valid_legal d is_write lba count buffer :
  block_device_is_ready d = true -> is_u64 (bd_sector_count d) -> is_u64 lba -> is_u32 count ->
  request_is_valid d lba count buffer = true <->
  legal (bd_sector_count d) (bd_max_transfer_sectors d) (Request is_write lba count buffer).
Proof.
  unfold request_is_valid, legal, is_u64, is_u32, u64. intros -> Hn Hl Hc. cbn [andb].
  rewrite !andb_true_iff, !negb_true_iff, !Z.eqb_neq, !Z.leb_le, Z.ltb_lt.
  split; intros H; [|rewrite Z.mod_small by lia; lia].
  rewrite Z.mod_small in H by lia. lia.
Qed.

Lemma submit_serve n max read write context r w :
  0 < n -> is_u64 n -> 0 < max <= 128 -> is_Some read -> request_wf r ->
  submit (Build_block_device BLOCK_DEVICE_MAGIC n 512 max read write context) r w =
  serve n max read write context r w.
Proof.
  intros Hn Hn64 Hm Hr Hw. set (d := Build_block_device _ _ _ _ _ _ _).
  assert (Hrdy : block_device_is_ready d = true).
  { unfold block_device_is_ready, BLOCK_DEVICE_TRANSFER_MAX. cbn.
    rewrite (bool_decide_eq_true_2 _ Hr). lia. }
  destruct r as [b lba count buffer]. destruct Hw as (Hl & Hc & Hb).
  pose proof (request_valid_legal d b lba count buffer Hrdy Hn64 Hl Hc) as Hv.
  cbn [submit serve]. unfold block_device_write, block_device_read.
  destruct (request_is_valid d lba count buffer).
  - rewrite decide_True by (by apply Hv). destruct b; [|done]. cbn [negb orb].
    destruct (decide (is_Some write)) as [H|H]; [by rewrite (bool_decide_eq_true_2 _ H)|].
    rewrite (bool_decide_eq_false_2 _ H). apply eq_None_not_Some in H as ->. done.
  - rewrite decide_False by (intros H; by apply Hv in H). by destruct b.
Qed.

Lemma submit_unready r w : submit (Build_block_device 0 0 0 0 None None 0) r w = (0, w).
Proof. by destruct r as [[] ? ? ?]. Qed.

(** C38: whatever descriptor [block_device_configure] builds and whatever requests clients make,
    the driver is called for exactly the requests that lie inside the medium and inside the
    transfer limit, with the configured context and unchanged arguments; every other request, a
    write to a read-only device, and every request to a rejected configuration returns 0 and
    changes nothing. *)
Theorem block_device_mediates n size max read write context d0 b d rs w :
  is_u64 n -> is_u32 max -> Forall request_wf rs ->
  block_device_configure n size max read write context d0 = (b, d) ->
  (b = true <-> 0 < n /\ size = 512 /\ 0 < max <= 128 /\ is_Some read) /\
  run (submit d) rs w =
    run (if b then serve n max read write context else fun _ w => (0, w)) rs w.
Proof.
  intros Hn Hm Hrs. rewrite configure_spec by done. case_decide as Hc; intros [= <- <-].
  - split; [done|]. destruct Hc as (Hn0 & -> & Hm0 & Hr).
    apply run_ext. intros r w' Hin. rewrite Forall_forall in Hrs. apply submit_serve; try done.
    by apply Hrs, list_elem_of_In.
  - split; [done|]. apply run_ext. intros r w' _. apply submit_unready.
Qed.

End device.

Arguments block_device_fn : clear implicits.
Arguments block_device : clear implicits.

Lemma block_device_mediates_witness :
  let tag : option (block_device_fn (list Z)) := Some (fun c l n b w => (1, w ++ [c; l; n])) in
  let c := block_device_configure 100 512 8 tag None 5 (Build_block_device 0 0 0 0 None None 0) in
  run (submit (snd c)) [Request false 92 8 4096; Request false 93 8 4096;
    Request false 18446744073709551615 2 4096; Request true 0 1 4096] [] = ([1; 0; 0; 0], [5; 92; 8]).
Proof.
  intros tag c.
  destruct (block_device_mediates 100 512 8 tag None 5 (Build_block_device 0 0 0 0 None None 0)
    (fst c) (snd c)
    [Request false 92 8 4096; Request false 93 8 4096; Request false 18446744073709551615 2 4096;
     Request true 0 1 4096] []) as [Hb ->];
    [unfold is_u64; lia|unfold is_u32; lia| |apply surjective_pairing|].
  - repeat apply Forall_cons_2; try apply Forall_nil_2; cbn; unfold is_u64, is_u32; lia.
  - rewrite (proj2 Hb); [reflexivity|]. split; [lia|]. split; [lia|]. split; [lia|]. by eexists.
Defined.
