(* ===== verification/Fat.v ===== *)
(** * FAT16 volumes

    [fs/fat.c] and [fs/fat.h]: mounting, directory search and file reading. A device read is a
    function of the machine state [W] that returns the sector, or [None] for a failed transfer;
    failures may be transient. A C string is the list of its characters before the terminator.
    Every caller passes the addresses of live objects, so null arguments are not represented. *)

From S2P Require Import Prelude.
Local Open Scope c_scope.
Local Open Scope Z_scope.

Definition FAT_SECTOR_SIZE : Z := 512.
Definition FAT16_EOC : Z := 0xFFF8.
Definition FAT16_BAD : Z := 0xFFF7.
Definition FAT_ATTR_DIRECTORY : Z := 0x10.
Definition FAT_ATTR_VOLUME_ID : Z := 0x08.
Definition FAT_ATTR_LFN : Z := 0x0F.

(** ** Results *)

(** A computation returns a value, fails (the C value 0), or has used up the fuel of the model. *)
Inductive outcome (A : Type) := Ok (a : A) | Failed | NoFuel.
Arguments Ok {A} a.
Arguments Failed {A}.
Arguments NoFuel {A}.

Definition M (W A : Type) : Type := W -> outcome A * W.

Definition ret {W A} (a : A) : M W A := fun w => (Ok a, w).
Definition failed {W A} : M W A := fun w => (Failed, w).
Definition no_fuel {W A} : M W A := fun w => (NoFuel, w).
Definition bind {W A B} (m : M W A) (f : A -> M W B) : M W B := fun w =>
  match m w with
  | (Ok a, w) => f a w
  | (Failed, w) => (Failed, w)
  | (NoFuel, w) => (NoFuel, w)
  end.

Notation "x <-- m ; k" := (bind m (fun x => k)) (at level 100, m at next level, right associativity) : c_scope.

(** ** Volumes *)

(** [read(lba, count, buffer)]. *)
Definition fat_read_fn (W : Type) : Type := Z -> Z -> W -> option (list Z) * W.

Record fat_volume (W : Type) := {
  v_read : fat_read_fn W;
  start_lba : Z;
  total_sectors : Z;
  fat_start : Z;
  root_start : Z;
  data_start : Z;
  sectors_per_fat : Z;
  fat_count : Z;
  root_entries : Z;
  sectors_per_cluster : Z;
  cluster_count : Z;
  mounted : bool
}.
Arguments Build_fat_volume {W}.
Arguments v_read {W}. Arguments start_lba {W}. Arguments total_sectors {W}. Arguments fat_start {W}.
Arguments root_start {W}. Arguments data_start {W}. Arguments sectors_per_fat {W}.
Arguments fat_count {W}. Arguments root_entries {W}. Arguments sectors_per_cluster {W}.
Arguments cluster_count {W}. Arguments mounted {W}.

(** ** Little-endian fields *)

Definition read_u16 (data : list Z) (offset : Z) : Z :=
  Z.lor (arr data offset) (Z.shiftl (arr data (offset + 1)) 8).

Definition read_u32 (data : list Z) (offset : Z) : Z :=
  Z.lor (Z.lor (Z.lor (arr data offset) (shl32 (arr data (offset + 1)) 8))
    (shl32 (arr data (offset + 2)) 16)) (shl32 (arr data (offset + 3)) 24).

(** ** Names *)

Definition string_length (value : list Z) (limit : Z) : Z := Z.min limit (Z.of_nat (length value)).

(** The first loop of [short_name_from_text]: the position of the dot, [length] when there is
    none, [None] for the return value 0. *)
Fixpoint find_dot (text : list Z) (index length dot : Z) : option Z :=
  match text with
  | [] => Some dot
  | c :: text =>
      if c =? 46 then
        if negb (dot =? length) || (index =? 0) || (index + 1 =? length) then None
        else find_dot text (index + 1) length index
      else find_dot text (index + 1) length dot
  end.

Definition forbidden (c : Z) : bool :=
  (c <? 33) || (c =? 47) || (c =? 92) || (c =? 58) || (c =? 34) || (c =? 42) || (c =? 63) || (c =? 60) ||
  (c =? 62) || (c =? 124).

Definition upper (c : Z) : Z := if (97 <=? c) && (c <=? 122) then u8 (c - 32) else c.

(** The copying loop: the fields and the next output position. *)
Fixpoint copy_name (text : list Z) (output : Z) (short_name : list Z) : option (list Z * Z) :=
  match text with
  | [] => Some (short_name, output)
  | c :: text =>
      if c =? 46 then copy_name text 8 short_name else
      if forbidden c then None else
      if 11 <=? output then None else
      copy_name text (output + 1) (arr_set short_name output (upper c))
  end.

Definition short_name_from_text (text : list Z) : option (list Z) :=
  let length := string_length text 13 in
  if (length =? 0) || (13 <=? length) then None else
  match find_dot text 0 length length with
  | None => None
  | Some dot =>
      if (8 <? dot) || (negb (dot =? length) && (3 <? length - dot - 1)) then None else
      match copy_name text 0 (replicate 11 32) with
      | Some (short_name, output) => if output =? 0 then None else Some short_name
      | None => None
      end
  end.

Definition name_matches (entry short_name : list Z) : bool :=
  all_range 0 11 (fun index => arr entry index =? arr short_name index).

(** [for (; index < limit && entry[index] != ' '; index++)] with the bounded append. *)
Fixpoint append_field (n : nat) (index : Z) (entry name : list Z) (capacity : Z) : list Z :=
  match n with
  | O => name
  | S n =>
      if arr entry index =? 32 then name else
      append_field n (index + 1) entry
        (if Z.of_nat (length name) + 1 <? capacity then name ++ [arr entry index] else name) capacity
  end.

(** The text stored in [name], of which the caller's array had [capacity > 0] bytes. *)
Definition entry_to_text (entry : list Z) (capacity : Z) : list Z :=
  let name := append_field 8 0 entry [] capacity in
  if negb (arr entry 8 =? 32) && (Z.of_nat (length name) + 1 <? capacity)
  then append_field 3 8 entry (name ++ [46]) capacity
  else name.

Section volume.
Context {W : Type}.
Implicit Types (volume : fat_volume W) (w : W).

(** ** Sectors and the allocation table *)

Definition read_sector (volume : fat_volume W) (lba : Z) : M W (list Z) :=
  if negb (mounted volume) || (lba <? start_lba volume) || (total_sectors volume <=? lba -64 start_lba volume)
  then failed
  else fun w =>
    match v_read volume lba 1 w with
    | (Some sector, w) => (Ok sector, w)
    | (None, w) => (Failed, w)
    end.

(** The mirrors [fat_index .. fat_count - 1] agree with the first copy. *)
Fixpoint check_mirrors (n : nat) (fat_index : Z) (volume : fat_volume W) (offset : Z) (primary : list Z) :
    M W unit :=
  match n with
  | O => ret tt
  | S n =>
      mirror <-- read_sector volume
        (fat_start volume +64 (fat_index *32 sectors_per_fat volume) +64 offset / FAT_SECTOR_SIZE);
      if negb (arr mirror (offset mod FAT_SECTOR_SIZE) =? arr primary (offset mod FAT_SECTOR_SIZE)) ||
         negb (arr mirror (offset mod FAT_SECTOR_SIZE + 1) =? arr primary (offset mod FAT_SECTOR_SIZE + 1))
      then failed
      else check_mirrors n (fat_index + 1) volume offset primary
  end%C.

Definition read_fat_entry (volume : fat_volume W) (cluster : Z) : M W Z :=
  if (cluster <? 2) || (cluster_count volume +32 2 <=? cluster) then failed else
  let offset := cluster *32 2 in
  primary <-- read_sector volume (fat_start volume +64 offset / FAT_SECTOR_SIZE);
  (_ <-- check_mirrors (Z.to_nat (fat_count volume - 1)) 1 volume offset primary;
  let next_cluster := read_u16 primary (offset mod FAT_SECTOR_SIZE) in
  if negb (next_cluster =? FAT16_BAD) && (next_cluster <? FAT16_EOC) then ret next_cluster else failed)%C.

(** ** Directory search *)

Record fat_directory := { d_cluster : Z; d_root : bool }.

Definition candidate_at (sector : list Z) (item : Z) : list Z :=
  take 32 (drop (Z.to_nat (item * 32)) sector).

(** An entry the search passes over. *)
Definition skipped (candidate : list Z) : bool :=
  (arr candidate 0 =? 0xE5) || (arr candidate 11 =? FAT_ATTR_LFN) ||
  flag (arr candidate 11) FAT_ATTR_VOLUME_ID.

(** What scanning part of a directory leads to. *)
Inductive scan := Found (entry : list Z) | Stop | More.

(** The item loop over one sector, [n] items to go and [limit item] the loop condition. *)
Fixpoint scan_items (n : nat) (item : Z) (limit : Z -> bool) (short_name sector : list Z) : scan :=
  match n with
  | O => More
  | S n =>
      if negb (limit item) then More else
      let candidate := candidate_at sector item in
      if arr candidate 0 =? 0 then Stop else
      if skipped candidate then scan_items n (item + 1) limit short_name sector else
      if name_matches candidate short_name then Found candidate else
      scan_items n (item + 1) limit short_name sector
  end.

Definition directory_lba (volume : fat_volume W) (directory : fat_directory) (cluster sector_index : Z) : Z :=
  if d_root directory then root_start volume +64 sector_index
  else data_start volume +64 ((cluster -32 2) *32 sectors_per_cluster volume) +64 sector_index.

Definition item_in_directory (volume : fat_volume W) (directory : fat_directory) (sector_index item : Z) : bool :=
  if d_root directory then sector_index *32 16 +32 item <? root_entries volume else true.

(** The sector loop, [n] sectors to go. *)
Fixpoint scan_sectors (n : nat) (sector_index : Z) (volume : fat_volume W) (directory : fat_directory)
    (cluster : Z) (short_name : list Z) : M W scan :=
  match n with
  | O => ret More
  | S n =>
      sector <-- read_sector volume (directory_lba volume directory cluster sector_index);
      match scan_items 16 0 (item_in_directory volume directory sector_index) short_name sector with
      | More => scan_sectors n (sector_index + 1) volume directory cluster short_name
      | r => ret r
      end
  end%C.

Definition directory_sectors (volume : fat_volume W) (directory : fat_directory) : Z :=
  if d_root directory then (root_entries volume +32 15) / 16 else sectors_per_cluster volume.

(** The outer loop: [guard] clusters have been left behind. *)
Fixpoint scan_clusters (fuel : nat) (guard : Z) (volume : fat_volume W) (directory : fat_directory)
    (cluster : Z) (short_name : list Z) : M W (list Z) :=
  match fuel with
  | O => no_fuel
  | S fuel =>
      r <-- scan_sectors (Z.to_nat (directory_sectors volume directory)) 0 volume directory cluster short_name;
      match r with
      | Found entry => ret entry
      | Stop => failed
      | More =>
          if d_root directory then failed else
          cluster <-- read_fat_entry volume cluster;
          let guard := guard +32 1 in
          if cluster_count volume <=? guard then failed
          else scan_clusters fuel guard volume directory cluster short_name
      end
  end%C.

Definition find_entry_in_directory (volume : fat_volume W) (directory : fat_directory)
    (short_name : list Z) : M W (list Z) :=
  if negb (d_root directory) && ((d_cluster directory <? 2) ||
       (cluster_count volume +32 2 <=? d_cluster directory))
  then failed
  else scan_clusters (Z.to_nat (cluster_count volume) + 1) 0 volume directory (d_cluster directory) short_name.

(** ** Paths *)

(** The characters up to the next slash or the end, and what is left from there. *)
Fixpoint take_component (path : list Z) : list Z * list Z :=
  match path with
  | [] => ([], [])
  | c :: path' =>
      if c =? 47 then ([], path)
      else let '(component, rest) := take_component path' in (c :: component, rest)
  end.

(** One turn per component; [component] has room for twelve characters and the terminator. *)
Fixpoint find_components (fuel : nat) (volume : fat_volume W) (directory : fat_directory) (path : list Z) :
    M W (list Z) :=
  match fuel with
  | O => no_fuel
  | S fuel =>
      let '(component, rest) := take_component path in
      if (12 <? Z.of_nat (length component)) || (Z.of_nat (length component) =? 0) then failed else
      match short_name_from_text component with
      | None => failed
      | Some short_name =>
          entry <-- find_entry_in_directory volume directory short_name;
          match rest with
          | [] => ret entry
          | _ :: rest =>
              if negb (flag (arr entry 11) FAT_ATTR_DIRECTORY) then failed else
              let cluster := read_u16 entry 26 in
              if (cluster <? 2) || (cluster_count volume +32 2 <=? cluster) then failed else
              match rest with
              | [] => failed
              | _ => find_components fuel volume (Build_fat_directory cluster false) rest
              end
          end
      end
  end%C.

Definition find_path (volume : fat_volume W) (path : list Z) : M W (list Z) :=
  match path with
  | c :: _ => if c =? 47 then failed
              else find_components (length path) volume (Build_fat_directory 0 true) path
  | [] => find_components 1 volume (Build_fat_directory 0 true) path
  end.

(** ** Mounting *)

(** The header check of the table copies: [fat_lba] is a 32-bit variable. *)
Fixpoint check_fats (n : nat) (fat_index : Z) (read : fat_read_fn W)
    (start reserved sectors_per_fat' media_descriptor : Z) (w : W) : bool * W :=
  match n with
  | O => (true, w)
  | S n =>
      let fat_lba := u32 (start +64 reserved +64 (fat_index *32 sectors_per_fat')) in
      match read fat_lba 1 w with
      | (None, w) => (false, w)
      | (Some fat_header, w) =>
          if negb (arr fat_header 0 =? media_descriptor) || negb (arr fat_header 1 =? 0xFF) ||
             negb (arr fat_header 2 =? 0xFF) then (false, w)
          else check_fats n (fat_index + 1) read start reserved sectors_per_fat' media_descriptor w
      end
  end.

(** The fields [fat_mount] takes from the boot sector. *)
Definition boot_total_sectors (boot : list Z) : Z :=
  let total_sectors := read_u16 boot 19 in
  if total_sectors =? 0 then read_u32 boot 32 else total_sectors.

Definition boot_bad_geometry (boot : list Z) : bool :=
  let sectors_per_cluster := arr boot 13 in
  negb (read_u16 boot 11 =? FAT_SECTOR_SIZE) || (arr boot 21 <? 0xF0) || (sectors_per_cluster =? 0) ||
  (128 <? sectors_per_cluster) || flag sectors_per_cluster (sectors_per_cluster -32 1) ||
  (read_u16 boot 14 =? 0) || (arr boot 16 =? 0) || (read_u16 boot 17 =? 0) || (read_u16 boot 22 =? 0) ||
  (boot_total_sectors boot =? 0).

(** Success, the volume and [last_error]. *)
Definition fat_mount (read : fat_read_fn W) (start : Z) (volume : fat_volume W) (w : W) :
    (bool * fat_volume W * Z) * W :=
  let volume := Build_fat_volume read start (total_sectors volume) (fat_start volume) (root_start volume)
    (data_start volume) (sectors_per_fat volume) (fat_count volume) (root_entries volume)
    (sectors_per_cluster volume) (cluster_count volume) false in
  match read start 1 w with
  | (None, w) => ((false, volume, 2), w)
  | (Some boot, w) =>
      if negb (arr boot 510 =? 0x55) || negb (arr boot 511 =? 0xAA) then ((false, volume, 3), w) else
      let sectors_per_cluster := arr boot 13 in
      let reserved := read_u16 boot 14 in
      let fats := arr boot 16 in
      let root_entries := read_u16 boot 17 in
      let sectors_per_fat := read_u16 boot 22 in
      let media_descriptor := arr boot 21 in
      let total_sectors := boot_total_sectors boot in
      if boot_bad_geometry boot then ((false, volume, 4), w) else
      let root_sectors := (root_entries *32 32 +32 FAT_SECTOR_SIZE -32 1) / FAT_SECTOR_SIZE in
      if total_sectors <=? reserved +32 (fats *32 sectors_per_fat) +32 root_sectors
      then ((false, volume, 5), w) else
      let data_sectors := total_sectors -32 reserved -32 (fats *32 sectors_per_fat) -32 root_sectors in
      let cluster_count := data_sectors / sectors_per_cluster in
      let fat_entry_capacity := (sectors_per_fat *32 FAT_SECTOR_SIZE) / 2 in
      if (data_sectors =? 0) || (cluster_count <? 4085) || (65525 <=? cluster_count) ||
         (fat_entry_capacity <? cluster_count +32 2) then ((false, volume, 6), w) else
      if UINT64_MAX -64 (total_sectors -64 1) <? start then ((false, volume, 7), w) else
      let '(ok, w) := check_fats (Z.to_nat fats) 0 read start reserved sectors_per_fat media_descriptor w in
      if negb ok then ((false, volume, 8), w) else
      let fat_start := start +64 reserved in
      let root_start := fat_start +64 (fats *32 sectors_per_fat) in
      let data_start := root_start +64 root_sectors in
      ((true, Build_fat_volume read start total_sectors fat_start root_start data_start sectors_per_fat fats
                root_entries sectors_per_cluster cluster_count true, 0), w)
  end.

(** ** Listing the root directory *)

(** A file that is listed. *)
Definition listed (entry : list Z) : bool :=
  negb (arr entry 0 =? 0xE5) && negb (arr entry 11 =? FAT_ATTR_LFN) &&
  negb (flag (arr entry 11) (Z.lor FAT_ATTR_DIRECTORY FAT_ATTR_VOLUME_ID)).

(** The item loop of [fat_file_count]: the count, and whether an end marker was met. *)
Fixpoint count_items (n : nat) (item sector_index : Z) (volume : fat_volume W) (sector : list Z) (count : Z) :
    Z * bool :=
  match n with
  | O => (count, false)
  | S n =>
      if negb (sector_index *32 16 +32 item <? root_entries volume) then (count, false) else
      let entry := candidate_at sector item in
      if arr entry 0 =? 0 then (count, true) else
      count_items n (item + 1) sector_index volume sector (if listed entry then count +32 1 else count)
  end.

Fixpoint count_sectors (n : nat) (sector_index : Z) (volume : fat_volume W) (count : Z) (w : W) : Z * W :=
  match n with
  | O => (count, w)
  | S n =>
      match read_sector volume (root_start volume +64 sector_index) w with
      | (Ok sector, w) =>
          match count_items 16 0 sector_index volume sector count with
          | (count, true) => (count, w)
          | (count, false) => count_sectors n (sector_index + 1) volume count w
          end
      | (_, w) => (count, w)
      end
  end.

Definition fat_file_count (volume : fat_volume W) (w : W) : Z * W :=
  if negb (mounted volume) then (0, w) else
  count_sectors (Z.to_nat ((root_entries volume +32 15) / 16)) 0 volume 0 w.

(** The item loop of [fat_file_name]: the entry wanted, an end marker, or the count so far. *)
Fixpoint name_items (n : nat) (item sector_index index : Z) (volume : fat_volume W) (sector : list Z) (count : Z) :
    Z * scan :=
  match n with
  | O => (count, More)
  | S n =>
      if negb (sector_index *32 16 +32 item <? root_entries volume) then (count, More) else
      let entry := candidate_at sector item in
      if arr entry 0 =? 0 then (count, Stop) else
      if negb (listed entry) then name_items n (item + 1) sector_index index volume sector count else
      if count =? index then (count, Found entry) else
      name_items n (item + 1) sector_index index volume sector (count +32 1)
  end.

Fixpoint name_sectors (n : nat) (sector_index index : Z) (volume : fat_volume W) (count : Z) : M W (list Z) :=
  match n with
  | O => failed
  | S n =>
      sector <-- read_sector volume (root_start volume +64 sector_index);
      match name_items 16 0 sector_index index volume sector count with
      | (_, Found entry) => ret entry
      | (_, Stop) => failed
      | (count, More) => name_sectors n (sector_index + 1) index volume count
      end
  end%C.

Definition fat_file_name (volume : fat_volume W) (index capacity : Z) : M W (list Z) :=
  if negb (mounted volume) || (capacity =? 0) then failed else
  (entry <-- name_sectors (Z.to_nat ((root_entries volume +32 15) / 16)) 0 index volume 0;
   ret (entry_to_text entry capacity))%C.

(** ** Reading a file *)

(** The bytes stored in the caller's buffer so far, which stay there when the read fails, and
    whether it goes on. *)
Record transfer := { output : list Z; remaining : Z }.

Fixpoint read_cluster (n : nat) (sector_index : Z) (volume : fat_volume W) (cluster : Z) (t : transfer)
    (w : W) : outcome unit * transfer * W :=
  match n with
  | O => (Ok tt, t, w)
  | S n =>
      if remaining t =? 0 then (Ok tt, t, w) else
      match read_sector volume
              (data_start volume +64 ((cluster -32 2) *32 sectors_per_cluster volume) +64 sector_index) w with
      | (Ok sector, w) =>
          let amount := if remaining t <? FAT_SECTOR_SIZE then remaining t else FAT_SECTOR_SIZE in
          read_cluster n (sector_index + 1) volume cluster
            (Build_transfer (output t ++ take (Z.to_nat amount) sector) (remaining t -32 amount)) w
      | (_, w) => (Failed, t, w)
      end
  end.

Fixpoint read_clusters (fuel : nat) (guard : Z) (volume : fat_volume W) (cluster : Z) (t : transfer) (w : W) :
    outcome unit * transfer * W :=
  if remaining t =? 0 then (Ok tt, t, w) else
  match fuel with
  | O => (NoFuel, t, w)
  | S fuel =>
      if (cluster <? 2) || (cluster_count volume +32 2 <=? cluster) || (cluster_count volume <=? guard)
      then (Failed, t, w) else
      match read_cluster (Z.to_nat (sectors_per_cluster volume)) 0 volume cluster t w with
      | (Ok _, t, w) =>
          if remaining t =? 0 then (Ok tt, t, w) else
          match read_fat_entry volume cluster w with
          | (Ok next_cluster, w) => read_clusters fuel (guard +32 1) volume next_cluster t w
          | (_, w) => (Failed, t, w)
          end
      | (r, t, w) => (r, t, w)
      end
  end.

(** The bytes stored in the buffer and the reported size. *)
Record read_result := { outcome_ : outcome unit; written : list Z; size : Z }.

Definition read_fails (t : list Z) : read_result := Build_read_result Failed t 0.

Definition fat_read_file (volume : fat_volume W) (name : list Z) (capacity : Z) (w : W) : read_result * W :=
  if negb (mounted volume) then (read_fails [], w) else
  match find_path volume name w with
  | (Failed, w) => (read_fails [], w)
  | (NoFuel, w) => (Build_read_result NoFuel [] 0, w)
  | (Ok entry, w) =>
      if flag (arr entry 11) (Z.lor (Z.lor FAT_ATTR_DIRECTORY FAT_ATTR_VOLUME_ID) FAT_ATTR_LFN)
      then (read_fails [], w) else
      let remaining := read_u32 entry 28 in
      let max_sectors := cluster_count volume *32 sectors_per_cluster volume in
      if (capacity <? remaining) || (max_sectors <? remaining / FAT_SECTOR_SIZE) ||
         (negb (remaining mod FAT_SECTOR_SIZE =? 0) && (max_sectors <=? remaining / FAT_SECTOR_SIZE))
      then (read_fails [], w) else
      let cluster := read_u16 entry 26 in
      if remaining =? 0 then
        (if negb (cluster =? 0) then read_fails [] else Build_read_result (Ok tt) [] 0, w) else
      match read_clusters (Z.to_nat (cluster_count volume) + 1) 0 volume cluster (Build_transfer [] remaining) w with
      | (Ok _, t, w) => (Build_read_result (Ok tt) (output t) (Z.of_nat (length (output t))), w)
      | (r, t, w) => (Build_read_result r (output t) 0, w)
      end
  end.

End volume.
