(* ===== verification/FatSpec.v ===== *)
(** * FAT16: what a volume contains

    The layout invariant [fat_mount] establishes, the contents of a volume as pure functions of
    its sectors (allocation table, cluster chains, directory listings, files), and the proof that
    the code of [fs/fat.c] computes them, whatever transfers fail on the way. *)

From S2P Require Import Prelude Fat.
Local Open Scope c_scope.
Local Open Scope Z_scope.

(** ** Layout *)

Record volume_wf {W} (v : fat_volume W) : Prop := {
  wf_start : 0 <= start_lba v;
  wf_end : start_lba v + total_sectors v <= 18446744073709551616;
  wf_total : 0 < total_sectors v < 4294967296;
  wf_reserved : start_lba v < fat_start v;
  wf_fats : 1 <= fat_count v <= 255;
  wf_fat_size : 1 <= sectors_per_fat v <= 65535;
  wf_root : root_start v = fat_start v + fat_count v * sectors_per_fat v;
  wf_entries : 1 <= root_entries v <= 65535;
  wf_data : data_start v = root_start v + (root_entries v + 15) / 16;
  wf_cluster : 1 <= sectors_per_cluster v <= 128;
  wf_clusters : 4085 <= cluster_count v < 65525;
  wf_data_end : data_start v + cluster_count v * sectors_per_cluster v <= start_lba v + total_sectors v;
  wf_slack : start_lba v + total_sectors v < data_start v + (cluster_count v + 1) * sectors_per_cluster v;
  wf_capacity : 2 * (cluster_count v + 2) <= 512 * sectors_per_fat v
}.

(** ** Contents *)

Section contents.
Context {W : Type} (v : fat_volume W) (disk : Z -> list Z).

Definition in_volume (lba : Z) : Prop := start_lba v <= lba < start_lba v + total_sectors v.

Definition valid_cluster (c : Z) : Prop := 2 <= c < cluster_count v + 2.

(** Entry [c] of copy [k] of the allocation table. *)
Definition fat_value (k c : Z) : Z :=
  let sector := disk (fat_start v + k * sectors_per_fat v + 2 * c / 512) in
  arr sector (2 * c mod 512) + 256 * arr sector (2 * c mod 512 + 1).

(** The cluster after [c]: all copies agree on a value that is neither an end mark nor bad. *)
Definition next_cluster (c : Z) : option Z :=
  if decide (valid_cluster c /\ Forall (fun k => fat_value k c = fat_value 0 c) (seqZ 1 (fat_count v - 1)) /\
             fat_value 0 c < 0xFFF7)
  then Some (fat_value 0 c) else None.

(** The first [n] clusters of the chain from [c]. *)
Fixpoint chain (n : nat) (c : Z) : option (list Z) :=
  match n with
  | O => Some []
  | S n =>
      if decide (valid_cluster c) then
        match n with
        | O => Some [c]
        | S _ => c' ← next_cluster c; cs ← chain n c'; Some (c :: cs)
        end
      else None
  end.

Definition cluster_lbas (c : Z) : list Z :=
  seqZ (data_start v + (c - 2) * sectors_per_cluster v) (sectors_per_cluster v).

Definition sectors_bytes (lbas : list Z) : list Z := concat (disk <$> lbas).

(** Directories *)

Inductive directory := Root | Sub (c : Z).

(** The clusters a directory search visits: until the chain ends, at most as many as there are.
    A successor beyond the last cluster is visited too: its sectors are read as far as they lie
    in the volume. *)
Fixpoint dir_chain (n : nat) (c : Z) : list Z :=
  match n with
  | O => []
  | S n =>
      c :: match next_cluster c with
           | Some c' => if 2 <=? c' then dir_chain n c' else []
           | None => []
           end
  end.

Fixpoint take_while {A} (p : A -> bool) (l : list A) : list A :=
  match l with
  | [] => []
  | x :: l => if p x then x :: take_while p l else []
  end.

Definition readable (lba : Z) : bool := (start_lba v <=? lba) && (lba <? start_lba v + total_sectors v).

Definition entries_of (sector : list Z) : list (list Z) := candidate_at sector <$> seqZ 0 16.

Definition listing (d : directory) : list (list Z) :=
  match d with
  | Root => take (Z.to_nat (root_entries v))
              (concat (entries_of ∘ disk <$> seqZ (root_start v) ((root_entries v + 15) / 16)))
  | Sub c => concat (entries_of ∘ disk <$>
               take_while readable (concat (cluster_lbas <$> dir_chain (Z.to_nat (cluster_count v)) c)))
  end.

Definition live (short : list Z) (e : list Z) : bool := negb (skipped e) && name_matches e short.

Definition lookup_short (short : list Z) (l : list (list Z)) : option (list Z) :=
  find (live short) (take_while (fun e => negb (arr e 0 =? 0)) l).

(** Paths *)

Fixpoint split_path (path : list Z) : list (list Z) :=
  match path with
  | [] => [[]]
  | c :: path =>
      if c =? 47 then [] :: split_path path
      else match split_path path with
           | comp :: comps => (c :: comp) :: comps
           | [] => [[c]]
           end
  end.

Fixpoint walk (d : directory) (comps : list (list Z)) : option (list Z) :=
  match comps with
  | [] => None
  | comp :: comps =>
      short ← short_name_from_text comp;
      e ← lookup_short short (listing d);
      match comps with
      | [] => Some e
      | _ => if decide (flag (arr e 11) 0x10 = true /\ valid_cluster (read_u16 e 26))
             then walk (Sub (read_u16 e 26)) comps else None
      end
  end.

(** Files *)

Definition file_bytes (e : list Z) : option (list Z) :=
  let n := read_u32 e 28 in
  let per := 512 * sectors_per_cluster v in
  if decide (flag (arr e 11) 0x1F = false /\ n <= cluster_count v * per) then
    if n =? 0 then if read_u16 e 26 =? 0 then Some [] else None else
    cs ← chain (Z.to_nat ((n + per - 1) / per)) (read_u16 e 26);
    Some (take (Z.to_nat n) (sectors_bytes (concat (cluster_lbas <$> cs))))
  else None.

Definition file_contents (path : list Z) : option (list Z) := walk Root (split_path path) ≫= file_bytes.

End contents.

(** ** Lists *)

Lemma take_while_app_all {A} (p : A -> bool) l1 l2 : (forall x, x ∈ l1 -> p x = true) ->
  take_while p (l1 ++ l2) = l1 ++ take_while p l2.
Proof.
  induction l1 as [|x l1 IH]; intros H; [done|]. cbn. rewrite H by left.
  f_equal. apply IH. intros y Hy. apply H. by right.
Qed.

(** Scanning entries in order: the search of the code on a list. *)
Fixpoint scan_list (short : list Z) (l : list (list Z)) : scan :=
  match l with
  | [] => More
  | e :: l => if arr e 0 =? 0 then Stop else if skipped e then scan_list short l else
              if name_matches e short then Found e else scan_list short l
  end.

Lemma scan_list_lookup short l1 l2 :
  lookup_short short (l1 ++ l2) =
  match scan_list short l1 with
  | Found e => Some e
  | Stop => None
  | More => lookup_short short l2
  end.
Proof.
  unfold lookup_short. induction l1 as [|e l1 IH]; [done|]. cbn.
  destruct (arr e 0 =? 0); [done|]. cbn. unfold live at 1.
  destruct (skipped e); [done|]. cbn. by destruct (name_matches e short).
Qed.

Lemma scan_list_app short l1 l2 :
  scan_list short (l1 ++ l2) = match scan_list short l1 with More => scan_list short l2 | r => r end.
Proof.
  induction l1 as [|e l1 IH]; [done|]. cbn. destruct (arr e 0 =? 0); [done|].
  destruct (skipped e); [done|]. by destruct (name_matches e short).
Qed.

Lemma scan_items_list n item limit short sector k : 0 <= item ->
  (forall j, item <= j < item + Z.of_nat n -> limit j = true <-> j < item + Z.of_nat k) ->
  scan_items n item limit short sector =
  scan_list short (take k (candidate_at sector <$> seqZ item (Z.of_nat n))).
Proof.
  revert item k. induction n as [|n IH]; intros item k Hi H; [by destruct k|].
  rewrite seqZ_cons by lia. cbn [scan_items fmap list_fmap].
  pose proof (H item ltac:(lia)) as H0. destruct k as [|k].
  { destruct (limit item); [|done]. exfalso. destruct H0 as [H0 _]. specialize (H0 eq_refl). lia. }
  rewrite (proj2 H0) by lia. cbn [negb take scan_list].
  rewrite (IH (item + 1) k) by (try lia; intros j Hj; rewrite (H j) by lia; lia).
  unfold Z.succ. replace (Z.pred (Z.of_nat (S n))) with (Z.of_nat n) by lia. done.
Qed.

(** ** Computations against contents *)

Section refinement.
Context {W : Type} (v : fat_volume W) (disk : Z -> list Z) (working : bool).

(** A computation agrees with a pure result: a value returned is that result, the fuel suffices,
    and on a working device a failure means there is no result. *)
Definition refines {A} (m : M W A) (p : option A) : Prop := forall w,
  match fst (m w) with
  | Ok a => p = Some a
  | Failed => working = true -> p = None
  | NoFuel => False
  end.

Lemma refines_ret {A} (a : A) : refines (ret a) (Some a).
Proof. by intros w. Qed.

Lemma refines_failed {A} : refines (@failed W A) None.
Proof. by intros w. Qed.

Lemma refines_bind {A B} (m : M W A) (f : A -> M W B) p (g : A -> option B) :
  refines m p -> (forall a, p = Some a -> refines (f a) (g a)) -> refines (bind m f) (p ≫= g).
Proof.
  intros Hm Hf w. unfold bind. specialize (Hm w). destruct (m w) as [[a| |] w']; cbn in *.
  - subst p. by apply Hf.
  - intros Hw. by rewrite Hm.
  - done.
Qed.

Lemma refines_bind_some {A B} (m : M W A) (f : A -> M W B) a q :
  refines m (Some a) -> refines (f a) q -> refines (bind m f) q.
Proof.
  intros H1 H2 w. specialize (H1 w). unfold bind. destruct (m w) as [[a'| |] w']; cbn in *.
  - injection H1 as <-. apply H2.
  - intros Hw. discriminate (H1 Hw).
  - done.
Qed.

Lemma refines_ext {A} (m : M W A) p q : refines m p -> p = q -> refines m q.
Proof. by intros H ->. Qed.

Context (Hwf : volume_wf v) (Hm : mounted v = true).
Context (Hdisk : forall lba, length (disk lba) = 512%nat /\ bytes_ok (disk lba)).
Context (Hread : forall lba w, in_volume v lba ->
  match fst (v_read v lba 1 w) with Some s => s = disk lba | None => working = false end).

Lemma readable_spec lba : readable v lba = true <-> in_volume v lba.
Proof. unfold readable, in_volume. lia. Qed.

Lemma read_sector_refines lba : is_u64 lba ->
  refines (read_sector v lba) (if readable v lba then Some (disk lba) else None).
Proof.
  intros Hl. destruct Hwf. unfold read_sector, is_u64 in *. rewrite Hm. cbn [negb orb].
  destruct (readable v lba) eqn:E.
  - apply readable_spec in E. pose proof E as [? ?]. rewrite u64_id by (unfold is_u64; lia).
    replace (_ || _) with false by lia. intros w. specialize (Hread lba w E).
    destruct (v_read v lba 1 w) as [[s|] w']; cbn in *; [by subst|]. intros ->. discriminate.
  - replace (_ || _) with true; [apply refines_failed|]. unfold readable, u64 in *. dmlia.
Qed.

Lemma read_in_volume lba : in_volume v lba -> refines (read_sector v lba) (Some (disk lba)).
Proof.
  intros H. pose proof (wf_start _ Hwf). pose proof (wf_end _ Hwf). unfold in_volume in H.
  eapply refines_ext; [apply read_sector_refines; unfold is_u64; lia|].
  by rewrite (proj2 (readable_spec lba)).
Qed.

(** *** The allocation table *)

Lemma disk_byte lba i : is_u8 (arr (disk lba) i).
Proof. apply arr_u8, Hdisk. Qed.

(** The sector of copy [k] that holds entry [c]. *)
Lemma fat_sector k c : 0 <= k < fat_count v -> valid_cluster v c ->
  in_volume v (fat_start v + k * sectors_per_fat v + 2 * c / 512) /\
  fat_start v +64 (k *32 sectors_per_fat v) +64 2 * c / 512 =
  fat_start v + k * sectors_per_fat v + 2 * c / 512.
Proof.
  intros Hk Hc. destruct Hwf as [Hs He Ht Hr Hf Hz Hroot Hre Hd Hsc Hcc Hde _ Hcap].
  assert (Hks : 0 <= k * sectors_per_fat v /\
    k * sectors_per_fat v + sectors_per_fat v <= fat_count v * sectors_per_fat v) by (clear - Hk Hz; nia).
  assert (Hfs : fat_count v * sectors_per_fat v <= 255 * 65535) by (clear - Hf Hz; nia).
  assert (0 <= 2 * c / 512 < sectors_per_fat v) by (unfold valid_cluster in Hc; dmlia).
  assert (Hcs : 0 <= cluster_count v * sectors_per_cluster v) by (clear - Hcc Hsc; nia).
  assert (0 <= (root_entries v + 15) / 16) by dmlia.
  unfold in_volume. rewrite (u32_id (k * _)) by (unfold is_u32; lia).
  rewrite (u64_id (fat_start v + _)) by (unfold is_u64; lia).
  rewrite u64_id by (unfold is_u64; lia). lia.
Qed.

Lemma fat_sector_primary c : valid_cluster v c ->
  in_volume v (fat_start v + 2 * c / 512) /\
  fat_start v +64 2 * c / 512 = fat_start v + 2 * c / 512.
Proof.
  intros Hc. destruct (fat_sector 0 c ltac:(pose proof (wf_fats _ Hwf); lia) Hc) as [H1 H2].
  rewrite Z.mul_0_l, Z.add_0_r in H1. split; [done|].
  pose proof (wf_start _ Hwf). pose proof (wf_end _ Hwf). unfold in_volume in H1.
  apply u64_id. unfold is_u64. lia.
Qed.

Lemma check_mirrors_refines n i c : 1 <= i -> i + Z.of_nat n <= fat_count v -> valid_cluster v c ->
  refines (check_mirrors n i v (2 * c) (disk (fat_start v + 2 * c / 512)))
    (if decide (Forall (fun k => fat_value v disk k c = fat_value v disk 0 c) (seqZ i (Z.of_nat n)))
     then Some tt else None).
Proof.
  revert i. induction n as [|n IH]; intros i Hi Hn Hc.
  { cbn. rewrite decide_True by apply Forall_nil_2. apply refines_ret. }
  rewrite seqZ_cons by lia. cbn [check_mirrors]. unfold FAT_SECTOR_SIZE.
  destruct (fat_sector i c ltac:(lia) Hc) as [Hv Heq]. rewrite Heq.
  eapply refines_bind_some; [by apply read_in_volume|].
  set (mirror := disk _). set (primary := disk _).
  assert (Hval : fat_value v disk i c = fat_value v disk 0 c <->
    arr mirror (2 * c mod 512) = arr primary (2 * c mod 512) /\
    arr mirror (2 * c mod 512 + 1) = arr primary (2 * c mod 512 + 1)).
  { unfold fat_value. rewrite Z.mul_0_l, Z.add_0_r. fold mirror primary.
    pose proof (disk_byte (fat_start v + i * sectors_per_fat v + 2 * c / 512) (2 * c mod 512)) as H1.
    pose proof (disk_byte (fat_start v + 2 * c / 512) (2 * c mod 512)) as H2.
    fold mirror primary in H1, H2. unfold is_u8 in *. lia. }
  case_if.
  - rewrite decide_False; [apply refines_failed|]. intros H%Forall_inv. apply Hval in H. lia.
  - eapply refines_ext; [apply IH; [lia|lia|done]|].
    unfold Z.succ. replace (Z.pred (Z.of_nat (S n))) with (Z.of_nat n) by lia.
    split_bools. apply decide_ext. rewrite Forall_cons_iff, Hval. split; [split; [lia|done]|by intros [_ ?]].
Qed.

Lemma read_fat_entry_refines c : 0 <= c -> refines (read_fat_entry v c) (next_cluster v disk c).
Proof.
  intros Hc0. unfold read_fat_entry. rewrite (u32_id (cluster_count v + 2))
    by (pose proof (wf_clusters _ Hwf); unfold is_u32; lia).
  case_if.
  { unfold next_cluster. rewrite decide_False; [apply refines_failed|].
    unfold valid_cluster. lia. }
  split_bools. assert (Hc : valid_cluster v c) by (unfold valid_cluster; lia).
  pose proof (wf_clusters _ Hwf). unfold valid_cluster in Hc.
  rewrite (u32_id (c * 2)) by (unfold is_u32; lia). rewrite (Z.mul_comm c 2). unfold FAT_SECTOR_SIZE.
  destruct (fat_sector_primary c Hc) as [Hv ->].
  eapply refines_bind_some; [by apply read_in_volume|].
  eapply refines_ext.
  { eapply refines_bind; [apply check_mirrors_refines; [lia|pose proof (wf_fats _ Hwf); lia|done]|].
    intros [] _. instantiate (1 := fun _ => if fat_value v disk 0 c <? 0xFFF7 then Some (fat_value v disk 0 c) else None).
    cbn beta. unfold read_u16, FAT16_BAD, FAT16_EOC. rewrite lor_shl8 by apply disk_byte.
    unfold fat_value. rewrite Z.mul_0_l, Z.add_0_r.
    case_if; case_if; split_bools; try lia; [apply refines_ret|apply refines_failed]. }
  pose proof (wf_fats _ Hwf). unfold next_cluster. replace (Z.of_nat (Z.to_nat (fat_count v - 1))) with (fat_count v - 1) by lia.
  set (P := Forall _ _). destruct (decide P) as [HP|HP]; cbn [mbind option_bind].
  - case_decide as Hcond; case_if; try done; exfalso; split_bools; [lia|].
    apply Hcond. split; [done|]. split; [done|lia].
  - rewrite decide_False; [done|]. intros (_ & ? & _). done.
Qed.

(** *** Sectors of a cluster *)

Definition cluster_lba (c i : Z) : Z :=
  data_start v +64 ((c -32 2) *32 sectors_per_cluster v) +64 i.

(** The 64-bit address of a cluster's sector reads what the unbounded one designates. *)
Lemma cluster_read c i : 2 <= c < 65536 -> 0 <= i < sectors_per_cluster v ->
  let lba := data_start v + (c - 2) * sectors_per_cluster v + i in
  refines (read_sector v (cluster_lba c i)) (if readable v lba then Some (disk lba) else None).
Proof.
  intros Hc Hi lba. destruct Hwf as [Hs He Ht Hr Hf Hz Hroot Hre Hd Hsc Hcc Hde Hsl Hcap].
  assert (Hm1 : 0 <= (c - 2) * sectors_per_cluster v <= 65534 * 128) by (clear - Hc Hsc; nia).
  assert (Hm2 : 0 <= cluster_count v * sectors_per_cluster v) by (clear - Hcc Hsc; nia).
  assert (Hm3 : 0 <= fat_count v * sectors_per_fat v) by (clear - Hf Hz; nia).
  assert (0 <= (root_entries v + 15) / 16) by dmlia.
  unfold cluster_lba. rewrite (u32_id (c - 2)) by (unfold is_u32; lia).
  rewrite (u32_id ((c - 2) * _)) by (unfold is_u32; lia).
  replace (u64 (u64 _ + i)) with (u64 lba) by (unfold u64; rewrite Zplus_mod_idemp_l; done).
  destruct (decide (lba < 18446744073709551616)) as [Hlt|Hge].
  { rewrite u64_id by (unfold is_u64; lia). apply read_sector_refines. unfold is_u64. lia. }
  replace (readable v lba) with false by (unfold readable; lia).
  eapply refines_ext; [apply read_sector_refines, u64_range|].
  replace (readable v (u64 lba)) with false; [done|].
  replace (u64 lba) with (lba - 18446744073709551616) by (unfold u64; dmlia). unfold readable. lia.
Qed.

(** Cluster numbers 0 and 1 lead outside the volume. *)
Lemma cluster_read_low c : 0 <= c < 2 -> refines (read_sector v (cluster_lba c 0)) None.
Proof.
  intros Hc. destruct Hwf as [Hs He Ht Hr Hf Hz Hroot Hre Hd Hsc Hcc Hde Hsl Hcap].
  assert (Hm2 : 0 <= cluster_count v * sectors_per_cluster v <= 65525 * 128) by (clear - Hcc Hsc; nia).
  assert (Hm3 : 0 <= fat_count v * sectors_per_fat v) by (clear - Hf Hz; nia).
  assert (0 <= (root_entries v + 15) / 16) by dmlia.
  eapply refines_ext; [apply read_sector_refines, u64_range|].
  set (x := (c -32 2) *32 sectors_per_cluster v).
  assert (Hx : x = 4294967296 - (2 - c) * sectors_per_cluster v).
  { unfold x. replace (c -32 2) with (4294967296 - (2 - c)) by (unfold u32; dmlia).
    unfold u32. symmetry. apply Z.mod_unique_pos with (sectors_per_cluster v - 1);
      assert (c = 0 \/ c = 1) as [-> | ->] by lia; lia. }
  assert (4294967296 - 256 <= x < 4294967296) by (assert (c = 0 \/ c = 1) as [-> | ->] by lia; lia).
  unfold cluster_lba. fold x. rewrite Z.add_0_r. rewrite (u64_id (u64 _)) by apply u64_range.
  replace (readable v (u64 (data_start v + x))) with false; [done|]. clear - Hs He Ht Hsl Hroot Hd Hm2 Hm3 H H0 Hr Hsc Hde.
  symmetry. unfold readable. rewrite Z.mul_add_distr_r in Hsl.
  destruct (decide (data_start v + x < 18446744073709551616)).
  - rewrite u64_id by (unfold is_u64; lia). lia.
  - replace (u64 _) with (data_start v + x - 18446744073709551616) by (unfold u64; dmlia). lia.
Qed.

(** *** Directories *)

Fixpoint scan_lbas (short : list Z) (lbas : list Z) : option scan :=
  match lbas with
  | [] => Some More
  | lba :: lbas =>
      if readable v lba then
        match scan_list short (entries_of (disk lba)) with
        | More => scan_lbas short lbas
        | r => Some r
        end
      else None
  end.

Definition entries_at (lbas : list Z) : list (list Z) := concat (entries_of ∘ disk <$> take_while (readable v) lbas).

Lemma scan_lbas_lookup short l1 l2 :
  lookup_short short (entries_at (l1 ++ l2)) =
  match scan_lbas short l1 with
  | Some (Found e) => Some e
  | Some More => lookup_short short (entries_at l2)
  | _ => None
  end.
Proof.
  unfold entries_at. induction l1 as [|lba l1 IH]; [done|]. cbn [app take_while scan_lbas].
  destruct (readable v lba); [|done]. rewrite fmap_cons. cbn [concat]. rewrite scan_list_lookup.
  change ((entries_of ∘ disk) lba) with (entries_of (disk lba)).
  by destruct (scan_list short (entries_of (disk lba))).
Qed.

Lemma entries_scan limit short sector : (forall j, 0 <= j < 16 -> limit j = true) ->
  scan_items 16 0 limit short sector = scan_list short (entries_of sector).
Proof.
  intros H. rewrite (scan_items_list 16 0 limit short sector 16) by (try lia; intros j Hj; rewrite H by lia; lia).
  unfold entries_of. rewrite take_ge; [done|]. rewrite length_fmap, length_seqZ. lia.
Qed.

Lemma scan_sectors_sub n i c d short : 2 <= c < 65536 -> 0 <= i ->
  i + Z.of_nat n <= sectors_per_cluster v -> d_root d = false ->
  refines (scan_sectors n i v d c short)
    (scan_lbas short (seqZ (data_start v + (c - 2) * sectors_per_cluster v + i) (Z.of_nat n))).
Proof.
  intros Hc. revert i. induction n as [|n IH]; intros i Hi Hn Hd; [apply refines_ret|].
  rewrite seqZ_cons by lia. cbn [scan_sectors scan_lbas]. unfold directory_lba. rewrite Hd.
  fold (cluster_lba c i).
  eapply refines_ext; [eapply refines_bind; [apply cluster_read; lia|]|].
  { intros sector Hs. rewrite entries_scan by (intros; unfold item_in_directory; by rewrite Hd).
    instantiate (1 := fun sector => match scan_list short (entries_of sector) with
      | More => scan_lbas short (seqZ (data_start v + (c - 2) * sectors_per_cluster v + (i + 1)) (Z.of_nat n))
      | r => Some r end).
    cbn beta. destruct (scan_list short (entries_of sector)); [apply refines_ret|apply refines_ret|].
    apply IH; [lia|lia|done]. }
  destruct (readable v _); [|done]. cbn [mbind option_bind].
  unfold Z.succ. replace (Z.pred (Z.of_nat (S n))) with (Z.of_nat n) by lia.
  by rewrite Z.add_assoc.
Qed.

Lemma scan_sectors_low n c d short : 0 <= c < 2 -> (0 < n)%nat -> d_root d = false ->
  refines (scan_sectors n 0 v d c short) None.
Proof.
  intros Hc Hn Hd. destruct n; [lia|]. cbn [scan_sectors]. unfold directory_lba. rewrite Hd. fold (cluster_lba c 0).
  exact (refines_bind _ _ None (fun _ => None) (cluster_read_low c Hc) ltac:(done)).
Qed.

Lemma scan_low fuel guard d c short : 0 <= c < 2 -> d_root d = false ->
  refines (scan_clusters (S fuel) guard v d c short) None.
Proof.
  intros Hc Hd. cbn [scan_clusters]. unfold directory_sectors. rewrite Hd.
  pose proof (wf_cluster _ Hwf).
  exact (refines_bind _ _ None (fun _ => None) (scan_sectors_low (Z.to_nat (sectors_per_cluster v)) c d short Hc ltac:(lia) Hd) ltac:(done)).
Qed.

Lemma next_cluster_range c c' : next_cluster v disk c = Some c' -> 0 <= c' < 65536.
Proof.
  unfold next_cluster. case_decide as H; [|done]. intros [= <-]. split; [|lia]. unfold fat_value.
  pose proof (disk_byte (fat_start v + 0 * sectors_per_fat v + 2 * c / 512) (2 * c mod 512)).
  pose proof (disk_byte (fat_start v + 0 * sectors_per_fat v + 2 * c / 512) (2 * c mod 512 + 1)).
  unfold is_u8 in *. lia.
Qed.

Lemma scan_clusters_sub fuel guard c d short : 2 <= c < 65536 -> d_root d = false -> 0 <= guard < cluster_count v ->
  (Z.to_nat (cluster_count v - guard) < fuel)%nat ->
  refines (scan_clusters fuel guard v d c short)
    (lookup_short short (entries_at (concat (cluster_lbas v <$> dir_chain v disk (Z.to_nat (cluster_count v - guard)) c)))).
Proof.
  revert guard c. induction fuel as [|fuel IH]; intros guard c Hc Hd Hg Hf; [lia|].
  pose proof (wf_cluster _ Hwf). pose proof (wf_clusters _ Hwf).
  replace (Z.to_nat (cluster_count v - guard)) with (S (Z.to_nat (cluster_count v - (guard + 1)))) by lia.
  cbn [dir_chain scan_clusters fmap list_fmap concat]. unfold directory_sectors. rewrite Hd.
  rewrite scan_lbas_lookup. unfold cluster_lbas at 1.
  eapply refines_ext; [eapply refines_bind; [apply scan_sectors_sub; try done; lia|]|].
  { instantiate (1 := fun r => match r with Found e => Some e | Stop => None | More =>
      lookup_short short (entries_at (concat (cluster_lbas v <$> match next_cluster v disk c with
        | Some c' => if 2 <=? c' then dir_chain v disk (Z.to_nat (cluster_count v - (guard + 1))) c' else []
        | None => [] end))) end).
    intros [e| |] _; [apply refines_ret|apply refines_failed|].
    eapply refines_ext; [eapply refines_bind; [apply read_fat_entry_refines; lia|]|].
    { intros c' Hc'. rewrite u32_id by (unfold is_u32; lia).
      instantiate (1 := fun c' => lookup_short short (entries_at (concat (cluster_lbas v <$>
        if 2 <=? c' then dir_chain v disk (Z.to_nat (cluster_count v - (guard + 1))) c' else [])))).
      cbn beta. pose proof (next_cluster_range c c' Hc'). case_if.
      - replace (Z.to_nat (cluster_count v - (guard + 1))) with O by lia. case_if; apply refines_failed.
      - destruct fuel; [lia|]. destruct (2 <=? c') eqn:E2.
        + apply IH; [lia|done|lia|lia].
        + apply scan_low; [lia|done]. }
    by destruct (next_cluster v disk c). }
  rewrite Z.add_0_r. replace (Z.of_nat (Z.to_nat (sectors_per_cluster v))) with (sectors_per_cluster v) by lia.
  by destruct (scan_lbas short _) as [[]|].
Qed.

Lemma root_sector i : 0 <= i < (root_entries v + 15) / 16 ->
  in_volume v (root_start v + i) /\ root_start v +64 i = root_start v + i.
Proof.
  intros Hi. destruct Hwf as [Hs He Ht Hr Hf Hz Hroot Hre Hd Hsc Hcc Hde Hsl Hcap].
  assert (0 <= fat_count v * sectors_per_fat v) by (clear - Hf Hz; nia).
  assert (0 <= cluster_count v * sectors_per_cluster v) by (clear - Hcc Hsc; nia).
  unfold in_volume. rewrite u64_id by (unfold is_u64; lia). lia.
Qed.

Lemma length_entries sector : length (entries_of sector) = 16%nat.
Proof. unfold entries_of. by rewrite length_fmap, length_seqZ. Qed.

Lemma scan_sectors_root n i c d short : 0 <= i -> i + Z.of_nat n = (root_entries v + 15) / 16 -> d_root d = true ->
  refines (scan_sectors n i v d c short)
    (Some (scan_list short (take (Z.to_nat (root_entries v - 16 * i))
       (concat (entries_of ∘ disk <$> seqZ (root_start v + i) (Z.of_nat n)))))).
Proof.
  revert i. pose proof (wf_entries _ Hwf). induction n as [|n IH]; intros i Hi Hn Hd.
  { replace (concat _) with (@nil (list Z)) by done. rewrite take_nil. apply refines_ret. }
  rewrite seqZ_cons by lia. rewrite fmap_cons. cbn [scan_sectors concat]. unfold directory_lba. rewrite Hd.
  destruct (root_sector i ltac:(lia)) as [Hv ->]. eapply refines_bind_some; [by apply read_in_volume|].
  change ((entries_of ∘ disk) (root_start v + i)) with (entries_of (disk (root_start v + i))).
  assert (Hk : scan_items 16 0 (item_in_directory v d i) short (disk (root_start v + i)) =
    scan_list short (take (Z.to_nat (root_entries v - 16 * i)) (entries_of (disk (root_start v + i))))).
  { apply scan_items_list; [lia|]. intros j Hj. unfold item_in_directory. rewrite Hd.
    assert (16 * i < root_entries v + 15) by dmlia.
    rewrite (u32_id (i * 16)), u32_id by (unfold is_u32; lia). lia. }
  rewrite Hk. rewrite take_app, length_entries, scan_list_app.
  destruct (scan_list short (take _ (entries_of _))); [apply refines_ret|apply refines_ret|].
  eapply refines_ext; [apply (IH (i + 1)); [lia|lia|done]|]. f_equal. f_equal.
  unfold Z.succ. replace (Z.pred (Z.of_nat (S n))) with (Z.of_nat n) by lia. rewrite Z.add_assoc.
  f_equal. lia.
Qed.

(** The search computes the lookup in the directory's listing. *)
Definition directory_of (d : fat_directory) : directory := if d_root d then Root else Sub (d_cluster d).

Lemma find_entry_refines d short : (d_root d = true \/ valid_cluster v (d_cluster d)) ->
  refines (find_entry_in_directory v d short) (lookup_short short (listing v disk (directory_of d))).
Proof.
  intros Hd. pose proof (wf_clusters _ Hwf). pose proof (wf_entries _ Hwf).
  unfold find_entry_in_directory, directory_of. rewrite (u32_id (cluster_count v + 2)) by (unfold is_u32; lia).
  destruct (d_root d) eqn:E; cbn [negb andb].
  - rewrite Nat.add_1_r. cbn [scan_clusters]. unfold directory_sectors. rewrite E.
    rewrite u32_id by (unfold is_u32; lia).
    eapply refines_bind_some; [apply scan_sectors_root; [lia|rewrite Z2Nat.id by dmlia; lia|done]|].
    rewrite Z2Nat.id by dmlia. rewrite Z.mul_0_r, Z.sub_0_r, Z.add_0_r. cbn [listing].
    rewrite <- (app_nil_r (take _ _)) at 2. rewrite scan_list_lookup.
    destruct (scan_list _ _); [apply refines_ret|apply refines_failed|apply refines_failed].
  - destruct Hd as [Hd|Hd]; [done|]. unfold valid_cluster in Hd.
    replace (_ || _) with false by lia.
    eapply refines_ext; [apply scan_clusters_sub; [lia|done|lia|lia]|]. by rewrite Z.sub_0_r.
Qed.

(** *** Paths *)

Lemma split_component path :
  split_path path = match take_component path with
                    | (comp, []) => [comp]
                    | (comp, _ :: rest) => comp :: split_path rest
                    end.
Proof.
  induction path as [|c path IH]; [done|]. cbn. destruct (c =? 47) eqn:E; [done|].
  rewrite IH. destruct (take_component path) as [comp [|x rest]]; done.
Qed.

Lemma take_component_length path comp rest : take_component path = (comp, rest) ->
  length path = (length comp + length rest)%nat.
Proof.
  revert comp rest. induction path as [|c path IH]; intros comp rest; cbn; [by intros [= <- <-]|].
  destruct (c =? 47); [by intros [= <- <-]|]. destruct (take_component path) as [comp' rest'].
  intros [= <- <-]. cbn. by rewrite (IH _ _ eq_refl).
Qed.

Lemma short_name_length comp short : short_name_from_text comp = Some short ->
  1 <= Z.of_nat (length comp) <= 12.
Proof. unfold short_name_from_text, string_length. guards. intros _. split_bools. lia. Qed.

Lemma split_path_nonnil path : split_path path <> [].
Proof. rewrite split_component. destruct (take_component path) as [? []]; done. Qed.

Lemma find_components_refines fuel d path : (0 < fuel)%nat -> (length path <= fuel)%nat ->
  (d_root d = true \/ valid_cluster v (d_cluster d)) ->
  refines (find_components fuel v d path) (walk v disk (directory_of d) (split_path path)).
Proof.
  revert d path. induction fuel as [|fuel IH]; intros d path Hf Hl Hd; [lia|].
  rewrite split_component. cbn [find_components].
  destruct (take_component path) as [comp rest] eqn:Ec. apply take_component_length in Ec.
  assert (Hw : walk v disk (directory_of d) (match rest with [] => [comp] | _ :: rest => comp :: split_path rest end) =
    short ← short_name_from_text comp;
    e ← lookup_short short (listing v disk (directory_of d));
    match rest with
    | [] => Some e
    | _ :: rest => if decide (flag (arr e 11) 0x10 = true /\ valid_cluster v (read_u16 e 26))
                   then walk v disk (Sub (read_u16 e 26)) (split_path rest) else None
    end).
  { destruct rest as [|x rest]; [done|]. cbn [walk]. pose proof (split_path_nonnil rest).
    destruct (split_path rest); [done|]. done. }
  rewrite Hw. clear Hw. destruct (short_name_from_text comp) as [short|] eqn:Hs; cycle 1.
  { case_if; apply refines_failed. }
  apply short_name_length in Hs. replace (_ || _) with false by lia. cbn [mbind option_bind].
  apply refines_bind; [by apply find_entry_refines|]. intros e _. destruct rest as [|x rest]; [apply refines_ret|].
  rewrite (u32_id (cluster_count v + 2)) by (pose proof (wf_clusters _ Hwf); unfold is_u32; lia).
  unfold FAT_ATTR_DIRECTORY. destruct (flag (arr e 11) 16); cbn [negb]; [|rewrite decide_False by (by intros []); apply refines_failed].
  case_if; [rewrite decide_False by (unfold valid_cluster; lia); apply refines_failed|].
  split_bools. rewrite decide_True by (unfold valid_cluster; lia). cbn [length] in *.
  destruct rest as [|y rest]; [apply refines_failed|].
  apply (IH (Build_fat_directory (read_u16 e 26) false)); [cbn [length] in *; lia|cbn [length] in *; lia|].
  right. unfold valid_cluster. cbn. lia.
Qed.

Lemma find_path_refines path : refines (find_path v path) (walk v disk Root (split_path path)).
Proof.
  unfold find_path. destruct path as [|c path]; [apply (find_components_refines 1 (Build_fat_directory 0 true)); cbn; auto|].
  destruct (c =? 47) eqn:E.
  - replace (split_path (c :: path)) with ([] :: split_path path) by (cbn; by rewrite E). apply refines_failed.
  - apply (find_components_refines _ (Build_fat_directory 0 true)); cbn [length]; [lia|lia|by left].
Qed.

End refinement.
