(* ===== verification/FatRead.v ===== *)
(** * FAT16: reading files

    The cluster-chain loop of [fat_read_file] delivers the file's bytes, never writes past the
    caller's buffer and ends on every chain, cyclic ones included. *)

From S2P Require Import Prelude Fat FatSpec.
Local Open Scope c_scope.
Local Open Scope Z_scope.

(** ** Reading *)

Lemma field16_range e i : bytes_ok e -> 0 <= read_u16 e i < 65536.
Proof.
  intros He. unfold read_u16. pose proof (arr_u8 e i He). pose proof (arr_u8 e (i + 1) He).
  unfold is_u8 in *. rewrite lor_shl8 by done. lia.
Qed.

Lemma field32_range e i : bytes_ok e -> is_u32 (read_u32 e i).
Proof.
  intros He. unfold read_u32, shl32. pose proof (arr_u8 e i He). pose proof (arr_u8 e (i + 1) He).
  pose proof (arr_u8 e (i + 2) He). pose proof (arr_u8 e (i + 3) He). unfold is_u8, is_u32 in *.
  rewrite !u32_id by (unfold is_u32; rewrite Z.shiftl_mul_pow2; lia).
  rewrite (lor_shiftl _ _ 8) by lia. rewrite (lor_shiftl _ _ 16) by lia. rewrite (lor_shiftl _ _ 24) by lia. lia.
Qed.

Section reading.
Context {W : Type} (v : fat_volume W) (disk : Z -> list Z) (working : bool).
Context (Hwf : volume_wf v) (Hm : mounted v = true).
Context (Hdisk : forall lba, length (disk lba) = 512%nat /\ bytes_ok (disk lba)).
Context (Hread : forall lba w, in_volume v lba ->
  match fst (v_read v lba 1 w) with Some s => s = disk lba | None => working = false end).

Lemma length_sectors lbas : length (sectors_bytes disk lbas) = (512 * length lbas)%nat.
Proof.
  unfold sectors_bytes. induction lbas as [|lba lbas IH]; [done|].
  rewrite fmap_cons. cbn [concat]. rewrite length_app, IH, (proj1 (Hdisk lba)). cbn [length]. lia.
Qed.

Lemma sectors_app l1 l2 : sectors_bytes disk (l1 ++ l2) = sectors_bytes disk l1 ++ sectors_bytes disk l2.
Proof. unfold sectors_bytes. by rewrite fmap_app, concat_app. Qed.

Lemma cluster_in_volume c i : valid_cluster v c -> 0 <= i < sectors_per_cluster v ->
  in_volume v (data_start v + (c - 2) * sectors_per_cluster v + i).
Proof.
  intros Hc Hi. destruct Hwf as [Hs He Ht Hr Hf Hz Hroot Hre Hd Hsc Hcc Hde Hsl Hcap].
  unfold valid_cluster in Hc.
  assert (0 <= (c - 2) * sectors_per_cluster v) by (clear - Hc Hsc; nia).
  assert ((c - 2) * sectors_per_cluster v + sectors_per_cluster v <= cluster_count v * sectors_per_cluster v)
    by (clear - Hc Hsc; nia).
  assert (0 <= fat_count v * sectors_per_fat v) by (clear - Hf Hz; nia).
  assert (0 <= (root_entries v + 15) / 16) by dmlia.
  unfold in_volume. lia.
Qed.

Lemma read_cluster_sector c i w : valid_cluster v c -> 0 <= i < sectors_per_cluster v ->
  match read_sector v (cluster_lba v c i) w with
  | (Ok s, _) => s = disk (data_start v + (c - 2) * sectors_per_cluster v + i)
  | (Failed, _) => working = false
  | (NoFuel, _) => False
  end.
Proof.
  intros Hc Hi. pose proof (wf_clusters _ Hwf).
  pose proof (cluster_read v disk working Hwf Hm Hread c i ltac:(unfold valid_cluster in Hc; lia) Hi w) as H1.
  cbv zeta in H1. rewrite (proj2 (readable_spec v Hm _)) in H1 by (by apply cluster_in_volume).
  destruct (read_sector v (cluster_lba v c i) w) as [[s| |] w']; cbn in *; [congruence| |done].
  destruct working; [|done]. by discriminate H1.
Qed.

(** What is in the buffer plus what is still wanted. *)
Definition wanted (t : transfer) : Z := Z.of_nat (length (output t)) + remaining t.

Lemma read_cluster_spec n i c t w : valid_cluster v c -> 0 <= i ->
  i + Z.of_nat n <= sectors_per_cluster v -> is_u32 (remaining t) ->
  let '(r, t', _) := read_cluster n i v c t w in
  0 <= remaining t' <= remaining t /\ wanted t' = wanted t /\
  match r with
  | Ok _ => remaining t' = Z.max 0 (remaining t - 512 * Z.of_nat n) /\
      output t' = output t ++ take (Z.to_nat (remaining t))
        (sectors_bytes disk (seqZ (data_start v + (c - 2) * sectors_per_cluster v + i) (Z.of_nat n)))
  | Failed => working = false
  | NoFuel => False
  end.
Proof.
  intros Hc. revert i t w. induction n as [|n IH]; intros i t w Hi Hn Hr; unfold is_u32 in Hr.
  { cbn [read_cluster]. replace (sectors_bytes disk _) with (@nil Z) by done.
    rewrite take_nil, app_nil_r. split; [lia|]. split; [done|]. split; [lia|done]. }
  cbn [read_cluster]. destruct (remaining t =? 0) eqn:E.
  { replace (Z.to_nat (remaining t)) with O by lia. rewrite take_0, app_nil_r.
    split; [lia|]. split; [done|]. split; [lia|done]. }
  fold (cluster_lba v c i). pose proof (read_cluster_sector c i w Hc ltac:(lia)) as Hs.
  destruct (read_sector v (cluster_lba v c i) w) as [[s| |] w1]; [|by split; [lia|]|done].
  subst s. set (sector := disk _). pose proof (proj1 (Hdisk (data_start v + (c - 2) * sectors_per_cluster v + i))) as Hlen.
  fold sector in Hlen. unfold FAT_SECTOR_SIZE.
  set (amount := if remaining t <? 512 then remaining t else 512).
  assert (Ha : amount = Z.min 512 (remaining t)) by (unfold amount; case_if; lia).
  rewrite (u32_id (remaining t - amount)) by (unfold is_u32; lia).
  specialize (IH (i + 1) (Build_transfer (output t ++ take (Z.to_nat amount) sector) (remaining t - amount)) w1
    ltac:(lia) ltac:(lia) ltac:(unfold is_u32; cbn; lia)).
  destruct (read_cluster _ _ _ _ _ _) as [[r t'] w']. destruct IH as (H1 & H2 & H3). unfold wanted in *.
  cbn [output remaining] in *. rewrite length_app, length_take, Hlen in H2.
  split; [lia|]. split; [lia|]. destruct r; [|done|done]. destruct H3 as [H3 H4]. split; [lia|].
  rewrite H4, <- app_assoc. f_equal. rewrite (seqZ_cons _ (Z.of_nat (S n))) by lia. change (?x :: ?l) with ([x] ++ l).
  rewrite sectors_app. unfold sectors_bytes at 2. cbn [fmap list_fmap concat]. rewrite app_nil_r. fold sector.
  rewrite take_app, Hlen. unfold Z.succ. replace (Z.pred (Z.of_nat (S n))) with (Z.of_nat n) by lia.
  rewrite <- Z.add_assoc. f_equal.
  - destruct (Z_le_gt_dec 512 (remaining t)); [rewrite !take_ge by lia; done|f_equal; lia].
  - f_equal; [lia|]. do 2 f_equal. lia.
Qed.

(** Clusters needed for a number of bytes. *)
Definition clusters_for (n : Z) : nat :=
  Z.to_nat ((n + 512 * sectors_per_cluster v - 1) / (512 * sectors_per_cluster v)).

Lemma clusters_for_0 : clusters_for 0 = O.
Proof.
  pose proof (wf_cluster _ Hwf). unfold clusters_for. rewrite Z.div_small by lia. done.
Qed.

Lemma clusters_for_pos n : 0 < n ->
  clusters_for n = S (clusters_for (Z.max 0 (n - 512 * sectors_per_cluster v))).
Proof.
  intros Hn. pose proof (wf_cluster _ Hwf). set (per := 512 * sectors_per_cluster v).
  assert (0 < per) by lia. unfold clusters_for. fold per.
  replace (n + per - 1) with ((n - 1) + 1 * per) by lia. rewrite Z.div_add by lia.
  assert (0 <= (n - 1) / per) by (apply Z.div_pos; lia).
  destruct (Z_le_gt_dec n per).
  - rewrite (Z.div_small (n - 1)), Z.max_l, (Z.div_small (0 + per - 1)) by lia. done.
  - rewrite Z.max_r by lia. replace (n - per + per - 1) with (n - 1) by lia. lia.
Qed.

Lemma read_clusters_spec fuel guard c t w : 0 <= c < 65536 -> 0 <= guard -> is_u32 (remaining t) ->
  guard + Z.of_nat (clusters_for (remaining t)) <= cluster_count v ->
  (Z.to_nat (cluster_count v - guard) < fuel)%nat ->
  let '(r, t', _) := read_clusters fuel guard v c t w in
  0 <= remaining t' /\ wanted t' = wanted t /\
  match r with
  | Ok _ => exists cs, chain v disk (clusters_for (remaining t)) c = Some cs /\ remaining t' = 0 /\
      output t' = output t ++ take (Z.to_nat (remaining t)) (sectors_bytes disk (concat (cluster_lbas v <$> cs)))
  | Failed => working = true -> chain v disk (clusters_for (remaining t)) c = None
  | NoFuel => False
  end.
Proof.
  revert guard c t w. induction fuel as [|fuel IH]; intros guard c t w Hc Hg Hr Hk Hf; [lia|].
  pose proof (wf_cluster _ Hwf) as Hspc. pose proof (wf_clusters _ Hwf) as Hcc. unfold is_u32 in Hr.
  cbn [read_clusters]. destruct (remaining t =? 0) eqn:E.
  { replace (remaining t) with 0 by lia. rewrite clusters_for_0. split; [lia|]. split; [done|].
    exists []. split; [done|]. split; [done|]. by rewrite take_0, app_nil_r. }
  rewrite clusters_for_pos in Hk |- * by lia. rewrite (u32_id (cluster_count v + 2)) by (unfold is_u32; lia).
  destruct (decide (valid_cluster v c)) as [Hvc|Hvc]; cycle 1.
  { replace (_ || _) with true by (unfold valid_cluster in Hvc; lia). split; [lia|]. split; [done|].
    intros _. cbn [chain]. by rewrite decide_False. }
  replace (_ || _) with false by (unfold valid_cluster in Hvc; lia).
  pose proof (read_cluster_spec (Z.to_nat (sectors_per_cluster v)) 0 c t w Hvc ltac:(lia) ltac:(lia) Hr) as Hrc.
  rewrite Z.add_0_r, Z2Nat.id in Hrc by lia.
  destruct (read_cluster _ _ _ _ _ _) as [[[[]| |] t1] w1]; destruct Hrc as (H1 & H2 & H3);
    [|split; [lia|]; split; [done|]; intros Hw; congruence|done].
  destruct H3 as [H3 H4]. cbn [chain]. rewrite decide_True by done. rewrite <- H3 in Hk |- *.
  destruct (remaining t1 =? 0) eqn:E1.
  { replace (remaining t1) with 0 by lia. rewrite clusters_for_0. split; [lia|]. split; [done|].
    exists [c]. split; [done|]. split; [lia|]. rewrite H4. cbn [fmap list_fmap concat]. by rewrite app_nil_r. }
  pose proof (read_fat_entry_refines v disk working Hwf Hm Hdisk Hread c ltac:(lia) w1) as Hn.
  rewrite (clusters_for_pos (remaining t1)) in Hk |- * by lia.
  destruct (read_fat_entry v c w1) as [[c'| |] w2]; cbn [fst] in Hn; cycle 1.
  { split; [lia|]. split; [done|]. intros Hw. by rewrite (Hn Hw). }
  { done. }
  rewrite Hn. cbn [mbind option_bind].
  pose proof (next_cluster_range v disk Hm Hdisk c c' Hn) as Hc'.
  specialize (IH (guard +32 1) c' t1 w2 Hc'). rewrite u32_id in IH |- * by (unfold is_u32; lia).
  rewrite <- (clusters_for_pos (remaining t1)) in Hk |- * by lia.
  specialize (IH ltac:(lia) ltac:(unfold is_u32; lia) ltac:(lia) ltac:(lia)).
  destruct (read_clusters _ _ _ _ _ _) as [[r t'] w']. destruct IH as (H5 & H6 & H7).
  split; [lia|]. split; [lia|]. destruct r as [[]| |]; [|intros Hw; by rewrite (H7 Hw)|done].
  destruct H7 as (cs & Hcs & H8 & H9). exists (c :: cs). rewrite Hcs. split; [done|]. split; [done|].
  rewrite H9, H4, <- app_assoc. f_equal. cbn [fmap list_fmap concat]. rewrite sectors_app, take_app.
  rewrite length_sectors.
  assert (Hl : length (cluster_lbas v c) = Z.to_nat (sectors_per_cluster v)) by apply length_seqZ.
  rewrite Hl. do 2 f_equal. lia.
Qed.

(** Entries are cut out of sectors. *)
Lemma entries_bytes e lbas : e ∈ concat (entries_of ∘ disk <$> lbas) -> bytes_ok e.
Proof.
  intros H. apply list_elem_of_In in H. apply in_concat in H as (l & Hl & He).
  apply list_elem_of_In, list_elem_of_fmap in Hl as (lba & -> & _).
  apply list_elem_of_In in He. unfold entries_of, compose in He.
  apply list_elem_of_fmap in He as (i & -> & _). unfold candidate_at.
  apply Forall_take, Forall_drop. apply Hdisk.
Qed.

Lemma take_while_elem {A} (p : A -> bool) l x : x ∈ take_while p l -> x ∈ l.
Proof.
  induction l as [|y l IH]; [done|]. cbn. destruct (p y); [|by intros ?%not_elem_of_nil].
  rewrite !elem_of_cons. naive_solver.
Qed.

Lemma walk_bytes d comps e : walk v disk d comps = Some e -> bytes_ok e.
Proof.
  revert d. induction comps as [|comp comps IH]; intros d; [done|]. cbn [walk].
  destruct (short_name_from_text comp) as [short|]; [|done]. cbn [mbind option_bind].
  destruct (lookup_short short (listing v disk d)) as [e'|] eqn:E; [|done]. cbn [mbind option_bind].
  destruct comps; [|case_decide; [apply IH|done]]. intros [= ->].
  apply find_some in E as [E _]. apply list_elem_of_In, take_while_elem in E.
  destruct d; cbn [listing] in E; [|by eapply entries_bytes].
  apply list_elem_of_lookup in E as [i [Hi _]%lookup_take_Some].
  eapply entries_bytes, list_elem_of_lookup_2, Hi.
Qed.

Lemma chain_length n c cs : chain v disk n c = Some cs -> length cs = n.
Proof.
  revert c cs. induction n as [|n IH]; intros c cs; [by intros [= <-]|]. cbn [chain].
  case_decide; [|done]. destruct n; [by intros [= <-]|].
  destruct (next_cluster v disk c); [|done]. cbn [mbind option_bind].
  destruct (chain v disk (S n) z) as [cs'|] eqn:E; [|done]. cbn [mbind option_bind]. intros [= <-].
  cbn [length]. by rewrite (IH _ _ E).
Qed.

Lemma length_clusters cs :
  length (concat (cluster_lbas v <$> cs)) = (length cs * Z.to_nat (sectors_per_cluster v))%nat.
Proof.
  induction cs as [|c cs IH]; [done|]. cbn [fmap list_fmap concat length]. rewrite length_app, IH.
  unfold cluster_lbas at 1. rewrite length_seqZ. lia.
Qed.

Lemma clusters_for_bound n k : 0 <= n -> n <= k * (512 * sectors_per_cluster v) -> 0 <= k ->
  Z.of_nat (clusters_for n) <= k /\ n <= Z.of_nat (clusters_for n) * (512 * sectors_per_cluster v).
Proof.
  intros Hn Hk Hk0. pose proof (wf_cluster _ Hwf). unfold clusters_for.
  set (per := 512 * sectors_per_cluster v) in *. assert (0 < per) by lia.
  assert (0 <= (n + per - 1) / per) by (apply Z.div_pos; lia). rewrite Z2Nat.id by done. split.
  - assert ((n + per - 1) / per < k + 1); [|lia]. apply Z.div_lt_upper_bound; lia.
  - pose proof (Z.mul_succ_div_gt (n + per - 1) per). lia.
Qed.

(** A file has as many bytes as its entry says. *)
Lemma file_bytes_length e bs : bytes_ok e -> file_bytes v disk e = Some bs ->
  Z.of_nat (length bs) = read_u32 e 28.
Proof.
  intros He. pose proof (field32_range e 28 He) as Hn. unfold is_u32 in Hn.
  pose proof (wf_clusters _ Hwf). pose proof (wf_cluster _ Hwf). unfold file_bytes. cbv zeta.
  case_decide as Hd; [|done]. destruct (read_u32 e 28 =? 0) eqn:E.
  { case_if; [|done]. intros [= <-]. cbn. lia. }
  change (Z.to_nat ((read_u32 e 28 + 512 * sectors_per_cluster v - 1) / (512 * sectors_per_cluster v)))
    with (clusters_for (read_u32 e 28)).
  destruct (chain v disk (clusters_for (read_u32 e 28)) (read_u16 e 26)) as [cs|] eqn:Ec; [|done]. cbn [mbind option_bind].
  intros [= <-]. apply chain_length in Ec. rewrite length_take, length_sectors, length_clusters, Ec.
  pose proof (clusters_for_bound (read_u32 e 28) (cluster_count v) ltac:(lia) ltac:(lia) ltac:(lia)). lia.
Qed.

(** The guard on the size is the exact one. *)
Lemma size_guard n capacity : 0 <= n ->
  (capacity <? n) || (cluster_count v *32 sectors_per_cluster v <? n / FAT_SECTOR_SIZE) ||
    (negb (n mod FAT_SECTOR_SIZE =? 0) && (cluster_count v *32 sectors_per_cluster v <=? n / FAT_SECTOR_SIZE)) = false <->
  n <= capacity /\ n <= cluster_count v * (512 * sectors_per_cluster v).
Proof.
  intros Hn. pose proof (wf_clusters _ Hwf) as Hcc. pose proof (wf_cluster _ Hwf) as Hsc. unfold FAT_SECTOR_SIZE.
  assert (Hm2 : 0 <= cluster_count v * sectors_per_cluster v <= 65525 * 128) by (clear - Hcc Hsc; nia).
  rewrite u32_id by (unfold is_u32; lia).
  replace (cluster_count v * (512 * sectors_per_cluster v)) with (512 * (cluster_count v * sectors_per_cluster v)) by ring.
  set (max := cluster_count v * sectors_per_cluster v) in *. clearbody max. dmlia.
Qed.

End reading.

(** On a volume that satisfies the layout invariant, whatever transfers fail, [fat_read_file]
    ends, never stores more bytes than the buffer holds, and on success has stored exactly the
    contents of the file the path names; on a device whose reads work it fails only if there is
    no such readable file or the buffer is too small. *)
Lemma fat_read_file_spec {W} (v : fat_volume W) (disk : Z -> list Z) (working : bool) path capacity w :
  volume_wf v -> mounted v = true -> is_u32 capacity ->
  (forall lba, length (disk lba) = 512%nat /\ bytes_ok (disk lba)) ->
  (forall lba w, in_volume v lba ->
     match fst (v_read v lba 1 w) with Some s => s = disk lba | None => working = false end) ->
  let r := fst (fat_read_file v path capacity w) in
  Z.of_nat (length (written r)) <= capacity /\
  match outcome_ r with
  | Ok _ => file_contents v disk path = Some (written r) /\ size r = Z.of_nat (length (written r))
  | Failed => size r = 0 /\
      (working = true -> forall bs, file_contents v disk path = Some bs -> capacity < Z.of_nat (length bs))
  | NoFuel => False
  end.
Proof.
  intros Hwf Hm Hcap Hdisk Hread. unfold is_u32 in Hcap. unfold fat_read_file, file_contents. rewrite Hm. cbn [negb].
  pose proof (find_path_refines v disk working Hwf Hm Hdisk Hread path w) as Hp.
  destruct (find_path v path w) as [[e| |] w1]; cbn [fst] in Hp; cycle 1.
  { split; [cbn; lia|]. split; [done|]. intros Hw bs. by rewrite (Hp Hw). }
  { done. }
  rewrite Hp. cbn [mbind option_bind]. pose proof (walk_bytes v disk Hdisk _ _ _ Hp) as He.
  pose proof (field32_range e 28 He) as Hn. unfold is_u32 in Hn.
  change (Z.lor _ FAT_ATTR_LFN) with 0x1F. destruct (flag (arr e 11) 0x1F) eqn:Ef.
  { split; [cbn; lia|]. split; [done|]. intros _ bs. unfold file_bytes. cbv zeta. by rewrite decide_False by (intros []; congruence). }
  pose proof (size_guard v Hwf Hm (read_u32 e 28) capacity ltac:(lia)) as Hg.
  destruct (_ || _) eqn:Eg in |- *; rewrite Eg in Hg.
  { split; [cbn; lia|]. split; [done|]. intros _ bs Hbs. rewrite (file_bytes_length v disk Hwf Hm Hdisk e bs He Hbs).
    unfold file_bytes in Hbs. cbv zeta in Hbs. case_decide as Hd; [|done].
    destruct (Z_le_gt_dec (read_u32 e 28) capacity); [|lia]. by discriminate (proj2 Hg ltac:(tauto)). }
  apply proj1 in Hg. specialize (Hg eq_refl) as [Hg1 Hg2]. unfold file_bytes. cbv zeta.
  rewrite decide_True by done. destruct (read_u32 e 28 =? 0) eqn:E0.
  { case_if; split_bools; [replace (read_u16 e 26 =? 0) with false by lia|replace (read_u16 e 26 =? 0) with true by lia];
      (split; [cbn; lia|done]). }
  pose proof (wf_clusters _ Hwf).
  pose proof (clusters_for_bound v Hwf Hm _ (cluster_count v) (proj1 Hn) Hg2 ltac:(lia)) as [Hk _].
  pose proof (read_clusters_spec v disk working Hwf Hm Hdisk Hread (Z.to_nat (cluster_count v) + 1) 0 (read_u16 e 26)
    (Build_transfer [] (read_u32 e 28)) w1 (field16_range e 26 He) ltac:(lia) Hn ltac:(cbn; lia) ltac:(lia)) as Hr.
  change (Z.to_nat ((read_u32 e 28 + 512 * sectors_per_cluster v - 1) / (512 * sectors_per_cluster v)))
    with (clusters_for v (read_u32 e 28)) in Hr |- *.
  destruct (read_clusters _ _ _ _ _ _) as [[[[]| |] t] w2]; destruct Hr as (H1 & H2 & H3);
    unfold wanted in H2; cbn [output remaining length] in *; [| |done].
  - destruct H3 as (cs & -> & H4 & H5). cbn. split; [lia|]. by rewrite H5.
  - cbn. split; [lia|]. split; [done|]. intros Hw bs. by rewrite (H3 Hw).
Qed.
