(* ===== verification/FatMount.v ===== *)
(** * FAT16: mounting

    [fat_mount] accepts only boot sectors whose layout satisfies [volume_wf]. *)

From S2P Require Import Prelude Fat FatSpec FatRead.
Local Open Scope c_scope.
Local Open Scope Z_scope.

Lemma total_sectors_range boot : bytes_ok boot -> 0 <= boot_total_sectors boot < 4294967296.
Proof.
  intros H. unfold boot_total_sectors. pose proof (field16_range boot 19 H).
  pose proof (field32_range boot 32 H) as H2. unfold is_u32 in H2. case_if; lia.
Qed.

(** The fields of an accepted boot sector. *)
Lemma boot_geometry boot : bytes_ok boot -> boot_bad_geometry boot = false ->
  1 <= arr boot 13 <= 128 /\ 1 <= read_u16 boot 14 < 65536 /\ 1 <= arr boot 16 <= 255 /\
  1 <= read_u16 boot 17 < 65536 /\ 1 <= read_u16 boot 22 < 65536 /\ 0 < boot_total_sectors boot < 4294967296.
Proof.
  intros H. pose proof (total_sectors_range boot H). pose proof (arr_u8 boot 13 H) as H13.
  pose proof (arr_u8 boot 16 H) as H16. pose proof (field16_range boot 14 H).
  pose proof (field16_range boot 17 H). pose proof (field16_range boot 22 H).
  unfold boot_bad_geometry, is_u8 in *. cbv zeta. intros G. split_bools. lia.
Qed.

(** Sectors of the root directory, as the code rounds and as the layout counts. *)
Lemma root_sectors_eq n : 1 <= n < 65536 ->
  (n *32 32 +32 FAT_SECTOR_SIZE -32 1) / FAT_SECTOR_SIZE = (n + 15) / 16.
Proof.
  intros Hn. unfold FAT_SECTOR_SIZE. rewrite (u32_id (n * 32)) by (unfold is_u32; lia).
  rewrite (u32_id (n * 32 + 512)) by (unfold is_u32; lia). rewrite u32_id by (unfold is_u32; lia). dmlia.
Qed.

(** The volume has the geometry its boot sector states. *)
Definition geometry {W} (boot : list Z) (v : fat_volume W) : Prop :=
  fat_start v = start_lba v + read_u16 boot 14 /\ fat_count v = arr boot 16 /\
  sectors_per_fat v = read_u16 boot 22 /\ root_entries v = read_u16 boot 17 /\
  sectors_per_cluster v = arr boot 13 /\ total_sectors v = boot_total_sectors boot.

Section mount.
Context {W : Type} (read : fat_read_fn W).
Context (Hbytes : forall lba w s w', read lba 1 w = (Some s, w') -> bytes_ok s).

Lemma fat_mount_fails start v w ok v' e w' : fat_mount read start v w = ((ok, v', e), w') ->
  ok = false -> mounted v' = false.
Proof.
  unfold fat_mount. destruct (read start 1 w) as [[boot|] w1]; [|by intros [= <- <- _ _]].
  repeat (case_if; [by intros [= <- <- _ _]|]).
  destruct (check_fats _ _ _ _ _ _ _ _) as [ok' w2]. destruct ok'; cbn [negb]; [by intros [= <- _ _ _]|by intros [= <- <- _ _]].
Qed.

Lemma fat_mount_wf start v w v' e w' : is_u64 start -> fat_mount read start v w = ((true, v', e), w') ->
  volume_wf v' /\ mounted v' = true /\ v_read v' = read /\ start_lba v' = start /\
  exists boot, fst (read start 1 w) = Some boot /\ geometry boot v'.
Proof.
  intros Hs. unfold is_u64 in Hs. unfold fat_mount. destruct (read start 1 w) as [[boot|] w1] eqn:Hr; [|done].
  apply Hbytes in Hr. cbn [fst].
  match goal with |- ?E -> _ => enough (E -> volume_wf v' /\ mounted v' = true /\ v_read v' = read /\
    start_lba v' = start /\ geometry boot v') as Hc end.
  { intros HE. destruct (Hc HE) as (H1 & H2 & H3 & H4 & H5). by eauto 10. }
  case_if; [done|]. destruct (boot_bad_geometry boot) eqn:Hg; [done|].
  destruct (boot_geometry boot Hr Hg) as (Hspc & Hres & Hfats & Hre & Hspf & Htot).
  rewrite (root_sectors_eq _ Hre). unfold geometry. clear Hr Hg. revert Hspc Hres Hfats Hre Hspf Htot.
  generalize (arr boot 13) as spc, (read_u16 boot 14) as res, (arr boot 16) as fats, (read_u16 boot 17) as re,
    (read_u16 boot 22) as spf, (boot_total_sectors boot) as total.
  intros spc res fats re spf total Hspc Hres Hfats Hre Hspf Htot.
  set (root := (re + 15) / 16) in *. assert (Hroot : 0 <= root <= 4096) by (subst root; dmlia).
  assert (Hprod : 1 <= fats * spf <= 255 * 65535) by (clear - Hfats Hspf; nia).
  rewrite (u32_id (fats * spf)) in * by (unfold is_u32; lia).
  rewrite (u32_id (res + fats * spf)) in * by (unfold is_u32; lia).
  rewrite (u32_id (res + fats * spf + root)) in * by (unfold is_u32; lia).
  case_if; [done|].
  rewrite (u32_id (total - res)) in * by (unfold is_u32; lia).
  rewrite (u32_id (total - res - fats * spf)) in * by (unfold is_u32; lia).
  rewrite (u32_id (total - res - fats * spf - root)) in * by (unfold is_u32; lia).
  set (data := total - res - fats * spf - root) in *. unfold FAT_SECTOR_SIZE in *.
  rewrite (u32_id (spf * 512)) in * by (unfold is_u32; lia).
  pose proof (Z.mul_div_le data spc ltac:(lia)). pose proof (Z.mul_succ_div_gt data spc ltac:(lia)).
  set (cc := data / spc) in *. case_if; [done|]. case_if; [done|].
  destruct (check_fats _ _ _ _ _ _ _ _) as [ok w2]. destruct ok; [|done]. cbn [negb]. intros [= <- _ _].
  split_bools. rewrite (u32_id (cc + 2)) in * by (unfold is_u32; lia).
  unfold UINT64_MAX in *. rewrite (u64_id (total - 1)) in * by (unfold is_u64; lia).
  rewrite (u64_id (18446744073709551615 - _)) in * by (unfold is_u64; lia).
  rewrite (u64_id (start + res)) by (unfold is_u64; lia).
  rewrite (u64_id (start + res + _)) by (unfold is_u64; lia).
  rewrite (u64_id (start + res + fats * spf + _)) by (unfold is_u64; lia).
  split; [|done]. split; cbn; try lia. dmlia.
Qed.

End mount.
