(* ===== verification/FatNames.v ===== *)
(** * FAT16: short names

    The eleven-byte form [short_name_from_text] searches for and the text [entry_to_text] lists
    agree: listing an entry stored under a name shows that name in capitals. *)

From S2P Require Import Prelude Fat.
Local Open Scope c_scope.
Local Open Scope Z_scope.

(** ** The shape of an accepted name *)

Definition no_dot (l : list Z) : Prop := Forall (fun c => c <> 46) l.

Lemma no_dot_cons c l : no_dot (c :: l) -> (c =? 46) = false /\ no_dot l.
Proof.
  intros H. pose proof (Forall_inv H) as H1. cbn beta in H1. apply Forall_inv_tail in H. split; [lia|done].
Qed.

(** Base and extension; an empty extension stands for no dot. *)
Definition join (base ext : list Z) : list Z :=
  match ext with [] => base | _ => base ++ 46 :: ext end.

Lemma find_dot_none l i len dot : no_dot l -> find_dot l i len dot = Some dot.
Proof.
  revert i. induction l as [|c l IH]; intros i H; [done|]. cbn.
  apply no_dot_cons in H as [-> H]. by apply IH.
Qed.

(** Once a dot has been found there is no other. *)
Lemma find_dot_second l i len dot d : dot <> len -> find_dot l i len dot = Some d -> no_dot l /\ d = dot.
Proof.
  revert i. induction l as [|c l IH]; intros i Hd; cbn; [intros [= <-]; split; [apply Forall_nil_2|done]|].
  destruct (c =? 46) eqn:E; [by replace (negb (dot =? len) || _ || _) with true by lia|].
  intros H. destruct (IH _ Hd H) as [H1 H2]. split; [|done]. apply Forall_cons_2; [lia|done].
Qed.

Lemma find_dot_spec l i len d : 0 <= i -> len = i + Z.of_nat (length l) -> find_dot l i len len = Some d ->
  exists base ext, l = join base ext /\ no_dot base /\ no_dot ext /\
    (ext = [] /\ d = len \/ ext <> [] /\ d = i + Z.of_nat (length base) /\ 0 < d).
Proof.
  revert i. induction l as [|c l IH]; intros i Hi Hlen; cbn [find_dot].
  { intros [= <-]. exists [], []. split; [done|]. split; [apply Forall_nil_2|]. split; [apply Forall_nil_2|by left]. }
  cbn [length] in Hlen. destruct (c =? 46) eqn:E.
  - destruct (_ || _) eqn:G; [done|]. intros H. apply find_dot_second in H as [Hn ->]; [|lia].
    exists [], l. destruct l as [|c' l]; [cbn in *; lia|]. split; [cbn; f_equal; lia|].
    split; [apply Forall_nil_2|]. split; [done|]. right. split; [done|]. cbn in *. lia.
  - intros H. destruct (IH (i + 1) ltac:(lia) ltac:(lia) H) as (base & ext & -> & Hb & He & Hd).
    exists (c :: base), ext. split; [by destruct ext|]. split; [apply Forall_cons_2; [lia|done]|]. split; [done|].
    cbn [length]. destruct Hd as [Hd|(Hd & Hl & Hp)]; [by left|]. right. split; [done|]. lia.
Qed.

(** ** Copying *)

(** A list with [l] written over the positions from [o]. *)
Definition write_at (s : list Z) (o : Z) (l : list Z) : list Z :=
  take (Z.to_nat o) s ++ l ++ drop (Z.to_nat o + length l) s.

Lemma write_at_cons s o c l : 0 <= o < Z.of_nat (length s) ->
  write_at (arr_set s o c) (o + 1) l = write_at s o (c :: l).
Proof.
  intros Ho. unfold write_at, arr_set. replace (Z.to_nat (o + 1)) with (S (Z.to_nat o)) by lia.
  rewrite (take_S_r _ _ c) by (apply list_lookup_insert_eq; lia).
  rewrite take_insert_ge, drop_insert_lt by lia. cbn [length app]. rewrite <- app_assoc. cbn.
  do 3 f_equal. f_equal. lia.
Qed.

Lemma copy_name_spec l rest o s s' o' : no_dot l -> 0 <= o -> length s = 11%nat ->
  copy_name (l ++ rest) o s = Some (s', o') ->
  Forall (fun c => forbidden c = false) l /\ (o + Z.of_nat (length l) <= 11 \/ l = []) /\
  copy_name rest (o + Z.of_nat (length l)) (write_at s o (upper <$> l)) = Some (s', o').
Proof.
  revert o s. induction l as [|c l IH]; intros o s Hn Ho Hs H.
  { split; [apply Forall_nil_2|]. split; [by right|]. cbn [length app] in *. rewrite Z.add_0_r.
    unfold write_at. cbn. by rewrite Nat.add_0_r, take_drop. }
  cbn [app copy_name] in H. destruct (no_dot_cons c l Hn) as [Hc _]. rewrite Hc in H.
  destruct (forbidden c) eqn:Ef; [done|]. destruct (11 <=? o) eqn:Eo; [done|].
  destruct (IH (o + 1) (arr_set s o (upper c)) (Forall_inv_tail Hn) ltac:(lia) ltac:(by rewrite length_arr_set) H)
    as (H1 & H2 & H3).
  split; [by apply Forall_cons_2|]. cbn [length]. split; [left; destruct H2 as [H2| ->]; cbn; lia|].
  cbn [fmap list_fmap]. rewrite <- write_at_cons by lia. rewrite <- H3. f_equal. lia.
Qed.

(** ** Listing *)

Lemma append_field_spec n i entry name capacity l :
  0 <= i -> (length l <= n)%nat -> (forall k c, l !! k = Some c -> arr entry (i + Z.of_nat k) = c /\ c <> 32) ->
  ((length l < n)%nat -> arr entry (i + Z.of_nat (length l)) = 32) ->
  Z.of_nat (length name) + Z.of_nat (length l) + 1 <= capacity ->
  append_field n i entry name capacity = name ++ l.
Proof.
  revert i name l. induction n as [|n IH]; intros i name l Hi Hl Hc He Hcap.
  { destruct l; [|cbn in Hl; lia]. by rewrite app_nil_r. }
  cbn [append_field]. destruct l as [|c l].
  { rewrite app_nil_r. cbn [length] in *. rewrite Z.add_0_r in He. by rewrite He by lia. }
  destruct (Hc O c eq_refl) as [H1 H2]. rewrite Z.add_0_r in H1. rewrite H1.
  replace (c =? 32) with false by lia. cbn [length] in *.
  replace (_ + 1 <? capacity) with true by lia.
  rewrite (IH (i + 1) (name ++ [c]) l); [by rewrite <- app_assoc|lia|lia| | |rewrite length_app; cbn; lia].
  - intros k c' Hk. replace (i + 1 + Z.of_nat k) with (i + Z.of_nat (S k)) by lia. by apply Hc.
  - intros Hlt. replace (i + 1 + Z.of_nat (length l)) with (i + Z.of_nat (S (length l))) by lia. apply He. lia.
Qed.

Lemma upper_visible c : is_u8 c -> forbidden c = false -> upper c <> 32.
Proof. unfold is_u8, forbidden, upper, u8. intros Hc Hf. split_bools. case_if; dmlia. Qed.

(** A name field of [n] bytes: the characters, then blanks. *)
Definition padded (n : nat) (l : list Z) : list Z := l ++ replicate (n - length l) 32.

Lemma padded_arr n l pre post k : (length l <= n)%nat -> (k < n)%nat ->
  arr (pre ++ padded n l ++ post) (Z.of_nat (length pre) + Z.of_nat k) =
  match l !! k with Some c => c | None => 32 end.
Proof.
  intros Hl Hk. apply arr_lookup. replace (Z.to_nat _) with (length pre + k)%nat by lia.
  rewrite lookup_app_r by lia. replace (length pre + k - length pre)%nat with k by lia.
  unfold padded. rewrite <- app_assoc. destruct (l !! k) eqn:E.
  - by apply lookup_app_l_Some.
  - apply lookup_ge_None in E. rewrite lookup_app_r by lia. rewrite lookup_app_l by (rewrite length_replicate; lia).
    apply lookup_replicate. lia.
Qed.

Lemma listed_field n pre post l name capacity : (length l <= n)%nat -> Forall (fun c => c <> 32) l ->
  Z.of_nat (length name) + Z.of_nat (length l) + 1 <= capacity ->
  append_field n (Z.of_nat (length pre)) (pre ++ padded n l ++ post) name capacity = name ++ l.
Proof.
  intros Hl Hf Hcap. apply append_field_spec; [lia|done| | |done].
  - intros k c Hk. pose proof (lookup_lt_Some _ _ _ Hk). rewrite padded_arr, Hk by lia.
    split; [done|]. by apply (Forall_lookup_1 _ _ _ _ Hf Hk).
  - intros Hlt. rewrite padded_arr by lia. by rewrite lookup_ge_None_2.
Qed.

(** The two fields of an accepted name. *)
Lemma short_name_fields text short : short_name_from_text text = Some short ->
  exists base ext, text = join base ext /\ no_dot base /\ no_dot ext /\ base <> [] /\
    (length base <= 8)%nat /\ (length ext <= 3)%nat /\
    Forall (fun c => forbidden c = false) (base ++ ext) /\
    short = padded 8 (upper <$> base) ++ padded 3 (upper <$> ext).
Proof.
  unfold short_name_from_text, string_length. cbv zeta.
  destruct (_ || _) eqn:E1; [done|]. replace (Z.min 13 _) with (Z.of_nat (length text)) by lia.
  destruct (find_dot text 0 _ _) as [dot|] eqn:Ed; [|done].
  apply find_dot_spec in Ed as (base & ext & Ht & Hb & He & Hd); [|lia|lia].
  case_if; [done|]. remember (replicate 11 32) as blank eqn:Hblank.
  destruct (copy_name text 0 blank) as [[s o]|] eqn:Ec; [|done].
  destruct (o =? 0) eqn:Eo; [done|]. intros [= ->].
  assert (Hlen : length text = match ext with [] => length base | _ => (length base + 1 + length ext)%nat end).
  { subst text. destruct ext; cbn; [done|]. rewrite length_app. cbn. lia. }
  exists base, ext. split; [done|]. split; [done|]. split; [done|].
  destruct Hd as [(-> & Hd)|(Hne & Hd & Hpos)].
  - cbn [join] in Ht. subst text. rewrite <- (app_nil_r base) in Ec.
    apply copy_name_spec in Ec as (H1 & H2 & H3); [|done|lia|by subst blank].
    cbn [copy_name] in H3. injection H3 as <- <-. split; [by intros ->|]. split; [lia|]. split; [cbn; lia|].
    rewrite app_nil_r. split; [done|]. unfold write_at, padded. cbn [fmap list_fmap length app].
    rewrite Hblank, take_0, drop_replicate, length_fmap. cbn [app Z.to_nat Nat.add]. rewrite <- app_assoc. f_equal.
    rewrite <- replicate_add. f_equal. lia.
  - destruct ext as [|x ext']; [done|]. cbn [join] in Ht. remember (x :: ext') as ext eqn:Hx. subst text.
    assert (Hxl : (0 < length ext)%nat) by (subst ext; cbn; lia).
    assert (Hbl : (length base <= 8)%nat) by lia. assert (Hel : (length ext <= 3)%nat) by (subst ext; lia).
    apply copy_name_spec in Ec as (H1 & H2 & H3); [|done|lia|by subst blank]. cbn [copy_name] in H3.
    change (46 =? 46) with true in H3. cbv iota in H3. rewrite <- (app_nil_r ext) in H3.
    apply copy_name_spec in H3 as (H4 & H5 & H6); [|done|lia|].
    2: { unfold write_at. rewrite Hblank, !length_app, length_take, length_drop, length_replicate, length_fmap. lia. }
    cbn [copy_name] in H6. injection H6 as <- _. split; [intros ->; cbn in *; lia|]. split; [done|]. split; [done|].
    split; [apply Forall_app; done|]. unfold write_at at 1. unfold write_at, padded.
    rewrite Hblank, take_0, drop_replicate, !length_fmap. cbn [app Z.to_nat Nat.add].
    rewrite take_app, drop_app, !length_fmap. rewrite take_ge by (rewrite length_fmap; lia).
    rewrite take_replicate, drop_ge by (rewrite length_fmap; change (Pos.to_nat 8) with 8%nat; lia).
    rewrite drop_replicate, <- !app_assoc. cbn [app]. f_equal.
    f_equal; [f_equal; lia|]. do 2 f_equal. lia.
Qed.

(** Short names round-trip. An entry stored under the short form of an accepted name is
    listed as that name in capitals, with its dot if it had one. *)
Theorem fat_name_roundtrip text short rest capacity :
  Forall is_u8 text -> short_name_from_text text = Some short -> 13 <= capacity ->
  length short = 11%nat /\ entry_to_text (short ++ rest) capacity = upper <$> text.
Proof.
  intros Hu Hs Hcap. destruct (short_name_fields _ _ Hs) as (base & ext & -> & Hb & He & Hbn & Hbl & Hel & Hf & ->).
  assert (Hvis : forall l, Forall is_u8 l -> Forall (fun c => forbidden c = false) l -> Forall (fun c => c <> 32) (upper <$> l)).
  { intros l H1 H2. apply Forall_fmap. apply Forall_lookup. intros i c Hi.
    apply upper_visible; [by eapply Forall_lookup_1 in H1|by apply (Forall_lookup_1 _ _ _ _ H2 Hi)]. }
  assert (Hub : Forall is_u8 base /\ Forall is_u8 ext).
  { destruct ext as [|x ext]; cbn [join] in Hu; [split; [done|apply Forall_nil_2]|].
    apply Forall_app in Hu as [H1 H2]. split; [done|]. by apply Forall_inv_tail in H2. }
  apply Forall_app in Hf as [Hf1 Hf2]. destruct Hub as [Hub Hue].
  pose proof (Hvis base Hub Hf1) as Vb. pose proof (Hvis ext Hue Hf2) as Ve.
  split; [unfold padded; rewrite !length_app, !length_replicate, !length_fmap; lia|].
  unfold entry_to_text. rewrite <- app_assoc.
  pose proof (listed_field 8 [] (padded 3 (upper <$> ext) ++ rest) (upper <$> base) [] capacity
    ltac:(rewrite length_fmap; lia) Vb ltac:(rewrite length_fmap; cbn; lia)) as Hbase.
  cbn [length app] in Hbase. change (Z.of_nat 0) with 0 in Hbase. rewrite Hbase.
  assert (Hp : length (padded 8 (upper <$> base)) = 8%nat)
    by (unfold padded; rewrite length_app, length_replicate, length_fmap; lia).
  pose proof (padded_arr 3 (upper <$> ext) (padded 8 (upper <$> base)) rest 0 ltac:(rewrite length_fmap; lia) ltac:(lia)) as H8.
  rewrite Hp in H8. change (Z.of_nat 8 + Z.of_nat 0) with 8 in H8. rewrite H8, length_fmap.
  destruct ext as [|x ext]; [done|].
  change (match (upper <$> x :: ext) !! 0%nat with Some c => c | None => 32 end) with (upper x).
  pose proof (Forall_inv Ve) as Hx. cbn beta in Hx. replace (upper x =? 32) with false by lia. cbn [negb andb].
  replace (_ + 1 <? capacity) with true by lia. cbn [join].
  pose proof (listed_field 3 (padded 8 (upper <$> base)) rest (upper <$> x :: ext) ((upper <$> base) ++ [46]) capacity
    ltac:(rewrite length_fmap; lia) Ve) as Hext. rewrite Hp in Hext. change (Z.of_nat 8) with 8 in Hext.
  rewrite Hext by (rewrite length_app, !length_fmap; cbn in *; lia).
  rewrite fmap_app, <- app_assoc. done.
Qed.

Lemma fat_name_roundtrip_witness :
  entry_to_text ([82; 69; 65; 68; 77; 69; 32; 32; 84; 88; 84] ++ replicate 21 0) 13 =
  upper <$> [114; 101; 97; 100; 109; 101; 46; 116; 120; 116].
Proof.
  apply (fat_name_roundtrip [114; 101; 97; 100; 109; 101; 46; 116; 120; 116]
    [82; 69; 65; 68; 77; 69; 32; 32; 84; 88; 84] (replicate 21 0) 13); [|reflexivity|lia].
  repeat apply Forall_cons_2; try apply Forall_nil_2; unfold is_u8; lia.
Defined.
