(* ===== verification/Vfs.v ===== *)
(** * The virtual filesystem

    [fs/vfs.c]: one mounted FAT volume, found at the start of the disk or in an MBR partition, over
    a block device with three attempts per read; and the test that keeps the journal out of the
    volume. Machine memory is seen through [load]: the 512 bytes of the local array whose address
    is passed as [buffer]. *)

From S2P Require Import Prelude BlockDevice Fat FatSpec FatRead FatMount.
Local Open Scope c_scope.
Local Open Scope Z_scope.

Definition ATA_READ_RETRIES : Z := 3.

Section vfs.
Context {W : Type} (buffer : Z) (load : Z -> W -> list Z).

Record vfs := {
  volume : fat_volume W;
  storage_device : option (block_device W);
  last_error : Z
}.

(** A null device takes no request. *)
Definition storage_read (device : option (block_device W)) (lba count : Z) (w : W) : Z * W :=
  match device with
  | Some device => block_device_read device lba count buffer w
  | None => (0, w)
  end.

Fixpoint retry (attempts : nat) (device : option (block_device W)) (lba count : Z) (w : W) :
    option (list Z) * W :=
  match attempts with
  | O => (None, w)
  | S attempts =>
      let '(ok, w) := storage_read device lba count w in
      if negb (ok =? 0) then (Some (load buffer w), w) else retry attempts device lba count w
  end.

Definition read_with_retry (device : option (block_device W)) : fat_read_fn W :=
  retry (Z.to_nat ATA_READ_RETRIES) device.

Definition storage_sectors (device : option (block_device W)) : Z :=
  match device with Some device => block_device_sector_count device | None => 0 end.

Definition mounted_volume_fits_device (s : vfs) : bool :=
  let device_sectors := storage_sectors (storage_device s) in
  mounted (volume s) && (start_lba (volume s) <? device_sectors) && negb (total_sectors (volume s) =? 0) &&
  (total_sectors (volume s) <=? device_sectors -64 start_lba (volume s)).

Definition unmount (s : vfs) : vfs :=
  let v := volume s in
  Build_vfs (Build_fat_volume (v_read v) (start_lba v) (total_sectors v) (fat_start v) (root_start v)
    (data_start v) (sectors_per_fat v) (fat_count v) (root_entries v) (sectors_per_cluster v)
    (cluster_count v) false) (storage_device s) (last_error s).

(** [fat_mount(&volume, read_with_retry, start) && mounted_volume_fits_device()]. *)
Definition try_mount (start : Z) (s : vfs) (w : W) : bool * vfs * W :=
  let '((ok, v, e), w) := fat_mount (read_with_retry (storage_device s)) start (volume s) w in
  let s := Build_vfs v (storage_device s) e in
  (ok && mounted_volume_fits_device s, s, w).

(** The partition loop, [n] entries to go. *)
Fixpoint try_partitions (n : nat) (index : Z) (mbr : list Z) (device_sectors : Z) (s : vfs) (w : W) : vfs * W :=
  match n with
  | O => (s, w)
  | S n =>
      let partition := drop (Z.to_nat (446 + index * 16)) mbr in
      let type := arr partition 4 in
      let start := read_u32 partition 8 in
      let length := read_u32 partition 12 in
      if ((type =? 0x04) || (type =? 0x06) || (type =? 0x0E)) && negb (length =? 0) &&
         (start <? device_sectors) && (length <=? device_sectors -64 start) then
        let '(ok, s, w) := try_mount start s w in
        if ok then (s, w) else try_partitions n (index + 1) mbr device_sectors (unmount s) w
      else try_partitions n (index + 1) mbr device_sectors (unmount s) w
  end.

Definition vfs_init (device : option (block_device W)) (s : vfs) (w : W) : vfs * W :=
  let s := unmount s in
  let s := Build_vfs (volume s) None (last_error s) in
  match device with
  | Some d =>
      if block_device_is_ready d then
        let device_sectors := block_device_sector_count d in
        let s := Build_vfs (volume s) (Some d) (last_error s) in
        let '(ok, s, w) := try_mount 0 s w in
        if ok then (s, w) else
        let s := unmount s in
        match read_with_retry (storage_device s) 0 1 w with
        | (None, w) => (s, w)
        | (Some mbr, w) =>
            if negb (arr mbr 510 =? 0x55) || negb (arr mbr 511 =? 0xAA) then (s, w)
            else try_partitions 4 0 mbr device_sectors s w
        end
      else (s, w)
  | None => (s, w)
  end.

(** [fat_last_error] of [fs/fat.c]; the static variable it returns is part of the state here. *)
Definition fat_last_error (s : vfs) : Z := last_error s.

Definition vfs_is_mounted (s : vfs) : bool := mounted (volume s).
Definition vfs_file_count (s : vfs) (w : W) : Z * W := fat_file_count (volume s) w.
Definition vfs_file_name (s : vfs) (index capacity : Z) : M W (list Z) := fat_file_name (volume s) index capacity.
Definition vfs_read_file (s : vfs) (name : list Z) (capacity : Z) (w : W) : read_result * W :=
  fat_read_file (volume s) name capacity w.

Definition vfs_journal_region_available (start sector_count : Z) (s : vfs) : bool :=
  let device_sectors := storage_sectors (storage_device s) in
  if (sector_count =? 0) || (device_sectors =? 0) || (device_sectors <=? start) ||
     (device_sectors -64 start <? sector_count) then false else
  let region_end := start +64 sector_count in
  if negb (mounted (volume s)) then true else
  if (start_lba (volume s) +64 total_sectors (volume s) <=? start) || (region_end <=? start_lba (volume s))
  then true else false.

(** ** What initialisation establishes *)

(** A driver for the sectors of [disk]: on its device [d], a transfer it reports as done has put
    the sector into the buffer, and a working device reports none as failed. *)
Definition drives (d : block_device W) (disk : Z -> list Z) (working : bool) : Prop :=
  forall lba w, 0 <= lba < bd_sector_count d ->
    let '(ok, w') := call (bd_read d) (bd_context d) lba 1 buffer w in
    if ok =? 0 then working = false else load buffer w' = disk lba.

(** What is asked of a device: ready, its fields in range, its driver faithful. *)
Record device_ok (d : block_device W) (disk : Z -> list Z) (working : bool) : Prop := {
  dev_ready : block_device_is_ready d = true;
  dev_size : is_u64 (bd_sector_count d);
  dev_max : is_u32 (bd_max_transfer_sectors d);
  dev_buffer : buffer <> 0;
  dev_load : forall w, bytes_ok (load buffer w);
  dev_disk : forall lba, length (disk lba) = 512%nat /\ bytes_ok (disk lba);
  dev_drives : drives d disk working
}.

Section device.
Context (d : block_device W) (disk : Z -> list Z) (working : bool) (Hdev : device_ok d disk working).

(** A mounted volume is well formed, has the geometry of its boot sector, is read through the
    device, and lies inside it. *)
Definition volume_ok (s : vfs) : Prop :=
  storage_device s = Some d /\
  (mounted (volume s) = true ->
   volume_wf (volume s) /\ v_read (volume s) = read_with_retry (Some d) /\
   geometry (disk (start_lba (volume s))) (volume s) /\
   start_lba (volume s) + total_sectors (volume s) <= bd_sector_count d).

Lemma retry_bytes n dev lba count w s w' : retry n dev lba count w = (Some s, w') -> bytes_ok s.
Proof.
  revert w. induction n as [|n IH]; intros w; [done|]. cbn.
  destruct (storage_read dev lba count w) as [ok w1]. case_if; [intros [= <- _]; apply Hdev|]. apply IH.
Qed.

Lemma storage_sectors_ready : storage_sectors (Some d) = bd_sector_count d.
Proof. cbn. unfold block_device_sector_count. by rewrite (dev_ready _ _ _ Hdev). Qed.

(** A sector of the device read with retries. *)
Lemma retry_reads n lba w : 0 <= lba < bd_sector_count d -> (0 < n)%nat ->
  match fst (retry n (Some d) lba 1 w) with Some s => s = disk lba | None => working = false end.
Proof.
  intros Hl Hn. pose proof Hdev as [Hrdy Hsz Hmx Hb _ _ Hdrv].
  assert (Hv : request_is_valid d lba 1 buffer = true).
  { apply (request_valid_legal d false); [done|done|unfold is_u64 in *; lia|unfold is_u32; lia|].
    unfold block_device_is_ready in Hrdy. split_bools. unfold is_u32 in Hmx. cbn. lia. }
  assert (Hst : forall n w, match fst (retry n (Some d) lba 1 w) with
    | Some s => s = disk lba | None => n = O \/ working = false end).
  { clear n w Hn. induction n as [|n IH]; intros w; [by left|]. cbn [retry storage_read]. unfold block_device_read.
    rewrite Hv. cbn [negb]. specialize (Hdrv lba w Hl). destruct (call _ _ _ _ _ w) as [ok w1].
    destruct (ok =? 0); cbn [negb]; [|done]. specialize (IH w1). destruct (retry n _ _ _ w1) as [[s|] w2]; [done|by right]. }
  specialize (Hst n w). destruct (fst (retry n (Some d) lba 1 w)); [done|]. destruct Hst; [lia|done].
Qed.

Lemma unmount_ok s : storage_device s = Some d -> volume_ok (unmount s).
Proof. by intros H. Qed.

Lemma try_mount_ok start s w ok s' w' : is_u64 start -> storage_device s = Some d ->
  try_mount start s w = (ok, s', w') -> storage_device s' = Some d /\ (ok = true -> volume_ok s').
Proof.
  intros Hs Hd. unfold try_mount. rewrite Hd.
  destruct (fat_mount _ _ _ _) as [[[ok1 v] e] w1] eqn:Em. intros [= <- <- _]. split; [done|].
  intros [-> Hf]%andb_prop. split; [done|]. intros _.
  apply fat_mount_wf in Em as (Hwf & _ & Hr & Hst & boot & Hb & Hg); [|intros; by eapply retry_bytes|done].
  unfold mounted_volume_fits_device in Hf. cbn [storage_device volume] in *.
  rewrite storage_sectors_ready in Hf. split_bools. pose proof (wf_total _ Hwf). pose proof (wf_start _ Hwf).
  pose proof (dev_size _ _ _ Hdev) as Hsz. unfold is_u64 in *. rewrite u64_id in * by (unfold is_u64; lia).
  pose proof (retry_reads 3 start w ltac:(lia) ltac:(lia)) as Hboot.
  change (retry 3) with (retry (Z.to_nat ATA_READ_RETRIES)) in Hboot. fold (read_with_retry (Some d)) in Hboot.
  rewrite Hb in Hboot. subst boot start. split; [done|]. split; [done|]. split; [done|]. lia.
Qed.

Lemma try_partitions_ok n index mbr k s w s' w' : bytes_ok mbr -> volume_ok s ->
  try_partitions n index mbr k s w = (s', w') -> volume_ok s'.
Proof.
  intros Hb. revert index s w. induction n as [|n IH]; intros index s w Hok; [by intros [= <- _]|].
  cbn [try_partitions]. case_if; [|apply IH, unmount_ok, Hok].
  destruct (try_mount _ s w) as [[ok s1] w1] eqn:Et. apply try_mount_ok in Et as [H1 H2].
  - destruct ok; [intros [= <- _]; by apply H2|]. apply IH, unmount_ok, H1.
  - pose proof (field32_range (drop (Z.to_nat (446 + index * 16)) mbr) 8 (Forall_drop _ _ _ Hb)) as H.
    unfold is_u32, is_u64 in *. lia.
  - apply Hok.
Qed.

Lemma vfs_init_ok s w : volume_ok (fst (vfs_init (Some d) s w)).
Proof.
  unfold vfs_init. rewrite (dev_ready _ _ _ Hdev). cbn [volume storage_device last_error unmount].
  destruct (try_mount 0 _ w) as [[ok s1] w1] eqn:Et.
  apply try_mount_ok in Et as [H1 H2]; [|unfold is_u64; lia|done].
  destruct ok; [by apply H2|]. cbn [unmount storage_device volume last_error].
  destruct (read_with_retry _ 0 1 w1) as [[mbr|] w2] eqn:Er; [|by apply unmount_ok].
  case_if; [by apply unmount_ok|].
  destruct (try_partitions _ _ _ _ _ _) as [s' w'] eqn:Ep. cbn.
  eapply try_partitions_ok; [|by apply (unmount_ok s1)|exact Ep]. by eapply retry_bytes.
Qed.

End device.

(** C9: reading files through the whole stack. After [vfs_init] on a device with a faithful
    driver, from any earlier state, a mounted volume has the geometry of the boot sector on the
    disk and lies inside the device; then any [vfs_read_file], whatever transfers fail, ends,
    stores at most [capacity] bytes and, when it succeeds, exactly the contents of the named
    file; on a working device it fails only for want of such a file or of room. *)
Theorem vfs_read_correct d disk working s0 w0 path capacity w :
  device_ok d disk working -> is_u32 capacity ->
  let s := fst (vfs_init (Some d) s0 w0) in
  let v := volume s in
  let r := fst (vfs_read_file s path capacity w) in
  (vfs_is_mounted s = true ->
   volume_wf v /\ geometry (disk (start_lba v)) v /\
   start_lba v + total_sectors v <= block_device_sector_count d) /\
  Z.of_nat (length (written r)) <= capacity /\
  match outcome_ r with
  | Ok _ => vfs_is_mounted s = true /\ file_contents v disk path = Some (written r) /\
            size r = Z.of_nat (length (written r))
  | Failed => size r = 0 /\
      (working = true -> vfs_is_mounted s = true ->
       forall bs, file_contents v disk path = Some bs -> capacity < Z.of_nat (length bs))
  | NoFuel => False
  end.
Proof.
  intros Hdev Hcap s v r. pose proof (vfs_init_ok d disk working Hdev s0 w0) as [Hsd Hok]. fold s v in Hsd, Hok.
  unfold vfs_is_mounted. fold v. pose proof (storage_sectors_ready d disk working Hdev) as Hsec. cbn in Hsec.
  rewrite Hsec. subst r. unfold vfs_read_file. fold v. destruct (mounted v) eqn:Hm.
  - destruct (Hok eq_refl) as (Hwf & Hr & Hg & Hin). split; [done|].
    pose proof (fat_read_file_spec v disk working path capacity w Hwf Hm Hcap (dev_disk _ _ _ Hdev)) as H.
    cbv zeta in H. destruct H as [H1 H2].
    + intros lba w'. rewrite Hr. intros Hl. apply (retry_reads d disk working Hdev); [|unfold ATA_READ_RETRIES; lia].
      pose proof (wf_start _ Hwf). unfold in_volume in Hl. lia.
    + split; [exact H1|]. destruct (outcome_ _); [tauto| |done]. split; [apply H2|]. intros Hw _. by apply H2.
  - split; [done|]. unfold fat_read_file. rewrite Hm. cbn. unfold is_u32 in Hcap. split; [lia|]. done.
Qed.

(** C31: the journal and the FAT volume never share a sector. After [vfs_init] on a ready device,
    [vfs_journal_region_available] accepts exactly the non-empty regions inside the device that
    are disjoint from the mounted volume, without wrapping. *)
Theorem vfs_journal_region_disjoint d disk working s0 w0 start count :
  device_ok d disk working -> is_u64 start -> is_u64 count ->
  let s := fst (vfs_init (Some d) s0 w0) in
  vfs_journal_region_available start count s = true <->
  0 < count /\ start + count <= block_device_sector_count d /\
  (vfs_is_mounted s = true ->
   forall lba, start <= lba < start + count -> ~ in_volume (volume s) lba).
Proof.
  intros Hdev Hst Hct s. pose proof (vfs_init_ok d disk working Hdev s0 w0) as [Hsd Hok]. fold s in Hsd, Hok.
  pose proof (storage_sectors_ready d disk working Hdev) as Hsec. pose proof (dev_size _ _ _ Hdev) as Hn.
  unfold vfs_journal_region_available, vfs_is_mounted. rewrite Hsd, Hsec. cbn in Hsec. rewrite Hsec.
  unfold is_u64 in *. cbv zeta. case_if.
  - split; [done|]. intros (H1 & H2 & _). exfalso. rewrite u64_id in * by (unfold is_u64; lia). lia.
  - split_bools. rewrite u64_id in * by (unfold is_u64; lia). rewrite (u64_id (start + count)) by (unfold is_u64; lia).
    destruct (mounted (volume s)); cbn [negb]; [|split; [intros _; split; [lia|]; split; [lia|done]|done]].
    destruct (Hok eq_refl) as (Hwf & _ & _ & Hin). pose proof (wf_start _ Hwf). pose proof (wf_total _ Hwf).
    rewrite u64_id by (unfold is_u64; lia). unfold in_volume. case_if.
    + split; [|done]. intros _. split; [lia|]. split; [lia|]. intros _ lba Hl. lia.
    + split; [done|]. intros (_ & _ & H'). exfalso. split_bools.
      apply (H' eq_refl (Z.max start (start_lba (volume s)))); lia.
Qed.

End vfs.

(** ** A sample disk: 4103 sectors, one file HELLO.TXT of five bytes *)

Definition put (bytes : list (Z * Z)) : list Z :=
  foldl (fun s '(i, b) => arr_set s i b) (replicate 512 0) bytes.

Lemma put_ok bytes : Forall (fun '(_, b) => is_u8 b) bytes -> length (put bytes) = 512%nat /\ bytes_ok (put bytes).
Proof.
  unfold put. intros H.
  assert (G : forall s, length s = 512%nat /\ bytes_ok s ->
    length (foldl (fun s '(i, b) => arr_set s i b) s bytes) = 512%nat /\
    bytes_ok (foldl (fun s '(i, b) => arr_set s i b) s bytes)).
  { induction bytes as [|[i b] bytes IH]; intros s Hs; [done|]. cbn [foldl].
    apply IH; [by apply Forall_inv_tail in H|]. destruct Hs as [H1 H2]. rewrite length_arr_set.
    split; [done|]. apply bytes_ok_set; [done|]. apply (Forall_inv H). }
  apply G. split; [apply length_replicate|]. apply Forall_replicate. unfold is_u8. lia.
Qed.

Definition sample_boot : list (Z * Z) :=
  [(12, 2); (13, 1); (14, 1); (16, 1); (17, 16); (19, 7); (20, 16); (21, 0xF8); (22, 16); (510, 0x55); (511, 0xAA)].
Definition sample_fat : list (Z * Z) := [(0, 0xF8); (1, 0xFF); (2, 0xFF); (3, 0xFF); (4, 0xFF); (5, 0xFF)].
Definition sample_root : list (Z * Z) :=
  [(0, 72); (1, 69); (2, 76); (3, 76); (4, 79); (5, 32); (6, 32); (7, 32); (8, 84); (9, 88); (10, 84); (11, 0x20);
   (26, 2); (28, 5)].
Definition sample_data : list (Z * Z) := [(0, 104); (1, 101); (2, 108); (3, 108); (4, 111)].

Definition sample_disk (lba : Z) : list Z :=
  if lba =? 0 then put sample_boot else if lba =? 1 then put sample_fat else
  if lba =? 17 then put sample_root else if lba =? 18 then put sample_data else put [].

Definition sample_load (buffer : Z) (w : list Z) : list Z := u8 <$> w.

Definition sample_device : block_device (list Z) :=
  Build_block_device BLOCK_DEVICE_MAGIC 4103 512 8 (Some (fun _ lba _ _ _ => (1, sample_disk lba))) None 0.

Definition sample_vfs : @vfs (list Z) :=
  Build_vfs (Build_fat_volume (fun _ _ w => (None, w)) 0 0 0 0 0 0 0 0 0 0 false) None 0.

Lemma sample_disk_ok lba : length (sample_disk lba) = 512%nat /\ bytes_ok (sample_disk lba).
Proof.
  unfold sample_disk.
  repeat case_if; apply put_ok; repeat apply Forall_cons_2; try apply Forall_nil_2; unfold is_u8; lia.
Qed.

Lemma sample_device_ok : device_ok 0x9000 sample_load sample_device sample_disk true.
Proof.
  split; [done|unfold is_u64; cbn; lia|unfold is_u32; cbn; lia|done| |apply sample_disk_ok|].
  - intros w. apply Forall_fmap, Forall_true. intros x. apply u8_range.
  - intros lba w _. cbn. unfold sample_load. rewrite <- (list_fmap_id (sample_disk lba)) at 2.
    apply list_fmap_ext. intros i x Hx. apply u8_id.
    apply (Forall_lookup_1 _ _ _ _ (proj2 (sample_disk_ok lba)) Hx).
Qed.

Definition hello_txt : list Z := [104; 101; 108; 108; 111; 46; 116; 120; 116].

Lemma vfs_read_correct_witness :
  let s := fst (vfs_init 0x9000 sample_load (Some sample_device) sample_vfs []) in
  file_contents (volume s) sample_disk hello_txt = Some [104; 101; 108; 108; 111].
Proof.
  intros s.
  destruct (vfs_read_correct 0x9000 sample_load sample_device sample_disk true sample_vfs [] hello_txt 64 []
    sample_device_ok ltac:(unfold is_u32; lia)) as (_ & _ & H).
  assert (E : fst (vfs_read_file s hello_txt 64 []) = Build_read_result (Ok tt) [104; 101; 108; 108; 111] 5)
    by (vm_compute; reflexivity).
  fold s in H. rewrite E in H. exact (proj1 (proj2 H)).
Defined.

Lemma vfs_journal_region_disjoint_witness :
  let s := fst (vfs_init 0x9000 sample_load (Some sample_device) sample_vfs []) in
  vfs_journal_region_available 4100 4 s = false.
Proof.
  intros s. apply not_true_iff_false. intros Hs.
  destruct (proj1 (vfs_journal_region_disjoint 0x9000 sample_load sample_device sample_disk true sample_vfs []
    4100 4 sample_device_ok ltac:(unfold is_u64; lia) ltac:(unfold is_u64; lia)) Hs) as (_ & H & _).
  vm_compute in H. by apply H.
Defined.
