(* ===== verification/IrqState.v ===== *)
(** * Disk interrupt and recovery bookkeeping

    [drivers/ahci_irq_state.c], [drivers/ata_irq_state.c] and [drivers/ahci_recovery_state.c]:
    the small state machines between the interrupt handlers and the code that waits for a
    command. Every caller passes the address of a static object, so the null-pointer branches
    are not represented. *)

From S2P Require Import Prelude.
Local Open Scope c_scope.
Local Open Scope Z_scope.

(** ** AHCI completion *)

Module Ahci.

Definition AHCI_IRQ_OBSERVE_NONE : Z := 0.
Definition AHCI_IRQ_OBSERVE_COMPLETE : Z := 1.
Definition AHCI_IRQ_OBSERVE_ERROR : Z := -1.

Record ahci_irq_state := {
  generation : Z;
  observed_generation : Z;
  observed_status : Z;
  interrupt_count : Z;
  fallback_count : Z;
  enabled : Z;
  active : Z
}.

Definition ahci_irq_state_reset (s : ahci_irq_state) : ahci_irq_state :=
  Build_ahci_irq_state 0 0 0 0 0 0 0.

Definition ahci_irq_state_enable (s : ahci_irq_state) : ahci_irq_state :=
  Build_ahci_irq_state (generation s) (observed_generation s) (observed_status s)
    (interrupt_count s) (fallback_count s) 1 (active s).

Definition ahci_irq_state_disable (s : ahci_irq_state) : ahci_irq_state :=
  Build_ahci_irq_state (generation s) 0 0 (interrupt_count s) (fallback_count s) 0 0.

Definition ahci_irq_state_begin (s : ahci_irq_state) : Z * ahci_irq_state :=
  if (enabled s =? 0) || negb (active s =? 0) then (0, s) else
  let next := generation s +32 1 in
  let next := if next =? 0 then 1 else next in
  (next, Build_ahci_irq_state next 0 0 (interrupt_count s) (fallback_count s) (enabled s) 1).

Definition ahci_irq_state_record (status : Z) (s : ahci_irq_state) : ahci_irq_state :=
  if (enabled s =? 0) || (status =? 0) then s else
  let count := interrupt_count s +32 1 in
  if negb (active s =? 0) then
    Build_ahci_irq_state (generation s) (generation s) (Z.lor (observed_status s) status) count
      (fallback_count s) (enabled s) (active s)
  else
    Build_ahci_irq_state (generation s) (observed_generation s) (observed_status s) count
      (fallback_count s) (enabled s) (active s).

Definition ahci_irq_state_observe (gen completion_mask error_mask : Z) (s : ahci_irq_state) : Z :=
  if (gen =? 0) || (enabled s =? 0) || (active s =? 0) || negb (generation s =? gen) ||
     negb (observed_generation s =? gen) then AHCI_IRQ_OBSERVE_NONE else
  let status := observed_status s in
  if flag status error_mask then AHCI_IRQ_OBSERVE_ERROR else
  if flag status completion_mask then AHCI_IRQ_OBSERVE_COMPLETE else AHCI_IRQ_OBSERVE_NONE.

Definition ahci_irq_state_finish (gen : Z) (s : ahci_irq_state) : bool * ahci_irq_state :=
  if (gen =? 0) || (active s =? 0) || negb (generation s =? gen) then (false, s) else
  (true, Build_ahci_irq_state (generation s) 0 0 (interrupt_count s) (fallback_count s) (enabled s) 0).

Definition ahci_irq_state_record_fallback (s : ahci_irq_state) : ahci_irq_state :=
  Build_ahci_irq_state (generation s) (observed_generation s) (observed_status s)
    (interrupt_count s) (fallback_count s +32 1) (enabled s) (active s).

Definition ahci_irq_state_is_enabled (s : ahci_irq_state) : bool := negb (enabled s =? 0).
Definition ahci_irq_state_interrupt_count (s : ahci_irq_state) : Z := interrupt_count s.
Definition ahci_irq_state_fallback_count (s : ahci_irq_state) : Z := fallback_count s.
Definition ahci_irq_state_status (s : ahci_irq_state) : Z := observed_status s.

(** *** Specification: the interrupts of the running command *)

(** While a command runs, the statuses recorded since it began, oldest first. *)
Record command_log := {
  log_enabled : bool;
  log_generation : Z;
  running : option (list Z)
}.

Inductive irq_op :=
  | Enable | Disable | Begin | Record_ (status : Z) | Finish (gen : Z) | Fallback
  | Observe (gen completion_mask error_mask : Z).

Definition irq_exec (op : irq_op) (s : ahci_irq_state) : Z * ahci_irq_state :=
  match op with
  | Enable => (0, ahci_irq_state_enable s)
  | Disable => (0, ahci_irq_state_disable s)
  | Begin => ahci_irq_state_begin s
  | Record_ status => (0, ahci_irq_state_record status s)
  | Finish gen => let '(ok, s) := ahci_irq_state_finish gen s in (Z.b2z ok, s)
  | Fallback => (0, ahci_irq_state_record_fallback s)
  | Observe gen cm em => (ahci_irq_state_observe gen cm em s, s)
  end.

Definition all_status (l : list Z) : Z := foldl Z.lor 0 l.

Definition log_exec (op : irq_op) (s : command_log) : Z * command_log :=
  match op with
  | Enable => (0, Build_command_log true (log_generation s) (running s))
  | Disable => (0, Build_command_log false (log_generation s) None)
  | Begin =>
      match running s with
      | None =>
          if log_enabled s then
            let g := if log_generation s =? UINT32_MAX then 1 else log_generation s + 1 in
            (g, Build_command_log true g (Some []))
          else (0, s)
      | Some _ => (0, s)
      end
  | Record_ status =>
      match running s with
      | Some l => if status =? 0 then (0, s)
                  else (0, Build_command_log (log_enabled s) (log_generation s) (Some (l ++ [status])))
      | None => (0, s)
      end
  | Finish gen =>
      match running s with
      | Some _ => if gen =? log_generation s
                  then (1, Build_command_log (log_enabled s) (log_generation s) None) else (0, s)
      | None => (0, s)
      end
  | Fallback => (0, s)
  | Observe gen cm em =>
      match running s with
      | Some (status :: l) =>
          if gen =? log_generation s then
            if flag (all_status (status :: l)) em then (-1, s)
            else if flag (all_status (status :: l)) cm then (1, s) else (0, s)
          else (0, s)
      | _ => (0, s)
      end
  end.

Fixpoint irq_run (ops : list irq_op) (s : ahci_irq_state) : list Z * ahci_irq_state :=
  match ops with
  | [] => ([], s)
  | op :: ops => let '(r, s) := irq_exec op s in let '(rs, s) := irq_run ops s in (r :: rs, s)
  end.

Fixpoint log_run (ops : list irq_op) (s : command_log) : list Z :=
  match ops with
  | [] => []
  | op :: ops => let '(r, s) := log_exec op s in r :: log_run ops s
  end.

(** The fields stand for the log. *)
Definition represents (s : ahci_irq_state) (a : command_log) : Prop :=
  enabled s = Z.b2z (log_enabled a) /\ generation s = log_generation a /\ is_u32 (generation s) /\
  match running a with
  | None => active s = 0
  | Some l =>
      log_enabled a = true /\ active s = 1 /\ generation s <> 0 /\ observed_status s = all_status l /\
      observed_generation s = (if decide (l = []) then 0 else generation s)
  end.

Lemma all_status_snoc l x : all_status (l ++ [x]) = Z.lor (all_status l) x.
Proof. unfold all_status. by rewrite foldl_app. Qed.

Lemma irq_exec_refines op s a r s' : represents s a -> irq_exec op s = (r, s') ->
  exists a', log_exec op a = (r, a') /\ represents s' a'.
Proof.
  intros Hrep. pose proof Hrep as (He & Hg & Hu & Hr).
  destruct op as [| | |st|g| |g cm em]; cbn [irq_exec log_exec].
  - intros [= <- <-]. eexists. split; [done|]. unfold represents. cbn. by destruct (running a); intuition.
  - intros [= <- <-]. eexists. split; [done|]. by unfold represents.
  - unfold ahci_irq_state_begin. rewrite He. destruct (running a) as [l|].
    + destruct Hr as (Hen & -> & Hx). rewrite orb_true_r. intros [= <- <-]. by exists a.
    + rewrite Hr. destruct (log_enabled a) eqn:Een; cbn; intros [= <- <-]; [|by exists a].
      unfold UINT32_MAX, is_u32 in *. rewrite Hg in *.
      replace (if (log_generation a +32 1) =? 0 then 1 else log_generation a +32 1) with
        (if log_generation a =? 4294967295 then 1 else log_generation a + 1).
      * eexists. split; [done|]. unfold represents, is_u32. cbn. case_if; repeat split; lia.
      * case_if; [by replace (log_generation a) with 4294967295 by lia|].
        rewrite u32_id by (unfold is_u32; lia). by replace (_ =? 0) with false by lia.
  - unfold ahci_irq_state_record. rewrite He. destruct (running a) as [l|] eqn:Er.
    + destruct Hr as (Hen & Ha & Hnz & Hst & Hog). rewrite Hen, Ha. cbn.
      destruct (st =? 0); intros [= <- <-]; [by exists a|].
      eexists. split; [done|]. unfold represents. cbn. rewrite all_status_snoc, Hst.
      rewrite decide_False by (by destruct l). done.
    + rewrite Hr. cbn. destruct (_ || _); intros [= <- <-]; [by exists a|]. exists a. split; [done|].
      unfold represents. cbn. by rewrite Er.
  - unfold ahci_irq_state_finish. destruct (running a) as [l|] eqn:Er.
    + destruct Hr as (Hen & Ha & Hnz & Hst & Hog). rewrite Ha, Hg. cbn. rewrite orb_false_r.
      rewrite Hg in Hnz. destruct (Z.eqb_spec g (log_generation a)) as [->|Hne].
      * replace (log_generation a =? 0) with false by lia. rewrite Z.eqb_refl. cbn. intros [= <- <-].
        eexists. split; [done|]. unfold represents. cbn. by rewrite <- Hg.
      * replace (negb (log_generation a =? g)) with true by lia. rewrite orb_true_r. intros [= <- <-].
        by exists a.
    + rewrite Hr, orb_true_r. intros [= <- <-]. by exists a.
  - intros [= <- <-]. exists a. split; [done|]. unfold represents. cbn. by destruct (running a).
  - intros [= <- <-]. exists a. split; [|done]. unfold ahci_irq_state_observe.
    destruct (running a) as [l|] eqn:Er.
    + destruct Hr as (Hen & Ha & Hnz & Hst & Hog). rewrite He, Hen, Ha, Hog, Hst, Hg.
      change (Z.b2z true =? 0) with false. change (1 =? 0) with false. rewrite !orb_false_r. destruct l as [|x l].
      * rewrite decide_True by done. rewrite (Z.eqb_sym 0 g). destruct (g =? 0); [done|].
        by destruct (log_generation a =? g).
      * rewrite decide_False by done. rewrite Hg in Hnz. destruct (Z.eqb_spec g (log_generation a)) as [->|Hne].
        -- replace (log_generation a =? 0) with false by lia. rewrite Z.eqb_refl. cbn [negb orb].
           destruct (flag (all_status (x :: l)) em); [done|]. by destruct (flag _ cm).
        -- replace (log_generation a =? g) with false by lia. cbn [negb]. by rewrite !orb_true_r.
    + rewrite Hr. cbn. by rewrite !orb_true_r.
Qed.

(** C39: an interrupt is never credited to the wrong command. Along any sequence of calls after a
    reset, every result is the one of the log of interrupts of the running command: a completion
    or error is observed for a generation only while the command that [ahci_irq_state_begin]
    returned it for runs, and only from statuses recorded since that begin. *)
Theorem ahci_irq_refines_log s ops :
  fst (irq_run ops (ahci_irq_state_reset s)) = log_run ops (Build_command_log false 0 None).
Proof.
  assert (represents (ahci_irq_state_reset s) (Build_command_log false 0 None)) as Hr
    by (unfold represents, is_u32; cbn; repeat split; lia).
  revert Hr. generalize (ahci_irq_state_reset s) (Build_command_log false 0 None).
  induction ops as [|op ops IH]; intros t a Hr; [done|]. cbn [irq_run log_run].
  destruct (irq_exec op t) as [r t1] eqn:E. destruct (irq_exec_refines op t a r t1 Hr E) as (a1 & -> & Hr1).
  specialize (IH t1 a1 Hr1). destruct (irq_run ops t1) as [rs t2]. cbn in *. by rewrite IH.
Qed.

End Ahci.

(** ** ATA completion *)

Module Ata.

Definition ATA_IRQ_OBSERVE_ERROR : Z := -1.
Definition ATA_IRQ_OBSERVE_NONE : Z := 0.
Definition ATA_IRQ_OBSERVE_READY : Z := 1.
Definition ATA_IRQ_OBSERVE_PENDING : Z := 2.

Record ata_irq_state := { sequence : Z; status : Z; fallback_count : Z; enabled : bool }.

Definition ata_irq_state_reset (s : ata_irq_state) : ata_irq_state := Build_ata_irq_state 0 0 0 false.

Definition ata_irq_state_enable (s : ata_irq_state) : ata_irq_state :=
  Build_ata_irq_state (sequence s) (status s) (fallback_count s) true.

Definition ata_irq_state_disable (s : ata_irq_state) : ata_irq_state :=
  Build_ata_irq_state (sequence s) (status s) (fallback_count s) false.

Definition ata_irq_state_record (st : Z) (s : ata_irq_state) : ata_irq_state :=
  if negb (enabled s) then s else
  Build_ata_irq_state (sequence s +32 1) st (fallback_count s) (enabled s).

Definition ata_irq_state_snapshot (s : ata_irq_state) : Z := sequence s.
Definition ata_irq_state_count (s : ata_irq_state) : Z := ata_irq_state_snapshot s.
Definition ata_irq_state_status (s : ata_irq_state) : Z := status s.
Definition ata_irq_state_fallback_count (s : ata_irq_state) : Z := fallback_count s.
Definition ata_irq_state_is_enabled (s : ata_irq_state) : bool := enabled s.

Definition ata_irq_state_record_fallback (s : ata_irq_state) : ata_irq_state :=
  Build_ata_irq_state (sequence s) (status s) (fallback_count s +32 1) (enabled s).

Definition ata_irq_state_observe (snapshot required forbidden busy_mask : Z) (s : ata_irq_state) : Z :=
  if negb (enabled s) || (sequence s =? snapshot) then ATA_IRQ_OBSERVE_NONE else
  let st := u8 (status s) in
  if flag st forbidden then ATA_IRQ_OBSERVE_ERROR else
  if flag st busy_mask || negb (Z.land st required =? required) then ATA_IRQ_OBSERVE_PENDING
  else ATA_IRQ_OBSERVE_READY.

(** What the waiting code does with one status byte. *)
Definition classify (st required forbidden busy_mask : Z) : Z :=
  if flag st forbidden then ATA_IRQ_OBSERVE_ERROR else
  if flag st busy_mask || negb (Z.land st required =? required) then ATA_IRQ_OBSERVE_PENDING
  else ATA_IRQ_OBSERVE_READY.

Lemma records_spec sts s : enabled s = true -> is_u32 (sequence s) ->
  let s' := foldl (fun s st => ata_irq_state_record st s) s sts in
  enabled s' = true /\ sequence s' = u32 (sequence s + Z.of_nat (length sts)) /\
  status s' = foldl (fun _ st => st) (status s) sts.
Proof.
  revert s. induction sts as [|st sts IH]; intros s He Hu; cbv zeta; cbn [foldl].
  - rewrite Z.add_0_r, u32_id by done. done.
  - replace (ata_irq_state_record st s) with
      (Build_ata_irq_state (sequence s +32 1) st (fallback_count s) true)
      by (unfold ata_irq_state_record; by rewrite He).
    destruct (IH (Build_ata_irq_state (sequence s +32 1) st (fallback_count s) true)) as (H1 & H2 & H3);
      [done|apply u32_range|]. split; [done|]. split; [|done]. rewrite H2. cbn [sequence length].
    unfold u32. rewrite Zplus_mod_idemp_l. f_equal. lia.
Qed.

(** Waiting on a snapshot. Until an interrupt arrives after the snapshot, nothing is observed;
    after 1 to 2^32 - 1 interrupts the latest status is classified, whatever happened before. *)
Theorem ata_irq_observe_since s sts required forbidden busy_mask :
  enabled s = true -> is_u32 (sequence s) -> Forall is_u8 sts -> Z.of_nat (length sts) < 4294967296 ->
  ata_irq_state_observe (ata_irq_state_snapshot s) required forbidden busy_mask
    (foldl (fun s st => ata_irq_state_record st s) s sts) =
  match rev sts with
  | [] => ATA_IRQ_OBSERVE_NONE
  | st :: _ => classify st required forbidden busy_mask
  end.
Proof.
  intros He Hu Hb Hn. destruct (records_spec sts s He Hu) as (H1 & H2 & H3). cbv zeta in *.
  unfold ata_irq_state_observe, ata_irq_state_snapshot, is_u32 in *. rewrite H1, H2, H3. cbn [negb orb].
  destruct sts as [|st sts _] using rev_ind.
  - cbn. by rewrite Z.add_0_r, u32_id, Z.eqb_refl.
  - rewrite rev_app_distr. cbn [rev app]. rewrite length_app in *. cbn [length] in *.
    replace (u32 _ =? sequence s) with false by (unfold u32; dmlia).
    rewrite foldl_app. cbn [foldl]. apply Forall_app in Hb as [_ Hst%Forall_inv].
    by rewrite u8_id.
Qed.

Lemma ata_irq_observe_since_witness :
  ata_irq_state_observe 4294967295 0x40 0x21 0x80
    (foldl (fun s st => ata_irq_state_record st s) (Build_ata_irq_state 4294967295 0 0 true) [0x80; 0x50]) = 1.
Proof.
  apply (ata_irq_observe_since (Build_ata_irq_state 4294967295 0 0 true) [0x80; 0x50]);
    [reflexivity|unfold is_u32; cbn; lia| |cbn; lia].
  apply Forall_cons_2; [unfold is_u8; lia|]. apply Forall_cons_2; [unfold is_u8; lia|apply Forall_nil_2].
Defined.

End Ata.

(** ** AHCI error recovery *)

Module Recovery.

Definition ACTION_NONE : Z := 0.
Definition ACTION_PORT_RESET : Z := 1.
Definition ACTION_HBA_RESET : Z := 2.
Definition ACTION_COMPLETE : Z := 3.
Definition ACTION_FAIL_CLOSED : Z := 4.

Record ahci_recovery_state := { action : Z; port_attempts : Z; hba_attempts : Z; completions : Z }.

Definition fail_closed (s : ahci_recovery_state) : Z * ahci_recovery_state :=
  (ACTION_FAIL_CLOSED,
   Build_ahci_recovery_state ACTION_FAIL_CLOSED (port_attempts s) (hba_attempts s) (completions s)).

Definition increment_saturating (value : Z) : Z :=
  if negb (value =? UINT32_MAX) then value +32 1 else value.

Definition ahci_recovery_state_reset (s : ahci_recovery_state) : ahci_recovery_state :=
  Build_ahci_recovery_state ACTION_NONE 0 0 0.

Definition ahci_recovery_begin (s : ahci_recovery_state) : Z * ahci_recovery_state :=
  if negb (action s =? ACTION_NONE) then fail_closed s else
  (ACTION_PORT_RESET,
   Build_ahci_recovery_state ACTION_PORT_RESET (increment_saturating (port_attempts s)) (hba_attempts s)
     (completions s)).

Definition ahci_recovery_advance (completed_action : Z) (reset_succeeded retry_succeeded : bool)
    (s : ahci_recovery_state) : Z * ahci_recovery_state :=
  if (negb (completed_action =? ACTION_PORT_RESET) && negb (completed_action =? ACTION_HBA_RESET)) ||
     negb (action s =? completed_action) || (negb reset_succeeded && retry_succeeded)
  then fail_closed s else
  if reset_succeeded && retry_succeeded then
    (ACTION_COMPLETE,
     Build_ahci_recovery_state ACTION_NONE (port_attempts s) (hba_attempts s)
       (increment_saturating (completions s)))
  else if completed_action =? ACTION_PORT_RESET then
    (ACTION_HBA_RESET,
     Build_ahci_recovery_state ACTION_HBA_RESET (port_attempts s) (increment_saturating (hba_attempts s))
       (completions s))
  else fail_closed s.

Definition ahci_recovery_is_failed (s : ahci_recovery_state) : bool := action s =? ACTION_FAIL_CLOSED.
Definition ahci_recovery_port_attempts (s : ahci_recovery_state) : Z := port_attempts s.
Definition ahci_recovery_hba_attempts (s : ahci_recovery_state) : Z := hba_attempts s.
Definition ahci_recovery_completions (s : ahci_recovery_state) : Z := completions s.

(** *** The machine as a transition relation *)

Inductive step : ahci_recovery_state -> Z -> ahci_recovery_state -> Prop :=
  | step_begin s r s' : ahci_recovery_begin s = (r, s') -> step s r s'
  | step_advance s completed ok retry r s' :
      ahci_recovery_advance completed ok retry s = (r, s') -> step s r s'.

(** Calls in order with the actions they return. *)
Inductive steps : ahci_recovery_state -> list Z -> ahci_recovery_state -> Prop :=
  | steps_nil s : steps s [] s
  | steps_cons s r s1 rs s2 : step s r s1 -> steps s1 rs s2 -> steps s (r :: rs) s2.

(** An escalation that ends: a port reset, at most one controller reset, then success or failure. *)
Inductive episode : list Z -> Prop :=
  | ep_done : episode [ACTION_PORT_RESET; ACTION_COMPLETE]
  | ep_done_hba : episode [ACTION_PORT_RESET; ACTION_HBA_RESET; ACTION_COMPLETE].

(** Successful escalations, then possibly one that is under way or has failed for good. *)
Inductive history : list Z -> Z -> Prop :=
  | h_none : history [] ACTION_NONE
  | h_port : history [ACTION_PORT_RESET] ACTION_PORT_RESET
  | h_hba : history [ACTION_PORT_RESET; ACTION_HBA_RESET] ACTION_HBA_RESET
  | h_fail l n : l = [] \/ l = [ACTION_PORT_RESET] \/ l = [ACTION_PORT_RESET; ACTION_HBA_RESET] ->
      history (l ++ replicate (S n) ACTION_FAIL_CLOSED) ACTION_FAIL_CLOSED
  | h_episode e l a : episode e -> history l a -> history (e ++ l) a.

(** A counter that stops at the largest [unsigned int]. *)
Definition saturated (n : nat) : Z := Z.min UINT32_MAX (Z.of_nat n).

Definition occurrences (a : Z) (l : list Z) : nat := length (filter (fun x => x = a) l).

Lemma increment_saturated n : increment_saturating (saturated n) = saturated (S n).
Proof.
  unfold increment_saturating, saturated, UINT32_MAX. case_if; split_bools; [|lia].
  rewrite u32_id; unfold is_u32; lia.
Qed.

(** What each call can do, by the action the state is in. *)
Lemma step_cases s r s' : step s r s' ->
  (r = ACTION_FAIL_CLOSED /\ s' = snd (fail_closed s)) \/
  (action s = ACTION_NONE /\ r = ACTION_PORT_RESET /\
   s' = Build_ahci_recovery_state ACTION_PORT_RESET (increment_saturating (port_attempts s))
          (hba_attempts s) (completions s)) \/
  (action s = ACTION_PORT_RESET /\ r = ACTION_HBA_RESET /\
   s' = Build_ahci_recovery_state ACTION_HBA_RESET (port_attempts s)
          (increment_saturating (hba_attempts s)) (completions s)) \/
  ((action s = ACTION_PORT_RESET \/ action s = ACTION_HBA_RESET) /\ r = ACTION_COMPLETE /\
   s' = Build_ahci_recovery_state ACTION_NONE (port_attempts s) (hba_attempts s)
          (increment_saturating (completions s))).
Proof.
  intros [s1 r1 s1' E|s1 comp ok retry r1 s1' E].
  - revert E. unfold ahci_recovery_begin. case_if; split_bools; intros [= <- <-].
    + by left.
    + right. left. split; [lia|done].
  - revert E. unfold ahci_recovery_advance. case_if; [intros [= <- <-]; by left|].
    case_if; [intros [= <- <-]; right; right; right; split_bools; split; [lia|done]|].
    case_if; intros [= <- <-]; [right; right; left; split_bools; split; [lia|done]|by left].
Qed.

(** One more call after a history. *)
Lemma history_step l s r s' : history l (action s) -> step s r s' -> history (l ++ [r]) (action s').
Proof.
  intros Hh Hst%step_cases. remember (action s) as a eqn:Ha. revert Ha.
  induction Hh as [| | |l n Hl|e l a He Hh IH]; intros Ha.
  5: { rewrite <- app_assoc. apply h_episode; [done|]. by apply IH. }
  all: destruct Hst as [(-> & ->)|[(E & -> & ->)|[(E & -> & ->)|(E & -> & ->)]]];
    try (destruct E as [E|E]); try discriminate E; cbn [action fail_closed snd app].
  - apply (h_fail [] 0). by left.
  - apply h_port.
  - apply (h_fail [_] 0). auto.
  - apply h_hba.
  - apply (h_episode [_; _] []); [apply ep_done|apply h_none].
  - apply (h_fail [_; _] 0). auto.
  - apply (h_episode [_; _; _] []); [apply ep_done_hba|apply h_none].
  - rewrite <- app_assoc, <- replicate_S_end. by apply h_fail.
Qed.

Definition counted (l : list Z) (s : ahci_recovery_state) : Prop :=
  ahci_recovery_port_attempts s = saturated (occurrences ACTION_PORT_RESET l) /\
  ahci_recovery_hba_attempts s = saturated (occurrences ACTION_HBA_RESET l) /\
  ahci_recovery_completions s = saturated (occurrences ACTION_COMPLETE l).

Lemma occurrences_snoc a l r :
  occurrences a (l ++ [r]) = if decide (r = a) then S (occurrences a l) else occurrences a l.
Proof.
  unfold occurrences. rewrite list.filter_app, length_app, list.filter_cons.
  case_decide; cbn; lia.
Qed.

Lemma counted_step l s r s' : counted l s -> step s r s' -> counted (l ++ [r]) s'.
Proof.
  intros (H1 & H2 & H3) Hst%step_cases.
  unfold counted, ahci_recovery_port_attempts, ahci_recovery_hba_attempts, ahci_recovery_completions in *.
  rewrite !occurrences_snoc.
  destruct Hst as [(-> & ->)|[(E & -> & ->)|[(E & -> & ->)|(E & -> & ->)]]];
    cbn -[increment_saturating]; rewrite ?H1, ?H2, ?H3, ?increment_saturated; done.
Qed.

Lemma steps_history l s rs s' : history l (action s) -> counted l s -> steps s rs s' ->
  history (l ++ rs) (action s') /\ counted (l ++ rs) s'.
Proof.
  intros Hh Hc Hs. revert l Hh Hc. induction Hs as [s|s r s1 rs s2 Hst Hs IH]; intros l Hh Hc.
  - by rewrite app_nil_r.
  - replace (l ++ r :: rs) with ((l ++ [r]) ++ rs) by (by rewrite <- app_assoc).
    apply IH; [by eapply history_step|by eapply counted_step].
Qed.

(** Every sequence of calls after a reset, in whatever order and with whatever results
    reported, returns completed escalations (one port reset, at most one controller reset, then
    completion) followed by at most one unfinished one; a failure is permanent. The counters are
    the numbers of actions handed out, stopped at the largest [unsigned int]. *)
Theorem ahci_recovery_escalation s0 rs s : steps (ahci_recovery_state_reset s0) rs s ->
  history rs (action s) /\ counted rs s /\
  (ahci_recovery_is_failed s = true <-> ACTION_FAIL_CLOSED ∈ rs).
Proof.
  intros Hs. destruct (steps_history [] (ahci_recovery_state_reset s0) rs s h_none ltac:(done) Hs) as [Hh Hc]. cbn [app] in *.
  split; [done|]. split; [done|]. unfold ahci_recovery_is_failed.
  clear Hs Hc. induction Hh as [| | |l n Hl|e l a He Hh IH]; rewrite ?elem_of_app.
  1-3: split; [done|intros H; exfalso; set_unfold in H; naive_solver].
  - split; [intros _; right; by left|done].
  - rewrite IH. split; [auto|intros [H|H]; [exfalso|done]].
    destruct He; set_unfold in H; naive_solver.
Qed.

Lemma ahci_recovery_escalation_witness :
  exists s, steps (ahci_recovery_state_reset (Build_ahci_recovery_state 4 7 7 7))
    [ACTION_PORT_RESET; ACTION_HBA_RESET; ACTION_COMPLETE; ACTION_PORT_RESET] s /\
    ahci_recovery_completions s = 1 /\ ahci_recovery_is_failed s = false /\
    history [ACTION_PORT_RESET; ACTION_HBA_RESET; ACTION_COMPLETE; ACTION_PORT_RESET] (action s).
Proof.
  eexists. match goal with |- ?P /\ _ => assert (H : P) end.
  { eapply steps_cons; [apply step_begin; reflexivity|].
    eapply steps_cons; [apply (step_advance _ ACTION_PORT_RESET true false); reflexivity|].
    eapply steps_cons; [apply (step_advance _ ACTION_HBA_RESET true true); reflexivity|].
    eapply steps_cons; [apply step_begin; reflexivity|]. apply steps_nil. }
  split; [exact H|]. split; [reflexivity|]. split; [reflexivity|].
  exact (proj1 (ahci_recovery_escalation _ _ _ H)).
Defined.

End Recovery.
