(* ===== verification/AhciLayout.v ===== *)
(** * AHCI command structures

    [drivers/ahci_layout.c] and [drivers/ahci_layout.h]: link tests, capacity and identity from
    IDENTIFY data, and the construction of the command header, command table and host-to-device
    register FIS of a read. The header and the table are the controller's DMA objects, never
    null; a 256-word IDENTIFY block is a list. *)

From S2P Require Import Prelude.
Local Open Scope c_scope.
Local Open Scope Z_scope.

Definition AHCI_FIS_TYPE_REGISTER_H2D : Z := 0x27.
Definition AHCI_FIS_COMMAND : Z := 0x80.
Definition AHCI_COMMAND_FIS_DWORDS : Z := 5.
Definition AHCI_ATA_CMD_IDENTIFY : Z := 0xEC.
Definition AHCI_ATA_CMD_READ_DMA : Z := 0xC8.
Definition AHCI_ATA_CMD_READ_DMA_EXT : Z := 0x25.
Definition AHCI_LBA28_LIMIT : Z := 0x10000000.
Definition AHCI_LBA48_SECTOR_COUNT_MAX : Z := 0x0001000000000000.
Definition AHCI_SECTOR_SIZE : Z := 512.
Definition AHCI_MAX_TRANSFER_SECTORS : Z := 8.
Definition AHCI_ATA_SIGNATURE : Z := 0x00000101.
Definition AHCI_SCTL_DETECTION_MASK : Z := 0x0000000F.
Definition AHCI_SCTL_DETECTION_COMRESET : Z := 0x00000001.

Record ahci_command_header := {
  flags : Z;
  prdt_length : Z;
  prd_byte_count : Z;
  command_table_base : Z;
  command_table_base_upper : Z;
  header_reserved : list Z
}.

Record ahci_prd := {
  data_base : Z;
  data_base_upper : Z;
  prd_reserved : Z;
  byte_count_and_flags : Z
}.

Record ahci_command_table := {
  command_fis : list Z;
  atapi_command : list Z;
  table_reserved : list Z;
  prdt : ahci_prd
}.

(** [clear_bytes] over a whole structure. *)
Definition zero_header : ahci_command_header := Build_ahci_command_header 0 0 0 0 0 (replicate 4 0).
Definition zero_prd : ahci_prd := Build_ahci_prd 0 0 0 0.
Definition zero_table : ahci_command_table :=
  Build_ahci_command_table (replicate 64 0) (replicate 16 0) (replicate 48 0) zero_prd.

(** The header and the table a command is built in. *)
Record command := { header : ahci_command_header; table : ahci_command_table }.

Definition set_fis (index value : Z) (c : command) : command :=
  Build_command (header c)
    (Build_ahci_command_table (arr_set (command_fis (table c)) index value)
       (atapi_command (table c)) (table_reserved (table c)) (prdt (table c))).

Definition words_equal (left right : list Z) (first count : Z) : bool :=
  all_range 0 count (fun index => arr left (first + index) =? arr right (first + index)).

Definition prepare_data_command (table_physical data_physical byte_count : Z) (c : command) :
    bool * command :=
  if (byte_count =? 0) || (AHCI_SECTOR_SIZE * AHCI_MAX_TRANSFER_SECTORS <? byte_count) ||
     flag table_physical 0x7F || flag data_physical 1
  then (false, c) else
  let h := Build_ahci_command_header AHCI_COMMAND_FIS_DWORDS 1 (prd_byte_count zero_header)
    table_physical (command_table_base_upper zero_header) (header_reserved zero_header) in
  let prd := Build_ahci_prd data_physical (data_base_upper zero_prd) (prd_reserved zero_prd)
    (byte_count -32 1) in
  let t := Build_ahci_command_table (command_fis zero_table) (atapi_command zero_table)
    (table_reserved zero_table) prd in
  let c := Build_command h t in
  let c := set_fis 0 AHCI_FIS_TYPE_REGISTER_H2D c in
  let c := set_fis 1 AHCI_FIS_COMMAND c in
  (true, c).

Definition ahci_link_is_active (sata_status : Z) : bool :=
  let detection := Z.land sata_status 0x0F in
  let power := Z.land (Z.shiftr sata_status 8) 0x0F in
  (detection =? 3) && (power =? 1).

Definition ahci_link_is_established (sata_status signature : Z) : bool :=
  ahci_link_is_active sata_status && (signature =? AHCI_ATA_SIGNATURE).

Definition ahci_port_is_usable_sata (implemented_ports port sata_status signature : Z) : bool :=
  (port <? 32) && flag implemented_ports (shl32 1 port) && ahci_link_is_established sata_status signature.

Definition ahci_comreset_assert_control (sata_control : Z) : Z :=
  Z.lor (Z.land sata_control (not32 AHCI_SCTL_DETECTION_MASK)) AHCI_SCTL_DETECTION_COMRESET.

Definition ahci_comreset_release_control (sata_control : Z) : Z :=
  Z.land sata_control (not32 AHCI_SCTL_DETECTION_MASK).

(** The capacity in sectors and whether the device takes 48-bit addresses. *)
Definition ahci_identify_capacity (identify : list Z) : option (Z * bool) :=
  if negb (flag (arr identify 49) 0x0200) then None else
  let supports_lba48 := flag (arr identify 83) 0x0400 in
  let count :=
    if supports_lba48 then
      Z.lor (Z.lor (Z.lor (arr identify 100) (shl64 (arr identify 101) 16)) (shl64 (arr identify 102) 32))
        (shl64 (arr identify 103) 48)
    else Z.lor (shl32 (arr identify 61) 16) (arr identify 60) in
  if (if supports_lba48 then AHCI_LBA48_SECTOR_COUNT_MAX <? count else AHCI_LBA28_LIMIT <? count)
  then None else
  if count =? 0 then None else Some (count, supports_lba48).

Definition ahci_identify_same_device (baseline candidate : list Z) : bool :=
  match ahci_identify_capacity baseline, ahci_identify_capacity candidate with
  | Some (baseline_sectors, baseline_lba48), Some (candidate_sectors, candidate_lba48) =>
      (baseline_sectors =? candidate_sectors) && eqb baseline_lba48 candidate_lba48 &&
      (arr baseline 0 =? arr candidate 0) && (arr baseline 49 =? arr candidate 49) &&
      words_equal baseline candidate 10 10 && words_equal baseline candidate 23 24
  | _, _ => false
  end.

Definition ahci_build_identify_command (table_physical data_physical : Z) (c : command) : bool * command :=
  let '(ok, c) := prepare_data_command table_physical data_physical AHCI_SECTOR_SIZE c in
  if negb ok then (false, c) else (true, set_fis 2 AHCI_ATA_CMD_IDENTIFY c).

Definition read_guard (lba count : Z) (lba48_supported : bool) : bool :=
  (count =? 0) || (AHCI_MAX_TRANSFER_SECTORS <? count) ||
  (lba48_supported && ((AHCI_LBA48_SECTOR_COUNT_MAX <=? lba) ||
     (AHCI_LBA48_SECTOR_COUNT_MAX -64 lba <? count))) ||
  (negb lba48_supported && ((AHCI_LBA28_LIMIT <=? lba) || (AHCI_LBA28_LIMIT -64 lba <? count))).

Definition ahci_build_read_command (table_physical data_physical lba count : Z) (lba48_supported : bool)
    (c : command) : bool * command :=
  if read_guard lba count lba48_supported then (false, c) else
  let '(ok, c) := prepare_data_command table_physical data_physical (count * AHCI_SECTOR_SIZE) c in
  if negb ok then (false, c) else
  let c := set_fis 2 (if lba48_supported then AHCI_ATA_CMD_READ_DMA_EXT else AHCI_ATA_CMD_READ_DMA) c in
  let c := set_fis 4 (u8 lba) c in
  let c := set_fis 5 (u8 (Z.shiftr lba 8)) c in
  let c := set_fis 6 (u8 (Z.shiftr lba 16)) c in
  let c := set_fis 7 (if lba48_supported then 0x40
                      else u8 (Z.lor 0xE0 (Z.land (Z.shiftr lba 24) 0x0F))) c in
  let c :=
    if lba48_supported then
      let c := set_fis 8 (u8 (Z.shiftr lba 24)) c in
      let c := set_fis 9 (u8 (Z.shiftr lba 32)) c in
      let c := set_fis 10 (u8 (Z.shiftr lba 40)) c in
      let c := set_fis 12 count c in
      set_fis 13 0 c
    else set_fis 12 count c in
  (true, c).

(** ** Specification: how a device reads the command *)

(** The address, sector count and address width of a read FIS, as the ATA register layout
    defines them: the low four bits of the device register extend a 28-bit address, the
    extended registers a 48-bit one, and a zero count field stands for the largest transfer. *)
Definition fis_lba (fis : list Z) : Z :=
  if arr fis 2 =? 0x25 then
    arr fis 4 + 2 ^ 8 * arr fis 5 + 2 ^ 16 * arr fis 6 + 2 ^ 24 * arr fis 8 + 2 ^ 32 * arr fis 9 +
    2 ^ 40 * arr fis 10
  else arr fis 4 + 2 ^ 8 * arr fis 5 + 2 ^ 16 * arr fis 6 + 2 ^ 24 * (arr fis 7 mod 16).

Definition fis_count (fis : list Z) : Z :=
  if arr fis 2 =? 0x25 then
    let n := arr fis 12 + 2 ^ 8 * arr fis 13 in if n =? 0 then 65536 else n
  else if arr fis 12 =? 0 then 256 else arr fis 12.

(** The one data block the controller transfers: where and how many bytes. *)
Definition prd_block (p : ahci_prd) : Z * Z :=
  (data_base p + 2 ^ 32 * data_base_upper p, byte_count_and_flags p mod 2 ^ 22 + 1).

(** A command the controller takes for a transfer of [count] sectors from [lba] into [data]. *)
Definition reads_sectors (c : command) (table_physical data lba count : Z) : Prop :=
  let fis := command_fis (table c) in
  length fis = 64%nat /\ bytes_ok fis /\
  arr fis 0 = 0x27 /\ Z.testbit (arr fis 1) 7 = true /\ (arr fis 2 = 0x25 \/ arr fis 2 = 0xC8) /\
  Z.testbit (arr fis 7) 6 = true /\
  fis_lba fis = lba /\ fis_count fis = count /\
  flags (header c) = 5 /\ prdt_length (header c) = 1 /\
  command_table_base (header c) + 2 ^ 32 * command_table_base_upper (header c) = table_physical /\
  prd_block (prdt (table c)) = (data, 512 * count).

(** ** Lemmas *)

Lemma arr_u16 l i : Forall is_u16 l -> is_u16 (arr l i).
Proof.
  intros H. unfold arr. destruct (nth_in_or_default (Z.to_nat i) l 0) as [Hin| ->].
  - rewrite Forall_forall in H. by apply H.
  - unfold is_u16. lia.
Qed.

(** Four words put together by shifts and ors. *)
Lemma lor_words a b c d : is_u16 a -> is_u16 b -> is_u16 c -> is_u16 d ->
  Z.lor (Z.lor (Z.lor a (shl64 b 16)) (shl64 c 32)) (shl64 d 48) =
  a + 2 ^ 16 * b + 2 ^ 32 * c + 2 ^ 48 * d.
Proof.
  unfold is_u16, shl64. intros. rewrite !u64_id by (unfold is_u64; rewrite Z.shiftl_mul_pow2; lia).
  rewrite (lor_shiftl a b 16) by lia. rewrite (lor_shiftl _ c 32) by lia.
  rewrite (lor_shiftl _ d 48) by lia. lia.
Qed.

(** The capacity words, in unbounded arithmetic. *)
Lemma identify_capacity_spec identify n lba48 : Forall is_u16 identify ->
  ahci_identify_capacity identify = Some (n, lba48) ->
  0 < n <= (if lba48 then 2 ^ 48 else 2 ^ 28) /\
  n = if lba48 then arr identify 100 + 2 ^ 16 * arr identify 101 + 2 ^ 32 * arr identify 102 +
                    2 ^ 48 * arr identify 103
      else arr identify 60 + 2 ^ 16 * arr identify 61.
Proof.
  intros Hw. unfold ahci_identify_capacity, AHCI_LBA48_SECTOR_COUNT_MAX, AHCI_LBA28_LIMIT. guards.
  intros [= <- <-]. pose proof (arr_u16 _ 60 Hw) as H60. pose proof (arr_u16 _ 61 Hw) as H61.
  destruct (flag (arr identify 83) 0x0400); cbn [negb] in *.
  - rewrite lor_words in * by (by apply arr_u16).
    pose proof (arr_u16 _ 100 Hw). pose proof (arr_u16 _ 101 Hw). pose proof (arr_u16 _ 102 Hw).
    pose proof (arr_u16 _ 103 Hw). unfold is_u16 in *. lia.
  - rewrite Z.lor_comm in *. unfold shl32, is_u16 in *.
    rewrite u32_id in * by (unfold is_u32; rewrite Z.shiftl_mul_pow2; lia).
    rewrite lor_shiftl in * by lia. lia.
Qed.

(** The prepared header and table, for a transfer the guards let through. *)
Lemma prepare_spec tp dp n c :
  1 <= n <= 4096 -> tp mod 128 = 0 -> dp mod 2 = 0 ->
  prepare_data_command tp dp n c =
  (true, Build_command (Build_ahci_command_header 5 1 0 tp 0 (replicate 4 0))
           (Build_ahci_command_table ([0x27; 0x80] ++ replicate 62 0) (replicate 16 0) (replicate 48 0)
              (Build_ahci_prd dp 0 0 (n - 1)))).
Proof.
  intros Hn Ht Hd. unfold prepare_data_command, flag, AHCI_SECTOR_SIZE, AHCI_MAX_TRANSFER_SECTORS.
  change 0x7F with (2 ^ 7 - 1). replace (Z.land dp 1) with (Z.land dp (2 ^ 1 - 1)) by done.
  rewrite !land_mask by lia. change (2 ^ 7) with 128. change (2 ^ 1) with 2. rewrite Ht, Hd.
  replace (_ || _) with false by lia. rewrite u32_id by (unfold is_u32; lia). done.
Qed.

(** The guard of the read, in unbounded arithmetic. *)
Lemma read_guard_spec lba count (lba48 : bool) : is_u64 lba -> is_u8 count ->
  read_guard lba count lba48 = false <->
  1 <= count <= 8 /\ lba + count <= (if lba48 then 2 ^ 48 else 2 ^ 28).
Proof.
  unfold read_guard, is_u64, is_u8, u64, AHCI_LBA48_SECTOR_COUNT_MAX, AHCI_LBA28_LIMIT,
    AHCI_MAX_TRANSFER_SECTORS. intros Hl Hc.
  destruct lba48; cbn [andb negb]; rewrite ?orb_false_r; dmlia.
Qed.

Lemma device_register x : 0 <= x < 16 -> Z.lor 0xE0 x = 0xE0 + x.
Proof.
  intros Hx. rewrite Z.lor_comm. change (Z.lor x 0xE0) with (Z.lor x (Z.shiftl 7 5)).
  rewrite lor_shiftl by lia. lia.
Qed.

(** Byte [k + 1] of a number, from the number without its first [k] bytes. *)
Lemma shiftr_byte x k j : 0 <= k -> k + 8 = j ->
  Z.shiftr x k = u8 (Z.shiftr x k) + 2 ^ 8 * Z.shiftr x j.
Proof.
  intros Hk <-. rewrite <- (Z.shiftr_shiftr x k 8), (Z.shiftr_div_pow2 _ 8) by lia. unfold u8.
  change (2 ^ 8) with 256. dmlia.
Qed.

Lemma shiftr_range x k n : 0 <= k -> 0 <= n -> 0 <= x < 2 ^ (k + n) -> 0 <= Z.shiftr x k < 2 ^ n.
Proof.
  intros Hk Hn Hx. rewrite Z.shiftr_div_pow2 by lia. rewrite Z.pow_add_r in Hx by lia.
  split; [apply Z.div_pos; lia|]. apply Z.div_lt_upper_bound; lia.
Qed.

(** Six bytes of an address below 2^48, four of one below 2^28. *)
Lemma lba48_bytes lba : 0 <= lba < 2 ^ 48 ->
  u8 lba + 2 ^ 8 * u8 (Z.shiftr lba 8) + 2 ^ 16 * u8 (Z.shiftr lba 16) + 2 ^ 24 * u8 (Z.shiftr lba 24) +
  2 ^ 32 * u8 (Z.shiftr lba 32) + 2 ^ 40 * u8 (Z.shiftr lba 40) = lba.
Proof.
  intros H. pose proof (shiftr_byte lba 0 8 ltac:(lia) eq_refl) as H0. rewrite Z.shiftr_0_r in H0.
  pose proof (shiftr_byte lba 8 16 ltac:(lia) eq_refl). pose proof (shiftr_byte lba 16 24 ltac:(lia) eq_refl).
  pose proof (shiftr_byte lba 24 32 ltac:(lia) eq_refl).
  pose proof (shiftr_byte lba 32 40 ltac:(lia) eq_refl). pose proof (shiftr_range lba 40 8).
  rewrite (u8_id (Z.shiftr lba 40)) by (unfold is_u8; lia). lia.
Qed.

Lemma lba28_bytes lba : 0 <= lba < 2 ^ 28 ->
  u8 lba + 2 ^ 8 * u8 (Z.shiftr lba 8) + 2 ^ 16 * u8 (Z.shiftr lba 16) +
  2 ^ 24 * ((0xE0 + Z.shiftr lba 24) mod 16) = lba.
Proof.
  intros H. pose proof (shiftr_byte lba 0 8 ltac:(lia) eq_refl) as H0. rewrite Z.shiftr_0_r in H0.
  pose proof (shiftr_byte lba 8 16 ltac:(lia) eq_refl). pose proof (shiftr_byte lba 16 24 ltac:(lia) eq_refl).
  pose proof (shiftr_range lba 24 4).
  replace ((0xE0 + Z.shiftr lba 24) mod 16) with (Z.shiftr lba 24) by dmlia.
  lia.
Qed.

Lemma set_fis_build h f a r p i v :
  set_fis i v (Build_command h (Build_ahci_command_table f a r p)) =
  Build_command h (Build_ahci_command_table (arr_set f i v) a r p).
Proof. done. Qed.

Lemma fis_list28 b4 b5 b6 b7 n :
  arr_set (arr_set (arr_set (arr_set (arr_set (arr_set ([0x27; 0x80] ++ replicate 62 0)
    2 0xC8) 4 b4) 5 b5) 6 b6) 7 b7) 12 n =
  [0x27; 0x80; 0xC8; 0; b4; b5; b6; b7; 0; 0; 0; 0; n; 0] ++ replicate 50 0.
Proof. reflexivity. Qed.

Lemma fis_list48 b4 b5 b6 b8 b9 b10 n :
  arr_set (arr_set (arr_set (arr_set (arr_set (arr_set (arr_set (arr_set (arr_set (arr_set
    ([0x27; 0x80] ++ replicate 62 0) 2 0x25) 4 b4) 5 b5) 6 b6) 7 0x40) 8 b8) 9 b9) 10 b10) 12 n) 13 0 =
  [0x27; 0x80; 0x25; 0; b4; b5; b6; 0x40; b8; b9; b10; 0; n; 0] ++ replicate 50 0.
Proof. reflexivity. Qed.

(** Reading an explicit FIS. *)
Ltac read_fis := cbv [arr Z.to_nat Pos.to_nat Pos.iter_op Nat.add nth app header table command_fis prdt
  flags prdt_length command_table_base command_table_base_upper data_base data_base_upper byte_count_and_flags].

Lemma fis_bytes_ok l : Forall is_u8 l -> bytes_ok (l ++ replicate 50 0).
Proof.
  intros H. apply Forall_app. split; [done|]. apply Forall_replicate. unfold is_u8. lia.
Qed.

Ltac bytes := repeat apply Forall_cons_2; try apply Forall_nil_2; try done; unfold is_u8; lia.

Lemma build_read_encodes tp dp lba count (lba48 : bool) c :
  tp mod 128 = 0 -> dp mod 2 = 0 -> 0 <= lba -> 1 <= count <= 8 ->
  lba + count <= (if lba48 then 2 ^ 48 else 2 ^ 28) ->
  exists c', ahci_build_read_command tp dp lba count lba48 c = (true, c') /\
    reads_sectors c' tp dp lba count.
Proof.
  intros Ht Hd Hl Hc Hr. unfold ahci_build_read_command, AHCI_ATA_CMD_READ_DMA_EXT, AHCI_ATA_CMD_READ_DMA.
  rewrite (proj2 (read_guard_spec lba count lba48 ltac:(unfold is_u64; destruct lba48; lia)
    ltac:(unfold is_u8; lia))) by done.
  rewrite prepare_spec by (unfold AHCI_SECTOR_SIZE; lia). cbn [negb]. cbv zeta.
  assert (Hb : forall k, is_u8 (u8 (Z.shiftr lba k))) by (intros; apply u8_range).
  pose proof (u8_range lba) as Hb0. pose proof (shiftr_range lba 24 4) as Hs.
  destruct lba48; rewrite !set_fis_build; (eexists; split; [reflexivity|]);
    unfold reads_sectors, fis_lba, fis_count, prd_block, AHCI_SECTOR_SIZE.
  - cbn [table command_fis]. rewrite fis_list48. split; [done|]. split; [apply fis_bytes_ok; bytes|].
    read_fis. change (37 =? 37) with true. cbv iota. rewrite lba48_bytes by lia.
    split_and!; try done; try lia; [case_if; lia|].
    rewrite Z.mod_small by lia. f_equal; lia.
  - assert (Hdev : u8 (Z.lor 0xE0 (Z.land (Z.shiftr lba 24) 0x0F)) = 0xE0 + Z.shiftr lba 24).
    { change 0x0F with (2 ^ 4 - 1). rewrite land_mask by lia.
      rewrite device_register by (apply Z.mod_pos_bound; lia).
      rewrite Z.mod_small by (change (2 ^ 4) with 16; lia). apply u8_id. unfold is_u8. lia. }
    rewrite Hdev. cbn [table command_fis]. rewrite fis_list28. split; [done|].
    split; [apply fis_bytes_ok; bytes|].
    read_fis. change (200 =? 37) with false. cbv iota. rewrite lba28_bytes by lia.
    split_and!; try done; try lia; [|case_if; lia|].
    + apply Z.testbit_true; [lia|]. change (2 ^ 6) with 64. dmlia.
    + rewrite Z.mod_small by lia. f_equal; lia.
Qed.

(** Reading a device. For every IDENTIFY block with an accepted capacity, every request of
    one to eight sectors inside that capacity is encoded, and the controller decodes from the
    FIS and the region descriptor exactly that address, that count and that buffer; any request
    the address width cannot express is refused and leaves the structures alone. *)
Theorem ahci_read_roundtrip identify n (lba48 : bool) tp dp lba count c :
  Forall is_u16 identify -> ahci_identify_capacity identify = Some (n, lba48) ->
  tp mod 128 = 0 -> dp mod 2 = 0 -> is_u64 lba -> is_u8 count ->
  (1 <= count <= 8 -> lba + count <= n ->
   exists c', ahci_build_read_command tp dp lba count lba48 c = (true, c') /\
     reads_sectors c' tp dp lba count) /\
  (~ (1 <= count <= 8 /\ lba + count <= if lba48 then 2 ^ 48 else 2 ^ 28) ->
   ahci_build_read_command tp dp lba count lba48 c = (false, c)).
Proof.
  intros Hw Hid Ht Hd Hl Hc. destruct (identify_capacity_spec _ _ _ Hw Hid) as [Hn _]. split.
  - intros Hc8 Hln. apply build_read_encodes; try done; [apply Hl|lia].
  - intros Hno. unfold ahci_build_read_command.
    destruct (read_guard lba count lba48) eqn:E; [done|]. exfalso. apply Hno.
    by apply read_guard_spec.
Qed.

Definition sample_identify : list Z :=
  arr_set (arr_set (arr_set (arr_set (replicate 256 0) 49 0x0200) 83 0x0400) 100 0x1000) 103 0.

Lemma ahci_read_roundtrip_witness :
  exists c', ahci_build_read_command 0x1080 0x2000 0x0FF8 8 true (Build_command zero_header zero_table) =
    (true, c') /\ reads_sectors c' 0x1080 0x2000 0x0FF8 8.
Proof.
  apply (ahci_read_roundtrip sample_identify 0x1000 true 0x1080 0x2000 0x0FF8 8); try reflexivity; try lia;
    try (unfold is_u64, is_u8; lia).
  repeat apply Forall_cons_2; try apply Forall_nil_2; unfold is_u16; lia.
Defined.
