(* ===== verification/AhciTable.v ===== *)
(** * The AHCI device table

    [drivers/ahci_device_table.c] and [drivers/ahci_device_table.h]: the eight-slot table of
    probed disks, each with the block device its clients use. A pointer to slot [i] of the table,
    the context of that slot's block device, is [Z.of_nat i]. *)

From S2P Require Import Prelude BlockDevice AhciLayout.
Local Open Scope c_scope.
Local Open Scope Z_scope.

Definition AHCI_DEVICE_TABLE_MAGIC : Z := 0x41484454.
Definition AHCI_DEVICE_TABLE_MAX : Z := 8.

Section table.
Context {W : Type}.

Record ahci_device_record := {
  block_device_ : block_device W;
  identify : list Z;
  sector_count : Z;
  validation_generation : Z;
  controller_index : Z;
  port : Z;
  lba48_supported : bool
}.

Record ahci_device_table := {
  table_magic : Z;
  count : Z;
  records : list ahci_device_record
}.

Definition null_device : block_device W := Build_block_device 0 0 0 0 None None 0.
Definition null_record : ahci_device_record := Build_ahci_device_record null_device [] 0 0 0 0 false.

(** [table->records[index]]; every index used is below eight. *)
Definition record_of (t : ahci_device_table) (index : Z) : ahci_device_record :=
  nth (Z.to_nat index) (records t) null_record.

Definition set_record (index : Z) (r : ahci_device_record) (t : ahci_device_table) : ahci_device_table :=
  Build_ahci_device_table (table_magic t) (count t) (<[Z.to_nat index := r]> (records t)).

Definition clear_record (r : ahci_device_record) : ahci_device_record :=
  Build_ahci_device_record (block_device_reset (block_device_ r))
    (for_loop 0 256 (fun index l => arr_set l index 0) (identify r)) 0 0 UINT32_MAX UINT32_MAX false.

Definition table_is_valid (t : ahci_device_table) : bool :=
  (table_magic t =? AHCI_DEVICE_TABLE_MAGIC) && (count t <=? AHCI_DEVICE_TABLE_MAX).

Definition ahci_device_table_reset (t : ahci_device_table) : ahci_device_table :=
  let t := Build_ahci_device_table AHCI_DEVICE_TABLE_MAGIC 0 (records t) in
  for_loop 0 AHCI_DEVICE_TABLE_MAX (fun index t => set_record index (clear_record (record_of t index)) t) t.

Definition same_slot (controller_index' port' : Z) (existing : ahci_device_record) : bool :=
  (controller_index existing =? controller_index') && (port existing =? port').

Definition ahci_device_table_add (controller_index' port' validation_generation' : Z) (identify' : list Z)
    (read : option (block_device_fn W)) (t : ahci_device_table) : bool * ahci_device_table :=
  if negb (table_is_valid t) || (count t =? AHCI_DEVICE_TABLE_MAX) || (controller_index' =? UINT32_MAX) ||
     (32 <=? port') || (validation_generation' =? 0) || negb (bool_decide (is_Some read))
  then (false, t) else
  match ahci_identify_capacity identify' with
  | None => (false, t)
  | Some (sector_count', lba48_supported') =>
      match find_first 0 (count t) (fun index => same_slot controller_index' port' (record_of t index)) with
      | Some _ => (false, t)
      | None =>
          let record := clear_record (record_of t (count t)) in
          let words := copy_loop 256 identify' (identify record) in
          let '(ok, device) := block_device_configure sector_count' AHCI_SECTOR_SIZE
            AHCI_MAX_TRANSFER_SECTORS read None (count t) (block_device_ record) in
          let record := Build_ahci_device_record device words sector_count' validation_generation'
            controller_index' port' lba48_supported' in
          if negb ok then (false, set_record (count t) (clear_record record) t) else
          let t := set_record (count t) record t in
          (true, Build_ahci_device_table (table_magic t) (count t +32 1) (records t))
      end
  end.

Definition ahci_device_table_count (t : ahci_device_table) : Z :=
  if table_is_valid t then count t else 0.

Definition ahci_device_table_record_at (index : Z) (t : ahci_device_table) : option ahci_device_record :=
  if negb (table_is_valid t) || (count t <=? index) ||
     negb (block_device_is_ready (block_device_ (record_of t index)))
  then None else Some (record_of t index).

Definition ahci_device_table_record_at_const (index : Z) (t : ahci_device_table) :
    option ahci_device_record :=
  if negb (table_is_valid t) || (count t <=? index) ||
     negb (block_device_is_ready (block_device_ (record_of t index)))
  then None else Some (record_of t index).

Definition ahci_device_table_block_at (index : Z) (t : ahci_device_table) : option (block_device W) :=
  match ahci_device_table_record_at_const index t with
  | Some record => Some (block_device_ record)
  | None => None
  end.

(** ** Specification: a bounded list of distinct disks *)

Record disk := {
  d_controller : Z;
  d_port : Z;
  d_generation : Z;
  d_identify : list Z;
  d_read : option (block_device_fn W)
}.

(** Argument types: 32-bit numbers and a block of 256 words. *)
Definition disk_wf (d : disk) : Prop :=
  is_u32 (d_controller d) /\ is_u32 (d_port d) /\ is_u32 (d_generation d) /\
  length (d_identify d) = 256%nat /\ Forall is_u16 (d_identify d).

Definition disk_slot (d : disk) : Z * Z := (d_controller d, d_port d).

Definition acceptable (d : disk) (l : list disk) : Prop :=
  (length l < 8)%nat /\ d_controller d <> UINT32_MAX /\ d_port d < 32 /\ d_generation d <> 0 /\
  is_Some (d_read d) /\ is_Some (ahci_identify_capacity (d_identify d)) /\
  disk_slot d ∉ (disk_slot <$> l).

#[global] Instance acceptable_dec d l : Decision (acceptable d l).
Proof. apply _. Defined.

Definition add_disk (d : disk) (l : list disk) : bool * list disk :=
  if decide (acceptable d l) then (true, l ++ [d]) else (false, l).

(** The record of disk [d] in slot [i]. *)
Definition disk_record (i : nat) (d : disk) : ahci_device_record :=
  let '(n, lba48) := default (0, false) (ahci_identify_capacity (d_identify d)) in
  Build_ahci_device_record
    (Build_block_device BLOCK_DEVICE_MAGIC n 512 8 (d_read d) None (Z.of_nat i))
    (d_identify d) n (d_generation d) (d_controller d) (d_port d) lba48.

Definition add_to_table (d : disk) : ahci_device_table -> bool * ahci_device_table :=
  ahci_device_table_add (d_controller d) (d_port d) (d_generation d) (d_identify d) (d_read d).

Fixpoint run_adds {S : Type} (add : disk -> S -> bool * S) (ds : list disk) (s : S) : list bool * S :=
  match ds with
  | [] => ([], s)
  | d :: ds => let '(b, s) := add d s in let '(bs, s) := run_adds add ds s in (b :: bs, s)
  end.

(** The table holds the disks of [l] in order, all of them accepted. *)
Record represents (t : ahci_device_table) (l : list disk) : Prop := {
  rep_magic : table_magic t = AHCI_DEVICE_TABLE_MAGIC;
  rep_count : count t = Z.of_nat (length l);
  rep_size : (length l <= 8)%nat;
  rep_records : length (records t) = 8%nat;
  rep_words : Forall (fun r => length (identify r) = 256%nat) (records t);
  rep_lookup : forall i d, l !! i = Some d -> records t !! i = Some (disk_record i d);
  rep_disks : Forall (fun d => disk_wf d /\ is_Some (d_read d) /\ is_Some (ahci_identify_capacity (d_identify d))) l;
  rep_slots : NoDup (disk_slot <$> l)
}.

(** ** Lemmas *)

Lemma length_clear_words l : length (for_loop 0 256 (fun index l => arr_set l index 0) l) = length l.
Proof.
  apply (for_loop_inv (fun _ l' => length l' = length l)); [lia|done|].
  intros i l' _ H. by rewrite length_arr_set.
Qed.

Lemma reset_represents t : length (records t) = 8%nat ->
  Forall (fun r => length (identify r) = 256%nat) (records t) ->
  represents (ahci_device_table_reset t) [].
Proof.
  intros Hlen Hw. unfold ahci_device_table_reset, AHCI_DEVICE_TABLE_MAX.
  apply (for_loop_inv (fun _ t' => represents t' [])); [lia| |].
  { split; try done; [cbn; lia|apply NoDup_nil_2]. }
  intros i t' Hi [H1 H2 H3 H4 H5 H6 H7 H8]. split; try done; cbn.
  - by rewrite length_insert.
  - apply Forall_insert; [done|]. cbn. rewrite length_clear_words.
    destruct (lookup_lt_is_Some_2 (records t') (Z.to_nat i)) as [r Hr]; [lia|].
    unfold record_of. erewrite nth_lookup_Some by exact Hr. by eapply Forall_lookup_1 in H5.
Qed.

Section represented.
Context (t : ahci_device_table) (l : list disk) (Hrep : represents t l).

Lemma represented_valid : table_is_valid t = true.
Proof.
  unfold table_is_valid. rewrite (rep_magic _ _ Hrep), (rep_count _ _ Hrep), Z.eqb_refl.
  pose proof (rep_size _ _ Hrep). unfold AHCI_DEVICE_TABLE_MAX. cbn. lia.
Qed.

Lemma represented_record i d : l !! i = Some d -> record_of t (Z.of_nat i) = disk_record i d.
Proof.
  intros H. unfold record_of. rewrite Nat2Z.id. apply nth_lookup_Some. by apply (rep_lookup _ _ Hrep).
Qed.

(** The duplicate search finds exactly a disk in the same slot. *)
Lemma slot_search d :
  find_first 0 (count t) (fun index => same_slot (d_controller d) (d_port d) (record_of t index)) = None <->
  disk_slot d ∉ (disk_slot <$> l).
Proof.
  rewrite find_first_None, (rep_count _ _ Hrep). split.
  - intros H [d' [Hd' [i Hi]%list_elem_of_lookup]]%list_elem_of_fmap.
    pose proof (lookup_lt_Some _ _ _ Hi). specialize (H (Z.of_nat i) ltac:(lia)).
    rewrite (represented_record i d' Hi) in H. injection Hd' as E1 E2.
    unfold same_slot, disk_record in H. destruct (default _ _) in H. cbn in H. lia.
  - intros H j Hj. destruct (lookup_lt_is_Some_2 l (Z.to_nat j)) as [d' Hd']; [lia|].
    replace j with (Z.of_nat (Z.to_nat j)) by lia. rewrite (represented_record _ d' Hd').
    apply not_true_is_false. intros Hs. apply H. apply list_elem_of_fmap. exists d'.
    split; [|by eapply list_elem_of_lookup_2].
    unfold same_slot, disk_record in Hs. destruct (default _ _) in Hs. cbn in Hs.
    unfold disk_slot. f_equal; lia.
Qed.

(** A new disk goes into the first free slot. *)
Lemma represents_snoc d t' : disk_wf d -> acceptable d l -> table_magic t' = AHCI_DEVICE_TABLE_MAGIC ->
  count t' = count t + 1 -> records t' = <[length l := disk_record (length l) d]> (records t) ->
  represents t' (l ++ [d]).
Proof.
  intros Hwf (Ha & _ & _ & _ & Hr & Hc & Hs) Hm Hn Ht. destruct Hrep as [H1 H2 H3 H4 H5 H6 H7 H8].
  split; rewrite ?Ht, ?length_insert, ?length_app; cbn [length]; try done; try lia.
  - apply Forall_insert; [done|]. unfold disk_record. destruct (default _ _). apply Hwf.
  - intros i e. rewrite lookup_snoc_Some. intros [[Hi He]|[-> <-]].
    + rewrite list_lookup_insert_ne by lia. by apply H6.
    + apply list_lookup_insert_eq. lia.
  - apply Forall_app. split; [done|]. by apply Forall_cons_2, Forall_nil_2.
  - rewrite fmap_app. apply list.NoDup_app. split; [done|]. split.
    + intros x Hx ->%list_elem_of_singleton. by apply Hs.
    + apply NoDup_singleton.
Qed.

Lemma acceptable_guard d : disk_wf d ->
  negb (table_is_valid t) || (count t =? AHCI_DEVICE_TABLE_MAX) || (d_controller d =? UINT32_MAX) ||
    (32 <=? d_port d) || (d_generation d =? 0) || negb (bool_decide (is_Some (d_read d))) = false <->
  (length l < 8)%nat /\ d_controller d <> UINT32_MAX /\ d_port d < 32 /\ d_generation d <> 0 /\
  is_Some (d_read d).
Proof.
  intros _. rewrite represented_valid, (rep_count _ _ Hrep). pose proof (rep_size _ _ Hrep).
  unfold AHCI_DEVICE_TABLE_MAX. cbn [negb orb]. rewrite !orb_false_iff, negb_false_iff, bool_decide_eq_true.
  lia || (split; intros H'; split_and!; try lia; by destruct_and?).
Qed.

Lemma add_refines d : disk_wf d ->
  fst (add_to_table d t) = fst (add_disk d l) /\
  represents (snd (add_to_table d t)) (snd (add_disk d l)).
Proof.
  intros Hwf. unfold add_to_table, ahci_device_table_add, add_disk.
  pose proof (acceptable_guard d Hwf) as Hg. destruct (_ || _) eqn:E in |- *.
  { rewrite decide_False; [done|]. intros Ha. rewrite (proj2 Hg) in E; [done|].
    unfold acceptable in Ha. tauto. }
  apply Hg in E. destruct (ahci_identify_capacity (d_identify d)) as [[n lba48]|] eqn:Hc.
  2: { rewrite decide_False; [done|]. unfold acceptable. rewrite Hc. intros (_ & _ & _ & _ & _ & [? [=]] & _). }
  pose proof (slot_search d) as Hs. destruct (find_first _ _ _).
  { rewrite decide_False; [done|]. intros Ha. discriminate (proj2 Hs). apply Ha. }
  assert (Ha : acceptable d l) by (unfold acceptable; rewrite Hc; naive_solver).
  rewrite (decide_True _ _ Ha). destruct Hwf as (Hu1 & Hu2 & Hu3 & Hl & Hw).
  destruct (identify_capacity_spec _ _ _ Hw Hc) as [Hn _].
  rewrite configure_spec by (unfold is_u64, is_u32, AHCI_MAX_TRANSFER_SECTORS; destruct lba48; lia).
  rewrite decide_True by (unfold AHCI_SECTOR_SIZE, AHCI_MAX_TRANSFER_SECTORS; naive_solver lia).
  cbn [negb fst snd]. split; [done|]. destruct Hrep as [H1 H2 H3 H4 H5 H6 H7 H8].
  apply represents_snoc; cbn; [done|done|done|rewrite H2, u32_id; unfold is_u32; lia|].
  rewrite H2, Nat2Z.id. f_equal. unfold disk_record. rewrite Hc. cbn [default]. f_equal.
  destruct (lookup_lt_is_Some_2 (records t) (length l)) as [r Hr]; [lia|].
  pose proof (Forall_lookup_1 _ _ _ _ H5 Hr) as Hlr. cbn beta in Hlr.
  rewrite copy_loop_spec; rewrite ?length_clear_words; unfold record_of; rewrite ?Nat2Z.id;
    rewrite ?(nth_lookup_Some _ _ _ _ Hr), ?Hlr, ?Hl; [|lia|lia].
  rewrite take_ge, drop_ge, app_nil_r by (rewrite ?length_clear_words, ?Hlr, ?Hl; lia). done.
Qed.

(** Looking a slot up. *)
Lemma record_at_spec i : 0 <= i ->
  ahci_device_table_record_at i t = disk_record (Z.to_nat i) <$> l !! Z.to_nat i.
Proof.
  intros Hi. unfold ahci_device_table_record_at. rewrite represented_valid, (rep_count _ _ Hrep). cbn [negb orb].
  destruct (l !! Z.to_nat i) as [d|] eqn:E.
  - pose proof (lookup_lt_Some _ _ _ E). pose proof (rep_disks _ _ Hrep) as Hd.
    destruct (Forall_lookup_1 _ _ _ _ Hd E) as (Hwf & Hr & [[n b] Hc]).
    replace (record_of t i) with (disk_record (Z.to_nat i) d)
      by (rewrite <- (represented_record _ _ E); f_equal; lia).
    destruct (identify_capacity_spec _ _ _ (proj2 (proj2 (proj2 (proj2 Hwf)))) Hc) as [Hn _].
    replace (_ <=? i) with false by lia.
    replace (block_device_is_ready (block_device_ (disk_record (Z.to_nat i) d))) with true; [done|].
    unfold block_device_is_ready, disk_record, BLOCK_DEVICE_TRANSFER_MAX. rewrite Hc. cbn.
    rewrite (bool_decide_eq_true_2 _ Hr). lia.
  - apply lookup_ge_None in E. replace (_ <=? i) with true by lia. done.
Qed.

End represented.

Lemma run_adds_refines ds t l : represents t l -> Forall disk_wf ds ->
  fst (run_adds add_to_table ds t) = fst (run_adds add_disk ds l) /\
  represents (snd (run_adds add_to_table ds t)) (snd (run_adds add_disk ds l)).
Proof.
  revert t l. induction ds as [|d ds IH]; intros t l Hr Hf; [done|]. cbn.
  destruct (add_refines t l Hr d (Forall_inv Hf)) as [H1 H2].
  destruct (add_to_table d t) as [b t1], (add_disk d l) as [b' l1]. cbn in H1, H2. subst b'.
  destruct (IH t1 l1 H2 (Forall_inv_tail Hf)) as [H3 H4].
  destruct (run_adds add_to_table ds t1), (run_adds add_disk ds l1). cbn in *. by subst.
Qed.

(** C37: the device table is a list of at most eight distinct disks. From any earlier contents,
    after a reset the additions succeed exactly when the list takes the disk (a free slot, a new
    controller and port, a usable IDENTIFY block), and every lookup returns that slot's record
    with a read-only block device of the disk's capacity. *)
Theorem ahci_device_table_refines t ds :
  length (records t) = 8%nat -> Forall (fun r => length (identify r) = 256%nat) (records t) ->
  Forall disk_wf ds ->
  let t' := snd (run_adds add_to_table ds (ahci_device_table_reset t)) in
  let l := snd (run_adds add_disk ds []) in
  fst (run_adds add_to_table ds (ahci_device_table_reset t)) = fst (run_adds add_disk ds []) /\
  ahci_device_table_count t' = Z.of_nat (length l) /\ (length l <= 8)%nat /\ NoDup (disk_slot <$> l) /\
  forall i, 0 <= i ->
    ahci_device_table_record_at i t' = disk_record (Z.to_nat i) <$> l !! Z.to_nat i /\
    ahci_device_table_block_at i t' = (fun d => block_device_ (disk_record (Z.to_nat i) d)) <$> l !! Z.to_nat i.
Proof.
  intros Hlen Hw Hds t' l. destruct (run_adds_refines ds _ _ (reset_represents t Hlen Hw) Hds) as [H1 H2].
  fold t' l in H2. split; [exact H1|]. split.
  { unfold ahci_device_table_count. rewrite (represented_valid _ _ H2). apply H2. }
  split; [apply H2|]. split; [apply H2|]. intros i Hi.
  pose proof (record_at_spec _ _ H2 i Hi) as Hr. split; [exact Hr|].
  unfold ahci_device_table_block_at.
  change (ahci_device_table_record_at_const i t') with (ahci_device_table_record_at i t').
  rewrite Hr. by destruct (l !! Z.to_nat i).
Qed.

(** C32: the read path of a registered disk. After any additions, a read of the block device in
    an occupied slot inside the disk's capacity (one to eight sectors, a buffer) reaches the
    disk's driver with that slot as context, and the command the driver builds from the slot's
    record makes the controller transfer exactly the requested sectors; any other read returns 0
    without reaching the driver. *)
Theorem ahci_read_path t ds i d lba count' buffer w tp dp c :
  length (records t) = 8%nat -> Forall (fun r => length (identify r) = 256%nat) (records t) ->
  Forall disk_wf ds -> is_u64 lba -> is_u32 count' -> tp mod 128 = 0 -> dp mod 2 = 0 ->
  snd (run_adds add_disk ds []) !! i = Some d ->
  exists r n, ahci_device_table_record_at (Z.of_nat i)
      (snd (run_adds add_to_table ds (ahci_device_table_reset t))) = Some r /\
    ahci_identify_capacity (d_identify d) = Some (n, lba48_supported r) /\
    if decide (legal n 8 (Request false lba count' buffer)) then
      block_device_read (block_device_ r) lba count' buffer w =
        call (d_read d) (Z.of_nat i) lba count' buffer w /\
      exists c', ahci_build_read_command tp dp lba count' (lba48_supported r) c = (true, c') /\
        reads_sectors c' tp dp lba count'
    else block_device_read (block_device_ r) lba count' buffer w = (0, w).
Proof.
  intros Hlen Hw Hds Hl Hc Ht Hd Hi.
  destruct (run_adds_refines ds _ _ (reset_represents t Hlen Hw) Hds) as [_ Hrep].
  destruct (Forall_lookup_1 _ _ _ _ (rep_disks _ _ Hrep) Hi) as (Hwf & Hr & [[n b] Hcap]).
  rewrite (record_at_spec _ _ Hrep _ (Zle_0_nat i)), Nat2Z.id, Hi.
  destruct (identify_capacity_spec _ _ _ (proj2 (proj2 (proj2 (proj2 Hwf)))) Hcap) as [Hn _].
  exists (disk_record i d), n. split; [reflexivity|]. unfold disk_record. rewrite Hcap. cbn.
  split; [done|]. set (dev := Build_block_device _ _ _ _ _ _ _).
  assert (Hn64 : is_u64 n) by (unfold is_u64; destruct b; lia).
  assert (Hrdy : block_device_is_ready dev = true).
  { unfold block_device_is_ready, BLOCK_DEVICE_TRANSFER_MAX. cbn. rewrite (bool_decide_eq_true_2 _ Hr). lia. }
  pose proof (request_valid_legal dev false lba count' buffer Hrdy Hn64 Hl Hc) as Hv.
  unfold block_device_read. case_decide as Hleg.
  - rewrite (proj2 Hv Hleg). split; [done|]. destruct Hleg as (_ & Hc8 & Hin).
    apply build_read_encodes; [done|done|apply Hl|lia|lia].
  - destruct (request_is_valid dev lba count' buffer); [|done]. by destruct Hleg; apply Hv.
Qed.

End table.

Arguments ahci_device_record : clear implicits.
Arguments ahci_device_table : clear implicits.
Arguments disk : clear implicits.

(** ** A sample table: one disk twice, then a second one *)

Definition dirty_table : ahci_device_table (list Z) :=
  Build_ahci_device_table 0 77
    (replicate 8 (Build_ahci_device_record null_device (replicate 256 7) 1 2 3 4 true)).

Definition sample_disk (port : Z) : disk (list Z) :=
  Build_disk 0 port 1 sample_identify (Some (fun ctx lba n buffer w => (1, w ++ [ctx; lba; n]))).

Lemma sample_disk_wf port : is_u32 port -> disk_wf (sample_disk port).
Proof.
  intros H. unfold disk_wf. cbn [d_controller d_port d_generation d_identify sample_disk].
  split; [unfold is_u32; lia|]. split; [done|]. split; [unfold is_u32; lia|]. split; [reflexivity|].
  repeat apply Forall_cons_2; try apply Forall_nil_2; unfold is_u16; lia.
Qed.

Lemma dirty_words : Forall (fun r : ahci_device_record (list Z) => length (identify r) = 256%nat)
  (records dirty_table).
Proof. apply Forall_replicate. reflexivity. Qed.

Lemma sample_disks_wf : Forall disk_wf [sample_disk 3; sample_disk 3; sample_disk 5].
Proof. repeat apply Forall_cons_2; try apply Forall_nil_2; apply sample_disk_wf; unfold is_u32; lia. Qed.

Lemma ahci_device_table_refines_witness :
  fst (run_adds add_to_table [sample_disk 3; sample_disk 3; sample_disk 5]
         (ahci_device_table_reset dirty_table)) = [true; false; true].
Proof.
  destruct (ahci_device_table_refines dirty_table [sample_disk 3; sample_disk 3; sample_disk 5]
    eq_refl dirty_words sample_disks_wf) as [-> _].
  vm_compute. reflexivity.
Defined.

Lemma ahci_read_path_witness :
  exists r n, ahci_device_table_record_at 1
      (snd (run_adds add_to_table [sample_disk 3; sample_disk 3; sample_disk 5]
              (ahci_device_table_reset dirty_table))) = Some r /\ n = 0x1000 /\
    block_device_read (block_device_ r) 0xFFC 4 0x9000 [] = (1, [1; 0xFFC; 4]).
Proof.
  destruct (ahci_read_path dirty_table [sample_disk 3; sample_disk 3; sample_disk 5] 1 (sample_disk 5)
    0xFFC 4 0x9000 [] 0x1080 0x2000 (Build_command zero_header zero_table) eq_refl dirty_words
    sample_disks_wf) as (r & n & H1 & H2 & H3);
    [unfold is_u64; lia|unfold is_u32; lia|reflexivity|reflexivity|vm_compute; reflexivity|].
  exists r, n. split; [exact H1|].
  assert (n = 0x1000) as -> by (vm_compute in H2; congruence).
  split; [reflexivity|]. rewrite decide_True in H3 by (cbn; lia). exact (proj1 H3).
Defined.
