(* ===== verification/AtaDma.v ===== *)
(** * ATA bus-master DMA and PCI base addresses

    [drivers/ata_dma.c] and [drivers/pci_layout.c]: the physical region descriptor of a transfer,
    the controller's register window, the multiword mode, and the AHCI register base. Functions
    that store through an output pointer return an option. *)

From S2P Require Import Prelude.
Local Open Scope c_scope.
Local Open Scope Z_scope.

Definition ATA_DMA_BOUNDARY : Z := 0x10000.
Definition ATA_DMA_CAPABILITY_BIT : Z := 0x0100.
Definition ATA_DMA_MULTIWORD_SUPPORTED_MASK : Z := 0x0007.
Definition ATA_DMA_MULTIWORD_BASE : Z := 0x20.
Definition PCI_CLASS_MASS_STORAGE : Z := 0x01.
Definition PCI_SUBCLASS_IDE : Z := 0x01.
Definition PCI_IDE_PRIMARY_NATIVE : Z := 0x01.
Definition PCI_IDE_BUS_MASTER_CAPABLE : Z := 0x80.
Definition PCI_IO_BASE_MINIMUM : Z := 0x0100.
Definition PCI_IO_BASE_MAXIMUM : Z := 0xFFF0.
Definition ATA_DMA_PRD_END : Z := 0x8000.
Definition ATA_DMA_STATUS_ACTIVE : Z := 0x01.
Definition ATA_DMA_STATUS_ERROR : Z := 0x02.
Definition ATA_DMA_STATUS_INTERRUPT : Z := 0x04.

Inductive pci_bar_type := PCI_BAR_UNUSED | PCI_BAR_IO | PCI_BAR_MEMORY32 | PCI_BAR_MEMORY64.

#[global] Instance pci_bar_type_eq_dec : EqDecision pci_bar_type.
Proof. solve_decision. Defined.

Record pci_bar := { base_low : Z; base_high : Z; bar_flags : Z; bar_type : pci_bar_type }.

Record pci_device := {
  bus : Z;
  slot : Z;
  function : Z;
  vendor_id : Z;
  device_id : Z;
  class_code : Z;
  subclass : Z;
  prog_if : Z;
  revision : Z;
  interrupt_line : Z;
  header_type : Z;
  bars : list pci_bar
}.

Record ata_dma_prd := { physical_base : Z; byte_count : Z; flags : Z }.

Definition bar_at (device : pci_device) (index : nat) : pci_bar :=
  nth index (bars device) (Build_pci_bar 0 0 0 PCI_BAR_UNUSED).

Definition ata_dma_prepare_prd (physical_base byte_count : Z) : option ata_dma_prd :=
  if flag physical_base 3 || (byte_count =? 0) || (ATA_DMA_BOUNDARY <? byte_count) then None else
  let boundary_remaining := ATA_DMA_BOUNDARY -32 Z.land physical_base (ATA_DMA_BOUNDARY - 1) in
  if boundary_remaining <? byte_count then None else
  Some (Build_ata_dma_prd physical_base
          (if byte_count =? ATA_DMA_BOUNDARY then 0 else u16 byte_count) ATA_DMA_PRD_END).

Definition ata_dma_controller_base (device : pci_device) : option Z :=
  if flag (header_type device) 0x7F || negb (class_code device =? PCI_CLASS_MASS_STORAGE) ||
     negb (subclass device =? PCI_SUBCLASS_IDE) || negb (flag (prog_if device) PCI_IDE_BUS_MASTER_CAPABLE) ||
     flag (prog_if device) PCI_IDE_PRIMARY_NATIVE then None else
  let bar := bar_at device 4 in
  if negb (bool_decide (bar_type bar = PCI_BAR_IO)) || negb (flag (bar_flags bar) 1) ||
     (base_low bar <? PCI_IO_BASE_MINIMUM) || (PCI_IO_BASE_MAXIMUM <? base_low bar) ||
     flag (base_low bar) 0x0F then None else
  Some (u16 (base_low bar)).

(** [for (mode = 3U; mode != 0U; mode--)]. *)
Fixpoint mode_loop (mode : nat) (supported : Z) : option Z :=
  match mode with
  | O => None
  | S candidate =>
      if flag supported (shl32 1 (Z.of_nat candidate))
      then Some (u8 (ATA_DMA_MULTIWORD_BASE +32 Z.of_nat candidate))
      else mode_loop candidate supported
  end.

Definition ata_dma_select_multiword_mode (capabilities multiword_dma : Z) : option Z :=
  if negb (flag capabilities ATA_DMA_CAPABILITY_BIT) then None else
  mode_loop 3 (Z.land multiword_dma ATA_DMA_MULTIWORD_SUPPORTED_MASK).

Definition ata_dma_status_is_complete (status : Z) : bool :=
  Z.land status (Z.lor (Z.lor ATA_DMA_STATUS_ACTIVE ATA_DMA_STATUS_ERROR) ATA_DMA_STATUS_INTERRUPT) =?
  ATA_DMA_STATUS_INTERRUPT.

Definition pci_ahci_mmio_base (device : pci_device) : option Z :=
  if flag (header_type device) 0x7F || negb (class_code device =? 0x01) ||
     negb (subclass device =? 0x06) || negb (prog_if device =? 0x01) then None else
  let abar := bar_at device 5 in
  if negb (bool_decide (bar_type abar = PCI_BAR_MEMORY32)) || (base_low abar =? 0) ||
     negb (base_high abar =? 0) || negb (bar_flags abar =? 0) || flag (base_low abar) 0x0F then None else
  Some (base_low abar).

(** ** Specification *)

(** The bytes a bus master moves for a region descriptor: a zero count field is 64 KiB. *)
Definition prd_region (p : ata_dma_prd) : Z * Z :=
  (physical_base p, if byte_count p =? 0 then 65536 else byte_count p).

Lemma flag_mod x n : 0 <= n -> flag x (2 ^ n - 1) = negb (x mod 2 ^ n =? 0).
Proof. intros Hn. unfold flag. by rewrite land_mask. Qed.

(** Region descriptors. A descriptor is built exactly for a dword-aligned buffer of 1 to
    65536 bytes that stays inside one 64 KiB window, and then the bus master moves exactly that
    buffer, the full 64 KiB included, in a single descriptor. *)
Theorem ata_dma_prd_correct base n : is_u32 base -> is_u32 n ->
  match ata_dma_prepare_prd base n with
  | Some p => prd_region p = (base, n) /\ flags p = 0x8000 /\ is_u16 (byte_count p) /\
              base mod 4 = 0 /\ 1 <= n <= 65536 /\ base / 65536 = (base + n - 1) / 65536
  | None => base mod 4 <> 0 \/ n = 0 \/ 65536 < n \/ base / 65536 <> (base + n - 1) / 65536
  end.
Proof.
  unfold is_u32, ata_dma_prepare_prd, ATA_DMA_BOUNDARY. intros Hb Hn.
  replace (flag base 3) with (negb (base mod 4 =? 0)) by (symmetry; by apply (flag_mod base 2)).
  change (0x10000 - 1) with 65535. rewrite land_65535.
  rewrite u32_id by (unfold is_u32; dmlia).
  case_if; [dmlia|]. case_if; [split_bools; dmlia|]. split_bools.
  unfold prd_region, is_u16. cbn [physical_base byte_count flags].
  replace (u16 n) with (if n =? 65536 then 0 else n) by (unfold u16; case_if; dmlia).
  split; [f_equal; repeat case_if; lia|]. split; [done|]. repeat case_if; dmlia.
Qed.

Lemma ata_dma_prd_correct_witness :
  match ata_dma_prepare_prd 0x30000 65536 with
  | Some p => prd_region p = (0x30000, 65536)
  | None => False
  end.
Proof.
  pose proof (ata_dma_prd_correct 0x30000 65536 ltac:(unfold is_u32; lia) ltac:(unfold is_u32; lia)) as H.
  destruct (ata_dma_prepare_prd 0x30000 65536); [exact (proj1 H)|].
  exfalso. vm_compute in H. intuition congruence.
Defined.

Lemma mode_loop_spec n supported : (n <= 8)%nat ->
  mode_loop n supported =
  match find (fun k => Z.testbit supported (Z.of_nat k)) (rev (seq 0 n)) with
  | Some k => Some (0x20 + Z.of_nat k)
  | None => None
  end.
Proof.
  induction n as [|n IH]; intros Hn; [done|]. rewrite seq_S, rev_app_distr. cbn [rev app find mode_loop].
  rewrite shl1_pow2, flag_pow2 by lia. cbn. destruct (Z.testbit supported (Z.of_nat n)); [|apply IH; lia].
  unfold ATA_DMA_MULTIWORD_BASE. rewrite u32_id, u8_id by (unfold is_u8, is_u32; lia). done.
Qed.

(** The hardware values the ATA driver derives are usable: the bus-master block it accepts
    is sixteen aligned ports inside the 16-bit port space, untruncated; the transfer mode is the
    highest supported multiword mode, absent exactly when there is none. An AHCI register base is
    a non-null sixteen-byte aligned 32-bit address. *)
Lemma ata_dma_setup_correct device capabilities multiword :
  match ata_dma_controller_base device with
  | Some base => base = base_low (bar_at device 4) /\ 0x100 <= base /\ base + 15 <= 0xFFFF /\ base mod 16 = 0
  | None => True
  end /\
  match pci_ahci_mmio_base device with
  | Some base => base = base_low (bar_at device 5) /\ base_high (bar_at device 5) = 0 /\ base <> 0 /\ base mod 16 = 0
  | None => True
  end /\
  match ata_dma_select_multiword_mode capabilities multiword with
  | Some mode => exists k, mode = 0x20 + k /\ 0 <= k <= 2 /\ Z.testbit multiword k = true /\
      Z.testbit capabilities 8 = true /\ forall j, k < j <= 2 -> Z.testbit multiword j = false
  | None => Z.testbit capabilities 8 = false \/ forall j, 0 <= j <= 2 -> Z.testbit multiword j = false
  end.
Proof.
  split_and!.
  - unfold ata_dma_controller_base, PCI_IO_BASE_MINIMUM, PCI_IO_BASE_MAXIMUM.
    case_if; [done|]. cbv zeta. case_if; [done|]. split_bools.
    match goal with H : flag _ 0x0F = false |- _ => rewrite (flag_mod _ 4 ltac:(lia)) in H end.
    split_bools. unfold u16. change (2 ^ 4) with 16 in *. dmlia.
  - unfold pci_ahci_mmio_base. case_if; [done|]. cbv zeta. case_if; [done|]. split_bools.
    match goal with H : flag _ 0x0F = false |- _ => rewrite (flag_mod _ 4 ltac:(lia)) in H end.
    split_bools. change (2 ^ 4) with 16 in *. lia.
  - unfold ata_dma_select_multiword_mode, ATA_DMA_CAPABILITY_BIT, ATA_DMA_MULTIWORD_SUPPORTED_MASK.
    change 0x0100 with (2 ^ 8). rewrite flag_pow2 by lia. destruct (Z.testbit capabilities 8); [|by left]. cbn [negb].
    rewrite mode_loop_spec by lia. cbn [seq rev app find Z.of_nat Pos.of_succ_nat Pos.succ].
    rewrite !Z.land_spec. change (Z.testbit 7 2) with true. change (Z.testbit 7 1) with true.
    change (Z.testbit 7 0) with true. rewrite !andb_true_r.
    change (Z.of_nat 2) with 2. change (Z.of_nat 1) with 1. change (Z.of_nat 0) with 0.
    assert (Hj : forall j, 0 <= j <= 2 -> j = 0 \/ j = 1 \/ j = 2) by lia.
    destruct (Z.testbit multiword 2) eqn:E2; cbv iota; [exists 2|destruct (Z.testbit multiword 1) eqn:E1; cbv iota; [exists 1|
      destruct (Z.testbit multiword 0) eqn:E0; cbv iota; [exists 0|right]]].
    1-3: split; [reflexivity|]; split; [lia|]; split; [assumption|]; split; [reflexivity|].
    all: intros j H; destruct (Hj j ltac:(lia)) as [-> | [-> | ->]]; try assumption; lia.
Qed.
