(* ===== verification/HpetTime.v ===== *)
(** * HPET time arithmetic

    [drivers/hpet_time.c]: conversion of counter ticks to nanoseconds by long division and a
    saturating multiplication, without 64-bit division instructions, and the extension of a
    32-bit counter by its wraps. *)

From S2P Require Import Prelude.
Local Open Scope c_scope.
Local Open Scope Z_scope.

Definition FEMTOSECONDS_PER_NANOSECOND : Z := 1000000.
Definition HPET_MAX_PERIOD_FEMTOSECONDS : Z := 100000000.
Definition HPET_U64_MAX : Z := UINT64_MAX.

(** ** Operations *)

(** The loop of [divide_u64_u32] with bits [bit - 1] down to 0 to go: quotient and rest. *)
Fixpoint divide_loop (bit : nat) (value divisor quotient rest : Z) : Z * Z :=
  match bit with
  | O => (quotient, rest)
  | S bit =>
      let rest := Z.lor (shl32 rest 1) (u32 (Z.land (Z.shiftr value (Z.of_nat bit)) 1)) in
      if divisor <=? rest
      then divide_loop bit value divisor (Z.lor quotient (shl64 1 (Z.of_nat bit))) (rest -32 divisor)
      else divide_loop bit value divisor quotient rest
  end.

(** Quotient and remainder. *)
Definition divide_u64_u32 (value divisor : Z) : Z * Z := divide_loop 64 value divisor 0 0.

(** The loop of [saturating_multiply_u32]; [None] when the fuel runs out. *)
Fixpoint multiply_loop (fuel : nat) (value factor result : Z) : option Z :=
  if factor =? 0 then Some result else
  match fuel with
  | O => None
  | S fuel =>
      if flag factor 1 && (HPET_U64_MAX -64 value <? result) then Some HPET_U64_MAX else
      let result := if flag factor 1 then result +64 value else result in
      let factor := Z.shiftr factor 1 in
      if negb (factor =? 0) then
        if HPET_U64_MAX -64 value <? value then Some HPET_U64_MAX
        else multiply_loop fuel (value +64 value) factor result
      else multiply_loop fuel value factor result
  end.

(** A 32-bit factor is used up after 32 shifts. *)
Definition saturating_multiply_u32 (value factor : Z) : option Z := multiply_loop 32 value factor 0.

Definition hpet_ticks_to_nanoseconds (ticks period_femtoseconds : Z) : option Z :=
  if (period_femtoseconds =? 0) || (HPET_MAX_PERIOD_FEMTOSECONDS <? period_femtoseconds)
  then Some HPET_U64_MAX else
  let '(whole_ticks, remainder) := divide_u64_u32 ticks FEMTOSECONDS_PER_NANOSECOND in
  match saturating_multiply_u32 whole_ticks period_femtoseconds,
        saturating_multiply_u32 remainder period_femtoseconds with
  | Some whole_nanoseconds, Some fractional_femtoseconds =>
      let '(fractional_nanoseconds, _) :=
        divide_u64_u32 fractional_femtoseconds FEMTOSECONDS_PER_NANOSECOND in
      if HPET_U64_MAX -64 fractional_nanoseconds <? whole_nanoseconds then Some HPET_U64_MAX
      else Some (whole_nanoseconds +64 fractional_nanoseconds)
  | _, _ => None
  end.

(** Returned value and the new [*last_low] and [*wrap_count]. *)
Definition hpet_extend_counter32 (low last_low wrap_count : Z) : Z * Z * Z :=
  let wrap_count := if low <? last_low then wrap_count +32 1 else wrap_count in
  (Z.lor (shl64 wrap_count 32) low, low, wrap_count).

(** ** Long division *)

Lemma land_1 x : Z.land x 1 = x mod 2.
Proof. apply (land_mask x 1). lia. Qed.

Lemma flag_odd x : flag x 1 = Z.odd x.
Proof.
  unfold flag. rewrite land_1, Zmod_odd. by destruct (Z.odd x).
Qed.

(** Setting a bit below the ones set is addition. *)
Lemma lor_pow2 q b : 0 <= b < 64 -> q mod 2 ^ (b + 1) = 0 ->
  Z.lor q (shl64 1 b) = q + 2 ^ b.
Proof.
  intros Hb Hq.
  assert (shl64 1 b = 2 ^ b) as ->.
  { unfold shl64. rewrite Z.shiftl_mul_pow2, Z.mul_1_l by lia. apply u64_id. split; [lia|].
    change 18446744073709551616 with (2 ^ 64). apply Z.pow_lt_mono_r; lia. }
  rewrite <- Z.add_lor_land. replace (Z.land q (2 ^ b)) with 0; [lia|]. symmetry.
  apply Z.eqb_eq. rewrite land_pow2_zero by lia. apply negb_true_iff.
  rewrite <- (Z.mod_pow2_bits_low q (b + 1) b) by lia. by rewrite Hq, Z.bits_0.
Qed.

Lemma mod_pow2_succ v b : 0 <= b -> v mod 2 ^ (b + 1) = (v / 2 ^ b) mod 2 * 2 ^ b + v mod 2 ^ b.
Proof.
  intros Hb. rewrite Z.pow_add_r, Z.rem_mul_r by lia. change (2 ^ 1) with 2. lia.
Qed.

Lemma divide_step rest bit : 0 <= rest < 2147483648 -> 0 <= bit < 2 ->
  Z.lor (shl32 rest 1) (u32 bit) = 2 * rest + bit.
Proof.
  intros Hr Hb. rewrite (u32_id bit) by (unfold is_u32; lia). unfold shl32.
  rewrite Z.shiftl_mul_pow2 by lia. change (2 ^ 1) with 2. rewrite u32_id by (unfold is_u32; lia).
  rewrite Z.lor_comm. replace (rest * 2) with (Z.shiftl rest 1) by (rewrite Z.shiftl_mul_pow2 by lia; lia).
  rewrite lor_shiftl by lia. lia.
Qed.

Lemma divide_loop_spec n value divisor q r : (n <= 64)%nat -> 0 < divisor < 2147483648 ->
  0 <= r < divisor -> q mod 2 ^ Z.of_nat n = 0 ->
  let x := r * 2 ^ Z.of_nat n + value mod 2 ^ Z.of_nat n in
  divide_loop n value divisor q r = (q + x / divisor, x mod divisor).
Proof.
  intros Hn Hd. revert q r. induction n as [|n IH]; intros q r Hr Hq; cbv zeta.
  - change (2 ^ Z.of_nat 0) with 1. rewrite Z.mod_1_r, Z.div_small, Z.mod_small by lia. cbn. f_equal; lia.
  - cbn [divide_loop]. replace (Z.of_nat (S n)) with (Z.of_nat n + 1) in * by lia.
    set (b := Z.of_nat n) in *. assert (0 <= b < 64) as Hb by lia.
    assert (0 < 2 ^ b) by (apply Z.pow_pos_nonneg; lia).
    rewrite land_1, Z.shiftr_div_pow2 by lia. set (bit := (value / 2 ^ b) mod 2).
    assert (0 <= bit < 2) as Hbit by (apply Z.mod_pos_bound; lia).
    rewrite divide_step by (done || lia). rewrite mod_pow2_succ by lia. fold bit.
    replace (2 ^ (b + 1)) with (2 * 2 ^ b) in * by (rewrite Z.pow_add_r by lia; lia).
    assert (q mod 2 ^ b = 0) as Hq'.
    { apply Z.mod_divide; [lia|]. apply Z.mod_divide in Hq; [|lia]. destruct Hq as [k ->]. exists (2 * k). lia. }
    destruct (Z.leb_spec divisor (2 * r + bit)) as [Hle|Hlt].
    + rewrite u32_id by (unfold is_u32; lia).
      rewrite lor_pow2; [|lia|replace (2 ^ (b + 1)) with (2 * 2 ^ b) by (rewrite Z.pow_add_r by lia; lia); done].
      rewrite IH; [|lia|lia|].
      * replace (r * (2 * 2 ^ b) + (bit * 2 ^ b + value mod 2 ^ b)) with
          ((2 * r + bit - divisor) * 2 ^ b + value mod 2 ^ b + 2 ^ b * divisor) by lia.
        rewrite Z.div_add, Z.mod_add by lia. f_equal. lia.
      * rewrite Z.add_mod, Hq', Z.mod_same by lia. done.
    + rewrite IH by (done || lia).
      replace (r * (2 * 2 ^ b) + (bit * 2 ^ b + value mod 2 ^ b)) with
        ((2 * r + bit) * 2 ^ b + value mod 2 ^ b) by lia. done.
Qed.

Lemma divide_spec value divisor : is_u64 value -> 0 < divisor < 2147483648 ->
  divide_u64_u32 value divisor = (value / divisor, value mod divisor).
Proof.
  intros Hv Hd. unfold divide_u64_u32. rewrite divide_loop_spec by (done || lia).
  change (2 ^ Z.of_nat 64) with 18446744073709551616. rewrite (Z.mod_small value) by exact Hv.
  f_equal.
Qed.

(** ** Saturating multiplication *)

Lemma multiply_loop_spec fuel value factor result :
  0 <= factor < 2 ^ Z.of_nat fuel -> is_u64 value -> is_u64 result ->
  multiply_loop fuel value factor result = Some (Z.min HPET_U64_MAX (result + value * factor)).
Proof.
  unfold HPET_U64_MAX, UINT64_MAX.
  revert value factor result. induction fuel as [|fuel IH]; intros value factor result Hf Hv Hr.
  { change (2 ^ Z.of_nat 0) with 1 in Hf. assert (factor = 0) as -> by lia. cbn. f_equal. unfold is_u64 in *. lia. }
  cbn [multiply_loop]. unfold HPET_U64_MAX, UINT64_MAX. unfold is_u64 in *.
  rewrite (u64_id (18446744073709551615 - value)) by (unfold is_u64; lia).
  destruct (Z.eqb_spec factor 0) as [->|Hne]; [f_equal; lia|].
  rewrite flag_odd. rewrite (Z.shiftr_div_pow2 factor 1) by lia. change (2 ^ 1) with 2.
  assert (2 ^ Z.of_nat (S fuel) = 2 * 2 ^ Z.of_nat fuel) as Hpow
    by (replace (Z.of_nat (S fuel)) with (Z.of_nat fuel + 1) by lia; rewrite Z.pow_add_r by lia; lia).
  assert (factor = 2 * (factor / 2) + (if Z.odd factor then 1 else 0)) as Hfac.
  { rewrite (Z.div_mod factor 2) at 1 by lia. by rewrite Zmod_odd. }
  set (half := factor / 2) in *.
  destruct (Z.odd factor) eqn:Eodd; cbn [andb].
  - destruct (Z.ltb_spec (18446744073709551615 - value) result); [f_equal; nia|].
    rewrite (u64_id (result + value)) by (unfold is_u64; lia).
    destruct (Z.eqb_spec half 0) as [Hh|Hh]; cbn [negb].
    + rewrite IH by (unfold is_u64; lia). f_equal. nia.
    + destruct (Z.ltb_spec (18446744073709551615 - value) value); [f_equal; nia|].
      rewrite (u64_id (value + value)) by (unfold is_u64; lia). rewrite IH by (unfold is_u64; lia). f_equal. nia.
  - destruct (Z.eqb_spec half 0) as [Hh|Hh]; cbn [negb]; [lia|].
    destruct (Z.ltb_spec (18446744073709551615 - value) value); [f_equal; nia|].
    rewrite (u64_id (value + value)) by (unfold is_u64; lia). rewrite IH by (unfold is_u64; lia). f_equal. nia.
Qed.

Lemma multiply_spec value factor : is_u64 value -> is_u32 factor ->
  saturating_multiply_u32 value factor = Some (Z.min HPET_U64_MAX (value * factor)).
Proof.
  intros Hv Hf. unfold saturating_multiply_u32. rewrite multiply_loop_spec; [f_equal; lia| |done|unfold is_u64; lia].
  exact Hf.
Qed.

(** ** Properties *)

(** For every tick count and every period the hardware may report, the conversion ends and
    gives the exact number of whole nanoseconds, ticks times period over a million, clamped to
    the largest 64-bit value; an impossible period gives that value. *)
Theorem hpet_ticks_exact ticks period : is_u64 ticks -> is_u32 period ->
  hpet_ticks_to_nanoseconds ticks period =
  Some (if (0 <? period) && (period <=? 100000000)
        then Z.min HPET_U64_MAX (ticks * period / 1000000) else HPET_U64_MAX).
Proof.
  intros Ht Hp. unfold hpet_ticks_to_nanoseconds, HPET_MAX_PERIOD_FEMTOSECONDS.
  unfold is_u32 in Hp. replace ((0 <? period) && (period <=? 100000000)) with
    (negb ((period =? 0) || (100000000 <? period))) by lia.
  destruct ((period =? 0) || (100000000 <? period)) eqn:Eg; [done|]. cbn [negb].
  unfold FEMTOSECONDS_PER_NANOSECOND. rewrite divide_spec by (done || lia).
  unfold is_u64 in Ht. set (w := ticks / 1000000). set (r := ticks mod 1000000).
  assert (0 <= w <= ticks /\ 0 <= r < 1000000 /\ ticks = 1000000 * w + r) as (Hw & Hr & Hsum)
    by (subst w r; dmlia).
  rewrite !multiply_spec by (unfold is_u64, is_u32; lia).
  unfold HPET_U64_MAX, UINT64_MAX. rewrite (Z.min_r _ (r * period)) by nia.
  rewrite divide_spec; [|unfold is_u64; nia|lia]. set (f := r * period / 1000000).
  assert (0 <= f < 100000001) as Hf by (subst f; split; [apply Z.div_pos; nia|apply Z.div_lt_upper_bound; nia]).
  assert (ticks * period / 1000000 = w * period + f) as ->.
  { subst f. rewrite Hsum. replace ((1000000 * w + r) * period) with (r * period + w * period * 1000000) by lia.
    rewrite Z.div_add by lia. lia. }
  assert (0 <= w * period) by nia.
  rewrite (u64_id (_ - f)) by (unfold is_u64; lia).
  destruct (Z.ltb_spec (18446744073709551615 - f) (Z.min 18446744073709551615 (w * period))); [f_equal; lia|].
  rewrite u64_id by (unfold is_u64; lia). f_equal. lia.
Qed.

Lemma hpet_ticks_exact_witness : hpet_ticks_to_nanoseconds 1234567 10000000 = Some 12345670.
Proof. rewrite hpet_ticks_exact by (unfold is_u64, is_u32; lia). vm_compute. reflexivity. Defined.

(** Reading a 32-bit counter at least once per wrap loses no time. If the saved state
    stands for the count [t], and the counter has since advanced by less than 2^32 to [t'], the
    extended value is [t'] itself and the state stands for it, until 64 bits are exceeded. *)
Theorem hpet_extend_exact t t' : 0 <= t -> t <= t' < t + 4294967296 -> t' < 18446744073709551616 ->
  hpet_extend_counter32 (u32 t') (u32 t) (t / 4294967296) = (t', u32 t', t' / 4294967296).
Proof.
  intros Ht Hd Hmax. unfold hpet_extend_counter32.
  assert ((if u32 t' <? u32 t then t / 4294967296 +32 1 else t / 4294967296) = t' / 4294967296) as Hw.
  { unfold u32. destruct (Z.ltb_spec (t' mod 4294967296) (t mod 4294967296)); dmlia. }
  cbv zeta. rewrite Hw. do 2 f_equal. rewrite Z.lor_comm. unfold shl64.
  rewrite Z.shiftl_mul_pow2 by lia. change (2 ^ 32) with 4294967296.
  rewrite u64_id by (unfold is_u64; dmlia).
  replace (t' / 4294967296 * 4294967296) with (Z.shiftl (t' / 4294967296) 32)
    by (rewrite Z.shiftl_mul_pow2 by lia; reflexivity).
  rewrite lor_shiftl; [|lia|apply u32_range]. change (2 ^ 32) with 4294967296. unfold u32. dmlia.
Qed.

Lemma hpet_extend_exact_witness :
  hpet_extend_counter32 5 4294967285 2 = (12884901893, 5, 3).
Proof. apply (hpet_extend_exact 12884901877 12884901893); lia. Defined.
