(* ===== verification/RtcTime.v ===== *)
(** * Real-time clock

    [drivers/rtc_time.c], the decoding of a CMOS snapshot into a calendar time, and
    [drivers/rtc.c], the reading of a stable snapshot through the index and data ports. The
    ports are an interface. *)

From S2P Require Import Prelude.
Local Open Scope c_scope.
Local Open Scope Z_scope.

(** ** Data *)

Record rtc_time := { year : Z; month : Z; day : Z; hour : Z; minute : Z; second : Z }.

Record rtc_raw_snapshot := {
  raw_second : Z;
  raw_minute : Z;
  raw_hour : Z;
  raw_day : Z;
  raw_month : Z;
  raw_year : Z;
  raw_century : Z;
  register_b : Z
}.

Definition RTC_REGISTER_B_24_HOUR : Z := 0x02.
Definition RTC_REGISTER_B_BINARY : Z := 0x04.

(** ** Decoding *)

Definition decode_bcd (raw : Z) : option Z :=
  let low := Z.land raw 0x0F in
  let high := Z.land (Z.shiftr raw 4) 0x0F in
  if (9 <? low) || (9 <? high) then None else Some (high * 10 + low).

Definition decode_value (raw : Z) (binary : bool) : option Z :=
  if binary then Some raw else decode_bcd raw.

Definition leap_year (year : Z) : bool :=
  ((year mod 4 =? 0) && negb (year mod 100 =? 0)) || (year mod 400 =? 0).

Definition days : list Z := [31; 28; 31; 30; 31; 30; 31; 31; 30; 31; 30; 31].

Definition month_days (year month : Z) : Z :=
  if (month =? 0) || (12 <? month) then 0 else
  if (month =? 2) && leap_year year then 29 else arr days (month - 1).

Definition rtc_raw_snapshots_equal (left_ right_ : rtc_raw_snapshot) : bool :=
  (raw_second left_ =? raw_second right_) && (raw_minute left_ =? raw_minute right_) &&
  (raw_hour left_ =? raw_hour right_) && (raw_day left_ =? raw_day right_) &&
  (raw_month left_ =? raw_month right_) && (raw_year left_ =? raw_year right_) &&
  (raw_century left_ =? raw_century right_) && (register_b left_ =? register_b right_).

Definition rtc_time_is_valid (time : rtc_time) : bool :=
  if (year time <? 1900) || (9999 <? year time) || (month time =? 0) || (12 <? month time) ||
     (23 <? hour time) || (59 <? minute time) || (59 <? second time) then false else
  let days := month_days (year time) (month time) in
  negb (day time =? 0) && (day time <=? days).

(** The 12-hour adjustment. *)
Definition adjust_hour (hour_24 afternoon : bool) (hour : Z) : option Z :=
  if hour_24 then Some hour else
  if (hour =? 0) || (12 <? hour) then None else
  let hour := if hour =? 12 then 0 else hour in
  Some (if afternoon then hour +32 12 else hour).

Definition full_year (raw_century : Z) (binary : bool) (year : Z) : Z :=
  match (if negb (raw_century =? 0) then decode_value raw_century binary else None) with
  | Some century =>
      if (19 <=? century) && (century <=? 99) then year +32 (century *32 100)
      else year +32 (if 80 <=? year then 1900 else 2000)
  | None => year +32 (if 80 <=? year then 1900 else 2000)
  end.

(** Return value and the new contents of [*time]. *)
Definition rtc_decode_snapshot (raw : rtc_raw_snapshot) (time : rtc_time) : bool * rtc_time :=
  let binary := flag (register_b raw) RTC_REGISTER_B_BINARY in
  let hour_24 := flag (register_b raw) RTC_REGISTER_B_24_HOUR in
  let afternoon := negb hour_24 && flag (raw_hour raw) 0x80 in
  let hour_raw := if hour_24 then raw_hour raw else u8 (Z.land (raw_hour raw) 0x7F) in
  match decode_value (raw_second raw) binary, decode_value (raw_minute raw) binary,
        decode_value hour_raw binary, decode_value (raw_day raw) binary,
        decode_value (raw_month raw) binary, decode_value (raw_year raw) binary with
  | Some second, Some minute, Some hour, Some day, Some month, Some year =>
      match adjust_hour hour_24 afternoon hour with
      | None => (false, time)
      | Some hour =>
          let year := full_year (raw_century raw) binary year in
          let time := Build_rtc_time year (u8 month) (u8 day) (u8 hour) (u8 minute) (u8 second) in
          (rtc_time_is_valid time, time)
      end
  | _, _, _, _, _, _ => (false, time)
  end.

(** ** Reading the clock *)

Definition CMOS_INDEX_PORT : Z := 0x70.
Definition CMOS_DATA_PORT : Z := 0x71.
Definition CMOS_NMI_DISABLE : Z := 0x80.
Definition RTC_SECONDS : Z := 0x00.
Definition RTC_MINUTES : Z := 0x02.
Definition RTC_HOURS : Z := 0x04.
Definition RTC_DAY : Z := 0x07.
Definition RTC_MONTH : Z := 0x08.
Definition RTC_YEAR : Z := 0x09.
Definition RTC_REGISTER_A : Z := 0x0A.
Definition RTC_REGISTER_B : Z := 0x0B.
Definition RTC_REGISTER_D : Z := 0x0D.
Definition RTC_CENTURY : Z := 0x32.
Definition RTC_UPDATE_IN_PROGRESS : Z := 0x80.
Definition RTC_VALID_RAM_AND_TIME : Z := 0x80.
Definition RTC_UIP_WAIT_LIMIT : Z := 100000.
Definition RTC_STABLE_READ_ATTEMPTS : Z := 8.

(** Byte-wide port input and output. *)
Class Ports (D : Type) := {
  inb : Z -> D -> Z * D;
  outb : Z -> Z -> D -> D
}.

Section reading.
Context {D : Type} `{Ports D}.

Definition cmos_read (index : Z) (nmi_disabled : bool) (d : D) : Z * D :=
  inb CMOS_DATA_PORT
    (outb CMOS_INDEX_PORT (u8 (Z.lor index (if nmi_disabled then CMOS_NMI_DISABLE else 0))) d).

Fixpoint wait_loop (attempts : nat) (d : D) : bool * D :=
  match attempts with
  | O => (false, d)
  | S attempts =>
      let '(a, d) := cmos_read RTC_REGISTER_A false d in
      if negb (flag a RTC_UPDATE_IN_PROGRESS) then (true, d) else wait_loop attempts d
  end.

Definition wait_for_update (d : D) : bool * D := wait_loop (Z.to_nat RTC_UIP_WAIT_LIMIT) d.

(** The snapshot, or [None] for the return value 0. *)
Definition read_raw_snapshot (d : D) : option rtc_raw_snapshot * D :=
  let '(ok, d) := wait_for_update d in
  if negb ok then (None, d) else
  let '(register_a_before, d) := cmos_read RTC_REGISTER_A true d in
  let '(second, d) := cmos_read RTC_SECONDS true d in
  let '(minute, d) := cmos_read RTC_MINUTES true d in
  let '(hour, d) := cmos_read RTC_HOURS true d in
  let '(day, d) := cmos_read RTC_DAY true d in
  let '(month, d) := cmos_read RTC_MONTH true d in
  let '(year, d) := cmos_read RTC_YEAR true d in
  let '(century, d) := cmos_read RTC_CENTURY true d in
  let '(b, d) := cmos_read RTC_REGISTER_B true d in
  let '(register_d, d) := cmos_read RTC_REGISTER_D true d in
  let '(register_a_after, d) := cmos_read RTC_REGISTER_A true d in
  let d := outb CMOS_INDEX_PORT 0 d in
  if negb (flag register_a_before RTC_UPDATE_IN_PROGRESS) &&
     negb (flag register_a_after RTC_UPDATE_IN_PROGRESS) && flag register_d RTC_VALID_RAM_AND_TIME
  then (Some (Build_rtc_raw_snapshot second minute hour day month year century b), d)
  else (None, d).

(** One attempt: two equal snapshots that decode. *)
Definition read_attempt (time : rtc_time) (d : D) : bool * rtc_time * D :=
  match read_raw_snapshot d with
  | (None, d) => (false, time, d)
  | (Some first, d) =>
      match read_raw_snapshot d with
      | (None, d) => (false, time, d)
      | (Some second, d) =>
          if negb (rtc_raw_snapshots_equal first second) then (false, time, d) else
          let '(ok, time) := rtc_decode_snapshot second time in (ok, time, d)
      end
  end.

Fixpoint read_loop (attempts : nat) (time : rtc_time) (d : D) : bool * rtc_time * D :=
  match attempts with
  | O => (false, time, d)
  | S attempts =>
      let '(ok, time, d) := read_attempt time d in
      if ok then (true, time, d) else read_loop attempts time d
  end.

(** Return value, [*time], the static variable [available] and the ports. *)
Definition rtc_read_time (time : rtc_time) (available : bool) (d : D)
    : bool * rtc_time * bool * D :=
  let '(ok, time, d) := read_loop (Z.to_nat RTC_STABLE_READ_ATTEMPTS) time d in
  if ok then (true, time, available, d) else (false, time, false, d).

(** The new value of [available], which is also the return value. *)
Definition rtc_init (time : rtc_time) (available : bool) (d : D) : bool * D :=
  let '(ok, _, _, d) := rtc_read_time time available d in (ok, d).

Definition rtc_available (available : bool) : bool := available.

End reading.

Definition rtc_self_test (time : rtc_time) : bool :=
  let leap := Build_rtc_raw_snapshot 0x59 0x58 0x23 0x29 0x02 0x24 0x20 RTC_REGISTER_B_24_HOUR in
  let '(ok, time) := rtc_decode_snapshot leap time in
  if negb ok || negb (year time =? 2024) || negb (month time =? 2) || negb (day time =? 29) ||
     negb (hour time =? 23) || negb (minute time =? 58) || negb (second time =? 59) then false else
  let leap := Build_rtc_raw_snapshot 0x59 0x58 0x23 0x30 0x02 0x24 0x20 RTC_REGISTER_B_24_HOUR in
  negb (fst (rtc_decode_snapshot leap time)).

Lemma rtc_self_test_passes time : rtc_self_test time = true.
Proof. reflexivity. Qed.

(** ** How the chip stores a time *)

Definition to_bcd (v : Z) : Z := 16 * (v / 10) + v mod 10.

Definition encode_value (binary : bool) (v : Z) : Z := if binary then v else to_bcd v.

Definition encode_hour (binary hour_24 : bool) (h : Z) : Z :=
  if hour_24 then encode_value binary h else
  encode_value binary (if h mod 12 =? 0 then 12 else h mod 12) + (if 12 <=? h then 128 else 0).

Definition encode_snapshot (binary hour_24 : bool) (t : rtc_time) : rtc_raw_snapshot :=
  Build_rtc_raw_snapshot (encode_value binary (second t)) (encode_value binary (minute t))
    (encode_hour binary hour_24 (hour t)) (encode_value binary (day t))
    (encode_value binary (month t)) (encode_value binary (year t mod 100))
    (encode_value binary (year t / 100))
    ((if hour_24 then 2 else 0) + (if binary then 4 else 0)).

(** ** Lemmas *)

Lemma range_check (P : Z -> bool) n : all_range 0 n P = true -> forall v, 0 <= v < n -> P v = true.
Proof. apply all_range_true. Qed.

Lemma decode_encode_value binary v : 0 <= v < 100 ->
  decode_value (encode_value binary v) binary = Some v.
Proof.
  intros Hv. destruct binary; [done|].
  pose proof (range_check (fun v => match decode_value (encode_value false v) false with
    | Some w => w =? v | None => false end) 100 ltac:(by vm_compute) v Hv) as Hc. cbn beta in Hc.
  destruct (decode_value _ _); [f_equal; lia|done].
Qed.

Lemma decode_encode_hour binary hour_24 h : 0 <= h < 24 ->
  let raw := encode_hour binary hour_24 h in
  let hour_raw := if hour_24 then raw else u8 (Z.land raw 0x7F) in
  exists v, decode_value hour_raw binary = Some v /\
    adjust_hour hour_24 (negb hour_24 && flag raw 0x80) v = Some h.
Proof.
  intros Hh. cbv zeta.
  pose proof (range_check (fun h =>
    let raw := encode_hour binary hour_24 h in
    match decode_value (if hour_24 then raw else u8 (Z.land raw 0x7F)) binary with
    | Some v => match adjust_hour hour_24 (negb hour_24 && flag raw 0x80) v with
                | Some w => w =? h | None => false end
    | None => false end) 24 ltac:(by destruct binary, hour_24; vm_compute) h Hh) as Hc. cbn beta zeta in Hc.
  destruct (decode_value _ _) as [v|]; [|done]. exists v. split; [done|].
  destruct (adjust_hour _ _ _); [f_equal; lia|done].
Qed.

Lemma days_range m : 0 <= m < 12 -> 28 <= arr days m <= 31.
Proof.
  intros Hm. pose proof (range_check (fun m => (28 <=? arr days m) && (arr days m <=? 31)) 12
    ltac:(by vm_compute) m Hm) as Hc. cbn beta in Hc. lia.
Qed.

(** A valid time has fields in range. *)
Lemma valid_ranges t : rtc_time_is_valid t = true -> 0 <= month t -> 0 <= day t ->
  1900 <= year t <= 9999 /\ 1 <= month t <= 12 /\ 1 <= day t <= 31 /\ hour t <= 23 /\
  minute t <= 59 /\ second t <= 59.
Proof.
  unfold rtc_time_is_valid. guards. intros Hd Hm0 Hd0. split_bools.
  assert (month_days (year t) (month t) <= 31) as Hmd.
  { unfold month_days. repeat case_if; try lia. pose proof (days_range (month t - 1)). lia. }
  lia.
Qed.

Lemma snapshots_equal s s' : rtc_raw_snapshots_equal s s' = true -> s = s'.
Proof.
  destruct s, s'. unfold rtc_raw_snapshots_equal. simpl. intros Hq. split_bools. f_equal; lia.
Qed.

(** Every field is an unsigned byte, the year an unsigned word. *)
Definition time_wf (t : rtc_time) : Prop :=
  is_u32 (year t) /\ is_u8 (month t) /\ is_u8 (day t) /\ is_u8 (hour t) /\ is_u8 (minute t) /\ is_u8 (second t).

(** ** Properties *)

(** In each of the four formats the chip may be configured for (binary or BCD, 12 or 24
    hours), the registers of any valid time from 1900 to 9999 decode to that time. *)
Theorem rtc_decode_encode binary hour_24 t old : time_wf t -> rtc_time_is_valid t = true ->
  rtc_decode_snapshot (encode_snapshot binary hour_24 t) old = (true, t).
Proof.
  intros (Hyw & Hmw & Hdw & Hhw & Hminw & Hsw) Hv. unfold is_u8 in *.
  destruct (valid_ranges t Hv ltac:(lia) ltac:(lia)) as (Hy & Hm & Hd & Hh & Hmin & Hs).
  unfold rtc_decode_snapshot, encode_snapshot.
  cbn [raw_second raw_minute raw_hour raw_day raw_month raw_year raw_century register_b].
  assert (forall b : bool, flag ((if hour_24 then 2 else 0) + (if b then 4 else 0)) RTC_REGISTER_B_BINARY = b /\
    flag ((if hour_24 then 2 else 0) + (if b then 4 else 0)) RTC_REGISTER_B_24_HOUR = hour_24) as Hfl
    by (intros []; by destruct hour_24).
  destruct (Hfl binary) as [-> ->].
  destruct (decode_encode_hour binary hour_24 (hour t) ltac:(lia)) as (v & Ev & Ea). cbv zeta in Ev, Ea.
  rewrite Ev, Ea. rewrite !decode_encode_value by dmlia.
  assert (full_year (encode_value binary (year t / 100)) binary (year t mod 100) = year t) as Hfy.
  { unfold full_year. rewrite decode_encode_value by dmlia.
    assert (encode_value binary (year t / 100) <> 0) as Hne.
    { destruct binary; unfold encode_value, to_bcd; dmlia. }
    replace (negb (_ =? 0)) with true by lia.
    replace ((19 <=? year t / 100) && (year t / 100 <=? 99)) with true by dmlia.
    rewrite (u32_id (_ * 100)) by (unfold is_u32; dmlia). rewrite u32_id by (unfold is_u32; dmlia). dmlia. }
  rewrite Hfy. rewrite !u8_id by (unfold is_u8; lia).
  destruct t as [y mo dd hh mi ss]. cbn in *. by rewrite Hv.
Qed.

Lemma rtc_decode_encode_witness :
  rtc_decode_snapshot (encode_snapshot false false (Build_rtc_time 2024 2 29 12 58 59))
    (Build_rtc_time 0 0 0 0 0 0) = (true, Build_rtc_time 2024 2 29 12 58 59).
Proof.
  apply rtc_decode_encode; [unfold time_wf, is_u32, is_u8; cbn; lia|vm_compute; reflexivity].
Defined.

Section stable.
Context {D : Type} `{Ports D}.

Lemma read_loop_spec n time (d : D) time' d' : read_loop n time d = (true, time', d') ->
  exists raw d1 d2 old, read_raw_snapshot d1 = (Some raw, d2) /\ read_raw_snapshot d2 = (Some raw, d') /\
    rtc_decode_snapshot raw old = (true, time').
Proof.
  revert time d. induction n as [|n IH]; intros time d; cbn [read_loop]; [done|].
  destruct (read_attempt time d) as [[ok t] d1] eqn:Ea. destruct ok; [|apply IH].
  intros [= <- <-]. unfold read_attempt in Ea.
  destruct (read_raw_snapshot d) as [[s1|] d2] eqn:E1; [|done].
  destruct (read_raw_snapshot d2) as [[s2|] d3] eqn:E2; [|done].
  destruct (rtc_raw_snapshots_equal s1 s2) eqn:Eq; [|done]. cbn [negb] in Ea.
  apply snapshots_equal in Eq as <-. destruct (rtc_decode_snapshot s1 time) as [ok t2] eqn:Ed.
  injection Ea as -> <- <-. by exists s1, d, d2, time.
Qed.

End stable.

Lemma decode_valid raw old t : rtc_decode_snapshot raw old = (true, t) -> rtc_time_is_valid t = true.
Proof.
  unfold rtc_decode_snapshot. repeat case_match; try done; by intros [= Hv <-].
Qed.

(** [rtc_read_time] reports only valid times, read twice in a row from the clock with no
    update in between; otherwise, after eight attempts, it gives up and marks the clock
    unavailable. *)
Theorem rtc_read_time_stable {D} `{Ports D} (time time' : rtc_time) (available available' ok : bool)
    (d d' : D) :
  rtc_read_time time available d = (ok, time', available', d') ->
  (ok = true -> available' = available /\ rtc_time_is_valid time' = true /\
     exists raw d1 d2 old, read_raw_snapshot d1 = (Some raw, d2) /\
       read_raw_snapshot d2 = (Some raw, d') /\ rtc_decode_snapshot raw old = (true, time')) /\
  (ok = false -> available' = false).
Proof.
  unfold rtc_read_time. destruct (read_loop _ time d) as [[ok1 t1] d1] eqn:El. destruct ok1.
  - intros [= <- <- <- <-]. split; [|done]. intros _. split; [done|].
    destruct (read_loop_spec _ _ _ _ _ El) as (raw & d2 & d3 & old & E1 & E2 & Ed).
    split; [by eapply decode_valid|]. by exists raw, d2, d3, old.
  - by intros [= <- <- <- <-].
Qed.

(** ** Witness: a clock that stands still *)

#[local] Instance still_clock : Ports (Z * (Z -> Z)) := {
  inb _ d := (snd d (Z.land (fst d) 0x7F), d);
  outb port v d := (v, snd d)
}.

Definition noon : Z -> Z := fun index =>
  if index =? RTC_HOURS then 0x12 else if index =? RTC_DAY then 0x01 else
  if index =? RTC_MONTH then 0x01 else if index =? RTC_YEAR then 0x26 else
  if index =? RTC_CENTURY then 0x20 else if index =? RTC_REGISTER_B then 0x02 else
  if index =? RTC_REGISTER_D then 0x80 else 0.

Lemma rtc_read_time_stable_witness :
  let '(ok, time', _, _) := rtc_read_time (Build_rtc_time 0 0 0 0 0 0) true (0, noon) in
  ok = true /\ rtc_time_is_valid time' = true.
Proof.
  destruct (rtc_read_time (Build_rtc_time 0 0 0 0 0 0) true (0, noon)) as [[[ok t] a] d] eqn:E.
  assert (fst (fst (fst (rtc_read_time (Build_rtc_time 0 0 0 0 0 0) true (0, noon)))) = true) as Hok
    by (vm_compute; reflexivity).
  rewrite E in Hok. cbn in Hok. destruct (rtc_read_time_stable _ _ _ _ _ _ _ E) as [Ht _].
  split; [exact Hok|]. apply (Ht Hok).
Defined.
