(* ===== verification/Checked.v ===== *)
(** * Checked accesses

    Parsers of untrusted bytes are written with an explicit outcome: a value, the return value 0,
    an access outside an object, or an exhausted loop bound. Their theorems exclude the last two. *)

From S2P Require Import Prelude.
Local Open Scope c_scope.
Local Open Scope Z_scope.

(** ** Outcomes *)

(** [Reject] is the return value 0. *)
Inductive outcome (A : Type) := Ok (a : A) | Reject | Fault | Diverges.
Arguments Ok {A} a.
Arguments Reject {A}.
Arguments Fault {A}.
Arguments Diverges {A}.

Definition bind {A B} (m : outcome A) (f : A -> outcome B) : outcome B :=
  match m with
  | Ok a => f a
  | Reject => Reject
  | Fault => Fault
  | Diverges => Diverges
  end.

Notation "x <-- m ; k" := (bind m (fun x => k)) (at level 100, m at next level, right associativity) : c_scope.

(** [if (!b) return 0;] *)
Definition require (b : bool) : outcome unit := if b then Ok tt else Reject.

(** Local arrays. *)
Definition array_get {A} (a : list A) (i : Z) : outcome A :=
  if i <? 0 then Fault else match a !! Z.to_nat i with Some x => Ok x | None => Fault end.

Definition array_set {A} (a : list A) (i : Z) (x : A) : outcome (list A) :=
  if (0 <=? i) && (i <? Z.of_nat (length a)) then Ok (<[Z.to_nat i := x]> a) else Fault.

(** ** Outcomes without faults *)

(** No fault, no divergence, and [P] of the value if there is one. *)
Definition safe {A} (m : outcome A) (P : A -> Prop) : Prop :=
  match m with
  | Ok a => P a
  | Reject => True
  | Fault | Diverges => False
  end.

Lemma safe_bind {A B} (m : outcome A) (f : A -> outcome B) P Q :
  safe m P -> (forall a, P a -> safe (f a) Q) -> safe (bind m f) Q.
Proof. destruct m; cbn; intros H1 H2; [by apply H2|done..]. Qed.

Lemma safe_require {B} b (f : unit -> outcome B) Q :
  (b = true -> safe (f tt) Q) -> safe (bind (require b) f) Q.
Proof. destruct b; cbn; [intros H; by apply H|done]. Qed.

Lemma safe_weaken {A} (m : outcome A) (P Q : A -> Prop) : safe m P -> (forall a, P a -> Q a) -> safe m Q.
Proof. destruct m; cbn; intros H1 H2; [by apply H2|done..]. Qed.

Lemma array_get_safe {A} (a : list A) i (P : A -> Prop) : 0 <= i < Z.of_nat (length a) -> Forall P a ->
  safe (array_get a i) (fun x => P x /\ a !! Z.to_nat i = Some x).
Proof.
  intros Hi Hf. unfold array_get. replace (i <? 0) with false by lia.
  destruct (lookup_lt_is_Some_2 a (Z.to_nat i)) as [x Hx]; [lia|]. rewrite Hx. cbn.
  split; [|done]. by eapply Forall_lookup_1 in Hf.
Qed.

Lemma array_get_in {A} (a : list A) i : 0 <= i < Z.of_nat (length a) ->
  exists x, array_get a i = Ok x /\ a !! Z.to_nat i = Some x.
Proof.
  intros Hi. unfold array_get. replace (i <? 0) with false by lia.
  destruct (lookup_lt_is_Some_2 a (Z.to_nat i)) as [x Hx]; [lia|]. rewrite Hx. by exists x.
Qed.

Lemma array_set_in {A} (a : list A) i x : 0 <= i < Z.of_nat (length a) ->
  array_set a i x = Ok (<[Z.to_nat i := x]> a).
Proof. intros Hi. unfold array_set. by replace (_ && _) with true by lia. Qed.

(** ** Values of accepted runs *)

Lemma bind_ok {A B} (m : outcome A) (f : A -> outcome B) r :
  bind m f = Ok r -> exists a, m = Ok a /\ f a = Ok r.
Proof. destruct m; cbn; intros H; try done. by eexists. Qed.

Lemma require_ok {B} b (f : unit -> outcome B) r : bind (require b) f = Ok r -> b = true /\ f tt = Ok r.
Proof. destruct b; cbn; [done|]. done. Qed.

Lemma array_get_ok {A} (a : list A) i x : array_get a i = Ok x -> 0 <= i /\ a !! Z.to_nat i = Some x.
Proof. unfold array_get. case_if; [done|]. destruct (a !! Z.to_nat i); [|done]. intros [= ->]. split; [lia|done]. Qed.

Lemma array_set_ok {A} (a b : list A) i x :
  array_set a i x = Ok b -> 0 <= i < Z.of_nat (length a) /\ b = <[Z.to_nat i := x]> a.
Proof. unfold array_set. case_if; [|done]. intros [= <-]. split; [lia|done]. Qed.

Lemma safe_ok {A} (m : outcome A) P a : safe m P -> m = Ok a -> P a.
Proof. by intros H ->. Qed.

(** ** Reading bytes *)

Section bytes.
Context (bytes : list Z).

Definition available : Z := Z.of_nat (length bytes).

Definition byte (i : Z) : outcome Z := array_get bytes i.

(** Little-endian values. *)
Definition le16 (i : Z) : Z := arr bytes i + 256 * arr bytes (i + 1).
Definition le32 (i : Z) : Z :=
  arr bytes i + 256 * arr bytes (i + 1) + 65536 * arr bytes (i + 2) + 16777216 * arr bytes (i + 3).

End bytes.

Lemma byte_in bytes i : 0 <= i < available bytes -> byte bytes i = Ok (arr bytes i).
Proof. intros Hi. destruct (array_get_in bytes i Hi) as (b & H & Hb). unfold byte. rewrite H. f_equal. symmetry. by apply arr_lookup. Qed.

Lemma byte_safe bytes i : bytes_ok bytes -> 0 <= i < available bytes -> safe (byte bytes i) is_u8.
Proof. intros Hb Hi. rewrite byte_in by done. by apply arr_u8. Qed.

Lemma byte_ok bytes i b : byte bytes i = Ok b -> b = arr bytes i.
Proof. intros [_ H]%array_get_ok. symmetry. by apply arr_lookup. Qed.

(** The expressions C code reads them with. *)
Lemma lor_le16 bytes i : bytes_ok bytes -> Z.lor (arr bytes i) (shl32 (arr bytes (i + 1)) 8) = le16 bytes i.
Proof.
  intros Hb. pose proof (arr_u8 bytes i Hb). pose proof (arr_u8 bytes (i + 1) Hb). unfold is_u8, shl32, le16 in *.
  rewrite u32_id by (unfold is_u32; rewrite Z.shiftl_mul_pow2; lia). rewrite lor_shiftl by lia. lia.
Qed.

Lemma lor_le32 bytes i : bytes_ok bytes ->
  Z.lor (Z.lor (Z.lor (arr bytes i) (shl32 (arr bytes (i + 1)) 8)) (shl32 (arr bytes (i + 2)) 16))
    (shl32 (arr bytes (i + 3)) 24) = le32 bytes i.
Proof.
  intros Hb. pose proof (arr_u8 bytes i Hb). pose proof (arr_u8 bytes (i + 1) Hb).
  pose proof (arr_u8 bytes (i + 2) Hb). pose proof (arr_u8 bytes (i + 3) Hb). unfold is_u8, shl32, le32 in *.
  rewrite !u32_id by (unfold is_u32; rewrite Z.shiftl_mul_pow2; lia).
  rewrite (lor_shiftl _ _ 8) by lia. rewrite (lor_shiftl _ _ 16) by lia. rewrite (lor_shiftl _ _ 24) by lia. lia.
Qed.

Lemma le16_u16 bytes i : bytes_ok bytes -> is_u16 (le16 bytes i).
Proof.
  intros Hb. pose proof (arr_u8 bytes i Hb). pose proof (arr_u8 bytes (i + 1) Hb). unfold is_u8, is_u16, le16 in *. lia.
Qed.

Lemma le32_u32 bytes i : bytes_ok bytes -> is_u32 (le32 bytes i).
Proof.
  intros Hb. pose proof (arr_u8 bytes i Hb). pose proof (arr_u8 bytes (i + 1) Hb).
  pose proof (arr_u8 bytes (i + 2) Hb). pose proof (arr_u8 bytes (i + 3) Hb). unfold is_u8, is_u32, le32 in *. lia.
Qed.
