(* ===== verification/KernelCall.v ===== *)
(** * Calls inside the kernel

    Kernel code that works on a shared state: a call returns, it stops the machine
    ([kernel_panic]), it makes an access that the page tables or the bounds of an object do not
    allow, or it uses up the loop bound of the model. The theorems about such code exclude the last
    two, and say when the second happens. *)

From Stdlib Require Import String.
From S2P Require Import Prelude Checked.
Local Open Scope Z_scope.

Inductive run (S A : Type) := Done (a : A) (s : S) | Panic (message : string) | Trap | Stuck.
Arguments Done {S A} a s.
Arguments Panic {S A} message.
Arguments Trap {S A}.
Arguments Stuck {S A}.

Definition call (S A : Type) := S -> run S A.

Definition ret {S A} (a : A) : call S A := fun s => Done a s.

Definition call_bind {S A B} (m : call S A) (k : A -> call S B) : call S B := fun s =>
  match m s with
  | Done a s => k a s
  | Panic message => Panic message
  | Trap => Trap
  | Stuck => Stuck
  end.

Declare Scope call_scope.
Delimit Scope call_scope with K.
Notation "x <~ m ; k" := (call_bind m (fun x => k)) (at level 100, m at next level, right associativity) : call_scope.
Notation "m ;~ k" := (call_bind m (fun _ => k)) (at level 100, right associativity) : call_scope.

(** A call that cannot fail, a query, and an update of the state. *)
Definition do {S A} (f : S -> A * S) : call S A := fun s => let '(a, s) := f s in Done a s.
Definition ask {S A} (f : S -> A) : call S A := fun s => Done (f s) s.
Definition update {S} (f : S -> S) : call S unit := fun s => Done tt (f s).

Definition kernel_panic {S A} (message : string) : call S A := fun _ => Panic message.

(** An access that may fault. *)
Definition access {S A} (f : S -> option A) : call S A := fun s => match f s with Some a => Done a s | None => Trap end.
Definition store {S} (f : S -> option S) : call S unit := fun s => match f s with Some s => Done tt s | None => Trap end.

(** A parser of untrusted bytes; [None] is the return value 0. *)
Definition parse {S A} (m : outcome A) : call S (option A) :=
  match m with
  | Ok a => ret (Some a)
  | Reject => ret None
  | Fault => fun _ => Trap
  | Diverges => fun _ => Stuck
  end.

(** A value that the code reads without a test. *)
Definition value {S A} (m : outcome A) : call S A :=
  match m with
  | Ok a => ret a
  | Reject | Fault => fun _ => Trap
  | Diverges => fun _ => Stuck
  end.

(** ** Reasoning *)

(** The call returns, and [Q] holds of what it returns and of the new state. *)
Definition returns {S A} (m : run S A) (Q : A -> S -> Prop) : Prop :=
  match m with Done a s => Q a s | _ => False end.

Lemma returns_bind {S A B} (m : call S A) (k : A -> call S B) s P Q :
  returns (m s) P -> (forall a s', P a s' -> returns (k a s') Q) -> returns (call_bind m k s) Q.
Proof. unfold call_bind. destruct (m s); cbn; try done. auto. Qed.

Lemma returns_weaken {S A} (m : run S A) (P Q : A -> S -> Prop) :
  returns m P -> (forall a s, P a s -> Q a s) -> returns m Q.
Proof. destruct m; cbn; try done. auto. Qed.

Lemma returns_eq {S A} (m : run S A) Q : returns m Q -> exists a s, m = Done a s /\ Q a s.
Proof. destruct m; cbn; try done. eauto. Qed.

(** The call returns with [Q], or it panics and [P] does not hold; the other two do not happen. *)
Definition ends {S A} (P : Prop) (m : run S A) (Q : A -> S -> Prop) : Prop :=
  match m with Done a s => Q a s | Panic _ => ~ P | _ => False end.

Lemma ends_bind {S A B} (P P' : Prop) (m : call S A) (k : A -> call S B) s R Q : (P -> P') ->
  ends P' (m s) R -> (forall a s', R a s' -> ends P (k a s') Q) -> ends P (call_bind m k s) Q.
Proof. unfold call_bind. destruct (m s); cbn; try done; auto. Qed.

Lemma ends_weaken {S A} (P P' : Prop) (m : run S A) (Q Q' : A -> S -> Prop) : (P -> P') ->
  ends P' m Q -> (forall a s, Q a s -> Q' a s) -> ends P m Q'.
Proof. destruct m; cbn; try done; auto. Qed.

Lemma ends_returns {S A} (P : Prop) (m : run S A) Q : ends P m Q -> P -> returns m Q.
Proof. destruct m; cbn; try done. Qed.

Lemma ends_done {S A} P (m : run S A) Q a s : ends P m Q -> m = Done a s -> Q a s.
Proof. by intros H ->. Qed.

Lemma bind_done {S A B} (m : call S A) (k : A -> call S B) s a s' : m s = Done a s' -> call_bind m k s = k a s'.
Proof. unfold call_bind. by intros ->. Qed.

Lemma bind_do {S A B} (f : S -> A * S) (k : A -> call S B) s a s' : f s = (a, s') -> call_bind (do f) k s = k a s'.
Proof. unfold call_bind, do. by intros ->. Qed.
