(* ===== verification/Acpi.v ===== *)
(** * ACPI tables

    [drivers/acpi_tables.c]: validation and parsing of the root pointer, the root tables, the HPET
    table and the multiple APIC description table. The firmware memory a parser is given is a
    list of [available] bytes and every access is checked: reading past its end, or past the end
    of a local array, is the outcome [Fault]. The caller's pointers are never null. *)

From S2P Require Import Prelude Checked.
Local Open Scope c_scope.
Local Open Scope Z_scope.

Definition ACPI_RSDP_V1_LENGTH : Z := 20.
Definition ACPI_RSDP_V2_LENGTH : Z := 36.
Definition ACPI_SDT_HEADER_LENGTH : Z := 36.
Definition ACPI_HPET_TABLE_MIN_LENGTH : Z := 56.
Definition ACPI_MADT_HEADER_LENGTH : Z := 44.
Definition ACPI_MAX_RSDP_LENGTH : Z := 4096.
Definition ACPI_MAX_SDT_LENGTH : Z := 65536.
Definition ACPI_MAX_RSDT_ENTRIES : Z := 256.
Definition ACPI_MADT_MAX_PROCESSORS : Z := 256.
Definition ACPI_MADT_MAX_IO_APICS : Z := 8.
Definition ACPI_MADT_ISA_IRQ_COUNT : Z := 16.

(** ** Data *)

Record acpi_rsdp_info := {
  rsdt_address : Z;
  xsdt_address_low : Z;
  xsdt_address_high : Z;
  revision : Z;
  rsdp_length : Z
}.

Record acpi_hpet_table_info := {
  event_timer_block_id : Z;
  hpet_physical_address : Z;
  minimum_tick : Z;
  sequence_number : Z;
  page_protection : Z
}.

Record acpi_madt_io_apic := { io_id : Z; physical_address : Z; global_interrupt_base : Z }.

Record acpi_madt_irq_override := { global_interrupt : Z; irq_flags : Z; present : Z }.

Record acpi_madt_table_info := {
  local_apic_address : Z;
  flags : Z;
  enabled_local_apics : Z;
  enabled_x2apics : Z;
  local_apic_id_bitmap : list Z;
  io_apic_count : Z;
  io_apics : list acpi_madt_io_apic;
  isa_overrides : list acpi_madt_irq_override
}.

Section tables.
Context (bytes : list Z).

Definition read_u16 (offset : Z) : outcome Z :=
  (b0 <-- byte bytes offset; b1 <-- byte bytes (offset + 1); Ok (Z.lor b0 (shl32 b1 8)))%C.

Definition read_u32 (offset : Z) : outcome Z :=
  (b0 <-- byte bytes offset; b1 <-- byte bytes (offset + 1); b2 <-- byte bytes (offset + 2); b3 <-- byte bytes (offset + 3);
   Ok (Z.lor (Z.lor (Z.lor b0 (shl32 b1 8)) (shl32 b2 16)) (shl32 b3 24)))%C.

Fixpoint equal_loop (right_ : list Z) (index : Z) : outcome bool :=
  match right_ with
  | [] => Ok true
  | c :: right_ => b <-- byte bytes index; if b =? c then equal_loop right_ (index + 1) else Ok false
  end%C.

Definition bytes_equal (right_ : list Z) : outcome bool := equal_loop right_ 0.

Fixpoint sum_loop (n : nat) (index sum : Z) : outcome Z :=
  match n with
  | O => Ok sum
  | S n => b <-- byte bytes index; sum_loop n (index + 1) (u8 (sum + b))
  end%C.

Definition acpi_checksum_valid (length : Z) : outcome bool :=
  if length =? 0 then Ok false else (sum <-- sum_loop (Z.to_nat length) 0 0; Ok (sum =? 0))%C.

(** ** Root pointer *)

(** "RSD PTR " *)
Definition RSDP_SIGNATURE : list Z := [82; 83; 68; 32; 80; 84; 82; 32].

Definition acpi_parse_rsdp : outcome acpi_rsdp_info :=
  (_ <-- require (negb (available bytes <? ACPI_RSDP_V1_LENGTH));
   ok <-- bytes_equal RSDP_SIGNATURE; _ <-- require ok;
   ok <-- acpi_checksum_valid ACPI_RSDP_V1_LENGTH; _ <-- require ok;
   revision <-- byte bytes 15;
   rsdt_address <-- read_u32 16;
   _ <-- require (negb ((revision =? 1) || (rsdt_address <? 0x1000)));
   if 2 <=? revision then
     length <-- read_u32 20;
     _ <-- require (negb ((length <? ACPI_RSDP_V2_LENGTH) || (ACPI_MAX_RSDP_LENGTH <? length) ||
                          (available bytes <? length)));
     ok <-- acpi_checksum_valid length; _ <-- require ok;
     b33 <-- byte bytes 33; _ <-- require (b33 =? 0);
     b34 <-- byte bytes 34; _ <-- require (b34 =? 0);
     b35 <-- byte bytes 35; _ <-- require (b35 =? 0);
     low <-- read_u32 24; high <-- read_u32 28;
     Ok (Build_acpi_rsdp_info rsdt_address low high revision length)
   else Ok (Build_acpi_rsdp_info rsdt_address 0 0 revision ACPI_RSDP_V1_LENGTH))%C.

(** ** System description tables *)

Definition acpi_sdt_peek_length (signature : list Z) : outcome Z :=
  (_ <-- require (negb (available bytes <? ACPI_SDT_HEADER_LENGTH));
   ok <-- bytes_equal signature; _ <-- require ok;
   table_length <-- read_u32 4;
   _ <-- require (negb ((table_length <? ACPI_SDT_HEADER_LENGTH) || (ACPI_MAX_SDT_LENGTH <? table_length)));
   Ok table_length)%C.

Definition acpi_parse_sdt (signature : list Z) : outcome Z :=
  (table_length <-- acpi_sdt_peek_length signature;
   _ <-- require (negb (available bytes <? table_length));
   ok <-- acpi_checksum_valid table_length; _ <-- require ok;
   Ok table_length)%C.

(** "RSDT", "XSDT", "HPET" and "APIC" *)
Definition RSDT : list Z := [82; 83; 68; 84].
Definition XSDT : list Z := [88; 83; 68; 84].
Definition HPET : list Z := [72; 80; 69; 84].
Definition APIC : list Z := [65; 80; 73; 67].

(** The address at an index and the number of entries. *)
Definition acpi_rsdt_entry_at (index : Z) : outcome (Z * Z) :=
  (length <-- acpi_parse_sdt RSDT;
   _ <-- require (negb (flag (length -32 ACPI_SDT_HEADER_LENGTH) 3));
   let count := (length -32 ACPI_SDT_HEADER_LENGTH) / 4 in
   _ <-- require (negb ((count =? 0) || (ACPI_MAX_RSDT_ENTRIES <? count) || (count <=? index)));
   address <-- read_u32 (ACPI_SDT_HEADER_LENGTH +32 (index *32 4));
   _ <-- require (negb (address <? 0x1000));
   Ok (address, count))%C.

Definition acpi_xsdt_entry_at (index : Z) : outcome (Z * Z * Z) :=
  (length <-- acpi_parse_sdt XSDT;
   _ <-- require (negb (flag (length -32 ACPI_SDT_HEADER_LENGTH) 7));
   let count := (length -32 ACPI_SDT_HEADER_LENGTH) / 8 in
   _ <-- require (negb ((count =? 0) || (ACPI_MAX_RSDT_ENTRIES <? count) || (count <=? index)));
   let offset := ACPI_SDT_HEADER_LENGTH +32 (index *32 8) in
   low <-- read_u32 offset;
   high <-- read_u32 (offset +32 4);
   _ <-- require (negb ((low <? 0x1000) && (high =? 0)));
   Ok (low, high, count))%C.

Definition acpi_parse_hpet_table : outcome acpi_hpet_table_info :=
  (length <-- acpi_parse_sdt HPET;
   _ <-- require (negb (length <? ACPI_HPET_TABLE_MIN_LENGTH));
   b8 <-- byte bytes 8; _ <-- require (negb (b8 =? 0));
   block_id <-- read_u32 36;
   let vendor := Z.shiftr block_id 16 in
   access_size <-- byte bytes 43;
   address_low <-- read_u32 44;
   address_high <-- read_u32 48;
   page_protection <-- byte bytes 55;
   _ <-- require (negb (flag block_id (shl32 1 14) || (vendor =? 0) || (vendor =? 0xFFFF)));
   b40 <-- byte bytes 40; _ <-- require (b40 =? 0);
   b41 <-- byte bytes 41; _ <-- require (negb (negb (b41 =? 0) && negb (b41 =? 64)));
   b42 <-- byte bytes 42; _ <-- require (b42 =? 0);
   _ <-- require (negb ((negb (access_size =? 0) && negb (access_size =? 4)) || negb (address_high =? 0) ||
     (address_low <? 0x1000) || flag address_low 0x3FF || (0xFFFFFFFF -32 1023 <? address_low) ||
     (2 <? page_protection)));
   minimum_tick <-- read_u16 53;
   sequence_number <-- byte bytes 52;
   Ok (Build_acpi_hpet_table_info block_id address_low minimum_tick sequence_number page_protection))%C.

(** ** Multiple APIC description table *)

Definition madt_interrupt_flags_valid (flags : Z) : bool :=
  let polarity := Z.land flags 3 in
  let trigger := Z.land (Z.shiftr flags 2) 3 in
  negb (flag flags (not32 0xF)) && negb (polarity =? 2) && negb (trigger =? 2).

Definition madt_mmio_address_valid (address : Z) : bool :=
  (0x1000 <=? address) && negb (flag address 0xFFF) && (address <=? 0xFFFFFFFF -32 0xFFF).

(** The cleared structure; the interrupts of the ISA bus map to themselves. *)
Definition madt_info_clear : acpi_madt_table_info :=
  Build_acpi_madt_table_info 0 0 0 0 (replicate 8 0) 0 (replicate 8 (Build_acpi_madt_io_apic 0 0 0))
    ((fun i => Build_acpi_madt_irq_override i 0 0) <$> seqZ 0 16).

(** The loops over a fixed number of elements. *)
Definition copy_elements {A} (n : nat) (zero : A) (source : list A) : list A :=
  (fun index => nth index source zero) <$> seq 0 n.

Definition madt_info_copy (source : acpi_madt_table_info) : acpi_madt_table_info :=
  Build_acpi_madt_table_info (local_apic_address source) (flags source) (enabled_local_apics source)
    (enabled_x2apics source) (copy_elements 8 0 (local_apic_id_bitmap source)) (io_apic_count source)
    (copy_elements 8 (Build_acpi_madt_io_apic 0 0 0) (io_apics source))
    (copy_elements 16 (Build_acpi_madt_irq_override 0 0 0) (isa_overrides source)).

(** The local variables of the structure loop; [x2apic_ids] is read only below its count. *)
Record madt_state := {
  parsed : acpi_madt_table_info;
  local_apic_ids : list Z;
  x2apic_ids : list Z;
  x2apic_id_count : Z;
  address_override_seen : bool
}.

Definition set_parsed (p : acpi_madt_table_info) (s : madt_state) : madt_state :=
  Build_madt_state p (local_apic_ids s) (x2apic_ids s) (x2apic_id_count s) (address_override_seen s).

(** Type 0: a processor's local APIC. *)
Definition madt_local_apic (offset structure_length : Z) (s : madt_state) : outcome madt_state :=
  (_ <-- require (structure_length =? 8);
   apic_id <-- byte bytes (offset + 3);
   fl <-- read_u32 (offset + 4);
   _ <-- require (negb (flag fl (not32 3) || (Z.land fl 3 =? 3)));
   if flag fl 1 then
     let p := parsed s in
     seen <-- array_get (local_apic_ids s) apic_id;
     _ <-- require (negb (negb (seen =? 0) ||
             (ACPI_MADT_MAX_PROCESSORS <=? enabled_local_apics p +32 enabled_x2apics p)));
     ids <-- array_set (local_apic_ids s) apic_id 1;
     word <-- array_get (local_apic_id_bitmap p) (Z.shiftr apic_id 5);
     bitmap <-- array_set (local_apic_id_bitmap p) (Z.shiftr apic_id 5)
                  (Z.lor word (shl32 1 (Z.land apic_id 31)));
     let p := Build_acpi_madt_table_info (local_apic_address p) (flags p) (enabled_local_apics p +32 1)
       (enabled_x2apics p) bitmap (io_apic_count p) (io_apics p) (isa_overrides p) in
     Ok (Build_madt_state p ids (x2apic_ids s) (x2apic_id_count s) (address_override_seen s))
   else Ok s)%C.

(** The duplicate search of type 1. *)
Fixpoint io_apic_clash (n : nat) (io_index id address : Z) (l : list acpi_madt_io_apic) : outcome bool :=
  match n with
  | O => Ok false
  | S n =>
      e <-- array_get l io_index;
      if (io_id e =? id) || (physical_address e =? address) then Ok true
      else io_apic_clash n (io_index + 1) id address l
  end%C.

(** Type 1: an I/O APIC. *)
Definition madt_io_apic (offset structure_length : Z) (s : madt_state) : outcome madt_state :=
  (_ <-- require (structure_length =? 12);
   b3 <-- byte bytes (offset + 3); _ <-- require (b3 =? 0);
   let p := parsed s in
   _ <-- require (negb (ACPI_MADT_MAX_IO_APICS <=? io_apic_count p));
   id <-- byte bytes (offset + 2);
   address <-- read_u32 (offset + 4);
   _ <-- require (madt_mmio_address_valid address);
   clash <-- io_apic_clash (Z.to_nat (io_apic_count p)) 0 id address (io_apics p);
   _ <-- require (negb clash);
   base <-- read_u32 (offset + 8);
   l <-- array_set (io_apics p) (io_apic_count p) (Build_acpi_madt_io_apic id address base);
   Ok (set_parsed (Build_acpi_madt_table_info (local_apic_address p) (flags p) (enabled_local_apics p)
         (enabled_x2apics p) (local_apic_id_bitmap p) (io_apic_count p +32 1) l (isa_overrides p)) s))%C.

(** Type 2: an ISA interrupt override. *)
Definition madt_override (offset structure_length : Z) (s : madt_state) : outcome madt_state :=
  (_ <-- require (structure_length =? 10);
   b2 <-- byte bytes (offset + 2); _ <-- require (b2 =? 0);
   source <-- byte bytes (offset + 3);
   fl <-- read_u16 (offset + 8);
   _ <-- require (negb ((ACPI_MADT_ISA_IRQ_COUNT <=? source) || negb (madt_interrupt_flags_valid fl)));
   let p := parsed s in
   old <-- array_get (isa_overrides p) source;
   _ <-- require (present old =? 0);
   irq <-- read_u32 (offset + 4);
   l <-- array_set (isa_overrides p) source (Build_acpi_madt_irq_override irq fl 1);
   Ok (set_parsed (Build_acpi_madt_table_info (local_apic_address p) (flags p) (enabled_local_apics p)
         (enabled_x2apics p) (local_apic_id_bitmap p) (io_apic_count p) (io_apics p) l) s))%C.

(** Types 3, 4 and 10 are only checked. *)
Definition madt_nmi_source (offset structure_length : Z) (s : madt_state) : outcome madt_state :=
  (_ <-- require (structure_length =? 8);
   fl <-- read_u16 (offset + 2); _ <-- require (madt_interrupt_flags_valid fl); Ok s)%C.

Definition madt_local_nmi (offset structure_length : Z) (s : madt_state) : outcome madt_state :=
  (_ <-- require (structure_length =? 6);
   b5 <-- byte bytes (offset + 5); _ <-- require (negb (1 <? b5));
   fl <-- read_u16 (offset + 3); _ <-- require (madt_interrupt_flags_valid fl); Ok s)%C.

Definition madt_x2apic_nmi (offset structure_length : Z) (s : madt_state) : outcome madt_state :=
  (_ <-- require (structure_length =? 12);
   b8 <-- byte bytes (offset + 8); _ <-- require (negb (1 <? b8));
   b9 <-- byte bytes (offset + 9); _ <-- require (b9 =? 0);
   b10 <-- byte bytes (offset + 10); _ <-- require (b10 =? 0);
   b11 <-- byte bytes (offset + 11); _ <-- require (b11 =? 0);
   fl <-- read_u16 (offset + 2); _ <-- require (madt_interrupt_flags_valid fl); Ok s)%C.

(** Type 5: the local APIC address override. *)
Definition madt_address_override (offset structure_length : Z) (s : madt_state) : outcome madt_state :=
  (_ <-- require (structure_length =? 12);
   _ <-- require (negb (address_override_seen s));
   r <-- read_u16 (offset + 2); _ <-- require (r =? 0);
   address_low <-- read_u32 (offset + 4);
   address_high <-- read_u32 (offset + 8);
   _ <-- require (negb (negb (address_high =? 0) || negb (madt_mmio_address_valid address_low)));
   let p := parsed s in
   Ok (Build_madt_state (Build_acpi_madt_table_info address_low (flags p) (enabled_local_apics p)
         (enabled_x2apics p) (local_apic_id_bitmap p) (io_apic_count p) (io_apics p) (isa_overrides p))
         (local_apic_ids s) (x2apic_ids s) (x2apic_id_count s) true))%C.

Fixpoint x2apic_seen (n : nat) (index apic_id : Z) (ids : list Z) : outcome bool :=
  match n with
  | O => Ok false
  | S n => x <-- array_get ids index; if x =? apic_id then Ok true else x2apic_seen n (index + 1) apic_id ids
  end%C.

(** Type 9: a processor's local x2APIC. *)
Definition madt_x2apic (offset structure_length : Z) (s : madt_state) : outcome madt_state :=
  (_ <-- require (structure_length =? 16);
   r <-- read_u16 (offset + 2); _ <-- require (r =? 0);
   apic_id <-- read_u32 (offset + 4);
   fl <-- read_u32 (offset + 8);
   _ <-- require (negb (flag fl (not32 3) || (Z.land fl 3 =? 3)));
   if flag fl 1 then
     let p := parsed s in
     _ <-- require (negb (ACPI_MADT_MAX_PROCESSORS <=? enabled_local_apics p +32 enabled_x2apics p));
     seen <-- x2apic_seen (Z.to_nat (x2apic_id_count s)) 0 apic_id (x2apic_ids s);
     _ <-- require (negb seen);
     ids <-- array_set (x2apic_ids s) (x2apic_id_count s) apic_id;
     Ok (Build_madt_state (Build_acpi_madt_table_info (local_apic_address p) (flags p) (enabled_local_apics p)
           (enabled_x2apics p +32 1) (local_apic_id_bitmap p) (io_apic_count p) (io_apics p) (isa_overrides p))
           (local_apic_ids s) ids (x2apic_id_count s +32 1) (address_override_seen s))
   else Ok s)%C.

Definition madt_structure (type offset structure_length : Z) (s : madt_state) : outcome madt_state :=
  if type =? 0 then madt_local_apic offset structure_length s else
  if type =? 1 then madt_io_apic offset structure_length s else
  if type =? 2 then madt_override offset structure_length s else
  if type =? 3 then madt_nmi_source offset structure_length s else
  if type =? 4 then madt_local_nmi offset structure_length s else
  if type =? 5 then madt_address_override offset structure_length s else
  if type =? 9 then madt_x2apic offset structure_length s else
  if type =? 10 then madt_x2apic_nmi offset structure_length s else Ok s.

(** [while (offset < length)]. *)
Fixpoint madt_loop (fuel : nat) (offset length structure_count : Z) (s : madt_state) : outcome madt_state :=
  if negb (offset <? length) then Ok s else
  match fuel with
  | O => Diverges
  | S fuel =>
      _ <-- require (negb (length -32 offset <? 2));
      type <-- byte bytes offset;
      structure_length <-- byte bytes (offset + 1);
      _ <-- require (negb ((structure_length <? 2) || (length -32 offset <? structure_length)));
      let structure_count := structure_count +32 1 in
      _ <-- require (negb (1024 <? structure_count));
      s <-- madt_structure type offset structure_length s;
      madt_loop fuel (offset +32 structure_length) length structure_count s
  end%C.

(** The last loop: no I/O APIC at the local APIC's address. *)
Fixpoint address_clash (n : nat) (index address : Z) (l : list acpi_madt_io_apic) : outcome bool :=
  match n with
  | O => Ok false
  | S n => e <-- array_get l index;
           if physical_address e =? address then Ok true else address_clash n (index + 1) address l
  end%C.

(** The structure copied to the caller. *)
Definition acpi_parse_madt_table : outcome acpi_madt_table_info :=
  (length <-- acpi_parse_sdt APIC;
   _ <-- require (negb (length <? ACPI_MADT_HEADER_LENGTH));
   b8 <-- byte bytes 8; _ <-- require (negb (b8 =? 0));
   let p := madt_info_clear in
   address <-- read_u32 36;
   fl <-- read_u32 40;
   let p := Build_acpi_madt_table_info address fl (enabled_local_apics p) (enabled_x2apics p)
     (local_apic_id_bitmap p) (io_apic_count p) (io_apics p) (isa_overrides p) in
   _ <-- require (negb (flag fl (not32 1)));
   s <-- madt_loop (Z.to_nat length) ACPI_MADT_HEADER_LENGTH length 0
           (Build_madt_state p (replicate 256 0) (replicate 256 0) 0 false);
   let p := parsed s in
   _ <-- require (negb ((enabled_local_apics p +32 enabled_x2apics p =? 0) ||
           negb (madt_mmio_address_valid (local_apic_address p))));
   clash <-- address_clash (Z.to_nat (io_apic_count p)) 0 (local_apic_address p) (io_apics p);
   _ <-- require (negb clash);
   Ok (madt_info_copy p))%C.

End tables.
