(* ===== verification/AcpiSpec.v ===== *)
(** * ACPI tables: safety and the parsed interrupt topology

    The parsers of [drivers/acpi_tables.c] never read outside the bytes they are given or their
    own arrays, end on every input, and what they report satisfies the rules the interrupt
    controllers rely on. *)

From S2P Require Import Prelude Checked Acpi.
Local Open Scope c_scope.
Local Open Scope Z_scope.

(** ** The interrupt topology *)

(** Bit [k] of the bitmap of local APIC identifiers. *)
Definition id_bit (bitmap : list Z) (k : Z) : bool := Z.testbit (arr bitmap (k / 32)) (k mod 32).

Definition io_ok (e : acpi_madt_io_apic) : Prop := madt_mmio_address_valid (physical_address e) = true.

(** An interrupt without an override maps to itself; one with an override has valid flags. *)
Definition override_ok (k : Z) (o : acpi_madt_irq_override) : Prop :=
  if present o =? 0 then o = Build_acpi_madt_irq_override k 0 0
  else madt_interrupt_flags_valid (irq_flags o) = true.

(** The part that holds throughout parsing. *)
Record info_inv (p : acpi_madt_table_info) : Prop := {
  inv_bitmap : length (local_apic_id_bitmap p) = 8%nat /\ Forall is_u32 (local_apic_id_bitmap p);
  inv_local : enabled_local_apics p = countb (id_bit (local_apic_id_bitmap p)) 256;
  inv_enabled : 0 <= enabled_x2apics p /\ enabled_local_apics p + enabled_x2apics p <= 256;
  inv_io : length (io_apics p) = 8%nat /\ 0 <= io_apic_count p <= 8;
  inv_io_ok : Forall io_ok (take (Z.to_nat (io_apic_count p)) (io_apics p));
  inv_io_ids : NoDup (io_id <$> take (Z.to_nat (io_apic_count p)) (io_apics p));
  inv_io_addresses : NoDup (physical_address <$> take (Z.to_nat (io_apic_count p)) (io_apics p));
  inv_overrides : length (isa_overrides p) = 16%nat;
  inv_override : forall k o, isa_overrides p !! k = Some o -> override_ok (Z.of_nat k) o
}.

Lemma copy_elements_id {A} n (zero : A) l : length l = n -> copy_elements n zero l = l.
Proof.
  intros <-. apply list_eq. intros i. unfold copy_elements. rewrite list_lookup_fmap.
  destruct (l !! i) as [x|] eqn:E.
  - rewrite lookup_seq_lt by (by eapply lookup_lt_Some). cbn. f_equal. by apply nth_lookup_Some.
  - by rewrite lookup_seq_ge by (by apply lookup_ge_None).
Qed.

(** The copy reported to the caller is the topology parsed. *)
Lemma madt_info_copy_id p : info_inv p -> madt_info_copy p = p.
Proof.
  intros [[Hb _] _ _ [Hi _] _ _ _ Ho _]. unfold madt_info_copy. rewrite !copy_elements_id by done. by destruct p.
Qed.

(** What a reported topology satisfies. *)
Definition topology_ok (p : acpi_madt_table_info) : Prop :=
  info_inv p /\ 1 <= enabled_local_apics p + enabled_x2apics p /\
  madt_mmio_address_valid (local_apic_address p) = true /\
  local_apic_address p ∉ (physical_address <$> take (Z.to_nat (io_apic_count p)) (io_apics p)).

Record state_inv (s : madt_state) : Prop := {
  st_info : info_inv (parsed s);
  st_ids : length (local_apic_ids s) = 256%nat;
  st_marks : forall k, 0 <= k < 256 ->
    arr (local_apic_ids s) k = if id_bit (local_apic_id_bitmap (parsed s)) k then 1 else 0;
  st_x2 : length (x2apic_ids s) = 256%nat;
  st_x2_count : x2apic_id_count s = enabled_x2apics (parsed s)
}.

(** ** Setting a bit *)

Lemma id_bit_set bitmap id : length bitmap = 8%nat -> Forall is_u32 bitmap -> 0 <= id < 256 ->
  let bitmap' := <[Z.to_nat (id / 32) := Z.lor (arr bitmap (id / 32)) (2 ^ (id mod 32))]> bitmap in
  length bitmap' = 8%nat /\ Forall is_u32 bitmap' /\
  forall k, 0 <= k < 256 -> id_bit bitmap' k = (k =? id) || id_bit bitmap k.
Proof.
  intros Hl Hf Hid bitmap'. assert (Hr : 0 <= id mod 32 < 32) by dmlia.
  assert (Hw : is_u32 (arr bitmap (id / 32))).
  { pose proof (arr_nth_lookup bitmap (id / 32) ltac:(dmlia)) as H. by apply (Forall_lookup_1 _ _ _ _ Hf H). }
  split; [unfold bitmap'; by rewrite length_insert|]. split.
  - apply Forall_insert; [done|]. pose proof (pow2_u32 (id mod 32) Hr). unfold is_u32 in *.
    split; [apply Z.lor_nonneg; lia|]. change 4294967296 with (2 ^ 32) in *.
    destruct (decide (Z.lor (arr bitmap (id / 32)) (2 ^ (id mod 32)) = 0)) as [->|Hz]; [lia|].
    apply Z.log2_lt_pow2; [pose proof (Z.lor_nonneg (arr bitmap (id / 32)) (2 ^ (id mod 32))); lia|].
    rewrite Z.log2_lor by lia. apply Z.max_lub_lt.
    + destruct (decide (arr bitmap (id / 32) = 0)) as [->|]; [cbn; lia|]. apply Z.log2_lt_pow2; lia.
    + rewrite Z.log2_pow2; lia.
  - intros k Hk. unfold id_bit. change bitmap' with (arr_set bitmap (id / 32) (Z.lor (arr bitmap (id / 32)) (2 ^ (id mod 32)))).
    destruct (decide (k / 32 = id / 32)) as [E|E].
    + rewrite E, arr_set_eq by dmlia. rewrite Z.lor_spec, Z.pow2_bits_eqb by lia.
      rewrite orb_comm. f_equal. dmlia.
    + rewrite arr_set_ne by dmlia. replace (k =? id) with false by (symmetry; apply Z.eqb_neq; intros ->; done). done.
Qed.

(** Projections of a rebuilt topology. *)
Ltac info_fields := cbn [local_apic_id_bitmap enabled_local_apics enabled_x2apics io_apics io_apic_count
  isa_overrides local_apic_address flags].

(** ** Reading *)

Section bytes.
Context (bytes : list Z) (Hbytes : bytes_ok bytes).

Lemma read_u16_safe i : 0 <= i -> i + 2 <= available bytes -> safe (read_u16 bytes i) is_u16.
Proof.
  intros Hi Ha. unfold read_u16. rewrite !byte_in by lia. cbn [bind safe]. rewrite lor_le16 by done. by apply le16_u16.
Qed.

Lemma read_u32_safe i : 0 <= i -> i + 4 <= available bytes -> safe (read_u32 bytes i) is_u32.
Proof.
  intros Hi Ha. unfold read_u32. rewrite !byte_in by lia. cbn [bind safe]. rewrite lor_le32 by done. by apply le32_u32.
Qed.

Lemma equal_safe l i : 0 <= i -> i + Z.of_nat (length l) <= available bytes -> safe (equal_loop bytes l i) (fun _ => True).
Proof.
  revert i. induction l as [|c l IH]; intros i Hi Ha; cbn [equal_loop length] in *; [done|].
  eapply safe_bind; [apply byte_safe; [done|lia]|]. intros b _. case_if; [apply IH; lia|done].
Qed.

Lemma sum_safe n i s : 0 <= i -> i + Z.of_nat n <= available bytes -> safe (sum_loop bytes n i s) (fun _ => True).
Proof.
  revert i s. induction n as [|n IH]; intros i s Hi Ha; cbn [sum_loop]; [done|].
  eapply safe_bind; [apply byte_safe; [done|lia]|]. intros b _. apply IH; lia.
Qed.

Lemma checksum_safe n : 0 <= n <= available bytes -> safe (acpi_checksum_valid bytes n) (fun _ => True).
Proof.
  intros Hn. unfold acpi_checksum_valid. case_if; [done|].
  eapply safe_bind; [apply sum_safe; lia|]. done.
Qed.

(** Walk through a parser: each access is in range by arithmetic. *)
Ltac walk :=
  repeat first
    [ apply safe_require; let E := fresh "E" in intros E
    | eapply safe_bind; [apply byte_safe; [done|lia]|]; let b := fresh "b" in let H := fresh "Hb" in intros b H; unfold is_u8 in H
    | eapply safe_bind; [apply read_u16_safe; lia|]; let b := fresh "h" in let H := fresh "Hh" in intros b H; unfold is_u16 in H
    | eapply safe_bind; [apply read_u32_safe; lia|]; let b := fresh "w" in let H := fresh "Hw" in intros b H; unfold is_u32 in H
    | eapply safe_bind; [apply checksum_safe; lia|]; let b := fresh "ok" in intros b _ ].

Lemma sdt_safe signature : length signature = 4%nat ->
  safe (acpi_parse_sdt bytes signature) (fun n => 36 <= n <= 65536 /\ n <= available bytes).
Proof.
  intros Hs. unfold acpi_parse_sdt, acpi_sdt_peek_length, ACPI_SDT_HEADER_LENGTH, ACPI_MAX_SDT_LENGTH.
  eapply safe_bind with (P := fun n => 36 <= n <= 65536).
  - apply safe_require. intros E. eapply safe_bind; [apply equal_safe; lia|]. intros ok _. walk. cbn. lia.
  - intros n Hn. walk. cbn. lia.
Qed.

(** The length field of a revision 2 pointer is read before its presence is checked. *)
Lemma rsdp_safe : ~ (20 <= available bytes < 24) -> safe (acpi_parse_rsdp bytes) (fun _ => True).
Proof.
  intros Hlen.
  unfold acpi_parse_rsdp, ACPI_RSDP_V1_LENGTH, ACPI_RSDP_V2_LENGTH, ACPI_MAX_RSDP_LENGTH.
  apply safe_require. intros E. eapply safe_bind; [apply equal_safe; cbn [length RSDP_SIGNATURE]; lia|]. intros ok _. walk.
  case_if; [|done]. walk. done.
Qed.

Lemma rsdt_safe index : is_u32 index -> safe (acpi_rsdt_entry_at bytes index) (fun _ => True).
Proof.
  unfold is_u32. intros Hi. unfold acpi_rsdt_entry_at, ACPI_SDT_HEADER_LENGTH, ACPI_MAX_RSDT_ENTRIES.
  eapply safe_bind; [by apply sdt_safe|]. intros n [Hn1 Hn2]. cbv zeta. rewrite (u32_id (n - 36)) by (unfold is_u32; lia).
  do 2 (apply safe_require; intros ?). rewrite (u32_id (index * 4)) by (unfold is_u32; lia).
  rewrite u32_id by (unfold is_u32; lia). eapply safe_bind; [apply read_u32_safe; [lia|dmlia]|]. intros w Hw. walk. done.
Qed.

Lemma xsdt_safe index : is_u32 index -> safe (acpi_xsdt_entry_at bytes index) (fun _ => True).
Proof.
  unfold is_u32. intros Hi. unfold acpi_xsdt_entry_at, ACPI_SDT_HEADER_LENGTH, ACPI_MAX_RSDT_ENTRIES.
  eapply safe_bind; [by apply sdt_safe|]. intros n [Hn1 Hn2]. cbv zeta. rewrite (u32_id (n - 36)) by (unfold is_u32; lia).
  do 2 (apply safe_require; intros ?). rewrite (u32_id (index * 8)) by (unfold is_u32; lia).
  rewrite (u32_id (36 + _)) by (unfold is_u32; lia). rewrite u32_id by (unfold is_u32; lia).
  eapply safe_bind; [apply read_u32_safe; [lia|dmlia]|]. intros w Hw.
  eapply safe_bind; [apply read_u32_safe; [lia|dmlia]|]. intros w' Hw'. walk. done.
Qed.

Lemma hpet_safe : safe (acpi_parse_hpet_table bytes) (fun i =>
  hpet_physical_address i mod 1024 = 0 /\ 0x1000 <= hpet_physical_address i /\ hpet_physical_address i + 1024 <= 4294967296).
Proof.
  unfold acpi_parse_hpet_table, ACPI_HPET_TABLE_MIN_LENGTH. eapply safe_bind; [by apply sdt_safe|]. intros n [Hn1 Hn2].
  cbv zeta. walk. cbn. split_bools.
  match goal with H : flag ?a 0x3FF = false |- _ => unfold flag in H; change 0x3FF with (2 ^ 10 - 1) in H;
    rewrite land_mask in H by lia; change (2 ^ 10) with 1024 in H end.
  unfold u32 in *. split_bools. dmlia.
Qed.

(** *** Structures of the interrupt table *)

Section structure.
Context (offset len : Z) (s : madt_state).
Context (Hoff : 0 <= offset) (Hlen : offset + len <= available bytes) (Hinv : state_inv s).

Lemma local_apic_safe : safe (madt_local_apic bytes offset len s) state_inv.
Proof.
  unfold madt_local_apic, ACPI_MADT_MAX_PROCESSORS. walk. cbv zeta. case_if; [|done].
  destruct Hinv as [[[Hbl Hbu] Hloc [Hx2 Hen] Hio Hio1 Hio2 Hio3 Hov1 Hov2] Hids Hmarks Hxl Hxc].
  pose proof (countb_range (id_bit (local_apic_id_bitmap (parsed s))) 256) as Hr.
  destruct (array_get_in (local_apic_ids s) b ltac:(lia)) as (seen & -> & Hseen). cbn [bind].
  rewrite u32_id by (unfold is_u32; lia). apply safe_require. intros Hg. split_bools.
  rewrite array_set_in by lia. cbn [bind]. rewrite Z.shiftr_div_pow2 by lia. change (2 ^ 5) with 32.
  destruct (array_get_in (local_apic_id_bitmap (parsed s)) (b / 32) ltac:(rewrite Hbl; dmlia)) as (word & -> & Hword).
  cbn [bind]. rewrite array_set_in by (rewrite Hbl; dmlia). cbn [bind safe].
  change 31 with (2 ^ 5 - 1). rewrite land_mask by lia. change (2 ^ 5) with 32. rewrite shl1_pow2 by dmlia.
  apply arr_lookup in Hword as Hw'. rewrite <- Hw'.
  destruct (id_bit_set (local_apic_id_bitmap (parsed s)) b Hbl Hbu Hb) as (B1 & B2 & B3).
  set (bitmap' := <[_ := _]> (local_apic_id_bitmap (parsed s))) in *.
  assert (Hold : id_bit (local_apic_id_bitmap (parsed s)) b = false).
  { apply arr_lookup in Hseen as H'. rewrite Hmarks in H' by lia. destruct (id_bit _ b); [lia|done]. }
  assert (Hcount : enabled_local_apics (parsed s) + 1 = countb (id_bit bitmap') 256).
  { rewrite Hloc. symmetry. apply (countb_set _ _ 256 b); [lia|done|rewrite B3 by lia; by rewrite Z.eqb_refl|].
    intros i Hi Hne. rewrite B3 by lia. by replace (i =? b) with false by lia. }
  rewrite u32_id by (unfold is_u32; lia).
  split; cbn [parsed local_apic_ids x2apic_ids x2apic_id_count]; [split; info_fields; try assumption; try (split; assumption); lia|by rewrite length_insert| |done|done].
  intros k Hk. cbn [local_apic_id_bitmap]. rewrite B3 by lia.
  change (<[Z.to_nat b:=1]> (local_apic_ids s)) with (arr_set (local_apic_ids s) b 1).
  destruct (decide (k = b)) as [->|Hne]; [rewrite arr_set_eq by lia; by rewrite Z.eqb_refl|].
  rewrite arr_set_ne, Hmarks by lia. by replace (k =? b) with false by lia.
Qed.

(** The duplicate search answers for the entries in use. *)
Lemma clash_spec n i id address l : 0 <= i -> i + Z.of_nat n <= Z.of_nat (length l) ->
  exists b, io_apic_clash n i id address l = Ok b /\
    (b = false -> Forall (fun e => io_id e <> id /\ physical_address e <> address)
       (take n (drop (Z.to_nat i) l))).
Proof.
  revert i. induction n as [|n IH]; intros i Hi Hn; cbn [io_apic_clash]; [exists false; split; [done|]; intros; apply Forall_nil_2|].
  destruct (array_get_in l i ltac:(lia)) as (e & -> & He). cbn [bind]. case_if; [by exists true|].
  destruct (IH (i + 1) ltac:(lia) ltac:(lia)) as (b & -> & Hb). exists b. split; [done|]. intros ->.
  rewrite (drop_S _ e (Z.to_nat i)) by done. cbn [take]. split_bools. apply Forall_cons_2; [lia|].
  replace (S (Z.to_nat i)) with (Z.to_nat (i + 1)) by lia. by apply Hb.
Qed.

Lemma io_apic_safe : safe (madt_io_apic bytes offset len s) state_inv.
Proof.
  unfold madt_io_apic, ACPI_MADT_MAX_IO_APICS. cbv zeta. walk.
  destruct Hinv as [[Hbl Hloc Hen [Hiol Hioc] Hio1 Hio2 Hio3 Hov1 Hov2] Hids Hmarks Hxl Hxc]. split_bools.
  destruct (clash_spec (Z.to_nat (io_apic_count (parsed s))) 0 b0 w (io_apics (parsed s)) ltac:(lia) ltac:(lia))
    as (clash & -> & Hclash). cbn [bind]. walk. rewrite array_set_in by lia. cbn [bind safe].
  match goal with H : negb clash = true |- _ => apply negb_true_iff in H; specialize (Hclash H) end.
  rewrite drop_0 in Hclash.
  assert (Htake : take (Z.to_nat (io_apic_count (parsed s) + 1))
    (<[Z.to_nat (io_apic_count (parsed s)) := Build_acpi_madt_io_apic b0 w w0]> (io_apics (parsed s))) =
    take (Z.to_nat (io_apic_count (parsed s))) (io_apics (parsed s)) ++ [Build_acpi_madt_io_apic b0 w w0]).
  { replace (Z.to_nat (io_apic_count (parsed s) + 1)) with (S (Z.to_nat (io_apic_count (parsed s)))) by lia.
    rewrite (take_S_r _ _ (Build_acpi_madt_io_apic b0 w w0)) by (apply list_lookup_insert_eq; lia).
    by rewrite take_insert_ge by lia. }
  split; cbn [parsed set_parsed local_apic_ids x2apic_ids x2apic_id_count]; try done.
  rewrite u32_id by (unfold is_u32; lia). split; info_fields; try done; rewrite ?Htake.
  - rewrite length_insert. lia.
  - apply Forall_app. split; [done|]. by apply Forall_cons_2, Forall_nil_2.
  - rewrite fmap_app. apply list.NoDup_app. split; [done|]. split; [|apply NoDup_singleton].
    intros x [e [-> He]]%list_elem_of_fmap Hx%list_elem_of_singleton. cbn in Hx.
    apply list_elem_of_lookup in He as [i He]. pose proof (Forall_lookup_1 _ _ _ _ Hclash He) as [? ?]. done.
  - rewrite fmap_app. apply list.NoDup_app. split; [done|]. split; [|apply NoDup_singleton].
    intros x [e [-> He]]%list_elem_of_fmap Hx%list_elem_of_singleton. cbn in Hx.
    apply list_elem_of_lookup in He as [i He]. pose proof (Forall_lookup_1 _ _ _ _ Hclash He) as [? ?]. done.
Qed.

Lemma override_safe : safe (madt_override bytes offset len s) state_inv.
Proof.
  unfold madt_override, ACPI_MADT_ISA_IRQ_COUNT. cbv zeta. walk.
  destruct Hinv as [[Hbl Hloc Hen Hio Hio1 Hio2 Hio3 Hov1 Hov2] Hids Hmarks Hxl Hxc]. split_bools.
  destruct (array_get_in (isa_overrides (parsed s)) b0 ltac:(lia)) as (old & -> & Hold). cbn [bind]. walk.
  rewrite array_set_in by lia. cbn [bind safe].
  split; cbn [parsed set_parsed local_apic_ids x2apic_ids x2apic_id_count]; try done.
  split; info_fields; try done.
  - by rewrite length_insert.
  - intros k o. rewrite list_lookup_insert_Some. intros [(<- & <- & _)|[_ Hk]]; [done|by apply Hov2].
Qed.

Lemma checked_safe : safe (madt_nmi_source bytes offset len s) state_inv /\
  safe (madt_local_nmi bytes offset len s) state_inv /\ safe (madt_x2apic_nmi bytes offset len s) state_inv.
Proof.
  unfold madt_nmi_source, madt_local_nmi, madt_x2apic_nmi. split; [walk; exact Hinv|]. split; walk; exact Hinv.
Qed.

Lemma address_override_safe : safe (madt_address_override bytes offset len s) state_inv.
Proof.
  unfold madt_address_override. cbv zeta. walk. cbn [safe].
  destruct Hinv as [[Hbl Hloc Hen Hio Hio1 Hio2 Hio3 Hov1 Hov2] Hids Hmarks Hxl Hxc]. by split; [split|..].
Qed.

Lemma x2apic_seen_spec n i id ids : 0 <= i -> i + Z.of_nat n <= Z.of_nat (length ids) ->
  exists b, x2apic_seen n i id ids = Ok b /\ (b = false -> id ∉ take n (drop (Z.to_nat i) ids)).
Proof.
  revert i. induction n as [|n IH]; intros i Hi Hn; cbn [x2apic_seen]; [exists false; split; [done|]; intros _; apply not_elem_of_nil|].
  destruct (array_get_in ids i ltac:(lia)) as (e & -> & He). cbn [bind]. case_if; [by exists true|].
  destruct (IH (i + 1) ltac:(lia) ltac:(lia)) as (b & -> & Hb). exists b. split; [done|]. intros ->.
  rewrite (drop_S _ e (Z.to_nat i)) by done. cbn [take]. rewrite not_elem_of_cons. split; [lia|].
  replace (S (Z.to_nat i)) with (Z.to_nat (i + 1)) by lia. by apply Hb.
Qed.

Lemma x2apic_safe : safe (madt_x2apic bytes offset len s) state_inv.
Proof.
  unfold madt_x2apic, ACPI_MADT_MAX_PROCESSORS. cbv zeta. walk. case_if; [|done].
  destruct Hinv as [[Hbl Hloc [Hx2 Hen] Hio Hio1 Hio2 Hio3 Hov1 Hov2] Hids Hmarks Hxl Hxc].
  pose proof (countb_range (id_bit (local_apic_id_bitmap (parsed s))) 256) as Hr.
  rewrite (u32_id (enabled_local_apics _ + _)) by (unfold is_u32; lia). apply safe_require. intros Hg. split_bools.
  destruct (x2apic_seen_spec (Z.to_nat (x2apic_id_count s)) 0 w (x2apic_ids s) ltac:(lia) ltac:(lia)) as (seen & -> & _).
  cbn [bind]. walk. rewrite array_set_in by lia. cbn [bind safe]. rewrite !u32_id by (unfold is_u32; lia).
  split; cbn [parsed local_apic_ids x2apic_ids x2apic_id_count]; [split; info_fields; try assumption; try (split; assumption); lia|done|done|by rewrite length_insert|info_fields; lia].
Qed.

Lemma structure_safe type : safe (madt_structure bytes type offset len s) state_inv.
Proof.
  destruct checked_safe as (H3 & H4 & H10). unfold madt_structure.
  repeat (case_if; [auto using local_apic_safe, io_apic_safe, override_safe, address_override_safe, x2apic_safe|]). done.
Qed.

End structure.

Lemma madt_loop_safe fuel offset length count s : 0 <= offset -> 0 <= length <= available bytes -> length <= 65536 ->
  is_u32 count -> (Z.to_nat (length - offset) <= fuel)%nat -> state_inv s ->
  safe (madt_loop bytes fuel offset length count s) state_inv.
Proof.
  revert offset count s. induction fuel as [|fuel IH]; intros offset count s Ho Hl Hl2 Hc Hf Hs; cbn [madt_loop].
  { by replace (negb (offset <? length)) with true by lia. }
  case_if; [done|]. split_bools. rewrite !(u32_id (length - offset)) by (unfold is_u32; lia). walk. cbv zeta. walk.
  split_bools. eapply safe_bind; [apply structure_safe; [done|lia|done]|].
  intros s' Hs'. rewrite (u32_id (offset + b0)) by (unfold is_u32; lia). apply IH; try done; [lia|apply u32_range|lia].
Qed.

Lemma address_clash_spec n i address l : 0 <= i -> i + Z.of_nat n <= Z.of_nat (length l) ->
  exists b, address_clash n i address l = Ok b /\
    (b = false -> address ∉ (physical_address <$> take n (drop (Z.to_nat i) l))).
Proof.
  revert i. induction n as [|n IH]; intros i Hi Hn; cbn [address_clash]; [exists false; split; [done|]; intros _; apply not_elem_of_nil|].
  destruct (array_get_in l i ltac:(lia)) as (e & -> & He). cbn [bind]. case_if; [by exists true|].
  destruct (IH (i + 1) ltac:(lia) ltac:(lia)) as (b & -> & Hb). exists b. split; [done|]. intros ->.
  rewrite (drop_S _ e (Z.to_nat i)) by done. cbn [take fmap list_fmap]. rewrite not_elem_of_cons. split; [lia|].
  replace (S (Z.to_nat i)) with (Z.to_nat (i + 1)) by lia. by apply Hb.
Qed.

Lemma clear_inv address fl : state_inv (Build_madt_state (Build_acpi_madt_table_info address fl 0 0 (replicate 8 0) 0
  (io_apics madt_info_clear) (isa_overrides madt_info_clear)) (replicate 256 0) (replicate 256 0) 0 false).
Proof.
  assert (Hz : forall k, id_bit (replicate 8 0) k = false).
  { intros k. unfold id_bit, arr. rewrite nth_lookup.
    destruct (replicate 8 0 !! Z.to_nat (k / 32)) eqn:E; [apply lookup_replicate in E as [-> _]|]; apply Z.bits_0. }
  split; cbn [parsed local_apic_ids x2apic_ids x2apic_id_count enabled_x2apics local_apic_id_bitmap]; try done.
  - split; info_fields; cbn [madt_info_clear io_apics isa_overrides].
    + split; [done|]. apply Forall_replicate. unfold is_u32. lia.
    + symmetry. apply countb_false. intros i _. apply Hz.
    + lia.
    + by rewrite length_replicate.
    + apply Forall_nil_2.
    + apply NoDup_nil_2.
    + apply NoDup_nil_2.
    + done.
    + intros k o Ho. apply list_lookup_fmap_Some in Ho as (i & -> & Hi). apply lookup_seqZ in Hi as [-> _]. done.
  - intros k Hk. rewrite Hz. unfold arr. rewrite nth_lookup.
    destruct (replicate 256 0 !! Z.to_nat k) eqn:E; [by apply lookup_replicate in E as [-> _]|done].
Qed.

Lemma madt_safe : safe (acpi_parse_madt_table bytes) topology_ok.
Proof.
  unfold acpi_parse_madt_table, ACPI_MADT_HEADER_LENGTH. eapply safe_bind; [by apply sdt_safe|]. intros n [Hn1 Hn2].
  cbv zeta. walk. eapply safe_bind; [apply madt_loop_safe; try lia; [unfold is_u32; lia|apply clear_inv]|].
  intros s Hs. destruct (st_info _ Hs) as [Hbl Hloc [Hx2 Hen] [Hiol Hioc] Hio1 Hio2 Hio3 Hov1 Hov2] eqn:Hi.
  pose proof (countb_range (id_bit (local_apic_id_bitmap (parsed s))) 256) as Hr.
  rewrite u32_id by (unfold is_u32; lia). apply safe_require. intros Hg. split_bools.
  destruct (address_clash_spec (Z.to_nat (io_apic_count (parsed s))) 0 (local_apic_address (parsed s)) (io_apics (parsed s))
    ltac:(lia) ltac:(lia)) as (clash & -> & Hclash). cbn [bind]. apply safe_require. intros Hc%negb_true_iff.
  specialize (Hclash Hc). rewrite drop_0 in Hclash. cbn [safe]. rewrite madt_info_copy_id by apply Hs.
  split; [apply Hs|]. split; [lia|]. split; [done|done].
Qed.

End bytes.
