(* ===== verification/AcpiMadt.v ===== *)
(** * The interrupt topology a table describes

    A table is read as a list of structures that tile the bytes after its header. When
    [acpi_parse_madt_table] accepts a table, what it reports is what those structures say: the
    processors, the I/O APICs in order, the overrides and the local APIC's address. *)

From S2P Require Import Prelude Checked Acpi AcpiSpec.
Local Open Scope c_scope.
Local Open Scope Z_scope.

(** ** Meaning of a table *)

(** A structure: its type and where it starts. *)
Record structure := { st_type : Z; st_offset : Z }.

Section table.
Context (bytes : list Z).

(** The structures from an offset to the end of the table, each at least its two header bytes. *)
Inductive tiles (finish : Z) : Z -> list structure -> Prop :=
| tiles_end : tiles finish finish []
| tiles_structure offset l :
    2 <= arr bytes (offset + 1) -> offset + arr bytes (offset + 1) <= finish ->
    tiles finish (offset + arr bytes (offset + 1)) l ->
    tiles finish offset (Build_structure (arr bytes offset) offset :: l).

(** Enabled processors of type 0, by identifier, and of type 9. *)
Definition local_of (e : structure) : option Z :=
  if (st_type e =? 0) && flag (le32 bytes (st_offset e + 4)) 1 then Some (arr bytes (st_offset e + 3)) else None.

Definition x2apic_of (e : structure) : option Z :=
  if (st_type e =? 9) && flag (le32 bytes (st_offset e + 8)) 1 then Some (le32 bytes (st_offset e + 4)) else None.

Definition io_of (e : structure) : option acpi_madt_io_apic :=
  if st_type e =? 1 then
    Some (Build_acpi_madt_io_apic (arr bytes (st_offset e + 2)) (le32 bytes (st_offset e + 4)) (le32 bytes (st_offset e + 8)))
  else None.

Definition source_of (e : structure) : option Z :=
  if st_type e =? 2 then Some (arr bytes (st_offset e + 3)) else None.

Definition override_of (k : Z) (e : structure) : option acpi_madt_irq_override :=
  if (st_type e =? 2) && (arr bytes (st_offset e + 3) =? k) then
    Some (Build_acpi_madt_irq_override (le32 bytes (st_offset e + 4)) (le16 bytes (st_offset e + 8)) 1)
  else None.

Definition address_of (e : structure) : option Z :=
  if st_type e =? 5 then Some (le32 bytes (st_offset e + 4)) else None.

(** [p] is what the structures [l] say. *)
Record reports (l : list structure) (p : acpi_madt_table_info) : Prop := {
  r_local : forall k, 0 <= k < 256 -> id_bit (local_apic_id_bitmap p) k = true <-> k ∈ omap local_of l;
  r_local_distinct : NoDup (omap local_of l);
  r_local_count : enabled_local_apics p = Z.of_nat (length (omap local_of l));
  r_x2_distinct : NoDup (omap x2apic_of l);
  r_x2_count : enabled_x2apics p = Z.of_nat (length (omap x2apic_of l));
  r_io : take (Z.to_nat (io_apic_count p)) (io_apics p) = omap io_of l;
  r_sources : NoDup (omap source_of l);
  r_override : forall k, (k < 16)%nat -> isa_overrides p !! k =
    Some (default (Build_acpi_madt_irq_override (Z.of_nat k) 0 0) (list.last (omap (override_of (Z.of_nat k)) l)));
  r_address : local_apic_address p = default (le32 bytes 36) (list.last (omap address_of l));
  r_flags : flags p = le32 bytes 40
}.

Record describes (l : list structure) (s : madt_state) : Prop := {
  d_reports : reports l (parsed s);
  d_x2 : take (Z.to_nat (x2apic_id_count s)) (x2apic_ids s) = omap x2apic_of l
}.

(** ** Values read *)

Context (Hbytes : bytes_ok bytes).

Ltac step :=
  match goal with
  | H : bind (require _) _ = Ok _ |- _ => let E := fresh "E" in apply require_ok in H as [E H]
  | H : bind (byte _ _) _ = Ok _ |- _ =>
      let b := fresh "b" in let E := fresh "E" in apply bind_ok in H as (b & E & H); apply byte_ok in E; subst b
  end.

Lemma read_u16_ok i w : read_u16 bytes i = Ok w -> w = le16 bytes i.
Proof. unfold read_u16. intros H. repeat step. injection H as <-. by apply lor_le16. Qed.

Lemma read_u32_ok i w : read_u32 bytes i = Ok w -> w = le32 bytes i.
Proof. unfold read_u32. intros H. repeat step. injection H as <-. by apply lor_le32. Qed.

(** Walk back through an accepted parse. *)
Ltac back :=
  repeat first
    [ step
    | match goal with
      | H : bind (read_u16 _ _) _ = Ok _ |- _ =>
          let b := fresh "h" in let E := fresh "E" in apply bind_ok in H as (b & E & H); apply read_u16_ok in E; subst b
      | H : bind (read_u32 _ _) _ = Ok _ |- _ =>
          let b := fresh "w" in let E := fresh "E" in apply bind_ok in H as (b & E & H); apply read_u32_ok in E; subst b
      | H : bind (array_get _ _) _ = Ok _ |- _ =>
          let b := fresh "x" in let E := fresh "E" in apply bind_ok in H as (b & E & H); apply array_get_ok in E as [? E]
      | H : bind (array_set _ _ _) _ = Ok _ |- _ =>
          let b := fresh "a" in let E := fresh "E" in apply bind_ok in H as (b & E & H); apply array_set_ok in E as [? ->]
      end ].

(** ** One structure *)

(** What a structure adds to each list. *)
Lemma omap_snoc {A} (f : structure -> option A) l e :
  omap f (l ++ [e]) = omap f l ++ match f e with Some a => [a] | None => [] end.
Proof. rewrite omap_app. cbn. by destruct (f e). Qed.

Lemma last_snoc_option {A} (d : A) l (o : option A) :
  default d (list.last (l ++ match o with Some a => [a] | None => [] end)) = match o with Some a => a | None => default d (list.last l) end.
Proof. destruct o; [by rewrite last_snoc|by rewrite app_nil_r]. Qed.

Lemma NoDup_snoc {A} (l : list A) x : NoDup l -> x ∉ l -> NoDup (l ++ [x]).
Proof.
  intros Hl Hx. apply list.NoDup_app. split; [done|]. split; [|apply NoDup_singleton].
  by intros y Hy ->%list_elem_of_singleton.
Qed.

(** A source that has a structure is marked present. *)
Lemma override_present k l : k ∈ omap source_of l ->
  exists o, list.last (omap (override_of k) l) = Some o /\ present o = 1.
Proof.
  induction l as [|e l IH] using rev_ind; [by intros ?%not_elem_of_nil|]. rewrite !omap_snoc.
  rewrite elem_of_app. intros [Hk|Hk].
  - destruct (IH Hk) as (o & Ho & Hp). destruct (override_of k e) as [o'|] eqn:E; [|rewrite app_nil_r; by exists o].
    rewrite last_snoc. exists o'. split; [done|]. unfold override_of in E. case_match; [|done]. by injection E as <-.
  - unfold source_of, override_of in *. destruct (st_type e =? 2); [|by apply not_elem_of_nil in Hk].
    apply list_elem_of_singleton in Hk as ->. rewrite Z.eqb_refl. cbn [andb]. rewrite last_snoc. by eexists.
Qed.

(** Fields a structure says nothing about. *)
Ltac silent :=
  rewrite ?omap_snoc; unfold local_of, x2apic_of, io_of, source_of, override_of, address_of; cbn [st_type st_offset];
  cbn [Z.eqb Pos.eqb andb]; rewrite ?app_nil_r.

Ltac kept :=
  intros; info_fields; silent;
  first [eassumption | match goal with H : forall k, _ |- _ => by apply H end].

Section one.
Context (offset len : Z) (l : list structure) (s s' : madt_state).
Context (Hs : state_inv s) (Hd : describes l s).

(** A structure that says nothing leaves the description as it is. *)
Lemma reports_silent e : local_of e = None -> x2apic_of e = None -> io_of e = None -> source_of e = None ->
  address_of e = None -> describes (l ++ [e]) s.
Proof.
  intros E1 E2 E3 E4 E5. destruct Hd as [[R1 R2 R3 R4 R5 R6 R7 R8 R9 R10] D].
  assert (E6 : forall k, override_of k e = None).
  { intros k. unfold override_of, source_of in *. by destruct (st_type e =? 2). }
  split; [split|]; intros; rewrite ?omap_snoc, ?E1, ?E2, ?E3, ?E4, ?E5, ?E6, ?app_nil_r; auto.
Qed.

Lemma local_apic_reports : madt_local_apic bytes offset len s = Ok s' ->
  describes (l ++ [Build_structure 0 offset]) s'.
Proof.
  unfold madt_local_apic. cbv zeta. intros H. back.
  destruct (flag (le32 bytes (offset + 4)) 1) eqn:Hen;
    [|injection H as <-; apply reports_silent; try done; unfold local_of; cbn [st_type st_offset]; by rewrite Hen].
  back. injection H as <-. destruct Hd as [[R1 R2 R3 R4 R5 R6 R7 R8 R9 R10] D].
  destruct Hs as [[[Hbl Hbu] _ Hsum _ _ _ _ _ _] Hids Hmarks _ _].
  pose proof (arr_u8 bytes (offset + 3) Hbytes) as Hid. set (id := arr bytes (offset + 3)) in *. unfold is_u8 in Hid.
  set (p := parsed s) in *. split_bools.
  assert (Hnew : id ∉ omap local_of l).
  { rewrite <- R1 by done. apply arr_lookup in E1. rewrite Hmarks in E1 by done. fold p in E1.
    destruct (id_bit _ id); [lia|done]. }
  rewrite Z.shiftr_div_pow2 in * by lia. change (2 ^ 5) with 32 in *.
  change 31 with (2 ^ 5 - 1). rewrite land_mask by lia. change (2 ^ 5) with 32. rewrite shl1_pow2 by dmlia.
  match goal with H : local_apic_id_bitmap p !! _ = Some _ |- _ => apply arr_lookup in H as Hw end. rewrite <- Hw.
  destruct (id_bit_set (local_apic_id_bitmap p) id Hbl Hbu Hid) as (_ & _ & B3).
  assert (Hl : local_of (Build_structure 0 offset) = Some id) by (unfold local_of; cbn [st_type st_offset]; by rewrite Hen).
  split; [split|]; cbn [parsed x2apic_ids x2apic_id_count]; try kept; info_fields; rewrite omap_snoc, Hl.
  - intros k Hk. rewrite B3 by done. rewrite elem_of_app, list_elem_of_singleton, <- R1 by done. rewrite orb_true_iff, Z.eqb_eq. tauto.
  - by apply NoDup_snoc.
  - rewrite length_app. cbn [length]. rewrite u32_id by (unfold is_u32; lia). lia.
Qed.

Lemma io_apic_reports : madt_io_apic bytes offset len s = Ok s' ->
  describes (l ++ [Build_structure 1 offset]) s'.
Proof.
  unfold madt_io_apic. cbv zeta. intros H. back. apply bind_ok in H as (clash & _ & H). back. injection H as <-.
  destruct Hd as [[R1 R2 R3 R4 R5 R6 R7 R8 R9 R10] D]. destruct Hs as [[_ _ _ [Hl Hc] _ _ _ _ _] _ _ _ _].
  split; [split|]; cbn [set_parsed parsed x2apic_ids x2apic_id_count]; try kept; info_fields.
  rewrite omap_snoc, <- R6, u32_id by (unfold is_u32; lia).
  replace (Z.to_nat (io_apic_count (parsed s) + 1)) with (S (Z.to_nat (io_apic_count (parsed s)))) by lia.
  erewrite take_S_r by (apply list_lookup_insert_eq; lia). by rewrite take_insert_ge by lia.
Qed.

Lemma override_reports : madt_override bytes offset len s = Ok s' ->
  describes (l ++ [Build_structure 2 offset]) s'.
Proof.
  unfold madt_override, ACPI_MADT_ISA_IRQ_COUNT. cbv zeta. intros H. back. injection H as <-.
  destruct Hd as [[R1 R2 R3 R4 R5 R6 R7 R8 R9 R10] D]. destruct Hs as [[_ _ _ _ _ _ _ Hl _] _ _ _ _].
  pose proof (arr_u8 bytes (offset + 3) Hbytes) as Hid. set (id := arr bytes (offset + 3)) in *. unfold is_u8 in Hid.
  split_bools. split; [split|]; cbn [set_parsed parsed x2apic_ids x2apic_id_count]; try kept; info_fields.
  - rewrite omap_snoc. cbn. fold id. apply NoDup_snoc; [done|]. intros Hin.
    destruct (override_present id l Hin) as (o & Ho & Hp). pose proof (R8 (Z.to_nat id) ltac:(lia)) as HR.
    rewrite Z2Nat.id, Ho in HR by lia. cbn in HR.
    match goal with H : isa_overrides _ !! _ = Some x |- _ => rewrite HR in H; injection H as -> end. lia.
  - intros k Hk. rewrite omap_snoc, last_snoc_option. unfold override_of at 1. cbn [st_type st_offset]. fold id.
    cbn [Z.eqb Pos.eqb andb]. destruct (decide (Z.of_nat k = id)) as [Ek|Ek].
    + rewrite Ek, Z.eqb_refl. rewrite <- Ek, Nat2Z.id. apply list_lookup_insert_eq. lia.
    + replace (id =? Z.of_nat k) with false by lia. rewrite list_lookup_insert_ne by lia. by apply R8.
Qed.

Lemma address_override_reports : madt_address_override bytes offset len s = Ok s' ->
  describes (l ++ [Build_structure 5 offset]) s'.
Proof.
  unfold madt_address_override. cbv zeta. intros H. back. injection H as <-.
  destruct Hd as [[R1 R2 R3 R4 R5 R6 R7 R8 R9 R10] D].
  split; [split|]; cbn [parsed x2apic_ids x2apic_id_count]; try kept; info_fields.
  by rewrite omap_snoc, last_snoc_option.
Qed.

Lemma x2apic_reports : madt_x2apic bytes offset len s = Ok s' ->
  describes (l ++ [Build_structure 9 offset]) s'.
Proof.
  unfold madt_x2apic. cbv zeta. intros H. back.
  destruct (flag (le32 bytes (offset + 8)) 1) eqn:Hen;
    [|injection H as <-; apply reports_silent; try done; unfold x2apic_of; cbn [st_type st_offset]; by rewrite Hen].
  back. destruct Hd as [[R1 R2 R3 R4 R5 R6 R7 R8 R9 R10] D].
  destruct Hs as [[_ Hloc [Hx Hsum] _ _ _ _ _ _] _ _ Hxl Hxc].
  pose proof (countb_range (id_bit (local_apic_id_bitmap (parsed s))) 256) as Hr.
  unfold ACPI_MADT_MAX_PROCESSORS in *. rewrite (u32_id (enabled_local_apics _ + _)) in * by (unfold is_u32; lia).
  destruct (x2apic_seen_spec (Z.to_nat (x2apic_id_count s)) 0 (le32 bytes (offset + 4)) (x2apic_ids s) ltac:(lia) ltac:(lia))
    as (seen & Hseen & Hnew). rewrite Hseen in H. cbn [bind] in H. back. injection H as <-. split_bools.
  rewrite drop_0, D in Hnew. specialize (Hnew ltac:(assumption)).
  assert (Hl : x2apic_of (Build_structure 9 offset) = Some (le32 bytes (offset + 4))).
  { unfold x2apic_of. cbn [st_type st_offset]. by rewrite Hen. }
  split; [split|]; cbn [parsed x2apic_ids x2apic_id_count]; try kept; info_fields; rewrite omap_snoc, Hl.
  - by apply NoDup_snoc.
  - rewrite length_app. cbn [length]. rewrite u32_id by (unfold is_u32; lia). lia.
  - rewrite u32_id by (unfold is_u32; lia). rewrite <- D.
    replace (Z.to_nat (x2apic_id_count s + 1)) with (S (Z.to_nat (x2apic_id_count s))) by lia.
    erewrite take_S_r by (apply list_lookup_insert_eq; lia). by rewrite take_insert_ge by lia.
Qed.

Lemma structure_reports type : madt_structure bytes type offset len s = Ok s' ->
  describes (l ++ [Build_structure type offset]) s'.
Proof.
  unfold madt_structure. intros H.
  destruct (type =? 0) eqn:E0; [apply Z.eqb_eq in E0 as ->; by apply local_apic_reports|].
  destruct (type =? 1) eqn:E1; [apply Z.eqb_eq in E1 as ->; by apply io_apic_reports|].
  destruct (type =? 2) eqn:E2; [apply Z.eqb_eq in E2 as ->; by apply override_reports|].
  destruct (type =? 5) eqn:E5; [apply Z.eqb_eq in E5 as ->; by apply address_override_reports|].
  destruct (type =? 9) eqn:E9; [apply Z.eqb_eq in E9 as ->; by apply x2apic_reports|].
  assert (s' = s) as ->.
  { unfold madt_nmi_source, madt_local_nmi, madt_x2apic_nmi in H.
    repeat case_if; back; by injection H. }
  apply reports_silent; unfold local_of, x2apic_of, io_of, source_of, address_of; cbn [st_type]; by rewrite ?E0, ?E1, ?E2, ?E5, ?E9.
Qed.

End one.

(** ** The table *)

Lemma madt_loop_reports fuel offset length count s s' l : 0 <= offset <= length -> length <= available bytes ->
  length <= 65536 -> state_inv s -> describes l s -> madt_loop bytes fuel offset length count s = Ok s' ->
  state_inv s' /\ exists l', tiles length offset l' /\ describes (l ++ l') s'.
Proof.
  revert offset count s l. induction fuel as [|fuel IH]; intros offset count s l Ho Hl Hmax Hs Hd H; cbn [madt_loop] in H.
  { destruct (offset <? length) eqn:E; [done|]. injection H as <-. split; [done|]. exists []. rewrite app_nil_r.
    replace offset with length by lia. split; [constructor|done]. }
  destruct (offset <? length) eqn:E; cbn [negb] in H.
  2: { injection H as <-. split; [done|]. exists []. rewrite app_nil_r. replace offset with length by lia. split; [constructor|done]. }
  rewrite !(u32_id (length - offset)) in H by (unfold is_u32; lia). back. cbv zeta in H. back.
  apply bind_ok in H as (s1 & H1 & H). split_bools.
  rewrite (u32_id (offset + _)) in H by (unfold is_u32; lia).
  assert (Hs1 : state_inv s1) by (eapply safe_ok; [|exact H1]; apply structure_safe; [done|lia|lia|done]).
  eapply structure_reports in H1; [|exact Hs|exact Hd]. eapply IH in H; [|lia|done|done|done|exact H1].
  destruct H as (Hs' & l' & Ht & H'). split; [done|]. eexists. split; [eapply tiles_structure; [lia|lia|exact Ht]|].
  by rewrite <- app_assoc in H'.
Qed.

Lemma clear_describes : describes [] (Build_madt_state (Build_acpi_madt_table_info (le32 bytes 36) (le32 bytes 40) 0 0 (replicate 8 0) 0
  (io_apics madt_info_clear) (isa_overrides madt_info_clear)) (replicate 256 0) (replicate 256 0) 0 false).
Proof.
  split; [split|]; cbn [parsed x2apic_ids x2apic_id_count]; info_fields; try done; try apply NoDup_nil_2.
  - intros k Hk. destruct (clear_inv 0 0) as [_ _ Hm _ _]. specialize (Hm k Hk). cbn [parsed local_apic_ids] in Hm.
    revert Hm. info_fields. unfold arr at 1. rewrite nth_lookup.
    destruct (id_bit _ k); [|intros _; split; [done|by intros ?%not_elem_of_nil]].
    destruct (replicate 256 0 !! Z.to_nat k) eqn:E; [apply lookup_replicate in E as [-> _]|]; done.
  - intros k Hk. cbn [madt_info_clear isa_overrides]. rewrite list_lookup_fmap, lookup_seqZ_lt by lia. done.
Qed.

Lemma sdt_length signature n : acpi_parse_sdt bytes signature = Ok n -> n = le32 bytes 4.
Proof.
  unfold acpi_parse_sdt. intros H. apply bind_ok in H as (m & Hm & H). step. apply bind_ok in H as (ok & _ & H).
  step. injection H as <-. unfold acpi_sdt_peek_length in Hm. step. apply bind_ok in Hm as (ok' & _ & Hm).
  back. by injection Hm.
Qed.

Lemma madt_reports p : acpi_parse_madt_table bytes = Ok p ->
  exists l, tiles (le32 bytes 4) ACPI_MADT_HEADER_LENGTH l /\ reports l p.
Proof.
  unfold acpi_parse_madt_table, ACPI_MADT_HEADER_LENGTH. intros H. apply bind_ok in H as (n & Hn & H).
  pose proof (safe_ok _ _ _ (sdt_safe bytes Hbytes APIC eq_refl) Hn) as [Hn1 Hn2].
  apply sdt_length in Hn as ->.
  step. step. step. cbv zeta in H. back. apply bind_ok in H as (s & Hloop & H). step.
  apply bind_ok in H as (clash & _ & H). step. injection H as <-. split_bools.
  apply madt_loop_reports with (l := []) in Hloop; [|lia|done|lia|apply clear_inv|apply clear_describes].
  destruct Hloop as (Hs & l & Ht & [Hr _]). exists l. by rewrite madt_info_copy_id by apply Hs.
Qed.

End table.

(** ** Claims *)

(** A table for two processors, an I/O APIC and an override. *)
Definition sample_structures : list Z :=
  [0; 8; 0; 0; 1; 0; 0; 0] ++ [0; 8; 1; 1; 1; 0; 0; 0] ++
  [1; 12; 2; 0; 0; 0; 0xC0; 0xFE; 0; 0; 0; 0] ++ [2; 10; 0; 0; 2; 0; 0; 0; 0; 0].

Definition sample_table : list Z :=
  [65; 80; 73; 67; 82; 0; 0; 0; 1; 194] ++ replicate 26 0 ++ [0; 0; 0xE0; 0xFE; 1; 0; 0; 0] ++ sample_structures.

(** C36: on every table the firmware can supply, no parser of the ACPI tables reads outside the bytes
    it was given or its own arrays, and every loop ends (no [Fault], no [Diverges]); the only
    exception is a root pointer that is cut off inside its length field, which is read before its
    presence is checked. *)
Theorem acpi_tables_safe bytes index signature : bytes_ok bytes -> is_u32 index -> length signature = 4%nat ->
  safe (acpi_parse_sdt bytes signature) (fun n => 36 <= n <= 65536 /\ n <= available bytes) /\
  safe (acpi_rsdt_entry_at bytes index) (fun _ => True) /\
  safe (acpi_xsdt_entry_at bytes index) (fun _ => True) /\
  safe (acpi_parse_hpet_table bytes) (fun i => hpet_physical_address i mod 1024 = 0 /\
    0x1000 <= hpet_physical_address i /\ hpet_physical_address i + 1024 <= 4294967296) /\
  safe (acpi_parse_madt_table bytes) (fun _ => True) /\
  (~ (20 <= available bytes < 24) -> safe (acpi_parse_rsdp bytes) (fun _ => True)) /\
  acpi_parse_rsdp [82; 83; 68; 32; 80; 84; 82; 32; 207; 0; 0; 0; 0; 0; 0; 2; 0; 16; 0; 0] = Fault.
Proof.
  intros Hb Hi Hs. split; [by apply sdt_safe|]. split; [by apply rsdt_safe|]. split; [by apply xsdt_safe|].
  split; [by apply hpet_safe|]. split; [by eapply safe_weaken; [apply madt_safe|]|]. split; [by apply rsdp_safe|]. vm_compute. done.
Qed.

(** C35: an accepted multiple APIC description table is reported exactly: the structures tile the table
    from its header to its length, and the identifiers, counts, I/O APICs, overrides and local APIC
    address reported are those the structures state. The topology is consistent: at least one and
    at most 256 processors, no two alike, page-aligned controllers at distinct addresses that are not the local
    APIC's, and valid interrupt flags. *)
Theorem acpi_madt_topology bytes p : bytes_ok bytes -> acpi_parse_madt_table bytes = Ok p ->
  topology_ok p /\ exists l, tiles bytes (le32 bytes 4) ACPI_MADT_HEADER_LENGTH l /\ reports bytes l p.
Proof.
  intros Hb H. split; [by eapply safe_ok; [apply madt_safe|]|by apply madt_reports].
Qed.

Definition sample_info : acpi_madt_table_info :=
  Build_acpi_madt_table_info 0xFEE00000 1 2 0 [3; 0; 0; 0; 0; 0; 0; 0] 1
    (Build_acpi_madt_io_apic 2 0xFEC00000 0 :: replicate 7 (Build_acpi_madt_io_apic 0 0 0))
    (Build_acpi_madt_irq_override 2 0 1 :: tl (isa_overrides madt_info_clear)).

Lemma sample_bytes : bytes_ok sample_table.
Proof. repeat (apply Forall_cons_2; [unfold is_u8; lia|]). apply Forall_nil_2. Qed.

Lemma acpi_tables_safe_witness : safe (acpi_parse_madt_table sample_table) (fun _ => True).
Proof.
  destruct (acpi_tables_safe sample_table 0 APIC sample_bytes ltac:(unfold is_u32; lia) eq_refl) as (_ & _ & _ & _ & H & _).
  exact H.
Defined.

Lemma acpi_madt_topology_witness : acpi_parse_madt_table sample_table = Ok sample_info /\
  topology_ok sample_info /\
  exists l, tiles sample_table (le32 sample_table 4) ACPI_MADT_HEADER_LENGTH l /\ reports sample_table l sample_info.
Proof.
  assert (H : acpi_parse_madt_table sample_table = Ok sample_info) by (vm_compute; reflexivity).
  split; [exact H|]. exact (acpi_madt_topology sample_table sample_info sample_bytes H).
Defined.
