(* ===== verification/Elf.v ===== *)
(** * ELF images: validation and placement

    [process/elf_loader.c] up to the mapping of pages: the validation of an image, its page
    bounds, the choice of a load bias for position-independent images, and the boot self test. An
    image is a list of bytes; every read of it is checked. The bytes past [size] of the C
    interface do not exist here, so [size] is the length of the list.

    [paging_is_mapped] is a parameter of the bias search, which only asks it about pages. The
    entry point is returned with success; the C code stores it earlier, and no caller looks at it
    after a failure. *)

From S2P Require Import Prelude Checked.
Local Open Scope c_scope.
Local Open Scope Z_scope.

Definition ELF32_HEADER_SIZE : Z := 52.
Definition ELF32_PROGRAM_HEADER_SIZE : Z := 32.
Definition ELF_TYPE_OFFSET : Z := 16.
Definition ELF_MACHINE_OFFSET : Z := 18.
Definition ELF_VERSION_OFFSET : Z := 20.
Definition ELF_ENTRY_OFFSET : Z := 24.
Definition ELF_PHOFF_OFFSET : Z := 28.
Definition ELF_EHSIZE_OFFSET : Z := 40.
Definition ELF_PHENTSIZE_OFFSET : Z := 42.
Definition ELF_PHNUM_OFFSET : Z := 44.
Definition ELF_PT_TYPE_OFFSET : Z := 0.
Definition ELF_PT_OFFSET_OFFSET : Z := 4.
Definition ELF_PT_VADDR_OFFSET : Z := 8.
Definition ELF_PT_FILESZ_OFFSET : Z := 16.
Definition ELF_PT_MEMSZ_OFFSET : Z := 20.
Definition ELF_PT_FLAGS_OFFSET : Z := 24.
Definition ELF_PT_ALIGN_OFFSET : Z := 28.
Definition ELF_PT_LOAD : Z := 1.
Definition ELF_PT_DYNAMIC : Z := 2.
Definition ELF_ET_EXEC : Z := 2.
Definition ELF_ET_DYN : Z := 3.
Definition ELF_EM_386 : Z := 3.
Definition ELF_CLASS_32 : Z := 1.
Definition ELF_DATA_LSB : Z := 1.
Definition ELF_VERSION_CURRENT : Z := 1.
Definition ELF_FLAG_EXECUTABLE : Z := 1.
Definition ELF_FLAG_WRITABLE : Z := 2.
Definition USER_MIN_ADDRESS : Z := 0x00400000.
Definition USER_MAX_ADDRESS : Z := 0x40000000.
Definition USER_STACK_RESERVED_BASE : Z := 0x00800000.
Definition USER_STACK_RESERVED_END : Z := 0x01800000.
Definition USER_DYN_BASE_MIN : Z := 0x02000000.
Definition USER_DYN_BASE_MAX : Z := 0x30000000.
Definition ELF_MAX_PROGRAM_HEADERS : Z := 32.
Definition ELF_MAX_IMAGE_PAGES : Z := 1024.
Definition PAGE_SIZE : Z := 4096.
Definition ELF_PAGE_MASK : Z := not32 (PAGE_SIZE - 1).

(** ** Reading and ranges *)

Definition read_u16 (data : list Z) (offset : Z) : outcome Z :=
  (b0 <-- byte data offset; b1 <-- byte data (offset + 1); Ok (u16 (Z.lor b0 (shl32 b1 8))))%C.

Definition read_u32 (data : list Z) (offset : Z) : outcome Z :=
  (b0 <-- byte data offset; b1 <-- byte data (offset + 1); b2 <-- byte data (offset + 2);
   b3 <-- byte data (offset + 3);
   Ok (Z.lor (Z.lor (Z.lor b0 (shl32 b1 8)) (shl32 b2 16)) (shl32 b3 24)))%C.

Definition range_is_inside (offset length size : Z) : bool :=
  (offset <=? size) && (length <=? size -32 offset).

Definition overlaps_reserved_stack (address length : Z) : bool :=
  if (length =? 0) || (USER_STACK_RESERVED_END <=? address) then false
  else if 0xFFFFFFFF -32 address <? length then true
  else USER_STACK_RESERVED_BASE <? address +32 length.

Definition image_type_is_supported (type : Z) : bool := (type =? ELF_ET_EXEC) || (type =? ELF_ET_DYN).

(** ** Validation *)

(** The local counters of the header loop. *)
Record validation := { load_segments : Z; load_pages : Z; entry_executable : bool }.

(** The body of the loop for a loadable segment, after its fields are read. *)
Definition check_segment (image_type image_entry size file_offset virtual_address file_size memory_size flags alignment : Z)
    (v : validation) : outcome validation :=
  (_ <-- require (negb ((memory_size <? file_size) || negb (range_is_inside file_offset file_size size) ||
      ((image_type =? ELF_ET_EXEC) &&
        ((virtual_address <? USER_MIN_ADDRESS) || (USER_MAX_ADDRESS <=? virtual_address))) ||
      ((image_type =? ELF_ET_DYN) && (USER_MAX_ADDRESS <=? virtual_address)) ||
      (USER_MAX_ADDRESS -32 virtual_address <? memory_size) ||
      ((image_type =? ELF_ET_EXEC) && overlaps_reserved_stack virtual_address memory_size) ||
      (flag flags ELF_FLAG_WRITABLE && flag flags ELF_FLAG_EXECUTABLE) ||
      (negb (alignment =? 0) && negb (alignment =? 1) && negb (alignment =? 0x1000)) ||
      flag flags (not32 (Z.lor (Z.lor ELF_FLAG_EXECUTABLE ELF_FLAG_WRITABLE) 4))));
   if memory_size =? 0 then Ok v else
   let segment_end := virtual_address +32 memory_size in
   let page_start := Z.land virtual_address ELF_PAGE_MASK in
   let page_end := Z.land ((segment_end +32 PAGE_SIZE) -32 1) ELF_PAGE_MASK in
   _ <-- require (negb ((page_end <? segment_end) ||
      ((image_type =? ELF_ET_EXEC) && (page_start <? USER_MIN_ADDRESS)) || (USER_MAX_ADDRESS <? page_end)));
   let segment_pages := (page_end -32 page_start) / PAGE_SIZE in
   _ <-- require (negb ((ELF_MAX_IMAGE_PAGES <? segment_pages) ||
      (ELF_MAX_IMAGE_PAGES -32 segment_pages <? load_pages v)));
   _ <-- require (negb ((alignment =? 0x1000) &&
      negb (Z.land file_offset (PAGE_SIZE - 1) =? Z.land virtual_address (PAGE_SIZE - 1))));
   Ok (Build_validation
     (if file_size =? 0 then load_segments v else load_segments v +32 1)
     (load_pages v +32 (page_end -32 page_start) / PAGE_SIZE)
     (if flag flags ELF_FLAG_EXECUTABLE && (virtual_address <=? image_entry) &&
         (image_entry -32 virtual_address <? memory_size) then true else entry_executable v)))%C.

Section image.
Context (data : list Z).

(** One program header. *)
Definition validate_header (image_type image_entry offset : Z) (v : validation) : outcome validation :=
  (type <-- read_u32 data (offset +32 ELF_PT_TYPE_OFFSET);
   _ <-- require (negb ((image_type =? ELF_ET_DYN) && (type =? ELF_PT_DYNAMIC)));
   if negb (type =? ELF_PT_LOAD) then Ok v else
   file_offset <-- read_u32 data (offset +32 ELF_PT_OFFSET_OFFSET);
   virtual_address <-- read_u32 data (offset +32 ELF_PT_VADDR_OFFSET);
   file_size <-- read_u32 data (offset +32 ELF_PT_FILESZ_OFFSET);
   memory_size <-- read_u32 data (offset +32 ELF_PT_MEMSZ_OFFSET);
   flags <-- read_u32 data (offset +32 ELF_PT_FLAGS_OFFSET);
   alignment <-- read_u32 data (offset +32 ELF_PT_ALIGN_OFFSET);
   check_segment image_type image_entry (available data) file_offset virtual_address file_size memory_size flags
     alignment v)%C.

(** [for (index = 0; index < phnum; index++)], with [n] headers left. *)
Fixpoint validate_loop (n : nat) (image_type image_entry phoff index : Z) (v : validation) : outcome validation :=
  match n with
  | O => Ok v
  | S n =>
      v <-- validate_header image_type image_entry (phoff +32 (index *32 ELF32_PROGRAM_HEADER_SIZE)) v;
      validate_loop n image_type image_entry phoff (index + 1) v
  end%C.

(** [x != y || ...] of the header test: the byte or field at an offset has the value. *)
Definition byte_is (offset value : Z) : outcome unit := (b <-- byte data offset; require (b =? value))%C.
Definition u16_is (offset value : Z) : outcome unit := (w <-- read_u16 data offset; require (w =? value))%C.
Definition u32_is (offset value : Z) : outcome unit := (w <-- read_u32 data offset; require (w =? value))%C.

Definition elf_validate_image : outcome Z :=
  (_ <-- require (negb (available data <? ELF32_HEADER_SIZE));
   _ <-- byte_is 0 0x7F; _ <-- byte_is 1 69; _ <-- byte_is 2 76; _ <-- byte_is 3 70;
   _ <-- byte_is 4 ELF_CLASS_32; _ <-- byte_is 5 ELF_DATA_LSB; _ <-- byte_is 6 ELF_VERSION_CURRENT;
   type <-- read_u16 data ELF_TYPE_OFFSET; _ <-- require (image_type_is_supported type);
   _ <-- u16_is ELF_MACHINE_OFFSET ELF_EM_386;
   _ <-- u32_is ELF_VERSION_OFFSET ELF_VERSION_CURRENT;
   _ <-- u16_is ELF_EHSIZE_OFFSET ELF32_HEADER_SIZE;
   _ <-- u16_is ELF_PHENTSIZE_OFFSET ELF32_PROGRAM_HEADER_SIZE;
   image_type <-- read_u16 data ELF_TYPE_OFFSET;
   phoff <-- read_u32 data ELF_PHOFF_OFFSET;
   phnum <-- read_u16 data ELF_PHNUM_OFFSET;
   _ <-- require (negb ((phnum =? 0) || (ELF_MAX_PROGRAM_HEADERS <? phnum) ||
           negb (range_is_inside phoff (phnum *32 ELF32_PROGRAM_HEADER_SIZE) (available data))));
   image_entry <-- read_u32 data ELF_ENTRY_OFFSET;
   v <-- validate_loop (Z.to_nat phnum) image_type image_entry phoff 0 (Build_validation 0 0 false);
   _ <-- require (negb (load_segments v =? 0) && entry_executable v);
   Ok image_entry)%C.

(** ** Bounds *)

(** One header of [image_bounds]: the lowest and highest page boundary so far. *)
Definition bound_header (image_type offset : Z) (b : Z * Z) : outcome (Z * Z) :=
  (type <-- read_u32 data (offset +32 ELF_PT_TYPE_OFFSET);
   if negb (type =? ELF_PT_LOAD) then Ok b else
   virtual_address <-- read_u32 data (offset +32 ELF_PT_VADDR_OFFSET);
   memory_size <-- read_u32 data (offset +32 ELF_PT_MEMSZ_OFFSET);
   if memory_size =? 0 then Ok b else
   _ <-- require (negb ((USER_MAX_ADDRESS <=? virtual_address) ||
           (USER_MAX_ADDRESS -32 virtual_address <? memory_size)));
   let end_ := virtual_address +32 memory_size in
   let page_start := Z.land virtual_address ELF_PAGE_MASK in
   let page_end := Z.land ((end_ +32 PAGE_SIZE) -32 1) ELF_PAGE_MASK in
   _ <-- require (negb ((page_end <? end_) || (USER_MAX_ADDRESS <? page_end) ||
           ((image_type =? ELF_ET_EXEC) && (page_start <? USER_MIN_ADDRESS))));
   Ok (if page_start <? b.1 then page_start else b.1, if b.2 <? page_end then page_end else b.2))%C.

Fixpoint bounds_loop (n : nat) (image_type phoff index : Z) (b : Z * Z) : outcome (Z * Z) :=
  match n with
  | O => Ok b
  | S n =>
      b <-- bound_header image_type (phoff +32 (index *32 ELF32_PROGRAM_HEADER_SIZE)) b;
      bounds_loop n image_type phoff (index + 1) b
  end%C.

Definition image_bounds (phoff phnum image_type : Z) : outcome (Z * Z) :=
  (b <-- bounds_loop (Z.to_nat phnum) image_type phoff 0 (USER_MAX_ADDRESS, 0);
   _ <-- require (negb ((b.1 =? USER_MAX_ADDRESS) || (b.2 <=? b.1)));
   Ok b)%C.

End image.

(** ** Load bias *)

(** What the generator is seeded with: the address of its state, the processor's random number
    when it has one, and the timer. *)
Record entropy := { state_address : Z; hardware_random : option Z; pit_ticks : Z }.

Definition seed (e : entropy) : Z :=
  let state := Z.lxor (state_address e) 0x7E31A5C9 in
  let state := match hardware_random e with Some r => Z.lxor state r | None => state end in
  let state := Z.lxor state (pit_ticks e) in
  if state =? 0 then 1 else state.

(** [load_bias_random_state], before and after. *)
Definition next_load_bias_random (e : entropy) (state : Z) : Z :=
  let state := if state =? 0 then seed e else state in
  let state := Z.lxor state (shl32 state 13) in
  let state := Z.lxor state (Z.shiftr state 17) in
  Z.lxor state (shl32 state 5).

Section bias.
Context (e : entropy) (paging_is_mapped : Z -> bool).

(** The page loop of one attempt: where it stops. *)
Fixpoint free_pages (n : nat) (page end_ : Z) : Z :=
  match n with
  | O => page
  | S n => if negb (page <? end_) then page else if paging_is_mapped page then page
           else free_pages n (page +32 PAGE_SIZE) end_
  end.

Fixpoint bias_loop (n : nat) (image_min image_end slots state : Z) : option Z * Z :=
  match n with
  | O => (None, state)
  | S n =>
      let state := next_load_bias_random e state in
      let candidate := USER_DYN_BASE_MIN +32 ((state mod slots) *32 PAGE_SIZE) in
      if (candidate <? image_min) || (USER_MAX_ADDRESS -32 image_end <? candidate)
      then bias_loop n image_min image_end slots state else
      let start := candidate +32 image_min in
      let end_ := candidate +32 image_end in
      if overlaps_reserved_stack start (end_ -32 start) then bias_loop n image_min image_end slots state else
      let page := free_pages (Z.to_nat ELF_MAX_IMAGE_PAGES) start end_ in
      if page =? end_ then (Some candidate, state) else bias_loop n image_min image_end slots state
  end.

Definition dyn_bias_range (image_min image_end state : Z) : option Z * Z :=
  if (image_end <? image_min) || (USER_MAX_ADDRESS <? image_end) ||
     negb (image_min =? Z.land image_min ELF_PAGE_MASK) ||
     negb (image_end =? Z.land image_end ELF_PAGE_MASK) || (image_end =? image_min) then (None, state) else
  let span := image_end -32 image_min in
  if (ELF_MAX_IMAGE_PAGES *32 PAGE_SIZE <? span) || (USER_DYN_BASE_MAX -32 USER_DYN_BASE_MIN <? span) ||
     (USER_MAX_ADDRESS -32 USER_DYN_BASE_MIN <? image_min) ||
     (USER_MAX_ADDRESS -32 USER_DYN_BASE_MIN <? image_end) then (None, state) else
  let slots := (USER_DYN_BASE_MAX -32 USER_DYN_BASE_MIN) / PAGE_SIZE in
  bias_loop 32 image_min image_end slots state.

End bias.

(** ** Self test *)

Definition set_u16 (data : list Z) (offset value : Z) : list Z :=
  arr_set (arr_set data offset (Z.land value 0xFF)) (offset + 1) (Z.shiftr value 8).

Definition set_u32 (data : list Z) (offset value : Z) : list Z :=
  arr_set (arr_set (arr_set (arr_set data offset (Z.land value 0xFF)) (offset + 1) (Z.land (Z.shiftr value 8) 0xFF))
    (offset + 2) (Z.land (Z.shiftr value 16) 0xFF)) (offset + 3) (Z.shiftr value 24).

(** The image both parts of the test start from. *)
Definition test_image : list Z :=
  let image := [0x7F; 69; 76; 70; ELF_CLASS_32; ELF_DATA_LSB; ELF_VERSION_CURRENT] ++ replicate 121 0 in
  let image := set_u16 image ELF_TYPE_OFFSET ELF_ET_EXEC in
  let image := set_u16 image ELF_MACHINE_OFFSET ELF_EM_386 in
  let image := set_u32 image ELF_VERSION_OFFSET ELF_VERSION_CURRENT in
  let image := set_u32 image ELF_ENTRY_OFFSET USER_MIN_ADDRESS in
  let image := set_u32 image ELF_PHOFF_OFFSET ELF32_HEADER_SIZE in
  let image := set_u16 image ELF_EHSIZE_OFFSET ELF32_HEADER_SIZE in
  let image := set_u16 image ELF_PHENTSIZE_OFFSET ELF32_PROGRAM_HEADER_SIZE in
  let image := set_u16 image ELF_PHNUM_OFFSET 1 in
  let image := set_u32 image (ELF32_HEADER_SIZE + ELF_PT_TYPE_OFFSET) ELF_PT_LOAD in
  let image := set_u32 image (ELF32_HEADER_SIZE + ELF_PT_OFFSET_OFFSET) 116 in
  let image := set_u32 image (ELF32_HEADER_SIZE + ELF_PT_VADDR_OFFSET) USER_MIN_ADDRESS in
  let image := set_u32 image (ELF32_HEADER_SIZE + ELF_PT_FILESZ_OFFSET) 4 in
  let image := set_u32 image (ELF32_HEADER_SIZE + ELF_PT_MEMSZ_OFFSET) 4096 in
  let image := set_u32 image (ELF32_HEADER_SIZE + ELF_PT_FLAGS_OFFSET) ELF_FLAG_EXECUTABLE in
  let image := set_u32 image (ELF32_HEADER_SIZE + ELF_PT_ALIGN_OFFSET) 1 in
  arr_set image 116 0xC3.

(** [malformed_offsets] and [malformed_values]. *)
Definition malformed : list (Z * Z) :=
  [(ELF_PHOFF_OFFSET, 0xFFFFFFFF); (ELF_EHSIZE_OFFSET, 0); (ELF_PHNUM_OFFSET, 0);
   (ELF32_HEADER_SIZE + ELF_PT_OFFSET_OFFSET, 0xFFFFFFFF); (ELF32_HEADER_SIZE + ELF_PT_VADDR_OFFSET, 0x003FF000);
   (ELF32_HEADER_SIZE + ELF_PT_VADDR_OFFSET, 0xFFFFFFFF); (ELF32_HEADER_SIZE + ELF_PT_FILESZ_OFFSET, 0xFFFFFFFF);
   (ELF32_HEADER_SIZE + ELF_PT_MEMSZ_OFFSET, 3); (ELF32_HEADER_SIZE + ELF_PT_MEMSZ_OFFSET, 0x01000000);
   (ELF32_HEADER_SIZE + ELF_PT_FLAGS_OFFSET, 8); (ELF32_HEADER_SIZE + ELF_PT_ALIGN_OFFSET, 2);
   (ELF_ENTRY_OFFSET, USER_MIN_ADDRESS + PAGE_SIZE)].

Definition image_accepted (image : list Z) (entry : Z) : bool :=
  match elf_validate_image image with Ok x => x =? entry | _ => false end.

Definition image_rejected (image : list Z) : bool :=
  match elf_validate_image image with Reject => true | _ => false end.

Definition elf_loader_self_test : bool :=
  let image := test_image in
  image_accepted image USER_MIN_ADDRESS &&
  let image := set_u16 image ELF_TYPE_OFFSET ELF_ET_DYN in
  let image := set_u32 image ELF_ENTRY_OFFSET 0 in
  let image := set_u32 image (ELF32_HEADER_SIZE + ELF_PT_VADDR_OFFSET) 0 in
  image_accepted image 0 &&
  let image := set_u32 image (ELF32_HEADER_SIZE + ELF_PT_TYPE_OFFSET) ELF_PT_DYNAMIC in
  image_rejected image &&
  let image := set_u32 image (ELF32_HEADER_SIZE + ELF_PT_TYPE_OFFSET) ELF_PT_LOAD in
  let image := set_u16 image ELF_TYPE_OFFSET ELF_ET_EXEC in
  let image := set_u32 image ELF_ENTRY_OFFSET USER_MIN_ADDRESS in
  let image := set_u32 image (ELF32_HEADER_SIZE + ELF_PT_VADDR_OFFSET) USER_MIN_ADDRESS in
  let image := set_u32 image (ELF32_HEADER_SIZE + ELF_PT_FLAGS_OFFSET) (Z.lor ELF_FLAG_EXECUTABLE ELF_FLAG_WRITABLE) in
  image_rejected image &&
  forallb (fun '(offset, value) =>
    image_rejected (if (offset =? ELF_EHSIZE_OFFSET) || (offset =? ELF_PHNUM_OFFSET)
              then set_u16 test_image offset (u16 value) else set_u32 test_image offset value)) malformed.
