(* ===== verification/ElfSpec.v ===== *)
(** * ELF images: what is accepted and where it is placed

    The meaning of an image as a list of program headers, and the exact set of images
    [elf_validate_image] accepts, in unbounded arithmetic. *)

From S2P Require Import Prelude Checked Elf.
Local Open Scope c_scope.
Local Open Scope Z_scope.

(** ** Program headers *)

Record program_header := {
  p_type : Z;
  p_offset : Z;
  p_vaddr : Z;
  p_filesz : Z;
  p_memsz : Z;
  p_flags : Z;
  p_align : Z
}.

Definition header_at (data : list Z) (o : Z) : program_header :=
  Build_program_header (le32 data o) (le32 data (o + 4)) (le32 data (o + 8)) (le32 data (o + 16))
    (le32 data (o + 20)) (le32 data (o + 24)) (le32 data (o + 28)).

Definition e_type (data : list Z) : Z := le16 data 16.
Definition e_entry (data : list Z) : Z := le32 data 24.
Definition e_phoff (data : list Z) : Z := le32 data 28.
Definition e_phnum (data : list Z) : Z := le16 data 44.

Definition headers_from (data : list Z) (n : nat) (i : Z) : list program_header :=
  (fun i => header_at data (e_phoff data + 32 * i)) <$> seqZ i (Z.of_nat n).

Definition headers (data : list Z) : list program_header := headers_from data (Z.to_nat (e_phnum data)) 0.

Definition loadable (h : program_header) : bool := p_type h =? 1.
Definition executable (h : program_header) : bool := flag (p_flags h) 1.
Definition writable (h : program_header) : bool := flag (p_flags h) 2.

(** The pages a segment touches. *)
Definition first_page (h : program_header) : Z := p_vaddr h / 4096.
Definition last_page (h : program_header) : Z := (p_vaddr h + p_memsz h + 4095) / 4096.
Definition pages (h : program_header) : Z :=
  if loadable h && negb (p_memsz h =? 0) then last_page h - first_page h else 0.

Fixpoint total_pages (l : list program_header) : Z :=
  match l with [] => 0 | h :: l => pages h + total_pages l end.

(** A segment inside the file and the user area, never writable and executable, with known flags and
    alignment; a segment with fixed addresses keeps clear of the stack. *)
Definition segment_inside (size type : Z) (h : program_header) : Prop :=
  p_filesz h <= p_memsz h /\ p_offset h + p_filesz h <= size /\
  (p_vaddr h < 0x40000000 /\ p_vaddr h + p_memsz h <= 0x40000000) /\
  (type = 2 -> 0x400000 <= p_vaddr h /\
     (p_memsz h = 0 \/ 0x1800000 <= p_vaddr h \/ p_vaddr h + p_memsz h <= 0x800000)) /\
  writable h && executable h = false /\ p_flags h < 8 /\
  (p_align h = 0 \/ p_align h = 1 \/ p_align h = 4096).

Definition segment_ok (size type : Z) (h : program_header) : Prop :=
  segment_inside size type h /\
  (p_memsz h <> 0 -> p_align h = 4096 -> p_offset h mod 4096 = p_vaddr h mod 4096).

Definition header_ok (size type : Z) (h : program_header) : Prop :=
  (type = 3 -> p_type h <> 2) /\ (loadable h = true -> segment_ok size type h).

Definition has_code (entry : Z) (h : program_header) : bool :=
  loadable h && executable h && (p_vaddr h <=? entry) && (entry <? p_vaddr h + p_memsz h).

Definition has_data (h : program_header) : bool := loadable h && negb (p_filesz h =? 0) && negb (p_memsz h =? 0).

(** The images that may be loaded. *)
Record elf_ok (data : list Z) : Prop := {
  ok_size : 52 <= available data;
  ok_ident : arr data 0 = 0x7F /\ arr data 1 = 69 /\ arr data 2 = 76 /\ arr data 3 = 70 /\
    arr data 4 = 1 /\ arr data 5 = 1 /\ arr data 6 = 1;
  ok_type : e_type data = 2 \/ e_type data = 3;
  ok_fields : le16 data 18 = 3 /\ le32 data 20 = 1 /\ le16 data 40 = 52 /\ le16 data 42 = 32;
  ok_phnum : 1 <= e_phnum data <= 32;
  ok_phoff : e_phoff data + 32 * e_phnum data <= available data;
  ok_headers : Forall (header_ok (available data) (e_type data)) (headers data);
  ok_pages : total_pages (headers data) <= 1024;
  ok_data : existsb has_data (headers data) = true;
  ok_entry : existsb (has_code (e_entry data)) (headers data) = true
}.

(** ** Outcomes *)

Lemma require_iff {B} b (f : unit -> outcome B) r : bind (require b) f = Ok r <-> b = true /\ f tt = Ok r.
Proof. destruct b; cbn; intuition congruence. Qed.

Lemma page_mask x : is_u32 x -> Z.land x ELF_PAGE_MASK = x / 4096 * 4096.
Proof. intros Hx. apply (land_not32 x 12); [done|lia]. Qed.

Lemma flag_above x : is_u32 x -> flag x (not32 7) = negb (x <? 8).
Proof.
  intros Hx. unfold flag. change 7 with (2 ^ 3 - 1). rewrite land_not32 by (done || lia). change (2 ^ 3) with 8.
  unfold is_u32 in Hx. f_equal. dmlia.
Qed.

Lemma overlaps_spec a n : 0 <= a < 0x40000000 -> 0 <= n -> a + n <= 0x40000000 ->
  overlaps_reserved_stack a n = negb ((n =? 0) || (0x1800000 <=? a) || (a + n <=? 0x800000)).
Proof.
  intros Ha Hn Hs. unfold overlaps_reserved_stack, USER_STACK_RESERVED_END, USER_STACK_RESERVED_BASE.
  rewrite !u32_id by (unfold is_u32; lia). repeat case_if; lia.
Qed.

Lemma range_spec o n s : is_u32 o -> is_u32 n -> is_u32 s -> range_is_inside o n s = (o + n <=? s).
Proof.
  unfold is_u32. intros Ho Hn Hs. unfold range_is_inside. destruct (Z.leb_spec o s); cbn [andb]; [|lia].
  rewrite u32_id by (unfold is_u32; lia). lia.
Qed.

(** ** One segment *)

Definition header_u32 (h : program_header) : Prop :=
  is_u32 (p_type h) /\ is_u32 (p_offset h) /\ is_u32 (p_vaddr h) /\ is_u32 (p_filesz h) /\ is_u32 (p_memsz h) /\
  is_u32 (p_flags h) /\ is_u32 (p_align h).

Lemma header_at_u32 data o : bytes_ok data -> header_u32 (header_at data o).
Proof. intros Hb. repeat split; by apply le32_u32. Qed.

Definition after_segment (entry : Z) (h : program_header) (v : validation) : validation :=
  Build_validation (load_segments v + Z.b2z (has_data h)) (load_pages v + pages h)
    (entry_executable v || has_code entry h).

(** The first test of a segment. *)
Lemma segment_guard size type h : header_u32 h -> is_u32 size -> type = 2 \/ type = 3 ->
  negb ((p_memsz h <? p_filesz h) || negb (range_is_inside (p_offset h) (p_filesz h) size) ||
      ((type =? ELF_ET_EXEC) && ((p_vaddr h <? USER_MIN_ADDRESS) || (USER_MAX_ADDRESS <=? p_vaddr h))) ||
      ((type =? ELF_ET_DYN) && (USER_MAX_ADDRESS <=? p_vaddr h)) ||
      (USER_MAX_ADDRESS -32 p_vaddr h <? p_memsz h) ||
      ((type =? ELF_ET_EXEC) && overlaps_reserved_stack (p_vaddr h) (p_memsz h)) ||
      (flag (p_flags h) ELF_FLAG_WRITABLE && flag (p_flags h) ELF_FLAG_EXECUTABLE) ||
      (negb (p_align h =? 0) && negb (p_align h =? 1) && negb (p_align h =? 0x1000)) ||
      flag (p_flags h) (not32 (Z.lor (Z.lor ELF_FLAG_EXECUTABLE ELF_FLAG_WRITABLE) 4))) = true <->
  segment_inside size type h.
Proof.
  intros (Ht & Ho & Hva & Hf & Hm & Hfl & Hal) Hsize Hty. unfold segment_inside, writable, executable.
  unfold ELF_ET_EXEC, ELF_ET_DYN, USER_MIN_ADDRESS, USER_MAX_ADDRESS, ELF_FLAG_WRITABLE, ELF_FLAG_EXECUTABLE.
  change (not32 (Z.lor (Z.lor 1 2) 4)) with (not32 7). rewrite flag_above, range_spec by done. unfold is_u32 in *.
  destruct (Z_lt_ge_dec (p_vaddr h) 0x40000000) as [Hlt|Hge]; [|lia].
  rewrite (u32_id (_ - p_vaddr h)) by (unfold is_u32; lia).
  destruct (Z_le_gt_dec (p_vaddr h + p_memsz h) 0x40000000); [|lia]. rewrite overlaps_spec by lia. lia.
Qed.

(** The pages of a segment inside the user area. *)
Lemma segment_pages h : header_u32 h -> p_vaddr h + p_memsz h <= 0x40000000 ->
  Z.land (p_vaddr h) ELF_PAGE_MASK = 4096 * first_page h /\
  p_vaddr h +32 p_memsz h = p_vaddr h + p_memsz h /\
  Z.land (((p_vaddr h + p_memsz h) +32 PAGE_SIZE) -32 1) ELF_PAGE_MASK = 4096 * last_page h /\
  p_vaddr h + p_memsz h <= 4096 * last_page h <= 0x40000000 /\ 0 <= 4096 * first_page h <= p_vaddr h.
Proof.
  intros (Ht & Ho & Hva & Hf & Hm & Hfl & Hal) Hs. unfold is_u32, PAGE_SIZE, first_page, last_page in *.
  rewrite (u32_id (p_vaddr h + p_memsz h)) by (unfold is_u32; lia).
  rewrite (u32_id (_ + 4096)) by (unfold is_u32; lia). rewrite u32_id by (unfold is_u32; lia).
  rewrite !page_mask by (unfold is_u32; lia). replace (p_vaddr h + p_memsz h + 4096 - 1) with (p_vaddr h + p_memsz h + 4095) by lia.
  dmlia.
Qed.

Lemma iff_under (P A B : Prop) : (P -> (A <-> B)) -> (P /\ A) <-> (P /\ B).
Proof. tauto. Qed.

Lemma ok_iff {A} (a b : A) : Ok a = Ok b <-> b = a.
Proof. split; congruence. Qed.

(** The result of a segment with memory. *)
Lemma segment_result entry h v : header_u32 h -> is_u32 entry -> loadable h = true -> p_memsz h <> 0 ->
  p_vaddr h + p_memsz h <= 0x40000000 -> 0 <= load_segments v < 32 -> 0 <= load_pages v -> load_pages v + pages h <= 1024 ->
  Build_validation (if p_filesz h =? 0 then load_segments v else load_segments v +32 1)
     (load_pages v +32 (last_page h - first_page h))
     (if flag (p_flags h) ELF_FLAG_EXECUTABLE && (p_vaddr h <=? entry) && (entry -32 p_vaddr h <? p_memsz h)
      then true else entry_executable v) = after_segment entry h v.
Proof.
  intros Hh He Hl Hm Hs Hls Hlp Hp. pose proof (segment_pages h Hh Hs) as (_ & _ & _ & H1 & H2).
  destruct Hh as (Ht & Ho & Hva & Hf & Hms & Hfl & Hal). unfold is_u32 in *.
  unfold after_segment, pages, has_data, has_code, executable, ELF_FLAG_EXECUTABLE in *. rewrite Hl in *.
  replace (p_memsz h =? 0) with false in * by lia. cbn [andb negb] in *. f_equal.
  - rewrite u32_id by (unfold is_u32; lia). rewrite andb_true_r. by destruct (p_filesz h =? 0); cbn; [rewrite Z.add_0_r|].
  - rewrite u32_id by (unfold is_u32; lia). done.
  - destruct (flag (p_flags h) 1); [|by rewrite orb_false_r]. cbn [andb].
    destruct (p_vaddr h <=? entry) eqn:E; cbn [andb]; [|by rewrite orb_false_r]. rewrite u32_id by (unfold is_u32; lia).
    replace (entry - p_vaddr h <? p_memsz h) with (entry <? p_vaddr h + p_memsz h) by lia.
    destruct (entry <? _); [by rewrite orb_true_r|by rewrite orb_false_r].
Qed.

Lemma check_segment_iff size type entry h v v' : header_u32 h -> loadable h = true -> is_u32 size -> is_u32 entry ->
  type = 2 \/ type = 3 -> 0 <= load_segments v < 32 -> 0 <= load_pages v <= 1024 ->
  check_segment type entry size (p_offset h) (p_vaddr h) (p_filesz h) (p_memsz h) (p_flags h) (p_align h) v = Ok v' <->
  segment_ok size type h /\ load_pages v + pages h <= 1024 /\ v' = after_segment entry h v.
Proof.
  intros Hh Hload Hsize He Hty Hls Hlp. unfold check_segment, segment_ok. cbv zeta.
  rewrite require_iff, segment_guard by done. rewrite Init.Logic.and_assoc. apply iff_under.
  intros (Hfm & Hof & [Hv1 Hv2] & Hfix & Hwx & Hfl & Hal).
  destruct (p_memsz h =? 0) eqn:Em.
  { apply Z.eqb_eq in Em. rewrite ok_iff. assert (Hc : has_code entry h = false) by (unfold has_code; lia).
    assert (Hd : has_data h = false) by (unfold has_data; lia). assert (Hp : pages h = 0) by (unfold pages; case_if; lia).
    unfold after_segment. rewrite Hc, Hd, Hp. cbn [Z.b2z]. rewrite orb_false_r, !Z.add_0_r.
    replace (Build_validation _ _ _) with v by (by destruct v). split; [intros ->; split; [done|split; [lia|done]]|by intros (_ & _ & ->)]. }
  pose proof (segment_pages h Hh Hv2) as (-> & -> & -> & Hp1 & Hp2).
  assert (Hm0 : 0 <= p_memsz h) by apply Hh.
  assert (Hmin : type = 2 -> 0x400000 <= 4096 * first_page h).
  { intros E. specialize (Hfix E). unfold first_page. dmlia. }
  unfold ELF_ET_EXEC, USER_MIN_ADDRESS, USER_MAX_ADDRESS, ELF_MAX_IMAGE_PAGES, PAGE_SIZE.
  replace (negb _) with true at 1 by lia. cbn [require bind].
  rewrite (u32_id (4096 * last_page h - _)) by (unfold is_u32; lia).
  rewrite <- Z.mul_sub_distr_l, (Z.mul_comm 4096), Z.div_mul by lia.
  rewrite !require_iff, ok_iff. change (4096 - 1) with (2 ^ 12 - 1). rewrite !land_mask by lia. change (2 ^ 12) with 4096.
  assert (Hpages : pages h = last_page h - first_page h) by (unfold pages; by rewrite Hload, Em).
  assert (Hg : negb ((1024 <? last_page h - first_page h) || (1024 -32 (last_page h - first_page h) <? load_pages v)) = true <->
    load_pages v + pages h <= 1024).
  { rewrite Hpages. destruct (Z_le_gt_dec (last_page h - first_page h) 1024); [|lia]. rewrite u32_id by (unfold is_u32; lia). lia. }
  rewrite Hg. rewrite (Init.Logic.and_comm (_ -> _)), Init.Logic.and_assoc. apply iff_under. intros Hle.
  rewrite segment_result by (done || lia). rewrite Init.Logic.and_comm. apply iff_under. intros _.
  apply Z.eqb_neq in Em. lia.
Qed.

(** ** The header table *)

Lemma after_nothing entry h v : pages h = 0 -> has_data h = false -> has_code entry h = false -> after_segment entry h v = v.
Proof.
  intros Hp Hd Hc. unfold after_segment. rewrite Hp, Hd, Hc. cbn [Z.b2z]. rewrite orb_false_r, !Z.add_0_r. by destruct v.
Qed.

Lemma pages_nonneg h : header_u32 h -> 0 <= pages h.
Proof.
  intros (_ & _ & Hva & _ & Hm & _). unfold pages, last_page, first_page, is_u32 in *. case_if; [|lia].
  pose proof (Z.div_le_mono (p_vaddr h) (p_vaddr h + p_memsz h + 4095) 4096). lia.
Qed.

Section image.
Context (data : list Z) (Hdata : bytes_ok data) (Hsize : available data < 4294967296).

Lemma elf_read_u16 o : 0 <= o -> o + 2 <= available data -> read_u16 data o = Ok (le16 data o).
Proof.
  intros Ho Hs. unfold read_u16. rewrite !byte_in by lia. cbn [bind]. rewrite lor_le16 by done.
  by rewrite u16_id by (by apply le16_u16).
Qed.

Lemma elf_read_u32 o : 0 <= o -> o + 4 <= available data -> read_u32 data o = Ok (le32 data o).
Proof. intros Ho Hs. unfold read_u32. rewrite !byte_in by lia. cbn [bind]. by rewrite lor_le32 by done. Qed.

Lemma available_u32 : is_u32 (available data).
Proof. unfold is_u32, available in *. lia. Qed.

Section loop.
Context (type entry : Z) (Htype : type = 2 \/ type = 3) (Hentry : is_u32 entry).

Lemma validate_header_iff o v v' : 0 <= o -> o + 32 <= available data -> 0 <= load_segments v < 32 ->
  0 <= load_pages v <= 1024 ->
  validate_header data type entry o v = Ok v' <->
  header_ok (available data) type (header_at data o) /\ load_pages v + pages (header_at data o) <= 1024 /\
  v' = after_segment entry (header_at data o) v.
Proof.
  intros Ho Hs Hls Hlp. unfold validate_header.
  unfold ELF_PT_TYPE_OFFSET, ELF_PT_OFFSET_OFFSET, ELF_PT_VADDR_OFFSET, ELF_PT_FILESZ_OFFSET, ELF_PT_MEMSZ_OFFSET,
    ELF_PT_FLAGS_OFFSET, ELF_PT_ALIGN_OFFSET. rewrite !u32_id by (unfold is_u32; lia). rewrite Z.add_0_r.
  rewrite !elf_read_u32 by lia. cbn [bind]. rewrite require_iff. set (h := header_at data o).
  change (le32 data o) with (p_type h). unfold header_ok, ELF_ET_DYN, ELF_PT_DYNAMIC, ELF_PT_LOAD.
  rewrite Init.Logic.and_assoc.
  assert (H2 : negb ((type =? 3) && (p_type h =? 2)) = true <-> (type = 3 -> p_type h <> 2)) by lia. rewrite H2. apply iff_under. intros _.
  destruct (p_type h =? 1) eqn:El; cbn [negb].
  - assert (Hl : loadable h = true) by done. rewrite Hl.
    etransitivity; [apply (check_segment_iff (available data) type entry h); (done || by apply header_at_u32 || apply available_u32)|].
    intuition.
  - assert (Hl : loadable h = false) by done. rewrite ok_iff, after_nothing.
    + unfold pages. rewrite Hl. cbn [andb]. split; [intros ->; repeat split; (done || lia)|by intros (_ & _ & ->)].
    + unfold pages. by rewrite Hl.
    + unfold has_data. by rewrite Hl.
    + unfold has_code. by rewrite Hl.
Qed.

Lemma headers_from_cons n i :
  headers_from data (S n) i = header_at data (e_phoff data + 32 * i) :: headers_from data n (i + 1).
Proof. unfold headers_from. rewrite seqZ_cons by lia. cbn [fmap list_fmap]. by replace (Z.succ i) with (i + 1) by lia; replace (Z.pred (Z.of_nat (S n))) with (Z.of_nat n) by lia. Qed.

Definition after_all (l : list program_header) (v : validation) : validation :=
  foldl (fun v h => after_segment entry h v) v l.

Lemma total_nonneg l : Forall header_u32 l -> 0 <= total_pages l.
Proof. induction 1 as [|h l Hh _ IH]; cbn [total_pages]; [lia|]. pose proof (pages_nonneg h Hh). lia. Qed.

Lemma headers_from_u32 n i : Forall header_u32 (headers_from data n i).
Proof. apply Forall_fmap, Forall_true. intros j. by apply header_at_u32. Qed.

Lemma validate_loop_iff n i v v' : 0 <= i -> 0 <= e_phoff data -> e_phoff data + 32 * (i + Z.of_nat n) <= available data ->
  0 <= load_segments v -> load_segments v + Z.of_nat n <= 32 -> 0 <= load_pages v <= 1024 ->
  validate_loop data n type entry (e_phoff data) i v = Ok v' <->
  Forall (header_ok (available data) type) (headers_from data n i) /\
  load_pages v + total_pages (headers_from data n i) <= 1024 /\ v' = after_all (headers_from data n i) v.
Proof.
  revert i v. induction n as [|n IH]; intros i v Hi Hp Hs Hl1 Hl2 Hlp.
  { cbn [validate_loop]. rewrite ok_iff. change (headers_from data 0 i) with (@nil program_header). cbn [total_pages].
    unfold after_all. cbn [foldl]. split; [intros ->; repeat split; [apply Forall_nil_2|lia]|by intros (_ & _ & ->)]. }
  cbn [validate_loop]. unfold ELF32_PROGRAM_HEADER_SIZE. rewrite (u32_id (i * 32)) by (unfold is_u32; lia).
  rewrite u32_id by (unfold is_u32; lia). rewrite headers_from_cons. replace (i * 32) with (32 * i) by lia.
  set (h := header_at data (e_phoff data + 32 * i)). set (l := headers_from data n (i + 1)) in *.
  pose proof (pages_nonneg h (header_at_u32 _ _ Hdata)) as Hpn. pose proof (total_nonneg l (headers_from_u32 _ _)) as Htn.
  assert (Hstep : forall v1, validate_header data type entry (e_phoff data + 32 * i) v = Ok v1 <->
    header_ok (available data) type h /\ load_pages v + pages h <= 1024 /\ v1 = after_segment entry h v).
  { intros v1. apply validate_header_iff; lia. }
  assert (Hrec : load_pages v + pages h <= 1024 ->
    validate_loop data n type entry (e_phoff data) (i + 1) (after_segment entry h v) = Ok v' <->
    Forall (header_ok (available data) type) l /\ load_pages v + pages h + total_pages l <= 1024 /\
    v' = after_all l (after_segment entry h v)).
  { intros Hle. apply IH; cbn [after_segment load_segments load_pages]; try lia; destruct (has_data h); cbn [Z.b2z]; lia. }
  cbn [total_pages]. rewrite Forall_cons_iff. unfold after_all in *. cbn [foldl]. split.
  - intros H. apply bind_ok in H as (v1 & H1 & H). apply Hstep in H1 as (Hh & Hle & ->). apply Hrec in H; [|done].
    destruct H as (HF & Ht & ->). split; [by split|]. split; [lia|done].
  - intros ([Hh HF] & Ht & ->). assert (Hle : load_pages v + pages h <= 1024) by lia.
    rewrite (proj2 (Hstep _) (conj Hh (conj Hle eq_refl))). cbn [bind].
    apply Hrec; [lia|]. split; [done|]. split; [lia|done].
Qed.

Lemma after_all_fields l v : load_pages (after_all l v) = load_pages v + total_pages l /\
  load_segments v <= load_segments (after_all l v) /\
  (load_segments (after_all l v) = load_segments v <-> existsb has_data l = false) /\
  entry_executable (after_all l v) = entry_executable v || existsb (has_code entry) l.
Proof.
  unfold after_all. revert v. induction l as [|h l IH]; intros v; cbn [foldl total_pages existsb].
  { rewrite orb_false_r. repeat split; (done || lia). }
  destruct (IH (after_segment entry h v)) as (H1 & H2 & H3 & H4). rewrite H1, H4. cbn [after_segment load_segments load_pages entry_executable] in *.
  rewrite orb_assoc. destruct (has_data h); cbn [Z.b2z orb] in *; repeat split; try done; try lia; intros; try lia; apply H3; lia.
Qed.

End loop.

(** ** The image *)

Lemma byte_is_iff {B} o x (f : unit -> outcome B) r : 0 <= o < available data ->
  bind (byte_is data o x) f = Ok r <-> arr data o = x /\ f tt = Ok r.
Proof. intros Ho. unfold byte_is. rewrite byte_in by done. cbn [bind]. rewrite require_iff. by rewrite Z.eqb_eq. Qed.

Lemma u16_is_iff {B} o x (f : unit -> outcome B) r : 0 <= o -> o + 2 <= available data ->
  bind (u16_is data o x) f = Ok r <-> le16 data o = x /\ f tt = Ok r.
Proof. intros Ho Hs. unfold u16_is. rewrite elf_read_u16 by done. cbn [bind]. rewrite require_iff. by rewrite Z.eqb_eq. Qed.

Lemma u32_is_iff {B} o x (f : unit -> outcome B) r : 0 <= o -> o + 4 <= available data ->
  bind (u32_is data o x) f = Ok r <-> le32 data o = x /\ f tt = Ok r.
Proof. intros Ho Hs. unfold u32_is. rewrite elf_read_u32 by done. cbn [bind]. rewrite require_iff. by rewrite Z.eqb_eq. Qed.

Lemma validate_sound entry : elf_validate_image data = Ok entry -> elf_ok data /\ entry = e_entry data.
Proof.
  intros H. unfold elf_validate_image, ELF32_HEADER_SIZE, ELF_MAX_PROGRAM_HEADERS in H.
  apply require_iff in H as [E H]. assert (Hlen : 52 <= available data) by lia.
  rewrite !byte_is_iff in H by lia. destruct H as (I0 & I1 & I2 & I3 & I4 & I5 & I6 & H).
  unfold ELF_TYPE_OFFSET, ELF_MACHINE_OFFSET, ELF_VERSION_OFFSET, ELF_ENTRY_OFFSET, ELF_PHOFF_OFFSET, ELF_EHSIZE_OFFSET,
    ELF_PHENTSIZE_OFFSET, ELF_PHNUM_OFFSET in H. rewrite !elf_read_u16, !elf_read_u32 in H by lia. cbn [bind] in H.
  rewrite require_iff, !u16_is_iff, u32_is_iff, !u16_is_iff in H by lia. destruct H as (Ht & F1 & F2 & F3 & F4 & H).
  apply require_iff in H as [Hg H]. split_bools. change (le16 data 44) with (e_phnum data) in *.
  change (le32 data 28) with (e_phoff data) in *. change (le16 data 16) with (e_type data) in *.
  pose proof (le16_u16 data 44 Hdata) as Hn. change (le16 data 44) with (e_phnum data) in Hn. unfold is_u16 in Hn.
  pose proof (le32_u32 data 28 Hdata) as Hp. change (le32 data 28) with (e_phoff data) in Hp.
  unfold ELF32_PROGRAM_HEADER_SIZE in *. rewrite u32_id in * by (unfold is_u32; lia).
  rewrite range_spec in * by (done || apply available_u32 || (unfold is_u32; lia)).
  assert (Hty : e_type data = 2 \/ e_type data = 3) by (unfold image_type_is_supported, ELF_ET_EXEC, ELF_ET_DYN in *; lia).
  apply bind_ok in H as (v & Hv & H). unfold is_u32 in Hp.
  apply validate_loop_iff in Hv as (HF & Hpg & ->);
    [|done|by apply le32_u32|lia|lia|lia|cbn [load_segments]; lia|cbn [load_segments]; lia|cbn [load_pages]; lia].
  apply require_iff in H as [Hfin H]. injection H as <-. split; [|done]. cbn [load_pages] in Hpg.
  destruct (after_all_fields (le32 data 24) (headers data) (Build_validation 0 0 false)) as (_ & Hs1 & Hs2 & Hs3).
  cbn [load_segments entry_executable orb] in *. fold (headers data) in HF, Hpg, Hfin. rewrite Hs3 in Hfin. split_bools.
  split; try done; lia.
Qed.

Lemma validate_complete : elf_ok data -> elf_validate_image data = Ok (e_entry data).
Proof.
  intros [Hlen (I0 & I1 & I2 & I3 & I4 & I5 & I6) Hty (F1 & F2 & F3 & F4) Hn Hp HF Hpg Hd He].
  unfold elf_validate_image, ELF32_HEADER_SIZE, ELF_MAX_PROGRAM_HEADERS.
  unfold ELF_TYPE_OFFSET, ELF_MACHINE_OFFSET, ELF_VERSION_OFFSET, ELF_ENTRY_OFFSET, ELF_PHOFF_OFFSET, ELF_EHSIZE_OFFSET,
    ELF_PHENTSIZE_OFFSET, ELF_PHNUM_OFFSET. rewrite require_iff. split; [lia|].
  rewrite !byte_is_iff by lia. do 7 (split; [assumption|]). rewrite !elf_read_u16, !elf_read_u32 by lia. cbn [bind].
  rewrite require_iff, !u16_is_iff, u32_is_iff, !u16_is_iff by lia.
  change (le16 data 44) with (e_phnum data). change (le32 data 28) with (e_phoff data). change (le16 data 16) with (e_type data).
  change (le32 data 24) with (e_entry data).
  split; [unfold image_type_is_supported, ELF_ET_EXEC, ELF_ET_DYN; lia|]. do 4 (split; [assumption|]).
  pose proof (le32_u32 data 28 Hdata) as Hpo. change (le32 data 28) with (e_phoff data) in Hpo.
  unfold ELF32_PROGRAM_HEADER_SIZE. rewrite require_iff, u32_id by (unfold is_u32; lia).
  rewrite range_spec by (done || apply available_u32 || (unfold is_u32; lia)). split; [lia|]. unfold is_u32 in Hpo.
  destruct (after_all_fields (e_entry data) (headers data) (Build_validation 0 0 false)) as (_ & Hs1 & Hs2 & Hs3).
  rewrite (proj2 (validate_loop_iff (e_type data) (e_entry data) Hty (le32_u32 data 24 Hdata) (Z.to_nat (e_phnum data)) 0
    (Build_validation 0 0 false) _ ltac:(lia) ltac:(lia) ltac:(lia) ltac:(cbn; lia) ltac:(cbn [load_segments]; lia) ltac:(cbn; lia))
    (conj HF (conj Hpg eq_refl))).
  cbn [bind]. rewrite require_iff. split; [|done]. fold (headers data). rewrite Hs3, He. cbn [load_segments entry_executable orb] in *.
  destruct (Z.eqb_spec (load_segments (after_all (e_entry data) (headers data) (Build_validation 0 0 false))) 0) as [E|E]; [|done].
  apply Hs2 in E. congruence.
Qed.

(** No read outside the image, on any bytes. *)
Lemma check_segment_safe type entry size o va fs ms fl al v :
  safe (check_segment type entry size o va fs ms fl al v) (fun _ => True).
Proof. unfold check_segment. cbv zeta. apply safe_require. intros _. destruct (ms =? 0); [done|]. do 3 (apply safe_require; intros _). done. Qed.

Lemma validate_loop_safe n type entry i v : 0 <= i -> 0 <= e_phoff data ->
  e_phoff data + 32 * (i + Z.of_nat n) <= available data ->
  safe (validate_loop data n type entry (e_phoff data) i v) (fun _ => True).
Proof.
  revert i v. induction n as [|n IH]; intros i v Hi Hp Hs; cbn [validate_loop]; [done|].
  apply safe_bind with (P := fun _ => True); [|intros v' _; apply IH; lia]. unfold ELF32_PROGRAM_HEADER_SIZE. rewrite (u32_id (i * 32)) by (unfold is_u32; lia).
  rewrite u32_id by (unfold is_u32; lia). unfold validate_header.
  unfold ELF_PT_TYPE_OFFSET, ELF_PT_OFFSET_OFFSET, ELF_PT_VADDR_OFFSET, ELF_PT_FILESZ_OFFSET, ELF_PT_MEMSZ_OFFSET,
    ELF_PT_FLAGS_OFFSET, ELF_PT_ALIGN_OFFSET. rewrite !u32_id by (unfold is_u32; lia). rewrite !elf_read_u32 by lia. cbn [bind].
  apply safe_require. intros _. case_if; [done|]. apply check_segment_safe.
Qed.

Lemma validate_safe : safe (elf_validate_image data) (fun _ => True).
Proof.
  unfold elf_validate_image, ELF32_HEADER_SIZE, ELF_MAX_PROGRAM_HEADERS, ELF32_PROGRAM_HEADER_SIZE.
  unfold ELF_TYPE_OFFSET, ELF_MACHINE_OFFSET, ELF_VERSION_OFFSET, ELF_ENTRY_OFFSET, ELF_PHOFF_OFFSET, ELF_EHSIZE_OFFSET,
    ELF_PHENTSIZE_OFFSET, ELF_PHNUM_OFFSET. apply safe_require. intros Hlen.
  unfold byte_is, u16_is, u32_is. rewrite !byte_in by lia. rewrite !elf_read_u16, !elf_read_u32 by lia. cbn [bind].
  do 12 (apply safe_require; intros _). apply safe_require. intros Hg. split_bools.
  pose proof (le16_u16 data 44 Hdata) as Hn. pose proof (le32_u32 data 28 Hdata) as Hp. unfold is_u16 in Hn.
  rewrite u32_id in * by (unfold is_u32; lia). rewrite range_spec in * by (done || apply available_u32 || (unfold is_u32; lia)).
  unfold is_u32 in Hp. eapply safe_bind; [apply validate_loop_safe; unfold e_phoff; lia|]. intros v _. by apply safe_require.
Qed.

End image.
