(* ===== verification/ElfPlace.v ===== *)
(** * ELF images: bounds and load bias

    On an accepted image [image_bounds] computes the hull of the pages of its segments, and
    [dyn_bias_range] picks the first fitting candidate of its generator: the image moved by the
    bias lies in the user area, above the stack, on pages that are not mapped. *)

From S2P Require Import Prelude Checked Elf ElfSpec.
Local Open Scope c_scope.
Local Open Scope Z_scope.

(** ** Hull *)

Definition occupied (h : program_header) : bool := loadable h && negb (p_memsz h =? 0).

Definition extend (b : Z * Z) (h : program_header) : Z * Z :=
  if occupied h then (Z.min (4096 * first_page h) b.1, Z.max (4096 * last_page h) b.2) else b.

Definition hull (l : list program_header) (b : Z * Z) : Z * Z := foldl extend b l.

Lemma occupied_order h : header_u32 h -> occupied h = true -> 0 <= first_page h /\ first_page h < last_page h.
Proof.
  intros (_ & _ & Hva & _ & Hm & _) Ho. unfold occupied, first_page, last_page, is_u32 in *. split_bools. dmlia.
Qed.

(** The hull contains every occupied page and nothing beyond. *)
Record hull_of (l : list program_header) (b r : Z * Z) : Prop := {
  hull_low : r.1 <= b.1 /\ (r.1 = b.1 \/ exists h, h ∈ l /\ occupied h = true /\ r.1 = 4096 * first_page h);
  hull_high : b.2 <= r.2 /\ (r.2 = b.2 \/ exists h, h ∈ l /\ occupied h = true /\ r.2 = 4096 * last_page h);
  hull_in : forall h, h ∈ l -> occupied h = true -> r.1 <= 4096 * first_page h /\ 4096 * last_page h <= r.2
}.

Lemma hull_spec l b : hull_of l b (hull l b).
Proof.
  unfold hull. revert b. induction l as [|h l IH]; intros b; cbn [foldl].
  { split; [split; [lia|by left]|split; [lia|by left]|]. by intros h ?%not_elem_of_nil. }
  destruct (IH (extend b h)) as [[L1 L2] [H1 H2] HI]. unfold extend in *.
  destruct (occupied h) eqn:Eo; cbn [fst snd] in *.
  - split.
    + split; [lia|]. destruct L2 as [E|(g & Hg & Ho & E)]; [|right; exists g; rewrite elem_of_cons; auto].
      destruct (Z.min_spec (4096 * first_page h) b.1) as [[_ Em]|[_ Em]]; [|left; lia].
      right. exists h. rewrite elem_of_cons. split; [by left|]. split; [done|lia].
    + split; [lia|]. destruct H2 as [E|(g & Hg & Ho & E)]; [|right; exists g; rewrite elem_of_cons; auto].
      destruct (Z.max_spec (4096 * last_page h) b.2) as [[_ Em]|[_ Em]]; [left; lia|].
      right. exists h. rewrite elem_of_cons. split; [by left|]. split; [done|lia].
    + intros g Hg Hog. apply elem_of_cons in Hg as [->|Hg]; [lia|by apply HI].
  - split.
    + split; [done|]. destruct L2 as [E|(g & Hg & Ho & E)]; [by left|right; exists g; rewrite elem_of_cons; auto].
    + split; [done|]. destruct H2 as [E|(g & Hg & Ho & E)]; [by left|right; exists g; rewrite elem_of_cons; auto].
    + intros g Hg Hog. apply elem_of_cons in Hg as [->|Hg]; [congruence|by apply HI].
Qed.

Section image.
Context (data : list Z) (Hdata : bytes_ok data) (Hsize : available data < 4294967296).

Lemma bound_header_ok type o b : 0 <= o -> o + 32 <= available data ->
  header_ok (available data) type (header_at data o) ->
  bound_header data type o b = Ok (extend b (header_at data o)).
Proof.
  intros Ho Hs Hok. unfold bound_header.
  unfold ELF_PT_TYPE_OFFSET, ELF_PT_VADDR_OFFSET, ELF_PT_MEMSZ_OFFSET. rewrite !u32_id by (unfold is_u32; lia).
  rewrite Z.add_0_r, !elf_read_u32 by (done || lia). cbn [bind]. set (h := header_at data o) in *.
  change (le32 data o) with (p_type h). change (le32 data (o + 8)) with (p_vaddr h). change (le32 data (o + 20)) with (p_memsz h).
  unfold extend, occupied, loadable, ELF_PT_LOAD. destruct (p_type h =? 1) eqn:El; [|done]. cbn [negb andb].
  destruct (p_memsz h =? 0) eqn:Em; [done|]. cbn [negb].
  destruct Hok as [_ Hok]. destruct (Hok El) as [(_ & _ & [V1 V2] & Hfix & _) _].
  pose proof (header_at_u32 data o Hdata) as Hh. fold h in Hh. pose proof (segment_pages h Hh V2) as (-> & -> & -> & P1 & P2).
  destruct Hh as (_ & _ & Hva & _ & Hm & _). unfold is_u32 in *. unfold USER_MAX_ADDRESS, USER_MIN_ADDRESS, ELF_ET_EXEC.
  rewrite (u32_id (_ - p_vaddr h)) by (unfold is_u32; lia).
  replace (negb ((0x40000000 <=? p_vaddr h) || _)) with true by lia. cbn [bind require].
  assert (Hmin : type = 2 -> 0x400000 <= 4096 * first_page h) by (intros E; specialize (Hfix E); unfold first_page; dmlia).
  replace (negb _) with true by lia. cbn [bind require]. f_equal. f_equal; case_if; lia.
Qed.

Lemma bounds_loop_ok type n i b : 0 <= i -> 0 <= e_phoff data -> e_phoff data + 32 * (i + Z.of_nat n) <= available data ->
  Forall (header_ok (available data) type) (headers_from data n i) ->
  bounds_loop data n type (e_phoff data) i b = Ok (hull (headers_from data n i) b).
Proof.
  revert i b. induction n as [|n IH]; intros i b Hi Hp Hs HF; cbn [bounds_loop]; [done|].
  rewrite headers_from_cons in *. unfold ELF32_PROGRAM_HEADER_SIZE. rewrite (u32_id (i * 32)) by (unfold is_u32; lia).
  rewrite u32_id by (unfold is_u32; lia). replace (i * 32) with (32 * i) by lia.
  pose proof (Forall_inv HF) as H1. cbn beta in H1. rewrite bound_header_ok by (done || lia). cbn [bind].
  rewrite IH by (lia || done || exact (Forall_inv_tail HF)). done.
Qed.

Lemma occupied_ok h : elf_ok data -> h ∈ headers data -> occupied h = true ->
  header_u32 h /\ segment_ok (available data) (e_type data) h.
Proof.
  intros Hok Hh Ho. apply list_elem_of_lookup in Hh as [k Hk]. split.
  - apply (Forall_lookup_1 _ _ _ _ (headers_from_u32 data Hdata _ _) Hk).
  - destruct (Forall_lookup_1 _ _ _ _ (ok_headers _ Hok) Hk) as [_ H]. apply H. unfold occupied in Ho. split_bools. done.
Qed.

(** Bounds of an accepted image. *)
Lemma image_bounds_ok : elf_ok data -> exists r,
  image_bounds data (e_phoff data) (e_phnum data) (e_type data) = Ok r /\ hull_of (headers data) (0x40000000, 0) r /\
  0 <= r.1 < r.2 /\ r.2 <= 0x40000000 /\ r.1 mod 4096 = 0 /\ r.2 mod 4096 = 0 /\ (e_type data = 2 -> 0x400000 <= r.1).
Proof.
  intros Hok. pose proof (ok_phnum _ Hok) as Hn. pose proof (ok_phoff _ Hok) as Hp.
  pose proof (le32_u32 data 28 Hdata) as Hpo. change (le32 data 28) with (e_phoff data) in Hpo. unfold is_u32 in Hpo.
  unfold image_bounds, USER_MAX_ADDRESS. rewrite bounds_loop_ok by (lia || apply Hok). fold (headers data). cbn [bind].
  set (r := hull (headers data) (0x40000000, 0)). pose proof (hull_spec (headers data) (0x40000000, 0)) as Hhull. fold r in Hhull.
  assert (Hall : forall h, h ∈ headers data -> occupied h = true ->
    0 <= first_page h < last_page h /\ 4096 * last_page h <= 0x40000000 /\ (e_type data = 2 -> 0x400000 <= 4096 * first_page h)).
  { intros h Hh Ho. destruct (occupied_ok h Hok Hh Ho) as [Hu [(_ & _ & [V1 V2] & Hfix & _) _]].
    pose proof (occupied_order h Hu Ho). pose proof (segment_pages h Hu V2) as (_ & _ & _ & P1 & P2). split; [lia|]. split; [lia|].
    intros E. specialize (Hfix E). unfold first_page. dmlia. }
  destruct (existsb_exists (has_code (e_entry data)) (headers data)) as [Hex _].
  destruct (Hex (ok_entry _ Hok)) as (g & Hg%list_elem_of_In & Hcode).
  assert (Hgo : occupied g = true) by (unfold has_code, occupied in *; lia).
  destruct (Hall g Hg Hgo) as (G1 & G2 & _). pose proof Hhull as [[L1 L2] [H1 H2] HI]. cbn [fst snd] in L1, L2, H1, H2.
  destruct (HI g Hg Hgo) as [HI1 HI2].
  assert (Hlow : exists h, h ∈ headers data /\ occupied h = true /\ r.1 = 4096 * first_page h) by (destruct L2; [lia|done]).
  assert (Hhigh : exists h, h ∈ headers data /\ occupied h = true /\ r.2 = 4096 * last_page h) by (destruct H2; [lia|done]).
  destruct Hlow as (a & Ha & Hao & Ea). destruct Hhigh as (c & Hc & Hco & Ec).
  pose proof (Hall a Ha Hao). pose proof (Hall c Hc Hco). exists r.
  replace (negb _) with true by lia. cbn [bind require].
  split; [done|]. split; [done|]. split; [lia|]. split; [lia|].
  split; [rewrite Ea, Z.mul_comm; apply Z.mod_mul; lia|]. split; [rewrite Ec, Z.mul_comm; apply Z.mod_mul; lia|]. lia.
Qed.

End image.

(** ** Load bias *)

(** The generator stays nonzero, so it is seeded once. *)
Lemma next_nonzero e state : is_u32 (state_address e) -> (forall r, hardware_random e = Some r -> is_u32 r) ->
  is_u32 (pit_ticks e) -> is_u32 state ->
  is_u32 (next_load_bias_random e state) /\ next_load_bias_random e state <> 0.
Proof.
  intros Ha Hr Hp Hs. unfold next_load_bias_random.
  assert (H0 : is_u32 (if state =? 0 then seed e else state) /\ (if state =? 0 then seed e else state) <> 0).
  { destruct (state =? 0) eqn:E; [|split; [done|lia]]. unfold seed.
    assert (Hx : is_u32 (Z.lxor (match hardware_random e with Some r => Z.lxor (Z.lxor (state_address e) 0x7E31A5C9) r
      | None => Z.lxor (state_address e) 0x7E31A5C9 end) (pit_ticks e))).
    { apply lxor_u32; [|done]. assert (is_u32 (Z.lxor (state_address e) 0x7E31A5C9)) by (apply lxor_u32; [done|unfold is_u32; lia]).
      destruct (hardware_random e) eqn:Eh; [apply lxor_u32; [done|by apply Hr]|done]. }
    case_if; [unfold is_u32; lia|split; [done|lia]]. }
  destruct H0 as [U0 N0]. set (a := if state =? 0 then seed e else state) in *. cbv zeta.
  assert (H1 : is_u32 (Z.lxor a (shl32 a 13)) /\ Z.lxor a (shl32 a 13) <> 0).
  { split; [apply lxor_u32; [done|apply u32_range]|]. intros E%Z.lxor_eq. unfold shl32, u32, is_u32 in *.
    rewrite Z.shiftl_mul_pow2 in E by lia. pose proof (Z.div_mod (a * 2 ^ 13) 4294967296). lia. }
  destruct H1 as [U1 N1]. set (b := Z.lxor a (shl32 a 13)) in *.
  assert (H2 : is_u32 (Z.lxor b (Z.shiftr b 17)) /\ Z.lxor b (Z.shiftr b 17) <> 0).
  { assert (Hb : is_u32 (Z.shiftr b 17)) by (unfold is_u32 in *; rewrite Z.shiftr_div_pow2 by lia; dmlia).
    split; [by apply lxor_u32|]. intros E%Z.lxor_eq. unfold is_u32 in *. rewrite Z.shiftr_div_pow2 in E by lia. dmlia. }
  destruct H2 as [U2 N2]. set (c := Z.lxor b (Z.shiftr b 17)) in *.
  split; [apply lxor_u32; [done|apply u32_range]|]. intros E%Z.lxor_eq. unfold shl32, u32, is_u32 in *.
  rewrite Z.shiftl_mul_pow2 in E by lia. pose proof (Z.div_mod (c * 2 ^ 5) 4294967296). lia.
Qed.

Section bias.
Context (e : entropy) (mapped : Z -> bool).
Context (Ha : is_u32 (state_address e)) (Hr : forall r, hardware_random e = Some r -> is_u32 r) (Hp : is_u32 (pit_ticks e)).

(** The biases the generator proposes: pages of the area for moved images. *)
Definition candidate (state : Z) : Z := 0x2000000 + state mod 0x2E000 * 4096.

Fixpoint candidates (n : nat) (state : Z) : list Z :=
  match n with
  | O => []
  | S n => let state := next_load_bias_random e state in candidate state :: candidates n state
  end.

(** The image with these bounds can be moved by [c]. *)
Definition fits (lo hi c : Z) : bool :=
  (lo <=? c) && (c + hi <=? 0x40000000) &&
  all_range 0 ((hi - lo) / 4096) (fun k => negb (mapped (c + lo + 4096 * k))).

Lemma free_pages_spec m n page : (m <= n)%nat -> 0 <= page -> page + 4096 * Z.of_nat m <= 0x40000000 ->
  free_pages mapped n page (page + 4096 * Z.of_nat m) = page + 4096 * Z.of_nat m <->
  forall k, 0 <= k < Z.of_nat m -> mapped (page + 4096 * k) = false.
Proof.
  revert n page. induction m as [|m IH]; intros n page Hn Hpg Hmax.
  { replace (page + 4096 * Z.of_nat 0) with page by lia. split; [lia|]. intros _. destruct n; cbn [free_pages]; [done|].
    by replace (page <? page) with false by lia. }
  destruct n as [|n]; [lia|]. cbn [free_pages]. replace (page <? _) with true by lia. cbn [negb].
  destruct (mapped page) eqn:Em.
  { split; [lia|]. intros H. specialize (H 0 ltac:(lia)). rewrite Z.mul_0_r, Z.add_0_r in H. congruence. }
  unfold PAGE_SIZE. rewrite u32_id by (unfold is_u32; lia).
  replace (page + 4096 * Z.of_nat (S m)) with (page + 4096 + 4096 * Z.of_nat m) by lia. rewrite IH by lia. split; intros H k Hk.
  - destruct (decide (k = 0)) as [->|]; [by rewrite Z.mul_0_r, Z.add_0_r|].
    replace (page + 4096 * k) with (page + 4096 + 4096 * (k - 1)) by lia. apply H. lia.
  - replace (page + 4096 + 4096 * k) with (page + 4096 * (k + 1)) by lia. apply H. lia.
Qed.

Lemma candidate_range state : is_u32 state ->
  0x2000000 <= candidate state < 0x30000000 /\ candidate state mod 4096 = 0 /\
  USER_DYN_BASE_MIN +32 ((state mod ((USER_DYN_BASE_MAX -32 USER_DYN_BASE_MIN) / PAGE_SIZE)) *32 PAGE_SIZE) = candidate state.
Proof.
  intros Hs. change ((USER_DYN_BASE_MAX -32 USER_DYN_BASE_MIN) / PAGE_SIZE) with 0x2E000.
  unfold candidate, USER_DYN_BASE_MIN, PAGE_SIZE. pose proof (Z.mod_pos_bound state 0x2E000 ltac:(lia)).
  rewrite (u32_id (_ * 4096)) by (unfold is_u32; lia). rewrite u32_id by (unfold is_u32; lia). split; [lia|]. split; [|done]. dmlia.
Qed.

Lemma candidates_range n state : is_u32 state -> forall c, c ∈ candidates n state ->
  0x2000000 <= c < 0x30000000 /\ c mod 4096 = 0.
Proof.
  revert state. induction n as [|n IH]; intros state Hs c; cbn [candidates]; [by intros ?%not_elem_of_nil|].
  destruct (next_nonzero e state Ha Hr Hp Hs) as [Hu _]. intros [->|Hc]%elem_of_cons; [|by eapply IH].
  destruct (candidate_range _ Hu) as (C1 & C2 & _). done.
Qed.

Lemma bias_loop_spec n lo hi state : 0 <= lo < hi -> hi - lo <= 0x400000 -> hi <= 0x3E000000 -> lo mod 4096 = 0 -> hi mod 4096 = 0 ->
  is_u32 state ->
  fst (bias_loop e mapped n lo hi ((USER_DYN_BASE_MAX -32 USER_DYN_BASE_MIN) / PAGE_SIZE) state) =
  find (fits lo hi) (candidates n state).
Proof.
  intros Hlo Hspan Hhi Al Ah. revert state. induction n as [|n IH]; intros state Hs; cbn [bias_loop candidates find]; [done|]. cbv zeta.
  destruct (next_nonzero e state Ha Hr Hp Hs) as [Hu _]. set (next := next_load_bias_random e state) in *.
  destruct (candidate_range next Hu) as (C1 & C2 & ->). set (c := candidate next) in *.
  unfold USER_MAX_ADDRESS. rewrite (u32_id (0x40000000 - hi)) by (unfold is_u32; lia).
  unfold fits at 1. destruct (Z_le_gt_dec lo c) as [L1|L1].
  2: { replace (c <? lo) with true by lia. replace (lo <=? c) with false by lia. cbn [orb andb]. by apply IH. }
  destruct (Z_le_gt_dec (c + hi) 0x40000000) as [L2|L2].
  2: { replace ((c <? lo) || _) with true by lia. replace ((lo <=? c) && _) with false by lia. cbn [andb]. by apply IH. }
  replace ((c <? lo) || _) with false by lia. replace ((lo <=? c) && _) with true by lia. cbn [andb].
  rewrite !(u32_id (c + _)) by (unfold is_u32; lia). rewrite (u32_id (c + hi - _)) by (unfold is_u32; lia).
  unfold overlaps_reserved_stack at 1, USER_STACK_RESERVED_END. replace (_ || (0x1800000 <=? c + lo)) with true by lia.
  assert (Hend : c + hi = c + lo + 4096 * Z.of_nat (Z.to_nat ((hi - lo) / 4096))) by dmlia.
  pose proof (free_pages_spec (Z.to_nat ((hi - lo) / 4096)) (Z.to_nat ELF_MAX_IMAGE_PAGES) (c + lo)
    ltac:(unfold ELF_MAX_IMAGE_PAGES; dmlia) ltac:(lia) ltac:(lia)) as Hfree. rewrite <- Hend in Hfree.
  destruct (all_range 0 ((hi - lo) / 4096) _) eqn:Eall.
  - rewrite all_range_true in Eall. replace (_ =? c + hi) with true; [done|]. symmetry. apply Z.eqb_eq, Hfree.
    intros k Hk. apply negb_true_iff, Eall. lia.
  - replace (_ =? c + hi) with false; [by apply IH|]. symmetry. apply Z.eqb_neq. intros Hf. pose proof (proj1 Hfree Hf) as Hf'.
    apply not_true_iff_false in Eall. apply Eall, all_range_true. intros k Hk. apply negb_true_iff, Hf'. lia.
Qed.

Lemma dyn_bias_spec lo hi state : 0 <= lo < hi -> hi <= 0x40000000 -> lo mod 4096 = 0 -> hi mod 4096 = 0 -> is_u32 state ->
  fst (dyn_bias_range e mapped lo hi state) =
  if (hi - lo <=? 0x400000) && (hi <=? 0x3E000000) then find (fits lo hi) (candidates 32 state) else None.
Proof.
  intros Hlo Hhi Al Ah Hs. unfold dyn_bias_range. rewrite !page_mask by (unfold is_u32; lia).
  replace (lo / 4096 * 4096) with lo by dmlia. replace (hi / 4096 * 4096) with hi by dmlia.
  unfold USER_MAX_ADDRESS at 1. replace (_ || _) with false by lia. cbv zeta.
  rewrite (u32_id (hi - lo)) by (unfold is_u32; lia).
  change (ELF_MAX_IMAGE_PAGES *32 PAGE_SIZE) with 0x400000. change (USER_DYN_BASE_MAX -32 USER_DYN_BASE_MIN) with 0x2E000000 at 1.
  change (USER_MAX_ADDRESS -32 USER_DYN_BASE_MIN) with 0x3E000000.
  destruct ((hi - lo <=? 0x400000) && (hi <=? 0x3E000000)) eqn:E.
  - replace (_ || _) with false by lia. apply bias_loop_spec; (done || lia).
  - by replace (_ || _) with true by lia.
Qed.

End bias.

(** The first element that passes a test. *)
Lemma find_first_lookup {A} (f : A -> bool) l x : find f l = Some x ->
  exists n, l !! n = Some x /\ f x = true /\ forall m y, (m < n)%nat -> l !! m = Some y -> f y = false.
Proof.
  induction l as [|a l IH]; cbn [find]; [done|]. destruct (f a) eqn:E.
  - intros [= <-]. exists 0%nat. split; [done|]. split; [done|]. lia.
  - intros H. destruct (IH H) as (n & Hn & Hx & Hmin). exists (S n). split; [done|]. split; [done|].
    intros [|m] y Hm; [by intros [= <-]|]. apply Hmin. lia.
Qed.

(** ** Claims *)

(** C33: the validation accepts exactly the well-formed images. On every sequence of bytes it reads only
    the image, and it returns the entry point if and only if the headers are inside the image, every
    loadable segment is inside the file and the user area, none is writable and executable, segments
    at fixed addresses avoid the stack, the image has at most 1024 pages and some data, and the entry
    point lies in an executable segment. *)
Theorem elf_validate_exact data entry : bytes_ok data -> available data < 4294967296 ->
  safe (elf_validate_image data) (fun _ => True) /\
  (elf_validate_image data = Ok entry <-> elf_ok data /\ entry = e_entry data).
Proof.
  intros Hd Hs. split; [by apply validate_safe|]. split; [by apply validate_sound|].
  intros [Hok ->]. by apply validate_complete.
Qed.

Record entropy_ok (e : entropy) : Prop := {
  en_address : is_u32 (state_address e);
  en_random : forall r, hardware_random e = Some r -> is_u32 r;
  en_ticks : is_u32 (pit_ticks e)
}.

(** The segment moved by a bias: inside the user area above the stack, on pages not mapped. *)
Definition placed (mapped : Z -> bool) (bias : Z) (h : program_header) : Prop :=
  0x2000000 <= bias + p_vaddr h /\ bias + p_vaddr h + p_memsz h <= 0x40000000 /\
  forall k, first_page h <= k < last_page h -> mapped (bias + 4096 * k) = false.

Lemma fits_placed mapped lo hi c h l : hull_of l (0x40000000, 0) (lo, hi) -> lo mod 4096 = 0 -> header_u32 h -> h ∈ l ->
  occupied h = true -> 0x2000000 <= c -> fits mapped lo hi c = true -> placed mapped c h.
Proof.
  intros [_ _ Hin] Al Hu Hl Ho Hc Hf. destruct (Hin h Hl Ho) as [I1 I2]. cbn [fst snd] in *.
  unfold fits in Hf. split_bools. rewrite all_range_true in *.
  match goal with H : forall i, _ |- _ => rename H into Hall end.
  pose proof (occupied_order h Hu Ho) as Hord. destruct Hu as (_ & _ & Hva & _ & Hm & _). unfold is_u32 in *.
  assert (Hlast : p_vaddr h + p_memsz h <= 4096 * last_page h) by (unfold last_page; dmlia).
  split; [unfold first_page in *; dmlia|]. split; [lia|]. intros k Hk.
  specialize (Hall (k - lo / 4096) ltac:(dmlia)). replace (c + 4096 * k) with (c + lo + 4096 * (k - lo / 4096)) by dmlia.
  by apply negb_true_iff.
Qed.


Definition sample_image : list Z := set_u32 (set_u32 (set_u16 test_image ELF_TYPE_OFFSET ELF_ET_DYN) ELF_ENTRY_OFFSET 0)
  (ELF32_HEADER_SIZE + ELF_PT_VADDR_OFFSET) 0.

Lemma sample_image_bytes : bytes_ok sample_image.
Proof. repeat (apply Forall_cons_2; [unfold is_u8; vm_compute; split; [discriminate|reflexivity]|]). apply Forall_nil_2. Qed.

Definition sample_entropy : entropy := Build_entropy 0x0010A000 None 17.

Lemma sample_entropy_ok : entropy_ok sample_entropy.
Proof. split; [unfold is_u32; cbn; lia|done|unfold is_u32; cbn; lia]. Qed.

Lemma elf_validate_exact_witness : elf_ok sample_image.
Proof.
  apply (elf_validate_exact sample_image 0 sample_image_bytes ltac:(vm_compute; reflexivity)). vm_compute. reflexivity.
Defined.


(** The boot self test of the loader passes. *)
Lemma elf_loader_self_test_passes : elf_loader_self_test = true.
Proof. vm_compute. reflexivity. Qed.
