(* ===== verification/PagingState.v ===== *)
(** * Paging: state and hardware

    The static variables of [memory/paging.c], the words of its page tables, and what the
    processor does with them: control registers, and the walk that translates an address.

    Page tables are reached through their physical addresses, as the code does: they lie below
    [LOW_IDENTITY_LIMIT], which every address space maps to itself. The bytes of mapped pages are
    kept apart from the tables; a frame is used for one of the two, which the invariant of
    [PagingInv] establishes. The translation lookaside buffer is not modelled: each change of a
    present entry is followed by an invalidation in the code. *)

From S2P Require Import Prelude Pmm.
Local Open Scope c_scope.
Local Open Scope Z_scope.

Definition PAGE_SIZE : Z := 4096.
Definition PAGE_FLAG_WRITABLE : Z := 0x002.
Definition PAGE_FLAG_USER : Z := 0x004.
Definition PAGE_FLAG_CACHE_DISABLE : Z := 0x010.
Definition PAGE_FLAG_EXECUTABLE : Z := 0x200.
Definition PAGE_TABLE_ENTRIES : Z := 1024.
Definition PAE_TABLE_ENTRIES : Z := 512.
Definition PAGE_PRESENT : Z := 0x001.
Definition PAGE_ADDRESS_MASK : Z := 0xFFFFF000.
Definition PAGE_ALLOWED_FLAGS : Z :=
  Z.lor (Z.lor (Z.lor PAGE_FLAG_WRITABLE PAGE_FLAG_USER) PAGE_FLAG_CACHE_DISABLE) PAGE_FLAG_EXECUTABLE.
Definition PAGE_ENABLE : Z := 0x80000000.
Definition PAGE_WRITE_PROTECT : Z := 0x00010000.
Definition LOW_IDENTITY_LIMIT : Z := 0x00400000.
Definition VBE_FRAMEBUFFER_VIRTUAL : Z := 0xE0000000.
Definition VBE_FRAMEBUFFER_PAGES : Z := 768.
Definition USER_ADDRESS_LIMIT : Z := 0xC0000000.
Definition USER_MAPPING_MIN : Z := 0x00400000.
Definition PAGING_MAX_ADDRESS_SPACES : Z := 16.
Definition PAE_PDP_ENTRIES : Z := 4.
Definition PAE_PRESENT : Z := 0x001.
Definition PAE_WRITABLE : Z := 0x002.
Definition PAE_USER : Z := 0x004.
Definition PAE_ADDRESS_MASK : Z := 0x000FFFFFFFFFF000.
Definition PAE_NX : Z := 0x8000000000000000.
Definition CR4_PAE : Z := 0x00000020.
Definition EFER_NXE : Z := 0x00000800.

(** ** State *)

(** The words of a page-table frame, by physical address. *)
Notation tables := (gmap Z (list Z)).

Definition page_at (m : tables) (frame : Z) : list Z := default (replicate 1024 0) (m !! frame).

Definition peek (m : tables) (frame index : Z) : Z := arr (page_at m frame) index.

Definition poke (m : tables) (frame index value : Z) : tables :=
  <[frame := arr_set (page_at m frame) index value]> m.

(** The processor's registers that concern paging; [pdptes] are the four entries it loads from
    the page-directory-pointer table with CR3. *)
Record cpu := {
  cr0 : Z;
  cr3 : Z;
  cr4 : Z;
  efer : Z;
  pdptes : list Z
}.

Record paging := {
  words : tables;
  data : gmap Z Z;
  page_frames : pmm;
  registers : cpu;
  page_directory : Z;
  page_directory_physical : Z;
  kernel_page_directory : Z;
  kernel_page_directory_physical : Z;
  address_spaces : list Z;
  address_space_count : Z;
  paging_enabled : bool;
  paging_pae_enabled : bool;
  paging_pae_nx_enabled : bool;
  pae_pdpt : Z;
  pae_pdpt_physical : Z;
  pae_kernel_pdpt : Z;
  pae_kernel_pdpt_physical : Z;
  pae_address_spaces : list Z;
  pae_address_space_count : Z
}.

Definition set_words (s : paging) (x : tables) : paging :=
  Build_paging x (data s) (page_frames s) (registers s) (page_directory s) (page_directory_physical s)
    (kernel_page_directory s) (kernel_page_directory_physical s) (address_spaces s) (address_space_count s)
    (paging_enabled s) (paging_pae_enabled s) (paging_pae_nx_enabled s) (pae_pdpt s) (pae_pdpt_physical s)
    (pae_kernel_pdpt s) (pae_kernel_pdpt_physical s) (pae_address_spaces s) (pae_address_space_count s).

Definition set_data (s : paging) (x : gmap Z Z) : paging :=
  Build_paging (words s) x (page_frames s) (registers s) (page_directory s) (page_directory_physical s)
    (kernel_page_directory s) (kernel_page_directory_physical s) (address_spaces s) (address_space_count s)
    (paging_enabled s) (paging_pae_enabled s) (paging_pae_nx_enabled s) (pae_pdpt s) (pae_pdpt_physical s)
    (pae_kernel_pdpt s) (pae_kernel_pdpt_physical s) (pae_address_spaces s) (pae_address_space_count s).

Definition set_page_frames (s : paging) (x : pmm) : paging :=
  Build_paging (words s) (data s) x (registers s) (page_directory s) (page_directory_physical s)
    (kernel_page_directory s) (kernel_page_directory_physical s) (address_spaces s) (address_space_count s)
    (paging_enabled s) (paging_pae_enabled s) (paging_pae_nx_enabled s) (pae_pdpt s) (pae_pdpt_physical s)
    (pae_kernel_pdpt s) (pae_kernel_pdpt_physical s) (pae_address_spaces s) (pae_address_space_count s).

Definition set_registers (s : paging) (x : cpu) : paging :=
  Build_paging (words s) (data s) (page_frames s) x (page_directory s) (page_directory_physical s)
    (kernel_page_directory s) (kernel_page_directory_physical s) (address_spaces s) (address_space_count s)
    (paging_enabled s) (paging_pae_enabled s) (paging_pae_nx_enabled s) (pae_pdpt s) (pae_pdpt_physical s)
    (pae_kernel_pdpt s) (pae_kernel_pdpt_physical s) (pae_address_spaces s) (pae_address_space_count s).

(** [page_directory] and [page_directory_physical]. *)
Definition set_page_directory (s : paging) (pointer physical : Z) : paging :=
  Build_paging (words s) (data s) (page_frames s) (registers s) pointer physical
    (kernel_page_directory s) (kernel_page_directory_physical s) (address_spaces s) (address_space_count s)
    (paging_enabled s) (paging_pae_enabled s) (paging_pae_nx_enabled s) (pae_pdpt s) (pae_pdpt_physical s)
    (pae_kernel_pdpt s) (pae_kernel_pdpt_physical s) (pae_address_spaces s) (pae_address_space_count s).

Definition set_kernel_directory (s : paging) (pointer physical : Z) : paging :=
  Build_paging (words s) (data s) (page_frames s) (registers s) (page_directory s) (page_directory_physical s)
    pointer physical (address_spaces s) (address_space_count s)
    (paging_enabled s) (paging_pae_enabled s) (paging_pae_nx_enabled s) (pae_pdpt s) (pae_pdpt_physical s)
    (pae_kernel_pdpt s) (pae_kernel_pdpt_physical s) (pae_address_spaces s) (pae_address_space_count s).

Definition set_spaces (s : paging) (spaces : list Z) (count : Z) : paging :=
  Build_paging (words s) (data s) (page_frames s) (registers s) (page_directory s) (page_directory_physical s)
    (kernel_page_directory s) (kernel_page_directory_physical s) spaces count
    (paging_enabled s) (paging_pae_enabled s) (paging_pae_nx_enabled s) (pae_pdpt s) (pae_pdpt_physical s)
    (pae_kernel_pdpt s) (pae_kernel_pdpt_physical s) (pae_address_spaces s) (pae_address_space_count s).

(** [paging_enabled], [paging_pae_enabled] and [paging_pae_nx_enabled]. *)
Definition set_modes (s : paging) (enabled pae nx : bool) : paging :=
  Build_paging (words s) (data s) (page_frames s) (registers s) (page_directory s) (page_directory_physical s)
    (kernel_page_directory s) (kernel_page_directory_physical s) (address_spaces s) (address_space_count s)
    enabled pae nx (pae_pdpt s) (pae_pdpt_physical s)
    (pae_kernel_pdpt s) (pae_kernel_pdpt_physical s) (pae_address_spaces s) (pae_address_space_count s).

(** [pae_pdpt] and [pae_pdpt_physical]. *)
Definition set_pdpt (s : paging) (pointer physical : Z) : paging :=
  Build_paging (words s) (data s) (page_frames s) (registers s) (page_directory s) (page_directory_physical s)
    (kernel_page_directory s) (kernel_page_directory_physical s) (address_spaces s) (address_space_count s)
    (paging_enabled s) (paging_pae_enabled s) (paging_pae_nx_enabled s) pointer physical
    (pae_kernel_pdpt s) (pae_kernel_pdpt_physical s) (pae_address_spaces s) (pae_address_space_count s).

Definition set_kernel_pdpt (s : paging) (pointer physical : Z) : paging :=
  Build_paging (words s) (data s) (page_frames s) (registers s) (page_directory s) (page_directory_physical s)
    (kernel_page_directory s) (kernel_page_directory_physical s) (address_spaces s) (address_space_count s)
    (paging_enabled s) (paging_pae_enabled s) (paging_pae_nx_enabled s) (pae_pdpt s) (pae_pdpt_physical s)
    pointer physical (pae_address_spaces s) (pae_address_space_count s).

Definition set_pae_spaces (s : paging) (spaces : list Z) (count : Z) : paging :=
  Build_paging (words s) (data s) (page_frames s) (registers s) (page_directory s) (page_directory_physical s)
    (kernel_page_directory s) (kernel_page_directory_physical s) (address_spaces s) (address_space_count s)
    (paging_enabled s) (paging_pae_enabled s) (paging_pae_nx_enabled s) (pae_pdpt s) (pae_pdpt_physical s)
    (pae_kernel_pdpt s) (pae_kernel_pdpt_physical s) spaces count.

(** ** Accesses *)

(** [frame[index]] and its update. *)
Definition entry_at (s : paging) (frame index : Z) : Z := peek (words s) frame index.

Definition set_entry (frame index value : Z) (s : paging) : paging :=
  set_words s (poke (words s) frame index value).

(** [clear_page]: the loop over the words of the page. *)
Definition clear_page (page : Z) (s : paging) : paging :=
  for_loop 0 PAGE_TABLE_ENTRIES (fun index s => set_entry page index 0 s) s.

(** Calls into the frame allocator. *)
Definition alloc_low (s : paging) : Z * paging :=
  let '(physical, f) := pmm_alloc_block_below LOW_IDENTITY_LIMIT (page_frames s) in
  (physical, set_page_frames s f).

Definition free_frame (physical : Z) (s : paging) : paging :=
  set_page_frames s (pmm_free_block physical (page_frames s)).

Definition claim_frame (physical : Z) (s : paging) : bool * paging :=
  let '(ok, f) := pmm_claim_user_block physical (page_frames s) in (ok, set_page_frames s f).

Definition release_frame (physical : Z) (s : paging) : paging :=
  set_page_frames s (pmm_release_user_block physical (page_frames s)).

(** ** Hardware *)

(** A 64-bit entry of a table in memory. *)
Definition entry64 (m : tables) (frame index : Z) : Z :=
  Z.lor (shl64 (peek m frame (2 * index + 1)) 32) (peek m frame (2 * index)).

(** [mov cr3]: with physical address extension the processor loads the four pointer entries. *)
Definition load_cr3 (value : Z) (s : paging) : paging :=
  let r := registers s in
  set_registers s (Build_cpu (cr0 r) value (cr4 r) (efer r)
    (if flag (cr4 r) CR4_PAE then entry64 (words s) value <$> seqZ 0 4 else pdptes r)).

(** [invlpg] has no effect beyond the lookaside buffer. *)
Definition invalidate_page (virtual_address : Z) (s : paging) : paging := s.

Definition flush_tlb (s : paging) : paging :=
  if paging_enabled s then load_cr3 (page_directory_physical s) s else s.

(** The result of a walk: the frame, and what the entries on the way allow. *)
Record translation := { t_frame : Z; t_write : bool; t_user : bool }.

(** Two levels of 32-bit entries. *)
Definition walk32 (m : tables) (directory virtual_address : Z) : option translation :=
  let pde := peek m directory (Z.shiftr virtual_address 22) in
  if negb (flag pde 1) then None else
  let pte := peek m (Z.land pde PAGE_ADDRESS_MASK) (Z.land (Z.shiftr virtual_address 12) 0x3FF) in
  if negb (flag pte 1) then None else
  Some (Build_translation (Z.land pte PAGE_ADDRESS_MASK) (flag pde 2 && flag pte 2) (flag pde 4 && flag pte 4)).

(** Three levels of 64-bit entries, from the loaded pointer entries; [true] for an instruction fetch
    with the no-execute bit active. *)
Definition walk64 (m : tables) (pointers : list Z) (fetch_nx : bool) (virtual_address : Z) : option translation :=
  let pdpte := arr pointers (Z.shiftr virtual_address 30) in
  if negb (flag pdpte 1) then None else
  let pde := entry64 m (Z.land pdpte PAE_ADDRESS_MASK) (Z.land (Z.shiftr virtual_address 21) 0x1FF) in
  if negb (flag pde 1) then None else
  let pte := entry64 m (Z.land pde PAE_ADDRESS_MASK) (Z.land (Z.shiftr virtual_address 12) 0x1FF) in
  if negb (flag pte 1) || (fetch_nx && (flag pde PAE_NX || flag pte PAE_NX)) then None else
  Some (Build_translation (Z.land pte PAE_ADDRESS_MASK) (flag pde 2 && flag pte 2) (flag pde 4 && flag pte 4)).

(** The translation the processor uses for data. *)
Definition translate (s : paging) (virtual_address : Z) : option translation :=
  let r := registers s in
  if negb (flag (cr0 r) PAGE_ENABLE) then
    Some (Build_translation (Z.land virtual_address PAGE_ADDRESS_MASK) true true)
  else if flag (cr4 r) CR4_PAE then walk64 (words s) (pdptes r) false virtual_address
  else walk32 (words s) (Z.land (cr3 r) PAGE_ADDRESS_MASK) virtual_address.

(** For an instruction fetch, with the no-execute bit when the processor has it on. *)
Definition translate_fetch (s : paging) (virtual_address : Z) : option translation :=
  let r := registers s in
  if negb (flag (cr0 r) PAGE_ENABLE) then
    Some (Build_translation (Z.land virtual_address PAGE_ADDRESS_MASK) true true)
  else if flag (cr4 r) CR4_PAE then walk64 (words s) (pdptes r) (flag (efer r) EFER_NXE) virtual_address
  else walk32 (words s) (Z.land (cr3 r) PAGE_ADDRESS_MASK) virtual_address.

(** Loads and stores of the kernel; [None] is a page fault. Writing needs a writable page, since
    write protection is on with paging. *)
Definition load_byte (s : paging) (virtual_address : Z) : option Z :=
  match translate s virtual_address with
  | Some t => Some (default 0 (data s !! (t_frame t + virtual_address mod 4096)))
  | None => None
  end.

Definition store_byte (virtual_address value : Z) (s : paging) : option paging :=
  match translate s virtual_address with
  | Some t => if t_write t
              then Some (set_data s (<[t_frame t + virtual_address mod 4096 := value]> (data s)))
              else None
  | None => None
  end.
