(* ===== verification/PagingPae.v ===== *)
(** * Paging with physical address extension

    The [pae_] functions of [memory/paging.c]: three levels of 64-bit entries. A pointer to an entry
    is a frame and an index; a null pointer is 0. *)

From S2P Require Import Prelude BootInfo Pmm PagingState.
Local Open Scope c_scope.
Local Open Scope Z_scope.

(** ** Entries *)

Definition pae_entry_value (s : paging) (table index : Z) : Z :=
  let low := entry_at s table (2 * index) in
  let high := entry_at s table (2 * index + 1) in
  Z.lor (shl64 high 32) low.

Definition pae_set_entry (table index value : Z) (s : paging) : paging :=
  let s := set_entry table (2 * index) (u32 value) s in
  set_entry table (2 * index + 1) (u32 (Z.shiftr value 32)) s.

Definition clear_pae_page (page : Z) (s : paging) : paging :=
  for_loop 0 PAE_TABLE_ENTRIES (fun index s =>
    let s := set_entry page (2 * index) 0 s in set_entry page (2 * index + 1) 0 s) s.

Definition pae_entry_physical (s : paging) (table index : Z) : Z :=
  u32 (Z.land (pae_entry_value s table index) PAE_ADDRESS_MASK).

Definition pae_entry_present (s : paging) (table index : Z) : bool :=
  flag (pae_entry_value s table index) PAE_PRESENT.

Definition pae_flags_to_entry (s : paging) (physical_address flags : Z) : Z :=
  let value := Z.lor (Z.lor (Z.lor (Z.lor physical_address PAE_PRESENT)
    (if flag flags PAGE_FLAG_WRITABLE then PAE_WRITABLE else 0))
    (if flag flags PAGE_FLAG_USER then PAE_USER else 0))
    (Z.land flags PAGE_FLAG_CACHE_DISABLE) in
  let value := if flag flags PAGE_FLAG_EXECUTABLE then Z.lor value PAGE_FLAG_EXECUTABLE else value in
  if paging_pae_nx_enabled s && negb (flag flags PAGE_FLAG_EXECUTABLE) then Z.lor value PAE_NX else value.

(** ** Walking *)

Definition pae_page_directory_for (s : paging) (directory pdpt_index : Z) : Z :=
  if (directory =? 0) || (PAE_PDP_ENTRIES <=? pdpt_index) || negb (pae_entry_present s directory pdpt_index)
  then 0 else pae_entry_physical s directory pdpt_index.

Definition pae_get_page_table_for (s : paging) (directory virtual_address : Z) : Z :=
  let page_directory := pae_page_directory_for s directory (Z.shiftr virtual_address 30) in
  if page_directory =? 0 then 0 else
  let index := Z.land (Z.shiftr virtual_address 21) 0x1FF in
  if negb (pae_entry_present s page_directory index) then 0
  else pae_entry_physical s page_directory index.

Definition pae_get_page_table (s : paging) (virtual_address : Z) : Z :=
  pae_get_page_table_for s (pae_pdpt_physical s) virtual_address.

Definition pae_uses_shared_kernel_table (s : paging) (virtual_address : Z) : bool :=
  let kernel_directory :=
    pae_page_directory_for s (pae_kernel_pdpt_physical s) (Z.shiftr virtual_address 30) in
  let current_directory := pae_page_directory_for s (pae_pdpt_physical s) (Z.shiftr virtual_address 30) in
  let index := Z.land (Z.shiftr virtual_address 21) 0x1FF in
  if (pae_pdpt s =? 0) || (pae_kernel_pdpt s =? 0) ||
     (pae_pdpt_physical s =? pae_kernel_pdpt_physical s) ||
     (kernel_directory =? 0) || (current_directory =? 0) then false
  else pae_entry_present s kernel_directory index && pae_entry_present s current_directory index &&
       (pae_entry_physical s kernel_directory index =? pae_entry_physical s current_directory index).

Definition pae_page_table_allows_user_mappings (s : paging) (table : Z) : bool :=
  if table =? 0 then false else
  all_range 0 PAE_TABLE_ENTRIES (fun index =>
    negb (pae_entry_present s table index && negb (flag (pae_entry_value s table index) PAE_USER))).

(** The first half of [pae_ensure_page_table]: the page directory, made if it is missing. *)
Definition pae_ensure_directory (pdpt_index : Z) (s : paging) : Z * paging :=
  let page_directory := pae_page_directory_for s (pae_pdpt_physical s) pdpt_index in
  if negb (page_directory =? 0) then (page_directory, s) else
  if PAE_PDP_ENTRIES <=? pdpt_index then (0, s) else
  let '(physical, s) := alloc_low s in
  if physical =? 0 then (0, s) else
  let s := clear_pae_page physical s in
  (physical, pae_set_entry (pae_pdpt s) pdpt_index (Z.lor physical PAE_PRESENT) s).

Definition pae_ensure_page_table (virtual_address flags : Z) (s : paging) : Z * paging :=
  let '(page_directory, s) := pae_ensure_directory (Z.shiftr virtual_address 30) s in
  if page_directory =? 0 then (0, s) else
  let index := Z.land (Z.shiftr virtual_address 21) 0x1FF in
  if pae_entry_present s page_directory index then
    if pae_uses_shared_kernel_table s virtual_address then (0, s) else
    if flag flags PAGE_FLAG_USER then
      let table := pae_entry_physical s page_directory index in
      if negb (pae_page_table_allows_user_mappings s table) then (0, s) else
      let s := pae_set_entry page_directory index (Z.lor (pae_entry_value s page_directory index) PAE_USER) s in
      (pae_entry_physical s page_directory index, s)
    else (pae_entry_physical s page_directory index, s)
  else
    let '(physical, s) := alloc_low s in
    if physical =? 0 then (0, s) else
    let s := clear_pae_page physical s in
    (physical, pae_set_entry page_directory index
       (Z.lor (Z.lor (Z.lor physical PAE_PRESENT) PAE_WRITABLE)
          (if flag flags PAGE_FLAG_USER then PAE_USER else 0)) s).

(** ** Operations *)

Definition pae_map_page (virtual_address physical_address flags : Z) (s : paging) : bool * paging :=
  if (pae_pdpt s =? 0) || (virtual_address <? PAGE_SIZE) || (physical_address <? PAGE_SIZE) ||
     flag virtual_address (PAGE_SIZE - 1) || flag physical_address (PAGE_SIZE - 1) ||
     flag flags (not32 PAGE_ALLOWED_FLAGS) ||
     (Z.land flags (Z.lor PAGE_FLAG_WRITABLE PAGE_FLAG_EXECUTABLE) =? Z.lor PAGE_FLAG_WRITABLE PAGE_FLAG_EXECUTABLE) ||
     (flag flags PAGE_FLAG_USER && negb (pmm_block_is_user_owned (page_frames s) physical_address)) ||
     ((pae_pdpt_physical s =? pae_kernel_pdpt_physical s) && flag flags PAGE_FLAG_USER) ||
     pae_uses_shared_kernel_table s virtual_address ||
     (flag flags PAGE_FLAG_USER && ((virtual_address <? USER_MAPPING_MIN) || (USER_ADDRESS_LIMIT <=? virtual_address)))
  then (false, s) else
  let '(table, s) := pae_ensure_page_table virtual_address flags s in
  if table =? 0 then (false, s) else
  let index := Z.land (Z.shiftr virtual_address 12) 0x1FF in
  if pae_entry_present s table index then (false, s) else
  let '(claimed, s) :=
    if flag flags PAGE_FLAG_USER then claim_frame physical_address s else (true, s) in
  if negb claimed then (false, s) else
  let s := pae_set_entry table index (pae_flags_to_entry s physical_address flags) s in
  (true, invalidate_page virtual_address s).

Definition pae_protect_page (virtual_address flags : Z) (s : paging) : bool * paging :=
  if (pae_pdpt s =? 0) || (virtual_address <? PAGE_SIZE) || flag virtual_address (PAGE_SIZE - 1) ||
     (Z.land flags (Z.lor PAGE_FLAG_WRITABLE PAGE_FLAG_EXECUTABLE) =? Z.lor PAGE_FLAG_WRITABLE PAGE_FLAG_EXECUTABLE) ||
     ((pae_pdpt_physical s =? pae_kernel_pdpt_physical s) && flag flags PAGE_FLAG_USER) ||
     pae_uses_shared_kernel_table s virtual_address ||
     (flag flags PAGE_FLAG_USER && ((virtual_address <? USER_MAPPING_MIN) || (USER_ADDRESS_LIMIT <=? virtual_address))) ||
     flag flags (not32 PAGE_ALLOWED_FLAGS)
  then (false, s) else
  let table := pae_get_page_table s virtual_address in
  if table =? 0 then (false, s) else
  let index := Z.land (Z.shiftr virtual_address 12) 0x1FF in
  let value := pae_entry_value s table index in
  if negb (flag value PAE_PRESENT) || negb (Bool.eqb (flag value PAE_USER) (flag flags PAGE_FLAG_USER))
  then (false, s) else
  if flag flags PAGE_FLAG_USER && negb (pmm_block_is_user_owned (page_frames s) (pae_entry_physical s table index))
  then (false, s) else
  let s := pae_set_entry table index (pae_flags_to_entry s (pae_entry_physical s table index) flags) s in
  let s :=
    if flag flags PAGE_FLAG_USER then
      let directory := pae_page_directory_for s (pae_pdpt_physical s) (Z.shiftr virtual_address 30) in
      let slot := 2 * Z.land (Z.shiftr virtual_address 21) 0x1FF in
      set_entry directory slot (u32 (Z.lor (entry_at s directory slot) PAE_USER)) s
    else s in
  (true, invalidate_page virtual_address s).

(** The search loops of [pae_unmap_page]. *)
Definition pae_page_is_empty (s : paging) (page : Z) : bool :=
  all_range 0 PAE_TABLE_ENTRIES (fun index => negb (pae_entry_present s page index)).

Definition pae_unmap_page (virtual_address : Z) (s : paging) : Z * paging :=
  if (pae_pdpt s =? 0) || (virtual_address <? PAGE_SIZE) || flag virtual_address (PAGE_SIZE - 1) ||
     ((pae_pdpt_physical s =? pae_kernel_pdpt_physical s) && (virtual_address <? USER_MAPPING_MIN)) ||
     pae_uses_shared_kernel_table s virtual_address
  then (0, s) else
  let table := pae_get_page_table s virtual_address in
  if table =? 0 then (0, s) else
  let index := Z.land (Z.shiftr virtual_address 12) 0x1FF in
  if negb (pae_entry_present s table index) then (0, s) else
  let value := pae_entry_value s table index in
  let physical := pae_entry_physical s table index in
  let s := pae_set_entry table index 0 s in
  let s := if flag value PAE_USER then release_frame physical s else s in
  let s := invalidate_page virtual_address s in
  if negb (pae_page_is_empty s table) then (physical, s) else
  let directory := pae_page_directory_for s (pae_pdpt_physical s) (Z.shiftr virtual_address 30) in
  let s := pae_set_entry directory (Z.land (Z.shiftr virtual_address 21) 0x1FF) 0 s in
  let s := flush_tlb s in
  let s := free_frame table s in
  if negb (pae_page_is_empty s directory) then (physical, s) else
  let s := pae_set_entry (pae_pdpt s) (Z.shiftr virtual_address 30) 0 s in
  (physical, free_frame directory s).

Definition pae_get_physical (s : paging) (virtual_address : Z) : Z :=
  let table := pae_get_page_table s virtual_address in
  let index := Z.land (Z.shiftr virtual_address 12) 0x1FF in
  if (table =? 0) || negb (pae_entry_present s table index) then 0
  else Z.lor (pae_entry_physical s table index) (Z.land virtual_address (PAGE_SIZE - 1)).

Definition pae_is_mapped (s : paging) (virtual_address : Z) : bool :=
  let table := pae_get_page_table s virtual_address in
  negb (table =? 0) && pae_entry_present s table (Z.land (Z.shiftr virtual_address 12) 0x1FF).

Definition pae_address_space_is_registered (s : paging) (directory : Z) : bool :=
  (directory =? pae_kernel_pdpt_physical s) ||
  match find_first 0 (pae_address_space_count s) (fun index => arr (pae_address_spaces s) index =? directory) with
  | Some _ => true
  | None => false
  end.

(** The body of the loop of [paging_validate_user_range] on one page. *)
Definition pae_user_page_ok (s : paging) (page : Z) (writable : bool) : bool :=
  let directory := pae_page_directory_for s (pae_pdpt_physical s) (Z.shiftr page 30) in
  let table := pae_get_page_table s page in
  let both := Z.lor PAE_PRESENT PAE_USER in
  if (directory =? 0) || (table =? 0) ||
     negb (Z.land (pae_entry_value s directory (Z.land (Z.shiftr page 21) 0x1FF)) both =? both) then false else
  let value := pae_entry_value s table (Z.land (Z.shiftr page 12) 0x1FF) in
  negb (negb (Z.land value both =? both) || (writable && negb (flag value PAE_WRITABLE))).

Definition pae_validate_user_execute (s : paging) (virtual_address : Z) : bool :=
  if (pae_pdpt s =? 0) || (virtual_address <? PAGE_SIZE) || (USER_ADDRESS_LIMIT <=? virtual_address) then false else
  let directory := pae_page_directory_for s (pae_pdpt_physical s) (Z.shiftr virtual_address 30) in
  let table := pae_get_page_table s virtual_address in
  let both := Z.lor PAE_PRESENT PAE_USER in
  if (directory =? 0) || (table =? 0) ||
     negb (Z.land (pae_entry_value s directory (Z.land (Z.shiftr virtual_address 21) 0x1FF)) both =? both)
  then false else
  let value := pae_entry_value s table (Z.land (Z.shiftr virtual_address 12) 0x1FF) in
  (Z.land value (Z.lor both PAE_WRITABLE) =? both) && flag value (Z.shiftl 1 9) &&
  (negb (paging_pae_nx_enabled s) || negb (flag value PAE_NX)).

(** ** Address spaces *)

(** The copy of one page directory. *)
Definition pae_copy_page (from to : Z) (s : paging) : paging :=
  for_loop 0 PAE_TABLE_ENTRIES (fun index s =>
    let s := set_entry to (2 * index) (entry_at s from (2 * index)) s in
    set_entry to (2 * index + 1) (entry_at s from (2 * index + 1)) s) s.

(** The loop over the pointer entries, from [pdpt_index]; [n] are left. *)
Fixpoint pae_create_loop (n : nat) (pdpt_index directory : Z) (s : paging) : bool * paging :=
  match n with
  | O => (true, s)
  | S n =>
      if negb (pae_entry_present s (pae_kernel_pdpt s) pdpt_index)
      then pae_create_loop n (pdpt_index + 1) directory s else
      let '(private_physical, s) := alloc_low s in
      if private_physical =? 0 then
        let s := for_loop 0 pdpt_index (fun index s =>
          if pae_entry_present s directory index then free_frame (pae_entry_physical s directory index) s else s) s in
        (false, free_frame directory s)
      else
        let s := pae_copy_page (pae_entry_physical s (pae_kernel_pdpt s) pdpt_index) private_physical s in
        let s := pae_set_entry directory pdpt_index (Z.lor private_physical PAE_PRESENT) s in
        pae_create_loop n (pdpt_index + 1) directory s
  end.

Definition pae_create_address_space (s : paging) : Z * paging :=
  if (pae_kernel_pdpt s =? 0) || (pae_address_space_count s =? PAGING_MAX_ADDRESS_SPACES) then (0, s) else
  let '(physical, s) := alloc_low s in
  if physical =? 0 then (0, s) else
  let s := clear_pae_page physical s in
  let '(ok, s) := pae_create_loop 4 0 physical s in
  if negb ok then (0, s) else
  (physical, set_pae_spaces s (arr_set (pae_address_spaces s) (pae_address_space_count s) physical)
               (pae_address_space_count s +32 1)).

Definition pae_switch_address_space (directory : Z) (s : paging) : bool * paging :=
  if (directory =? 0) || flag directory (PAGE_SIZE - 1) || negb (pae_address_space_is_registered s directory)
  then (false, s) else
  if directory =? pae_pdpt_physical s then (true, s) else
  let s := set_pdpt s directory directory in
  let s := set_page_directory s (page_directory s) directory in
  (true, flush_tlb s).

(** A page directory of the space that is not the kernel's own. *)
Definition pae_private_directory (s : paging) (directory index : Z) : option Z :=
  let kernel_directory := pae_page_directory_for s (pae_kernel_pdpt_physical s) index in
  let table_directory := pae_page_directory_for s directory index in
  if (table_directory =? 0) ||
     (negb (kernel_directory =? 0) &&
      (pae_entry_physical s directory index =? pae_entry_physical s (pae_kernel_pdpt s) index))
  then None else Some table_directory.

(** A table of it that is not shared with the kernel. *)
Definition pae_private_table (s : paging) (index table_directory table_index : Z) : option Z :=
  let kernel_directory := pae_page_directory_for s (pae_kernel_pdpt_physical s) index in
  if negb (pae_entry_present s table_directory table_index) then None else
  if negb (kernel_directory =? 0) && pae_entry_present s kernel_directory table_index &&
     (pae_entry_physical s table_directory table_index =? pae_entry_physical s kernel_directory table_index)
  then None else Some (pae_entry_physical s table_directory table_index).

(** The first pass: nothing is freed unless every private mapping is a mapped user frame. *)
Definition pae_preflight (s : paging) (directory : Z) : bool :=
  all_range 0 PAE_PDP_ENTRIES (fun index =>
    match pae_private_directory s directory index with
    | None => true
    | Some table_directory =>
        all_range 0 PAE_TABLE_ENTRIES (fun table_index =>
          match pae_private_table s index table_directory table_index with
          | None => true
          | Some table =>
              flag (pae_entry_value s table_directory table_index) PAE_USER &&
              all_range 0 PAE_TABLE_ENTRIES (fun page_index =>
                negb (pae_entry_present s table page_index) ||
                (pmm_block_is_user_owned (page_frames s) (pae_entry_physical s table page_index) &&
                 pmm_user_block_is_mapped (page_frames s) (pae_entry_physical s table page_index)))
          end)
    end).

(** The second pass. *)
Definition pae_free_table (table : Z) (s : paging) : paging :=
  let s := for_loop 0 PAE_TABLE_ENTRIES (fun page_index s =>
    if pae_entry_present s table page_index then
      let physical := pae_entry_physical s table page_index in
      let s := if flag (pae_entry_value s table page_index) PAE_USER then release_frame physical s else s in
      free_frame physical s
    else s) s in
  free_frame table s.

Definition pae_free_directory (index table_directory : Z) (s : paging) : paging :=
  let s := for_loop 0 PAE_TABLE_ENTRIES (fun table_index s =>
    match pae_private_table s index table_directory table_index with
    | None => s
    | Some table => pae_free_table table s
    end) s in
  free_frame table_directory s.

(** Removing the space from the list of registered ones. *)
Definition pae_forget (directory : Z) (s : paging) : paging :=
  match find_first 0 (pae_address_space_count s) (fun index => arr (pae_address_spaces s) index =? directory) with
  | Some index =>
      let last := pae_address_space_count s -32 1 in
      let l := arr_set (pae_address_spaces s) index (arr (pae_address_spaces s) last) in
      set_pae_spaces s (arr_set l last 0) last
  | None => s
  end.

Definition pae_address_space_is_valid (s : paging) (directory : Z) : bool :=
  negb (directory =? 0) && negb (flag directory (PAGE_SIZE - 1)) && pae_address_space_is_registered s directory.

Definition pae_destroy_address_space (directory : Z) (s : paging) : bool * paging :=
  if (directory =? 0) || (directory =? pae_kernel_pdpt_physical s) || (directory =? pae_pdpt_physical s) ||
     negb (pae_address_space_is_valid s directory) then (false, s) else
  if negb (pae_preflight s directory) then (false, s) else
  let s := for_loop 0 PAE_PDP_ENTRIES (fun index s =>
    match pae_private_directory s directory index with
    | None => s
    | Some table_directory => pae_free_directory index table_directory s
    end) s in
  let s := free_frame directory s in
  (true, pae_forget directory s).
