(* ===== verification/Paging.v ===== *)
(** * Paging

    The public operations of [memory/paging.c]. Each tests [paging_pae_enabled] first and calls the
    [pae_] code of [PagingPae]; the two-level code that follows the test is the [legacy_] definition
    of the same name. The linker symbols [__text_start], [__text_end] and [__rodata_end] and the
    processor's features are arguments. *)

From S2P Require Import Prelude BootInfo Pmm Checked PagingState PagingPae.
Local Open Scope c_scope.
Local Open Scope Z_scope.

(** ** Helpers of the two-level tables *)

Definition address_space_is_registered (s : paging) (directory : Z) : bool :=
  (directory =? kernel_page_directory_physical s) ||
  match find_first 0 (address_space_count s) (fun index => arr (address_spaces s) index =? directory) with
  | Some _ => true
  | None => false
  end.

Definition uses_shared_kernel_table (s : paging) (virtual_address : Z) : bool :=
  if (page_directory s =? 0) || (kernel_page_directory s =? 0) ||
     (page_directory s =? kernel_page_directory s) then false else
  let directory_index := Z.shiftr virtual_address 22 in
  let kernel_entry := entry_at s (kernel_page_directory s) directory_index in
  let current_entry := entry_at s (page_directory s) directory_index in
  flag kernel_entry PAGE_PRESENT && flag current_entry PAGE_PRESENT &&
  (Z.land kernel_entry PAGE_ADDRESS_MASK =? Z.land current_entry PAGE_ADDRESS_MASK).

Definition page_table_allows_user_mappings (s : paging) (table : Z) : bool :=
  if table =? 0 then false else
  all_range 0 PAGE_TABLE_ENTRIES (fun index =>
    negb (flag (entry_at s table index) PAGE_PRESENT && negb (flag (entry_at s table index) PAGE_FLAG_USER))).

Definition get_page_table (s : paging) (virtual_address : Z) : Z :=
  if page_directory s =? 0 then 0 else
  let entry := entry_at s (page_directory s) (Z.shiftr virtual_address 22) in
  if negb (flag entry PAGE_PRESENT) then 0 else Z.land entry PAGE_ADDRESS_MASK.

Definition ensure_page_table (virtual_address flags : Z) (s : paging) : Z * paging :=
  let directory_index := Z.shiftr virtual_address 22 in
  let entry := entry_at s (page_directory s) directory_index in
  if flag entry PAGE_PRESENT then
    if uses_shared_kernel_table s virtual_address then (0, s) else
    if flag flags PAGE_FLAG_USER then
      if negb (page_table_allows_user_mappings s (Z.land entry PAGE_ADDRESS_MASK)) then (0, s) else
      let s := set_entry (page_directory s) directory_index
                 (Z.lor (entry_at s (page_directory s) directory_index) PAGE_FLAG_USER) s in
      (Z.land entry PAGE_ADDRESS_MASK, s)
    else (Z.land entry PAGE_ADDRESS_MASK, s)
  else
    let '(table_physical, s) := alloc_low s in
    if table_physical =? 0 then (0, s) else
    let s := clear_page table_physical s in
    (table_physical, set_entry (page_directory s) directory_index
       (Z.lor (Z.lor (Z.lor table_physical PAGE_PRESENT) PAGE_FLAG_WRITABLE) (Z.land flags PAGE_FLAG_USER)) s).

(** ** Mapping, protecting, unmapping *)

Definition legacy_map_page (virtual_address physical_address flags : Z) (s : paging) : bool * paging :=
  if (page_directory s =? 0) || (virtual_address <? PAGE_SIZE) || (physical_address <? PAGE_SIZE) ||
     flag virtual_address (PAGE_SIZE - 1) || flag physical_address (PAGE_SIZE - 1) ||
     flag flags (not32 PAGE_ALLOWED_FLAGS) ||
     (Z.land flags (Z.lor PAGE_FLAG_WRITABLE PAGE_FLAG_EXECUTABLE) =? Z.lor PAGE_FLAG_WRITABLE PAGE_FLAG_EXECUTABLE) ||
     (flag flags PAGE_FLAG_USER && negb (pmm_block_is_user_owned (page_frames s) physical_address)) ||
     ((page_directory s =? kernel_page_directory s) && flag flags PAGE_FLAG_USER) ||
     uses_shared_kernel_table s virtual_address ||
     (flag flags PAGE_FLAG_USER && ((virtual_address <? USER_MAPPING_MIN) || (USER_ADDRESS_LIMIT <=? virtual_address)))
  then (false, s) else
  let '(table, s) := ensure_page_table virtual_address flags s in
  if table =? 0 then (false, s) else
  let table_index := Z.land (Z.shiftr virtual_address 12) 0x3FF in
  if flag (entry_at s table table_index) PAGE_PRESENT then (false, s) else
  let '(claimed, s) :=
    if flag flags PAGE_FLAG_USER then claim_frame physical_address s else (true, s) in
  if negb claimed then (false, s) else
  let s := set_entry table table_index
             (Z.lor (Z.lor physical_address PAGE_PRESENT) (Z.land flags PAGE_ALLOWED_FLAGS)) s in
  (true, invalidate_page virtual_address s).

Definition paging_map_page (virtual_address physical_address flags : Z) (s : paging) : bool * paging :=
  if paging_pae_enabled s then pae_map_page virtual_address physical_address flags s
  else legacy_map_page virtual_address physical_address flags s.

Definition legacy_protect_page (virtual_address flags : Z) (s : paging) : bool * paging :=
  if (page_directory s =? 0) || (virtual_address <? PAGE_SIZE) || flag virtual_address (PAGE_SIZE - 1) ||
     (Z.land flags (Z.lor PAGE_FLAG_WRITABLE PAGE_FLAG_EXECUTABLE) =? Z.lor PAGE_FLAG_WRITABLE PAGE_FLAG_EXECUTABLE) ||
     ((page_directory s =? kernel_page_directory s) && flag flags PAGE_FLAG_USER) ||
     uses_shared_kernel_table s virtual_address ||
     (flag flags PAGE_FLAG_USER && ((virtual_address <? USER_MAPPING_MIN) || (USER_ADDRESS_LIMIT <=? virtual_address))) ||
     flag flags (not32 PAGE_ALLOWED_FLAGS)
  then (false, s) else
  let table := get_page_table s virtual_address in
  if table =? 0 then (false, s) else
  let table_index := Z.land (Z.shiftr virtual_address 12) 0x3FF in
  let entry := entry_at s table table_index in
  if negb (flag entry PAGE_PRESENT) then (false, s) else
  if negb (Z.land entry PAGE_FLAG_USER =? Z.land flags PAGE_FLAG_USER) then (false, s) else
  if flag flags PAGE_FLAG_USER && negb (pmm_block_is_user_owned (page_frames s) (Z.land entry PAGE_ADDRESS_MASK))
  then (false, s) else
  let s := set_entry table table_index (Z.lor (Z.lor (Z.land entry PAGE_ADDRESS_MASK) PAGE_PRESENT) flags) s in
  let s :=
    if flag flags PAGE_FLAG_USER then
      let slot := Z.shiftr virtual_address 22 in
      set_entry (page_directory s) slot (Z.lor (entry_at s (page_directory s) slot) PAGE_FLAG_USER) s
    else s in
  (true, invalidate_page virtual_address s).

Definition paging_protect_page (virtual_address flags : Z) (s : paging) : bool * paging :=
  if paging_pae_enabled s then pae_protect_page virtual_address flags s
  else legacy_protect_page virtual_address flags s.

(** The search loop of [paging_unmap_page]. *)
Definition page_is_empty (s : paging) (table : Z) : bool :=
  all_range 0 PAGE_TABLE_ENTRIES (fun index => negb (flag (entry_at s table index) PAGE_PRESENT)).

Definition legacy_unmap_page (virtual_address : Z) (s : paging) : Z * paging :=
  if (virtual_address <? PAGE_SIZE) || flag virtual_address (PAGE_SIZE - 1) ||
     ((page_directory s =? kernel_page_directory s) && (virtual_address <? USER_MAPPING_MIN)) ||
     uses_shared_kernel_table s virtual_address
  then (0, s) else
  let directory_index := Z.shiftr virtual_address 22 in
  let table := get_page_table s virtual_address in
  if table =? 0 then (0, s) else
  let table_index := Z.land (Z.shiftr virtual_address 12) 0x3FF in
  if negb (flag (entry_at s table table_index) PAGE_PRESENT) then (0, s) else
  let entry := entry_at s table table_index in
  let physical_address := Z.land entry PAGE_ADDRESS_MASK in
  let s := set_entry table table_index 0 s in
  let s := if flag entry PAGE_FLAG_USER then release_frame physical_address s else s in
  let s := invalidate_page virtual_address s in
  if negb (page_is_empty s table) then (physical_address, s) else
  let s := set_entry (page_directory s) directory_index 0 s in
  let s := flush_tlb s in
  (physical_address, free_frame table s).

Definition paging_unmap_page (virtual_address : Z) (s : paging) : Z * paging :=
  if paging_pae_enabled s then pae_unmap_page virtual_address s else legacy_unmap_page virtual_address s.

(** ** Queries *)

Definition paging_get_physical (s : paging) (virtual_address : Z) : Z :=
  let table := get_page_table s virtual_address in
  if paging_pae_enabled s then pae_get_physical s virtual_address else
  if table =? 0 then 0 else
  let entry := entry_at s table (Z.land (Z.shiftr virtual_address 12) 0x3FF) in
  if negb (flag entry PAGE_PRESENT) then 0
  else Z.lor (Z.land entry PAGE_ADDRESS_MASK) (Z.land virtual_address (PAGE_SIZE - 1)).

Definition paging_is_mapped (s : paging) (virtual_address : Z) : bool :=
  let table := get_page_table s virtual_address in
  if paging_pae_enabled s then pae_is_mapped s virtual_address else
  if table =? 0 then false
  else flag (entry_at s table (Z.land (Z.shiftr virtual_address 12) 0x3FF)) PAGE_PRESENT.

(** The body of the loop of [paging_validate_user_range] on one page. *)
Definition legacy_user_page_ok (s : paging) (page : Z) (writable : bool) : bool :=
  let directory_entry := entry_at s (page_directory s) (Z.shiftr page 22) in
  let table := get_page_table s page in
  let both := Z.lor PAGE_PRESENT PAGE_FLAG_USER in
  if (table =? 0) || negb (Z.land directory_entry both =? both) then false else
  let entry := entry_at s table (Z.land (Z.shiftr page 12) 0x3FF) in
  negb (negb (flag entry PAGE_PRESENT) || negb (flag entry PAGE_FLAG_USER) ||
        (writable && negb (flag entry PAGE_FLAG_WRITABLE))).

(** The [while] loops; [None] is an exhausted bound. *)
Fixpoint validate_loop (fuel : nat) (ok : Z -> bool) (page end_ : Z) : option bool :=
  match fuel with
  | O => None
  | S fuel =>
      if page <? end_ then
        if negb (ok page) then Some false else validate_loop fuel ok (page +32 PAGE_SIZE) end_
      else Some true
  end.

(** Enough steps for any range of user pages. *)
Definition validate_fuel (page end_ : Z) : nat := S (Z.to_nat ((end_ - page) / PAGE_SIZE + 1)).

Definition paging_validate_user_range (s : paging) (virtual_address length : Z) (writable : bool) : option bool :=
  if paging_pae_enabled s then
    if length =? 0 then Some true else
    if (pae_pdpt s =? 0) || (virtual_address <? PAGE_SIZE) || (USER_ADDRESS_LIMIT <=? virtual_address) ||
       (USER_ADDRESS_LIMIT -32 virtual_address <? length) then Some false else
    let end_page := virtual_address +32 length in
    let page := Z.land virtual_address PAGE_ADDRESS_MASK in
    validate_loop (validate_fuel page end_page) (fun page => pae_user_page_ok s page writable) page end_page
  else
    if length =? 0 then Some true else
    if (page_directory s =? 0) || (virtual_address <? PAGE_SIZE) || (USER_ADDRESS_LIMIT <=? virtual_address) ||
       (USER_ADDRESS_LIMIT -32 virtual_address <? length) then Some false else
    let end_ := virtual_address +32 length in
    let page := Z.land virtual_address PAGE_ADDRESS_MASK in
    validate_loop (validate_fuel page end_) (fun page => legacy_user_page_ok s page writable) page end_.

Definition paging_validate_user_execute (s : paging) (virtual_address : Z) : bool :=
  if paging_pae_enabled s then pae_validate_user_execute s virtual_address else
  if (page_directory s =? 0) || (virtual_address <? PAGE_SIZE) || (USER_ADDRESS_LIMIT <=? virtual_address)
  then false else
  let directory_entry := entry_at s (page_directory s) (Z.shiftr virtual_address 22) in
  let both := Z.lor PAGE_PRESENT PAGE_FLAG_USER in
  if negb (Z.land directory_entry both =? both) then false else
  let table := get_page_table s virtual_address in
  if table =? 0 then false else
  let entry := entry_at s table (Z.land (Z.shiftr virtual_address 12) 0x3FF) in
  Z.land entry (Z.lor (Z.lor (Z.lor PAGE_PRESENT PAGE_FLAG_USER) PAGE_FLAG_WRITABLE) PAGE_FLAG_EXECUTABLE) =?
  Z.lor (Z.lor PAGE_PRESENT PAGE_FLAG_USER) PAGE_FLAG_EXECUTABLE.

Definition paging_kernel_directory (s : paging) : Z := kernel_page_directory_physical s.

Definition paging_current_directory (s : paging) : Z := page_directory_physical s.

Definition paging_uses_pae (s : paging) : bool := paging_pae_enabled s.

Definition paging_uses_hardware_nx (s : paging) : bool := paging_pae_nx_enabled s.

Definition paging_address_space_extra_blocks (s : paging) : Z :=
  if negb (paging_pae_enabled s) || (pae_kernel_pdpt s =? 0) then 0 else
  for_loop 0 PAE_PDP_ENTRIES (fun index count =>
    if pae_entry_present s (pae_kernel_pdpt s) index then count +32 1 else count) 0.

(** ** Copies between the kernel and user memory

    The kernel's buffer is a list of bytes, or [None] for a null pointer; [Reject] is the return
    value 0 and [Fault] a page fault. *)

Fixpoint copy_in (n : nat) (index source : Z) (output : list Z) (s : paging) : outcome (list Z) :=
  match n with
  | O => Ok output
  | S n =>
      match load_byte s (source +32 index) with
      | Some byte => output <-- array_set output index byte; copy_in n (index + 1) source output s
      | None => Fault
      end
  end.

Definition validated (r : option bool) : outcome unit :=
  match r with Some ok => require ok | None => Diverges end.

Definition paging_copy_from_user (destination : option (list Z)) (source length : Z) (s : paging)
    : outcome (list Z) :=
  match destination with
  | None => if negb (length =? 0) then Reject else
      _ <-- validated (paging_validate_user_range s source length false); Ok []
  | Some output =>
      _ <-- validated (paging_validate_user_range s source length false);
      copy_in (Z.to_nat length) 0 source output s
  end.

Fixpoint copy_out (n : nat) (index destination : Z) (input : list Z) (s : paging) : outcome paging :=
  match n with
  | O => Ok s
  | S n =>
      byte <-- array_get input index;
      match store_byte (destination +32 index) byte s with
      | Some s => copy_out n (index + 1) destination input s
      | None => Fault
      end
  end.

Definition paging_copy_to_user (destination : Z) (source : option (list Z)) (length : Z) (s : paging)
    : outcome paging :=
  match source with
  | None => if negb (length =? 0) then Reject else
      _ <-- validated (paging_validate_user_range s destination length true); Ok s
  | Some input =>
      _ <-- validated (paging_validate_user_range s destination length true);
      copy_out (Z.to_nat length) 0 destination input s
  end.

(** ** Address spaces *)

Definition legacy_create_address_space (s : paging) : Z * paging :=
  if (kernel_page_directory s =? 0) || (address_space_count s =? PAGING_MAX_ADDRESS_SPACES) then (0, s) else
  let '(physical, s) := alloc_low s in
  if physical =? 0 then (0, s) else
  let s := for_loop 0 PAGE_TABLE_ENTRIES (fun index s =>
    set_entry physical index (entry_at s (kernel_page_directory s) index) s) s in
  (physical, set_spaces s (arr_set (address_spaces s) (address_space_count s) physical)
               (address_space_count s +32 1)).

Definition paging_create_address_space (s : paging) : Z * paging :=
  if paging_pae_enabled s then pae_create_address_space s else legacy_create_address_space s.

Definition paging_address_space_is_valid (s : paging) (directory : Z) : bool :=
  if paging_pae_enabled s then pae_address_space_is_valid s directory
  else negb (directory =? 0) && negb (flag directory (PAGE_SIZE - 1)) && address_space_is_registered s directory.

Definition legacy_switch_address_space (directory : Z) (s : paging) : bool * paging :=
  if (directory =? 0) || flag directory (PAGE_SIZE - 1) || negb (address_space_is_registered s directory)
  then (false, s) else
  if directory =? page_directory_physical s then (directory =? page_directory_physical s, s) else
  let s := set_page_directory s directory directory in
  (true, flush_tlb s).

Definition paging_switch_address_space (directory : Z) (s : paging) : bool * paging :=
  if paging_pae_enabled s then pae_switch_address_space directory s else legacy_switch_address_space directory s.

(** A directory entry of the space that is present and not shared with the kernel. *)
Definition private_table (s : paging) (directory index : Z) : option Z :=
  let entry := entry_at s directory index in
  let kernel_entry := entry_at s (kernel_page_directory s) index in
  if negb (flag entry PAGE_PRESENT) ||
     (flag kernel_entry PAGE_PRESENT &&
      (Z.land entry PAGE_ADDRESS_MASK =? Z.land kernel_entry PAGE_ADDRESS_MASK))
  then None else Some (Z.land entry PAGE_ADDRESS_MASK).

Definition preflight (s : paging) (directory : Z) : bool :=
  all_range 1 (Z.shiftr USER_ADDRESS_LIMIT 22) (fun index =>
    match private_table s directory index with
    | None => true
    | Some table =>
        flag (entry_at s directory index) PAGE_FLAG_USER &&
        all_range 0 PAGE_TABLE_ENTRIES (fun table_index =>
          let entry := entry_at s table table_index in
          negb (flag entry PAGE_PRESENT &&
            (negb (pmm_block_is_user_owned (page_frames s) (Z.land entry PAGE_ADDRESS_MASK)) ||
             negb (pmm_user_block_is_mapped (page_frames s) (Z.land entry PAGE_ADDRESS_MASK)))))
    end).

Definition free_table (table : Z) (s : paging) : paging :=
  let s := for_loop 0 PAGE_TABLE_ENTRIES (fun table_index s =>
    let entry := entry_at s table table_index in
    if flag entry PAGE_PRESENT then
      let s := if flag entry PAGE_FLAG_USER then release_frame (Z.land entry PAGE_ADDRESS_MASK) s else s in
      free_frame (Z.land entry PAGE_ADDRESS_MASK) s
    else s) s in
  free_frame table s.

Definition forget (directory : Z) (s : paging) : paging :=
  match find_first 0 (address_space_count s) (fun index => arr (address_spaces s) index =? directory) with
  | Some index =>
      let last := address_space_count s -32 1 in
      let l := arr_set (address_spaces s) index (arr (address_spaces s) last) in
      set_spaces s (arr_set l last 0) last
  | None => s
  end.

Definition legacy_destroy_address_space (directory : Z) (s : paging) : bool * paging :=
  if (directory =? 0) || (directory =? kernel_page_directory_physical s) ||
     (directory =? page_directory_physical s) || negb (paging_address_space_is_valid s directory)
  then (false, s) else
  if negb (preflight s directory) then (false, s) else
  let s := for_loop 1 (Z.shiftr USER_ADDRESS_LIMIT 22) (fun index s =>
    match private_table s directory index with
    | None => s
    | Some table => free_table table s
    end) s in
  let s := free_frame directory s in
  (true, forget directory s).

Definition paging_destroy_address_space (directory : Z) (s : paging) : bool * paging :=
  if paging_pae_enabled s then pae_destroy_address_space directory s else legacy_destroy_address_space directory s.

(** ** Initialisation *)

(** The two loops of [protect_kernel_read_only]; [None] is an exhausted bound. *)
Fixpoint pae_protect_loop (fuel : nat) (address text_end end_ : Z) (s : paging) : option paging :=
  match fuel with
  | O => None
  | S fuel =>
      if address <? end_ then
        let table := pae_get_page_table s address in
        let index := Z.land (Z.shiftr address 12) 0x1FF in
        let value := pae_entry_value s table index in
        let value := Z.land value (UINT64_MAX - PAE_NX) in
        let value :=
          if address <? text_end then
            let value := Z.land value (UINT64_MAX - PAE_WRITABLE) in
            Z.lor value PAGE_FLAG_EXECUTABLE
          else
            let value := Z.land value (UINT64_MAX - PAGE_FLAG_EXECUTABLE) in
            if paging_pae_nx_enabled s then Z.lor value PAE_NX else value in
        pae_protect_loop fuel (address +32 PAGE_SIZE) text_end end_ (pae_set_entry table index value s)
      else Some s
  end.

Fixpoint protect_loop (fuel : nat) (address end_ : Z) (s : paging) : option paging :=
  match fuel with
  | O => None
  | S fuel =>
      if address <? end_ then
        let table := get_page_table s address in
        let index := Z.land (Z.shiftr address 12) 0x3FF in
        protect_loop fuel (address +32 PAGE_SIZE) end_
          (set_entry table index (Z.land (entry_at s table index) (not32 PAGE_FLAG_WRITABLE)) s)
      else Some s
  end.

Definition round_up_page (address : Z) : Z := Z.land ((address +32 PAGE_SIZE) -32 1) PAGE_ADDRESS_MASK.

Definition protect_kernel_read_only (text_start text_end rodata_end : Z) (s : paging) : option paging :=
  let address := text_start in
  let end_ := round_up_page rodata_end in
  if paging_pae_enabled s then
    pae_protect_loop (validate_fuel address end_) address (round_up_page text_end) end_ s
  else protect_loop (validate_fuel address end_) address end_ s.

(** [cr4], [efer], [cr3], [cr0] in this order. *)
Definition enable_paging (s : paging) : paging :=
  let s :=
    if paging_pae_enabled s then
      let r := registers s in
      let s := set_registers s (Build_cpu (cr0 r) (cr3 r) (Z.lor (cr4 r) CR4_PAE) (efer r) (pdptes r)) in
      if paging_pae_nx_enabled s then
        let r := registers s in
        set_registers s (Build_cpu (cr0 r) (cr3 r) (cr4 r) (Z.lor (efer r) EFER_NXE) (pdptes r))
      else s
    else s in
  let s := load_cr3 (page_directory_physical s) s in
  let r := registers s in
  let s := set_registers s
    (Build_cpu (Z.lor (cr0 r) (Z.lor PAGE_ENABLE PAGE_WRITE_PROTECT)) (cr3 r) (cr4 r) (efer r) (pdptes r)) in
  set_modes s true (paging_pae_enabled s) (paging_pae_nx_enabled s).

(** [if (physical != 0U) pmm_free_block(physical);] *)
Definition free_nonzero (physical : Z) (s : paging) : paging :=
  if negb (physical =? 0) then free_frame physical s else s.

Definition font_available (info : option boot_info) : bool :=
  match info with
  | Some info => flag (video_flags info) BOOT_VIDEO_FONT_AVAILABLE
  | None => false
  end.

Definition framebuffer_page (index : Z) : Z := VBE_FRAMEBUFFER_VIRTUAL +32 (index *32 PAGE_SIZE).

(** The mapping loop, from [index]; [n] are left. On failure it returns the index. *)
Fixpoint map_framebuffer (n : nat) (index : Z) (s : paging) : option Z * paging :=
  match n with
  | O => (None, s)
  | S n =>
      let address := framebuffer_page index in
      let '(ok, s) := paging_map_page address address PAGE_FLAG_WRITABLE s in
      if negb ok then (Some index, s) else map_framebuffer n (index + 1) s
  end.

(** [while (index != 0U) { index--; paging_unmap_page(...); }] *)
Fixpoint unmap_framebuffer (n : nat) (s : paging) : paging :=
  match n with
  | O => s
  | S n => unmap_framebuffer n (snd (paging_unmap_page (framebuffer_page (Z.of_nat n)) s))
  end.

(** The end of both initialisations. *)
Definition finish_init (text_start text_end rodata_end : Z) (s : paging) : option (bool * paging) :=
  match protect_kernel_read_only text_start text_end rodata_end s with
  | Some s => Some (true, enable_paging s)
  | None => None
  end.

(** The kernel's pointer table, its first directory and the two tables of the identity window. *)
Definition pae_identity (pdpt_physical page_directory_local identity_table identity_table_second : Z) (s : paging) : paging :=
  let s := set_pdpt s pdpt_physical pdpt_physical in
  let s := set_kernel_pdpt s pdpt_physical pdpt_physical in
  let s := set_page_directory s (page_directory s) pdpt_physical in
  let s := set_kernel_directory s (kernel_page_directory s) pdpt_physical in
  let s := clear_pae_page pdpt_physical s in
  let s := clear_pae_page page_directory_local s in
  let s := clear_pae_page identity_table s in
  let s := clear_pae_page identity_table_second s in
  let nx := if paging_pae_nx_enabled s then PAE_NX else 0 in
  let s := pae_set_entry pdpt_physical 0 (Z.lor page_directory_local PAE_PRESENT) s in
  let s := pae_set_entry page_directory_local 0 (Z.lor (Z.lor identity_table PAE_PRESENT) PAE_WRITABLE) s in
  let s := pae_set_entry page_directory_local 1 (Z.lor (Z.lor identity_table_second PAE_PRESENT) PAE_WRITABLE) s in
  let s := for_loop 1 PAE_TABLE_ENTRIES (fun index s =>
    pae_set_entry identity_table index
      (Z.lor (Z.lor (Z.lor (index *32 PAGE_SIZE) PAE_PRESENT) PAE_WRITABLE) nx) s) s in
  let s := for_loop 0 PAE_TABLE_ENTRIES (fun index s =>
    pae_set_entry identity_table_second index
      (Z.lor (Z.lor (Z.lor ((PAE_TABLE_ENTRIES +32 index) *32 PAGE_SIZE) PAE_PRESENT) PAE_WRITABLE) nx) s) s in
  let s := set_pae_spaces s (pae_address_spaces s) 0 in
  set_kernel_directory s 0 (kernel_page_directory_physical s).

(** The kernel's directory and the table of the identity window. *)
Definition legacy_identity (identity_table : Z) (s : paging) : paging :=
  let s := set_page_directory s (page_directory_physical s) (page_directory_physical s) in
  let s := set_kernel_directory s (page_directory s) (page_directory_physical s) in
  let s := set_spaces s (address_spaces s) 0 in
  let s := clear_page (page_directory s) s in
  let s := clear_page identity_table s in
  let s := for_loop 1 PAGE_TABLE_ENTRIES (fun index s =>
    set_entry identity_table index (Z.lor (Z.lor (index *32 PAGE_SIZE) PAGE_PRESENT) PAGE_FLAG_WRITABLE) s) s in
  set_entry (page_directory s) 0 (Z.lor (Z.lor identity_table PAGE_PRESENT) PAGE_FLAG_WRITABLE) s.

Definition pae_init (text_start text_end rodata_end : Z) (info : option boot_info) (s : paging)
    : option (bool * paging) :=
  let '(pdpt_physical, s) := alloc_low s in
  let '(page_directory_local, s) := alloc_low s in
  let '(identity_table, s) := alloc_low s in
  let '(identity_table_second, s) := alloc_low s in
  if (pdpt_physical =? 0) || (page_directory_local =? 0) || (identity_table =? 0) || (identity_table_second =? 0)
  then
    let s := free_nonzero pdpt_physical s in
    let s := free_nonzero page_directory_local s in
    let s := free_nonzero identity_table s in
    Some (false, free_nonzero identity_table_second s)
  else
  let s := pae_identity pdpt_physical page_directory_local identity_table identity_table_second s in
  let '(failed, s) :=
    if font_available info then map_framebuffer (Z.to_nat VBE_FRAMEBUFFER_PAGES) 0 s else (None, s) in
  match failed with
  | Some _ => Some (false, s)
  | None => finish_init text_start text_end rodata_end s
  end.

Definition legacy_init (text_start text_end rodata_end : Z) (info : option boot_info) (s : paging)
    : option (bool * paging) :=
  let '(directory_physical, s) := alloc_low s in
  let s := set_page_directory s (page_directory s) directory_physical in
  let '(identity_table, s) := alloc_low s in
  if (page_directory_physical s =? 0) || (identity_table =? 0) then
    let s := free_nonzero (page_directory_physical s) s in
    let s := free_nonzero identity_table s in
    Some (false, set_page_directory s (page_directory s) 0)
  else
  let s := legacy_identity identity_table s in
  let '(failed, s) :=
    if font_available info then map_framebuffer (Z.to_nat VBE_FRAMEBUFFER_PAGES) 0 s else (None, s) in
  match failed with
  | Some index =>
      let s := unmap_framebuffer (Z.to_nat index) s in
      let s := free_frame identity_table s in
      let s := free_frame (page_directory_physical s) s in
      Some (false, set_page_directory s 0 0)
  | None => finish_init text_start text_end rodata_end s
  end.

(** [pae] and [nx] are the fields of [cpu_features_get()]. *)
Definition paging_init (pae nx : bool) (text_start text_end rodata_end : Z) (info : option boot_info) (s : paging)
    : option (bool * paging) :=
  let s := set_modes s (paging_enabled s) false false in
  let s := set_pdpt s 0 0 in
  let s := set_kernel_pdpt s 0 0 in
  let s := set_pae_spaces s (pae_address_spaces s) 0 in
  if pae then pae_init text_start text_end rodata_end info (set_modes s (paging_enabled s) true nx)
  else legacy_init text_start text_end rodata_end info s.
