(* ===== verification/PagingEntry.v ===== *)
(** * Page-table entries

    Bits of entries, and the laws of reading and writing them. The two table formats differ in the
    width of an entry: [get] and [put] are indexed by the format, [true] for 64-bit entries, so that
    what follows is proved once for both. *)

From S2P Require Import Prelude Pmm PagingState PagingPae.
Local Open Scope c_scope.
Local Open Scope Z_scope.

(** ** Bits *)

Lemma flag_lor a b m : flag (Z.lor a b) m = flag a m || flag b m.
Proof.
  unfold flag. rewrite Z.land_lor_distr_l.
  destruct (Z.eqb_spec (Z.lor (Z.land a m) (Z.land b m)) 0) as [H|H].
  - apply Z.lor_eq_0_iff in H as [-> ->]. done.
  - destruct (Z.eqb_spec (Z.land a m) 0) as [Ha|], (Z.eqb_spec (Z.land b m) 0) as [Hb|]; try done.
    by rewrite Ha, Hb in H.
Qed.

Lemma flag_land a b k : 0 <= k -> flag (Z.land a b) (2 ^ k) = flag a (2 ^ k) && flag b (2 ^ k).
Proof. intros Hk. by rewrite !flag_pow2, Z.land_spec by done. Qed.

Lemma flag_0 m : flag 0 m = false.
Proof. done. Qed.

Lemma flag_aligned_low f m : f mod 4096 = 0 -> 0 <= m < 4096 -> flag f m = false.
Proof.
  intros Hf Hm. unfold flag. apply negb_false_iff, Z.eqb_eq. apply Z.bits_inj'. intros k Hk.
  rewrite Z.land_spec, Z.bits_0. destruct (Z.lt_ge_cases k 12).
  - replace f with (f / 4096 * 2 ^ 12) by (change (2 ^ 12) with 4096; dmlia).
    by rewrite Z.mul_pow2_bits_low by lia.
  - rewrite (Z.bits_above_log2 m k), andb_false_r; [done|lia|].
    destruct (Z.eq_dec m 0) as [->|]; [simpl; lia|]. apply Z.log2_lt_pow2; [lia|].
    assert (2 ^ 12 <= 2 ^ k) by (apply Z.pow_le_mono_r; lia). change (2 ^ 12) with 4096 in *. lia.
Qed.

(** The frame an entry names. *)
Definition frame_of (v : Z) : Z := Z.land (u32 v) PAGE_ADDRESS_MASK.

Lemma frame_of_eq v : frame_of v = u32 v / 4096 * 4096.
Proof. unfold frame_of. apply (land_not32 (u32 v) 12); [apply u32_range|lia]. Qed.

Lemma frame_of_aligned v : frame_of v mod 4096 = 0.
Proof. rewrite frame_of_eq. apply Z.mod_mul. lia. Qed.

Lemma frame_of_u32 v : is_u32 (frame_of v).
Proof. rewrite frame_of_eq. pose proof (u32_range v). unfold is_u32 in *. dmlia. Qed.

Lemma frame_of_0 : frame_of 0 = 0.
Proof. done. Qed.

Lemma frame_of_land v : is_u32 v -> Z.land v PAGE_ADDRESS_MASK = frame_of v.
Proof. intros Hv. unfold frame_of. by rewrite u32_id. Qed.

(** An entry whose address is below 4 GiB; of the upper half only the no-execute bit is used. *)
Definition narrow (v : Z) : Prop := is_u64 v /\ v mod 2 ^ 63 < 2 ^ 32.

Lemma narrow_u32 v : is_u32 v -> narrow v.
Proof. unfold is_u32, narrow, is_u64. intros H. split; [lia|]. rewrite Z.mod_small; lia. Qed.

(** The frame the processor takes from a 64-bit entry. *)
Definition hw_frame (v : Z) : Z := Z.land v PAE_ADDRESS_MASK.

Lemma frame_of_hw v : frame_of v = u32 (hw_frame v).
Proof.
  unfold frame_of, hw_frame, u32. change 4294967296 with (2 ^ 32). rewrite <- !land_mask by lia.
  rewrite <- !Z.land_assoc. by rewrite (Z.land_comm (2 ^ 32 - 1)).
Qed.

Lemma hw_frame_eq v : hw_frame v = v mod 2 ^ 52 / 4096 * 4096.
Proof.
  unfold hw_frame. change PAE_ADDRESS_MASK with (Z.land (2 ^ 52 - 1) (Z.lnot (Z.ones 12))).
  rewrite Z.land_assoc, land_mask by lia. rewrite <- Z.ldiff_land, Z.ldiff_ones_r by lia.
  by rewrite Z.shiftl_mul_pow2, Z.shiftr_div_pow2 by lia.
Qed.

Lemma hw_frame_narrow v : narrow v -> hw_frame v = frame_of v.
Proof.
  intros [Hv Hn]. rewrite frame_of_hw. symmetry. apply u32_id. rewrite hw_frame_eq. unfold is_u32, is_u64 in *.
  assert (v mod 2 ^ 52 = v mod 2 ^ 63 mod 2 ^ 52) as ->; dmlia.
Qed.

Lemma lor_aligned f lo : f mod 4096 = 0 -> 0 <= lo < 4096 -> Z.lor f lo = f + lo.
Proof.
  intros Hf Hlo. replace f with (Z.shiftl (f / 4096) 12)
    by (rewrite Z.shiftl_mul_pow2 by lia; change (2 ^ 12) with 4096; dmlia).
  rewrite Z.lor_comm, lor_shiftl, Z.shiftl_mul_pow2 by (change (2 ^ 12) with 4096; lia). lia.
Qed.

Lemma frame_of_add f lo : is_u32 f -> f mod 4096 = 0 -> 0 <= lo < 4096 -> frame_of (f + lo) = f.
Proof.
  intros Hf Ha Hlo. rewrite frame_of_eq, u32_id; unfold is_u32 in *; dmlia.
Qed.

Lemma frame_of_lor f lo : is_u32 f -> f mod 4096 = 0 -> 0 <= lo < 4096 -> frame_of (Z.lor f lo) = f.
Proof. intros. rewrite lor_aligned by done. by apply frame_of_add. Qed.

Lemma masked_range x n : 0 <= n -> Z.land x (2 ^ n - 1) = x -> 0 <= x < 2 ^ n.
Proof. intros Hn H. rewrite land_mask in H by done. rewrite <- H. apply Z.mod_pos_bound. lia. Qed.

Lemma range_masked x n : 0 <= n -> 0 <= x < 2 ^ n -> Z.land x (2 ^ n - 1) = x.
Proof. intros Hn H. rewrite land_mask by done. by apply Z.mod_small. Qed.

Lemma lor_range a b n : 0 <= n -> 0 <= a < 2 ^ n -> 0 <= b < 2 ^ n -> 0 <= Z.lor a b < 2 ^ n.
Proof.
  intros Hn Ha Hb. apply masked_range; [done|]. by rewrite Z.land_lor_distr_l, !range_masked.
Qed.

Lemma land_range a b n : 0 <= n -> 0 <= b < 2 ^ n -> 0 <= Z.land a b < 2 ^ n.
Proof. intros Hn Hb. apply masked_range; [done|]. by rewrite <- Z.land_assoc, range_masked. Qed.

Lemma frame_of_land64 v : frame_of v = Z.land v PAGE_ADDRESS_MASK.
Proof.
  unfold frame_of, u32. change 4294967296 with (2 ^ 32). rewrite <- land_mask by lia.
  by rewrite <- Z.land_assoc.
Qed.

Lemma narrow_lor a b : narrow a -> narrow b -> narrow (Z.lor a b).
Proof.
  unfold narrow, is_u64. intros [Ha Ha'] [Hb Hb']. split; [apply (lor_range a b 64); lia|].
  rewrite <- !land_mask in * by lia. rewrite Z.land_lor_distr_l.
  apply (lor_range _ _ 32); [lia|..]; (split; [apply Z.land_nonneg|]); lia.
Qed.

Lemma frame_of_or a b : frame_of (Z.lor a b) = Z.lor (frame_of a) (frame_of b).
Proof. by rewrite !frame_of_land64, Z.land_lor_distr_l. Qed.

Lemma frame_of_small a : 0 <= a < 4096 -> frame_of a = 0.
Proof. intros H. rewrite frame_of_eq, u32_id by (unfold is_u32; lia). dmlia. Qed.

Lemma frame_of_page a : is_u32 a -> a mod 4096 = 0 -> frame_of a = a.
Proof. intros H Ha. rewrite frame_of_eq, u32_id by done. dmlia. Qed.

(** Masks of one bit. *)
Definition one_bit (m : Z) : Prop := exists k, 0 <= k /\ m = 2 ^ k.

Lemma flag_and m a b : one_bit m -> flag (Z.land a b) m = flag a m && flag b m.
Proof. intros (k & Hk & ->). by apply flag_land. Qed.

Lemma one_bit_flags : one_bit 1 /\ one_bit 2 /\ one_bit 4 /\ one_bit 0x10 /\ one_bit 0x200 /\ one_bit PAE_NX.
Proof. split_and!; [exists 0|exists 1|exists 2|exists 4|exists 9|exists 63]; (split; [lia|done]). Qed.

Lemma flag_nx_u32 v : is_u32 v -> flag v PAE_NX = false.
Proof.
  intros Hv. change PAE_NX with (2 ^ 63). rewrite flag_pow2 by lia.
  rewrite <- (Z.mod_small v (2 ^ 32)) by (unfold is_u32 in Hv; lia). apply Z.mod_pow2_bits_high. lia.
Qed.

(** ** Tables *)

Definition tables_ok (m : tables) : Prop :=
  forall f l, m !! f = Some l -> length l = 1024%nat /\ Forall is_u32 l.

Lemma page_at_ok m f : tables_ok m -> length (page_at m f) = 1024%nat /\ Forall is_u32 (page_at m f).
Proof.
  intros Hm. unfold page_at. destruct (m !! f) as [l|] eqn:E; [by apply (Hm f)|].
  cbn [default from_option]. rewrite length_replicate. split; [done|].
  apply Forall_replicate. unfold is_u32. lia.
Qed.

Lemma peek_u32 m f k : tables_ok m -> is_u32 (peek m f k).
Proof.
  intros Hm. unfold peek, arr. destruct (page_at_ok m f Hm) as [_ HF].
  destruct (nth_in_or_default (Z.to_nat k) (page_at m f) 0) as [Hin| ->]; [|unfold is_u32; lia].
  rewrite List.Forall_forall in HF. by apply HF.
Qed.

Lemma poke_ok m f k v : tables_ok m -> is_u32 v -> tables_ok (poke m f k v).
Proof.
  intros Hm Hv g l. unfold poke. rewrite lookup_insert. case_decide as Hg.
  - intros [= <-]. destruct (page_at_ok m f Hm). split; [by rewrite length_arr_set|].
    unfold arr_set. by apply Forall_insert.
  - apply Hm.
Qed.

Lemma peek_poke m f k v g j : tables_ok m -> 0 <= k < 1024 -> 0 <= j ->
  peek (poke m f k v) g j = if decide (g = f /\ j = k) then v else peek m g j.
Proof.
  intros Hm Hk Hj. destruct (page_at_ok m f Hm) as [Hlen _]. unfold peek, poke, page_at.
  rewrite lookup_insert. destruct (decide (f = g)) as [<-|Hne].
  - cbn [default from_option]. fold (page_at m f). destruct (decide (j = k)) as [->|].
    + rewrite decide_True by done. apply arr_set_eq. lia.
    + rewrite decide_False by naive_solver. apply arr_set_ne; lia.
  - by rewrite decide_False by naive_solver.
Qed.

(** ** Entries of either width *)

Definition entries (wide : bool) : Z := if wide then 512 else 1024.

Definition get (wide : bool) (m : tables) (f k : Z) : Z := if wide then entry64 m f k else peek m f k.

Definition poke64 (m : tables) (f k v : Z) : tables :=
  poke (poke m f (2 * k) (u32 v)) f (2 * k + 1) (u32 (Z.shiftr v 32)).

Definition put (wide : bool) (m : tables) (f k v : Z) : tables :=
  if wide then poke64 m f k v else poke m f k v.

Definition entry_ok (wide : bool) (v : Z) : Prop := if wide then is_u64 v else is_u32 v.

Lemma put_tables_ok wide m f k v : tables_ok m -> entry_ok wide v -> tables_ok (put wide m f k v).
Proof.
  intros Hm Hv. destruct wide; cbn in *; [|by apply poke_ok].
  unfold poke64. apply poke_ok; [apply poke_ok; [done|]|]; apply u32_range.
Qed.

Lemma entry64_eq m f k : tables_ok m ->
  entry64 m f k = peek m f (2 * k + 1) * 4294967296 + peek m f (2 * k).
Proof.
  intros Hm. pose proof (peek_u32 m f (2 * k + 1) Hm). pose proof (peek_u32 m f (2 * k) Hm).
  unfold is_u32 in *. unfold entry64, shl64. rewrite u64_id.
  - rewrite Z.lor_comm, lor_shiftl by lia. lia.
  - unfold is_u64. rewrite Z.shiftl_mul_pow2 by lia. lia.
Qed.

Lemma get_ok wide m f k : tables_ok m -> entry_ok wide (get wide m f k).
Proof.
  intros Hm. destruct wide; cbn; [|by apply peek_u32]. rewrite entry64_eq by done.
  pose proof (peek_u32 m f (2 * k + 1) Hm). pose proof (peek_u32 m f (2 * k) Hm).
  unfold is_u32, is_u64 in *. lia.
Qed.

Lemma get_put wide m f k v g j : tables_ok m -> 0 <= k < entries wide -> 0 <= j < entries wide ->
  entry_ok wide v ->
  get wide (put wide m f k v) g j = if decide (g = f /\ j = k) then v else get wide m g j.
Proof.
  intros Hm Hk Hj Hv. destruct wide; cbn [get put entries entry_ok] in *; [|apply peek_poke; [done|lia..]].
  assert (tables_ok (poke m f (2 * k) (u32 v))) as Hm1 by (apply poke_ok; [done|apply u32_range]).
  unfold poke64. rewrite !entry64_eq by (done || apply poke_ok; [done|apply u32_range]).
  rewrite !(peek_poke (poke _ _ _ _)), !peek_poke by (done || lia).
  destruct (decide (g = f /\ j = k)) as [[-> ->]|Hne].
  - rewrite (decide_True (P := f = f /\ 2 * k + 1 = 2 * k + 1)) by done.
    rewrite (decide_False (P := f = f /\ 2 * k = 2 * k + 1)) by lia.
    rewrite (decide_True (P := f = f /\ 2 * k = 2 * k)) by done.
    rewrite Z.shiftr_div_pow2 by lia. unfold is_u64, u32 in *. change (2 ^ 32) with 4294967296. dmlia.
  - rewrite !decide_False by lia. by rewrite entry64_eq.
Qed.
