(* ===== verification/PagingForest.v ===== *)
(** * The forest of page tables

    An address space is a root, the frames that hold its directory ([node]), its directory entries
    ([pde]) and its page-table entries ([pte]); absent entries are 0. Spaces share the tables of the
    kernel. [forest] is the invariant of all spaces together with the ownership of frames: which
    frames hold tables, who may share them, and that a user mapping has a frame of its own. It is
    stated on a [view] that both table formats provide, and kept by the elementary updates below. *)

From S2P Require Import Prelude Pmm PagingState PagingEntry.
Local Open Scope Z_scope.

Record view := {
  node : Z -> Z -> option Z;
  pde : Z -> Z -> Z;
  pte : Z -> Z -> Z -> Z
}.

(** A page frame of the window that every space maps to itself. *)
Definition low_page (x : Z) : Prop := x mod 4096 = 0 /\ 0x100000 <= x < 0x400000.

Definition present (v : Z) : Prop := flag v 1 = true.

(** A present entry for user mode. *)
Definition user_entry (v : Z) : Prop := flag v 1 = true /\ flag v 4 = true.

Section Forest.
(** [leaf_ok] is what every present page-table entry satisfies. *)
Context (wide : bool) (leaf_ok : Z -> Prop).

(** Directory indices of a whole space. *)
Definition directories : Z := if wide then 2048 else 1024.

Definition dir_index (i : Z) : Prop := 0 <= i < directories.
Definition table_index (j : Z) : Prop := 0 <= j < entries wide.

(** The page number of a table position. *)
Definition page_number (i j : Z) : Z := i * entries wide + j.

(** Directory entry [i] of space [r] names table [t]. *)
Definition linked (V : view) (r i t : Z) : Prop := dir_index i /\ present (pde V r i) /\ frame_of (pde V r i) = t.

(** A user page of space [r]. *)
Definition user_page (V : view) (r i j : Z) : Prop := dir_index i /\ table_index j /\ user_entry (pte V r i j).

(** [r] uses the kernel's table at [i]. *)
Definition shared (V : view) (K r i : Z) : Prop := exists t, linked V r i t /\ linked V K i t.

Record forest (K : Z) (L : list Z) (V : view) (own : Z -> owner) : Prop := {
  forest_roots : NoDup (K :: L);
  forest_root : forall r, r ∈ K :: L -> node V r (-1) = Some r;
  forest_node : forall r q x, r ∈ K :: L -> node V r q = Some x -> low_page x /\ own x = Kernel;
  forest_node_inj : forall r q r' q' x, r ∈ K :: L -> r' ∈ K :: L ->
    node V r q = Some x -> node V r' q' = Some x -> r = r' /\ q = q';
  forest_link : forall r i t, r ∈ K :: L -> linked V r i t ->
    low_page t /\ own t = Kernel /\ flag (pde V r i) 2 = true /\ narrow (pde V r i) /\
    forall r' q, r' ∈ K :: L -> node V r' q <> Some t;
  forest_share : forall r i r' i' t, r ∈ K :: L -> r' ∈ K :: L ->
    linked V r i t -> linked V r' i' t -> i = i' /\ (r = r' \/ linked V K i t);
  forest_shared : forall r i, r ∈ K :: L -> shared V K r i -> flag (pde V r i) 4 = false;
  forest_same : forall r r' i t j, r ∈ K :: L -> r' ∈ K :: L -> table_index j ->
    linked V r i t -> linked V r' i t -> pte V r i j = pte V r' i j;
  forest_leaf : forall r i j, r ∈ K :: L -> dir_index i -> table_index j -> present (pte V r i j) ->
    present (pde V r i) /\ leaf_ok (pte V r i j);
  forest_user : forall r i j, r ∈ K :: L -> user_page V r i j ->
    flag (pde V r i) 4 = true /\ own (frame_of (pte V r i j)) = User true /\
    1024 <= page_number i j < 786432;
  forest_user_inj : forall r i j r' i' j', r ∈ K :: L -> r' ∈ K :: L ->
    user_page V r i j -> user_page V r' i' j' -> frame_of (pte V r i j) = frame_of (pte V r' i' j') ->
    r = r' /\ i = i' /\ j = j';
  forest_mapped : forall x, is_u32 x -> x mod 4096 = 0 -> own x = User true ->
    exists r i j, r ∈ K :: L /\ user_page V r i j /\ frame_of (pte V r i j) = x;
  forest_low : forall r i j, r ∈ K :: L -> dir_index i -> table_index j -> 1 <= page_number i j < 1024 ->
    shared V K r i /\ present (pte V r i j) /\ frame_of (pte V r i j) = page_number i j * 4096
}.

(** A frame the forest does not use. *)
Definition unused (K : Z) (L : list Z) (V : view) (x : Z) : Prop :=
  (forall r q, r ∈ K :: L -> node V r q <> Some x) /\ (forall r i, r ∈ K :: L -> ~ linked V r i x).

Lemma not_kernel_unused K L V own x : forest K L V own -> own x <> Kernel -> unused K L V x.
Proof.
  intros HF Hx. split.
  - intros r q Hr Hn. by destruct (forest_node _ _ _ _ HF r q x Hr Hn).
  - intros r i Hr Hl. by destruct (forest_link _ _ _ _ HF r i x Hr Hl) as (_ & ? & _).
Qed.

Lemma user_not_shared K L V own r i j : forest K L V own -> r ∈ K :: L -> user_page V r i j -> ~ shared V K r i.
Proof.
  intros HF Hr Hu Hs. destruct (forest_user _ _ _ _ HF r i j Hr Hu) as [Hp _].
  by rewrite (forest_shared _ _ _ _ HF r i Hr Hs) in Hp.
Qed.

Lemma linked_shared V K i t : linked V K i t -> shared V K K i.
Proof. intros H. by exists t. Qed.

Lemma kernel_no_user K L V own i j : forest K L V own -> ~ user_page V K i j.
Proof.
  intros HF Hu. assert (K ∈ K :: L) as HK by constructor.
  destruct Hu as (Hi & Hj & Hp & Hu'). destruct (forest_leaf _ _ _ _ HF K i j HK Hi Hj Hp) as [Hpde _].
  eapply (user_not_shared K L V own K i j); [done..|].
  by eapply linked_shared.
Qed.

Lemma linked_eq V r i x y : linked V r i x -> linked V r i y -> x = y.
Proof. intros (_ & _ & <-) (_ & _ & <-). done. Qed.

(** Only the ownership of other frames changes. *)
Lemma forest_own K L V own own' : forest K L V own ->
  (forall x, low_page x -> ~ unused K L V x -> own x = Kernel -> own' x = Kernel) ->
  (forall x, is_u32 x -> x mod 4096 = 0 -> (own' x = User true <-> own x = User true)) ->
  forest K L V own'.
Proof.
  intros HF Hk Hu. split; try by apply HF.
  - intros r q x Hr Hn. destruct (forest_node _ _ _ _ HF r q x Hr Hn) as [? ?]. split; [done|].
    apply Hk; [done| |done]. intros [Hn' _]. by apply (Hn' r q).
  - intros r i t Hr Hl. destruct (forest_link _ _ _ _ HF r i t Hr Hl) as (? & ? & ?). split; [done|].
    split; [|done]. apply Hk; [done| |done]. intros [_ Hn']. by apply (Hn' r i).
  - intros r i j Hr Hp. destruct (forest_user _ _ _ _ HF r i j Hr Hp) as (? & ? & ?). split; [done|].
    split; [|done]. apply Hu; [apply frame_of_u32|apply frame_of_aligned|done].
  - intros x Hx Ha Ho. apply (forest_mapped _ _ _ _ HF x Hx Ha). by apply Hu.
Qed.

(** Two views that agree on the given spaces. *)
Definition view_on (R : list Z) (V V' : view) : Prop :=
  (forall r q, r ∈ R -> node V' r q = node V r q) /\
  (forall r i, r ∈ R -> dir_index i -> pde V' r i = pde V r i) /\
  (forall r i j, r ∈ R -> dir_index i -> table_index j -> pte V' r i j = pte V r i j).

Lemma view_on_linked R V V' r i t : view_on R V V' -> r ∈ R -> linked V' r i t <-> linked V r i t.
Proof.
  intros (_ & Hd & _) Hr. unfold linked. split; intros (Hi & H); by rewrite Hd in * by done.
Qed.

Lemma view_on_shared K L V V' r i : view_on (K :: L) V V' -> r ∈ K :: L -> shared V' K r i <-> shared V K r i.
Proof.
  intros HV Hr. assert (K ∈ K :: L) as HK by constructor. unfold shared.
  split; intros (t & H1 & H2); exists t; by rewrite !(view_on_linked (K :: L) V V') in *.
Qed.

Lemma view_on_user R V V' r i j : view_on R V V' -> r ∈ R -> user_page V' r i j <-> user_page V r i j.
Proof.
  intros (_ & _ & Ht) Hr. unfold user_page. split; intros (Hi & Hj & H); by rewrite Ht in * by done.
Qed.

#[global] Instance linked_dec V r i t : Decision (linked V r i t).
Proof. unfold linked, dir_index, present. apply _. Defined.

#[global] Instance user_entry_dec v : Decision (user_entry v).
Proof. unfold user_entry. apply _. Defined.

(** ** Writing a page-table entry *)

Section WriteLeaf.
Context (K : Z) (L : list Z) (V V' : view) (own own' : Z -> owner) (r0 i0 j0 t v : Z).
Hypothesis HF : forest K L V own.
Hypothesis Hr0 : r0 ∈ K :: L.
Hypothesis Hl0 : linked V r0 i0 t.
Hypothesis Hj0 : table_index j0.
Hypothesis Hnode : forall r q, r ∈ K :: L -> node V' r q = node V r q.
Hypothesis Hpde : forall r i, r ∈ K :: L -> dir_index i -> pde V' r i = pde V r i.
Hypothesis Hhit : forall r i, r ∈ K :: L -> linked V r i t -> pte V' r i j0 = v.
Hypothesis Hmiss : forall r i j, r ∈ K :: L -> dir_index i -> table_index j ->
  ~ (linked V r i t /\ j = j0) -> pte V' r i j = pte V r i j.
Hypothesis Hv : present v -> leaf_ok v.
Hypothesis Hvu : user_entry v -> ~ shared V K r0 i0 /\ flag (pde V r0 i0) 4 = true /\
  own' (frame_of v) = User true /\ 1024 <= page_number i0 j0 < 786432 /\
  forall r i j, r ∈ K :: L -> user_page V r i j -> frame_of (pte V r i j) = frame_of v ->
    r = r0 /\ i = i0 /\ j = j0.
Hypothesis Hkernel : forall x, low_page x -> own x = Kernel -> own' x = Kernel.
Hypothesis Hkeep : forall x, is_u32 x -> x mod 4096 = 0 -> own x = User true -> own' x = User true \/
  (user_entry (pte V r0 i0 j0) /\ x = frame_of (pte V r0 i0 j0)).
Hypothesis Hnew : forall x, is_u32 x -> x mod 4096 = 0 -> own' x = User true ->
  (user_entry v /\ x = frame_of v) \/
  (own x = User true /\ ~ (user_entry (pte V r0 i0 j0) /\ x = frame_of (pte V r0 i0 j0))).
Hypothesis Hlow : 1 <= page_number i0 j0 < 1024 -> present v /\ frame_of v = page_number i0 j0 * 4096.

#[local] Notation R := (K :: L).

Lemma write_linked r i x : r ∈ R -> linked V' r i x <-> linked V r i x.
Proof. intros Hr. unfold linked. split; intros (Hi & H); by rewrite Hpde in * by done. Qed.

Lemma write_shared r i : r ∈ R -> shared V' K r i <-> shared V K r i.
Proof.
  intros Hr. assert (K ∈ R) as HK by constructor. unfold shared.
  split; intros (x & H1 & H2); exists x; by rewrite !write_linked in *.
Qed.

(** All spaces that see the written entry, if it is or was a user entry. *)
Lemma write_private r i : r ∈ R -> ~ shared V K r0 i0 -> linked V r i t -> r = r0 /\ i = i0.
Proof.
  intros Hr Hns Hl. destruct (forest_share _ _ _ _ HF r i r0 i0 t Hr Hr0 Hl Hl0) as [-> [->|HK]]; [done|].
  destruct Hns. by exists t.
Qed.

Lemma write_user r i j : r ∈ R -> user_page V' r i j ->
  (user_entry v /\ r = r0 /\ i = i0 /\ j = j0 /\ pte V' r i j = v) \/
  (user_page V r i j /\ pte V' r i j = pte V r i j /\ ~ (r = r0 /\ i = i0 /\ j = j0)).
Proof.
  intros Hr (Hi & Hj & Hu). destruct (decide (linked V r i t /\ j = j0)) as [[Hl ->]|Hn].
  - left. rewrite Hhit in Hu |- * by done. destruct (Hvu Hu) as [Hns _].
    by destruct (write_private r i Hr Hns Hl) as [-> ->].
  - right. rewrite Hmiss in Hu |- * by done. split; [done|]. split; [done|].
    intros (-> & -> & ->). by apply Hn.
Qed.

Lemma write_user_inj r i j r' i' j' : r ∈ R -> r' ∈ R -> user_page V' r i j -> user_page V' r' i' j' ->
  frame_of (pte V' r i j) = frame_of (pte V' r' i' j') -> r = r' /\ i = i' /\ j = j'.
Proof.
  intros Hr Hr' Hu Hu'.
  apply write_user in Hu as [(Huv & -> & -> & -> & ->)|(Hu & -> & Hne)]; [| |done];
  apply write_user in Hu' as [(Huv' & -> & -> & -> & ->)|(Hu' & -> & Hne')]; try done; intros He.
  - destruct (Hvu Huv) as (_ & _ & _ & _ & Hi). destruct Hne'. by apply Hi.
  - destruct (Hvu Huv') as (_ & _ & _ & _ & Hi). destruct Hne. by apply Hi.
  - by apply (forest_user_inj _ _ _ _ HF).
Qed.

Lemma write_mapped x : is_u32 x -> x mod 4096 = 0 -> own' x = User true ->
  exists r i j, r ∈ R /\ user_page V' r i j /\ frame_of (pte V' r i j) = x.
Proof.
  intros Hx Ha Ho. destruct (Hnew x Hx Ha Ho) as [[Hu ->]|[Ho' Hn]].
  - exists r0, i0, j0. rewrite (Hhit r0 i0 Hr0 Hl0). split; [done|]. split; [|done].
    split; [apply Hl0|]. split; [done|]. by rewrite (Hhit r0 i0 Hr0 Hl0).
  - destruct (forest_mapped _ _ _ _ HF x Hx Ha Ho') as (r & i & j & Hr & Hu & He).
    exists r, i, j. destruct Hu as (Hi & Hj & Hu).
    assert (pte V' r i j = pte V r i j) as Hp; [|unfold user_page; by rewrite Hp].
    apply Hmiss; [done..|]. intros [Hl ->].
    destruct (write_private r i Hr) as [-> ->]; [|done|by rewrite He in Hn; naive_solver].
    intros Hs. destruct Hs as (x' & Hs1 & Hs2).
    apply (user_not_shared K L V own r i j0 HF Hr (conj Hi (conj Hj Hu))).
    destruct (forest_share _ _ _ _ HF r i r0 i0 t Hr Hr0 Hl Hl0) as [-> _].
    exists t. split; [done|]. destruct Hl0 as (_ & _ & <-). by destruct Hs1 as (_ & _ & ->).
Qed.

Lemma forest_write : forest K L V' own'.
Proof.
  split.
  - apply HF.
  - intros r Hr. rewrite Hnode by done. by apply HF.
  - intros r q x Hr. rewrite Hnode by done. intros Hn.
    destruct (forest_node _ _ _ _ HF r q x Hr Hn). eauto.
  - intros r q r' q' x Hr Hr'. rewrite !Hnode by done. by apply (forest_node_inj _ _ _ _ HF).
  - intros r i x Hr Hl. rewrite write_linked in Hl by done. rewrite Hpde by (done || apply Hl).
    destruct (forest_link _ _ _ _ HF r i x Hr Hl) as (? & ? & ? & ? & Hno). do 4 (split; [by auto|]).
    intros r' q Hr'. rewrite Hnode by done. by apply Hno.
  - intros r i r' i' x Hr Hr'. rewrite !write_linked by (done || constructor).
    by apply (forest_share _ _ _ _ HF).
  - intros r i Hr Hs. rewrite write_shared in Hs by done. destruct Hs as (x & Hs & ?).
    rewrite Hpde by (done || apply Hs). apply (forest_shared _ _ _ _ HF r i Hr). by exists x.
  - intros r r' i x j Hr Hr' Hj Hl Hl'. rewrite write_linked in Hl, Hl' by done.
    destruct (decide (linked V r i t /\ j = j0)) as [[Hlt ->]|Hn].
    + rewrite (linked_eq _ _ _ _ _ Hl Hlt) in Hl'. by rewrite !Hhit.
    + rewrite !Hmiss; try done; try apply Hl; [by apply (forest_same _ _ _ _ HF) with x|].
      intros [Hlt ->]. apply Hn. by rewrite <- (linked_eq _ _ _ _ _ Hl' Hlt).
  - intros r i j Hr Hi Hj Hp. rewrite Hpde by done.
    destruct (decide (linked V r i t /\ j = j0)) as [[Hlt ->]|Hn].
    + rewrite Hhit in Hp |- * by done. split; [apply Hlt|by apply Hv].
    + rewrite Hmiss in Hp |- * by done. by apply (forest_leaf _ _ _ _ HF).
  - intros r i j Hr Hu. rewrite Hpde by (done || apply Hu).
    destruct (write_user r i j Hr Hu) as [(Huv & -> & -> & -> & ->)|(Hu' & -> & Hne)].
    + destruct (Hvu Huv) as (_ & ? & ? & ? & _). done.
    + destruct (forest_user _ _ _ _ HF r i j Hr Hu') as (? & Ho & ?). split; [done|]. split; [|done].
      destruct (Hkeep _ (frame_of_u32 _) (frame_of_aligned _) Ho) as [?|[Hold He]]; [done|]. destruct Hne.
      apply (forest_user_inj _ _ _ _ HF); try done. split; [apply Hl0|done].
  - apply write_user_inj.
  - apply write_mapped.
  - intros r i j Hr Hi Hj Hn. rewrite write_shared by done.
    destruct (forest_low _ _ _ _ HF r i j Hr Hi Hj Hn) as (Hs & ? & ?). split; [done|].
    destruct (decide (linked V r i t /\ j = j0)) as [[Hlt ->]|Hm]; [|by rewrite Hmiss].
    rewrite Hhit by done. destruct (forest_share _ _ _ _ HF r i r0 i0 t Hr Hr0 Hlt Hl0) as [-> _].
    by apply Hlow.
Qed.
End WriteLeaf.

(** ** Changing a directory entry *)

(** No page of a space is gained or lost: the entry gets the user bit, or a new empty table is
    linked, or an empty one is unlinked. *)
Section Relink.
Context (K : Z) (L : list Z) (V V' : view) (own : Z -> owner) (r0 i0 e : Z).
Hypothesis HF : forest K L V own.
Hypothesis Hr0 : r0 ∈ K :: L.
Hypothesis Hi0 : dir_index i0.
Hypothesis Hnode : forall r q, r ∈ K :: L -> node V' r q = node V r q.
Hypothesis Hpde0 : pde V' r0 i0 = e.
Hypothesis Hpde : forall r i, r ∈ K :: L -> dir_index i -> ~ (r = r0 /\ i = i0) -> pde V' r i = pde V r i.
Hypothesis Hpte : forall r i j, r ∈ K :: L -> dir_index i -> table_index j -> pte V' r i j = pte V r i j.
Hypothesis Hpages : forall j, table_index j -> present (pte V r0 i0 j) ->
  present e /\ (user_entry (pte V r0 i0 j) -> flag e 4 = true).
Hypothesis He : present e -> low_page (frame_of e) /\ own (frame_of e) = Kernel /\ flag e 2 = true /\ narrow e /\
  (linked V r0 i0 (frame_of e) \/ (~ present (pde V r0 i0) /\ unused K L V (frame_of e))).
Hypothesis Huser : present e -> flag e 4 = true -> r0 <> K /\ ~ shared V K r0 i0.
Hypothesis Hdrop : present (pde V r0 i0) -> ~ present e ->
  forall r, r ∈ K :: L -> linked V r i0 (frame_of (pde V r0 i0)) -> r = r0.

#[local] Notation R := (K :: L).

Lemma relink_linked r i x : r ∈ R -> ~ (r = r0 /\ i = i0) -> linked V' r i x <-> linked V r i x.
Proof. intros Hr Hne. unfold linked. split; intros (Hi & H); by rewrite Hpde in * by done. Qed.

Lemma relink_here x : linked V' r0 i0 x <-> present e /\ frame_of e = x.
Proof using Hpde0 Hi0. unfold linked. rewrite Hpde0. clear -Hi0. naive_solver. Qed.

Lemma relink_back r i x : r ∈ R -> linked V' r i x ->
  linked V r i x \/ (r = r0 /\ i = i0 /\ x = frame_of e /\ ~ present (pde V r0 i0) /\ unused K L V x).
Proof.
  intros Hr Hl. destruct (decide (r = r0 /\ i = i0)) as [[-> ->]|Hne]; [|left; by apply relink_linked].
  apply relink_here in Hl as [Hp <-]. destruct (He Hp) as (_ & _ & _ & _ & [?|[? ?]]); [by left|by right].
Qed.

Lemma relink_shared r i : r ∈ R -> shared V' K r i -> (r = r0 /\ r0 = K /\ i = i0) \/ shared V K r i.
Proof.
  intros Hr (x & H1 & H2). assert (K ∈ R) as HK by constructor.
  apply relink_back in H1 as [H1|(-> & -> & -> & Hp & Hu)]; [| |done].
  - apply relink_back in H2 as [H2|(<- & -> & -> & Hp & Hu)]; [right; by exists x| |done].
    by destruct (proj2 Hu r i0).
  - apply relink_back in H2 as [H2|(-> & _)]; [|by left|done]. by destruct (proj2 Hu K i0).
Qed.

Lemma relink_share r i r' i' x : r ∈ R -> r' ∈ R -> linked V' r i x -> linked V' r' i' x ->
  i = i' /\ (r = r' \/ linked V' K i x).
Proof.
  intros Hr Hr' H1 H2. assert (K ∈ R) as HK by constructor.
  pose proof H1 as H1'. pose proof H2 as H2'.
  apply relink_back in H1 as [H1|(-> & -> & -> & Hp & Hu)]; [| |done];
  apply relink_back in H2 as [H2|(-> & -> & He2 & Hp2 & Hu2)]; try done.
  - destruct (forest_share _ _ _ _ HF r i r' i' x Hr Hr' H1 H2) as [-> [->|HKx]]; [auto|].
    split; [done|]. destruct (decide (r = r')) as [|Hne]; [by left|right].
    destruct (decide (K = r0 /\ i' = i0)) as [[-> ->]|]; [|by apply relink_linked].
    assert (present (pde V r0 i0) /\ frame_of (pde V r0 i0) = x) as [Hpp Hxx] by (split; apply HKx).
    destruct (decide (present e)) as [Hpe|Hpe].
    + apply relink_here. split; [done|]. destruct (He Hpe) as (_ & _ & _ & _ & [Hl|[? _]]); [|done].
      by apply (linked_eq V r0 i0).
    + subst x. rewrite (Hdrop Hpp Hpe r Hr H1), (Hdrop Hpp Hpe r' Hr' H2) in Hne. done.
  - by destruct (proj2 Hu2 r i).
  - by destruct (proj2 Hu r' i').
  - auto.
Qed.

Lemma forest_relink : forest K L V' own.
Proof.
  assert (K ∈ R) as HK by constructor.
  assert (forall r i, r ∈ R -> dir_index i -> flag (pde V r i) 4 = true -> (forall j, table_index j ->
    user_entry (pte V r i j) -> flag (pde V' r i) 4 = true)) as Hflag.
  { intros r i Hr Hi Hf j Hj Hu. destruct (decide (r = r0 /\ i = i0)) as [[-> ->]|]; [|by rewrite Hpde].
    rewrite Hpde0. apply (Hpages j Hj); [apply Hu|done]. }
  split.
  - apply HF.
  - intros r Hr. rewrite Hnode by done. by apply HF.
  - intros r q x Hr. rewrite Hnode by done. by apply (forest_node _ _ _ _ HF).
  - intros r q r' q' x Hr Hr'. rewrite !Hnode by done. by apply (forest_node_inj _ _ _ _ HF).
  - intros r i x Hr Hl. destruct (decide (r = r0 /\ i = i0)) as [[-> ->]|Hne].
    + apply relink_here in Hl as [Hp <-]. rewrite Hpde0. destruct (He Hp) as (? & ? & ? & ? & Hor).
      do 4 (split; [done|]). intros r' q Hr'. rewrite Hnode by done.
      destruct Hor as [Hl|[_ Hu]]; [|by apply Hu]. by apply (forest_link _ _ _ _ HF r0 i0).
    + rewrite relink_linked in Hl by done. rewrite Hpde by (done || apply Hl).
      destruct (forest_link _ _ _ _ HF r i x Hr Hl) as (? & ? & ? & ? & Hno). do 4 (split; [done|]).
      intros r' q Hr'. rewrite Hnode by done. by apply Hno.
  - apply relink_share.
  - intros r i Hr Hs. destruct (decide (r = r0 /\ i = i0)) as [[-> ->]|Hne].
    + rewrite Hpde0. apply not_true_iff_false. intros Ef.
      assert (present e) as Hp by (destruct Hs as (x & Hs & _); by apply relink_here in Hs as [? _]).
      destruct (Huser Hp Ef) as [Hk Hns]. by destruct (relink_shared r0 i0 Hr Hs) as [(_ & ? & _)|?].
    + assert (dir_index i) by (destruct Hs as (x & Hs & _); apply Hs). rewrite Hpde by done.
      apply relink_shared in Hs as [(-> & _ & ->)|Hs]; [naive_solver| |done].
      by apply (forest_shared _ _ _ _ HF).
  - intros r r' i x j Hr Hr' Hj Hl Hl'. rewrite (Hpte r), (Hpte r') by (done || apply Hl).
    apply relink_back in Hl as [Hl|(-> & -> & -> & Hp & Hu)]; [| |done];
    apply relink_back in Hl' as [Hl'|(-> & Hi2 & He2 & Hp2 & Hu2)]; try done.
    + by apply (forest_same _ _ _ _ HF) with x.
    + by destruct (proj2 Hu2 r i).
    + by destruct (proj2 Hu r' i0).
  - intros r i j Hr Hi Hj. rewrite Hpte by done. intros Hp.
    destruct (forest_leaf _ _ _ _ HF r i j Hr Hi Hj Hp) as [? ?]. split; [|done].
    destruct (decide (r = r0 /\ i = i0)) as [[-> ->]|]; [|by rewrite Hpde].
    rewrite Hpde0. by apply (Hpages j).
  - intros r i j Hr (Hi & Hj & Hu). rewrite Hpte in Hu |- * by done.
    destruct (forest_user _ _ _ _ HF r i j Hr) as (? & ? & ?); [done|]. split; [|done]. by eapply Hflag.
  - intros r i j r' i' j' Hr Hr' (Hi & Hj & Hu) (Hi' & Hj' & Hu').
    rewrite Hpte in Hu, Hu' |- * by done. rewrite (Hpte r' i' j') by done.
    by apply (forest_user_inj _ _ _ _ HF).
  - intros x Hx Ha Ho. destruct (forest_mapped _ _ _ _ HF x Hx Ha Ho) as (r & i & j & Hr & (Hi & Hj & Hu) & Hfr).
    exists r, i, j. unfold user_page. by rewrite Hpte.
  - intros r i j Hr Hi Hj Hn. rewrite Hpte by done.
    destruct (forest_low _ _ _ _ HF r i j Hr Hi Hj Hn) as ((x & Hs1 & Hs2) & Hp & ?). split; [|done].
    assert (forall r', r' ∈ R -> linked V r' i x -> present (pte V r' i j) -> linked V' r' i x) as Hstay.
    { intros r' Hr' Hl Hp'. destruct (decide (r' = r0 /\ i = i0)) as [[-> ->]|]; [|by apply relink_linked].
      apply relink_here. destruct (Hpages j Hj Hp') as [Hpe _]. split; [done|].
      destruct (He Hpe) as (_ & _ & _ & _ & [Hl'|[Hn' _]]); [by apply (linked_eq V r0 i0)|].
      destruct Hn'. apply Hl. }
    exists x. split; apply Hstay; try done.
    by rewrite <- (forest_same _ _ _ _ HF r K i x j).
Qed.
End Relink.

(** ** Directories of a space *)

(** Only the frames that hold the directory of [r0] change; [d] may be new. *)
Lemma forest_renode K L V V' own r0 q0 d : forest K L V own -> r0 ∈ K :: L -> q0 <> -1 ->
  (forall r i, r ∈ K :: L -> dir_index i -> pde V' r i = pde V r i) ->
  (forall r i j, r ∈ K :: L -> dir_index i -> table_index j -> pte V' r i j = pte V r i j) ->
  (forall r q, r ∈ K :: L -> ~ (r = r0 /\ q = q0) -> node V' r q = node V r q) ->
  (node V' r0 q0 = None \/ node V' r0 q0 = node V r0 q0 \/ (node V' r0 q0 = Some d /\ low_page d /\ own d = Kernel /\ unused K L V d)) ->
  forest K L V' own.
Proof.
  intros HF Hr0 Hq Hpde Hpte Hnode Hd.
  assert (forall r q x, r ∈ K :: L -> node V' r q = Some x -> node V r q = Some x \/
    (r = r0 /\ q = q0 /\ low_page x /\ own x = Kernel /\ unused K L V x)) as Hback.
  { intros r q x Hr Hn. destruct (decide (r = r0 /\ q = q0)) as [[-> ->]|]; [|left; by rewrite <- Hnode].
    destruct Hd as [Hd|[Hd|(Hd & ? & ? & ?)]]; rewrite Hd in Hn; [done|by left|right]. by injection Hn as <-. }
  assert (view_on (K :: L) (Build_view (node V') (pde V) (pte V)) V') as HV by done.
  assert (forall r i t, r ∈ K :: L -> linked V' r i t <-> linked V r i t) as Hlk
    by (intros r i t Hr; apply (view_on_linked (K :: L) _ V' r i t HV Hr)).
  assert (forall r i, r ∈ K :: L -> shared V' K r i <-> shared V K r i) as Hsh
    by (intros r i Hr; apply (view_on_shared K L _ V' r i HV Hr)).
  assert (forall r i j, r ∈ K :: L -> user_page V' r i j <-> user_page V r i j) as Hus
    by (intros r i j Hr; apply (view_on_user (K :: L) _ V' r i j HV Hr)).
  split.
  - apply HF.
  - intros r Hr. rewrite Hnode by naive_solver. by apply HF.
  - intros r q x Hr Hn. destruct (Hback r q x Hr Hn) as [Ho|(_ & _ & ? & ? & _)]; [|done].
    by apply (forest_node _ _ _ _ HF r q).
  - intros r q r' q' x Hr Hr' H1 H2.
    destruct (Hback _ _ _ Hr H1) as [H1'|(-> & -> & _ & _ & Hu)], (Hback _ _ _ Hr' H2) as [H2'|(-> & -> & _ & _ & Hu')].
    + by apply (forest_node_inj _ _ _ _ HF r q r' q' x).
    + by destruct (proj1 Hu' r q).
    + by destruct (proj1 Hu r' q').
    + done.
  - intros r i t Hr Hl. rewrite Hlk in Hl by done. rewrite Hpde by (done || apply Hl).
    destruct (forest_link _ _ _ _ HF r i t Hr Hl) as (? & ? & ? & ? & Hno). do 4 (split; [done|]).
    intros r' q Hr' Hn. destruct (Hback _ _ _ Hr' Hn) as [Ho|(_ & _ & _ & _ & Hu)]; [by apply (Hno r' q)|].
    by destruct (proj2 Hu r i).
  - intros r i r' i' t Hr Hr'. rewrite !Hlk by (done || constructor). by apply (forest_share _ _ _ _ HF).
  - intros r i Hr Hs. assert (dir_index i) by (destruct Hs as (? & Hs & _); apply Hs).
    rewrite Hpde by done. rewrite Hsh in Hs by done. by apply (forest_shared _ _ _ _ HF).
  - intros r r' i t j Hr Hr' Hj Hl Hl'. rewrite Hlk in Hl, Hl' by done.
    rewrite (Hpte r), (Hpte r') by (done || apply Hl). by apply (forest_same _ _ _ _ HF) with t.
  - intros r i j Hr Hi Hj. rewrite Hpde, Hpte by done. by apply (forest_leaf _ _ _ _ HF).
  - intros r i j Hr Hu. rewrite Hpde, Hpte by (done || apply Hu). apply (forest_user _ _ _ _ HF); [done|by apply Hus].
  - intros r i j r' i' j' Hr Hr' Hu Hu'. rewrite (Hpte r), (Hpte r') by (done || apply Hu || apply Hu').
    apply (forest_user_inj _ _ _ _ HF); [done..|by apply Hus|by apply Hus].
  - intros x Hx Ha Ho. destruct (forest_mapped _ _ _ _ HF x Hx Ha Ho) as (r & i & j & Hr & Hu & Hf).
    exists r, i, j. rewrite Hus, Hpte by (done || apply Hu). done.
  - intros r i j Hr Hi Hj Hn. rewrite Hsh, Hpte by done. by apply (forest_low _ _ _ _ HF).
Qed.

(** Views that agree on every space have the same invariant. *)
Lemma forest_view K L V V' own : forest K L V own -> view_on (K :: L) V V' -> forest K L V' own.
Proof.
  intros HF (Hn & Hd & Ht). apply (forest_renode K L V V' own K 0 0 HF); try done; [constructor|by auto|].
  right. left. apply Hn. constructor.
Qed.

(** ** Spaces *)

(** A new space starts with the kernel's directory entries, in frames of its own. *)
Lemma forest_new_space K L L' V V' own r1 : forest K L V own -> view_on (K :: L) V V' ->
  NoDup (K :: L') -> (forall r, r ∈ K :: L' <-> r = r1 \/ r ∈ K :: L) ->
  node V' r1 (-1) = Some r1 ->
  (forall q x, node V' r1 q = Some x -> low_page x /\ own x = Kernel /\ unused K L V x) ->
  (forall q q' x, node V' r1 q = Some x -> node V' r1 q' = Some x -> q = q') ->
  (forall i, dir_index i -> pde V' r1 i = pde V K i) ->
  (forall i j, dir_index i -> table_index j -> pte V' r1 i j = pte V K i j) ->
  forest K L' V' own.
Proof.
  intros HF0 HV0 Hnd HR Hroot Hnode1 Hinj1 Hpde1 Hpte1.
  assert (forest K L V' own) as HF by by eapply forest_view.
  assert (K ∈ K :: L) as HK by constructor.
  assert (forall q x, node V' r1 q = Some x -> unused K L V' x) as Hunused.
  { intros q x Hq. destruct (Hnode1 q x Hq) as (_ & _ & H1 & H2). split; intros r z Hr.
    - rewrite (proj1 HV0) by done. by apply H1.
    - rewrite (view_on_linked (K :: L) V V') by done. by apply H2. }
  assert (forall i, dir_index i -> pde V' r1 i = pde V' K i) as Hpde
    by (intros i Hi; rewrite Hpde1 by done; symmetry; by apply HV0).
  assert (forall i j, dir_index i -> table_index j -> pte V' r1 i j = pte V' K i j) as Hpte
    by (intros i j Hi Hj; rewrite Hpte1 by done; symmetry; by apply HV0).
  (* every statement about [r1]'s entries is one about the kernel's *)
  set (k := fun r => if decide (r = r1) then K else r).
  assert (forall r, r ∈ K :: L' -> k r ∈ K :: L) as Hk.
  { intros r Hr. unfold k. case_decide; [done|]. apply HR in Hr as [|]; done. }
  assert (forall r i, dir_index i -> pde V' r i = pde V' (k r) i) as Hd
    by (intros r i Hi; unfold k; case_decide; [subst; by apply Hpde|done]).
  assert (forall r i j, dir_index i -> table_index j -> pte V' r i j = pte V' (k r) i j) as Ht
    by (intros r i j Hi Hj; unfold k; case_decide; [subst; by apply Hpte|done]).
  assert (forall r i t, linked V' r i t <-> linked V' (k r) i t) as Hl
    by (intros r i t; unfold linked; split; intros (Hi & H); rewrite (Hd r i Hi) in *; done).
  assert (k K = K) as HkK by (unfold k; by case_decide).
  assert (forall r i, shared V' K r i <-> shared V' K (k r) i) as Hs
    by (intros r i; unfold shared; by setoid_rewrite (Hl r)).
  assert (forall r i j, user_page V' r i j <-> user_page V' (k r) i j) as Hu
    by (intros r i j; unfold user_page; split; intros (Hi & Hj & H); rewrite (Ht r i j Hi Hj) in *; done).
  assert (forall r i j, r ∈ K :: L' -> user_page V' r i j -> r ∈ K :: L) as Hold.
  { intros r i j Hr Hp. apply HR in Hr as [->|]; [|done]. rewrite (Hu r1) in Hp. unfold k in Hp.
    rewrite decide_True in Hp by done. by destruct (kernel_no_user K L V' own i j HF). }
  split; try done.
  - intros r Hr. apply HR in Hr as [->|]; [done|by apply HF].
  - intros r q x Hr Hn. apply HR in Hr as [->|]; [|by apply (forest_node _ _ _ _ HF r q)].
    by destruct (Hnode1 q x Hn) as (? & ? & _).
  - intros r q r' q' x Hr Hr' H1 H2. apply HR in Hr as [->|Hr]; apply HR in Hr' as [->|Hr'].
    + split; [done|]. by eapply Hinj1.
    + by destruct (proj1 (Hunused q x H1) r' q').
    + by destruct (proj1 (Hunused q' x H2) r q).
    + by apply (forest_node_inj _ _ _ _ HF r q r' q' x).
  - intros r i t Hr Hlk. assert (dir_index i) by apply Hlk. rewrite (Hd r) by done. rewrite (Hl r) in Hlk.
    destruct (forest_link _ _ _ _ HF _ i t (Hk r Hr) Hlk) as (? & ? & ? & ? & Hno). do 4 (split; [done|]).
    intros r' q Hr' Hn. apply HR in Hr' as [->|]; [|by apply (Hno r' q)].
    by destruct (proj2 (Hunused q t Hn) (k r) i (Hk r Hr)).
  - intros r i r' i' t Hr Hr' H1 H2. rewrite (Hl r) in H1. rewrite (Hl r') in H2.
    destruct (forest_share _ _ _ _ HF _ i _ i' t (Hk r Hr) (Hk r' Hr') H1 H2) as [-> [Heq|]]; [|by auto].
    split; [done|]. unfold k in Heq, H1, H2. repeat case_decide; subst; auto.
  - intros r i Hr Hsh. assert (dir_index i) by (destruct Hsh as (? & Hsh & _); apply Hsh).
    rewrite (Hd r) by done. rewrite (Hs r) in Hsh. apply (forest_shared _ _ _ _ HF); [by apply Hk|done].
  - intros r r' i t j Hr Hr' Hj H1 H2. assert (dir_index i) by apply H1. rewrite (Ht r), (Ht r') by done.
    rewrite (Hl r) in H1. rewrite (Hl r') in H2. apply (forest_same _ _ _ _ HF) with t; [by apply Hk|by apply Hk|done..].
  - intros r i j Hr Hi Hj. rewrite (Hd r), (Ht r) by done. apply (forest_leaf _ _ _ _ HF); [by apply Hk|done..].
  - intros r i j Hr Hp. apply (forest_user _ _ _ _ HF); [by eapply Hold|done].
  - intros r i j r' i' j' Hr Hr' H1 H2. apply (forest_user_inj _ _ _ _ HF); [by eapply Hold..|done|done].
  - intros x Hx Ha Ho. destruct (forest_mapped _ _ _ _ HF x Hx Ha Ho) as (r & i & j & Hr & Hp).
    exists r, i, j. split; [apply HR; by right|done].
  - intros r i j Hr Hi Hj Hn. rewrite (Ht r), (Hs r) by done. apply (forest_low _ _ _ _ HF); [by apply Hk|done..].
Qed.

(** Dropping spaces; what they owned may have any owner afterwards. *)
Lemma forest_drop_space K L L' V own own' : forest K L V own -> NoDup (K :: L') ->
  (forall r, r ∈ K :: L' -> r ∈ K :: L) ->
  (forall r q x, r ∈ K :: L' -> node V r q = Some x -> own' x = Kernel) ->
  (forall r i t, r ∈ K :: L' -> linked V r i t -> own' t = Kernel) ->
  (forall r i j, r ∈ K :: L' -> user_page V r i j -> own' (frame_of (pte V r i j)) = User true) ->
  (forall x, is_u32 x -> x mod 4096 = 0 -> own' x = User true ->
     own x = User true /\ forall r i j, r ∈ K :: L -> user_page V r i j -> frame_of (pte V r i j) = x -> r ∈ K :: L') ->
  forest K L' V own'.
Proof.
  intros HF Hnd HR Hn Hl Hu Hm. split; try done.
  - intros r Hr. by apply HF, HR.
  - intros r q x Hr Hq. split; [|by eapply Hn]. by apply (forest_node _ _ _ _ HF r q x (HR r Hr)).
  - intros r q r' q' x Hr Hr'. apply (forest_node_inj _ _ _ _ HF); by apply HR.
  - intros r i t Hr Hk. destruct (forest_link _ _ _ _ HF r i t (HR r Hr) Hk) as (? & _ & ? & ? & Hno).
    split; [done|]. split; [by eapply Hl|]. do 2 (split; [done|]). intros r' q Hr'. by apply Hno, HR.
  - intros r i r' i' t Hr Hr'. apply (forest_share _ _ _ _ HF); by apply HR.
  - intros r i Hr. by apply (forest_shared _ _ _ _ HF), HR.
  - intros r r' i t j Hr Hr'. apply (forest_same _ _ _ _ HF); by apply HR.
  - intros r i j Hr. by apply (forest_leaf _ _ _ _ HF), HR.
  - intros r i j Hr Hp. destruct (forest_user _ _ _ _ HF r i j (HR r Hr) Hp) as (? & _ & ?).
    split; [done|]. split; [by apply Hu|done].
  - intros r i j r' i' j' Hr Hr'. apply (forest_user_inj _ _ _ _ HF); by apply HR.
  - intros x Hx Ha Ho. destruct (Hm x Hx Ha Ho) as [Ho' Hback].
    destruct (forest_mapped _ _ _ _ HF x Hx Ha Ho') as (r & i & j & Hr & Hp & He).
    exists r, i, j. split; [by eapply Hback|done].
  - intros r i j Hr. by apply (forest_low _ _ _ _ HF), HR.
Qed.

End Forest.
