(* ===== verification/PagingView.v ===== *)
(** * The view of tables in memory

    What the words of the page tables say, as a [view], and what a write to a table, to a directory,
    to a pointer table or to an unused frame changes of it. *)

From S2P Require Import Prelude Pmm PagingState PagingEntry PagingForest.
Local Open Scope Z_scope.

(** Absent entries all read 0. *)
Definition norm (v : Z) : Z := if flag v 1 then v else 0.

Lemma norm_present v : present v -> norm v = v.
Proof. unfold norm. by intros ->. Qed.

Lemma norm_absent v : ~ present v -> norm v = 0.
Proof. unfold norm, present. by destruct (flag v 1). Qed.

Lemma present_norm v : present (norm v) <-> present v.
Proof. unfold norm, present. destruct (flag v 1) eqn:E; [by rewrite E|done]. Qed.

Lemma present_0 : ~ present 0.
Proof. done. Qed.

Section View.
Context (wide : bool).

Definition node_of (m : tables) (r q : Z) : option Z :=
  if q =? -1 then Some r
  else if wide && (0 <=? q) && (q <? 4) && flag (get wide m r q) 1 then Some (hw_frame (get wide m r q)) else None.

(** Where directory entry [i] of space [r] is stored. *)
Definition slot (m : tables) (r i : Z) : option (Z * Z) :=
  if wide then match node_of m r (i / 512) with Some d => Some (d, i mod 512) | None => None end else Some (r, i).

Definition pde_of (m : tables) (r i : Z) : Z :=
  match slot m r i with Some (f, k) => norm (get wide m f k) | None => 0 end.

Definition pte_of (m : tables) (r i j : Z) : Z :=
  if flag (pde_of m r i) 1 then norm (get wide m (frame_of (pde_of m r i)) j) else 0.

Definition view_of (m : tables) : view := Build_view (node_of m) (pde_of m) (pte_of m).

Lemma slot_wide m r i : wide = true ->
  slot m r i = match node_of m r (i / 512) with Some d => Some (d, i mod 512) | None => None end.
Proof. unfold slot. by intros ->. Qed.

Lemma slot_index m r i f k : dir_index wide i -> slot m r i = Some (f, k) -> 0 <= k < entries wide.
Proof.
  unfold dir_index, directories, slot, entries. destruct wide.
  - destruct (node_of m r (i / 512)); [|done]. intros Hi [= <- <-]. dmlia.
  - intros Hi [= <- <-]. lia.
Qed.

Lemma slot_node m r i f k : slot m r i = Some (f, k) -> exists q, node_of m r q = Some f.
Proof.
  unfold slot, node_of. destruct wide.
  - intros H. destruct (if i / 512 =? -1 then _ else _) as [d|] eqn:E; [|done]. injection H as <- <-. by exists (i / 512).
  - intros [= <- <-]. by exists (-1).
Qed.

Context (leaf_ok : Z -> Prop) (K : Z) (L : list Z) (own : Z -> owner) (m : tables).
Hypothesis Hm : tables_ok m.
Hypothesis HF : forest wide leaf_ok K L (view_of m) own.

Lemma slot_inj r i r' i' f k : r ∈ K :: L -> r' ∈ K :: L ->
  dir_index wide i -> dir_index wide i' -> slot m r i = Some (f, k) -> slot m r' i' = Some (f, k) -> r = r' /\ i = i'.
Proof using HF.
  intros Hr Hr'. pose proof (forest_node_inj _ _ _ _ _ _ HF) as Hinj. cbn [node view_of] in Hinj.
  unfold dir_index, directories, slot. destruct wide.
  - intros Hi Hi'. destruct (node_of m r (i / 512)) as [d|] eqn:E; [|done].
    destruct (node_of m r' (i' / 512)) as [d'|] eqn:E'; [|done]. intros [= -> Hk] [= -> Hk'].
    destruct (Hinj _ _ _ _ _ Hr Hr' E E') as [-> Hq]. split; [done|]. dmlia.
  - intros _ _ [= <- <-] [= <- <-]. done.
Qed.

(** ** Writes that the spaces do not see *)

Lemma view_unchanged m' :
  (forall f k, ~ unused wide K L (view_of m) f -> 0 <= k < entries wide -> get wide m' f k = get wide m f k) ->
  view_on wide (K :: L) (view_of m) (view_of m').
Proof using HF.
  intros Hsame.
  assert (forall r q, r ∈ K :: L -> node_of m' r q = node_of m r q) as Hn.
  { intros r q Hr. unfold node_of. destruct (q =? -1); [done|]. destruct (wide && (0 <=? q) && (q <? 4)) eqn:E; [|done].
    simpl. rewrite Hsame; [done| |unfold entries; destruct wide; [lia|done]].
    intros [Hu _]. apply (Hu r (-1) Hr). by apply HF. }
  assert (forall r i, r ∈ K :: L -> slot m' r i = slot m r i) as Hs.
  { intros r i Hr. unfold slot. by rewrite Hn. }
  assert (forall r i, r ∈ K :: L -> dir_index wide i -> pde_of m' r i = pde_of m r i) as Hd.
  { intros r i Hr Hi. unfold pde_of. rewrite Hs by done. destruct (slot m r i) as [[f k]|] eqn:E; [|done].
    rewrite Hsame; [done| |by eapply slot_index]. destruct (slot_node m r i f k E) as [q Hq].
    intros [Hu _]. by apply (Hu r q Hr). }
  split; [done|]. split; [done|]. intros r i j Hr Hi Hj. cbn. unfold pte_of. rewrite Hd by done.
  destruct (flag (pde_of m r i) 1) eqn:E; [|done]. rewrite Hsame; [done| |done].
  intros [_ Hu]. by apply (Hu r i Hr).
Qed.

(** ** A write to a table *)

Lemma view_write_leaf r0 i0 t j0 v : r0 ∈ K :: L -> linked wide (view_of m) r0 i0 t -> table_index wide j0 ->
  entry_ok wide v ->
  let m' := put wide m t j0 v in
  (forall r q, r ∈ K :: L -> node_of m' r q = node_of m r q) /\
  (forall r i, r ∈ K :: L -> dir_index wide i -> pde_of m' r i = pde_of m r i) /\
  (forall r i, r ∈ K :: L -> linked wide (view_of m) r i t -> pte_of m' r i j0 = norm v) /\
  (forall r i j, r ∈ K :: L -> dir_index wide i -> table_index wide j ->
     ~ (linked wide (view_of m) r i t /\ j = j0) -> pte_of m' r i j = pte_of m r i j).
Proof using HF Hm.
  intros Hr0 Hl Hj0 Hv m'. assert (forall f k, 0 <= k < entries wide ->
    get wide m' f k = if decide (f = t /\ k = j0) then v else get wide m f k) as Hg by (intros; by apply get_put).
  destruct (forest_link _ _ _ _ _ _ HF r0 i0 t Hr0 Hl) as (_ & _ & _ & _ & Hno). cbn [node view_of] in Hno.
  assert (forall r q, r ∈ K :: L -> node_of m' r q = node_of m r q) as Hn.
  { intros r q Hr. unfold node_of. destruct (q =? -1); [done|]. destruct (wide && (0 <=? q) && (q <? 4)) eqn:E; [|done].
    simpl. rewrite Hg by (unfold entries; destruct wide; [lia|done]). rewrite decide_False; [done|].
    intros [-> _]. apply (Hno t (-1) Hr). done. }
  assert (forall r i, r ∈ K :: L -> dir_index wide i -> pde_of m' r i = pde_of m r i) as Hd.
  { intros r i Hr Hi. unfold pde_of, slot. rewrite Hn by done. fold (slot m r i).
    destruct (slot m r i) as [[f k]|] eqn:E; [|done]. rewrite Hg by (by eapply slot_index).
    rewrite decide_False; [done|]. intros [-> _]. destruct (slot_node _ _ _ _ _ E) as [q Hq]. by apply (Hno r q Hr). }
  split; [done|]. split; [done|]. split.
  - intros r i Hr (Hi & Hp & Hf). cbn in Hp, Hf. unfold pte_of. rewrite Hd by done. rewrite Hp, Hf, Hg by done.
    by rewrite decide_True.
  - intros r i j Hr Hi Hj Hmiss. unfold pte_of. rewrite Hd by done. destruct (flag (pde_of m r i) 1) eqn:E; [|done].
    rewrite Hg by done. rewrite decide_False; [done|]. intros [Hf ->]. by apply Hmiss.
Qed.

(** ** A write to a directory *)

Lemma view_write_pde r0 i0 f k e : r0 ∈ K :: L -> dir_index wide i0 -> slot m r0 i0 = Some (f, k) ->
  entry_ok wide e -> (present e -> forall r q, r ∈ K :: L -> node_of m r q <> Some (frame_of e)) ->
  let m' := put wide m f k e in
  (forall r q, r ∈ K :: L -> node_of m' r q = node_of m r q) /\
  pde_of m' r0 i0 = norm e /\
  (forall r i, r ∈ K :: L -> dir_index wide i -> ~ (r = r0 /\ i = i0) -> pde_of m' r i = pde_of m r i) /\
  (forall j, table_index wide j -> pte_of m' r0 i0 j = if flag e 1 then norm (get wide m (frame_of e) j) else 0) /\
  (forall r i j, r ∈ K :: L -> dir_index wide i -> table_index wide j -> ~ (r = r0 /\ i = i0) ->
     pte_of m' r i j = pte_of m r i j).
Proof using HF Hm.
  intros Hr0 Hi0 Hs He Hfr m'. pose proof (slot_index _ _ _ _ _ Hi0 Hs) as Hk.
  assert (forall g n, 0 <= n < entries wide ->
    get wide m' g n = if decide (g = f /\ n = k) then e else get wide m g n) as Hg by (intros; by apply get_put).
  assert (forall r, r ∈ K :: L -> wide = true -> r <> f) as Hrf.
  { intros r Hr Hw ->. pose proof (forest_root _ _ _ _ _ _ HF f Hr) as H1.
    unfold slot in Hs. rewrite Hw in Hs. destruct (node_of m r0 (i0 / 512)) as [d|] eqn:E; [|done].
    injection Hs as -> <-. destruct (forest_node_inj _ _ _ _ _ _ HF _ _ _ _ _ Hr0 Hr E H1) as [_ Hq].
    unfold dir_index, directories in Hi0. rewrite Hw in Hi0. clear -Hi0 Hq. dmlia. }
  assert (forall r q, r ∈ K :: L -> node_of m' r q = node_of m r q) as Hn.
  { intros r q Hr. unfold node_of. destruct (q =? -1); [done|]. destruct (wide && (0 <=? q) && (q <? 4)) eqn:E; [|done].
    simpl. rewrite Hg by (unfold entries; destruct wide; [lia|done]). rewrite decide_False; [done|].
    intros [-> _]. apply (Hrf f Hr); [|done]. by destruct wide. }
  assert (pde_of m' r0 i0 = norm e) as Hd0.
  { unfold pde_of, slot. rewrite Hn by done. fold (slot m r0 i0). rewrite Hs, Hg by done. by rewrite decide_True. }
  assert (forall r i, r ∈ K :: L -> dir_index wide i -> ~ (r = r0 /\ i = i0) -> pde_of m' r i = pde_of m r i) as Hd.
  { intros r i Hr Hi Hne. unfold pde_of, slot. rewrite Hn by done. fold (slot m r i).
    destruct (slot m r i) as [[g n]|] eqn:E; [|done]. rewrite Hg by (by eapply slot_index).
    rewrite decide_False; [done|]. intros [-> ->]. apply Hne. by apply (slot_inj r i r0 i0 f k). }
  destruct (slot_node _ _ _ _ _ Hs) as [q0 Hq0].
  do 3 (split; [done|]). split.
  - intros j Hj. unfold pte_of. rewrite Hd0. destruct (flag e 1) eqn:E; [|unfold norm; by rewrite E].
    rewrite norm_present, E, Hg by done. rewrite decide_False; [done|]. intros [Hfe _].
    apply (Hfr E r0 q0 Hr0). by rewrite Hfe.
  - intros r i j Hr Hi Hj Hne. unfold pte_of. rewrite Hd by done. destruct (flag (pde_of m r i) 1) eqn:E; [|done].
    rewrite Hg by done. rewrite decide_False; [done|]. intros [Hfe _].
    destruct (forest_link _ _ _ _ _ _ HF r i f Hr) as (_ & _ & _ & _ & Hno); [done|]. by apply (Hno r0 q0).
Qed.

(** ** A write to a pointer table *)

(** The page directory that appears or disappears is empty. *)
Lemma view_write_node r0 q0 e : wide = true -> r0 ∈ K :: L -> 0 <= q0 < 4 -> entry_ok wide e ->
  (forall i, dir_index wide i -> i / 512 = q0 -> pde_of m r0 i = 0) ->
  (present e -> hw_frame e <> r0 /\ forall k, 0 <= k < 512 -> ~ present (get wide m (hw_frame e) k)) ->
  let m' := put wide m r0 q0 e in
  (forall r q, r ∈ K :: L -> ~ (r = r0 /\ q = q0) -> node_of m' r q = node_of m r q) /\
  node_of m' r0 q0 = (if flag e 1 then Some (hw_frame e) else None) /\
  (forall r i, r ∈ K :: L -> dir_index wide i -> pde_of m' r i = pde_of m r i) /\
  (forall r i j, r ∈ K :: L -> dir_index wide i -> table_index wide j -> pte_of m' r i j = pte_of m r i j).
Proof using HF Hm.
  intros Hw Hr0 Hq0 He Hempty Hnew m'.
  assert (forall g n, 0 <= n < entries wide ->
    get wide m' g n = if decide (g = r0 /\ n = q0) then e else get wide m g n) as Hg
    by (intros; apply get_put; [done|rewrite Hw; cbn; lia|done..]).
  assert (forall r q, r ∈ K :: L -> ~ (r = r0 /\ q = q0) -> node_of m' r q = node_of m r q) as Hn.
  { intros r q Hr Hne. unfold node_of. destruct (q =? -1); [done|].
    destruct (wide && (0 <=? q) && (q <? 4)) eqn:E; [|done].
    simpl. rewrite Hg by (rewrite Hw; cbn; lia). by rewrite decide_False. }
  assert (node_of m' r0 q0 = if flag e 1 then Some (hw_frame e) else None) as Hn0.
  { unfold node_of. replace (q0 =? -1) with false by lia. replace (wide && _ && _) with true by (rewrite Hw; lia).
    simpl. rewrite Hg by (rewrite Hw; cbn; lia). by rewrite decide_True. }
  assert (forall r i, r ∈ K :: L -> dir_index wide i -> pde_of m' r i = pde_of m r i) as Hd.
  { intros r i Hr Hi. destruct (decide (r = r0 /\ i / 512 = q0)) as [[-> Hq]|Hne].
    - rewrite Hempty by done. unfold pde_of. rewrite slot_wide, Hq, Hn0 by done. destruct (flag e 1) eqn:E; [|done].
      destruct (Hnew E) as [Hfe Hz]. rewrite Hg by (rewrite Hw; cbn; dmlia).
      rewrite decide_False by (intros [? _]; done). apply norm_absent, Hz. dmlia.
    - unfold pde_of. rewrite !slot_wide, Hn by done. destruct (node_of m r (i / 512)) as [d|] eqn:E; [|done].
      rewrite Hg by (rewrite Hw; cbn; dmlia). rewrite decide_False; [done|]. intros [-> _].
      destruct (forest_node_inj _ _ _ _ _ _ HF _ _ _ _ _ Hr Hr0 E (forest_root _ _ _ _ _ _ HF r0 Hr0)) as [_ Hq].
      unfold dir_index, directories in Hi. rewrite Hw in Hi. clear -Hi Hq. dmlia. }
  do 3 (split; [done|]). intros r i j Hr Hi Hj. unfold pte_of. rewrite Hd by done.
  destruct (flag (pde_of m r i) 1) eqn:E; [|done]. rewrite Hg by done. rewrite decide_False; [done|].
  intros [Hf _]. destruct (forest_link _ _ _ _ _ _ HF r i r0 Hr) as (_ & _ & _ & _ & Hno); [done|].
  apply (Hno r0 (-1) Hr0). by apply HF.
Qed.
End View.
