(* ===== verification/PagingInv.v ===== *)
(** * The invariant of paging

    [paging_ok] relates the variables of [memory/paging.c], its tables, the frame allocator and the
    processor. This file has what each elementary step of the operations does to it: allocator
    calls, clearing a new frame, linking, marking and unlinking a table, and writing an entry. *)

From S2P Require Import Prelude Pmm PmmSpec PagingState PagingPae PagingEntry PagingForest PagingView.
Local Open Scope c_scope.
Local Open Scope Z_scope.

(** ** Ownership by address *)

Definition owner_at (s : paging) (x : Z) : owner := frame_owner (page_frames s) (x / 4096).

Definition own_set (own : Z -> owner) (a : Z) (o : owner) (x : Z) : owner := if decide (x = a) then o else own x.

(** Equal on the addresses of frames. *)
Definition own_eq (own own' : Z -> owner) : Prop := forall x, is_u32 x -> x mod 4096 = 0 -> own' x = own x.

Lemma low_page_u32 x : low_page x -> is_u32 x /\ x mod 4096 = 0 /\ 0 < x.
Proof. unfold low_page, is_u32. lia. Qed.

Lemma own_upd_set p p' a o : is_u32 a -> a mod 4096 = 0 ->
  (forall b, in_blocks b -> frame_owner p' b = own_upd (frame_owner p) (a / 4096) o b) ->
  own_eq (own_set (fun x => frame_owner p (x / 4096)) a o) (fun x => frame_owner p' (x / 4096)).
Proof.
  intros Ha Hal H x Hx Hxa. unfold own_set. rewrite H by (by apply u32_block). unfold own_upd.
  destruct (decide (x = a)) as [->|]; [by rewrite decide_True|].
  rewrite decide_False; [done|]. intros He. dmlia.
Qed.

Lemma alloc_low_spec s a s' : pmm_wf (page_frames s) -> alloc_low s = (a, s') ->
  s' = set_page_frames s (page_frames s') /\ pmm_wf (page_frames s') /\
  ((a = 0 /\ own_eq (owner_at s) (owner_at s')) \/
   (low_page a /\ owner_at s a = Free /\ own_eq (own_set (owner_at s) a Kernel) (owner_at s'))).
Proof.
  intros Hwf. unfold alloc_low. destruct (pmm_alloc_block_below _ _) as [b f] eqn:E. intros [= <- <-].
  split; [done|]. apply alloc_below_refines in E as (Hwf' & m' & Hs & Ho); [|done|unfold is_u32, LOW_IDENTITY_LIMIT; lia].
  split; [done|]. inversion Hs; subst.
  - right. assert (low_page (b0 * 4096)) as Hlow by (unfold low_page, PMM_LOW_MEMORY_END, LOW_IDENTITY_LIMIT in *; dmlia).
    pose proof (low_page_u32 _ Hlow) as (Hu & Hal & _). split; [done|].
    unfold owner_at at 1. rewrite Z.div_mul by lia. split; [done|].
    apply own_upd_set; [done..|]. rewrite Z.div_mul by lia. done.
  - left. split; [done|]. intros x Hx _. apply Ho. by apply u32_block.
Qed.

Lemma claim_frame_spec s a ok s' : pmm_wf (page_frames s) -> is_u32 a -> claim_frame a s = (ok, s') ->
  s' = set_page_frames s (page_frames s') /\ pmm_wf (page_frames s') /\
  if ok then a mod 4096 = 0 /\ owner_at s a = User false /\ own_eq (own_set (owner_at s) a (User true)) (owner_at s')
  else own_eq (owner_at s) (owner_at s').
Proof.
  intros Hwf Ha. unfold claim_frame. destruct (pmm_claim_user_block _ _) as [c f] eqn:E. intros [= <- <-].
  split; [done|]. apply claim_refines in E as (Hwf' & m' & Hs & Ho); [|done..]. split; [done|].
  inversion Hs; subst; destruct c; try done.
  - assert (b * 4096 mod 4096 = 0) by (apply Z.mod_mul; lia). split; [done|].
    unfold owner_at at 1. rewrite Z.div_mul by lia. split; [done|].
    apply own_upd_set; [done..|]. by rewrite Z.div_mul by lia.
  - intros x Hx _. apply Ho. by apply u32_block.
Qed.

Lemma release_frame_spec s a : pmm_wf (page_frames s) -> is_u32 a -> a mod 4096 = 0 -> owner_at s a = User true ->
  pmm_wf (page_frames (release_frame a s)) /\
  own_eq (own_set (owner_at s) a (User false)) (owner_at (release_frame a s)).
Proof.
  intros Hwf Ha Hal Ho. destruct (release_refines a _ Hwf Ha) as (Hwf' & m' & Hs & Hm). split; [done|].
  apply own_upd_set; [done..|]. intros b Hb. cbn. rewrite Hm by done. inversion Hs; subst.
  - by rewrite Z.div_mul by lia.
  - naive_solver.
Qed.

Lemma free_frame_spec s a : pmm_wf (page_frames s) -> is_u32 a -> a mod 4096 = 0 ->
  owner_at s a = Kernel \/ owner_at s a = User false ->
  pmm_wf (page_frames (free_frame a s)) /\ own_eq (own_set (owner_at s) a Free) (owner_at (free_frame a s)).
Proof.
  intros Hwf Ha Hal Ho. destruct (free_refines a _ Hwf Ha) as (Hwf' & m' & Hs & Hm). split; [done|].
  apply own_upd_set; [done..|]. intros b Hb. cbn. rewrite Hm by done. inversion Hs; subst.
  - by rewrite Z.div_mul by lia.
  - unfold owner_at in Ho. naive_solver.
Qed.

(** ** Entries the code writes *)

(** Every present page-table entry: a frame that is not the first one and lies below 4 GiB, not both
    writable and executable, and with hardware support not executable unless marked so. *)
Definition leaf_policy (nx : bool) (v : Z) : Prop :=
  narrow v /\ frame_of v <> 0 /\ (flag v 2 = true -> flag v 0x200 = false) /\ (nx = true -> flag v PAE_NX = negb (flag v 0x200)).

Lemma entry_user_u32 v : is_u32 v -> is_u32 (Z.lor v 4).
Proof. intros H. apply (lor_range v 4 32); unfold is_u32 in *; lia. Qed.

(** Setting the user bit keeps the rest of an entry. *)
Lemma entry_user_bit v : narrow v ->
  frame_of (Z.lor v 4) = frame_of v /\ narrow (Z.lor v 4) /\ flag (Z.lor v 4) 1 = flag v 1 /\
  flag (Z.lor v 4) 2 = flag v 2 /\ flag (Z.lor v 4) 4 = true.
Proof.
  intros Hn. split; [by rewrite !frame_of_land64, Z.land_lor_distr_l, Z.lor_0_r|].
  split; [apply narrow_lor; [done|apply narrow_u32; unfold is_u32; lia]|].
  rewrite !flag_lor, !orb_false_r. split; [done|]. split; [done|]. apply orb_true_r.
Qed.

(** ** Steps *)

Section Steps.
Context (wide nx : bool) (K : Z) (L : list Z).
#[local] Notation R := (K :: L).
#[local] Notation forest_of m own := (forest wide (leaf_policy nx) K L (view_of wide m) own).

(** The tables and the forest. *)
Definition spaces_ok (m : tables) (own : Z -> owner) : Prop := tables_ok m /\ forest_of m own.

(** The same pages in every space. *)
Definition same_pages (m m' : tables) : Prop := forall r i j, r ∈ R -> dir_index wide i -> table_index wide j ->
  pte_of wide m' r i j = pte_of wide m r i j.

Lemma same_pages_refl m : same_pages m m.
Proof. done. Qed.

Lemma same_pages_trans m1 m2 m3 : same_pages m1 m2 -> same_pages m2 m3 -> same_pages m1 m3.
Proof. intros H1 H2 r i j Hr Hi Hj. by rewrite H2, H1. Qed.

Lemma spaces_ok_own m own own' : spaces_ok m own -> own_eq own own' -> spaces_ok m own'.
Proof.
  intros [Hm HF] He. split; [done|]. eapply forest_own; [done| |].
  - intros x Hx _ Ho. pose proof (low_page_u32 x Hx) as (? & ? & _). by rewrite He.
  - intros x Hx Ha. by rewrite He.
Qed.

(** A free frame becomes the kernel's. *)
Lemma spaces_ok_alloc m own own' a : spaces_ok m own -> own a = Free -> low_page a ->
  own_eq (own_set own a Kernel) own' ->
  spaces_ok m own' /\ unused wide K L (view_of wide m) a /\ own' a = Kernel.
Proof.
  intros [Hm HF] Ha Hlow He. pose proof (low_page_u32 a Hlow) as (? & ? & _). split; [split; [done|]|].
  - eapply forest_own; [done| |].
    + intros x Hx _ Ho. pose proof (low_page_u32 x Hx) as (? & ? & _). rewrite He by done. unfold own_set.
      by case_decide.
    + intros x Hx Hal. rewrite He by done. unfold own_set. case_decide; [subst; by rewrite Ha|done].
  - split; [|rewrite He by done; unfold own_set; by rewrite decide_True].
    eapply not_kernel_unused; [done|]. by rewrite Ha.
Qed.

(** An unused frame is freed. *)
Lemma spaces_ok_free m own own' a : spaces_ok m own -> own a = Kernel -> unused wide K L (view_of wide m) a ->
  own_eq (own_set own a Free) own' -> spaces_ok m own'.
Proof.
  intros [Hm HF] Ha Hun He. split; [done|]. eapply forest_own; [done| |].
  - intros x Hx Hused Ho. pose proof (low_page_u32 x Hx) as (? & ? & _). rewrite He by done. unfold own_set.
    case_decide; [by subst|done].
  - intros x Hx Hal. rewrite He by done. unfold own_set. case_decide; [subst; by rewrite Ha|done].
Qed.

(** A frame no space uses is rewritten. *)
Lemma spaces_ok_fresh m own m' a : spaces_ok m own -> unused wide K L (view_of wide m) a -> tables_ok m' ->
  (forall f k, f <> a -> 0 <= k < entries wide -> get wide m' f k = get wide m f k) ->
  spaces_ok m' own /\ same_pages m m' /\ unused wide K L (view_of wide m') a /\
  (forall r i, r ∈ R -> slot wide m' r i = slot wide m r i) /\
  (forall r i, r ∈ R -> dir_index wide i -> pde_of wide m' r i = pde_of wide m r i).
Proof.
  intros [Hm HF] Hun Hm' Hsame.
  assert (view_on wide R (view_of wide m) (view_of wide m')) as HV.
  { eapply view_unchanged; [done|]. intros f k Hf Hk. apply Hsame; [|done]. intros ->. done. }
  split; [split; [done|by eapply forest_view]|]. split; [intros r i j ? ? ?; by apply HV|].
  split; [|split; [|intros r i ? ?; by apply HV]].
  - split; intros r z Hr.
    + rewrite (proj1 HV) by done. by apply Hun.
    + rewrite (view_on_linked wide R _ _ r z a HV Hr). by apply Hun.
  - intros r i Hr. unfold slot. pose proof (proj1 HV r (i / 512) Hr) as Hn. cbn in Hn. by rewrite Hn.
Qed.

(** ** Directory entries *)

Lemma step_relink m own r0 i0 f k e : spaces_ok m own -> r0 ∈ R -> dir_index wide i0 ->
  slot wide m r0 i0 = Some (f, k) -> entry_ok wide e ->
  (forall j, table_index wide j ->
     (if flag e 1 then norm (get wide m (frame_of e) j) else 0) = pte_of wide m r0 i0 j) ->
  (forall j, table_index wide j -> user_entry (pte_of wide m r0 i0 j) -> flag e 4 = true) ->
  (present e -> low_page (frame_of e) /\ own (frame_of e) = Kernel /\ flag e 2 = true /\ narrow e /\
     (linked wide (view_of wide m) r0 i0 (frame_of e) \/
      (~ present (pde_of wide m r0 i0) /\ unused wide K L (view_of wide m) (frame_of e)))) ->
  (present e -> flag e 4 = true -> r0 <> K /\ ~ shared wide (view_of wide m) K r0 i0) ->
  (present (pde_of wide m r0 i0) -> ~ present e -> forall r, r ∈ R ->
     linked wide (view_of wide m) r i0 (frame_of (pde_of wide m r0 i0)) -> r = r0) ->
  let m' := put wide m f k e in
  spaces_ok m' own /\ same_pages m m' /\ pde_of wide m' r0 i0 = norm e /\
  (forall r i, r ∈ R -> dir_index wide i -> ~ (r = r0 /\ i = i0) -> pde_of wide m' r i = pde_of wide m r i) /\
  (forall r q, r ∈ R -> node_of wide m' r q = node_of wide m r q).
Proof.
  intros [Hm HF] Hr0 Hi0 Hs He Hsame Hu Hlink Huser Hdrop m'.
  destruct (view_write_pde wide _ K L own m Hm HF r0 i0 f k e Hr0 Hi0 Hs He) as (Hn & Hd0 & Hd & Ht0 & Ht).
  { intros Hp r q Hr. destruct (Hlink Hp) as (_ & _ & _ & _ & [Hl|[_ Hun]]); [|by apply Hun].
    by apply (forest_link _ _ _ _ _ _ HF r0 i0 _ Hr0 Hl). }
  assert (same_pages m m') as Hpages.
  { intros r i j Hr Hi Hj. destruct (decide (r = r0 /\ i = i0)) as [[-> ->]|]; [|by apply Ht].
    unfold m'. rewrite Ht0 by done. by apply Hsame. }
  split; [|done]. split; [by apply put_tables_ok|].
  assert (present (norm e) <-> present e) as Hpn by apply present_norm.
  assert (present e -> norm e = e) as Hne by apply norm_present.
  eapply (forest_relink _ _ K L (view_of wide m) (view_of wide m') own r0 i0 (norm e) HF); cbn [node pde pte view_of]; try done.
  - intros j Hj Hp. rewrite <- Hsame in Hp by done. destruct (flag e 1) eqn:E; [|done].
    split; [by rewrite Hne|]. rewrite Hne by done. by apply Hu.
  - rewrite Hpn. intros Hp. rewrite Hne by done. by apply Hlink.
  - rewrite Hpn. intros Hp. rewrite Hne by done. by apply Huser.
  - intros Hp Hnp. apply Hdrop; [done|]. by rewrite <- Hpn.
Qed.

(** A private table is opened to user mode. *)
Lemma step_mark_user m own r0 i0 f k t : spaces_ok m own -> r0 ∈ R -> r0 <> K ->
  linked wide (view_of wide m) r0 i0 t -> ~ shared wide (view_of wide m) K r0 i0 ->
  slot wide m r0 i0 = Some (f, k) ->
  let e := Z.lor (get wide m f k) 4 in
  let m' := put wide m f k e in
  spaces_ok m' own /\ same_pages m m' /\ pde_of wide m' r0 i0 = e /\ present e /\ frame_of e = t /\
  (forall r i, r ∈ R -> dir_index wide i -> ~ (r = r0 /\ i = i0) -> pde_of wide m' r i = pde_of wide m r i) /\
  (forall r q, r ∈ R -> node_of wide m' r q = node_of wide m r q).
Proof.
  intros [Hm HF] Hr0 HrK Hl Hns Hs e m'. pose proof Hl as (Hi0 & Hp & Hf). cbn in Hp, Hf.
  destruct (forest_link _ _ _ _ _ _ HF r0 i0 t Hr0 Hl) as (Hlow & Hk & Hw & Hnar & Hno). cbn in Hw, Hnar.
  assert (pde_of wide m r0 i0 = get wide m f k) as Hpde.
  { unfold pde_of in Hp |- *. rewrite Hs in *. apply norm_present. by apply present_norm. }
  rewrite Hpde in *. pose proof (entry_user_bit (get wide m f k) Hnar) as (Hfe & Hne & H1 & H2 & H4).
  fold e in Hfe, Hne, H1, H2, H4.
  assert (present e) as Hpe by (unfold present; by rewrite H1).
  destruct (step_relink m own r0 i0 f k e) as (? & ? & Hpde' & ? & ?); try done.
  - destruct wide; [apply Hne|]. destruct (get_ok false m f k Hm) as [? ?]. cbn in *. by apply entry_user_u32.
  - intros j Hj. rewrite Hpe, Hfe. unfold pte_of. by rewrite Hpde, Hp.
  - intros _. rewrite Hfe, Hf. split; [done|]. split; [done|]. split; [by rewrite H2|]. split; [done|]. by left.
  - rewrite norm_present in Hpde' by done. rewrite Hfe. done.
Qed.

(** A new empty table. *)
Lemma step_link m own r0 i0 f k e t : spaces_ok m own -> r0 ∈ R -> dir_index wide i0 ->
  slot wide m r0 i0 = Some (f, k) -> ~ present (pde_of wide m r0 i0) ->
  low_page t -> own t = Kernel -> unused wide K L (view_of wide m) t ->
  (forall j, table_index wide j -> ~ present (get wide m t j)) ->
  entry_ok wide e -> present e -> flag e 2 = true -> narrow e -> frame_of e = t -> (flag e 4 = true -> r0 <> K) ->
  let m' := put wide m f k e in
  spaces_ok m' own /\ same_pages m m' /\ pde_of wide m' r0 i0 = e /\
  (forall r i, r ∈ R -> dir_index wide i -> ~ (r = r0 /\ i = i0) -> pde_of wide m' r i = pde_of wide m r i) /\
  (forall r q, r ∈ R -> node_of wide m' r q = node_of wide m r q).
Proof.
  intros Hok Hr0 Hi0 Hs Hnp Hlow Hk Hun Hz He Hp Hw Hn Hf Hu m'.
  assert (forall j, pte_of wide m r0 i0 j = 0) as H0 by (intros j; unfold pte_of, present in *; by destruct (flag _ 1)).
  destruct (step_relink m own r0 i0 f k e) as (? & ? & Hpde & ? & ?); try done.
  - intros j Hj. rewrite H0, Hp, Hf. by apply norm_absent, Hz.
  - intros j Hj. rewrite H0. by intros [? _].
  - intros _. rewrite Hf. do 4 (split; [done|]). by right.
  - intros _ H4. split; [by apply Hu|]. intros (x & (_ & Hx & _) & _). done.
  - rewrite norm_present in Hpde by done. done.
Qed.

(** The last entry of a private table is gone. *)
Lemma step_unlink m own r0 i0 f k t : spaces_ok m own -> r0 ∈ R ->
  linked wide (view_of wide m) r0 i0 t -> slot wide m r0 i0 = Some (f, k) ->
  (forall j, table_index wide j -> pte_of wide m r0 i0 j = 0) ->
  (forall r, r ∈ R -> linked wide (view_of wide m) r i0 t -> r = r0) ->
  let m' := put wide m f k 0 in
  spaces_ok m' own /\ same_pages m m' /\ pde_of wide m' r0 i0 = 0 /\ unused wide K L (view_of wide m') t /\
  (forall r i, r ∈ R -> dir_index wide i -> ~ (r = r0 /\ i = i0) -> pde_of wide m' r i = pde_of wide m r i) /\
  (forall r q, r ∈ R -> node_of wide m' r q = node_of wide m r q).
Proof.
  intros Hok Hr0 Hl Hs Hz Hsole m'. pose proof Hl as (Hi0 & Hp & Hf). cbn in Hp, Hf.
  destruct (step_relink m own r0 i0 f k 0) as (Hok' & ? & Hpde & Hd & Hn); try done.
  - unfold entry_ok, is_u64, is_u32. destruct wide; lia.
  - intros j Hj. by rewrite Hz.
  - intros j Hj. rewrite Hz by done. by intros [? _].
  - intros _ _ r Hr. rewrite Hf. by apply Hsole.
  - do 3 (split; [done|]). split; [|done]. destruct Hok as [Hm HF].
    destruct (forest_link _ _ _ _ _ _ HF r0 i0 t Hr0 Hl) as (_ & _ & _ & _ & Hno). split; intros r z Hr.
    + cbn. rewrite Hn by done. by apply Hno.
    + intros Hlz. destruct (decide (r = r0 /\ z = i0)) as [[-> ->]|Hne].
      { destruct Hlz as (_ & Hlz & _). cbn in Hlz. fold m' in Hpde. rewrite Hpde in Hlz. done. }
      assert (linked wide (view_of wide m) r z t) as Hlo.
      { destruct Hlz as (Hz' & H1 & H2). cbn in H1, H2. fold m' in Hd. rewrite Hd in H1, H2 by done. done. }
      destruct (forest_share _ _ _ _ _ _ HF r z r0 i0 t Hr Hr0 Hlo Hl) as [-> _]. apply Hne. split; [|done].
      by apply Hsole.
Qed.

(** ** Pointer tables *)

Lemma step_add_directory m own r0 q0 e d : wide = true -> spaces_ok m own -> r0 ∈ R -> 0 <= q0 < 4 ->
  node_of wide m r0 q0 = None -> low_page d -> own d = Kernel -> unused wide K L (view_of wide m) d ->
  (forall k, 0 <= k < 512 -> ~ present (get wide m d k)) ->
  entry_ok wide e -> present e -> hw_frame e = d ->
  let m' := put wide m r0 q0 e in
  spaces_ok m' own /\ same_pages m m' /\ node_of wide m' r0 q0 = Some d /\
  (forall r i, r ∈ R -> dir_index wide i -> pde_of wide m' r i = pde_of wide m r i) /\
  (forall r q, r ∈ R -> ~ (r = r0 /\ q = q0) -> node_of wide m' r q = node_of wide m r q).
Proof.
  intros Hw [Hm HF] Hr0 Hq Hnone Hlow Hk Hun Hz He Hp Hf m'.
  destruct (view_write_node wide _ K L own m Hm HF r0 q0 e) as (Hn & Hn0 & Hd & Ht); try done.
  - intros i Hi Hiq. unfold pde_of. by rewrite slot_wide, Hiq, Hnone.
  - intros _. rewrite Hf. split; [|done]. intros ->. apply (proj1 Hun r0 (-1) Hr0). by apply HF.
  - rewrite Hp, Hf in Hn0. split; [|done]. split; [by apply put_tables_ok|].
    apply (forest_renode _ _ K L (view_of wide m) (view_of wide m') own r0 q0 d); try done; [lia|].
    right. right. done.
Qed.

Lemma step_drop_directory m own r0 q0 d : wide = true -> spaces_ok m own -> r0 ∈ R -> 0 <= q0 < 4 ->
  node_of wide m r0 q0 = Some d ->
  (forall k, 0 <= k < 512 -> ~ present (get wide m d k)) ->
  let m' := put wide m r0 q0 0 in
  spaces_ok m' own /\ same_pages m m' /\ unused wide K L (view_of wide m') d /\
  (forall r i, r ∈ R -> dir_index wide i -> pde_of wide m' r i = pde_of wide m r i) /\
  (forall r q, r ∈ R -> ~ (r = r0 /\ q = q0) -> node_of wide m' r q = node_of wide m r q).
Proof.
  intros Hw [Hm HF] Hr0 Hq Hsome Hz m'.
  destruct (view_write_node wide _ K L own m Hm HF r0 q0 0) as (Hn & Hn0 & Hd & Ht); try done.
  - rewrite Hw. unfold entry_ok, is_u64. lia.
  - intros i Hi Hiq. unfold pde_of. rewrite slot_wide, Hiq, Hsome by done. apply norm_absent, Hz. dmlia.
  - change (node_of wide m' r0 q0 = None) in Hn0.
    assert (forest_of m' own) as HF'.
    { apply (forest_renode _ _ K L (view_of wide m) (view_of wide m') own r0 q0 d); try done; [lia|]. by left. }
    split; [split; [|done]; apply put_tables_ok; [done|rewrite Hw; unfold entry_ok, is_u64; lia]|].
    split; [done|]. split; [|done]. split; intros r z Hr.
    + intros Hz'. cbn in Hz'. destruct (decide (r = r0 /\ z = q0)) as [[-> ->]|Hne]; [by rewrite Hn0 in Hz'|].
      fold m' in Hn. rewrite Hn in Hz' by done.
      apply Hne. by apply (forest_node_inj _ _ _ _ _ _ HF r z r0 q0 d).
    + intros (Hi & H1 & H2). cbn in H1, H2. fold m' in Hd. rewrite Hd in H1, H2 by done.
      destruct (forest_link _ _ _ _ _ _ HF r z d Hr) as (_ & _ & _ & _ & Hno); [done|]. by apply (Hno r0 q0).
Qed.

(** ** Page-table entries *)

(** What a write to entry [j0] of table [t] does to the pages. *)
Definition pages_written (m m' : tables) (t j0 v : Z) : Prop :=
  (forall r i, r ∈ R -> linked wide (view_of wide m) r i t -> pte_of wide m' r i j0 = norm v) /\
  (forall r i j, r ∈ R -> dir_index wide i -> table_index wide j ->
     ~ (linked wide (view_of wide m) r i t /\ j = j0) -> pte_of wide m' r i j = pte_of wide m r i j).

Section Write.
Context (m : tables) (own : Z -> owner) (r0 i0 j0 t v : Z).
Hypothesis Hok : spaces_ok m own.
Hypothesis Hr0 : r0 ∈ R.
Hypothesis Hl : linked wide (view_of wide m) r0 i0 t.
Hypothesis Hj0 : table_index wide j0.
Hypothesis Hv : entry_ok wide v.
#[local] Notation m' := (put wide m t j0 v).
#[local] Notation old := (pte_of wide m r0 i0 j0).

Lemma write_effect : pages_written m m' t j0 v /\
  (forall r i, r ∈ R -> dir_index wide i -> pde_of wide m' r i = pde_of wide m r i) /\
  (forall r q, r ∈ R -> node_of wide m' r q = node_of wide m r q).
Proof using All.
  destruct Hok as [Hm HF].
  destruct (view_write_leaf wide _ K L own m Hm HF r0 i0 t j0 v Hr0 Hl Hj0 Hv) as (Hn & Hd & Hhit & Hmiss). done.
Qed.

(** The entry stays what it was for user mode: absent, supervisor, or the same user frame. *)
Lemma step_rewrite :
  (present v -> leaf_policy nx v) -> (user_entry v <-> user_entry old) ->
  (user_entry v -> frame_of v = frame_of old) ->
  (1 <= page_number wide i0 j0 < 1024 -> present v /\ frame_of v = page_number wide i0 j0 * 4096) ->
  spaces_ok m' own.
Proof using All.
  intros Hpol Hiff Hsame Hlow. destruct Hok as [Hm HF]. destruct write_effect as ([Hhit Hmiss] & Hd & Hn).
  split; [by apply put_tables_ok|].
  assert (user_entry (norm v) <-> user_entry v) as Hnu.
  { unfold user_entry, norm. destruct (flag v 1) eqn:E; [by rewrite E|]. split; by intros [? _]. }
  assert (present v -> norm v = v) as Hne by apply norm_present.
  assert (user_entry v -> norm v = v) as Hnu' by (intros [? _]; by apply Hne).
  eapply (forest_write _ _ K L (view_of wide m) (view_of wide m') own own r0 i0 j0 t (norm v) HF); try done.
  - rewrite present_norm. intros Hp. rewrite Hne by done. by apply Hpol.
  - rewrite Hnu. intros Hu. rewrite Hnu' by done. pose proof (proj1 Hiff Hu) as Hold.
    assert (user_page wide (view_of wide m) r0 i0 j0) as Hup by (split; [apply Hl|done]).
    destruct (forest_user _ _ _ _ _ _ HF r0 i0 j0 Hr0 Hup) as (? & Ho & ?).
    split; [by eapply user_not_shared|]. split; [done|]. rewrite Hsame by done. split; [done|]. split; [done|].
    intros r i j Hr Hp He. by apply (forest_user_inj _ _ _ _ _ _ HF).
  - auto.
  - cbn. intros x Hx Ha Ho. rewrite Hnu. destruct (decide (user_entry old /\ x = frame_of old)) as [[Hu ->]|]; [left|by right].
    split; [by apply Hiff|]. rewrite Hnu' by (by apply Hiff). symmetry. apply Hsame. by apply Hiff.
  - intros Hrange. rewrite present_norm. destruct (Hlow Hrange). by rewrite Hne.
Qed.

(** A user frame is claimed and mapped. *)
Lemma step_map_user own' : ~ present old -> user_entry v -> leaf_policy nx v ->
  ~ shared wide (view_of wide m) K r0 i0 -> flag (pde_of wide m r0 i0) 4 = true ->
  1024 <= page_number wide i0 j0 < 786432 -> own (frame_of v) = User false ->
  own_eq (own_set own (frame_of v) (User true)) own' ->
  spaces_ok m' own'.
Proof using All.
  intros Hold Hu Hpol Hns Hpu Hrange Hfree Hown. destruct Hok as [Hm HF].
  destruct write_effect as ([Hhit Hmiss] & Hd & Hn). split; [by apply put_tables_ok|].
  assert (norm v = v) as Hne by (apply norm_present, Hu). rewrite Hne in Hhit.
  assert (~ user_entry old) as Hnu by (intros [? _]; done).
  pose proof (frame_of_u32 v). pose proof (frame_of_aligned v).
  eapply (forest_write _ _ K L (view_of wide m) (view_of wide m') own own' r0 i0 j0 t v HF); try done.
  - intros _. do 2 (split; [done|]). split; [rewrite Hown by done; unfold own_set; by rewrite decide_True|].
    split; [done|]. intros r i j Hr Hp He. exfalso.
    destruct (forest_user _ _ _ _ _ _ HF r i j Hr Hp) as (_ & Ho & _). by rewrite He, Hfree in Ho.
  - intros x Hx Ho. pose proof (low_page_u32 x Hx) as (? & ? & _). rewrite Hown by done. unfold own_set.
    case_decide; [subst; by rewrite Hfree in Ho|done].
  - intros x Hx Ha Ho. left. rewrite Hown by done. unfold own_set. by case_decide.
  - intros x Hx Ha Ho. rewrite Hown in Ho by done. unfold own_set in Ho. case_decide; [by left|right].
    split; [done|]. by intros [? _].
  - intros ?. lia.
Qed.

(** A user page is unmapped and its frame released. *)
Lemma step_unmap_user own' : v = 0 -> user_entry old -> own_eq (own_set own (frame_of old) (User false)) own' ->
  spaces_ok m' own'.
Proof using All.
  intros Hv0 Hu Hown. destruct Hok as [Hm HF].
  destruct write_effect as ([Hhit Hmiss] & Hd & Hn). split; [by apply put_tables_ok|].
  assert (norm v = 0) as Hne by (by rewrite Hv0). rewrite Hne in Hhit.
  assert (user_page wide (view_of wide m) r0 i0 j0) as Hup by (split; [apply Hl|done]).
  destruct (forest_user _ _ _ _ _ _ HF r0 i0 j0 Hr0 Hup) as (_ & Hold & Hrange). cbn in Hold.
  eapply (forest_write _ _ K L (view_of wide m) (view_of wide m') own own' r0 i0 j0 t 0 HF); try done.
  - by intros [? _].
  - intros x Hx Ho. pose proof (low_page_u32 x Hx) as (? & ? & _). rewrite Hown by done. unfold own_set.
    case_decide; [subst; by rewrite Hold in Ho|done].
  - intros x Hx Ha Ho. rewrite Hown by done. unfold own_set. cbn. case_decide; [by right|by left].
  - intros x Hx Ha Ho. rewrite Hown in Ho by done. unfold own_set in Ho. case_decide; [done|right].
    split; [done|]. by intros [_ ?].
  - intros ?. lia.
Qed.
End Write.
End Steps.

(** ** The state *)

Definition kernel_root (wide : bool) (s : paging) : Z :=
  if wide then pae_kernel_pdpt_physical s else kernel_page_directory_physical s.

Definition current_root (wide : bool) (s : paging) : Z :=
  if wide then pae_pdpt_physical s else page_directory_physical s.

Definition space_list (wide : bool) (s : paging) : list Z :=
  if wide then take (Z.to_nat (pae_address_space_count s)) (pae_address_spaces s)
  else take (Z.to_nat (address_space_count s)) (address_spaces s).

Definition roots (wide : bool) (s : paging) : list Z := kernel_root wide s :: space_list wide s.

(** Pointers and physical addresses agree, since tables are reached through the identity window. *)
Definition pointers_ok (wide : bool) (s : paging) : Prop :=
  if wide then pae_pdpt s = pae_pdpt_physical s /\ pae_kernel_pdpt s = pae_kernel_pdpt_physical s /\
    page_directory_physical s = pae_pdpt_physical s /\ kernel_page_directory_physical s = pae_kernel_pdpt_physical s
  else page_directory s = page_directory_physical s /\ kernel_page_directory s = kernel_page_directory_physical s.

Definition counts_ok (wide : bool) (s : paging) : Prop :=
  if wide then 0 <= pae_address_space_count s <= 16 /\ length (pae_address_spaces s) = 16%nat
  else 0 <= address_space_count s <= 16 /\ length (address_spaces s) = 16%nat.

(** Paging is on with write protection, in the format the code believes in, from the current root. *)
Definition hardware_ok (wide : bool) (s : paging) : Prop :=
  paging_enabled s = true -> cr3 (registers s) = current_root wide s /\
  flag (cr0 (registers s)) PAGE_ENABLE = true /\ flag (cr0 (registers s)) PAGE_WRITE_PROTECT = true /\
  flag (cr4 (registers s)) CR4_PAE = wide /\
  (paging_pae_nx_enabled s = true -> flag (efer (registers s)) EFER_NXE = true).

Definition state_ok (wide : bool) (s : paging) : Prop :=
  spaces_ok wide (paging_pae_nx_enabled s) (kernel_root wide s) (space_list wide s) (words s) (owner_at s).

Record paging_ok (wide : bool) (s : paging) : Prop := {
  ok_mode : paging_pae_enabled s = wide /\ (wide = false -> paging_pae_nx_enabled s = false);
  ok_pmm : pmm_wf (page_frames s);
  ok_current : current_root wide s ∈ roots wide s;
  ok_pointers : pointers_ok wide s;
  ok_counts : counts_ok wide s;
  ok_hardware : hardware_ok wide s;
  ok_spaces : state_ok wide s
}.

(** The variables that mapping and unmapping leave alone. *)
Definition config (s : paging) :=
  (page_directory s, page_directory_physical s, kernel_page_directory s, kernel_page_directory_physical s,
   address_spaces s, address_space_count s, paging_enabled s, paging_pae_enabled s, paging_pae_nx_enabled s,
   pae_pdpt s, pae_pdpt_physical s, pae_kernel_pdpt s, pae_kernel_pdpt_physical s, pae_address_spaces s,
   pae_address_space_count s).

(** Nothing but tables and frames changes. *)
Definition keeps (s s' : paging) : Prop := config s' = config s /\ data s' = data s /\ registers s' = registers s.

Lemma keeps_refl s : keeps s s.
Proof. done. Qed.

Lemma keeps_trans s1 s2 s3 : keeps s1 s2 -> keeps s2 s3 -> keeps s1 s3.
Proof. intros (H1 & H2 & H3) (H4 & H5 & H6). unfold keeps. by rewrite H4, H5, H6. Qed.

Lemma config_fields wide s s' : config s' = config s ->
  kernel_root wide s' = kernel_root wide s /\ current_root wide s' = current_root wide s /\
  space_list wide s' = space_list wide s /\ paging_pae_nx_enabled s' = paging_pae_nx_enabled s /\
  paging_pae_enabled s' = paging_pae_enabled s /\ (pointers_ok wide s -> pointers_ok wide s') /\
  (counts_ok wide s -> counts_ok wide s') /\ paging_enabled s' = paging_enabled s.
Proof.
  unfold config. intros H. injection H as. unfold kernel_root, current_root, space_list, pointers_ok, counts_ok.
  repeat match goal with E : _ = _ |- _ => rewrite E; clear E end. done.
Qed.

Lemma paging_ok_keeps wide s s' : paging_ok wide s -> keeps s s' -> pmm_wf (page_frames s') ->
  spaces_ok wide (paging_pae_nx_enabled s) (kernel_root wide s) (space_list wide s) (words s') (owner_at s') ->
  paging_ok wide s'.
Proof.
  intros Hok (Hc & Hd & Hr) Hp Hs. destruct (config_fields wide s s' Hc) as (H1 & H2 & H3 & H4 & H5 & H6 & H7 & H8).
  split.
  - rewrite H4, H5. apply Hok.
  - done.
  - unfold roots. rewrite H1, H2, H3. apply Hok.
  - apply H6, Hok.
  - apply H7, Hok.
  - unfold hardware_ok. rewrite H2, H4, H8, Hr. apply Hok.
  - unfold state_ok. by rewrite H1, H3, H4.
Qed.

(** ** Addresses *)

Definition dir_of (wide : bool) (va : Z) : Z := Z.shiftr va (if wide then 21 else 22).

Definition leaf_of (wide : bool) (va : Z) : Z := Z.land (Z.shiftr va 12) (entries wide - 1).

Lemma va_index wide va : is_u32 va ->
  dir_index wide (dir_of wide va) /\ table_index wide (leaf_of wide va) /\
  page_number wide (dir_of wide va) (leaf_of wide va) = va / 4096.
Proof.
  unfold is_u32, dir_index, table_index, page_number, dir_of, leaf_of, directories. intros Hva.
  rewrite !Z.shiftr_div_pow2 by (destruct wide; lia).
  destruct wide; cbn [entries]; [change (512 - 1) with (2 ^ 9 - 1)|change (1024 - 1) with (2 ^ 10 - 1)];
    rewrite land_mask by lia; change (2 ^ 21) with 2097152; change (2 ^ 22) with 4194304;
    change (2 ^ 12) with 4096; change (2 ^ 9) with 512; change (2 ^ 10) with 1024; dmlia.
Qed.

Lemma pae_indices va : is_u32 va ->
  Z.shiftr va 30 = dir_of true va / 512 /\ Z.land (Z.shiftr va 21) 0x1FF = dir_of true va mod 512 /\
  0 <= Z.shiftr va 30 < 4.
Proof.
  unfold is_u32, dir_of. intros Hva. change 0x1FF with (2 ^ 9 - 1). rewrite land_mask by lia.
  rewrite !Z.shiftr_div_pow2 by lia. change (2 ^ 30) with 1073741824. change (2 ^ 21) with 2097152.
  change (2 ^ 9) with 512. dmlia.
Qed.
