(* ===== verification/PagingOps.v ===== *)
(** * Mapping, protecting and unmapping

    The operations on pages keep the invariant, and what they do to the pages of every space. Each
    proof follows the code of one table format; the steps they share are stated for both. *)

From S2P Require Import Prelude Pmm PmmSpec PagingState PagingPae Paging PagingEntry PagingForest PagingView PagingInv.
Local Open Scope c_scope.
Local Open Scope Z_scope.

(** ** Flags and entries *)

Lemma allowed_flags flags : is_u32 flags -> flag flags (not32 PAGE_ALLOWED_FLAGS) = false ->
  Z.land flags PAGE_ALLOWED_FLAGS = flags /\ 0 <= flags < 1024.
Proof.
  intros Hf H. unfold flag in H. apply negb_false_iff, Z.eqb_eq in H.
  assert (Z.land flags PAGE_ALLOWED_FLAGS = flags) as He.
  { rewrite <- (range_masked flags 32) at 2 by (unfold is_u32 in Hf; lia).
    change (2 ^ 32 - 1) with (Z.lor PAGE_ALLOWED_FLAGS (not32 PAGE_ALLOWED_FLAGS)).
    by rewrite Z.land_lor_distr_r, H, Z.lor_0_r. }
  split; [done|]. rewrite <- He. apply (land_range _ _ 10); [lia|]. by compute.
Qed.

(** An entry for frame [pa] with exactly the permissions of [flags]. *)
Definition entry_for (nx : bool) (pa flags v : Z) : Prop :=
  present v /\ frame_of v = pa /\ flag v 2 = flag flags 2 /\ flag v 4 = flag flags 4 /\
  flag v 0x10 = flag flags 0x10 /\ flag v 0x200 = flag flags 0x200 /\ leaf_policy nx v.

Definition wx_flags (flags : Z) : Prop := flag flags 2 = true -> flag flags 0x200 = false.

Lemma wx_check flags :
  (Z.land flags (Z.lor PAGE_FLAG_WRITABLE PAGE_FLAG_EXECUTABLE) =? Z.lor PAGE_FLAG_WRITABLE PAGE_FLAG_EXECUTABLE) = false ->
  wx_flags flags.
Proof.
  intros H Hw. destruct (flag flags 0x200) eqn:E; [|done]. exfalso. apply Z.eqb_neq in H. apply H.
  rewrite Z.land_lor_distr_r. f_equal.
  - apply Z.bits_inj'. intros n Hn. rewrite Z.land_spec. change PAGE_FLAG_WRITABLE with (2 ^ 1).
    destruct (Z.eq_dec n 1) as [->|]; [|by rewrite Z.pow2_bits_false, andb_false_r by lia].
    change 2 with (2 ^ 1) in Hw. rewrite flag_pow2 in Hw by lia. by rewrite Hw.
  - apply Z.bits_inj'. intros n Hn. rewrite Z.land_spec. change PAGE_FLAG_EXECUTABLE with (2 ^ 9).
    destruct (Z.eq_dec n 9) as [->|]; [|by rewrite Z.pow2_bits_false, andb_false_r by lia].
    change 512 with (2 ^ 9) in E. rewrite flag_pow2 in E by lia. by rewrite E.
Qed.

(** Evaluate tests of bits of constants. *)
Ltac flag_consts :=
  repeat match goal with
  | |- context [flag ?a ?m] =>
      lazymatch a with 0 => idtac | Zpos _ => idtac | PAE_PRESENT => idtac | PAE_WRITABLE => idtac
      | PAE_USER => idtac | PAE_NX => idtac | PAGE_PRESENT => idtac end;
      let b := eval vm_compute in (flag a m) in change (flag a m) with b
  end; cbn [orb andb negb]; rewrite ?orb_false_r, ?orb_true_r, ?andb_true_r, ?andb_false_r.

Lemma legacy_entry pa flags : is_u32 pa -> pa <> 0 -> pa mod 4096 = 0 -> 0 <= flags < 1024 -> wx_flags flags ->
  entry_for false pa flags (Z.lor (Z.lor pa 1) flags) /\ is_u32 (Z.lor (Z.lor pa 1) flags).
Proof.
  intros Hpa Hnz Hal Hfl Hwx.
  assert (is_u32 (Z.lor (Z.lor pa 1) flags)) as Hu.
  { apply (lor_range _ _ 32); [lia| |unfold is_u32 in *; lia]. apply (lor_range _ _ 32); unfold is_u32 in *; lia. }
  split; [|done]. unfold entry_for, leaf_policy, present. rewrite !flag_lor.
  rewrite !(flag_aligned_low pa) by (done || lia). flag_consts.
  rewrite !frame_of_or, frame_of_page, !frame_of_small, !Z.lor_0_r by (done || lia).
  do 6 (split; [done|]). split; [by apply narrow_u32|]. split; [done|]. split; [exact Hwx|done].
Qed.

Lemma pae_entry s pa flags : is_u32 pa -> pa <> 0 -> pa mod 4096 = 0 -> 0 <= flags < 1024 -> wx_flags flags ->
  entry_for (paging_pae_nx_enabled s) pa flags (pae_flags_to_entry s pa flags) /\
  is_u64 (pae_flags_to_entry s pa flags).
Proof.
  intros Hpa Hnz Hal Hfl Hwx. unfold pae_flags_to_entry.
  set (cd := Z.land flags PAGE_FLAG_CACHE_DISABLE).
  assert (0 <= cd < 4096) as Hcd by (apply (land_range flags _ 12); [lia|by compute]).
  assert (forall m, one_bit m -> flag cd m = flag flags m && flag 0x10 m) as Hcdm
    by (intros m Hm; by apply flag_and).
  assert (narrow pa /\ narrow cd) as [Hnpa Hncd] by (split; apply narrow_u32; unfold is_u32 in *; lia).
  assert (narrow 0 /\ narrow 1 /\ narrow 2 /\ narrow 4 /\ narrow 0x200 /\ narrow PAE_NX) as (? & ? & ? & ? & ? & ?)
    by (unfold narrow, is_u64; split_and!; vm_compute; (done || (split; done))).
  match goal with |- entry_for _ _ _ ?v /\ _ => assert (narrow v) as Hn end.
  { repeat case_if; repeat apply narrow_lor; done. }
  split; [|apply Hn]. unfold entry_for, leaf_policy, present, wx_flags in *. revert Hn. revert Hwx.
  change PAGE_FLAG_WRITABLE with 2. change PAGE_FLAG_USER with 4. change PAGE_FLAG_EXECUTABLE with 0x200.
  destruct (flag flags 2) eqn:E2, (flag flags 4) eqn:E4, (flag flags 0x200) eqn:E9, (paging_pae_nx_enabled s);
    cbn [andb negb]; intros Hwx Hn; try (by specialize (Hwx eq_refl)).
  all: rewrite !flag_lor, !Hcdm, ?E2, ?E4, ?E9 by apply one_bit_flags.
  all: rewrite ?(flag_nx_u32 pa Hpa), ?(flag_aligned_low pa 1 Hal), ?(flag_aligned_low pa 2 Hal), ?(flag_aligned_low pa 4 Hal),
         ?(flag_aligned_low pa 0x10 Hal), ?(flag_aligned_low pa 0x200 Hal) by lia.
  all: rewrite ?frame_of_or, ?(frame_of_page pa Hpa Hal), ?(frame_of_small cd Hcd).
  all: change (frame_of PAE_PRESENT) with 0; change (frame_of PAE_WRITABLE) with 0; change (frame_of PAE_USER) with 0;
       change (frame_of 0x200) with 0; change (frame_of PAE_NX) with 0; change (frame_of 0) with 0; rewrite !Z.lor_0_r.
  all: flag_consts; split_and!; try done; repeat apply narrow_lor; done.
Qed.

(** ** Code and view *)

(** A write of an entry in either format. *)
Definition write_entry (wide : bool) (t j v : Z) (s : paging) : paging := set_words s (put wide (words s) t j v).

Lemma set_entry_write t j v s : set_entry t j v s = write_entry false t j v s.
Proof. done. Qed.

Lemma pae_set_entry_write t j v s : pae_set_entry t j v s = write_entry true t j v s.
Proof. done. Qed.

Lemma pae_entry_value_get s t j : pae_entry_value s t j = get true (words s) t j.
Proof. done. Qed.

Section Facts.
Context (wide : bool) (s : paging).
Hypothesis Hok : paging_ok wide s.
#[local] Notation K := (kernel_root wide s).
#[local] Notation L := (space_list wide s).
#[local] Notation R := (roots wide s).
#[local] Notation m := (words s).
#[local] Notation V := (view_of wide (words s)).

Lemma ok_tables : tables_ok m.
Proof using Hok. apply Hok. Qed.

Lemma ok_forest : forest wide (leaf_policy (paging_pae_nx_enabled s)) K L V (owner_at s).
Proof using Hok. apply Hok. Qed.

Lemma root_page r : r ∈ R -> low_page r.
Proof using Hok.
  intros Hr. apply (forest_node _ _ _ _ _ _ ok_forest r (-1) r Hr). by apply ok_forest.
Qed.

Lemma root_nonzero r : r ∈ R -> (r =? 0) = false.
Proof using Hok. intros Hr. pose proof (root_page r Hr). unfold low_page in *. lia. Qed.

Lemma linked_page r i t : r ∈ R -> linked wide V r i t -> low_page t.
Proof using Hok. intros Hr Hl. by apply (forest_link _ _ _ _ _ _ ok_forest r i t Hr Hl). Qed.

Lemma kernel_in : K ∈ R.
Proof using. constructor. Qed.

Lemma pde_get r i f k : slot wide m r i = Some (f, k) -> pde_of wide m r i = norm (get wide m f k).
Proof using. unfold pde_of. by intros ->. Qed.

(** The table the code finds, 0 if none. *)
Definition table_at (r i : Z) : Z := if flag (pde_of wide m r i) 1 then frame_of (pde_of wide m r i) else 0.

Lemma table_at_linked r i : r ∈ R -> dir_index wide i -> table_at r i <> 0 -> linked wide V r i (table_at r i).
Proof using.
  intros Hr Hi. unfold table_at, linked, present. cbn. by destruct (flag (pde_of wide m r i) 1) eqn:E.
Qed.

Lemma linked_table_at r i t : linked wide V r i t -> table_at r i = t.
Proof using. intros (_ & Hp & Hf). cbn in Hp, Hf. unfold table_at. by rewrite Hp. Qed.

Lemma linked_pte r i t j : linked wide V r i t -> pte_of wide m r i j = norm (get wide m t j).
Proof using. intros (_ & Hp & Hf). cbn in Hp, Hf. unfold pte_of. by rewrite Hp, Hf. Qed.

(** The code's test for a shared table. *)
Definition shares (i : Z) : bool :=
  negb (current_root wide s =? K) && negb (table_at K i =? 0) && (table_at K i =? table_at (current_root wide s) i).

Lemma shares_spec i : dir_index wide i -> shares i = false -> current_root wide s = K \/ ~ shared wide V K (current_root wide s) i.
Proof using Hok.
  intros Hi H. unfold shares in H. destruct (Z.eqb_spec (current_root wide s) K); [by left|right].
  intros (t & H1 & H2). rewrite (linked_table_at _ _ _ H1), (linked_table_at _ _ _ H2), Z.eqb_refl in H.
  pose proof (linked_page _ _ _ kernel_in H2) as Ht. unfold low_page in Ht. simpl in H. lia.
Qed.
End Facts.

(** ** Two-level tables *)

Lemma norm_table e : (if flag (norm e) 1 then frame_of (norm e) else 0) = if flag e 1 then frame_of e else 0.
Proof. unfold norm. destruct (flag e 1) eqn:E; [by rewrite E|done]. Qed.

Section Legacy.
Context (s : paging).
Hypothesis Hok : paging_ok false s.
#[local] Notation cur := (current_root false s).

Lemma legacy_pointers : page_directory s = cur /\ kernel_page_directory s = kernel_root false s.
Proof using Hok. apply Hok. Qed.

Lemma legacy_pde r va : pde_of false (words s) r (dir_of false va) = norm (entry_at s r (Z.shiftr va 22)).
Proof using. done. Qed.

Lemma legacy_get_table va : get_page_table s va = table_at false s cur (dir_of false va).
Proof using Hok.
  destruct legacy_pointers as [Hp _]. unfold get_page_table, table_at. rewrite Hp, (root_nonzero false s Hok) by apply Hok.
  rewrite legacy_pde, norm_table, frame_of_land64. unfold PAGE_PRESENT. by destruct (flag _ 1).
Qed.

Lemma legacy_uses_shared va : is_u32 va -> uses_shared_kernel_table s va = shares false s (dir_of false va).
Proof using Hok.
  intros Hva. destruct (va_index false va Hva) as (Hi & _ & _). destruct legacy_pointers as [Hp Hk].
  unfold uses_shared_kernel_table, shares. rewrite Hp, Hk, !(root_nonzero false s Hok) by (apply Hok || apply kernel_in).
  destruct (cur =? kernel_root false s); [done|]. cbn [orb negb andb].
  assert (forall r, r ∈ roots false s -> flag (entry_at s r (Z.shiftr va 22)) 1 = true ->
    frame_of (entry_at s r (Z.shiftr va 22)) <> 0) as Hnz.
  { intros r Hr E. assert (linked false (view_of false (words s)) r (dir_of false va) (frame_of (entry_at s r (Z.shiftr va 22)))) as Hl.
    { split; [done|]. cbn [pde view_of]. rewrite legacy_pde, norm_present by done. done. }
    pose proof (linked_page false s Hok _ _ _ Hr Hl) as Hlow. unfold low_page in Hlow. lia. }
  unfold table_at. rewrite !legacy_pde, !norm_table. unfold PAGE_PRESENT. rewrite <- !frame_of_land64.
  pose proof (Hnz _ (kernel_in false s)) as HK. pose proof (Hnz _ (ok_current _ _ Hok)) as HC.
  destruct (flag (entry_at s (kernel_root false s) (Z.shiftr va 22)) 1); [|done].
  specialize (HK eq_refl). destruct (flag (entry_at s cur (Z.shiftr va 22)) 1); cbn [andb].
  - by replace (frame_of _ =? 0) with false by lia.
  - by rewrite andb_comm; replace (frame_of _ =? 0) with false by lia.
Qed.
End Legacy.

(** ** Three-level tables *)

Section Pae.
Context (s : paging).
Hypothesis Hok : paging_ok true s.
#[local] Notation cur := (current_root true s).

Lemma pae_pointers : pae_pdpt s = cur /\ pae_kernel_pdpt s = kernel_root true s /\
  pae_pdpt_physical s = cur /\ pae_kernel_pdpt_physical s = kernel_root true s.
Proof using Hok. destruct (ok_pointers _ _ Hok) as (? & ? & _). done. Qed.

Lemma pae_physical f k : pae_entry_physical s f k = frame_of (get true (words s) f k).
Proof using. by rewrite frame_of_hw. Qed.

Lemma pae_directory r q : r ∈ roots true s -> 0 <= q < 4 ->
  pae_page_directory_for s r q = match node_of true (words s) r q with Some d => d | None => 0 end.
Proof using Hok.
  intros Hr Hq. unfold pae_page_directory_for. rewrite (root_nonzero true s Hok r Hr).
  unfold PAE_PDP_ENTRIES. replace (4 <=? q) with false by lia. cbn [orb].
  pose proof (forest_node _ _ _ _ _ _ (ok_forest true s Hok) r q) as Hn. cbn [node view_of] in Hn.
  unfold node_of in *. replace (q =? -1) with false in * by lia.
  replace (true && (0 <=? q) && (q <? 4)) with true in * by lia.
  unfold pae_entry_present. rewrite pae_entry_value_get, pae_physical. unfold PAE_PRESENT. cbn [andb] in *.
  destruct (flag (get true (words s) r q) 1); [|done]. cbn [negb].
  destruct (Hn _ Hr eq_refl) as [Hlow _]. rewrite frame_of_hw. apply u32_id. by apply low_page_u32.
Qed.

Lemma pae_pde r va : is_u32 va -> pde_of true (words s) r (dir_of true va) =
  match node_of true (words s) r (Z.shiftr va 30) with
  | Some d => norm (get true (words s) d (Z.land (Z.shiftr va 21) 0x1FF))
  | None => 0
  end.
Proof using.
  intros Hva. destruct (pae_indices va Hva) as (-> & -> & _). unfold pde_of, slot.
  by destruct (node_of true (words s) r (dir_of true va / 512)).
Qed.

Lemma pae_get_table_for r va : r ∈ roots true s -> is_u32 va ->
  pae_get_page_table_for s r va = table_at true s r (dir_of true va).
Proof using Hok.
  intros Hr Hva. destruct (pae_indices va Hva) as (_ & _ & Hq). unfold pae_get_page_table_for, table_at.
  rewrite pae_directory, pae_pde by done.
  destruct (node_of true (words s) r (Z.shiftr va 30)) as [d|] eqn:E; [|done].
  assert (low_page d) as Hd by (by apply (forest_node _ _ _ _ _ _ (ok_forest true s Hok) r (Z.shiftr va 30))).
  replace (d =? 0) with false by (unfold low_page in Hd; lia).
  unfold pae_entry_present. rewrite pae_entry_value_get, pae_physical, norm_table. unfold PAE_PRESENT.
  by destruct (flag _ 1).
Qed.

Lemma pae_get_table va : is_u32 va -> pae_get_page_table s va = table_at true s cur (dir_of true va).
Proof using Hok.
  intros Hva. unfold pae_get_page_table. destruct pae_pointers as (_ & _ & -> & _).
  apply pae_get_table_for; [apply Hok|done].
Qed.

Lemma pae_uses_shared va : is_u32 va -> pae_uses_shared_kernel_table s va = shares true s (dir_of true va).
Proof using Hok.
  intros Hva. destruct (va_index true va Hva) as (Hi & _ & _). destruct (pae_indices va Hva) as (_ & _ & Hq).
  destruct pae_pointers as (Hp & Hk & Hp' & Hk'). unfold pae_uses_shared_kernel_table, shares.
  rewrite Hp, Hk, Hp', Hk', !(root_nonzero true s Hok) by (apply Hok || apply kernel_in). cbn [orb].
  destruct (cur =? kernel_root true s); [done|]. cbn [orb negb andb].
  rewrite !pae_directory by (done || apply Hok || apply kernel_in).
  set (k := Z.land (Z.shiftr va 21) 0x1FF). set (q := Z.shiftr va 30) in *.
  assert (forall r d, r ∈ roots true s -> node_of true (words s) r q = Some d -> (d =? 0) = false /\
    (flag (get true (words s) d k) 1 = true -> (frame_of (get true (words s) d k) =? 0) = false)) as Hd.
  { intros r d Hr E. pose proof (forest_node _ _ _ _ _ _ (ok_forest true s Hok) r q d Hr E) as [Hlow _].
    split; [unfold low_page in Hlow; lia|]. intros Ep.
    assert (linked true (view_of true (words s)) r (dir_of true va) (frame_of (get true (words s) d k))) as Hl.
    { split; [done|]. cbn [pde view_of]. rewrite pae_pde by done. fold q k. rewrite E, norm_present by done. done. }
    pose proof (linked_page true s Hok _ _ _ Hr Hl) as H. unfold low_page in H. lia. }
  pose proof (Hd (kernel_root true s)) as HK. pose proof (Hd cur) as HC.
  unfold table_at. rewrite !pae_pde by done. fold q k. unfold pae_entry_present, PAE_PRESENT.
  rewrite !pae_entry_value_get, !pae_physical.
  destruct (node_of true (words s) (kernel_root true s) q) as [dk|]; [|done].
  destruct (HK dk (kernel_in true s) eq_refl) as [-> HKz]. rewrite norm_table.
  destruct (node_of true (words s) cur q) as [dc|].
  - destruct (HC dc (ok_current _ _ Hok) eq_refl) as [-> HCz]. rewrite norm_table. cbn [orb].
    destruct (flag (get true (words s) dk k) 1); [|done].
    destruct (flag (get true (words s) dc k) 1); cbn [andb]; by rewrite !(HKz eq_refl).
  - rewrite flag_0. destruct (flag (get true (words s) dk k) 1); [|done]. by rewrite !(HKz eq_refl).
Qed.
End Pae.

(** ** Loops that write one frame *)

Lemma set_words_id s : set_words s (words s) = s.
Proof. by destruct s. Qed.

Lemma fill_page_spec wide f lo hi (body : Z -> paging -> paging) (v : Z -> Z) s :
  0 <= lo <= hi -> hi <= entries wide -> tables_ok (words s) ->
  (forall k, lo <= k < hi -> entry_ok wide (v k)) ->
  (forall k s', lo <= k < hi -> s' = set_words s (words s') -> tables_ok (words s') ->
     (forall g j, g <> f -> 0 <= j < entries wide -> get wide (words s') g j = get wide (words s) g j) ->
     body k s' = write_entry wide f k (v k) s') ->
  let s' := for_loop lo hi body s in
  s' = set_words s (words s') /\ tables_ok (words s') /\
  forall g k, 0 <= k < entries wide ->
    get wide (words s') g k = if decide (g = f /\ lo <= k < hi) then v k else get wide (words s) g k.
Proof.
  intros Hlo Hhi Hm Hv Hbody s'.
  set (I := fun (n : Z) (x : paging) => x = set_words s (words x) /\ tables_ok (words x) /\
    forall g k, 0 <= k < entries wide ->
      get wide (words x) g k = if decide (g = f /\ lo <= k < n) then v k else get wide (words s) g k).
  change (I hi s'). apply for_loop_inv; unfold I.
  - lia.
  - split; [by rewrite set_words_id|]. split; [done|]. intros g k Hk. by rewrite decide_False by lia.
  - intros n x Hn (Hx & Hmx & Hg). rewrite (Hbody n x Hn Hx Hmx).
    + cbn [words set_words write_entry]. split; [by rewrite Hx|]. split; [apply put_tables_ok; [done|by apply Hv]|].
      intros g k Hk. rewrite get_put by (done || lia || by apply Hv).
      destruct (decide (g = f /\ k = n)) as [[-> ->]|Hne]; [by rewrite decide_True by lia|].
      rewrite Hg by done. destruct (decide (g = f /\ lo <= k < n)); [by rewrite decide_True by lia|].
      rewrite decide_False; [done|]. intros [-> ?]. apply Hne. split; [done|]. lia.
    + intros g j Hg' Hj. rewrite Hg by done. by rewrite decide_False by naive_solver.
Qed.

Lemma clear_page_spec page s : tables_ok (words s) ->
  let s' := clear_page page s in
  s' = set_words s (words s') /\ tables_ok (words s') /\
  forall g k, 0 <= k < entries false ->
    get false (words s') g k = if decide (g = page) then 0 else get false (words s) g k.
Proof.
  intros Hm. destruct (fill_page_spec false page 0 1024 (fun index s => set_entry page index 0 s) (fun _ => 0) s)
    as (H1 & H2 & H3); [lia|cbn; lia|exact Hm|cbn; unfold is_u32; lia|done|].
  split; [exact H1|]. split; [exact H2|]. intros g k Hk. cbn [entries] in Hk. etransitivity; [apply H3; cbn; lia|].
  clear -Hk. repeat case_decide; done || lia.
Qed.

Lemma clear_pae_page_spec page s : tables_ok (words s) ->
  let s' := clear_pae_page page s in
  s' = set_words s (words s') /\ tables_ok (words s') /\
  forall g k, 0 <= k < entries true ->
    get true (words s') g k = if decide (g = page) then 0 else get true (words s) g k.
Proof.
  intros Hm. destruct (fill_page_spec true page 0 512 (fun index s =>
    let s := set_entry page (2 * index) 0 s in set_entry page (2 * index + 1) 0 s) (fun _ => 0) s)
    as (H1 & H2 & H3); [lia|cbn; lia|exact Hm|cbn; unfold is_u64; lia|done|].
  split; [exact H1|]. split; [exact H2|]. intros g k Hk. cbn [entries] in Hk. etransitivity; [apply H3; cbn; lia|].
  clear -Hk. repeat case_decide; done || lia.
Qed.

#[global] Opaque clear_page clear_pae_page.

(** ** Finding or making a table *)

(** Frames are only taken from the allocator. *)
Definition grows (own own' : Z -> owner) : Prop :=
  forall x, is_u32 x -> x mod 4096 = 0 -> own' x = own x \/ (own x = Free /\ own' x = Kernel).

(** The invariant and all pages stay; only directory entry [i0] of [r0] may change. *)
Definition advance (wide : bool) (r0 i0 : Z) (s s' : paging) : Prop :=
  paging_ok wide s' /\ keeps s s' /\
  same_pages wide (kernel_root wide s) (space_list wide s) (words s) (words s') /\
  grows (owner_at s) (owner_at s') /\
  (forall r i, r ∈ roots wide s -> dir_index wide i -> ~ (r = r0 /\ i = i0) ->
     pde_of wide (words s') r i = pde_of wide (words s) r i).

Lemma grows_eq own own' : own_eq own own' -> grows own own'.
Proof. intros H x Hx Ha. left. by apply H. Qed.

Lemma grows_alloc own own' a : own a = Free -> own_eq (own_set own a Kernel) own' -> grows own own'.
Proof. intros Ho H x Hx Ha. rewrite H by done. unfold own_set. case_decide; [subst; by right|by left]. Qed.

Lemma advance_refl wide r0 i0 s : paging_ok wide s -> advance wide r0 i0 s s.
Proof. intros Hok. split_and!; try done. intros x Hx Ha. by left. Qed.

Lemma keeps_roots wide s s' : keeps s s' -> kernel_root wide s' = kernel_root wide s /\
  space_list wide s' = space_list wide s /\ current_root wide s' = current_root wide s /\
  roots wide s' = roots wide s /\ paging_pae_nx_enabled s' = paging_pae_nx_enabled s.
Proof.
  intros (Hc & _). destruct (config_fields wide s s' Hc) as (H1 & H2 & H3 & H4 & _).
  unfold roots. by rewrite H1, H2, H3, H4.
Qed.

Lemma advance_trans wide r0 i0 s1 s2 s3 : advance wide r0 i0 s1 s2 -> advance wide r0 i0 s2 s3 -> advance wide r0 i0 s1 s3.
Proof.
  intros (Ho1 & Hk1 & Hp1 & Hg1 & Hd1) (Ho2 & Hk2 & Hp2 & Hg2 & Hd2).
  destruct (keeps_roots wide s1 s2 Hk1) as (EK & EL & _ & ER & _). rewrite EK, EL in Hp2. rewrite ER in Hd2.
  split; [done|]. split; [by eapply keeps_trans|]. split; [by eapply same_pages_trans|]. split.
  - intros x Hx Ha. destruct (Hg1 x Hx Ha) as [E1|[E1 E1']], (Hg2 x Hx Ha) as [E2|[E2 E2']]; try congruence.
    + left. congruence.
    + right. split; congruence.
    + right. split; congruence.
  - intros r i Hr Hi Hne. by rewrite Hd2, Hd1.
Qed.

(** Taking a frame and clearing it. *)
Lemma fresh_frame wide r0 i0 s a s1 s2 : paging_ok wide s -> alloc_low s = (a, s1) -> a <> 0 ->
  s2 = set_words s1 (words s2) -> tables_ok (words s2) ->
  (forall g k, 0 <= k < entries wide -> get wide (words s2) g k = if decide (g = a) then 0 else get wide (words s1) g k) ->
  advance wide r0 i0 s s2 /\ low_page a /\ owner_at s2 a = Kernel /\
  unused wide (kernel_root wide s) (space_list wide s) (view_of wide (words s2)) a /\
  (forall r i, r ∈ roots wide s -> slot wide (words s2) r i = slot wide (words s) r i) /\
  (forall r i, r ∈ roots wide s -> dir_index wide i -> pde_of wide (words s2) r i = pde_of wide (words s) r i) /\
  (forall k, 0 <= k < entries wide -> get wide (words s2) a k = 0).
Proof.
  intros Hok E Hnz Hs2 Hm2 Hclear.
  destruct (alloc_low_spec s a s1 (ok_pmm _ _ Hok) E) as (Hs1 & Hwf & [[-> _]|(Hlow & Hfree & Hown)]); [done|].
  pose proof (ok_spaces _ _ Hok) as Hsp. unfold state_ok in Hsp.
  destruct (spaces_ok_alloc wide _ _ _ _ _ _ _ Hsp Hfree Hlow Hown) as (Hsp1 & Hun & Hka).
  assert (words s1 = words s) as Hw1 by (rewrite Hs1; done).
  assert (owner_at s2 = owner_at s1) as Ho2 by (rewrite Hs2; done).
  rewrite Hw1 in Hclear.
  destruct (spaces_ok_fresh wide (paging_pae_nx_enabled s) (kernel_root wide s) (space_list wide s)
    (words s) (owner_at s1) (words s2) a) as (Hsp2 & Hpg & Hun2 & Hsl & Hpd); try done.
  { intros f k Hf Hk. rewrite Hclear by done. by rewrite decide_False. }
  assert (keeps s s2) as Hk by (rewrite Hs2, Hs1; done).
  rewrite Ho2. split; [|split_and!; try done].
  - split; [|split_and!; try done].
    + eapply paging_ok_keeps; [done..| |by rewrite Ho2]. rewrite Hs2. done.
    + rewrite Ho2. by eapply grows_alloc.
    + intros r i Hr Hi _. by apply Hpd.
  - intros k Hk'. rewrite Hclear by done. by rewrite decide_True.
Qed.

(** ** Which frames a space uses *)

(** From [m] to [m'] tables are added to space [r0], at directory entry [i0] only. Read backwards, it
    says that tables of [r0] are given back. *)
Record grown (wide : bool) (R : list Z) (r0 i0 : Z) (m : tables) (own : Z -> owner) (m' : tables) (own' : Z -> owner) : Prop := {
  grown_pde : forall r i, r ∈ R -> dir_index wide i -> ~ (r = r0 /\ i = i0) -> pde_of wide m' r i = pde_of wide m r i;
  grown_node : forall r q, r ∈ R -> r <> r0 -> node_of wide m' r q = node_of wide m r q;
  grown_nodes : forall q x, node_of wide m r0 q = Some x -> node_of wide m' r0 q = Some x;
  grown_links : forall i t, linked wide (view_of wide m) r0 i t -> linked wide (view_of wide m') r0 i t;
  grown_new_node : forall q x, node_of wide m' r0 q = Some x -> node_of wide m r0 q = Some x \/ own x = Free;
  grown_new_link : forall i t, linked wide (view_of wide m') r0 i t ->
    linked wide (view_of wide m) r0 i t \/ (own t = Free /\ i = i0);
  grown_frames : forall x, is_u32 x -> x mod 4096 = 0 -> own' x = own x \/ (own x = Free /\ own' x = Kernel /\
    ((exists q, node_of wide m' r0 q = Some x) \/ linked wide (view_of wide m') r0 i0 x));
  grown_root : wide = true -> node_of wide m r0 (i0 / 512) <> None -> forall k, 0 <= k < 4 -> get wide m' r0 k = get wide m r0 k;
  grown_found : present (pde_of wide m r0 i0) -> own_eq own own'
}.

Lemma grown_refl wide R r0 i0 m own own' : own_eq own own' -> grown wide R r0 i0 m own m own'.
Proof. intros He. split; try done; [by left|by left|]. intros x Hx Ha. left. by apply He. Qed.

Lemma grown_trans wide R r0 i0 m1 o1 m2 o2 m3 o3 : r0 ∈ R -> dir_index wide i0 ->
  (forall r q x, r ∈ R -> node_of wide m3 r q = Some x -> is_u32 x /\ x mod 4096 = 0) ->
  (forall r i x, r ∈ R -> linked wide (view_of wide m3) r i x -> is_u32 x /\ x mod 4096 = 0) ->
  grown wide R r0 i0 m1 o1 m2 o2 -> grown wide R r0 i0 m2 o2 m3 o3 -> grown wide R r0 i0 m1 o1 m3 o3.
Proof.
  intros Hr0 Hi0 Hnp Hlp [P1 N1 K1 L1 NN1 NL1 F1 R1 D1] [P2 N2 K2 L2 NN2 NL2 F2 R2 D2].
  assert (forall x, is_u32 x -> x mod 4096 = 0 -> o2 x = Free -> o1 x = Free) as Hfree.
  { intros x Hx Ha Ho. destruct (F1 x Hx Ha) as [E|(E & _)]; congruence. }
  split; eauto.
  - intros r i Hr Hi Hne. by rewrite P2, P1.
  - intros r q Hr Hne. by rewrite N2, N1.
  - intros q x Hn. destruct (Hnp _ _ _ Hr0 Hn). destruct (NN2 q x Hn) as [Hn'|Hn']; [by apply NN1|right; by apply Hfree].
  - intros i t Hl. destruct (Hlp _ _ _ Hr0 Hl). destruct (NL2 i t Hl) as [Hl'|[Hl' ->]]; [by apply NL1|right; split; [by apply Hfree|done]].
  - intros x Hx Ha. destruct (F1 x Hx Ha) as [E1|(E1 & E1' & H1)], (F2 x Hx Ha) as [E2|(E2 & E2' & H2)].
    + left. congruence.
    + right. split; [congruence|]. done.
    + right. split; [done|]. split; [congruence|]. destruct H1 as [[q Hq]|H1]; [left; exists q; by apply K2|right; by apply L2].
    + congruence.
  - intros Hw Hn k Hk. rewrite R2; [by apply R1|done| |done]. destruct (node_of wide m1 r0 (i0 / 512)) as [x|] eqn:E; [|done].
    by rewrite (K1 _ _ E).
  - intros Hp x Hx Ha. rewrite D2; [by apply D1| |done..].
    assert (linked wide (view_of wide m1) r0 i0 (frame_of (pde_of wide m1 r0 i0))) as Hl by done.
    by destruct (L1 _ _ Hl) as (_ & ? & _).
Qed.

(** A change of one directory entry. *)
Lemma grown_entry wide R r0 i0 m own m' own' : r0 ∈ R ->
  (forall r q, r ∈ R -> node_of wide m' r q = node_of wide m r q) ->
  (forall r i, r ∈ R -> dir_index wide i -> ~ (r = r0 /\ i = i0) -> pde_of wide m' r i = pde_of wide m r i) ->
  (forall t, linked wide (view_of wide m) r0 i0 t -> linked wide (view_of wide m') r0 i0 t) ->
  (forall t, linked wide (view_of wide m') r0 i0 t -> linked wide (view_of wide m) r0 i0 t \/ own t = Free) ->
  (forall x, is_u32 x -> x mod 4096 = 0 -> own' x = own x \/
     (own x = Free /\ own' x = Kernel /\ linked wide (view_of wide m') r0 i0 x)) ->
  (wide = true -> forall k, 0 <= k < 4 -> get wide m' r0 k = get wide m r0 k) ->
  (present (pde_of wide m r0 i0) -> own_eq own own') ->
  grown wide R r0 i0 m own m' own'.
Proof.
  intros Hr0 Hn Hd Hl Hl' Hf Hr Hp.
  assert (forall i t, i <> i0 -> linked wide (view_of wide m') r0 i t <-> linked wide (view_of wide m) r0 i t) as Hoth.
  { intros i t Hi. unfold linked. cbn [pde view_of]. split; intros (Hdi & H1 & H2); rewrite Hd in * by naive_solver; done. }
  split; try done.
  - intros r q Hr' _. by apply Hn.
  - intros q x. by rewrite Hn.
  - intros i t H. destruct (decide (i = i0)) as [->|Hi]; [by apply Hl|by apply Hoth].
  - intros q x. rewrite Hn by done. by left.
  - intros i t H. destruct (decide (i = i0)) as [->|Hi]; [|left; by apply Hoth]. destruct (Hl' t H); [by left|by right].
  - intros x Hx Ha. destruct (Hf x Hx Ha) as [?|(? & ? & ?)]; [by left|right]. split_and!; try done. by right.
  - intros Hw _. by apply Hr.
Qed.

(** A new page directory. *)
Lemma grown_directory R r0 m own m' own' q0 a : r0 ∈ R -> forall i0, q0 = i0 / 512 ->
  node_of true m r0 q0 = None -> node_of true m' r0 q0 = Some a ->
  (forall r i, r ∈ R -> dir_index true i -> pde_of true m' r i = pde_of true m r i) ->
  (forall r q, r ∈ R -> ~ (r = r0 /\ q = q0) -> node_of true m' r q = node_of true m r q) ->
  own a = Free -> own_eq (own_set own a Kernel) own' ->
  grown true R r0 i0 m own m' own'.
Proof.
  intros Hr0 i0 -> Hnone Hsome Hd Hn Hfree Hown.
  assert (forall i t, linked true (view_of true m') r0 i t <-> linked true (view_of true m) r0 i t) as Hl.
  { intros i t. unfold linked. cbn [pde view_of]. split; intros (Hdi & H1 & H2); rewrite Hd in * by done; done. }
  assert (forall q x, q <> i0 / 512 -> node_of true m' r0 q = Some x <-> node_of true m r0 q = Some x) as Hn'
    by (intros q x Hne; rewrite Hn; [done..|naive_solver]).
  split.
  - intros r i Hr Hi _. by apply Hd.
  - intros r q Hr Hne. apply Hn; [done|]. by intros [? _].
  - intros q x H. destruct (decide (q = i0 / 512)) as [->|]; [congruence|by apply Hn'].
  - intros i t. by apply Hl.
  - intros q x H. destruct (decide (q = i0 / 512)) as [->|]; [right; congruence|left; by apply Hn'].
  - intros i t H. left. by apply Hl.
  - intros x Hx Ha. rewrite Hown by done. unfold own_set. case_decide; [subst; right|by left].
    split; [done|]. split; [done|]. left. by exists (i0 / 512).
  - done.
  - unfold present, pde_of. by rewrite slot_wide, Hnone.
Qed.

(** A change that no directory sees. *)
Lemma grown_leaf wide R r0 i0 m own m1 m2 own1 : r0 ∈ R -> dir_index wide i0 -> grown wide R r0 i0 m own m1 own1 ->
  (forall r q, r ∈ R -> node_of wide m2 r q = node_of wide m1 r q) ->
  (forall r i, r ∈ R -> dir_index wide i -> pde_of wide m2 r i = pde_of wide m1 r i) ->
  (wide = true -> forall k, 0 <= k < 4 -> get wide m2 r0 k = get wide m1 r0 k) ->
  grown wide R r0 i0 m own m2 own1.
Proof.
  intros Hr0 Hi0 [P N K L NN NL F R1 D] Hn Hd Hr.
  assert (forall i t, linked wide (view_of wide m2) r0 i t <-> linked wide (view_of wide m1) r0 i t) as Hl.
  { intros i t. unfold linked. cbn [pde view_of]. split; intros (Hdi & H1 & H2); rewrite Hd in * by done; done. }
  split; try done.
  - intros r i Hr' Hi Hne. rewrite Hd by done. by apply P.
  - intros r q Hr' Hne. rewrite Hn by done. by apply N.
  - intros q x H. rewrite Hn by done. by apply K.
  - intros i t H. apply Hl. by apply L.
  - intros q x. rewrite Hn by done. apply NN.
  - intros i t. rewrite Hl. apply NL.
  - intros x Hx Ha. destruct (F x Hx Ha) as [?|(? & ? & H)]; [by left|right]. split_and!; try done.
    destruct H as [[q Hq]|H]; [left; exists q; by rewrite Hn|right; by apply Hl].
  - intros Hw Hnz k Hk. rewrite Hr by done. by apply R1.
Qed.

(** What the code relies on after it has found or made a table. *)
Definition ensured (wide : bool) (flags i : Z) (s : paging) (t : Z) (s' : paging) : Prop :=
  (advance wide (current_root wide s) i s s' /\
   grown wide (roots wide s) (current_root wide s) i (words s) (owner_at s) (words s') (owner_at s')) /\
  (t <> 0 -> linked wide (view_of wide (words s')) (current_root wide s) i t /\
     (current_root wide s = kernel_root wide s \/
      ~ shared wide (view_of wide (words s')) (kernel_root wide s) (current_root wide s) i) /\
     (flag flags 4 = true -> flag (pde_of wide (words s') (current_root wide s) i) 4 = true)) /\
  (t = 0 -> pde_of wide (words s') (current_root wide s) i = pde_of wide (words s) (current_root wide s) i).

(** A page directory is no pointer table. *)
Lemma slot_not_root s r0 i f k r : paging_ok true s -> r0 ∈ roots true s -> r ∈ roots true s -> dir_index true i ->
  slot true (words s) r0 i = Some (f, k) -> r <> f.
Proof.
  intros Hok Hr0 Hr Hi Hs ->. pose proof (ok_forest true s Hok) as HF. pose proof (forest_root _ _ _ _ _ _ HF f Hr) as H1.
  rewrite slot_wide in Hs by done. destruct (node_of true (words s) r0 (i / 512)) as [d|] eqn:E; [|done].
  injection Hs as -> <-. destruct (forest_node_inj _ _ _ _ _ _ HF _ _ _ _ _ Hr0 Hr E H1) as [_ Hq].
  unfold dir_index, directories in Hi. clear -Hi Hq. dmlia.
Qed.

(** What else is known of a frame just taken and cleared. *)
Lemma fresh_rest wide s a s1 s2 : paging_ok wide s -> alloc_low s = (a, s1) -> a <> 0 -> s2 = set_words s1 (words s2) ->
  (forall g k, 0 <= k < entries wide -> get wide (words s2) g k = if decide (g = a) then 0 else get wide (words s1) g k) ->
  owner_at s a = Free /\ own_eq (own_set (owner_at s) a Kernel) (owner_at s2) /\
  (forall r, r ∈ roots wide s -> r <> a) /\
  (forall g k, 0 <= k < entries wide -> g <> a -> get wide (words s2) g k = get wide (words s) g k) /\
  (forall r q, r ∈ roots wide s -> node_of wide (words s2) r q = node_of wide (words s) r q).
Proof.
  intros Hok E Hnz Hs2 Hclear.
  destruct (alloc_low_spec s a s1 (ok_pmm _ _ Hok) E) as (Hs1 & Hwf & [[-> _]|(Hlow & Hfree & Hown)]); [done|].
  assert (words s1 = words s) as Hw1 by (rewrite Hs1; done). rewrite Hw1 in Hclear.
  assert (forall r, r ∈ roots wide s -> r <> a) as Hne.
  { intros r Hr ->. destruct (forest_node _ _ _ _ _ _ (ok_forest wide s Hok) a (-1) a Hr) as [_ Hk]; [by apply (ok_forest wide s Hok)|].
    congruence. }
  split; [done|]. split; [rewrite Hs2; exact Hown|]. split; [done|].
  assert (forall g k, 0 <= k < entries wide -> g <> a -> get wide (words s2) g k = get wide (words s) g k) as Hg
    by (intros g k Hk Hga; rewrite Hclear by done; by rewrite decide_False).
  split; [done|]. intros r q Hr. unfold node_of. destruct (q =? -1); [done|].
  destruct (wide && (0 <=? q) && (q <? 4)) eqn:Eq; [|done]. rewrite Hg; [done| |by apply Hne].
  unfold entries. destruct wide; [lia|done].
Qed.

(** Linking a new table. *)
Lemma ensure_new wide flags i s f k a s1 s2 e : paging_ok wide s -> dir_index wide i ->
  slot wide (words s) (current_root wide s) i = Some (f, k) -> ~ present (pde_of wide (words s) (current_root wide s) i) ->
  (flag flags 4 = true -> current_root wide s <> kernel_root wide s) ->
  alloc_low s = (a, s1) -> a <> 0 -> s2 = set_words s1 (words s2) -> tables_ok (words s2) ->
  (forall g k, 0 <= k < entries wide -> get wide (words s2) g k = if decide (g = a) then 0 else get wide (words s1) g k) ->
  entry_ok wide e -> present e -> flag e 2 = true -> narrow e -> frame_of e = a -> flag e 4 = flag flags 4 ->
  ensured wide flags i s a (write_entry wide f k e s2).
Proof.
  intros Hok Hi Hslot Hnp Huser E Hnz Hs2 Hm2 Hclear He Hp Hw Hn Hf H4.
  destruct (fresh_frame wide (current_root wide s) i s a s1 s2 Hok E Hnz Hs2 Hm2 Hclear)
    as (Hadv & Hlow & Hka & Hun & Hsl & Hpd & Hz).
  pose proof Hadv as (Hok2 & Hk2 & _).
  destruct (keeps_roots wide s s2 Hk2) as (EK & EL & EC & ER & EN).
  pose proof (ok_spaces _ _ Hok2) as Hsp. unfold state_ok in Hsp. rewrite EK, EL, EN in Hsp.
  pose proof (ok_current _ _ Hok) as Hcur.
  destruct (step_link wide (paging_pae_nx_enabled s) (kernel_root wide s) (space_list wide s)
    (words s2) (owner_at s2) (current_root wide s) i f k e a) as (Hsp' & Hpg & Hpde & Hoth & Hnodes);
    try done.
  { by rewrite Hsl. }
  { by rewrite Hpd. }
  { intros j Hj. by rewrite Hz. }
  { intros E4. apply Huser. by rewrite <- H4. }
  assert (paging_ok wide (write_entry wide f k e s2)) as Hok3.
  { eapply (paging_ok_keeps wide s2); [done|done|apply Hok2|]. by rewrite EK, EL, EN. }
  assert (linked wide (view_of wide (words (write_entry wide f k e s2))) (current_root wide s) i a) as Hl.
  { split; [done|]. cbn [pde view_of words write_entry set_words]. by rewrite Hpde. }
  split; [split|split; [intros _|done]].
  - eapply advance_trans; [done|]. split; [done|]. split; [done|]. rewrite EK, EL, ER. split; [done|].
    split; [intros x Hx Ha; by left|done].
  - destruct (fresh_rest wide s a s1 s2 Hok E Hnz Hs2 Hclear) as (Hfree & Hown & Hra & Hg & Hns).
    assert (forall t, ~ linked wide (view_of wide (words s)) (current_root wide s) i t) as Hno by (by intros t (_ & H1 & _)).
    apply grown_entry; try done.
    + intros r q Hr. cbn [words write_entry set_words]. rewrite Hnodes by done. by apply Hns.
    + intros r i' Hr Hi' Hne. cbn [words write_entry set_words]. rewrite Hoth by done. by apply Hpd.
    + intros t Ht. by destruct (Hno t).
    + intros t Ht. right. by rewrite (linked_eq _ _ _ _ _ _ Ht Hl).
    + intros x Hx Ha. change (owner_at (write_entry wide f k e s2)) with (owner_at s2). rewrite Hown by done. unfold own_set.
      case_decide; [subst; right|by left]. done.
    + intros -> k' Hk'. cbn [words write_entry set_words]. rewrite get_put; [|done|by eapply slot_index|cbn; lia|done].
      rewrite decide_False; [apply Hg; [cbn; lia|by apply Hra]|]. intros [Hc _]. by apply (slot_not_root s (current_root true s) i f k (current_root true s) Hok Hcur Hcur Hi Hslot).
  - split; [done|]. split; [|intros E4; cbn [words write_entry set_words]; by rewrite Hpde, H4].
    destruct (decide (current_root wide s = kernel_root wide s)) as [|HcK]; [by left|right].
    intros (x & Hx1 & Hx2). assert (x = a) as -> by exact (linked_eq _ _ _ _ _ _ Hx1 Hl).
    apply (proj2 Hun (kernel_root wide s) i (kernel_in wide s)). destruct Hx2 as (_ & H1 & H2).
    cbn [pde view_of words write_entry set_words] in H1, H2.
    rewrite Hoth in H1, H2 by (done || apply kernel_in || naive_solver). done.
Qed.

(** A table that is there already. *)
Lemma ensure_found wide flags i s t : paging_ok wide s -> dir_index wide i ->
  linked wide (view_of wide (words s)) (current_root wide s) i t -> shares wide s i = false ->
  flag flags 4 = false -> ensured wide flags i s t s.
Proof.
  intros Hok Hi Hl Hsh H4. split; [split; [by apply advance_refl|by apply grown_refl]|]. split; [intros _|done]. split; [done|].
  split; [by apply shares_spec|]. by rewrite H4.
Qed.

Lemma ensure_marked wide flags i s t f k : paging_ok wide s -> dir_index wide i ->
  linked wide (view_of wide (words s)) (current_root wide s) i t -> shares wide s i = false ->
  current_root wide s <> kernel_root wide s -> slot wide (words s) (current_root wide s) i = Some (f, k) ->
  ensured wide flags i s t (write_entry wide f k (Z.lor (get wide (words s) f k) 4) s).
Proof.
  intros Hok Hi Hl Hsh HcK Hslot. pose proof (ok_current _ _ Hok) as Hcur.
  pose proof (ok_spaces _ _ Hok) as Hsp. unfold state_ok in Hsp.
  destruct (shares_spec wide s Hok i Hi Hsh) as [|Hns]; [done|].
  destruct (step_mark_user wide (paging_pae_nx_enabled s) (kernel_root wide s) (space_list wide s)
    (words s) (owner_at s) (current_root wide s) i f k t)
    as (Hsp' & Hpg & Hpde & Hp & Hf & Hoth & Hnodes); try done.
  set (s' := write_entry _ _ _ _ _).
  assert (paging_ok wide s') as Hok' by (eapply (paging_ok_keeps wide s); [done|done|apply Hok|done]).
  assert (linked wide (view_of wide (words s')) (current_root wide s) i t) as Hl'.
  { split; [done|]. cbn [pde view_of words s' write_entry set_words]. rewrite Hpde. done. }
  assert (t <> 0) as Htz by (pose proof (linked_page wide s Hok _ _ _ Hcur Hl); unfold low_page in *; lia).
  split; [split; [split_and!; try done; intros x Hx Ha; by left|]|split; [intros _|done]].
  { apply grown_entry; try done.
    - intros x Hx. by rewrite (linked_eq _ _ _ _ _ _ Hx Hl).
    - intros x Hx. left. by rewrite (linked_eq _ _ _ _ _ _ Hx Hl').
    - intros x Hx Ha. by left.
    - intros -> k' Hk'. cbn [words s' write_entry set_words]. destruct (entry_user_bit (get true (words s) f k)) as (_ & Hn' & _).
      + destruct (forest_link _ _ _ _ _ _ (proj2 Hsp) _ _ _ Hcur Hl) as (_ & _ & _ & Hn & _). cbn [pde view_of] in Hn.
        destruct Hl as (_ & Hpl & _). cbn [pde view_of] in Hpl. rewrite (pde_get true s _ _ _ _ Hslot) in Hn, Hpl.
        rewrite present_norm in Hpl. by rewrite norm_present in Hn.
      + rewrite get_put; [|apply (ok_tables true s Hok)|by eapply slot_index|cbn; lia|apply Hn'].
        rewrite decide_False; [done|]. intros [Hc _]. by apply (slot_not_root s (current_root true s) i f k (current_root true s) Hok Hcur Hcur Hi Hslot). }
  split; [done|]. split; [right|].
  - intros (x & Hx1 & Hx2). assert (x = t) as -> by exact (linked_eq _ _ _ _ _ _ Hx1 Hl'). apply Hns. exists t. split; [done|].
    destruct Hx2 as (_ & H1 & H2). cbn [pde view_of words s' write_entry set_words] in H1, H2.
    rewrite Hoth in H1, H2 by (done || apply kernel_in || naive_solver). done.
  - intros _. cbn [words s' write_entry set_words]. rewrite Hpde, flag_lor. apply orb_true_r.
Qed.
