(* ===== verification/PagingMap.v ===== *)
(** * Mapping pages

    [ensure_page_table] and [paging_map_page] of both table formats. *)

From S2P Require Import Prelude Pmm PmmSpec PagingState PagingPae Paging PagingEntry PagingForest PagingView PagingInv PagingOps.
Local Open Scope c_scope.
Local Open Scope Z_scope.

(** ** Directory entries the code builds *)

Lemma land_bit x m : one_bit m -> Z.land x m = if flag x m then m else 0.
Proof.
  intros (k & Hk & ->). rewrite flag_pow2 by done. apply Z.bits_inj'. intros n Hn. rewrite Z.land_spec.
  destruct (Z.eq_dec n k) as [->|Hne].
  - rewrite Z.pow2_bits_true, andb_true_r by done. destruct (Z.testbit x k); [by rewrite Z.pow2_bits_true|by rewrite Z.bits_0].
  - rewrite Z.pow2_bits_false, andb_false_r by lia. destruct (Z.testbit x k); [by rewrite Z.pow2_bits_false by lia|by rewrite Z.bits_0].
Qed.

Lemma new_pde a u : low_page a ->
  let e := Z.lor (Z.lor (Z.lor a 1) 2) (if u : bool then 4 else 0) in
  is_u32 e /\ present e /\ flag e 2 = true /\ narrow e /\ frame_of e = a /\ flag e 4 = u.
Proof.
  intros Hlow. pose proof (low_page_u32 a Hlow) as (Ha & Hal & _).
  assert (forall x y, is_u32 x -> is_u32 y -> is_u32 (Z.lor x y)) as Hor.
  { intros x y Hx Hy. apply (lor_range x y 32); unfold is_u32 in *; lia. }
  assert (is_u32 1 /\ is_u32 2 /\ is_u32 4 /\ is_u32 0) as (? & ? & ? & ?) by (unfold is_u32; lia).
  intros e. assert (is_u32 e) as He by (unfold e; destruct u; auto).
  pose proof (narrow_u32 e He) as Hn.
  assert (frame_of e = a) as Hf.
  { unfold e. rewrite !frame_of_or, (frame_of_page a), !frame_of_small, !Z.lor_0_r by (done || destruct u; lia). done. }
  split; [done|]. unfold present, e. rewrite !flag_lor, !(flag_aligned_low a) by (done || lia).
  destruct u; flag_consts; done.
Qed.

Lemma pdpt_entry d : low_page d -> is_u64 (Z.lor d 1) /\ present (Z.lor d 1) /\ hw_frame (Z.lor d 1) = d.
Proof.
  intros Hlow. pose proof (low_page_u32 d Hlow) as (Hd & Hal & _).
  assert (is_u32 (Z.lor d 1)) as Hu by (apply (lor_range d 1 32); unfold is_u32 in *; lia).
  split; [unfold is_u32, is_u64 in *; lia|]. split; [unfold present; rewrite flag_lor; apply orb_true_r|].
  rewrite hw_frame_narrow by (by apply narrow_u32). by apply frame_of_lor.
Qed.

(** ** [ensure_page_table] *)

Lemma alloc_failed wide r0 i0 s s1 : paging_ok wide s -> alloc_low s = (0, s1) -> advance wide r0 i0 s s1.
Proof.
  intros Hok E. destruct (alloc_low_spec s 0 s1 (ok_pmm _ _ Hok) E) as (Hs1 & Hwf & Hcase).
  destruct Hcase as [[_ Hown]|[Hlow _]]; [|unfold low_page in Hlow; lia].
  assert (keeps s s1) as Hk by (rewrite Hs1; done).
  assert (words s1 = words s) as Hw by (rewrite Hs1; done).
  split; [|split; [done|]; rewrite Hw; split; [done|]; split; [by apply grows_eq|done]].
  eapply paging_ok_keeps; [done..|]. rewrite Hw. eapply spaces_ok_own; [apply Hok|done].
Qed.

Lemma alloc_failed_grown wide i0 s s1 : paging_ok wide s -> alloc_low s = (0, s1) ->
  grown wide (roots wide s) (current_root wide s) i0 (words s) (owner_at s) (words s1) (owner_at s1).
Proof.
  intros Hok E. destruct (alloc_low_spec s 0 s1 (ok_pmm _ _ Hok) E) as (Hs1 & _ & Hcase).
  destruct Hcase as [[_ Hown]|[Hlow _]]; [|unfold low_page in Hlow; lia].
  assert (words s1 = words s) as -> by (rewrite Hs1; done). by apply grown_refl.
Qed.

Lemma ensure_failed wide flags i s s1 : paging_ok wide s -> alloc_low s = (0, s1) -> ensured wide flags i s 0 s1.
Proof.
  intros Hok E. split; [split; [by apply alloc_failed|by apply alloc_failed_grown]|]. split; [done|]. intros _.
  destruct (alloc_low_spec s 0 s1 (ok_pmm _ _ Hok) E) as (-> & _). done.
Qed.

Lemma shares_same wide s s' i : keeps s s' -> dir_index wide i -> current_root wide s ∈ roots wide s ->
  (forall r i, r ∈ roots wide s -> dir_index wide i -> pde_of wide (words s') r i = pde_of wide (words s) r i) ->
  shares wide s' i = shares wide s i.
Proof.
  intros Hk Hi Hc Hd. destruct (keeps_roots wide s s' Hk) as (EK & _ & EC & _). unfold shares, table_at.
  by rewrite EK, EC, !Hd by (done || apply kernel_in).
Qed.

Lemma legacy_ensure_ok s va flags t s' : paging_ok false s -> is_u32 va ->
  shares false s (dir_of false va) = false ->
  (flag flags 4 = true -> current_root false s <> kernel_root false s) ->
  ensure_page_table va flags s = (t, s') -> ensured false flags (dir_of false va) s t s'.
Proof.
  intros Hok Hva Hsh Huser. destruct (va_index false va Hva) as (Hi & _ & _).
  destruct (legacy_pointers s Hok) as [Hp _]. unfold ensure_page_table. rewrite Hp, (legacy_uses_shared s Hok va Hva), Hsh.
  assert (slot false (words s) (current_root false s) (dir_of false va) = Some (current_root false s, Z.shiftr va 22)) as Hslot by done.
  unfold PAGE_PRESENT, PAGE_FLAG_USER, PAGE_FLAG_WRITABLE. rewrite <- !frame_of_land64.
  destruct (flag (entry_at s (current_root false s) (Z.shiftr va 22)) 1) eqn:E.
  - assert (linked false (view_of false (words s)) (current_root false s) (dir_of false va)
      (frame_of (entry_at s (current_root false s) (Z.shiftr va 22)))) as Hl.
    { split; [done|]. cbn [pde view_of]. rewrite legacy_pde, norm_present by done. done. }
    destruct (flag flags 4) eqn:E4.
    + destruct (page_table_allows_user_mappings s _); cbn [negb]; intros [= <- <-].
      * apply (ensure_marked false flags _ s _ _ _ Hok Hi Hl Hsh (Huser eq_refl) Hslot).
      * split; [split; [by apply advance_refl|by apply grown_refl]|split; [done|done]].
    + intros [= <- <-]. by apply ensure_found.
  - destruct (alloc_low s) as [a s1] eqn:Ea.
    destruct (alloc_low_spec s a s1 (ok_pmm _ _ Hok) Ea) as (Hs1 & Hwf & Hcase).
    destruct (Z.eqb_spec a 0) as [->|Hnz]; intros [= <- <-].
    + by apply ensure_failed.
    + destruct Hcase as [[? _]|(Hlow & _)]; [done|].
      rewrite (land_bit flags 4) by apply one_bit_flags.
      destruct (new_pde a (flag flags 4) Hlow) as (He & Hpe & H2 & Hn & Hf & H4).
      assert (tables_ok (words s1)) as Hm1 by (rewrite Hs1; apply (ok_tables false s Hok)).
      destruct (clear_page_spec a s1 Hm1) as (Hc1 & Hc2 & Hc3).
      assert (page_directory (clear_page a s1) = current_root false s) as ->
        by (rewrite Hc1; cbn; rewrite Hs1; cbn; done).
      apply (ensure_new false flags _ s _ _ a s1 (clear_page a s1) _ Hok Hi Hslot); try assumption.
      rewrite legacy_pde, present_norm. unfold present. by rewrite E.
Qed.

Lemma pae_ensure_directory_ok s va d s' : paging_ok true s -> is_u32 va ->
  pae_ensure_directory (Z.shiftr va 30) s = (d, s') ->
  (advance true (current_root true s) (dir_of true va) s s' /\
   grown true (roots true s) (current_root true s) (dir_of true va) (words s) (owner_at s) (words s') (owner_at s')) /\
  (d <> 0 -> node_of true (words s') (current_root true s) (Z.shiftr va 30) = Some d) /\
  (forall r i, r ∈ roots true s -> dir_index true i -> pde_of true (words s') r i = pde_of true (words s) r i).
Proof.
  intros Hok Hva. destruct (pae_indices va Hva) as (_ & _ & Hq). destruct (pae_pointers s Hok) as (Hp & _ & Hp' & _).
  pose proof (ok_current _ _ Hok) as Hcur. unfold pae_ensure_directory. rewrite Hp', (pae_directory s Hok _ _ Hcur Hq).
  unfold PAE_PDP_ENTRIES. replace (4 <=? Z.shiftr va 30) with false by lia.
  destruct (node_of true (words s) (current_root true s) (Z.shiftr va 30)) as [x|] eqn:En.
  { assert (low_page x) as Hx by (by apply (forest_node _ _ _ _ _ _ (ok_forest true s Hok) _ _ _ Hcur En)).
    replace (x =? 0) with false by (unfold low_page in Hx; lia). cbn [negb]. intros [= <- <-].
    split; [split; [by apply advance_refl|by apply grown_refl]|done]. }
  cbn [Z.eqb negb]. destruct (alloc_low s) as [a s1] eqn:Ea.
  destruct (alloc_low_spec s a s1 (ok_pmm _ _ Hok) Ea) as (Hs1 & Hwf & Hcase).
  destruct (Z.eqb_spec a 0) as [->|Hnz]; [intros [= <- <-]; split; [split; [by apply alloc_failed|by apply alloc_failed_grown]|split; [done|by rewrite Hs1]]|].
  assert (tables_ok (words s1)) as Hm1 by (rewrite Hs1; apply (ok_tables true s Hok)).
  pose proof (clear_pae_page_spec a s1 Hm1) as Hc. cbv zeta in Hc. revert Hc.
  generalize (clear_pae_page a s1) as s2. intros s2 (Hc1 & Hc2 & Hc3) [= <- <-].
  destruct (fresh_frame true (current_root true s) (dir_of true va) s a s1 _ Hok Ea Hnz Hc1 Hc2 Hc3)
    as (Hadv & Hlow & Hka & Hun & Hsl & Hpd & Hz).
  assert (pae_pdpt s2 = current_root true s) as -> by (rewrite Hc1; cbn; rewrite Hs1; done).
  pose proof Hadv as (Hok2 & Hk2 & _). destruct (keeps_roots true s s2 Hk2) as (EK & EL & EC & ER & EN).
  pose proof (ok_spaces _ _ Hok2) as Hsp. unfold state_ok in Hsp. rewrite EK, EL, EN in Hsp.
  destruct (pdpt_entry a Hlow) as (He & Hpe & Hf).
  destruct (step_add_directory true (paging_pae_nx_enabled s) (kernel_root true s) (space_list true s)
    (words s2) (owner_at s2) (current_root true s) (Z.shiftr va 30) (Z.lor a 1) a) as (Hsp' & Hpg & Hn0 & Hd & Hn); try done.
  { assert (words s1 = words s) as Hw1 by (rewrite Hs1; done). unfold node_of in En |- *.
    replace (Z.shiftr va 30 =? -1) with false in * by lia.
    rewrite Hc3, Hw1, decide_False; [done| |cbn; lia].
    intros Hac. apply (proj1 Hun (current_root true s) (-1) Hcur). by rewrite <- Hac. }
  { intros k Hk. rewrite Hz by done. done. }
  rewrite pae_set_entry_write. unfold PAE_PRESENT. set (s3 := write_entry true _ _ _ _).
  assert (paging_ok true s3) as Hok3.
  { eapply (paging_ok_keeps true s2); [done|done|apply Hok2|]. by rewrite EK, EL, EN. }
  split; [split|].
  - eapply advance_trans; [done|]. split; [done|]. split; [done|]. rewrite EK, EL, ER. split; [done|].
    split; [intros x Hx Ha; by left|]. intros r i Hr Hi _. by apply Hd.
  - destruct (fresh_rest true s a s1 s2 Hok Ea Hnz Hc1 Hc3) as (Hfree & Hown & _ & _ & Hns).
    destruct (pae_indices va Hva) as (Hqd & _ & _).
    apply (grown_directory _ _ _ _ _ _ (Z.shiftr va 30) a Hcur (dir_of true va) Hqd); try done.
    + intros r i Hr Hi. etransitivity; [by apply Hd|by apply Hpd].
    + intros r q Hr Hne. etransitivity; [by apply Hn|by apply Hns].
  - split; [done|]. intros r i Hr Hi. rewrite <- Hpd by done. by apply Hd.
Qed.

Lemma ensured_trans wide flags i s s0 t s' : current_root wide s ∈ roots wide s -> dir_index wide i ->
  advance wide (current_root wide s) i s s0 ->
  grown wide (roots wide s) (current_root wide s) i (words s) (owner_at s) (words s0) (owner_at s0) ->
  pde_of wide (words s0) (current_root wide s) i = pde_of wide (words s) (current_root wide s) i ->
  ensured wide flags i s0 t s' -> ensured wide flags i s t s'.
Proof.
  intros Hcur Hi Hadv Hgr Hpd [[Hadv' Hgr'] [Ht Htz]]. pose proof Hadv as (_ & Hk & _). destruct (keeps_roots wide s s0 Hk) as (EK & _ & EC & ER & _).
  rewrite EC in Hadv', Htz. rewrite EC, ER in Hgr'. rewrite EK, EC in Ht. rewrite Hpd in Htz.
  assert (advance wide (current_root wide s) i s s') as Hadv2 by (by eapply advance_trans).
  split; [split; [done|]|done]. destruct Hadv2 as (Hok' & Hk' & _). destruct (keeps_roots wide s s' Hk') as (_ & _ & _ & ER' & _).
  pose proof (ok_forest wide s' Hok') as HF. eapply grown_trans; [done|done|..|exact Hgr|exact Hgr']; rewrite <- ER'.
  - intros r q x Hr Hn. destruct (forest_node _ _ _ _ _ _ HF r q x Hr Hn) as [Hlow _]. by apply low_page_u32 in Hlow as (? & ? & _).
  - intros r i' x Hr Hl. destruct (forest_link _ _ _ _ _ _ HF r i' x Hr Hl) as [Hlow _]. by apply low_page_u32 in Hlow as (? & ? & _).
Qed.

(** The table named by a directory entry after the user bit is set. *)
Lemma marked_frame s r va d k : paging_ok true s -> r ∈ roots true s ->
  slot true (words s) r (dir_of true va) = Some (d, k) ->
  linked true (view_of true (words s)) r (dir_of true va) (frame_of (get true (words s) d k)) ->
  frame_of (get true (words (write_entry true d k (Z.lor (get true (words s) d k) 4) s)) d k) =
  frame_of (get true (words s) d k).
Proof.
  intros Hok Hr Hslot Hl. pose proof (ok_tables true s Hok) as Hm. pose proof Hl as (Hi & Hp & _).
  destruct (forest_link _ _ _ _ _ _ (ok_forest true s Hok) _ _ _ Hr Hl) as (_ & _ & _ & Hn & _).
  cbn [pde view_of] in Hp, Hn. rewrite (pde_get true s r _ _ _ Hslot) in Hp, Hn.
  rewrite present_norm in Hp. rewrite norm_present in Hn by done.
  pose proof (slot_index true _ _ _ _ _ Hi Hslot). destruct (entry_user_bit _ Hn) as (Hf & Hn' & _).
  cbn [words write_entry set_words]. rewrite get_put; [by rewrite decide_True, Hf|done|done|done|apply Hn'].
Qed.

Lemma pae_ensure_ok s va flags t s' : paging_ok true s -> is_u32 va ->
  shares true s (dir_of true va) = false ->
  (flag flags 4 = true -> current_root true s <> kernel_root true s) ->
  pae_ensure_page_table va flags s = (t, s') -> ensured true flags (dir_of true va) s t s'.
Proof.
  intros Hok Hva Hsh Huser. destruct (va_index true va Hva) as (Hi & _ & _).
  destruct (pae_indices va Hva) as (Hq & Hk & Hqr). unfold pae_ensure_page_table.
  destruct (pae_ensure_directory (Z.shiftr va 30) s) as [d s0] eqn:Ed.
  destruct (pae_ensure_directory_ok s va d s0 Hok Hva Ed) as [[Hadv Hgr] [Hd Hpde]].
  destruct (Z.eqb_spec d 0) as [->|Hdz]; [intros [= <- <-]; split; [done|]; split; [done|]; intros _; apply Hpde; [apply Hok|done]|].
  pose proof (Hd Hdz) as Hnode. pose proof Hadv as (Hok0 & Hk0 & _).
  destruct (keeps_roots true s s0 Hk0) as (EK & _ & EC & _).
  assert (shares true s0 (dir_of true va) = false) as Hsh0
    by (rewrite (shares_same true s s0); [done..|apply Hok|done]).
  rewrite (pae_uses_shared s0 Hok0 va Hva), Hsh0, <- EC, <- EK in *.
  intros E. apply (ensured_trans true flags _ s s0 t s'); [apply Hok|done|by rewrite <- EC|by rewrite <- EC|apply Hpde; [apply Hok|done]|]. revert E. clear Hd.
  set (k := Z.land (Z.shiftr va 21) 0x1FF) in *.
  assert (slot true (words s0) (current_root true s0) (dir_of true va) = Some (d, k)) as Hslot
    by (by rewrite slot_wide, <- Hq, Hnode, <- Hk).
  assert (pde_of true (words s0) (current_root true s0) (dir_of true va) = norm (get true (words s0) d k)) as Hpd
    by (by apply pde_get).
  unfold pae_entry_present, PAE_PRESENT, PAE_USER, PAE_WRITABLE, PAGE_FLAG_USER.
  rewrite !pae_entry_value_get, !pae_physical.
  destruct (flag (get true (words s0) d k) 1) eqn:E.
  - assert (linked true (view_of true (words s0)) (current_root true s0) (dir_of true va) (frame_of (get true (words s0) d k))) as Hl.
    { split; [done|]. cbn [pde view_of]. rewrite Hpd, norm_present by done. done. }
    destruct (flag flags 4) eqn:E4; [|intros [= <- <-]; by apply ensure_found].
    destruct (pae_page_table_allows_user_mappings s0 _); cbn [negb]; intros [<- <-]%pair_equal_spec.
    + rewrite pae_set_entry_write, (marked_frame s0 (current_root true s0) va) by (done || apply Hok0).
      apply (ensure_marked true flags _ s0 _ d k Hok0 Hi Hl Hsh0 (Huser eq_refl) Hslot).
    + split; [split; [by apply advance_refl|by apply grown_refl]|split; [done|done]].
  - destruct (alloc_low s0) as [a s1] eqn:Ea.
    destruct (alloc_low_spec s0 a s1 (ok_pmm _ _ Hok0) Ea) as (Hs1 & Hwf & Hcase).
    destruct (Z.eqb_spec a 0) as [->|Hnz]; [intros [= <- <-]; by apply ensure_failed|].
    destruct Hcase as [[? _]|(Hlow & _)]; [done|].
    destruct (new_pde a (flag flags 4) Hlow) as (He & Hpe & H2 & Hn & Hf & H4).
    assert (tables_ok (words s1)) as Hm1 by (rewrite Hs1; apply (ok_tables true s0 Hok0)).
    pose proof (clear_pae_page_spec a s1 Hm1) as Hc. cbv zeta in Hc. revert Hc.
    generalize (clear_pae_page a s1) as s2. intros s2 (Hc1 & Hc2 & Hc3) [= <- <-].
    rewrite pae_set_entry_write.
    apply (ensure_new true flags _ s0 _ _ a s1 s2 _ Hok0 Hi Hslot); try assumption.
    + rewrite Hpd, present_norm. unfold present. by rewrite E.
    + cbn [entry_ok]. unfold is_u32, is_u64 in *. lia.
Qed.

(** ** Mapping a page *)

(** Space [r] uses the table of [r0] at [i]. *)
Definition sees (wide : bool) (s : paging) (r r0 i : Z) : Prop :=
  exists t, linked wide (view_of wide (words s)) r i t /\ linked wide (view_of wide (words s)) r0 i t.

(** What a call that maps [va] to [pa] in the current space does. *)
Record mapped (wide : bool) (i j pa flags : Z) (s : paging) (ok : bool) (s' : paging) : Prop := {
  mapped_ok : paging_ok wide s';
  mapped_keeps : keeps s s';
  mapped_fail : ok = false ->
    same_pages wide (kernel_root wide s) (space_list wide s) (words s) (words s') /\ grows (owner_at s) (owner_at s');
  mapped_new : ok = true -> exists v, entry_for (paging_pae_nx_enabled s) pa flags v /\
    pte_of wide (words s) (current_root wide s) i j = 0 /\ pte_of wide (words s') (current_root wide s) i j = v /\
    (forall r, r ∈ roots wide s -> sees wide s' r (current_root wide s) i -> pte_of wide (words s') r i j = v);
  mapped_other : ok = true -> forall r i' j', r ∈ roots wide s -> dir_index wide i' -> table_index wide j' ->
    ~ (sees wide s' r (current_root wide s) i /\ i' = i /\ j' = j) ->
    pte_of wide (words s') r i' j' = pte_of wide (words s) r i' j';
  mapped_user : ok = true -> flag flags 4 = true ->
    owner_at s pa = User false /\
    (forall r, r ∈ roots wide s -> sees wide s' r (current_root wide s) i -> r = current_root wide s) /\
    grows (own_set (owner_at s) pa (User true)) (owner_at s');
  mapped_super : ok = true -> flag flags 4 = false -> grows (owner_at s) (owner_at s');
  mapped_tables : exists own, grown wide (roots wide s) (current_root wide s) i (words s) (owner_at s) (words s') own /\
    own_eq (if ok && flag flags 4 then own_set own pa (User true) else own) (owner_at s');
  mapped_marked : flag flags 4 = true ->
    flag (pde_of wide (words s') (current_root wide s) i) 4 = true \/
    pde_of wide (words s') (current_root wide s) i = pde_of wide (words s) (current_root wide s) i
}.

Section MapTail.
Context (wide : bool) (s s1 : paging) (i j t pa flags v : Z).
Hypothesis Hok : paging_ok wide s.
Hypothesis Hens : ensured wide flags i s t s1.
Hypothesis Ht : t <> 0.
Hypothesis Hi : dir_index wide i.
Hypothesis Hj : table_index wide j.
Hypothesis Habsent : flag (get wide (words s1) t j) 1 = false.
Hypothesis Hpa : is_u32 pa.
Hypothesis Hpage : 1 <= page_number wide i j.
Hypothesis Huser : flag flags 4 = true -> current_root wide s <> kernel_root wide s /\ 1024 <= page_number wide i j < 786432.
Hypothesis Hv : entry_for (paging_pae_nx_enabled s) pa flags v.
Hypothesis Hve : entry_ok wide v.
#[local] Notation cur := (current_root wide s).
#[local] Notation K := (kernel_root wide s).
#[local] Notation L := (space_list wide s).
#[local] Notation nx := (paging_pae_nx_enabled s).

Lemma tail_state : paging_ok wide s1 /\ keeps s s1 /\ same_pages wide K L (words s) (words s1) /\
  grows (owner_at s) (owner_at s1) /\ spaces_ok wide nx K L (words s1) (owner_at s1) /\
  linked wide (view_of wide (words s1)) cur i t /\ pte_of wide (words s1) cur i j = 0.
Proof using All.
  destruct Hens as [[(Hok1 & Hk & Hpg & Hgr & _) _] [Htab _]]. destruct (Htab Ht) as (Hl & _).
  destruct (keeps_roots wide s s1 Hk) as (EK & EL & _ & _ & EN).
  pose proof (ok_spaces _ _ Hok1) as Hsp. unfold state_ok in Hsp. rewrite EK, EL, EN in Hsp.
  split_and!; try done. rewrite (linked_pte wide s1 _ _ _ _ Hl). apply norm_absent. unfold present. by rewrite Habsent.
Qed.

(** A supervisor entry. *)
Lemma tail_super : flag flags 4 = false ->
  spaces_ok wide nx K L (put wide (words s1) t j v) (owner_at s1).
Proof using All.
  intros H4. destruct tail_state as (Hok1 & _ & _ & _ & Hsp & Hl & Hz). destruct Hv as (Hp & Hf & _ & Hv4 & _ & _ & Hpol).
  apply (step_rewrite wide nx K L (words s1) (owner_at s1) cur i j t v); try done; [apply Hok|..]; rewrite ?Hz.
  - split; [intros [_ H]|by intros [? _]]. rewrite Hv4, H4 in H. done.
  - intros [_ H]. by rewrite Hv4, H4 in H.
  - intros Hlow. exfalso. destruct (forest_low _ _ _ _ _ _ (proj2 Hsp) cur i j (ok_current _ _ Hok) Hi Hj Hlow) as (_ & H & _).
    cbn in H. by rewrite Hz in H.
Qed.

Lemma tail_user own' : flag flags 4 = true -> owner_at s1 pa = User false ->
  own_eq (own_set (owner_at s1) pa (User true)) own' ->
  spaces_ok wide nx K L (put wide (words s1) t j v) own'.
Proof using All.
  intros H4 Hfree Hown. destruct tail_state as (Hok1 & _ & _ & _ & Hsp & Hl & Hz).
  destruct Hv as (Hp & Hf & _ & Hv4 & _ & _ & Hpol). destruct (Huser H4) as [HcK Hr].
  destruct (proj1 (proj2 Hens) Ht) as (_ & [?|Hns] & Hpu); [done|].
  apply (step_map_user wide nx K L (words s1) (owner_at s1) cur i j t v); try done.
  - apply Hok.
  - by rewrite Hz.
  - split; [done|]. by rewrite Hv4.
  - by apply Hpu.
  - by rewrite Hf.
  - by rewrite Hf.
Qed.

Lemma tail_written s' : words s' = put wide (words s1) t j v ->
  (forall r, r ∈ roots wide s -> sees wide s' r cur i <-> linked wide (view_of wide (words s1)) r i t) /\
  pages_written wide K L (words s1) (words s') t j v.
Proof using All.
  intros Hw. destruct tail_state as (_ & _ & _ & _ & Hsp & Hl & _). pose proof (ok_current _ _ Hok) as Hcur.
  destruct (write_effect wide nx K L (words s1) (owner_at s1) cur i j t v Hsp Hcur Hl Hj Hve) as (Hpages & Hd & _).
  rewrite Hw. split; [|done]. intros r Hr.
  assert (forall r x, r ∈ roots wide s -> linked wide (view_of wide (put wide (words s1) t j v)) r i x <->
    linked wide (view_of wide (words s1)) r i x) as Hlk.
  { intros r' x Hr'. unfold linked. cbn [pde view_of]. by rewrite Hd. }
  unfold sees. rewrite Hw. setoid_rewrite Hlk; [|done..]. split.
  - intros (x & H1 & H2). by rewrite <- (linked_eq _ _ _ _ _ _ H2 Hl).
  - intros H. by exists t.
Qed.

Lemma tail_grown s' : words s' = put wide (words s1) t j v ->
  grown wide (roots wide s) cur i (words s) (owner_at s) (words s') (owner_at s1).
Proof using All.
  intros Hw. destruct tail_state as (_ & _ & _ & _ & Hsp & Hl & _). pose proof (ok_current _ _ Hok) as Hcur.
  destruct (write_effect wide nx K L (words s1) (owner_at s1) cur i j t v Hsp Hcur Hl Hj Hve) as (_ & Hd & Hn).
  rewrite Hw. eapply grown_leaf; [done|done|apply Hens|done|done|]. intros Hwide k Hk.
  destruct (forest_link _ _ _ _ _ _ (proj2 Hsp) cur i t Hcur Hl) as (_ & _ & _ & _ & Hno).
  rewrite get_put; [|apply Hsp|done|rewrite Hwide; cbn; lia|done]. rewrite decide_False; [done|].
  intros [Hc _]. apply (Hno cur (-1) Hcur). rewrite <- Hc. by apply (forest_root _ _ _ _ _ _ (proj2 Hsp)).
Qed.

Lemma tail_mapped s' : paging_ok wide s' -> keeps s1 s' -> words s' = put wide (words s1) t j v ->
  (flag flags 4 = true -> owner_at s1 pa = User false /\ own_eq (own_set (owner_at s1) pa (User true)) (owner_at s')) ->
  (flag flags 4 = false -> own_eq (owner_at s1) (owner_at s')) -> pa mod 4096 = 0 ->
  mapped wide i j pa flags s true s'.
Proof using All.
  intros Hok' Hk' Hw Hou Hos Hal. destruct tail_state as (Hok1 & Hk & Hpg & Hgr & Hsp & Hl & Hz).
  destruct (tail_written s' Hw) as (Hsees & Hhit & Hmiss). pose proof (ok_current _ _ Hok) as Hcur.
  assert (norm v = v) as Hnv by (apply norm_present, Hv). rewrite Hnv in Hhit.
  split; [done|by eapply keeps_trans|done|..].
  - intros _. exists v. split; [done|]. split; [by rewrite <- Hpg|]. split; [by apply Hhit|]. intros r Hr Hs. apply Hhit; [done|]. by apply Hsees.
  - intros _ r i' j' Hr Hi' Hj' Hne. rewrite Hmiss; [by apply Hpg|done..|]. intros [Hlr ->]. apply Hne.
    destruct (forest_share _ _ _ _ _ _ (proj2 Hsp) r i' cur i t Hr Hcur Hlr Hl) as [-> _].
    split; [|done]. by apply Hsees.
  - intros _ H4. destruct (Hou H4) as [Hf Ho]. destruct (Huser H4) as [HcK _].
    destruct (proj1 (proj2 Hens) Ht) as (_ & [?|Hns] & _); [done|]. split_and!.
    + destruct (Hgr pa Hpa Hal) as [E|[_ E]]; congruence.
    + intros r Hr Hs. apply Hsees in Hs; [|done].
      destruct (forest_share _ _ _ _ _ _ (proj2 Hsp) r i cur i t Hr Hcur Hs Hl) as [_ [?|HKl]]; [done|].
      destruct Hns. by exists t.
    + intros x Hx Hxa. rewrite Ho by done. unfold own_set. case_decide; [by left|]. by apply Hgr.
  - intros _ H4 x Hx Hxa. rewrite Hos by done. by apply Hgr.
  - exists (owner_at s1). split; [by apply tail_grown|]. cbn [andb].
    destruct (flag flags 4) eqn:E4; [by apply Hou|by apply Hos].
  - intros H4. left. destruct (proj1 (proj2 Hens) Ht) as (_ & _ & Hpu).
    destruct (write_effect wide nx K L (words s1) (owner_at s1) cur i j t v Hsp Hcur Hl Hj Hve) as (_ & Hd & _).
    rewrite Hw, Hd by done. by apply Hpu.
Qed.

Lemma map_tail claimed s2 : pa mod 4096 = 0 ->
  (if flag flags 4 then claim_frame pa s1 else (true, s1)) = (claimed, s2) ->
  mapped wide i j pa flags s claimed (if claimed then write_entry wide t j v s2 else s2).
Proof using All.
  intros Hal Hc. destruct tail_state as (Hok1 & Hk & Hpg & Hgr & Hsp & Hl & Hz).
  destruct (keeps_roots wide s s1 Hk) as (EK & EL & _ & _ & EN).
  destruct (Bool.bool_dec (flag flags 4) true) as [H4|H4%not_true_is_false]; rewrite H4 in Hc.
  - destruct (claim_frame_spec s1 pa claimed s2 (ok_pmm _ _ Hok1) Hpa Hc) as (Hs2 & Hwf2 & Hcl).
    assert (keeps s1 s2) as Hk2 by (rewrite Hs2; done).
    assert (words s2 = words s1) as Hw2 by (rewrite Hs2; done).
    destruct claimed.
    + destruct Hcl as (_ & Hfree & Hown). apply tail_mapped; [|done|cbn; by rewrite Hw2|done|by rewrite H4|done].
      eapply (paging_ok_keeps wide s1); [done|done|done|]. rewrite EK, EL, EN. cbn. rewrite Hw2. by apply tail_user.
    + assert (paging_ok wide s2) as Hok2.
      { eapply (paging_ok_keeps wide s1); [done|done|done|]. rewrite EK, EL, EN, Hw2. by eapply spaces_ok_own. }
      split; try done; [by eapply keeps_trans| | |].
      { intros _. rewrite Hw2. split; [done|]. intros x Hx Hxa. rewrite Hcl by done. by apply Hgr. }
      { exists (owner_at s1). rewrite Hw2. split; [apply Hens|done]. }
      intros _. left. rewrite Hw2. destruct (proj1 (proj2 Hens) Ht) as (_ & _ & Hpu). by apply Hpu.
  - injection Hc as <- <-. apply tail_mapped; [|done|done|by rewrite H4|done|done].
    eapply (paging_ok_keeps wide s1); [done|done|apply Hok1|]. rewrite EK, EL, EN. by apply tail_super.
Qed.
End MapTail.

Lemma mapped_ensured wide i j pa flags s t s' : ensured wide flags i s t s' -> mapped wide i j pa flags s false s'.
Proof.
  intros ([(? & ? & ? & ? & _) ?] & Hl & Hz). split; try done; [by exists (owner_at s')|]. intros H4.
  destruct (decide (t = 0)) as [Ht|Ht]; [right; by apply Hz|left]. destruct (Hl Ht) as (_ & _ & Hu). by apply Hu.
Qed.

Lemma mapped_refused wide i j pa flags s : paging_ok wide s -> mapped wide i j pa flags s false s.
Proof. intros Hok. apply (mapped_ensured _ _ _ _ _ _ 0). by split; [split; [apply advance_refl|apply grown_refl]|]. Qed.

Lemma page_aligned x : flag x (PAGE_SIZE - 1) = false -> x mod 4096 = 0.
Proof. intros H. rewrite flag_aligned in H. lia. Qed.

(** The range test on user pages. *)
Lemma user_range wide va flags : is_u32 va ->
  flag flags 4 && ((va <? USER_MAPPING_MIN) || (USER_ADDRESS_LIMIT <=? va)) = false ->
  flag flags 4 = true -> 1024 <= page_number wide (dir_of wide va) (leaf_of wide va) < 786432.
Proof.
  intros Hva H H4. rewrite H4 in H. destruct (va_index wide va Hva) as (_ & _ & ->).
  unfold USER_MAPPING_MIN, USER_ADDRESS_LIMIT in H. dmlia.
Qed.

Lemma page_number_pos wide va : is_u32 va -> (va <? PAGE_SIZE) = false ->
  1 <= page_number wide (dir_of wide va) (leaf_of wide va).
Proof. intros Hva H. destruct (va_index wide va Hva) as (_ & _ & ->). unfold PAGE_SIZE in H. dmlia. Qed.

Lemma not_kernel (a b : Z) flags : (a =? b) && flag flags PAGE_FLAG_USER = false -> flag flags 4 = true -> a <> b.
Proof. change PAGE_FLAG_USER with 4. intros H Hu ->. by rewrite Z.eqb_refl, Hu in H. Qed.

Lemma legacy_map_ok s va pa flags ok s' : paging_ok false s -> is_u32 va -> is_u32 pa -> is_u32 flags ->
  legacy_map_page va pa flags s = (ok, s') -> mapped false (dir_of false va) (leaf_of false va) pa flags s ok s'.
Proof.
  intros Hok Hva Hpa Hfl. destruct (va_index false va Hva) as (Hi & Hj & _).
  unfold legacy_map_page. destruct (_ || _) eqn:Eg; [intros [= <- <-]; by apply mapped_refused|].
  rewrite !orb_false_iff in Eg. destruct Eg as ((((((((((_ & Gv) & Gp) & _) & Gpa) & Gf) & Gwx) & _) & Gk) & Gs) & Gr).
  destruct (legacy_pointers s Hok) as [Hp Hk]. rewrite Hp, Hk in Gk. pose proof (not_kernel _ _ flags Gk) as HnK.
  destruct (ensure_page_table va flags s) as [t s1] eqn:Ee.
  apply legacy_ensure_ok in Ee; [|done|done|by rewrite <- (legacy_uses_shared s Hok)|done].
  destruct (Z.eqb_spec t 0) as [->|Ht]; [intros [= <- <-]; eapply mapped_ensured, Ee|].
  change (Z.land (Z.shiftr va 12) 1023) with (leaf_of false va).
  destruct (flag (entry_at s1 t (leaf_of false va)) PAGE_PRESENT) eqn:Ea; [intros [= <- <-]; eapply mapped_ensured, Ee|].
  destruct (if flag flags PAGE_FLAG_USER then _ else _) as [claimed s2] eqn:Ec.
  destruct (allowed_flags flags Hfl Gf) as [Hallow Hsmall].
  destruct (legacy_entry pa flags Hpa ltac:(unfold PAGE_SIZE in Gp; lia) (page_aligned pa Gpa) Hsmall (wx_check flags Gwx)) as [Hv Hve].
  pose proof (proj2 (ok_mode _ _ Hok) eq_refl) as Hnx.
  assert (mapped false (dir_of false va) (leaf_of false va) pa flags s claimed
    (if claimed then write_entry false t (leaf_of false va) (Z.lor (Z.lor pa 1) flags) s2 else s2)) as Hm.
  { apply (map_tail false s s1); try done.
    - by apply page_number_pos.
    - intros Hu. split; [by apply HnK|by eapply user_range].
    - by rewrite Hnx.
    - by apply page_aligned. }
  destruct claimed; cbn [negb]; intros [<- <-]%pair_equal_spec; [|done].
  unfold invalidate_page. by rewrite set_entry_write, Hallow.
Qed.

Lemma pae_map_ok s va pa flags ok s' : paging_ok true s -> is_u32 va -> is_u32 pa -> is_u32 flags ->
  pae_map_page va pa flags s = (ok, s') -> mapped true (dir_of true va) (leaf_of true va) pa flags s ok s'.
Proof.
  intros Hok Hva Hpa Hfl. destruct (va_index true va Hva) as (Hi & Hj & _).
  unfold pae_map_page. destruct (_ || _) eqn:Eg; [intros [= <- <-]; by apply mapped_refused|].
  rewrite !orb_false_iff in Eg. destruct Eg as ((((((((((_ & Gv) & Gp) & _) & Gpa) & Gf) & Gwx) & _) & Gk) & Gs) & Gr).
  destruct (pae_pointers s Hok) as (_ & _ & Hp & Hk). rewrite Hp, Hk in Gk. pose proof (not_kernel _ _ flags Gk) as HnK.
  destruct (pae_ensure_page_table va flags s) as [t s1] eqn:Ee.
  apply pae_ensure_ok in Ee; [|done|done|by rewrite <- (pae_uses_shared s Hok)|done].
  destruct (Z.eqb_spec t 0) as [->|Ht]; [intros [= <- <-]; eapply mapped_ensured, Ee|].
  change (Z.land (Z.shiftr va 12) 511) with (leaf_of true va). unfold pae_entry_present. rewrite pae_entry_value_get.
  destruct (flag (get true (words s1) t (leaf_of true va)) PAE_PRESENT) eqn:Ea; [intros [= <- <-]; eapply mapped_ensured, Ee|].
  destruct (if flag flags PAGE_FLAG_USER then _ else _) as [claimed s2] eqn:Ec.
  destruct (allowed_flags flags Hfl Gf) as [_ Hsmall].
  assert (paging_pae_nx_enabled s2 = paging_pae_nx_enabled s) as Hnx.
  { pose proof (keeps_roots true _ _ (proj1 (proj2 (proj1 (proj1 Ee))))) as (_ & _ & _ & _ & EN). rewrite <- EN.
    unfold claim_frame in Ec. by destruct (flag flags PAGE_FLAG_USER), (pmm_claim_user_block pa (page_frames s1)); injection Ec as _ <-. }
  destruct (pae_entry s2 pa flags Hpa ltac:(unfold PAGE_SIZE in Gp; lia) (page_aligned pa Gpa) Hsmall (wx_check flags Gwx)) as [Hv Hve]. rewrite Hnx in Hv.
  assert (mapped true (dir_of true va) (leaf_of true va) pa flags s claimed
    (if claimed then write_entry true t (leaf_of true va) (pae_flags_to_entry s2 pa flags) s2 else s2)) as Hm.
  { apply (map_tail true s s1); try done.
    - by apply page_number_pos.
    - intros Hu. split; [by apply HnK|by eapply user_range].
    - by apply page_aligned. }
  destruct claimed; cbn [negb]; intros [<- <-]%pair_equal_spec; [|done].
  unfold invalidate_page. by rewrite pae_set_entry_write.
Qed.

(** The call, in either format. *)
Lemma map_page_ok wide s va pa flags ok s' : paging_ok wide s -> is_u32 va -> is_u32 pa -> is_u32 flags ->
  paging_map_page va pa flags s = (ok, s') -> mapped wide (dir_of wide va) (leaf_of wide va) pa flags s ok s'.
Proof.
  intros Hok. unfold paging_map_page. rewrite (proj1 (ok_mode _ _ Hok)).
  destruct wide; [by apply pae_map_ok|by apply legacy_map_ok].
Qed.
