(* ===== verification/PagingProtect.v ===== *)
(** * Protecting pages

    [paging_protect_page] of both table formats. *)

From S2P Require Import Prelude Pmm PmmSpec PagingState PagingPae Paging PagingEntry PagingForest PagingView PagingInv PagingOps PagingMap.
Local Open Scope c_scope.
Local Open Scope Z_scope.

(** ** Writes that change nothing *)

Lemma lor_user_same e : flag e 4 = true -> Z.lor e 4 = e.
Proof.
  intros H. change 4 with (2 ^ 2) in *. rewrite flag_pow2 in H by lia. apply Z.bits_inj'. intros n Hn.
  rewrite Z.lor_spec. destruct (Z.eq_dec n 2) as [->|]; [by rewrite H|].
  rewrite (Z.pow2_bits_false 2 n) by lia. apply orb_false_r.
Qed.

Lemma spaces_ok_same wide nx K L m m' own : spaces_ok wide nx K L m own -> tables_ok m' ->
  (forall f k, 0 <= k < entries wide -> get wide m' f k = get wide m f k) ->
  spaces_ok wide nx K L m' own /\ view_on wide (K :: L) (view_of wide m) (view_of wide m').
Proof.
  intros [Hm HF] Hm' Hsame.
  assert (view_on wide (K :: L) (view_of wide m) (view_of wide m')) as HV
    by (eapply view_unchanged; [done|]; intros f k _ Hk; by apply Hsame).
  split; [split; [done|by eapply forest_view]|done].
Qed.

Lemma poke_same m f k : tables_ok m -> 0 <= k < 1024 -> forall g j, 0 <= j -> peek (poke m f k (peek m f k)) g j = peek m g j.
Proof. intros Hm Hk g j Hj. rewrite peek_poke by done. by case_decide as E; [destruct E as [-> ->]|]. Qed.

(** ** Protecting a page *)

(** What a call that sets the permissions of a page of the current space does. *)
Record protected (wide : bool) (i j flags : Z) (s : paging) (ok : bool) (s' : paging) : Prop := {
  protected_ok : paging_ok wide s';
  protected_keeps : keeps s s';
  protected_frames : page_frames s' = page_frames s;
  protected_fail : ok = false -> same_pages wide (kernel_root wide s) (space_list wide s) (words s) (words s');
  protected_new : ok = true -> exists v,
    present (pte_of wide (words s) (current_root wide s) i j) /\
    flag (pte_of wide (words s) (current_root wide s) i j) 4 = flag flags 4 /\
    entry_for (paging_pae_nx_enabled s) (frame_of (pte_of wide (words s) (current_root wide s) i j)) flags v /\
    forall r, r ∈ roots wide s -> sees wide s r (current_root wide s) i -> pte_of wide (words s') r i j = v;
  protected_other : ok = true -> forall r i' j', r ∈ roots wide s -> dir_index wide i' -> table_index wide j' ->
    ~ (sees wide s r (current_root wide s) i /\ i' = i /\ j' = j) ->
    pte_of wide (words s') r i' j' = pte_of wide (words s) r i' j';
  protected_tables : (forall r q, r ∈ roots wide s -> node_of wide (words s') r q = node_of wide (words s) r q) /\
    (forall r i', r ∈ roots wide s -> dir_index wide i' -> pde_of wide (words s') r i' = pde_of wide (words s) r i') /\
    (wide = true -> forall r k, r ∈ roots wide s -> 0 <= k < 4 -> get wide (words s') r k = get wide (words s) r k)
}.

Lemma protected_refused wide i j flags s : paging_ok wide s -> protected wide i j flags s false s.
Proof. intros Hok. by split. Qed.

Lemma sees_linked wide s r r0 i t : paging_ok wide s -> linked wide (view_of wide (words s)) r0 i t ->
  sees wide s r r0 i <-> linked wide (view_of wide (words s)) r i t.
Proof.
  intros Hok Hl. split; [|intros H; by exists t]. intros (x & H1 & H2).
  by rewrite <- (linked_eq _ _ _ _ _ _ H2 Hl).
Qed.

Lemma protect_tail wide s i j t flags v s' : paging_ok wide s -> table_index wide j ->
  linked wide (view_of wide (words s)) (current_root wide s) i t ->
  present (get wide (words s) t j) -> flag (get wide (words s) t j) 4 = flag flags 4 ->
  entry_for (paging_pae_nx_enabled s) (frame_of (get wide (words s) t j)) flags v -> entry_ok wide v ->
  keeps s s' -> page_frames s' = page_frames s -> tables_ok (words s') ->
  (forall f k, 0 <= k < entries wide -> get wide (words s') f k = get wide (put wide (words s) t j v) f k) ->
  protected wide i j flags s true s'.
Proof.
  intros Hok Hj Hl Hp H4 Hv Hve Hk Hfr Hm' Hsame. pose proof (ok_current _ _ Hok) as Hcur.
  pose proof (ok_spaces _ _ Hok) as Hsp. unfold state_ok in Hsp. pose proof Hv as (Hpv & Hfv & _ & Hv4 & _ & _ & Hpol).
  assert (pte_of wide (words s) (current_root wide s) i j = get wide (words s) t j) as Hold
    by (rewrite (linked_pte wide s _ _ _ _ Hl); by apply norm_present).
  assert (spaces_ok wide (paging_pae_nx_enabled s) (kernel_root wide s) (space_list wide s) (put wide (words s) t j v) (owner_at s)) as Hsp1.
  { apply (step_rewrite wide _ _ _ (words s) (owner_at s) (current_root wide s) i j t v); try done; rewrite ?Hold.
    - unfold user_entry. rewrite Hv4, <- H4. split; intros [_ ?]; done.
    - by intros _.
    - intros Hlow. split; [done|]. rewrite Hfv.
      destruct (forest_low _ _ _ _ _ _ (proj2 Hsp) (current_root wide s) i j Hcur (proj1 Hl) Hj Hlow) as (_ & _ & Hf).
      cbn in Hf. by rewrite Hold in Hf. }
  destruct (spaces_ok_same _ _ _ _ _ _ _ Hsp1 Hm' Hsame) as [Hsp2 HV].
  destruct (write_effect wide _ _ _ (words s) (owner_at s) (current_root wide s) i j t v Hsp Hcur Hl Hj Hve) as ([Hhit Hmiss] & Hd & Hn).
  assert (forall r i' j', r ∈ roots wide s -> dir_index wide i' -> table_index wide j' ->
    pte_of wide (words s') r i' j' = pte_of wide (put wide (words s) t j v) r i' j') as Hpg by (intros; by apply HV).
  assert (owner_at s' = owner_at s) as Ho by (unfold owner_at; by rewrite Hfr).
  split; try done.
  - eapply (paging_ok_keeps wide s); [done|done|by rewrite Hfr; apply Hok|by rewrite Ho].
  - intros _. exists v. rewrite Hold. do 3 (split; [done|]). intros r Hr Hs. rewrite Hpg by (done || apply Hl).
    rewrite Hhit; [by apply norm_present|done|by apply (sees_linked wide s r _ i t Hok Hl)].
  - intros _ r i' j' Hr Hi' Hj' Hne. rewrite Hpg, Hmiss by (done || (intros [Hlr ->]; apply Hne;
      destruct (forest_share _ _ _ _ _ _ (proj2 Hsp) r i' (current_root wide s) i t Hr Hcur Hlr Hl) as [-> _];
      split; [by apply (sees_linked wide s r _ i t Hok Hl)|done])). done.
  - split; [|split].
    + intros r q Hr. etransitivity; [exact (proj1 HV r q Hr)|by apply Hn].
    + intros r i' Hr Hi'. etransitivity; [exact (proj1 (proj2 HV) r i' Hr Hi')|by apply Hd].
    + intros Hw r k Hr Hk'. rewrite Hsame by (rewrite Hw; cbn; lia). rewrite get_put; [|apply Hsp|done|rewrite Hw; cbn; lia|done].
      rewrite decide_False; [done|]. intros [Hc _].
      destruct (forest_link _ _ _ _ _ _ (proj2 Hsp) _ i t Hcur Hl) as (_ & _ & _ & _ & Hno). apply (Hno r (-1) Hr). rewrite <- Hc.
      by apply (forest_root _ _ _ _ _ _ (proj2 Hsp)).
Qed.

(** The frame of a present entry. *)
Lemma leaf_frame wide s r i j t : paging_ok wide s -> r ∈ roots wide s -> table_index wide j ->
  linked wide (view_of wide (words s)) r i t -> present (get wide (words s) t j) ->
  frame_of (get wide (words s) t j) <> 0.
Proof.
  intros Hok Hr Hj Hl Hp. assert (pte_of wide (words s) r i j = get wide (words s) t j) as He
    by (rewrite (linked_pte wide s _ _ _ _ Hl); by apply norm_present).
  destruct (forest_leaf _ _ _ _ _ _ (ok_forest wide s Hok) r i j Hr (proj1 Hl) Hj) as (_ & _ & Hz & _); cbn [pte view_of];
    rewrite ?He in *; [done|]. cbn in Hz. by rewrite He in Hz.
Qed.

(** The directory entry of a user page has the user bit. *)
Lemma user_bit wide s i j t v r : paging_ok wide s -> r ∈ roots wide s -> table_index wide j ->
  linked wide (view_of wide (words s)) r i t -> get wide (words s) t j = v -> present v -> flag v 4 = true ->
  flag (pde_of wide (words s) r i) 4 = true.
Proof.
  intros Hok Hr Hj Hl Hv Hp H4. apply (forest_user _ _ _ _ _ _ (ok_forest wide s Hok) r i j Hr).
  split; [apply Hl|]. split; [done|]. cbn. rewrite (linked_pte wide s _ _ _ _ Hl), Hv, norm_present by done. done.
Qed.

(** A table is not a directory. *)
Lemma linked_not_node wide s r i t q x : paging_ok wide s -> r ∈ roots wide s ->
  linked wide (view_of wide (words s)) r i t -> x ∈ roots wide s -> node_of wide (words s) x q <> Some t.
Proof. intros Hok Hr Hl Hx. by apply (forest_link _ _ _ _ _ _ (ok_forest wide s Hok) r i t Hr Hl). Qed.

(** A write to table [t] leaves other frames alone. *)
Lemma get_other wide s t j v f k : paging_ok wide s -> table_index wide j -> entry_ok wide v -> f <> t ->
  0 <= k < entries wide -> get wide (put wide (words s) t j v) f k = get wide (words s) f k.
Proof.
  intros Hok Hj Hv Hf Hk. rewrite get_put by (done || apply (ok_tables wide s Hok)). by rewrite decide_False by naive_solver.
Qed.

Lemma land_user a b : Z.land a 4 = Z.land b 4 <-> flag a 4 = flag b 4.
Proof.
  rewrite !land_bit by apply one_bit_flags. destruct (flag a 4), (flag b 4); done.
Qed.

Lemma legacy_protect_ok s va flags ok s' : paging_ok false s -> is_u32 va -> is_u32 flags ->
  legacy_protect_page va flags s = (ok, s') -> protected false (dir_of false va) (leaf_of false va) flags s ok s'.
Proof.
  intros Hok Hva Hfl. destruct (va_index false va Hva) as (Hi & Hj & _). pose proof (ok_current _ _ Hok) as Hcur.
  unfold legacy_protect_page. destruct (_ || _) eqn:Eg; [intros [= <- <-]; by apply protected_refused|].
  rewrite !orb_false_iff in Eg. destruct Eg as (((((((_ & _) & _) & Gwx) & _) & Gs) & Gr) & Gf).
  destruct (legacy_pointers s Hok) as [Hp Hk]. rewrite (legacy_get_table s Hok va).
  destruct (Z.eqb_spec (table_at false s (current_root false s) (dir_of false va)) 0) as [_|Ht];
    [intros [= <- <-]; by apply protected_refused|].
  pose proof (table_at_linked false s _ _ Hcur Hi Ht) as Hl.
  set (t := table_at false s (current_root false s) (dir_of false va)) in *.
  change (Z.land (Z.shiftr va 12) 1023) with (leaf_of false va). set (j := leaf_of false va) in *.
  change (entry_at s t j) with (get false (words s) t j). unfold PAGE_PRESENT, PAGE_FLAG_USER.
  destruct (flag (get false (words s) t j) 1) eqn:Ep; cbn [negb]; [|intros [= <- <-]; by apply protected_refused].
  destruct (Z.eqb_spec (Z.land (get false (words s) t j) 4) (Z.land flags 4)) as [E4%land_user|_]; cbn [negb];
    [|intros [= <- <-]; by apply protected_refused].
  rewrite <- frame_of_land64. destruct (flag flags 4 && _) eqn:Eo; [intros [= <- <-]; by apply protected_refused|].
  destruct (allowed_flags flags Hfl Gf) as [_ Hsmall].
  destruct (legacy_entry (frame_of (get false (words s) t j)) flags (frame_of_u32 _)
    (leaf_frame false s _ _ _ _ Hok Hcur Hj Hl Ep) (frame_of_aligned _) Hsmall (wx_check flags Gwx)) as [Hv Hve].
  set (v := Z.lor (Z.lor (frame_of (get false (words s) t j)) 1) flags) in *.
  assert (entry_for (paging_pae_nx_enabled s) (frame_of (get false (words s) t j)) flags v) as Hv'
    by (rewrite (proj2 (ok_mode _ _ Hok) eq_refl); exact Hv).
  assert (protected false (dir_of false va) j flags s true (set_entry t j v s)) as Hprot
    by (apply (protect_tail false s _ j t flags v); try done; apply (put_tables_ok false); [apply (ok_tables false s Hok)|done]).
  unfold invalidate_page. destruct (flag flags 4) eqn:Eu; intros [<- <-]%pair_equal_spec; [|done].
  set (s1 := set_entry t j v s) in *. pose proof (protected_ok _ _ _ _ _ _ _ Hprot) as Hok1.
  pose proof (ok_tables false s1 Hok1) as Hm1.
  apply (protect_tail false s _ j t flags v); try done; [by rewrite Eu| |].
  - apply poke_ok; [done|]. apply entry_user_u32. by apply peek_u32.
  - intros f k Hk'. change (page_directory s1) with (page_directory s). rewrite Hp.
    assert (flag (entry_at s1 (current_root false s) (Z.shiftr va 22)) 4 = true) as Hu.
    { rewrite <- (user_bit false s _ j t _ _ Hok Hcur Hj Hl eq_refl Ep E4). rewrite legacy_pde.
      assert (entry_at s1 (current_root false s) (Z.shiftr va 22) = entry_at s (current_root false s) (Z.shiftr va 22)) as ->.
      { apply (get_other false s t j v _ _ Hok Hj Hve); [|exact Hi]. intros Hc.
        apply (linked_not_node false s _ _ _ (-1) _ Hok Hcur Hl Hcur). cbn. by f_equal. }
      unfold norm. by destruct (flag (entry_at s (current_root false s) (Z.shiftr va 22)) 1) eqn:E1;
        [|exfalso; apply Ht; unfold t, table_at; rewrite legacy_pde; unfold norm; rewrite E1]. }
    rewrite lor_user_same by done. apply poke_same; [done|exact Hi|cbn in Hk'; lia].
Qed.

(** Where the directory entry of a linked table is. *)
Lemma pae_linked_slot s r va t : is_u32 va -> linked true (view_of true (words s)) r (dir_of true va) t ->
  exists d, node_of true (words s) r (Z.shiftr va 30) = Some d /\
    slot true (words s) r (dir_of true va) = Some (d, Z.land (Z.shiftr va 21) 0x1FF) /\
    present (get true (words s) d (Z.land (Z.shiftr va 21) 0x1FF)) /\
    pde_of true (words s) r (dir_of true va) = get true (words s) d (Z.land (Z.shiftr va 21) 0x1FF).
Proof.
  intros Hva (_ & Hp & _). cbn in Hp. destruct (pae_indices va Hva) as (Hq & Hk & _).
  rewrite (pae_pde s r va Hva) in Hp. destruct (node_of true (words s) r (Z.shiftr va 30)) as [d|] eqn:E; [|done].
  rewrite present_norm in Hp. exists d. split; [done|].
  assert (slot true (words s) r (dir_of true va) = Some (d, Z.land (Z.shiftr va 21) 0x1FF)) as Hs
    by (by rewrite slot_wide, <- Hq, E, <- Hk).
  split; [done|]. split; [done|]. rewrite (pde_get true s _ _ _ _ Hs). by apply norm_present.
Qed.

(** The user bit of a 64-bit entry is in its low word. *)
Lemma low_user_bit m f k : tables_ok m -> flag (entry64 m f k) 4 = flag (peek m f (2 * k)) 4.
Proof.
  intros Hm. unfold entry64. rewrite flag_lor, (flag_aligned_low (shl64 _ _)); [done| |lia].
  unfold shl64, u64. rewrite Z.shiftl_mul_pow2 by lia. change (2 ^ 32) with 4294967296. dmlia.
Qed.

Lemma pae_low_same m f k : tables_ok m -> 0 <= k < 512 -> flag (entry64 m f k) 4 = true ->
  tables_ok (poke m f (2 * k) (u32 (Z.lor (peek m f (2 * k)) 4))) /\
  forall g j, 0 <= j < 512 -> entry64 (poke m f (2 * k) (u32 (Z.lor (peek m f (2 * k)) 4))) g j = entry64 m g j.
Proof.
  intros Hm Hk Hu. rewrite (low_user_bit m f k Hm) in Hu. rewrite lor_user_same by done.
  rewrite u32_id by (by apply peek_u32). assert (tables_ok (poke m f (2 * k) (peek m f (2 * k)))) as Hm'
    by (apply poke_ok; [done|by apply peek_u32]).
  split; [done|]. intros g j Hj. rewrite !entry64_eq by done. by rewrite !poke_same by (done || lia).
Qed.

Lemma pae_protect_ok s va flags ok s' : paging_ok true s -> is_u32 va -> is_u32 flags ->
  pae_protect_page va flags s = (ok, s') -> protected true (dir_of true va) (leaf_of true va) flags s ok s'.
Proof.
  intros Hok Hva Hfl. destruct (va_index true va Hva) as (Hi & Hj & _). pose proof (ok_current _ _ Hok) as Hcur.
  destruct (pae_indices va Hva) as (_ & Hk & Hq).
  unfold pae_protect_page. destruct (_ || _) eqn:Eg; [intros [= <- <-]; by apply protected_refused|].
  rewrite !orb_false_iff in Eg. destruct Eg as (((((((_ & _) & _) & Gwx) & _) & Gs) & Gr) & Gf).
  destruct (pae_pointers s Hok) as (_ & _ & Hp & _). rewrite (pae_get_table s Hok va Hva).
  destruct (Z.eqb_spec (table_at true s (current_root true s) (dir_of true va)) 0) as [_|Ht];
    [intros [= <- <-]; by apply protected_refused|].
  pose proof (table_at_linked true s _ _ Hcur Hi Ht) as Hl.
  set (t := table_at true s (current_root true s) (dir_of true va)) in *.
  change (Z.land (Z.shiftr va 12) 511) with (leaf_of true va). set (j := leaf_of true va) in *.
  rewrite !pae_physical, !pae_entry_value_get. unfold PAE_PRESENT, PAE_USER, PAGE_FLAG_USER.
  destruct (negb _ || negb _) eqn:Ec; [intros [= <- <-]; by apply protected_refused|].
  apply orb_false_elim in Ec as [Ep%negb_false_iff E4%negb_false_iff%eqb_prop].
  destruct (flag flags 4 && _) eqn:Eo; [intros [= <- <-]; by apply protected_refused|].
  destruct (allowed_flags flags Hfl Gf) as [_ Hsmall].
  destruct (pae_entry s (frame_of (get true (words s) t j)) flags (frame_of_u32 _)
    (leaf_frame true s _ _ _ _ Hok Hcur Hj Hl Ep) (frame_of_aligned _) Hsmall (wx_check flags Gwx)) as [Hv Hve].
  set (v := pae_flags_to_entry s (frame_of (get true (words s) t j)) flags) in *.
  rewrite pae_set_entry_write. set (s1 := write_entry true t j v s).
  pose proof (ok_tables true s Hok) as Hm.
  assert (protected true (dir_of true va) j flags s true s1) as Hprot
    by (apply (protect_tail true s _ j t flags v); try done; by apply (put_tables_ok true)).
  unfold invalidate_page. destruct (flag flags 4) eqn:Eu; intros [<- <-]%pair_equal_spec; [|done].
  pose proof (protected_ok _ _ _ _ _ _ _ Hprot) as Hok1. pose proof (ok_tables true s1 Hok1) as Hm1.
  destruct (pae_linked_slot s _ va t Hva Hl) as (d & Hn & Hs & Hpd & Hpde).
  destruct (write_effect true _ _ _ (words s) (owner_at s) (current_root true s) _ j t v (ok_spaces _ _ Hok) Hcur Hl Hj Hve)
    as (_ & _ & Hnode).
  change (pae_pdpt_physical s1) with (current_root true s1).
  rewrite (pae_directory s1 Hok1 _ _ (ok_current _ _ Hok1) Hq).
  change (node_of true (words s1) (current_root true s1)) with (node_of true (put true (words s) t j v) (current_root true s)).
  rewrite Hnode, Hn by done. set (k := Z.land (Z.shiftr va 21) 511) in *. assert (0 <= k < 512) as Hkr by (rewrite Hk; dmlia).
  destruct (pae_low_same (words s1) d k Hm1 Hkr) as [Hm2 Hsame].
  { change (entry64 (words s1) d k) with (get true (put true (words s) t j v) d k).
    rewrite (get_other true s t j v d k Hok Hj Hve) by (done || (intros ->; by apply (linked_not_node true s _ _ t _ _ Hok Hcur Hl Hcur Hn))).
    rewrite <- Hpde. by apply (user_bit true s _ j t _ _ Hok Hcur Hj Hl eq_refl Ep). }
  apply (protect_tail true s _ j t flags v); try done. by rewrite Eu.
Qed.

(** The call, in either format. *)
Lemma protect_page_ok wide s va flags ok s' : paging_ok wide s -> is_u32 va -> is_u32 flags ->
  paging_protect_page va flags s = (ok, s') -> protected wide (dir_of wide va) (leaf_of wide va) flags s ok s'.
Proof.
  intros Hok. unfold paging_protect_page. rewrite (proj1 (ok_mode _ _ Hok)).
  destruct wide; [by apply pae_protect_ok|by apply legacy_protect_ok].
Qed.
