(* ===== verification/PagingUnmap.v ===== *)
(** * Unmapping pages

    [paging_unmap_page] of both table formats: the entry goes, a user frame is released, and empty
    tables and page directories are freed. *)

From S2P Require Import Prelude Pmm PmmSpec PagingState PagingPae Paging PagingEntry PagingForest PagingView PagingInv PagingOps PagingMap PagingProtect.
Local Open Scope c_scope.
Local Open Scope Z_scope.

(** Frames only go back to the allocator. *)
Definition shrinks (own own' : Z -> owner) : Prop :=
  forall x, is_u32 x -> x mod 4096 = 0 -> own' x = own x \/ (own x = Kernel /\ own' x = Free).

(** The invariant and all pages stay; tables that held nothing may be freed. *)
Definition recede (wide : bool) (s s' : paging) : Prop :=
  paging_ok wide s' /\ config s' = config s /\ data s' = data s /\
  same_pages wide (kernel_root wide s) (space_list wide s) (words s) (words s') /\
  shrinks (owner_at s) (owner_at s') /\
  (forall i, dir_index wide i -> present (pde_of wide (words s') (current_root wide s) i) ->
     pde_of wide (words s') (current_root wide s) i = pde_of wide (words s) (current_root wide s) i).

Lemma recede_refl wide s : paging_ok wide s -> recede wide s s.
Proof. intros Hok. split_and!; try done. intros x Hx Ha. by left. Qed.

Lemma recede_trans wide s1 s2 s3 : recede wide s1 s2 -> recede wide s2 s3 -> recede wide s1 s3.
Proof.
  intros (Ho1 & Hc1 & Hd1 & Hp1 & Hs1 & He1) (Ho2 & Hc2 & Hd2 & Hp2 & Hs2 & He2).
  destruct (config_fields wide s1 s2 Hc1) as (EK & EC & EL & _). rewrite EK, EL in Hp2. rewrite EC in He2.
  split; [done|]. split; [congruence|]. split; [congruence|]. split; [by eapply same_pages_trans|].
  split; [|intros i Hi Hp; rewrite He2 in Hp |- * by done; by apply He1].
  intros x Hx Ha. destruct (Hs1 x Hx Ha) as [E1|[E1 E1']], (Hs2 x Hx Ha) as [E2|[E2 E2']]; try congruence.
  - left. congruence.
  - right. split; congruence.
  - right. split; congruence.
Qed.

Lemma flush_recede wide s : paging_ok wide s -> recede wide s (flush_tlb s).
Proof.
  intros Hok. unfold flush_tlb. destruct (paging_enabled s) eqn:E; [|by apply recede_refl].
  split; [|split_and!; try done; intros x Hx Ha; by left].
  destruct Hok as [H1 H2 H3 H4 H5 H6 H7]. split; try done.
  intros _. destruct (H6 E) as (Hc & ? & ? & ? & ?). split_and!; try done.
  unfold pointers_ok in H4. destruct wide; [|done]. cbn. by destruct H4 as (_ & _ & -> & _).
Qed.

Lemma keeps_recede wide s s' : paging_ok wide s' -> keeps s s' ->
  same_pages wide (kernel_root wide s) (space_list wide s) (words s) (words s') ->
  shrinks (owner_at s) (owner_at s') ->
  (forall i, dir_index wide i -> present (pde_of wide (words s') (current_root wide s) i) ->
     pde_of wide (words s') (current_root wide s) i = pde_of wide (words s) (current_root wide s) i) ->
  recede wide s s'.
Proof. intros ? (? & ? & _) ? ? ?. by split_and!. Qed.

(** Freeing a frame that no space uses. *)
Lemma free_recede wide s a : paging_ok wide s -> low_page a -> owner_at s a = Kernel ->
  unused wide (kernel_root wide s) (space_list wide s) (view_of wide (words s)) a -> recede wide s (free_frame a s).
Proof.
  intros Hok Hlow Hk Hun. pose proof (low_page_u32 a Hlow) as (Ha & Hal & _).
  destruct (free_frame_spec s a (ok_pmm _ _ Hok) Ha Hal (or_introl Hk)) as [Hwf Hown].
  apply keeps_recede; [|done|done| |done].
  - eapply (paging_ok_keeps wide s); [done|done|done|].
    eapply (spaces_ok_free wide); [apply (ok_spaces _ _ Hok)|done..].
  - intros x Hx Hxa. rewrite Hown by done. unfold own_set. case_decide; [subst; by right|by left].
Qed.

(** The four pointer entries of the current space. *)
Definition pointers_at (s : paging) : list Z := entry64 (words s) (current_root true s) <$> seqZ 0 4.

Lemma pointers_eq s s' : current_root true s' = current_root true s ->
  (forall k, 0 <= k < 4 -> get true (words s') (current_root true s) k = get true (words s) (current_root true s) k) ->
  pointers_at s' = pointers_at s.
Proof.
  intros HC H. unfold pointers_at. rewrite HC. apply list_fmap_ext. intros _ k Hk%list_elem_of_lookup_2%elem_of_seqZ.
  apply H. lia.
Qed.

(** Unlinking an empty table that only the current space uses, and freeing it. *)
Lemma unlink_recede wide s i f k t : paging_ok wide s -> linked wide (view_of wide (words s)) (current_root wide s) i t ->
  slot wide (words s) (current_root wide s) i = Some (f, k) ->
  (forall j, table_index wide j -> pte_of wide (words s) (current_root wide s) i j = 0) ->
  (forall r, r ∈ roots wide s -> linked wide (view_of wide (words s)) r i t -> r = current_root wide s) ->
  let s' := free_frame t (flush_tlb (write_entry wide f k 0 s)) in
  (recede wide s s' /\
   grown wide (roots wide s) (current_root wide s) i (words s') (owner_at s') (words s) (owner_at s)) /\
  (forall r q, r ∈ roots wide s -> node_of wide (words s') r q = node_of wide (words s) r q) /\
  words s' = put wide (words s) f k 0 /\
  (wide = true -> pdptes (registers s') = pdptes (registers s) \/ pdptes (registers s') = pointers_at s).
Proof.
  intros Hok Hl Hs Hz Hsole. pose proof (ok_current _ _ Hok) as Hcur.
  pose proof (ok_spaces _ _ Hok) as Hsp. unfold state_ok in Hsp.
  destruct (step_unlink wide (paging_pae_nx_enabled s) (kernel_root wide s) (space_list wide s) (words s) (owner_at s)
    (current_root wide s) i f k t Hsp Hcur Hl Hs Hz Hsole) as (Hsp1 & Hpg & Hpde & Hun & Hoth & Hn).
  destruct (forest_link _ _ _ _ _ _ (proj2 Hsp) _ i t Hcur Hl) as (Hlow & Hk & _).
  set (s1 := write_entry wide f k 0 s).
  assert (paging_ok wide s1) as Hok1 by (eapply (paging_ok_keeps wide s); [done|done|apply Hok|done]).
  assert (words (flush_tlb s1) = words s1 /\ owner_at (flush_tlb s1) = owner_at s1) as [Hw Ho]
    by (unfold flush_tlb; by destruct (paging_enabled s1)).
  pose proof (flush_recede wide s1 Hok1) as Hfl. pose proof Hfl as (Hok2 & Hc2 & _).
  destruct (config_fields wide _ _ Hc2) as (EK & _ & EL & _).
  assert (wide = true -> forall k', 0 <= k' < 4 ->
    get wide (put wide (words s) f k 0) (current_root wide s) k' = get wide (words s) (current_root wide s) k') as Hroot.
  { intros -> k' Hk'. pose proof (proj1 Hl) as Hi. rewrite get_put; [|apply Hsp|by eapply slot_index|cbn; lia|unfold entry_ok, is_u64; lia].
    rewrite decide_False; [done|]. intros [Hc _]. by apply (slot_not_root s (current_root true s) i f k (current_root true s) Hok Hcur Hcur Hi Hs). }
  cbv zeta. split; [split|cbn [words free_frame set_page_frames]; rewrite Hw; split_and!; [done..|]].
  3: { intros ->. change (registers (free_frame t (flush_tlb s1))) with (registers (flush_tlb s1)). unfold flush_tlb.
       destruct (paging_enabled s1) eqn:En; [right|by left].
       destruct (ok_hardware _ _ Hok1 En) as (_ & _ & _ & H4 & _). cbn [registers load_cr3 set_registers pdptes]. rewrite H4.
       destruct (ok_pointers _ _ Hok1) as (_ & _ & -> & _). apply (pointers_eq s s1); [done|]. by apply Hroot. }
  - eapply recede_trans; [|eapply recede_trans; [exact Hfl|]].
    + apply keeps_recede; [done|done|done|intros x Hx Ha; by left|]. intros i' Hi' Hp'.
      destruct (decide (i' = i)) as [->|Hne]; [cbn in Hp'; by rewrite Hpde in Hp'|]. apply Hoth; [done|done|naive_solver].
    + apply free_recede; [done|done|by rewrite Ho|]. by rewrite EK, EL, Hw.
  - pose proof (low_page_u32 t Hlow) as (Ht1 & Ht2 & _).
    destruct (free_frame_spec (flush_tlb s1) t) as [_ Hown]; [apply Hok2|done|done|left; by rewrite Ho|].
    assert (words (free_frame t (flush_tlb s1)) = put wide (words s) f k 0) as -> by (cbn [words free_frame set_page_frames]; by rewrite Hw).
    rewrite Ho in Hown. change (owner_at s1) with (owner_at s) in Hown.
    assert (forall x, ~ linked wide (view_of wide (put wide (words s) f k 0)) (current_root wide s) i x) as Hno.
    { intros x (_ & Hx & _). cbn [pde view_of] in Hx. by rewrite Hpde in Hx. }
    apply grown_entry; try done.
    + intros r q Hr. by rewrite Hn.
    + intros r i' Hr Hi' Hne. by rewrite Hoth.
    + intros x Hx. by destruct (Hno x).
    + intros x Hx. right. rewrite (linked_eq _ _ _ _ _ _ Hx Hl), Hown by done. unfold own_set. by rewrite decide_True.
    + intros x Hx Ha. rewrite Hown by done. unfold own_set. case_decide; [subst; by right|by left].
    + intros Hwide k' Hk'. by rewrite Hroot.
    + rewrite Hpde. done.
Qed.

(** Dropping an empty page directory of the current space, and freeing it. *)
Lemma drop_recede s q d i : paging_ok true s -> 0 <= q < 4 -> q = i / 512 ->
  node_of true (words s) (current_root true s) q = Some d ->
  (forall k, 0 <= k < 512 -> ~ present (get true (words s) d k)) ->
  let s' := free_frame d (write_entry true (current_root true s) q 0 s) in
  recede true s s' /\
  grown true (roots true s) (current_root true s) i (words s') (owner_at s') (words s) (owner_at s).
Proof.
  intros Hok Hq Hqi Hn Hz. pose proof (ok_current _ _ Hok) as Hcur.
  pose proof (ok_spaces _ _ Hok) as Hsp. unfold state_ok in Hsp.
  destruct (step_drop_directory true (paging_pae_nx_enabled s) (kernel_root true s) (space_list true s) (words s) (owner_at s)
    (current_root true s) q d eq_refl Hsp Hcur Hq Hn Hz) as (Hsp1 & Hpg & Hun & Hd & Hns).
  destruct (forest_node _ _ _ _ _ _ (proj2 Hsp) _ q d Hcur Hn) as [Hlow Hk].
  set (s1 := write_entry true _ q 0 s).
  assert (paging_ok true s1) as Hok1 by (eapply (paging_ok_keeps true s); [done|done|apply Hok|done]).
  cbv zeta. split.
  - eapply (recede_trans true s s1); [|by apply free_recede]. apply keeps_recede; [done|done|done|intros x Hx Ha; by left|].
    intros i' Hi' _. by apply Hd.
  - pose proof (low_page_u32 d Hlow) as (Hd1 & Hd2 & _).
    destruct (free_frame_spec s1 d (ok_pmm _ _ Hok1) Hd1 Hd2 (or_introl Hk)) as [_ Hown].
    change (owner_at s1) with (owner_at s) in Hown.
    apply (grown_directory _ _ _ _ _ _ q d Hcur i Hqi); try done.
    + destruct (node_of true (words (free_frame d s1)) (current_root true s) q) as [x|] eqn:E; [|done]. exfalso.
      unfold node_of in E. replace (q =? -1) with false in E by lia. replace (true && (0 <=? q) && (q <? 4)) with true in E by lia.
      cbn [words free_frame set_page_frames s1 write_entry set_words] in E.
      rewrite get_put in E; [|apply Hsp|cbn; lia|cbn; lia|unfold entry_ok, is_u64; lia]. by rewrite decide_True in E.
    + intros r j Hr Hj. by rewrite <- Hd.
    + intros r x Hr Hne. by rewrite <- Hns.
    + rewrite Hown by done. unfold own_set. by rewrite decide_True.
    + intros x Hx Ha. unfold own_set. rewrite Hown by done. unfold own_set. case_decide; [by subst|done].
Qed.

(** ** Removing the entry *)

(** What a call that unmaps a page of the current space does; 0 means there was none. *)
Record unmapped (wide : bool) (i j : Z) (s : paging) (pa : Z) (s' : paging) : Prop := {
  unmapped_ok : paging_ok wide s';
  unmapped_config : config s' = config s /\ data s' = data s;
  unmapped_none : pa = 0 -> s' = s;
  unmapped_gone : pa <> 0 ->
    present (pte_of wide (words s) (current_root wide s) i j) /\
    pa = frame_of (pte_of wide (words s) (current_root wide s) i j) /\
    forall r, r ∈ roots wide s -> sees wide s r (current_root wide s) i -> pte_of wide (words s') r i j = 0;
  unmapped_other : pa <> 0 -> forall r i' j', r ∈ roots wide s -> dir_index wide i' -> table_index wide j' ->
    ~ (sees wide s r (current_root wide s) i /\ i' = i /\ j' = j) ->
    pte_of wide (words s') r i' j' = pte_of wide (words s) r i' j';
  unmapped_user : pa <> 0 -> flag (pte_of wide (words s) (current_root wide s) i j) 4 = true ->
    owner_at s pa = User true /\ shrinks (own_set (owner_at s) pa (User false)) (owner_at s');
  unmapped_super : pa <> 0 -> flag (pte_of wide (words s) (current_root wide s) i j) 4 = false ->
    shrinks (owner_at s) (owner_at s');
  unmapped_tables : pa <> 0 -> exists own,
    grown wide (roots wide s) (current_root wide s) i (words s') (owner_at s') (words s) own /\
    own_eq (if flag (pte_of wide (words s) (current_root wide s) i j) 4 then own_set (owner_at s) pa (User false) else owner_at s) own;
  unmapped_pde : forall i', dir_index wide i' -> present (pde_of wide (words s') (current_root wide s) i') ->
    pde_of wide (words s') (current_root wide s) i' = pde_of wide (words s) (current_root wide s) i';
  unmapped_pdptes : wide = true -> pdptes (registers s') = pdptes (registers s) \/ pdptes (registers s') = pointers_at s;
  unmapped_private : pa <> 0 -> current_root wide s = kernel_root wide s \/
    ~ shared wide (view_of wide (words s)) (kernel_root wide s) (current_root wide s) i
}.

(** In the kernel's space, the last page of a table that another space uses is not unmapped: the
    other space would keep an entry for the freed table. *)
Definition unmap_safe (wide : bool) (s : paging) (i j : Z) : Prop :=
  current_root wide s = kernel_root wide s ->
  (exists j', table_index wide j' /\ j' <> j /\ present (pte_of wide (words s) (kernel_root wide s) i j')) \/
  (forall r, r ∈ roots wide s -> sees wide s r (kernel_root wide s) i -> r = kernel_root wide s).

Lemma unmapped_refused wide i j s : paging_ok wide s -> unmapped wide i j s 0 s.
Proof. intros Hok. split; try done. by left. Qed.

Lemma unmapped_recede wide i j s pa s1 s2 : paging_ok wide s -> pa <> 0 -> table_index wide j -> dir_index wide i ->
  unmapped wide i j s pa s1 ->
  recede wide s1 s2 /\ grown wide (roots wide s1) (current_root wide s1) i (words s2) (owner_at s2) (words s1) (owner_at s1) ->
  (wide = true -> pdptes (registers s2) = pdptes (registers s1) \/ pdptes (registers s2) = pointers_at s) ->
  unmapped wide i j s pa s2.
Proof.
  intros Hok Hpa Hj Hi [Hok1 [Hc1 Hd1] _ Hg Ho Hu Hs Htab Hpd Hptr Hprv] [(Hok2 & Hc2 & Hd2 & Hp2 & Hs2 & He2) Hgr] Hptr2.
  destruct (config_fields wide s s1 Hc1) as (EK & EC & EL & _). rewrite EK, EL in Hp2. rewrite EC in He2.
  unfold roots in Hgr. rewrite EK, EL, EC in Hgr. fold (roots wide s) in Hgr.
  assert (forall own, shrinks own (owner_at s1) -> shrinks own (owner_at s2)) as Hsh.
  { intros own H x Hx Ha. destruct (H x Hx Ha) as [E1|[E1 E1']], (Hs2 x Hx Ha) as [E2|[E2 E2']]; try congruence.
    - left. congruence.
    - right. split; congruence.
    - right. split; congruence. }
  split; try done; [split; congruence|..].
  - intros _. destruct (Hg Hpa) as (? & ? & Hgone). do 2 (split; [done|]). intros r Hr Hsee.
    rewrite Hp2 by done. by apply Hgone.
  - intros _ r i' j' Hr Hi' Hj' Hne. rewrite Hp2 by done. by apply Ho.
  - intros _ H4. destruct (Hu Hpa H4). split; [done|by apply Hsh].
  - intros _ H4. apply Hsh. by apply Hs.
  - intros _. destruct (Htab Hpa) as (own & Hgr' & Hown). exists own. split; [|done].
    pose proof (ok_forest wide s Hok) as HF. eapply grown_trans; [apply Hok|done|..|exact Hgr|exact Hgr'].
    + intros r q x Hr Hn. destruct (forest_node _ _ _ _ _ _ HF r q x Hr Hn) as [Hlow _]. by apply low_page_u32 in Hlow as (? & ? & _).
    + intros r i' x Hr Hl. destruct (forest_link _ _ _ _ _ _ HF r i' x Hr Hl) as [Hlow _]. by apply low_page_u32 in Hlow as (? & ? & _).
  - intros i' Hi' Hp'. rewrite He2 in Hp' |- * by done. by apply Hpd.
  - intros Hw. destruct (Hptr2 Hw) as [->|]; [by apply Hptr|by right].
Qed.

Lemma zero_ok wide : entry_ok wide 0.
Proof. unfold entry_ok, is_u64, is_u32. destruct wide; lia. Qed.

Section Clear.
Context (wide : bool) (s : paging) (i j t : Z).
Hypothesis Hok : paging_ok wide s.
Hypothesis Hj : table_index wide j.
Hypothesis Hl : linked wide (view_of wide (words s)) (current_root wide s) i t.
Hypothesis Hp : present (get wide (words s) t j).
Hypothesis Hsh : shares wide s i = false.
Hypothesis Hlow : current_root wide s = kernel_root wide s -> 1024 <= page_number wide i j.
Hypothesis Hpos : 1 <= page_number wide i j.
#[local] Notation cur := (current_root wide s).
#[local] Notation K := (kernel_root wide s).
#[local] Notation L := (space_list wide s).
#[local] Notation nx := (paging_pae_nx_enabled s).
#[local] Notation old := (get wide (words s) t j).

Lemma clear_old : pte_of wide (words s) cur i j = old.
Proof using Hl Hp. rewrite (linked_pte wide s _ _ _ _ Hl). by apply norm_present. Qed.

(** The identity window stays. *)
Lemma clear_not_low : ~ (1 <= page_number wide i j < 1024).
Proof using All.
  intros Hr. destruct (shares_spec wide s Hok i (proj1 Hl) Hsh) as [Hc|Hns]; [specialize (Hlow Hc); lia|].
  apply Hns. by apply (forest_low _ _ _ _ _ _ (ok_forest wide s Hok) cur i j (ok_current _ _ Hok) (proj1 Hl) Hj Hr).
Qed.

(** The state after the entry is cleared and the frame released. *)
Definition cleared : paging :=
  let s1 := write_entry wide t j 0 s in if flag old 4 then release_frame (frame_of old) s1 else s1.

Lemma cleared_words : words cleared = put wide (words s) t j 0.
Proof using. unfold cleared. by destruct (flag old 4). Qed.

Lemma cleared_unmapped : unmapped wide i j s (frame_of old) cleared.
Proof using All.
  pose proof (ok_current _ _ Hok) as Hcur. pose proof (ok_spaces _ _ Hok) as Hsp. unfold state_ok in Hsp.
  pose proof (leaf_frame wide s _ _ _ _ Hok Hcur Hj Hl Hp) as Hnz.
  destruct (write_effect wide nx K L (words s) (owner_at s) cur i j t 0 Hsp Hcur Hl Hj (zero_ok wide)) as ([Hhit Hmiss] & Hd & Hn).
  assert (paging_ok wide cleared /\
    (flag old 4 = true -> owner_at s (frame_of old) = User true /\
       own_eq (own_set (owner_at s) (frame_of old) (User false)) (owner_at cleared)) /\
    (flag old 4 = false -> owner_at cleared = owner_at s)) as (Hok' & Hou & Hos).
  { unfold cleared. destruct (flag old 4) eqn:E4.
    - assert (user_entry (pte_of wide (words s) cur i j)) as Hu by (rewrite clear_old; done).
      destruct (forest_user _ _ _ _ _ _ (proj2 Hsp) cur i j Hcur) as (_ & Ho & _); [split; [apply Hl|done]|].
      cbn in Ho. rewrite clear_old in Ho.
      destruct (release_frame_spec (write_entry wide t j 0 s) (frame_of old) (ok_pmm _ _ Hok)
        (frame_of_u32 _) (frame_of_aligned _) Ho) as [Hwf Hown].
      split; [|split; [intros _; done|done]]. eapply (paging_ok_keeps wide s); [done|done|done|].
      apply (step_unmap_user wide nx K L (words s) (owner_at s) cur i j t 0); try done; [by apply zero_ok|].
      by rewrite clear_old.
    - split; [|done]. eapply (paging_ok_keeps wide s); [done|done|apply Hok|].
      apply (step_rewrite wide nx K L (words s) (owner_at s) cur i j t 0); try done; [by apply zero_ok|..].
      + rewrite clear_old. split; [by intros [? _]|]. intros [_ H]. by rewrite E4 in H.
      + by intros [? _].
      + intros Hr. by destruct clear_not_low. }
  split; try done.
  - unfold cleared. by destruct (flag old 4).
  - intros _. rewrite clear_old. do 2 (split; [done|]). intros r Hr Hs. rewrite cleared_words. apply Hhit; [done|].
    by apply (sees_linked wide s r _ i t Hok Hl).
  - intros _ r i' j' Hr Hi' Hj' Hne. rewrite cleared_words. apply Hmiss; [done..|]. intros [Hlr ->]. apply Hne.
    destruct (forest_share _ _ _ _ _ _ (proj2 Hsp) r i' cur i t Hr Hcur Hlr Hl) as [-> _].
    split; [by apply (sees_linked wide s r _ i t Hok Hl)|done].
  - intros _. rewrite clear_old. intros H4. destruct (Hou H4) as [Ho He]. split; [done|]. intros x Hx Ha. left. by apply He.
  - intros _. rewrite clear_old. intros H4 x Hx Ha. left. by rewrite (Hos H4).
  - intros _. exists (owner_at cleared). rewrite cleared_words, clear_old. split.
    + eapply grown_leaf; [done|apply Hl|by apply grown_refl| | |].
      * intros r q Hr. by rewrite Hn.
      * intros r i' Hr Hi'. by rewrite Hd.
      * intros Hw k Hk. destruct (forest_link _ _ _ _ _ _ (proj2 Hsp) cur i t Hcur Hl) as (_ & _ & _ & _ & Hno).
        rewrite get_put; [|apply Hsp|done|rewrite Hw; cbn; lia|apply zero_ok]. rewrite decide_False; [done|].
        intros [Hc _]. apply (Hno cur (-1) Hcur). rewrite <- Hc. by apply (forest_root _ _ _ _ _ _ (proj2 Hsp)).
    + destruct (flag old 4) eqn:E4; [by apply Hou|by rewrite Hos].
  - intros i' Hi' _. rewrite cleared_words. by apply Hd.
  - intros _. left. unfold cleared. by destruct (flag old 4).
  - intros _. by apply (shares_spec wide s Hok i (proj1 Hl)).
Qed.

(** The directories stay, so the table stays linked. *)
Lemma cleared_linked r : r ∈ roots wide s ->
  (forall x, linked wide (view_of wide (words cleared)) r i x <-> linked wide (view_of wide (words s)) r i x) /\
  forall q, node_of wide (words cleared) r q = node_of wide (words s) r q.
Proof using Hok Hj Hl.
  intros Hr. pose proof (ok_spaces _ _ Hok) as Hsp. unfold state_ok in Hsp.
  destruct (write_effect wide nx K L (words s) (owner_at s) cur i j t 0 Hsp (ok_current _ _ Hok) Hl Hj (zero_ok wide)) as (_ & Hd & Hn).
  rewrite cleared_words. split; [|intros q; by apply Hn]. intros x. unfold linked. cbn [pde view_of]. by rewrite Hd by (done || apply Hl).
Qed.

(** Nothing is left in the table, and nobody else uses it. *)
Lemma cleared_empty : unmap_safe wide s i j ->
  (forall k, table_index wide k -> ~ present (get wide (words cleared) t k)) ->
  linked wide (view_of wide (words cleared)) cur i t /\
  (forall k, table_index wide k -> pte_of wide (words cleared) cur i k = 0) /\
  (forall r, r ∈ roots wide s -> linked wide (view_of wide (words cleared)) r i t -> r = cur) /\
  (forall r q, r ∈ roots wide s -> node_of wide (words cleared) r q = node_of wide (words s) r q).
Proof using All.
  intros Hsafe Hz. pose proof (ok_current _ _ Hok) as Hcur. pose proof (ok_spaces _ _ Hok) as Hsp. unfold state_ok in Hsp.
  destruct (write_effect wide nx K L (words s) (owner_at s) cur i j t 0 Hsp Hcur Hl Hj (zero_ok wide)) as ([Hhit Hmiss] & Hd & Hn).
  pose proof (fun r x Hr => proj1 (cleared_linked r Hr) x) as Hlk. rewrite cleared_words in *.
  assert (linked wide (view_of wide (put wide (words s) t j 0)) cur i t) as Hl1 by (by apply Hlk).
  assert (forall k, table_index wide k -> pte_of wide (put wide (words s) t j 0) cur i k = 0) as Hz'.
  { intros k Hk. destruct Hl1 as (_ & H1 & H2). cbn in H1, H2. unfold pte_of. rewrite H1, H2.
    by apply norm_absent, Hz. }
  split; [done|]. split; [done|]. split; [|done]. intros r Hr Hlr. rewrite Hlk in Hlr by done.
  destruct (shares_spec wide s Hok i (proj1 Hl) Hsh) as [Hc|Hns].
  - destruct (Hsafe Hc) as [(j' & Hj' & Hne & Hpr)|Hsole].
    + exfalso. rewrite <- Hc in Hpr. rewrite <- Hmiss, Hz' in Hpr by (done || apply Hl || (intros [_ ?]; done)). done.
    + rewrite Hc. apply Hsole; [done|]. rewrite <- Hc. by apply (sees_linked wide s r _ i t Hok Hl).
  - destruct (forest_share _ _ _ _ _ _ (proj2 Hsp) r i cur i t Hr Hcur Hlr Hl) as [_ [?|HK]]; [done|].
    destruct Hns. by exists t.
Qed.
End Clear.

(** ** The operation *)

Lemma cleared_unfold wide s j t :
  (if flag (get wide (words s) t j) 4 then release_frame (frame_of (get wide (words s) t j)) (write_entry wide t j 0 s)
   else write_entry wide t j 0 s) = cleared wide s j t.
Proof. done. Qed.

Lemma cleared_config wide s j t : config (cleared wide s j t) = config s.
Proof. unfold cleared. by destruct (flag (get wide (words s) t j) 4). Qed.

Definition table_is_empty (wide : bool) (s : paging) (f : Z) : bool := if wide then pae_page_is_empty s f else page_is_empty s f.

Lemma pae_is_empty_eq s f : pae_page_is_empty s f = table_is_empty true s f.
Proof. done. Qed.

Lemma table_is_empty_spec wide s f : table_is_empty wide s f = true <-> forall k, table_index wide k -> ~ present (get wide (words s) f k).
Proof.
  unfold table_is_empty, pae_page_is_empty, page_is_empty, table_index. destruct wide; cbn [entries]; rewrite all_range_true; apply forall_proper; intros k.
  - unfold pae_entry_present, PAE_PRESENT, present. rewrite pae_entry_value_get. cbn [get]. by rewrite negb_true_iff, not_true_iff_false.
  - change (entry_at s f k) with (get false (words s) f k). unfold PAGE_PRESENT, present. by rewrite negb_true_iff, not_true_iff_false.
Qed.

(** The kernel's space keeps its first pages. *)
Lemma kernel_window (a b va : Z) : (a =? b) && (va <? USER_MAPPING_MIN) = false -> a = b -> 1024 <= va / 4096.
Proof.
  intros H ->. rewrite Z.eqb_refl, andb_true_l in H. apply Z.ltb_ge in H. unfold USER_MAPPING_MIN in H.
  by apply Z.div_le_lower_bound.
Qed.

(** The page that a call unmaps: the checks it has passed. *)
Record found (wide : bool) (s : paging) (i j t : Z) : Prop := {
  found_linked : linked wide (view_of wide (words s)) (current_root wide s) i t;
  found_present : present (get wide (words s) t j);
  found_shares : shares wide s i = false;
  found_low : current_root wide s = kernel_root wide s -> 1024 <= page_number wide i j;
  found_pos : 1 <= page_number wide i j
}.

(** How a call ends: with the entry cleared, with the table given back, or with the page directory
    given back as well. *)
Definition unmap_end (wide : bool) (s1 : paging) (i t : Z) (s' : paging) : Prop :=
  (table_is_empty wide s1 t = false /\ s' = s1) \/
  (table_is_empty wide s1 t = true /\ exists f k, slot wide (words s1) (current_root wide s1) i = Some (f, k) /\
     let s2 := free_frame t (flush_tlb (write_entry wide f k 0 s1)) in
     s' = s2 \/ (wide = true /\ node_of wide (words s1) (current_root wide s1) (i / 512) = Some f /\ table_is_empty wide s2 f = true /\
       s' = free_frame f (write_entry wide (current_root wide s1) (i / 512) 0 s2))).

Lemma legacy_unmap_path s va pa s' : paging_ok false s -> is_u32 va -> legacy_unmap_page va s = (pa, s') ->
  let i := dir_of false va in let j := leaf_of false va in
  (pa = 0 /\ s' = s) \/ exists t, found false s i j t /\ pa = frame_of (get false (words s) t j) /\ unmap_end false (cleared false s j t) i t s'.
Proof.
  intros Hok Hva. destruct (va_index false va Hva) as (Hi & Hj & Hnum). pose proof (ok_current _ _ Hok) as Hcur. cbv zeta.
  unfold legacy_unmap_page. destruct (_ || _) eqn:Eg; [intros [= <- <-]; by left|].
  rewrite !orb_false_iff in Eg. destruct Eg as (((Gv & _) & Gk) & Gs).
  destruct (legacy_pointers s Hok) as [Hp Hk]. rewrite (legacy_uses_shared s Hok va Hva) in Gs.
  rewrite (legacy_get_table s Hok va).
  destruct (Z.eqb_spec (table_at false s (current_root false s) (dir_of false va)) 0) as [_|Ht]; [intros [= <- <-]; by left|].
  pose proof (table_at_linked false s _ _ Hcur Hi Ht) as Hl.
  set (t := table_at false s (current_root false s) (dir_of false va)) in *.
  change (Z.land (Z.shiftr va 12) 1023) with (leaf_of false va). set (j := leaf_of false va) in *.
  change (entry_at s t j) with (get false (words s) t j). unfold PAGE_PRESENT, PAGE_FLAG_USER.
  destruct (flag (get false (words s) t j) 1) eqn:Ep; cbn [negb]; [|intros [= <- <-]; by left].
  rewrite <- frame_of_land64. unfold invalidate_page. rewrite set_entry_write, cleared_unfold. intros E. right. exists t.
  assert (found false s (dir_of false va) j t) as Hf.
  { split; [done|done|done| |by apply page_number_pos]. intros Hc. rewrite Hp, Hk in Gk. rewrite Hnum. by apply (kernel_window _ _ va Gk). }
  split; [done|]. pose proof (cleared_config false s j t) as Hcf. destruct (config_fields false _ _ Hcf) as (_ & EC & _).
  assert (page_directory (cleared false s j t) = current_root false (cleared false s j t)) as Hpd.
  { rewrite EC, <- Hp. unfold cleared. by destruct (flag (get false (words s) t j) 4). }
  revert E. change (page_is_empty ?x t) with (table_is_empty false x t). set (s1 := cleared false s j t) in *.
  destruct (table_is_empty false s1 t) eqn:Ee; cbn [negb]; intros [<- <-]%pair_equal_spec; (split; [done|]); [right|by left].
  split; [done|]. exists (current_root false s1), (dir_of false va). split; [done|]. left. by rewrite <- Hpd.
Qed.

Lemma pae_unmap_path s va pa s' : paging_ok true s -> is_u32 va -> pae_unmap_page va s = (pa, s') ->
  let i := dir_of true va in let j := leaf_of true va in
  (pa = 0 /\ s' = s) \/ exists t, found true s i j t /\ pa = frame_of (get true (words s) t j) /\ unmap_end true (cleared true s j t) i t s'.
Proof.
  intros Hok Hva. destruct (va_index true va Hva) as (Hi & Hj & Hnum). pose proof (ok_current _ _ Hok) as Hcur. cbv zeta.
  destruct (pae_indices va Hva) as (Hq & Hk & Hqr).
  unfold pae_unmap_page. destruct (_ || _) eqn:Eg; [intros [= <- <-]; by left|].
  rewrite !orb_false_iff in Eg. destruct Eg as ((((_ & Gv) & _) & Gk) & Gs).
  destruct (pae_pointers s Hok) as (_ & _ & Hp & Hpk). rewrite (pae_uses_shared s Hok va Hva) in Gs.
  rewrite (pae_get_table s Hok va Hva).
  destruct (Z.eqb_spec (table_at true s (current_root true s) (dir_of true va)) 0) as [_|Ht]; [intros [= <- <-]; by left|].
  pose proof (table_at_linked true s _ _ Hcur Hi Ht) as Hl.
  set (t := table_at true s (current_root true s) (dir_of true va)) in *.
  change (Z.land (Z.shiftr va 12) 511) with (leaf_of true va). set (j := leaf_of true va) in *.
  unfold pae_entry_present at 1, PAE_PRESENT, PAE_USER. rewrite !pae_physical, !pae_entry_value_get.
  destruct (flag (get true (words s) t j) 1) eqn:Ep; cbn [negb]; [|intros [= <- <-]; by left].
  unfold invalidate_page. rewrite (pae_set_entry_write t j 0 s), cleared_unfold. intros E. right. exists t.
  assert (found true s (dir_of true va) j t) as Hf.
  { split; [done|done|done| |by apply page_number_pos]. intros Hc. rewrite Hp, Hpk in Gk. rewrite Hnum. by apply (kernel_window _ _ va Gk). }
  split; [done|]. destruct Hf as [_ _ _ Flow Fpos].
  pose proof (cleared_unmapped true s (dir_of true va) j t Hok Hj Hl Ep Gs Flow Fpos) as Hun.
  pose proof (unmapped_ok _ _ _ _ _ _ Hun) as Hok1. destruct (config_fields true _ _ (cleared_config true s j t)) as (_ & EC & _).
  destruct (cleared_linked true s (dir_of true va) j t Hok Hj Hl _ Hcur) as [Hlk _]. pose proof (proj2 (Hlk t) Hl) as Hl1. rewrite <- EC in Hl1.
  revert E. rewrite pae_is_empty_eq. set (s1 := cleared true s j t) in *.
  change (pae_pdpt_physical s1) with (current_root true s1). rewrite (pae_directory s1 Hok1 _ _ (ok_current _ _ Hok1) Hqr).
  destruct (pae_linked_slot s1 _ va t Hva Hl1) as (d & Hn & Hs & _). rewrite Hn, !pae_set_entry_write.
  destruct (table_is_empty true s1 t) eqn:Ee; cbn [negb]; [|intros [<- <-]%pair_equal_spec; split; [done|by left]].
  set (s2 := free_frame t _). rewrite pae_is_empty_eq. assert (pae_pdpt s2 = current_root true s1) as Hpt.
  { rewrite <- (proj1 (pae_pointers s1 Hok1)). unfold s2, flush_tlb. by destruct (paging_enabled _). }
  intros E. assert (pa = frame_of (get true (words s) t j)) as Hpa by (destruct (table_is_empty true s2 d); by apply pair_equal_spec in E as [<- _]).
  split; [done|]. right. split; [done|]. exists d, (Z.land (Z.shiftr va 21) 511). split; [done|]. cbv zeta. fold s2.
  destruct (table_is_empty true s2 d) eqn:Ed; cbn [negb] in E; apply pair_equal_spec in E as [_ <-]; [right|by left].
  rewrite <- Hq, Hpt. done.
Qed.

(** The call, in either format. *)
Lemma unmap_path wide s va pa s' : paging_ok wide s -> is_u32 va -> paging_unmap_page va s = (pa, s') ->
  let i := dir_of wide va in let j := leaf_of wide va in
  (pa = 0 /\ s' = s) \/ exists t, found wide s i j t /\ pa = frame_of (get wide (words s) t j) /\ unmap_end wide (cleared wide s j t) i t s'.
Proof.
  intros Hok. unfold paging_unmap_page. rewrite (proj1 (ok_mode _ _ Hok)).
  destruct wide; [by apply pae_unmap_path|by apply legacy_unmap_path].
Qed.

Lemma unmap_page_ok wide s va pa s' : paging_ok wide s -> is_u32 va ->
  unmap_safe wide s (dir_of wide va) (leaf_of wide va) ->
  paging_unmap_page va s = (pa, s') -> unmapped wide (dir_of wide va) (leaf_of wide va) s pa s'.
Proof.
  intros Hok Hva Hsafe E. destruct (va_index wide va Hva) as (Hi & Hj & _).
  destruct (unmap_path wide s va pa s' Hok Hva E) as [[-> ->]|(t & [Hl Hp Hsh Hlow Hpos] & -> & Hend)]; [by apply unmapped_refused|]. cbv zeta in *.
  set (i := dir_of wide va) in *. set (j := leaf_of wide va) in *.
  pose proof (cleared_unmapped wide s i j t Hok Hj Hl Hp Hsh Hlow Hpos) as Hun. pose proof (leaf_frame wide s _ _ _ _ Hok (ok_current _ _ Hok) Hj Hl Hp) as Hnz.
  pose proof (cleared_empty wide s i j t Hok Hj Hl Hp Hsh Hlow Hpos Hsafe) as Hempty.
  set (s1 := cleared wide s j t) in *. destruct Hend as [[_ ->]|(Ee & f & k & Hs & Hs')]; [done|].
  pose proof (unmapped_ok _ _ _ _ _ _ Hun) as Hok1. destruct (config_fields wide _ _ (cleared_config wide s j t)) as (EK & EC & EL & _). fold s1 in EK, EC, EL.
  destruct (Hempty (proj1 (table_is_empty_spec wide s1 t) Ee)) as (Hl1 & Hz1 & Hsole & _). rewrite <- EC in Hl1, Hz1.
  destruct (unlink_recede wide s1 i f k t Hok1 Hl1 Hs Hz1) as (Hrec & Hn2 & _ & Hptr).
  { intros r Hr. rewrite EC. apply Hsole. unfold roots in *. by rewrite <- EK, <- EL. }
  cbv zeta in Hs', Hrec, Hn2, Hptr. set (s2 := free_frame t _) in *.
  assert (wide = true -> pdptes (registers s2) = pdptes (registers s1) \/ pdptes (registers s2) = pointers_at s) as Hptr'.
  { intros Hw. destruct (Hptr Hw) as [?|E2]; [by left|right]. rewrite E2. subst wide. apply pointers_eq; [done|]. intros k' Hk'.
    destruct (unmapped_tables _ _ _ _ _ _ Hun Hnz) as (own & Hgr & _). symmetry. apply (grown_root _ _ _ _ _ _ _ _ Hgr eq_refl); [|done].
    pose proof (slot_wide true (words s1) (current_root true s1) i eq_refl) as Hsw. rewrite Hs, EC in Hsw. intros Hnone. by rewrite Hnone in Hsw. }
  pose proof (unmapped_recede wide i j s _ s1 s2 Hok Hnz Hj Hi Hun Hrec Hptr') as Hun2.
  destruct Hs' as [->|(Hw & Hn & Hde & ->)]; [done|]. subst wide. destruct Hrec as [(Hok2 & Hc2 & _) _].
  destruct (config_fields true _ _ Hc2) as (_ & EC2 & _). apply (unmapped_recede true i j s _ s2); [done..| |by left]. rewrite <- EC2.
  apply drop_recede; [done| |done| |exact (proj1 (table_is_empty_spec true s2 f) Hde)].
  - unfold dir_index, directories in Hi. dmlia.
  - rewrite EC2, Hn2; [done|apply Hok1].
Qed.
