(* ===== verification/PagingSpaces.v ===== *)
(** * Address spaces: registration, switching, creation

    [paging_address_space_is_valid], [paging_switch_address_space] and
    [paging_create_address_space] of both table formats. *)

From S2P Require Import Prelude Pmm PmmSpec PagingState PagingPae Paging PagingEntry PagingForest PagingView PagingInv PagingOps PagingMap PagingProtect PagingUnmap.
Local Open Scope c_scope.
Local Open Scope Z_scope.

(** ** The list of spaces *)

(** The search loop finds exactly the registered spaces. *)
Lemma find_space l n d : 0 <= n <= Z.of_nat (length l) ->
  (d ∈ take (Z.to_nat n) l <-> exists index, find_first 0 n (fun index => arr l index =? d) = Some index).
Proof.
  intros Hn. split.
  - intros Hd. destruct (find_first 0 n (fun index => arr l index =? d)) as [index|] eqn:E; [by exists index|].
    exfalso. apply list_elem_of_lookup in Hd as [k Hk]. apply lookup_take_Some in Hk as [Hk Hlt].
    pose proof (proj1 (find_first_None _ _ _) E (Z.of_nat k)) as Hne. cbv beta in Hne.
    rewrite (arr_lookup l (Z.of_nat k) d), Z.eqb_refl in Hne by (by rewrite Nat2Z.id). specialize (Hne ltac:(lia)). done.
  - intros [index E]. apply find_first_Some in E as (Hr & He & _). apply Z.eqb_eq in He.
    apply list_elem_of_lookup. exists (Z.to_nat index). apply lookup_take_Some. split; [|lia].
    rewrite <- He. apply arr_nth_lookup. lia.
Qed.

Lemma registered_spec wide s d : paging_ok wide s ->
  paging_address_space_is_valid s d = true <-> d ∈ roots wide s.
Proof.
  intros Hok. unfold paging_address_space_is_valid, pae_address_space_is_valid. rewrite (proj1 (ok_mode _ _ Hok)).
  assert ((if wide then pae_address_space_is_registered s d else address_space_is_registered s d) = true <-> d ∈ roots wide s) as Hreg.
  { pose proof (ok_counts _ _ Hok) as Hc. unfold counts_ok in Hc. unfold roots. rewrite elem_of_cons.
    destruct wide; destruct Hc as [Hc Hlen]; unfold pae_address_space_is_registered, address_space_is_registered,
      kernel_root, space_list; rewrite orb_true_iff, Z.eqb_eq, find_space by lia;
      (destruct (find_first 0 _ _) as [x|]; [naive_solver|]); split; intros [?|H]; try naive_solver. }
  assert (d ∈ roots wide s -> (d =? 0) = false /\ flag d (PAGE_SIZE - 1) = false) as Hpage.
  { intros Hd. split; [by apply (root_nonzero wide s Hok)|]. pose proof (root_page wide s Hok d Hd) as Hlow.
    apply low_page_u32 in Hlow as (_ & Hal & _). change (PAGE_SIZE - 1) with (PMM_BLOCK_SIZE - 1).
    rewrite flag_aligned, Hal. done. }
  destruct wide; rewrite !andb_true_iff, !negb_true_iff, Hreg; naive_solver.
Qed.

(** ** Switching *)

(** A state in which only the current space and the processor's registers differ. *)
Definition switched (wide : bool) (d : Z) (s s' : paging) : Prop :=
  paging_ok wide s' /\ current_root wide s' = d /\ roots wide s' = roots wide s /\
  kernel_root wide s' = kernel_root wide s /\ space_list wide s' = space_list wide s /\
  words s' = words s /\ data s' = data s /\ page_frames s' = page_frames s /\
  paging_pae_nx_enabled s' = paging_pae_nx_enabled s /\ paging_enabled s' = paging_enabled s.

Lemma switch_guard d b : (d =? 0) || flag d (PAGE_SIZE - 1) || negb b =
  negb (negb (d =? 0) && negb (flag d (PAGE_SIZE - 1)) && b).
Proof. by destruct (d =? 0), (flag d (PAGE_SIZE - 1)), b. Qed.

Lemma switch_ok wide s d ok s' : paging_ok wide s -> paging_switch_address_space d s = (ok, s') ->
  (ok = true <-> d ∈ roots wide s) /\ (ok = false -> s' = s) /\ (ok = true -> switched wide d s s').
Proof.
  intros Hok. pose proof (registered_spec wide s d Hok) as Hreg.
  unfold paging_address_space_is_valid, pae_address_space_is_valid in Hreg.
  unfold paging_switch_address_space, pae_switch_address_space, legacy_switch_address_space.
  rewrite (proj1 (ok_mode _ _ Hok)) in *.
  assert (d = current_root wide s -> switched wide d s s) as Hsame by (intros ->; by split_and!).
  destruct wide; rewrite switch_guard; (destruct (negb (d =? 0) && _ && _) eqn:E; cbn [negb];
    [|intros [= <- <-]; split; [|done]; rewrite <- Hreg; done]).
  - destruct (Z.eqb_spec d (pae_pdpt_physical s)) as [->|Hne]; intros [= <- <-];
      (split; [by rewrite <- Hreg|]; split; [done|]); intros _; [by apply Hsame|].
    unfold flush_tlb. cbn. destruct Hok as [H1 H2 H3 H4 H5 H6 H7].
    destruct (paging_enabled s) eqn:Een; (split; [|done]); split; try done; try (by apply Hreg);
      try (by destruct H4 as (_ & ? & _ & ?)); unfold hardware_ok; cbn; rewrite ?Een; try done.
    intros _. destruct (H6 Een) as (_ & ? & ? & ? & ?). done.
  - destruct (Z.eqb_spec d (page_directory_physical s)) as [->|Hne]; intros [= <- <-];
      (split; [by rewrite <- Hreg|]; split; [done|]); intros _; [by apply Hsame|].
    unfold flush_tlb. cbn. destruct Hok as [H1 H2 H3 H4 H5 H6 H7].
    destruct (paging_enabled s) eqn:Een; (split; [|done]); split; try done; try (by apply Hreg);
      try (by destruct H4 as [_ ?]); unfold hardware_ok; cbn; rewrite ?Een; try done.
    intros _. destruct (H6 Een) as (_ & ? & ? & ? & ?). done.
Qed.

(** ** Creating a space *)

(** Writes to frames that were free are not seen by the spaces. *)
Lemma free_view wide s m' : paging_ok wide s ->
  (forall f k, owner_at s f <> Free -> 0 <= k < entries wide -> get wide m' f k = get wide (words s) f k) ->
  view_on wide (roots wide s) (view_of wide (words s)) (view_of wide m').
Proof.
  intros Hok Hsame. apply (view_unchanged wide _ _ _ _ _ (ok_forest wide s Hok)). intros f k Hf Hk.
  apply Hsame; [|done]. intros Ho. apply Hf. eapply not_kernel_unused; [apply (ok_forest wide s Hok)|]. by rewrite Ho.
Qed.

(** What [paging_create_address_space] does: 0 and nothing has changed, or a new space that shows
    exactly the pages of the kernel. *)
Record created (wide : bool) (s : paging) (d : Z) (s' : paging) : Prop := {
  created_ok : paging_ok wide s';
  created_kernel : kernel_root wide s' = kernel_root wide s /\ current_root wide s' = current_root wide s /\
    data s' = data s /\ registers s' = registers s;
  created_modes : paging_enabled s' = paging_enabled s /\ paging_pae_nx_enabled s' = paging_pae_nx_enabled s;
  created_none : d = 0 -> config s' = config s /\ own_eq (owner_at s) (owner_at s');
  created_new : d <> 0 -> d ∉ roots wide s /\ space_list wide s' = space_list wide s ++ [d] /\
    grows (owner_at s) (owner_at s') /\
    forall x, is_u32 x -> x mod 4096 = 0 -> owner_at s' x <> owner_at s x <-> exists q, node_of wide (words s') d q = Some x;
  created_pages : same_pages wide (kernel_root wide s) (space_list wide s) (words s) (words s');
  created_tables : d <> 0 -> forall i, dir_index wide i -> pde_of wide (words s') d i = pde_of wide (words s') (kernel_root wide s) i;
  created_copy : d <> 0 -> forall i j, dir_index wide i -> table_index wide j ->
    pte_of wide (words s') d i j = pte_of wide (words s') (kernel_root wide s) i j;
  created_words : forall f k, owner_at s f <> Free -> 0 <= k < entries wide -> get wide (words s') f k = get wide (words s) f k
}.

Lemma take_insert_last {A} (l : list A) n x : (n < length l)%nat -> take (S n) (<[n := x]> l) = take n l ++ [x].
Proof.
  intros Hn. rewrite (take_S_r _ _ x) by (by apply list_lookup_insert_eq). by rewrite take_insert_ge.
Qed.

(** Registering a space. *)
Definition register (wide : bool) (d : Z) (s : paging) : paging :=
  if wide then set_pae_spaces s (arr_set (pae_address_spaces s) (pae_address_space_count s) d) (pae_address_space_count s +32 1)
  else set_spaces s (arr_set (address_spaces s) (address_space_count s) d) (address_space_count s +32 1).

Definition space_count (wide : bool) (s : paging) : Z :=
  if wide then pae_address_space_count s else address_space_count s.

Lemma register_list wide d s : counts_ok wide s -> space_count wide s <> 16 ->
  space_list wide (register wide d s) = space_list wide s ++ [d] /\ counts_ok wide (register wide d s).
Proof.
  unfold counts_ok, space_count, space_list, register, arr_set. destruct wide; intros [Hc Hl] Hn; cbn;
    rewrite u32_id by (unfold is_u32; lia); rewrite length_insert; (split; [|lia]);
    rewrite Z2Nat.inj_add by lia; change (Z.to_nat 1) with 1%nat; rewrite Nat.add_1_r; apply take_insert_last; lia.
Qed.

(** The new root [d] has frames of its own and the kernel's directory entries. *)
Lemma register_ok wide s s2 d : advance wide d 0 s s2 -> paging_ok wide s -> space_count wide s <> 16 ->
  view_on wide (roots wide s) (view_of wide (words s)) (view_of wide (words s2)) ->
  (forall q x, node_of wide (words s2) d q = Some x ->
     low_page x /\ owner_at s2 x = Kernel /\ unused wide (kernel_root wide s) (space_list wide s) (view_of wide (words s2)) x) ->
  (forall q q' x, node_of wide (words s2) d q = Some x -> node_of wide (words s2) d q' = Some x -> q = q') ->
  (forall i, dir_index wide i -> pde_of wide (words s2) d i = pde_of wide (words s2) (kernel_root wide s) i) ->
  (forall x, is_u32 x -> x mod 4096 = 0 -> owner_at s2 x <> owner_at s x <-> exists q, node_of wide (words s2) d q = Some x) ->
  (forall f k, owner_at s f <> Free -> 0 <= k < entries wide -> get wide (words s2) f k = get wide (words s) f k) ->
  created wide s d (register wide d s2).
Proof.
  intros (Hok2 & Hk & Hpg & Hgr & _) Hok Hcnt HV Hnode Hinj Hpde Hfrm Hold.
  destruct (keeps_roots wide s s2 Hk) as (EK & EL & EC & ER & EN).
  assert (space_count wide s2 = space_count wide s) as Hcnt2.
  { destruct Hk as (Hk & _). unfold config in Hk. injection Hk as. unfold space_count. by destruct wide. }
  destruct (register_list wide d s2 (ok_counts _ _ Hok2)) as [Hlist Hcounts]; [by rewrite Hcnt2|].
  assert (node_of wide (words s2) d (-1) = Some d) as Hroot by done.
  destruct (Hnode (-1) d Hroot) as (Hlow & Hown & Hun).
  assert (d ∉ roots wide s) as Hfresh.
  { intros Hd. apply (proj1 Hun d (-1) Hd). by rewrite <- Hroot. }
  assert (forall i j, pte_of wide (words s2) d i j = pte_of wide (words s2) (kernel_root wide s) i j \/ ~ dir_index wide i) as Hpte.
  { intros i j. destruct (decide (dir_index wide i)) as [Hi|]; [left|by right]. unfold pte_of. by rewrite Hpde. }
  assert (words (register wide d s2) = words s2 /\ owner_at (register wide d s2) = owner_at s2 /\
    kernel_root wide (register wide d s2) = kernel_root wide s2 /\ current_root wide (register wide d s2) = current_root wide s2 /\
    paging_pae_nx_enabled (register wide d s2) = paging_pae_nx_enabled s2 /\ data (register wide d s2) = data s2 /\
    registers (register wide d s2) = registers s2 /\ page_frames (register wide d s2) = page_frames s2)
    as (Hw & Ho & HK & HC & HN & HD & HR & HP) by (unfold register; by destruct wide).
  assert (paging_ok wide (register wide d s2)) as Hok3.
  { destruct Hok2 as [H1 H2 H3 H4 H5 H6 H7]. split.
    - unfold register. by destruct wide.
    - by rewrite HP.
    - unfold roots. rewrite HC, HK, Hlist. unfold roots in H3. apply elem_of_cons in H3 as [H3|H3]; [by rewrite H3; constructor|].
      right. apply elem_of_app. by left.
    - unfold pointers_ok, register in *. by destruct wide.
    - done.
    - unfold hardware_ok, register in *. by destruct wide.
    - unfold state_ok. rewrite Hw, Ho, HK, HN, Hlist, EK, EL, EN. split; [apply (ok_tables wide s2); by split|].
      eapply (forest_new_space wide _ (kernel_root wide s) (space_list wide s) _ (view_of wide (words s2))).
      + unfold state_ok in H7. rewrite EK, EL, EN in H7. apply H7.
      + done.
      + pose proof (forest_roots _ _ _ _ _ _ (ok_forest wide s Hok)) as Hnd. rewrite app_comm_cons.
        apply list.NoDup_app. split; [done|]. split; [|apply NoDup_singleton].
        intros x Hx Hxd. apply list_elem_of_singleton in Hxd as ->. done.
      + intros r. rewrite !elem_of_cons, elem_of_app, list_elem_of_singleton. naive_solver.
      + done.
      + intros q x Hq. by apply Hnode in Hq.
      + done.
      + done.
      + intros i j Hi Hj. by destruct (Hpte i j). }
  split; try done.
  - by rewrite HK, HC, HD, HR, EK, EC, (proj1 (proj2 Hk)), (proj2 (proj2 Hk)).
  - destruct (config_fields wide s s2 (proj1 Hk)) as (_ & _ & _ & _ & _ & _ & _ & <-). rewrite HN, EN. unfold register. by destruct wide.
  - intros ->. unfold low_page in Hlow. lia.
  - intros _. rewrite Hlist, EL, Ho, Hw. done.
  - by rewrite Hw.
  - intros _ i Hi. rewrite Hw. by apply Hpde.
  - intros _ i j Hi Hj. rewrite Hw. by destruct (Hpte i j).
  - by rewrite Hw.
Qed.

Lemma created_failed wide s s1 : paging_ok wide s -> alloc_low s = (0, s1) -> created wide s 0 s1.
Proof.
  intros Hok E. destruct (alloc_failed wide 0 0 s s1 Hok E) as (Hok1 & Hk & Hpg & _ & _).
  destruct (alloc_low_spec s 0 s1 (ok_pmm _ _ Hok) E) as (Hs1 & _ & [[_ Hown]|[Hlow _]]); [|unfold low_page in Hlow; lia].
  destruct (keeps_roots wide s s1 Hk) as (EK & _ & EC & _ & EN).
  destruct (config_fields wide s s1 (proj1 Hk)) as (_ & _ & _ & _ & _ & _ & _ & EE). destruct Hk as (? & ? & ?).
  split; try done. by rewrite Hs1.
Qed.

Lemma created_refused wide s : paging_ok wide s -> created wide s 0 s.
Proof. intros Hok. by split. Qed.

Lemma legacy_create_ok s d s' : paging_ok false s -> legacy_create_address_space s = (d, s') -> created false s d s'.
Proof.
  intros Hok. destruct (legacy_pointers s Hok) as [_ Hk]. unfold legacy_create_address_space.
  rewrite Hk, (root_nonzero false s Hok _ (kernel_in false s)). cbn [orb]. unfold PAGING_MAX_ADDRESS_SPACES.
  destruct (Z.eqb_spec (address_space_count s) 16) as [_|Hcnt]; [intros [= <- <-]; by apply created_refused|].
  destruct (alloc_low s) as [a s1] eqn:E. destruct (Z.eqb_spec a 0) as [->|Hnz]; [intros [= <- <-]; by apply created_failed|].
  destruct (alloc_low_spec s a s1 (ok_pmm _ _ Hok) E) as (Hs1 & Hwf & [[? _]|(Hlow & Hfree & Hown)]); [done|].
  assert (words s1 = words s /\ kernel_page_directory s1 = kernel_root false s) as [Hw1 Hk1] by (rewrite Hs1; done).
  pose proof (ok_tables false s Hok) as Hm.
  assert (kernel_root false s <> a) as HKa.
  { intros HK. pose proof (forest_node _ _ _ _ _ _ (ok_forest false s Hok) _ _ _ (kernel_in false s)
      (forest_root _ _ _ _ _ _ (ok_forest false s Hok) _ (kernel_in false s))) as [_ Ho]. rewrite HK, Hfree in Ho. done. }
  pose proof (fill_page_spec false a 0 PAGE_TABLE_ENTRIES (fun index s => set_entry a index (entry_at s (kernel_page_directory s) index) s)
    (fun k => get false (words s) (kernel_root false s) k) s1) as Hfill. cbv zeta in Hfill. revert Hfill.
  generalize (for_loop 0 PAGE_TABLE_ENTRIES (fun index s => set_entry a index (entry_at s (kernel_page_directory s) index) s) s1) as s2.
  intros s2 Hfill [<- <-]%pair_equal_spec. unfold PAGE_TABLE_ENTRIES in Hfill.
  destruct Hfill as (Hs2 & Hm2 & Hg2); [lia|cbn; lia|by rewrite Hw1|intros k _; by apply (get_ok false)|..].
  { intros k x Hkr Hx Hmx Hother. assert (kernel_page_directory x = kernel_root false s) as -> by (rewrite Hx; exact Hk1).
    rewrite set_entry_write. f_equal. etransitivity; [apply (Hother (kernel_root false s) k); [done|cbn; lia]|]. by rewrite Hw1. }
  rewrite Hw1 in Hg2. cbn [entries] in Hg2.
  assert (forall g k, 0 <= k < 1024 -> get false (words s2) g k = if decide (g = a) then get false (words s) (kernel_root false s) k else get false (words s) g k) as Hget.
  { intros g k Hkr. rewrite Hg2 by done. destruct (decide (g = a)); [by rewrite decide_True|by rewrite decide_False by naive_solver]. }
  assert (keeps s s2 /\ page_frames s2 = page_frames s1) as [Hkeep Hfr] by (rewrite Hs2, Hs1; done).
  assert (owner_at s2 = owner_at s1) as Ho2 by (unfold owner_at; by rewrite Hfr).
  destruct (spaces_ok_alloc false _ _ _ _ _ _ _ (ok_spaces _ _ Hok) Hfree Hlow Hown) as (Hsp1 & Hun & Hka).
  destruct (spaces_ok_fresh false (paging_pae_nx_enabled s) (kernel_root false s) (space_list false s)
    (words s) (owner_at s1) (words s2) a Hsp1 Hun Hm2) as (Hsp2 & Hpg & Hun2 & _ & Hpd).
  { intros f k Hf Hkr. rewrite Hget by done. by rewrite decide_False. }
  assert (paging_ok false s2) as Hok2.
  { eapply (paging_ok_keeps false s); [done|done|by rewrite Hfr|by rewrite Ho2]. }
  apply (register_ok false s s2 a); try done.
  - split; [done|]. split; [done|]. split; [done|]. split; [rewrite Ho2; by eapply grows_alloc|].
    intros r i Hr Hi _. by apply Hpd.
  - unfold node_of. cbn [andb]. intros q x. destruct (Z.eqb_spec q (-1)); [|done]. intros [= <-]. by rewrite Ho2.
  - unfold node_of. cbn [andb]. intros q q' x. destruct (Z.eqb_spec q (-1)), (Z.eqb_spec q' (-1)); try done. congruence.
  - intros i Hi. unfold pde_of. cbn [slot]. rewrite !Hget by exact Hi. rewrite decide_True by done. by rewrite decide_False.
  - intros x Hx Hxa. rewrite Ho2, Hown by done. unfold own_set. case_decide as Hd; [subst; rewrite Hfree; split; [by exists (-1)|done]|].
    split; [done|]. unfold node_of. cbn [andb]. intros [q Hq]. destruct (q =? -1); congruence.
  - intros f k Hf Hkr. rewrite Hget by done. rewrite decide_False; [done|]. by intros ->.
Qed.
