(* ===== verification/PagingCreate.v ===== *)
(** * Creating a space with pointer tables

    The loop of [paging_create_address_space] that gives a new space its own copy of each page
    directory of the kernel, and its rollback when memory runs out. *)

From S2P Require Import Prelude Pmm PmmSpec PagingState PagingPae Paging PagingEntry PagingForest PagingView PagingInv PagingOps PagingMap PagingProtect PagingUnmap PagingSpaces.
Local Open Scope c_scope.
Local Open Scope Z_scope.

(** Frames taken by the loop. *)
Definition own_taken (own : Z -> owner) (fs : list Z) (x : Z) : owner := if decide (x ∈ fs) then Kernel else own x.

(** [D q] is the private copy of the kernel's page directory [q], for [q] below [p]; [fs] are the
    frames taken so far, the root [r1] first. *)
Record building (s : paging) (r1 p : Z) (D : Z -> option Z) (fs : list Z) (s' : paging) : Prop := {
  bd_pmm : pmm_wf (page_frames s');
  bd_tables : tables_ok (words s');
  bd_keeps : keeps s s';
  bd_same : forall f k, owner_at s f <> Free -> 0 <= k < 512 -> get true (words s') f k = get true (words s) f k;
  bd_frames : NoDup fs /\ (forall x, x ∈ fs -> low_page x /\ owner_at s x = Free) /\ r1 ∈ fs;
  bd_own : own_eq (own_taken (owner_at s) fs) (owner_at s');
  bd_root : forall q, 0 <= q < 4 -> get true (words s') r1 q =
    if q <? p then match D q with Some d => Z.lor d 1 | None => 0 end else 0;
  bd_copies : forall q, 0 <= q < p ->
    match D q with
    | Some d => d ∈ fs /\ d <> r1 /\ exists kd, node_of true (words s) (kernel_root true s) q = Some kd /\
        forall k, 0 <= k < 512 -> get true (words s') d k = get true (words s) kd k
    | None => node_of true (words s) (kernel_root true s) q = None
    end;
  bd_all : forall x, x ∈ fs -> x = r1 \/ exists q, 0 <= q < p /\ D q = Some x;
  bd_inj : forall q q' d, 0 <= q < p -> 0 <= q' < p -> D q = Some d -> D q' = Some d -> q = q'
}.

Lemma halves lo hi : is_u32 lo -> is_u32 hi ->
  u32 (hi * 4294967296 + lo) = lo /\ u32 (Z.shiftr (hi * 4294967296 + lo) 32) = hi.
Proof.
  unfold is_u32, u32. intros Hlo Hhi. rewrite Z.shiftr_div_pow2 by lia. change (2 ^ 32) with 4294967296.
  rewrite Z.div_add_l, (Z.div_small lo), Z.add_0_r by lia. split; [|by apply Z.mod_small].
  by rewrite Z.add_comm, Z_mod_plus_full, Z.mod_small.
Qed.

(** Copying one page directory. *)
Lemma pae_copy_spec from to s : tables_ok (words s) -> from <> to ->
  let s' := pae_copy_page from to s in
  s' = set_words s (words s') /\ tables_ok (words s') /\
  forall g k, 0 <= k < entries true ->
    get true (words s') g k = if decide (g = to) then get true (words s) from k else get true (words s) g k.
Proof.
  intros Hm Hne.
  destruct (fill_page_spec true to 0 512 (fun index s =>
    let s := set_entry to (2 * index) (entry_at s from (2 * index)) s in
    set_entry to (2 * index + 1) (entry_at s from (2 * index + 1)) s) (fun k => get true (words s) from k) s) as (H1 & H2 & H3);
    [lia|cbn; lia|exact Hm|intros k _; by apply (get_ok true)|..].
  { intros k x Hk Hx Hmx Hother. pose proof (Hother from k Hne Hk) as Hv. cbv beta. rewrite <- Hv.
    pose proof (peek_u32 (words x) from (2 * k) Hmx) as Hlo. pose proof (peek_u32 (words x) from (2 * k + 1) Hmx) as Hhi.
    assert (u32 (entry64 (words x) from k) = peek (words x) from (2 * k) /\
      u32 (Z.shiftr (entry64 (words x) from k) 32) = peek (words x) from (2 * k + 1)) as [E1 E2].
    { rewrite entry64_eq by done. by apply halves. }
    cbn [get]. unfold write_entry, put, poke64. rewrite E1, E2. unfold set_entry, entry_at. cbn [words set_words].
    rewrite (peek_poke _ _ _ _ from) by (done || lia). by rewrite decide_False by naive_solver. }
  split; [exact H1|]. split; [exact H2|]. intros g k Hk. cbn [entries] in Hk. etransitivity; [apply H3; cbn; lia|].
  clear -Hk. repeat case_decide; done || lia.
Qed.

(** ** The state while the loop runs *)

Lemma building_ok s r1 p D fs s' : paging_ok true s -> building s r1 p D fs s' ->
  paging_ok true s' /\ view_on true (roots true s) (view_of true (words s)) (view_of true (words s')) /\
  (forall x, x ∈ fs -> low_page x /\ owner_at s' x = Kernel /\
     unused true (kernel_root true s) (space_list true s) (view_of true (words s')) x).
Proof.
  intros Hok [Hwf Hm Hk Hsame (Hnd & Hfs & Hr1) Hown _ _ _ _]. pose proof (free_view true s _ Hok Hsame) as HV.
  pose proof (ok_forest true s Hok) as HF.
  assert (forall x, x ∈ fs -> unused true (kernel_root true s) (space_list true s) (view_of true (words s)) x) as Hun.
  { intros x Hx. eapply not_kernel_unused; [done|]. by rewrite (proj2 (Hfs x Hx)). }
  split; [|split; [done|]].
  - eapply (paging_ok_keeps true s); [done..|]. split; [done|]. eapply forest_own; [by eapply forest_view| |].
    + intros x Hx _ Ho. apply low_page_u32 in Hx as (? & ? & _). rewrite Hown by done. unfold own_taken. by case_decide.
    + intros x Hx Ha. rewrite Hown by done. unfold own_taken. case_decide as Hin; [|done].
      by rewrite (proj2 (Hfs x Hin)).
  - intros x Hx. destruct (Hfs x Hx) as [Hlow _]. pose proof (low_page_u32 x Hlow) as (? & ? & _). split; [done|].
    split; [rewrite Hown by done; unfold own_taken; by rewrite decide_True|]. split; intros r z Hr.
    + rewrite (proj1 HV) by done. by apply Hun.
    + rewrite (view_on_linked true _ _ _ r z x HV Hr). by apply Hun.
Qed.

(** The new root, cleared. *)
Lemma build_start s a s1 s2 : paging_ok true s -> alloc_low s = (a, s1) -> a <> 0 ->
  s2 = set_words s1 (words s2) -> tables_ok (words s2) ->
  (forall g k, 0 <= k < entries true -> get true (words s2) g k = if decide (g = a) then 0 else get true (words s1) g k) ->
  building s a 0 (fun _ => None) [a] s2.
Proof.
  intros Hok E Hnz Hs2 Hm2 Hclear.
  destruct (alloc_low_spec s a s1 (ok_pmm _ _ Hok) E) as (Hs1 & Hwf & [[? _]|(Hlow & Hfree & Hown)]); [done|].
  assert (words s1 = words s /\ page_frames s2 = page_frames s1 /\ keeps s s2) as (Hw & Hp & Hk) by (rewrite Hs2, Hs1; done).
  rewrite Hw in Hclear. split; try done; try lia.
  - by rewrite Hp.
  - intros f k Hf Hk'. rewrite Hclear by done. rewrite decide_False; [done|]. by intros ->.
  - split; [apply NoDup_singleton|]. split; [by intros x ->%list_elem_of_singleton|by apply list_elem_of_singleton].
  - intros x Hx Ha. unfold owner_at at 1. rewrite Hp. fold (owner_at s1 x). rewrite Hown by done. unfold own_set, own_taken.
    destruct (decide (x = a)) as [->|]; [by rewrite decide_True by (by apply list_elem_of_singleton)|].
    rewrite decide_False; [done|]. by rewrite list_elem_of_singleton.
  - intros q Hq. rewrite Hclear by (cbn; lia). rewrite decide_True by done. by destruct (q <? 0).
  - intros x ->%list_elem_of_singleton. by left.
Qed.

(** The kernel's entry [p], as the loop tests it. *)
Lemma build_kernel_node s r1 p D fs s' : paging_ok true s -> building s r1 p D fs s' -> 0 <= p < 4 ->
  pae_kernel_pdpt s' = kernel_root true s /\
  match node_of true (words s) (kernel_root true s) p with
  | Some kd => pae_entry_present s' (kernel_root true s) p = true /\ pae_entry_physical s' (kernel_root true s) p = kd /\
      low_page kd /\ owner_at s kd = Kernel
  | None => pae_entry_present s' (kernel_root true s) p = false
  end.
Proof.
  intros Hok Hb Hp. destruct (building_ok _ _ _ _ _ _ Hok Hb) as (Hok' & HV & _).
  destruct (keeps_roots true s s' (bd_keeps _ _ _ _ _ _ Hb)) as (EK & EL & _).
  destruct (pae_pointers s' Hok') as (_ & -> & _). split; [done|].
  assert (kernel_root true s ∈ roots true s') as HK' by (rewrite <- EK; apply kernel_in).
  pose proof (pae_directory s' Hok' _ p HK' Hp) as Hdir.
  pose proof (proj1 HV (kernel_root true s) p (kernel_in true s)) as Hnode. cbn [node view_of] in Hnode. rewrite <- Hnode.
  unfold pae_page_directory_for in Hdir. rewrite (root_nonzero true s' Hok' _ HK') in Hdir.
  unfold PAE_PDP_ENTRIES in Hdir. replace (4 <=? p) with false in Hdir by lia. cbn [orb] in Hdir.
  destruct (node_of true (words s') (kernel_root true s) p) as [kd|] eqn:En.
  - destruct (forest_node _ _ _ _ _ _ (ok_forest true s Hok) (kernel_root true s) p kd (kernel_in true s)) as [Hlow Ho];
      [exact (eq_sym Hnode)|].
    destruct (pae_entry_present s' (kernel_root true s) p); cbn [negb] in Hdir; [done|].
    unfold low_page in Hlow. lia.
  - destruct (pae_entry_present s' (kernel_root true s) p) eqn:Ep; [|done]. exfalso. clear Hdir.
    unfold node_of in En. replace (p =? -1) with false in En by lia.
    replace (true && (0 <=? p) && (p <? 4)) with true in En by lia. cbn [andb] in En.
    unfold pae_entry_present, PAE_PRESENT in Ep. rewrite pae_entry_value_get in Ep. by rewrite Ep in En.
Qed.

Lemma build_skip s r1 p D fs s' : 0 <= p < 4 -> building s r1 p D fs s' ->
  node_of true (words s) (kernel_root true s) p = None ->
  building s r1 (p + 1) (fun q => if decide (q = p) then None else D q) fs s'.
Proof.
  intros Hp [? ? ? ? ? ? Hroot Hcop Hall Hinj] Hnone. split; try done.
  - intros q Hq. rewrite Hroot by done. destruct (decide (q = p)) as [->|].
    + replace (p <? p) with false by lia. by destruct (p <? p + 1).
    + by replace (q <? p + 1) with (q <? p) by lia.
  - intros q Hq. destruct (decide (q = p)) as [->|]; [done|]. apply Hcop. lia.
  - intros x Hx. destruct (Hall x Hx) as [->|(q & Hq & Hd)]; [by left|right]. exists q. split; [lia|]. by rewrite decide_False by lia.
  - intros q q' d Hq Hq'. destruct (decide (q = p)), (decide (q' = p)); try done. apply Hinj; lia.
Qed.

Lemma build_copy s r1 p D fs s' kd a s1 s2 : paging_ok true s -> 0 <= p < 4 -> building s r1 p D fs s' ->
  node_of true (words s) (kernel_root true s) p = Some kd -> owner_at s kd = Kernel ->
  alloc_low s' = (a, s1) -> a <> 0 -> s2 = set_words s1 (words s2) -> tables_ok (words s2) ->
  (forall g k, 0 <= k < entries true -> get true (words s2) g k = if decide (g = a) then get true (words s1) kd k else get true (words s1) g k) ->
  building s r1 (p + 1) (fun q => if decide (q = p) then Some a else D q) (a :: fs) (write_entry true r1 p (Z.lor a 1) s2).
Proof.
  intros Hok Hp Hb Hkd Hko E Hnz Hs2 Hm2 Hcopy. pose proof Hb as [Hwf Hm Hk Hsame (Hnd & Hfs & Hr1) Hown Hroot Hcop Hall Hinj].
  destruct (alloc_low_spec s' a s1 Hwf E) as (Hs1 & Hwf1 & [[? _]|(Hlow & Hfree & Hown1)]); [done|].
  pose proof (low_page_u32 a Hlow) as (Hau & Hal & _).
  assert (a ∉ fs /\ owner_at s a = Free) as [Hafs Hafree].
  { rewrite Hown in Hfree by done. unfold own_taken in Hfree. by case_decide. }
  assert (a <> r1) as Har by (by intros ->).
  assert (words s1 = words s' /\ page_frames s2 = page_frames s1 /\ keeps s' s2) as (Hw & Hpf & Hk2) by (rewrite Hs2, Hs1; done).
  rewrite Hw in Hcopy. destruct (pdpt_entry a Hlow) as (He & _ & _).
  assert (owner_at s kd <> Free) as Hkdn by (by rewrite Hko).
  assert (kd <> a /\ kd <> r1) as [Hkda Hkdr].
  { split; intros ->; [by rewrite Hko in Hafree|]. destruct (Hfs _ Hr1) as [_ Hf]. by rewrite Hko in Hf. }
  assert (forall f k, 0 <= k < 512 -> get true (put true (words s2) r1 p (Z.lor a 1)) f k =
    if decide (f = r1 /\ k = p) then Z.lor a 1 else if decide (f = a) then get true (words s) kd k else get true (words s') f k) as Hget.
  { intros f k Hk'. rewrite get_put by (done || cbn; lia). case_decide; [done|]. rewrite Hcopy by done.
    case_decide; [by apply Hsame|done]. }
  split; cbn [words page_frames write_entry set_words].
  - by rewrite Hpf.
  - by apply (put_tables_ok true).
  - eapply keeps_trans; [exact Hk|]. exact Hk2.
  - intros f k Hf Hk'. rewrite Hget by done. rewrite !decide_False; [by apply Hsame| |].
    + by intros ->.
    + intros [-> _]. apply Hf. by apply Hfs.
  - split; [by constructor|]. split; [|by right]. intros x [->|Hx]%elem_of_cons; [done|by apply Hfs].
  - intros x Hx Ha. change (owner_at _ x) with (frame_owner (page_frames s2) (x / 4096)) at 1. rewrite Hpf.
    fold (owner_at s1 x). rewrite Hown1 by done. unfold own_set, own_taken. destruct (decide (x = a)) as [->|Hxa];
      [by rewrite decide_True by constructor|]. rewrite Hown by done. unfold own_taken.
    destruct (decide (x ∈ fs)); [by rewrite decide_True by (by right)|].
    rewrite decide_False; [done|]. by intros [?|?]%elem_of_cons.
  - intros q Hq. rewrite Hget by lia. destruct (decide (q = p)) as [->|Hqp].
    + rewrite decide_True by done. by replace (p <? p + 1) with true by lia.
    + rewrite decide_False by naive_solver. rewrite decide_False by done. rewrite Hroot by done.
      by replace (q <? p + 1) with (q <? p) by lia.
  - intros q Hq. destruct (decide (q = p)) as [->|Hqp].
    + split; [constructor|]. split; [done|]. exists kd. split; [done|]. intros k Hk'. rewrite Hget by done.
      rewrite decide_False by naive_solver. by rewrite decide_True.
    + specialize (Hcop q ltac:(lia)). destruct (D q) as [d|]; [|done]. destruct Hcop as (Hd & Hdr & kq & Hkq & Hcp).
      split; [by right|]. split; [done|]. exists kq. split; [done|]. intros k Hk'. rewrite Hget by done.
      rewrite decide_False by naive_solver. rewrite decide_False by (by intros ->). by apply Hcp.
  - intros x [->|Hx]%elem_of_cons; [right; exists p; split; [lia|by rewrite decide_True]|].
    destruct (Hall x Hx) as [->|(q & Hq & Hd)]; [by left|right]. exists q. split; [lia|]. by rewrite decide_False by lia.
  - intros q q' d Hq Hq'. destruct (decide (q = p)) as [->|], (decide (q' = p)) as [->|]; try done.
    + intros [= <-] Hd. specialize (Hcop q' ltac:(lia)). rewrite Hd in Hcop. by destruct Hcop.
    + intros Hd [= <-]. specialize (Hcop q ltac:(lia)). rewrite Hd in Hcop. by destruct Hcop.
    + apply Hinj; lia.
Qed.

(** ** Rollback *)

Lemma build_entry s r1 p D fs s' q : building s r1 p D fs s' -> 0 <= q < p -> p <= 4 ->
  match D q with
  | Some d => pae_entry_present s' r1 q = true /\ pae_entry_physical s' r1 q = d
  | None => pae_entry_present s' r1 q = false
  end.
Proof.
  intros Hb Hq Hp. pose proof (bd_root _ _ _ _ _ _ Hb q ltac:(lia)) as He. replace (q <? p) with true in He by lia.
  pose proof (bd_copies _ _ _ _ _ _ Hb q Hq) as Hc. unfold pae_entry_present, PAE_PRESENT.
  rewrite pae_entry_value_get, pae_physical, He. destruct (D q) as [d|]; [|done].
  destruct (proj1 (proj2 (bd_frames _ _ _ _ _ _ Hb)) d (proj1 Hc)) as [Hlow _].
  apply low_page_u32 in Hlow as (Hu & Hal & _). rewrite flag_lor, orb_true_r. split; [done|].
  by apply frame_of_lor.
Qed.

Lemma rollback_loop s r1 p D fs s1 : 0 <= p <= 4 -> building s r1 p D fs s1 ->
  let s2 := for_loop 0 p (fun index s =>
    if pae_entry_present s r1 index then free_frame (pae_entry_physical s r1 index) s else s) s1 in
  keeps s1 s2 /\ words s2 = words s1 /\ pmm_wf (page_frames s2) /\
  (forall q d, 0 <= q < p -> D q = Some d -> owner_at s2 d = Free) /\
  (forall x, is_u32 x -> x mod 4096 = 0 -> (forall q, 0 <= q < p -> D q <> Some x) -> owner_at s2 x = owner_at s1 x).
Proof.
  intros Hp Hb s2.
  set (I := fun (n : Z) (x : paging) => keeps s1 x /\ words x = words s1 /\ pmm_wf (page_frames x) /\
    (forall q d, 0 <= q < n -> D q = Some d -> owner_at x d = Free) /\
    (forall y, is_u32 y -> y mod 4096 = 0 -> (forall q, 0 <= q < n -> D q <> Some y) -> owner_at x y = owner_at s1 y)).
  change (I p s2). apply for_loop_inv; unfold I; [lia| |].
  { split_and!; try done; [apply Hb|lia]. }
  intros n x Hn (Hk & Hw & Hwf & Hdone & Hrest).
  pose proof (build_entry _ _ _ _ _ _ n Hb ltac:(lia) ltac:(lia)) as He.
  assert (forall q, pae_entry_present x r1 q = pae_entry_present s1 r1 q /\ pae_entry_physical x r1 q = pae_entry_physical s1 r1 q) as Hsame
    by (intros q; unfold pae_entry_present; by rewrite !pae_entry_value_get, !pae_physical, Hw).
  destruct (Hsame n) as [-> ->]. destruct (D n) as [d|] eqn:Ed.
  2: { rewrite He. split_and!; try done.
       - intros q d' Hq Hd. destruct (decide (q = n)) as [->|]; [congruence|]. apply (Hdone q); [lia|done].
       - intros y Hy Ha Hnot. apply Hrest; [done..|]. intros q Hq. apply Hnot. lia. }
  destruct He as [-> ->]. pose proof (bd_copies _ _ _ _ _ _ Hb n ltac:(lia)) as Hc. rewrite Ed in Hc. destruct Hc as (Hd & _).
  destruct (proj1 (proj2 (bd_frames _ _ _ _ _ _ Hb)) d Hd) as [Hlow _]. pose proof (low_page_u32 d Hlow) as (Hu & Hal & _).
  assert (owner_at x d = Kernel) as Hok.
  { rewrite Hrest; [|done|done|].
    2: { intros q Hq Hqd. assert (q = n); [|lia]. apply (bd_inj _ _ _ _ _ _ Hb q n d); [lia|lia|done|done]. }
    rewrite (bd_own _ _ _ _ _ _ Hb) by done. unfold own_taken. by rewrite decide_True. }
  destruct (free_frame_spec x d Hwf Hu Hal (or_introl Hok)) as [Hwf' Hown'].
  split_and!; try done.
  - intros q d' Hq Hd'. assert (low_page d') as Hlow'.
    { pose proof (bd_copies _ _ _ _ _ _ Hb q ltac:(lia)) as Hc. rewrite Hd' in Hc.
      exact (proj1 (proj1 (proj2 (bd_frames _ _ _ _ _ _ Hb)) d' (proj1 Hc))). }
    apply low_page_u32 in Hlow' as (? & ? & _). rewrite Hown' by done. unfold own_set. case_decide; [done|].
    apply (Hdone q); [|done]. destruct (decide (q = n)) as [->|]; [congruence|lia].
  - intros y Hy Ha Hnot. rewrite Hown' by done. unfold own_set. case_decide as Hyd; [subst; by destruct (Hnot n ltac:(lia))|].
    apply Hrest; [done..|]. intros q Hq. apply Hnot. lia.
Qed.

Lemma building_same s r1 p D fs s' s1 : building s r1 p D fs s' -> keeps s' s1 -> words s1 = words s' ->
  pmm_wf (page_frames s1) -> own_eq (owner_at s') (owner_at s1) -> building s r1 p D fs s1.
Proof.
  intros [Hwf Hm Hk Hsame Hfs Hown Hroot Hcop Hall Hinj] Hk1 Hw Hwf1 Hown1. split; rewrite ?Hw; try done.
  - by eapply keeps_trans.
  - intros x Hx Ha. rewrite Hown1 by done. by apply Hown.
Qed.

(** When a frame is missing, everything the call took is given back. *)
Lemma build_rollback s r1 p D fs s' s1 : paging_ok true s -> 0 <= p <= 4 -> building s r1 p D fs s' ->
  alloc_low s' = (0, s1) ->
  created true s 0 (free_frame r1 (for_loop 0 p (fun index s =>
    if pae_entry_present s r1 index then free_frame (pae_entry_physical s r1 index) s else s) s1)).
Proof.
  intros Hok Hp Hb0 E. destruct (alloc_low_spec s' 0 s1 (bd_pmm _ _ _ _ _ _ Hb0) E) as (Hs1 & Hwf1 & [[_ Hown1]|[Hlow _]]);
    [|unfold low_page in Hlow; lia].
  assert (building s r1 p D fs s1) as Hb by (eapply building_same; [done|by rewrite Hs1..|done|done]).
  destruct (rollback_loop s r1 p D fs s1 Hp Hb) as (Hk2 & Hw2 & Hwf2 & Hdone & Hrest). revert Hk2 Hw2 Hwf2 Hdone Hrest.
  generalize (for_loop 0 p (fun index s =>
    if pae_entry_present s r1 index then free_frame (pae_entry_physical s r1 index) s else s) s1) as s2.
  intros s2 Hk2 Hw2 Hwf2 Hdone Hrest. pose proof (bd_frames _ _ _ _ _ _ Hb) as (_ & Hfs & Hr1).
  destruct (Hfs r1 Hr1) as [Hlow1 _]. pose proof (low_page_u32 r1 Hlow1) as (Hu1 & Ha1 & _).
  assert (forall q, 0 <= q < p -> D q <> Some r1) as HDr.
  { intros q Hq Hd. pose proof (bd_copies _ _ _ _ _ _ Hb q Hq) as Hc. rewrite Hd in Hc. naive_solver. }
  assert (owner_at s2 r1 = Kernel) as Hk1.
  { rewrite Hrest by done. rewrite (bd_own _ _ _ _ _ _ Hb) by done. unfold own_taken. by rewrite decide_True. }
  destruct (free_frame_spec s2 r1 Hwf2 Hu1 Ha1 (or_introl Hk1)) as [Hwf3 Hown3].
  assert (own_eq (owner_at s) (owner_at (free_frame r1 s2))) as Hown.
  { intros x Hx Ha. rewrite Hown3 by done. unfold own_set. case_decide as Hxr; [subst; symmetry; by apply Hfs|].
    destruct (decide (x ∈ fs)) as [Hin|Hin].
    - destruct (bd_all _ _ _ _ _ _ Hb x Hin) as [->|(q & Hq & Hd)]; [done|]. rewrite (Hdone q x Hq Hd).
      symmetry. by apply Hfs.
    - rewrite Hrest; [|done..|].
      + rewrite (bd_own _ _ _ _ _ _ Hb) by done. unfold own_taken. by rewrite decide_False.
      + intros q Hq Hd. pose proof (bd_copies _ _ _ _ _ _ Hb q Hq) as Hc. rewrite Hd in Hc. naive_solver. }
  assert (keeps s (free_frame r1 s2)) as Hk by (eapply keeps_trans; [apply (bd_keeps _ _ _ _ _ _ Hb)|exact Hk2]).
  destruct (building_ok _ _ _ _ _ _ Hok Hb) as (_ & HV & _).
  destruct (keeps_roots true s _ Hk) as (EK & _ & EC & _ & EN).
  destruct (config_fields true s _ (proj1 Hk)) as (_ & _ & _ & _ & _ & _ & _ & EE). split; try done.
  - eapply (paging_ok_keeps true s); [done..|]. eapply spaces_ok_own; [|exact Hown].
    change (words (free_frame r1 s2)) with (words s2). rewrite Hw2. split; [apply Hb|].
    eapply forest_view; [apply (ok_forest true s Hok)|done].
  - destruct Hk as (_ & ? & ?). done.
  - intros _. by destruct Hk.
  - change (words (free_frame r1 s2)) with (words s2). rewrite Hw2. exact (proj2 (proj2 HV)).
  - change (words (free_frame r1 s2)) with (words s2). rewrite Hw2. exact (bd_same _ _ _ _ _ _ Hb).
Qed.

Lemma pae_create_loop_ok s r1 n : forall p D fs s' ok s2, paging_ok true s -> building s r1 p D fs s' ->
  0 <= p -> p + Z.of_nat n = 4 -> pae_create_loop n p r1 s' = (ok, s2) ->
  if ok then exists D fs, building s r1 4 D fs s2 else created true s 0 s2.
Proof.
  induction n as [|n IH]; intros p D fs s' ok s2 Hok Hb Hp0 Hpn; cbn [pae_create_loop].
  { intros [= <- <-]. replace 4 with p by lia. eauto. }
  destruct (build_kernel_node _ _ _ _ _ _ Hok Hb ltac:(lia)) as [-> Hkn].
  destruct (node_of true (words s) (kernel_root true s) p) as [kd|] eqn:En.
  2: { rewrite Hkn. cbn [negb]. intros Hl.
       refine (IH _ _ fs s' _ _ Hok (build_skip s r1 p D fs s' _ Hb En) _ _ Hl); lia. }
  destruct Hkn as (Hkp & Hkd & Hlow & Ho). rewrite Hkp. cbn [negb]. destruct (alloc_low s') as [a s1] eqn:E.
  destruct (Z.eqb_spec a 0) as [->|Hnz].
  { intros [<- <-]%pair_equal_spec. eapply build_rollback; [done|lia|done|done]. }
  destruct (alloc_low_spec s' a s1 (bd_pmm _ _ _ _ _ _ Hb) E) as (Hs1 & Hwf1 & [[? _]|(Hlow1 & Hfree & Hown1)]); [done|].
  assert (pae_kernel_pdpt s1 = kernel_root true s) as ->.
  { rewrite Hs1. cbn. by destruct (build_kernel_node _ _ _ _ _ _ Hok Hb ltac:(lia)) as [? _]. }
  assert (pae_entry_physical s1 (kernel_root true s) p = kd) as -> by (rewrite Hs1; exact Hkd).
  assert (tables_ok (words s1)) as Hm1 by (rewrite Hs1; exact (bd_tables _ _ _ _ _ _ Hb)).
  assert (kd <> a) as Hkda.
  { intros ->. pose proof (low_page_u32 a Hlow1) as (? & ? & _). rewrite (bd_own _ _ _ _ _ _ Hb) in Hfree by done.
    unfold own_taken in Hfree. case_decide; [done|]. by rewrite Ho in Hfree. }
  destruct (pae_copy_spec kd a s1 Hm1 Hkda) as (Hs2 & Hm2 & Hcp). revert Hs2 Hm2 Hcp.
  generalize (pae_copy_page kd a s1) as s3. intros s3 Hs3 Hm3 Hcp. rewrite pae_set_entry_write.
  intros Hloop. apply (IH _ _ _ _ _ _ Hok (build_copy s r1 p D fs s' kd a s1 s3 Hok ltac:(lia) Hb En Ho E Hnz Hs3 Hm3 Hcp));
    [lia|lia|done].
Qed.

(** ** The finished space *)

Lemma build_node s r1 D fs s' q x : building s r1 4 D fs s' -> node_of true (words s') r1 q = Some x ->
  (q = -1 /\ x = r1) \/ (0 <= q < 4 /\ D q = Some x).
Proof.
  intros Hb. unfold node_of. destruct (Z.eqb_spec q (-1)) as [->|Hq]; [intros [= <-]; by left|].
  cbn [andb]. destruct ((0 <=? q) && (q <? 4)) eqn:Hr; [|done]. cbn [andb].
  rewrite (bd_root _ _ _ _ _ _ Hb) by lia. replace (q <? 4) with true by lia.
  pose proof (bd_copies _ _ _ _ _ _ Hb q ltac:(lia)) as Hc. destruct (D q) as [d|] eqn:Ed; [|done].
  destruct (pdpt_entry d) as (_ & Hpr & Hfr); [apply (proj1 (proj2 (bd_frames _ _ _ _ _ _ Hb)) d (proj1 Hc))|].
  unfold present in Hpr. rewrite Hpr, Hfr. intros [= ->]. right. split; [lia|done].
Qed.

Lemma build_node_at s r1 D fs s' q : building s r1 4 D fs s' -> 0 <= q < 4 -> node_of true (words s') r1 q = D q.
Proof.
  intros Hb Hq. unfold node_of. replace (q =? -1) with false by lia.
  replace (true && (0 <=? q) && (q <? 4)) with true by lia. cbn [andb].
  rewrite (bd_root _ _ _ _ _ _ Hb) by lia. replace (q <? 4) with true by lia.
  pose proof (bd_copies _ _ _ _ _ _ Hb q ltac:(lia)) as Hc. destruct (D q) as [d|]; [|done].
  destruct (pdpt_entry d) as (_ & Hpr & Hfr); [apply (proj1 (proj2 (bd_frames _ _ _ _ _ _ Hb)) d (proj1 Hc))|].
  unfold present in Hpr. by rewrite Hpr, Hfr.
Qed.

Lemma build_pde s r1 D fs s' i : paging_ok true s -> building s r1 4 D fs s' -> dir_index true i ->
  pde_of true (words s') r1 i = pde_of true (words s') (kernel_root true s) i.
Proof.
  intros Hok Hb Hi. destruct (building_ok _ _ _ _ _ _ Hok Hb) as (_ & HV & _).
  etransitivity; [|symmetry; apply (proj1 (proj2 HV)); [apply kernel_in|done]].
  assert (0 <= i / 512 < 4) as Hq by (unfold dir_index, directories in Hi; dmlia).
  unfold view_of, pde_of, slot. cbn [pde]. rewrite (build_node_at _ _ _ _ _ _ Hb Hq).
  pose proof (bd_copies _ _ _ _ _ _ Hb _ Hq) as Hc. destruct (D (i / 512)) as [d|]; [|by rewrite Hc].
  destruct Hc as (_ & _ & kd & -> & Hcp). f_equal. apply Hcp. apply Z.mod_pos_bound. lia.
Qed.

Lemma pae_create_ok s d s' : paging_ok true s -> pae_create_address_space s = (d, s') -> created true s d s'.
Proof.
  intros Hok. destruct (pae_pointers s Hok) as (_ & Hk & _). unfold pae_create_address_space.
  rewrite Hk, (root_nonzero true s Hok _ (kernel_in true s)). cbn [orb]. unfold PAGING_MAX_ADDRESS_SPACES.
  destruct (Z.eqb_spec (pae_address_space_count s) 16) as [_|Hcnt]; [intros [= <- <-]; by apply created_refused|].
  destruct (alloc_low s) as [a s1] eqn:E. destruct (Z.eqb_spec a 0) as [->|Hnz]; [intros [= <- <-]; by apply created_failed|].
  assert (tables_ok (words s1)) as Hm1.
  { destruct (alloc_low_spec s a s1 (ok_pmm _ _ Hok) E) as (-> & _). exact (ok_tables true s Hok). }
  destruct (clear_pae_page_spec a s1 Hm1) as (Hs2 & Hm2 & Hg2). revert Hs2 Hm2 Hg2. generalize (clear_pae_page a s1) as s2.
  intros s2 Hs2 Hm2 Hg2. pose proof (build_start s a s1 s2 Hok E Hnz Hs2 Hm2 Hg2) as Hb.
  destruct (pae_create_loop 4 0 a s2) as [ok s3] eqn:El.
  pose proof (pae_create_loop_ok s a 4 0 _ _ _ _ _ Hok Hb ltac:(lia) ltac:(lia) El) as Hl.
  destruct ok; cbn [negb]; intros [<- <-]%pair_equal_spec; [|done].
  destruct Hl as (D & fs & Hb4). destruct (building_ok _ _ _ _ _ _ Hok Hb4) as (Hok3 & HV & Hfs).
  apply (register_ok true s s3 a); try done.
  - split; [done|]. split; [apply Hb4|]. split; [exact (proj2 (proj2 HV))|]. split; [|intros r i Hr Hi _; by apply (proj1 (proj2 HV))].
    intros x Hx Ha. rewrite (bd_own _ _ _ _ _ _ Hb4) by done. unfold own_taken. case_decide as Hin; [|by left].
    right. split; [|done]. by apply (bd_frames _ _ _ _ _ _ Hb4).
  - intros q x [[-> ->]|[Hq Hd]]%(build_node _ _ _ _ _ _ _ Hb4).
    + apply Hfs. apply Hb4.
    + apply Hfs. pose proof (bd_copies _ _ _ _ _ _ Hb4 q Hq) as Hc. rewrite Hd in Hc. by destruct Hc.
  - intros q q' x [[-> ->]|[Hq Hd]]%(build_node _ _ _ _ _ _ _ Hb4) [[-> Hx]|[Hq' Hd']]%(build_node _ _ _ _ _ _ _ Hb4).
    + done.
    + pose proof (bd_copies _ _ _ _ _ _ Hb4 q' Hq') as Hc. rewrite Hd' in Hc. by destruct (proj1 (proj2 Hc)).
    + subst x. pose proof (bd_copies _ _ _ _ _ _ Hb4 q Hq) as Hc. rewrite Hd in Hc. by destruct (proj1 (proj2 Hc)).
    + by eapply (bd_inj _ _ _ _ _ _ Hb4).
  - intros i Hi. by eapply build_pde.
  - intros x Hx Hxa. rewrite (bd_own _ _ _ _ _ _ Hb4) by done. unfold own_taken. pose proof (bd_frames _ _ _ _ _ _ Hb4) as (_ & Hfree & Hr1).
    case_decide as Hin.
    + rewrite (proj2 (Hfree x Hin)). split; [intros _|done].
      destruct (bd_all _ _ _ _ _ _ Hb4 x Hin) as [->|(q & Hq & Hd)]; [by exists (-1)|]. exists q. by rewrite (build_node_at _ _ _ _ _ _ Hb4 Hq).
    + split; [done|]. intros [q [[-> ->]|[Hq Hd]]%(build_node _ _ _ _ _ _ _ Hb4)]; [done|]. exfalso.
      pose proof (bd_copies _ _ _ _ _ _ Hb4 q Hq) as Hc. rewrite Hd in Hc. by destruct Hc.
  - exact (bd_same _ _ _ _ _ _ Hb4).
Qed.

Lemma create_ok wide s d s' : paging_ok wide s -> paging_create_address_space s = (d, s') -> created wide s d s'.
Proof.
  intros Hok. unfold paging_create_address_space. rewrite (proj1 (ok_mode _ _ Hok)).
  destruct wide; [by apply pae_create_ok|by apply legacy_create_ok].
Qed.
