(* ===== verification/PagingDestroy.v ===== *)
(** * Destroying an address space

    The frames [paging_destroy_address_space] gives back, for both table formats: the root and the
    directories of the space, its private tables and the frames of its user pages, and no other
    frame. *)

From S2P Require Import Prelude Pmm PmmSpec PagingState PagingPae Paging PagingEntry PagingForest PagingView PagingInv PagingOps PagingMap PagingProtect PagingUnmap PagingSpaces.
Local Open Scope c_scope.
Local Open Scope Z_scope.

(** ** Giving frames back *)

(** [s'] is [s] with the frames of [T] free. *)
Record freeing (s : paging) (T : Z -> Prop) (s' : paging) : Prop := {
  fr_words : words s' = words s;
  fr_keeps : keeps s s';
  fr_pmm : pmm_wf (page_frames s');
  fr_own : forall x, is_u32 x -> x mod 4096 = 0 ->
    (T x /\ owner_at s' x = Free) \/ (~ T x /\ owner_at s' x = owner_at s x)
}.

Lemma freeing_iff s T T' s' : freeing s T s' -> (forall x, T x <-> T' x) -> freeing s T' s'.
Proof. intros [? ? ? Ho] Hiff. split; try done. intros x Hx Ha. rewrite <- Hiff. by apply Ho. Qed.

Lemma freeing_start s : pmm_wf (page_frames s) -> freeing s (fun _ => False) s.
Proof. intros. split; try done. intros x _ _. right. split; [tauto|done]. Qed.

Lemma freeing_step s T s' s'' a : freeing s T s' -> words s'' = words s' -> keeps s' s'' -> pmm_wf (page_frames s'') ->
  own_eq (own_set (owner_at s') a Free) (owner_at s'') -> freeing s (fun x => T x \/ x = a) s''.
Proof.
  intros [Hw Hk Hp Ho] Hw' Hk' Hp' Ho'. split; [by rewrite Hw'|by eapply keeps_trans|done|].
  intros x Hx Ha. rewrite Ho' by done. unfold own_set. case_decide as Hxa; [left; split; [by right|done]|].
  destruct (Ho x Hx Ha) as [[? ?]|[? ?]]; [left|right]; (split; [naive_solver|done]).
Qed.

Lemma freeing_kernel s T s' a : freeing s T s' -> is_u32 a -> a mod 4096 = 0 -> ~ T a -> owner_at s a = Kernel ->
  freeing s (fun x => T x \/ x = a) (free_frame a s').
Proof.
  intros Hf Ha Hal HT Ho. destruct (fr_own _ _ _ Hf a Ha Hal) as [[? _]|[_ Ho']]; [done|]. rewrite Ho in Ho'.
  destruct (free_frame_spec s' a (fr_pmm _ _ _ Hf) Ha Hal (or_introl Ho')) as [? ?]. by eapply freeing_step.
Qed.

Lemma freeing_user s T s' a : freeing s T s' -> is_u32 a -> a mod 4096 = 0 -> ~ T a -> owner_at s a = User true ->
  freeing s (fun x => T x \/ x = a) (free_frame a (release_frame a s')).
Proof.
  intros Hf Ha Hal HT Ho. destruct (fr_own _ _ _ Hf a Ha Hal) as [[? _]|[_ Ho']]; [done|]. rewrite Ho in Ho'.
  destruct (release_frame_spec s' a (fr_pmm _ _ _ Hf) Ha Hal Ho') as [Hp1 Ho1].
  assert (owner_at (release_frame a s') a = User false) as Hr by (rewrite Ho1 by done; unfold own_set; by rewrite decide_True).
  destruct (free_frame_spec _ a Hp1 Ha Hal (or_intror Hr)) as [Hp2 Ho2].
  apply (freeing_step s T s'); try done. intros x Hx Hxa. rewrite Ho2 by done. unfold own_set. case_decide; [done|].
  rewrite Ho1 by done. unfold own_set. by rewrite decide_False.
Qed.

(** A second, supervisor mapping of a user frame: the frame is mapped or already free, and
    [pmm_free_block] refuses both. *)
Lemma freeing_alias s T s' a : freeing s T s' -> is_u32 a -> a mod 4096 = 0 -> owner_at s a = User true ->
  freeing s T (free_frame a s').
Proof.
  intros [Hw Hk Hp Ho] Ha Hal Hu. destruct (free_refines a _ Hp Ha) as (Hp' & m' & Hs & Hm).
  assert (owner_at s' a = Free \/ owner_at s' a = User true) as Hn.
  { destruct (Ho a Ha Hal) as [[_ ?]|[_ ->]]; [by left|by right]. }
  assert (m' = frame_owner (page_frames s')) as ->.
  { inversion Hs as [| | | | | | | |b Hor|]; subst; [|done]. exfalso. unfold owner_at in Hn. rewrite Z.div_mul in Hn by lia.
    destruct Hor as [Hor|Hor], Hn as [Hn|Hn]; by rewrite Hn in Hor. }
  split; try done. intros x Hx Hxa. replace (owner_at (free_frame a s') x) with (owner_at s' x).
  - by apply Ho.
  - symmetry. exact (Hm _ (u32_block x Hx)).
Qed.

(** ** The entries of one table *)

(** The second pass on one entry, for either format. *)
Definition free_entry (wide : bool) (t j : Z) (s : paging) : paging :=
  let v := get wide (words s) t j in
  if flag v 1 then
    let s := if flag v 4 then release_frame (frame_of v) s else s in
    free_frame (frame_of v) s
  else s.

Section Table.
Context (wide : bool) (s : paging) (d : Z).
Hypothesis Hok : paging_ok wide s.
Hypothesis Hd : d ∈ roots wide s.
#[local] Notation V := (view_of wide (words s)).
#[local] Notation K := (kernel_root wide s).

(** The frames of the user pages of table [i], below position [n]. *)
Definition page_frames_below (i n x : Z) : Prop :=
  exists j, 0 <= j < n /\ user_page wide V d i j /\ frame_of (pte_of wide (words s) d i j) = x.

(** What the first pass has checked of a private table. *)
Definition checked_table (i t : Z) : Prop :=
  linked wide V d i t /\ ~ shared wide V K d i /\
  forall j, table_index wide j -> present (pte_of wide (words s) d i j) ->
    owner_at s (frame_of (pte_of wide (words s) d i j)) = User true.

Lemma free_entry_ok T i t n s' : checked_table i t -> table_index wide n ->
  (forall x, page_frames_below i (entries wide) x -> ~ T x) ->
  freeing s (fun x => T x \/ page_frames_below i n x) s' ->
  freeing s (fun x => T x \/ page_frames_below i (n + 1) x) (free_entry wide t n s').
Proof using Hok Hd.
  intros (Hl & Hns & Hch) Hn HT Hf. unfold free_entry. rewrite (fr_words _ _ _ Hf).
  pose proof (linked_pte wide s d i t n Hl) as Hpte. set (v := get wide (words s) t n) in *.
  destruct (flag v 1) eqn:Hp.
  2: { eapply freeing_iff; [done|]. intros x. unfold page_frames_below. split; [intros [?|(j & ? & ?)]; [by left|right; exists j; split; [lia|done]]|].
       intros [?|(j & Hj & Hu & Hx)]; [by left|right]. exists j. split; [|done]. destruct (decide (j = n)) as [->|]; [|lia].
       destruct Hu as (_ & _ & Hu & _). cbn in Hu. unfold norm in Hpte. rewrite Hp in Hpte. by rewrite Hpte in Hu. }
  rewrite norm_present in Hpte by done.
  pose proof (Hch n Hn) as Hown. rewrite Hpte in Hown. specialize (Hown Hp).
  destruct (flag v 4) eqn:Hu.
  - assert (user_page wide V d i n) as Hup by (split; [apply Hl|]; split; [done|]; cbn; rewrite Hpte; done).
    eapply freeing_iff; [apply (freeing_user _ _ _ (frame_of v) Hf); [apply frame_of_u32|apply frame_of_aligned| |done]|].
    + intros [HTv|(j & Hj & Hju & Hjf)].
      * apply (HT (frame_of v)); [|done]. exists n. unfold table_index in Hn. split; [done|]. by rewrite Hpte.
      * destruct (forest_user_inj _ _ _ _ _ _ (ok_forest wide s Hok) d i j d i n Hd Hd Hju Hup) as (_ & _ & ->); [|lia].
        cbn. by rewrite Hpte.
    + intros x. split.
      * intros [[?|(j & Hj & ?)]| ->]; [by left|right; exists j; split; [lia|done]|]. right. exists n. unfold table_index in Hn.
        split; [lia|]. split; [done|]. by rewrite Hpte.
      * intros [?|(j & Hj & Hju & Hjf)]; [by left; left|]. destruct (decide (j = n)) as [->|]; [right; by rewrite <- Hjf, Hpte|].
        left. right. exists j. split; [lia|done].
  - eapply freeing_iff; [apply (freeing_alias _ _ _ (frame_of v) Hf); [apply frame_of_u32|apply frame_of_aligned|done]|].
    intros x. split; (intros [?|(j & Hj & Hju & Hjf)]; [by left|right]; exists j; split; [|done]); [lia|].
    destruct (decide (j = n)) as [->|]; [|lia]. destruct Hju as (_ & _ & _ & Hju). cbn in Hju. rewrite Hpte in Hju. congruence.
Qed.

(** The whole table: its user frames and its own frame. *)
Lemma free_entries_ok T i t s' body : checked_table i t ->
  (forall j x, body j x = free_entry wide t j x) ->
  (forall x, page_frames_below i (entries wide) x -> ~ T x) -> ~ T t -> freeing s T s' ->
  freeing s (fun x => T x \/ page_frames_below i (entries wide) x \/ x = t)
    (free_frame t (for_loop 0 (entries wide) body s')).
Proof using Hok Hd.
  intros Hct Hbody HT HTt Hf. pose proof (proj1 Hct) as Hl.
  assert (freeing s (fun x => T x \/ page_frames_below i (entries wide) x) (for_loop 0 (entries wide) body s')) as Hloop.
  { apply (for_loop_inv (fun n x => freeing s (fun y => T y \/ page_frames_below i n y) x)).
    - destruct wide; cbn; lia.
    - eapply freeing_iff; [done|]. intros x. split; [by left|]. intros [?|(j & Hj & _)]; [done|lia].
    - intros n x Hn Hx. rewrite Hbody. by apply free_entry_ok. }
  revert Hloop. generalize (for_loop 0 (entries wide) body s') as s2. intros s2 Hloop.
  destruct (forest_link _ _ _ _ _ _ (ok_forest wide s Hok) d i t Hd Hl) as (Hlow & Hkt & _).
  apply low_page_u32 in Hlow as (Hu & Hal & _).
  eapply freeing_iff; [apply (freeing_kernel _ _ _ t Hloop Hu Hal); [|done]|intros x; tauto].
  intros [?|(j & Hj & Hup & Hfr)]; [done|].
  destruct (forest_user _ _ _ _ _ _ (ok_forest wide s Hok) d i j Hd Hup) as (_ & Ho & _). cbn in Ho.
  rewrite Hfr, Hkt in Ho. done.
Qed.

(** A table of [d] that is not the kernel's, as both versions of the code decide it. *)
Definition private_at (i : Z) : option Z :=
  let entry := pde_of wide (words s) d i in
  let kernel_entry := pde_of wide (words s) K i in
  if flag entry 1 && negb (flag kernel_entry 1 && (frame_of entry =? frame_of kernel_entry))
  then Some (frame_of entry) else None.

Lemma private_at_spec i t : dir_index wide i -> private_at i = Some t <-> linked wide V d i t /\ ~ shared wide V K d i.
Proof using.
  intros Hi. unfold private_at, shared, linked, present. cbn [pde view_of].
  destruct (flag (pde_of wide (words s) d i) 1) eqn:E1; cbn [andb]; [|naive_solver].
  destruct (flag (pde_of wide (words s) K i) 1) eqn:E2; cbn [andb negb]; [|naive_solver].
  destruct (Z.eqb_spec (frame_of (pde_of wide (words s) d i)) (frame_of (pde_of wide (words s) K i))) as [E|E]; cbn [negb];
    naive_solver.
Qed.

(** The frames of the private tables from [lo] to [n] and of their user pages. *)
Definition private_done (lo n x : Z) : Prop :=
  exists i t, lo <= i < n /\ private_at i = Some t /\ (x = t \/ page_frames_below i (entries wide) x).

Lemma private_owner i x : page_frames_below i (entries wide) x -> owner_at s x = User true.
Proof using Hok Hd.
  intros (j & _ & Hup & <-). by apply (forest_user _ _ _ _ _ _ (ok_forest wide s Hok) d i j Hd Hup).
Qed.

Lemma private_table_owner i t : dir_index wide i -> private_at i = Some t ->
  low_page t /\ owner_at s t = Kernel /\ forall r q, r ∈ roots wide s -> node_of wide (words s) r q <> Some t.
Proof using Hok Hd.
  intros Hi [Hl _]%private_at_spec; [|done].
  destruct (forest_link _ _ _ _ _ _ (ok_forest wide s Hok) d i t Hd Hl) as (? & ? & _ & _ & ?). done.
Qed.

Lemma node_owner r q x : r ∈ roots wide s -> node_of wide (words s) r q = Some x -> low_page x /\ owner_at s x = Kernel.
Proof using Hok. intros Hr Hq. by apply (forest_node _ _ _ _ _ _ (ok_forest wide s Hok) r q x Hr Hq). Qed.

(** Freeing the next private table. *)
Lemma free_private_ok T lo i t s' body : 0 <= lo -> dir_index wide i -> lo <= i -> private_at i = Some t -> checked_table i t ->
  (forall x, T x -> exists q, node_of wide (words s) d q = Some x) ->
  (forall j x, body j x = free_entry wide t j x) ->
  freeing s (fun x => T x \/ private_done lo i x) s' ->
  freeing s (fun x => T x \/ private_done lo (i + 1) x) (free_frame t (for_loop 0 (entries wide) body s')).
Proof using Hok Hd.
  intros Hlo Hi Hli Hp Hct HTn Hbody Hf. destruct (private_table_owner i t Hi Hp) as (_ & Hkt & Hnt).
  assert (forall i', lo <= i' < i -> dir_index wide i') as Hdi by (unfold dir_index in *; lia).
  eapply freeing_iff; [eapply free_entries_ok; [done|done| | |exact Hf]|].
  - intros x Hx. pose proof (private_owner i x Hx) as Ho. intros [HT|(i' & t' & Hi' & Hp' & [->|Hx'])].
    + destruct (HTn x HT) as [q Hq]. destruct (node_owner d q x Hd Hq) as [_ Ho']. by rewrite Ho in Ho'.
    + destruct (private_table_owner i' t' (Hdi i' Hi') Hp') as (_ & Ho' & _). by rewrite Ho in Ho'.
    + destruct Hx as (j & _ & Hup & Hfr), Hx' as (j' & _ & Hup' & Hfr').
      destruct (forest_user_inj _ _ _ _ _ _ (ok_forest wide s Hok) d i j d i' j' Hd Hd Hup Hup') as (_ & -> & _); [|lia].
      cbn. by rewrite Hfr, Hfr'.
  - intros [HT|(i' & t' & Hi' & Hp' & [->|Hx'])].
    + destruct (HTn t HT) as [q Hq]. by apply (Hnt d q).
    + apply private_at_spec in Hp as [Hl _]; [|done]. apply private_at_spec in Hp' as [Hl' _]; [|by apply Hdi].
      destruct (forest_share _ _ _ _ _ _ (ok_forest wide s Hok) d i d i' t' Hd Hd Hl Hl') as [-> _]. lia.
    + apply private_owner in Hx'. by rewrite Hkt in Hx'.
  - intros x. split.
    + intros [[?|(i' & t' & Hi' & ?)]|Hx]; [by left|right; exists i', t'; split; [lia|done]|].
      right. exists i, t. split; [lia|]. split; [done|]. tauto.
    + intros [?|(i' & t' & Hi' & Hp' & Hx)]; [by left; left|]. destruct (decide (i' = i)) as [->|].
      * right. rewrite Hp in Hp'. injection Hp' as <-. tauto.
      * left. right. exists i', t'. split; [lia|done].
Qed.

Lemma skip_private_ok T lo i s' : private_at i = None -> freeing s (fun x => T x \/ private_done lo i x) s' ->
  freeing s (fun x => T x \/ private_done lo (i + 1) x) s'.
Proof using.
  intros Hp Hf. eapply freeing_iff; [exact Hf|]. intros x. split.
  - intros [?|(i' & t' & Hi' & ?)]; [by left|right; exists i', t'; split; [lia|done]].
  - intros [?|(i' & t' & Hi' & Hp' & ?)]; [by left|right]. exists i', t'. destruct (decide (i' = i)) as [->|]; [congruence|].
    split; [lia|done].
Qed.
End Table.

(** ** The list of spaces *)

Lemma insert_swap {A} (l : list A) k a b : l !! k = Some a -> a :: <[k := b]> l ≡ₚ b :: l.
Proof.
  intros Hk. pose proof (lookup_lt_Some _ _ _ Hk) as Hlt. rewrite insert_take_drop by done.
  rewrite <- (take_drop_middle l k a Hk) at 3. rewrite <- !Permutation_middle. apply perm_swap.
Qed.

(** Removing the entry at [k] by moving the last one into its place. *)
Lemma swap_remove (l : list Z) k c d : (k < S c <= length l)%nat -> l !! k = Some d ->
  take (S c) l ≡ₚ d :: take c (<[c := 0]> (<[k := nth c l 0]> l)).
Proof.
  intros Hr Hk. rewrite take_insert_ge by lia. destruct (lookup_lt_is_Some_2 l c ltac:(lia)) as [b Hb].
  rewrite (take_S_r _ _ b Hb), (nth_lookup_Some _ _ _ _ Hb). rewrite Permutation_app_comm. cbn [app].
  destruct (decide (k = c)) as [->|Hne].
  - rewrite take_insert_ge by lia. by replace b with d by congruence.
  - rewrite take_insert_lt by lia. symmetry. apply insert_swap. rewrite lookup_take_lt by lia. done.
Qed.

Definition unregister (wide : bool) (d : Z) (s : paging) : paging := if wide then pae_forget d s else forget d s.

Lemma forget_list (l : list Z) n d : 0 <= n <= 16 -> length l = 16%nat -> d ∈ take (Z.to_nat n) l ->
  exists index, find_first 0 n (fun index => arr l index =? d) = Some index /\ 0 <= n -32 1 <= 16 /\
  length (arr_set (arr_set l index (arr l (n -32 1))) (n -32 1) 0) = 16%nat /\
  take (Z.to_nat n) l ≡ₚ d :: take (Z.to_nat (n -32 1)) (arr_set (arr_set l index (arr l (n -32 1))) (n -32 1) 0).
Proof.
  intros Hn Hl Hd. apply find_space in Hd as [index E]; [|lia]. exists index. split; [done|].
  apply find_first_Some in E as (Hr & He & _). apply Z.eqb_eq in He. rewrite u32_id by (unfold is_u32; lia).
  split; [lia|]. unfold arr_set. rewrite !length_insert. split; [done|].
  replace (Z.to_nat n) with (S (Z.to_nat (n - 1))) by lia. apply swap_remove; [lia|].
  rewrite <- He. apply arr_nth_lookup. lia.
Qed.

Lemma unregister_list wide d s : counts_ok wide s -> d ∈ space_list wide s ->
  exists l n, unregister wide d s = (if wide then set_pae_spaces s l n else set_spaces s l n) /\
  counts_ok wide (unregister wide d s) /\ space_list wide s ≡ₚ d :: space_list wide (unregister wide d s).
Proof.
  unfold counts_ok, space_list, unregister, pae_forget, forget. destruct wide; intros [Hc Hl] Hd;
    destruct (forget_list _ _ _ Hc Hl Hd) as (index & -> & ? & ? & ?); eexists _, _; (split; [reflexivity|done]).
Qed.

Lemma spaces_changed (wide : bool) s s2 l n : keeps s s2 ->
  let s3 := if wide then set_pae_spaces s2 l n else set_spaces s2 l n in
  page_frames s3 = page_frames s2 /\ words s3 = words s2 /\ data s3 = data s /\ registers s3 = registers s /\
  kernel_root wide s3 = kernel_root wide s /\ current_root wide s3 = current_root wide s /\
  paging_enabled s3 = paging_enabled s /\ paging_pae_enabled s3 = paging_pae_enabled s /\
  paging_pae_nx_enabled s3 = paging_pae_nx_enabled s /\ (pointers_ok wide s -> pointers_ok wide s3).
Proof.
  intros (Hk & Hd & Hr). unfold config in Hk. injection Hk as.
  destruct wide; cbn; (split_and!; try done); intuition congruence.
Qed.

(** ** The space is gone *)

(** The private tables the code looks at. *)
Definition private_low (wide : bool) : Z := if wide then 0 else 1.
Definition private_high (wide : bool) : Z := if wide then 2048 else 768.

(** The frames a space gives back. *)
Definition released (wide : bool) (s : paging) (d x : Z) : Prop :=
  (exists q, node_of wide (words s) d q = Some x) \/ private_done wide s d (private_low wide) (private_high wide) x.

(** What [paging_destroy_address_space] does: 0 and nothing has changed, or the space is gone,
    exactly its own frames are free, and the other spaces have the pages they had. *)
Record destroyed (wide : bool) (s : paging) (d : Z) (ok : bool) (s' : paging) : Prop := {
  destroyed_ok : paging_ok wide s';
  destroyed_refused : ok = false -> s' = s;
  destroyed_roots : kernel_root wide s' = kernel_root wide s /\ current_root wide s' = current_root wide s /\
    words s' = words s /\ data s' = data s /\ registers s' = registers s;
  destroyed_modes : paging_enabled s' = paging_enabled s /\ paging_pae_nx_enabled s' = paging_pae_nx_enabled s;
  destroyed_list : ok = true -> d ∈ space_list wide s /\ d <> current_root wide s /\
    space_list wide s ≡ₚ d :: space_list wide s';
  destroyed_frames : ok = true -> forall x, is_u32 x -> x mod 4096 = 0 ->
    (released wide s d x /\ owner_at s' x = Free) \/ (~ released wide s d x /\ owner_at s' x = owner_at s x);
  destroyed_users : ok = true -> forall i j, user_page wide (view_of wide (words s)) d i j ->
    owner_at s' (frame_of (pte_of wide (words s) d i j)) = Free
}.

Section Drop.
Context (wide : bool) (s : paging) (d : Z).
Hypothesis Hok : paging_ok wide s.
Hypothesis Hd : d ∈ space_list wide s.
#[local] Notation V := (view_of wide (words s)).
#[local] Notation K := (kernel_root wide s).

Lemma space_root : d ∈ roots wide s.
Proof using Hd. by right. Qed.

Lemma user_released i j : user_page wide V d i j -> released wide s d (frame_of (pte_of wide (words s) d i j)).
Proof using Hok Hd.
  intros Hup. pose proof (ok_forest wide s Hok) as HF. right.
  destruct (forest_user _ _ _ _ _ _ HF d i j space_root Hup) as (Hp4 & _ & Hpn).
  pose proof Hup as (Hi & Hj & Hue). destruct (forest_leaf _ _ _ _ _ _ HF d i j space_root Hi Hj (proj1 Hue)) as [Hpd _].
  exists i, (frame_of (pde_of wide (words s) d i)). split.
  - unfold page_number, table_index, dir_index, directories in *. unfold private_low, private_high. destruct wide; cbn in *; lia.
  - split; [|right; exists j; split; [apply Hj|done]]. apply private_at_spec; [done|]. split; [done|].
    by eapply user_not_shared; [done|apply space_root|].
Qed.

(** A frame that another space uses is not given back. *)
Lemma released_not_node r q x : r ∈ roots wide s -> r <> d -> node_of wide (words s) r q = Some x -> ~ released wide s d x.
Proof using Hok Hd.
  intros Hr Hne Hq [[q' Hq']|(i & t & Hi & Hp & [->|Hx])].
  - by destruct (forest_node_inj _ _ _ _ _ _ (ok_forest wide s Hok) r q d q' x Hr space_root Hq Hq').
  - by apply (private_table_owner wide s d Hok space_root i t) in Hp as (_ & _ & Hn);
      [apply (Hn r q)|unfold dir_index, directories, private_low, private_high in *; destruct wide; lia].
  - apply (private_owner wide s d Hok space_root) in Hx. destruct (node_owner wide s Hok r q x Hr Hq) as [_ Ho]. by rewrite Hx in Ho.
Qed.

Lemma released_not_table r i x : r ∈ roots wide s -> r <> d -> linked wide V r i x -> ~ released wide s d x.
Proof using Hok Hd.
  intros Hr Hne Hl. destruct (forest_link _ _ _ _ _ _ (ok_forest wide s Hok) r i x Hr Hl) as (_ & Hk & _ & _ & Hn).
  intros [[q' Hq']|(i' & t & Hi & Hp & [->|Hx])].
  - by apply (Hn d q' space_root).
  - apply private_at_spec in Hp as [Hl' Hns]; [|unfold dir_index, directories, private_low, private_high in *; destruct wide; lia].
    destruct (forest_share _ _ _ _ _ _ (ok_forest wide s Hok) d i' r i t space_root Hr Hl' Hl) as (<- & [?|HK]); [done|].
    apply Hns. by exists t.
  - apply (private_owner wide s d Hok space_root) in Hx. by rewrite Hx in Hk.
Qed.

Lemma released_not_user r i j : r ∈ roots wide s -> r <> d -> user_page wide V r i j ->
  ~ released wide s d (frame_of (pte_of wide (words s) r i j)).
Proof using Hok Hd.
  intros Hr Hne Hup. destruct (forest_user _ _ _ _ _ _ (ok_forest wide s Hok) r i j Hr Hup) as (_ & Ho & _). cbn in Ho.
  intros [[q' Hq']|(i' & t & Hi & Hp & [Heq|(j' & _ & Hup' & Hfr)])].
  - destruct (node_owner wide s Hok d q' _ space_root Hq') as [_ Ho']. by rewrite Ho in Ho'.
  - apply (private_table_owner wide s d Hok space_root i' t) in Hp as (_ & Ho' & _);
      [by rewrite <- Heq, Ho in Ho'|unfold dir_index, directories, private_low, private_high in *; destruct wide; lia].
  - by destruct (forest_user_inj _ _ _ _ _ _ (ok_forest wide s Hok) d i' j' r i j space_root Hr Hup' Hup Hfr).
Qed.

Lemma drop_ok s2 : d <> current_root wide s -> freeing s (released wide s d) s2 ->
  destroyed wide s d true (unregister wide d s2).
Proof using Hok Hd.
  intros Hcur [Hw Hk Hp Hown]. destruct (keeps_roots wide s s2 Hk) as (EK & EL & EC & ER & EN).
  pose proof (ok_forest wide s Hok) as HF. pose proof (forest_roots _ _ _ _ _ _ HF) as Hnd.
  assert (counts_ok wide s2) as Hc2.
  { pose proof (ok_counts _ _ Hok) as Hc. destruct Hk as [Hk _]. unfold config in Hk. injection Hk as.
    unfold counts_ok in *. destruct wide; congruence. }
  destruct (unregister_list wide d s2 Hc2) as (l & n & Hu & Hcounts & Hperm); [by rewrite EL|].
  set (s3 := unregister wide d s2) in *. rewrite EL in Hperm. set (L' := space_list wide s3) in *.
  destruct (spaces_changed wide s s2 l n Hk) as (Hp3 & Hw3 & Hd3 & Hr3 & HK3 & HC3 & HE3 & HP3 & HN3 & Hpt3).
  rewrite <- Hu in Hp3, Hw3, Hd3, Hr3, HK3, HC3, HE3, HP3, HN3, Hpt3. rewrite Hw in Hw3. clear Hu.
  assert (owner_at s3 = owner_at s2) as Ho3 by (unfold owner_at; by rewrite Hp3).
  assert (NoDup (K :: d :: L')) as Hnd' by (by rewrite <- Hperm).
  assert (forall r, r ∈ K :: L' <-> r ∈ K :: space_list wide s /\ r <> d) as Hin.
  { intros r. rewrite Hperm. rewrite !elem_of_cons. apply list.NoDup_cons in Hnd' as [HKn HdL]. apply list.NoDup_cons in HdL as [HdL _].
    rewrite elem_of_cons in HKn. split; [|tauto]. intros [->|Hr]; [tauto|]. split; [tauto|]. by intros ->. }
  assert (forall x, is_u32 x -> x mod 4096 = 0 -> ~ released wide s d x -> owner_at s3 x = owner_at s x) as Hsame.
  { intros x Hx Ha Hn. rewrite Ho3. destruct (Hown x Hx Ha) as [[? _]|[_ ?]]; done. }
  assert (forest wide (leaf_policy (paging_pae_nx_enabled s)) K L' V (owner_at s3)) as HF'.
  { apply (forest_drop_space wide _ K (space_list wide s) L' V (owner_at s) (owner_at s3) HF).
    - apply list.NoDup_cons in Hnd' as [HKn HdL]. apply list.NoDup_cons in HdL as [_ HL]. constructor; [|done].
      intros HK. apply HKn. by right.
    - intros r Hr. by apply Hin.
    - intros r q x [Hr Hne]%Hin Hq. destruct (node_owner wide s Hok r q x Hr Hq) as [Hlow Ho].
      pose proof (low_page_u32 x Hlow) as (? & ? & _). rewrite Hsame; [done..|exact (released_not_node r q x Hr Hne Hq)].
    - intros r i t [Hr Hne]%Hin Hl. destruct (forest_link _ _ _ _ _ _ HF r i t Hr Hl) as (Hlow & Ho & _).
      pose proof (low_page_u32 t Hlow) as (? & ? & _). rewrite Hsame; [done..|exact (released_not_table r i t Hr Hne Hl)].
    - intros r i j [Hr Hne]%Hin Hup. destruct (forest_user _ _ _ _ _ _ HF r i j Hr Hup) as (_ & Ho & _).
      cbn. rewrite Hsame; [done|apply frame_of_u32|apply frame_of_aligned|exact (released_not_user r i j Hr Hne Hup)].
    - intros x Hx Ha Ho. rewrite Ho3 in Ho. destruct (Hown x Hx Ha) as [[_ Hf]|[Hn Hs]]; [by rewrite Hf in Ho|].
      split; [by rewrite <- Hs|]. intros r i j Hr Hup Hfr. apply Hin. split; [done|]. intros ->. apply Hn.
      rewrite <- Hfr. by apply user_released. }
  split; try done.
  - destruct Hok as [H1 H2 H3 H4 H5 H6 H7]. split.
    + by rewrite HN3, HP3.
    + by rewrite Hp3.
    + unfold roots. rewrite HC3, HK3. fold L'. apply Hin. split; [exact H3|]. by intros <-.
    + by apply Hpt3.
    + done.
    + unfold hardware_ok in *. rewrite HE3, HC3, Hr3, HN3. done.
    + unfold state_ok. rewrite HN3, HK3, Hw3. fold L'. split; [apply H7|done].
  - intros _ x Hx Ha. rewrite Ho3. by apply Hown.
  - intros _ i j Hup. rewrite Ho3. destruct (Hown _ (frame_of_u32 (pte_of wide (words s) d i j)) (frame_of_aligned _)) as [[_ ?]|[Hn _]]; [done|].
    destruct Hn. by apply user_released.
Qed.
End Drop.

(** A user block with the mapped mark, as the first pass tests it. *)
Lemma block_mapped_user p a : pmm_wf p -> is_u32 a -> pmm_block_is_user_owned p a = true -> pmm_user_block_is_mapped p a = true ->
  frame_owner p (a / 4096) = User true.
Proof.
  intros Hwf Ha Ho. unfold pmm_user_block_is_mapped. rewrite Ho. cbn [negb]. intros Hm.
  apply user_owned_spec in Ho as (_ & m & Hf); [|done..]. change PMM_BLOCK_SIZE with 4096 in Hm.
  pose proof (proj1 (owner_user p _ m Hwf (u32_block a Ha)) Hf) as (_ & _ & Hm'). by rewrite Hf, <- Hm', Hm.
Qed.

Lemma private_raw e k :
  (if flag (norm e) 1 && negb (flag (norm k) 1 && (frame_of (norm e) =? frame_of (norm k))) then Some (frame_of (norm e)) else None) =
  if negb (flag e 1) || (flag k 1 && (frame_of e =? frame_of k)) then None else Some (frame_of e).
Proof.
  unfold norm. destruct (flag e 1) eqn:E; [rewrite E|done]. destruct (flag k 1) eqn:Ek; [rewrite Ek|done].
  cbn [negb andb orb]. by destruct (frame_of e =? frame_of k).
Qed.

(** ** Two-level tables *)
Section Legacy.
Context (s : paging) (d : Z).
Hypothesis Hok : paging_ok false s.
Hypothesis Hd : d ∈ space_list false s.

Lemma legacy_private s' i : words s' = words s -> keeps s s' -> private_table s' d i = private_at false s d i.
Proof using Hok.
  intros Hw (Hk & _). unfold config in Hk. injection Hk as. unfold private_table, private_at, pde_of, slot, entry_at, PAGE_PRESENT.
  rewrite private_raw, Hw, <- !frame_of_land64. replace (kernel_page_directory s') with (kernel_root false s); [done|].
  symmetry. etransitivity; [done|apply (legacy_pointers s Hok)].
Qed.

Lemma legacy_checked i t : preflight s d = true -> 1 <= i < 768 -> private_at false s d i = Some t -> checked_table false s d i t.
Proof using Hok Hd.
  intros Hpre Hi Hp. unfold preflight in Hpre. rewrite all_range_true in Hpre. specialize (Hpre i Hi). cbv beta in Hpre.
  rewrite (legacy_private s i eq_refl (keeps_refl s)), Hp in Hpre. apply andb_true_iff in Hpre as [_ Hall].
  rewrite all_range_true in Hall. apply private_at_spec in Hp as [Hl Hns]; [|unfold dir_index, directories; lia].
  split; [done|]. split; [done|]. intros j Hj Hpr. rewrite (linked_pte false s d i t j Hl) in *.
  rewrite present_norm in Hpr. rewrite norm_present by done. specialize (Hall j Hj). unfold entry_at in Hall.
  cbn [get] in *. unfold present in Hpr. unfold PAGE_PRESENT in Hall. rewrite Hpr, <- !frame_of_land64 in Hall.
  cbn [andb] in Hall. rewrite negb_orb, !negb_involutive in Hall. apply andb_true_iff in Hall as [Hu Hm].
  apply block_mapped_user; [apply Hok|apply frame_of_u32|done|done].
Qed.

Lemma legacy_free_loop : preflight s d = true ->
  freeing s (private_done false s d 1 768)
    (for_loop 1 768 (fun index s => match private_table s d index with None => s | Some table => free_table table s end) s).
Proof using Hok Hd.
  intros Hpre. assert (d ∈ roots false s) as Hr by (by right). eapply freeing_iff.
  - apply (for_loop_inv (fun n x => freeing s (fun y => False \/ private_done false s d 1 n y) x)).
    + lia.
    + eapply freeing_iff; [apply freeing_start, Hok|]. intros x. split; [done|]. intros [[]|(i & t & Hi & _)]. lia.
    + intros n x Hn Hx. cbv beta. rewrite legacy_private by apply Hx.
      destruct (private_at false s d n) as [t|] eqn:E; [|by apply skip_private_ok].
      apply (free_private_ok false s d Hok Hr (fun _ => False) 1 n t x); try done; try lia.
      * unfold dir_index, directories. lia.
      * by apply legacy_checked.
      * intros j y. unfold free_entry, entry_at. cbn [get]. by rewrite <- frame_of_land64.
  - intros x. tauto.
Qed.

Lemma legacy_destroy_ok ok s' : d <> current_root false s -> 
  preflight s d = true ->
  (let s := for_loop 1 768 (fun index s => match private_table s d index with None => s | Some table => free_table table s end) s in
   let s := free_frame d s in (true, forget d s)) = (ok, s') -> destroyed false s d ok s'.
Proof using Hok Hd.
  intros Hcur Hpre. pose proof (legacy_free_loop Hpre) as Hf. revert Hf.
  generalize (for_loop 1 768 (fun index s => match private_table s d index with None => s | Some table => free_table table s end) s) as s2.
  intros s2 Hf [<- <-]%pair_equal_spec. assert (d ∈ roots false s) as Hr by (by right).
  apply (drop_ok false s d Hok Hd (free_frame d s2) Hcur). pose proof (root_page false s Hok d Hr) as Hlow.
  pose proof (low_page_u32 d Hlow) as (Hu & Hal & _). assert (node_of false (words s) d (-1) = Some d) as Hn by done.
  eapply freeing_iff; [apply (freeing_kernel s _ s2 d Hf Hu Hal)|].
  - intros (i & t & Hi & Hp & [->|Hx]).
    + destruct (private_table_owner false s t Hok Hr i t) as (_ & _ & Hnt); [unfold dir_index, directories; lia|done|].
      by apply (Hnt t (-1)).
    + apply (private_owner false s d Hok Hr) in Hx. by rewrite (proj2 (node_owner false s Hok d (-1) d Hr Hn)) in Hx.
  - by apply (node_owner false s Hok d (-1) d Hr Hn).
  - intros x. unfold released, private_low, private_high. split; [intros [?| ->]; [by right|left; by exists (-1)]|].
    intros [[q Hq]|?]; [right|by left]. unfold node_of in Hq. cbn [andb] in Hq. destruct (q =? -1); congruence.
Qed.
End Legacy.

(** ** Pointer tables *)
Section Pae.
Context (s : paging) (d : Z).
Hypothesis Hok : paging_ok true s.
Hypothesis Hd : d ∈ space_list true s.

Lemma pae_private_same s' : words s' = words s -> keeps s s' ->
  (forall q, pae_private_directory s' d q = pae_private_directory s d q) /\
  (forall q dd k, pae_private_table s' q dd k = pae_private_table s q dd k).
Proof using.
  intros Hw (Hk & _). unfold config in Hk. injection Hk as.
  assert (forall f k, pae_entry_value s' f k = pae_entry_value s f k) as Hv by (intros; by rewrite !pae_entry_value_get, Hw).
  assert (forall f k, pae_entry_present s' f k = pae_entry_present s f k) as Hp by (intros; unfold pae_entry_present; by rewrite Hv).
  assert (forall f k, pae_entry_physical s' f k = pae_entry_physical s f k) as Hph by (intros; by rewrite !pae_physical, Hw).
  assert (forall f k, pae_page_directory_for s' f k = pae_page_directory_for s f k) as Hpd
    by (intros; unfold pae_page_directory_for; by rewrite Hp, Hph).
  unfold pae_private_directory, pae_private_table. split; intros; rewrite ?Hp, ?Hph, ?Hpd;
    repeat match goal with H : _ s' = _ s |- _ => rewrite H; clear H end; by rewrite ?Hp, ?Hph, ?Hpd.
Qed.

Lemma node_physical r q x : r ∈ roots true s -> q <> -1 -> node_of true (words s) r q = Some x -> pae_entry_physical s r q = x.
Proof using Hok.
  intros Hr Hq Hn. destruct (node_owner true s Hok r q x Hr Hn) as [Hlow _]. apply low_page_u32 in Hlow as (Hu & _).
  unfold node_of in Hn. replace (q =? -1) with false in Hn by lia. case_if; [|done]. injection Hn as Hn.
  rewrite pae_physical, frame_of_hw. cbn [get]. rewrite Hn. by apply u32_id.
Qed.

Lemma pae_private_node q : 0 <= q < 4 -> pae_private_directory s d q = node_of true (words s) d q.
Proof using Hok Hd.
  intros Hq. assert (d ∈ roots true s) as Hr by (by right). destruct (pae_pointers s Hok) as (_ & Hk & _ & Hkp).
  unfold pae_private_directory. rewrite Hk, Hkp, !pae_directory by (done || apply kernel_in).
  destruct (node_of true (words s) d q) as [x|] eqn:E; [|done].
  destruct (node_owner true s Hok d q x Hr E) as [Hlow _]. replace (x =? 0) with false by (unfold low_page in Hlow; lia).
  rewrite (node_physical d q x Hr ltac:(lia) E). cbn [orb].
  destruct (node_of true (words s) (kernel_root true s) q) as [y|] eqn:Ek; [|done].
  rewrite (node_physical _ q y (kernel_in true s) ltac:(lia) Ek).
  destruct (Z.eqb_spec x y) as [<-|]; [|by rewrite andb_false_r]. exfalso.
  destruct (forest_node_inj _ _ _ _ _ _ (ok_forest true s Hok) d q (kernel_root true s) q x Hr (kernel_in true s) E Ek) as [HdK _].
  pose proof (forest_roots _ _ _ _ _ _ (ok_forest true s Hok)) as [Hn _]%list.NoDup_cons. by rewrite HdK in Hd.
Qed.

Lemma private_index q k : 0 <= k < 512 -> (q * 512 + k) / 512 = q /\ (q * 512 + k) mod 512 = k.
Proof using. intros Hk. dmlia. Qed.

Lemma pae_private_at q dd k : 0 <= q < 4 -> 0 <= k < 512 -> node_of true (words s) d q = Some dd ->
  pae_private_table s q dd k = private_at true s d (q * 512 + k).
Proof using Hok.
  intros Hq Hk Hn. destruct (private_index q k Hk) as [E1 E2]. unfold private_at, pde_of, slot. rewrite E1, E2, Hn.
  unfold pae_private_table. destruct (pae_pointers s Hok) as (_ & _ & _ & Hkp).
  rewrite Hkp, pae_directory by (done || apply kernel_in). unfold pae_entry_present, PAE_PRESENT.
  rewrite !pae_entry_value_get, !pae_physical. destruct (node_of true (words s) (kernel_root true s) q) as [y|] eqn:Ek.
  - rewrite private_raw. destruct (node_owner true s Hok _ q y (kernel_in true s) Ek) as [Hlow _].
    replace (y =? 0) with false by (unfold low_page in Hlow; lia). cbn [negb andb].
    by destruct (flag (get true (words s) dd k) 1).
  - refine (eq_trans _ (eq_sym (private_raw (get true (words s) dd k) 0))). cbn. by destruct (flag (entry64 (words s) dd k) 1).
Qed.

Lemma pae_checked q dd k t : pae_preflight s d = true -> 0 <= q < 4 -> 0 <= k < 512 ->
  node_of true (words s) d q = Some dd -> private_at true s d (q * 512 + k) = Some t -> checked_table true s d (q * 512 + k) t.
Proof using Hok Hd.
  intros Hpre Hq Hk Hn Hp. unfold pae_preflight in Hpre. rewrite all_range_true in Hpre. specialize (Hpre q Hq). cbv beta in Hpre.
  rewrite pae_private_node, Hn, all_range_true in Hpre by done. specialize (Hpre k Hk). cbv beta in Hpre.
  rewrite (pae_private_at q dd k), Hp in Hpre by done. apply andb_true_iff in Hpre as [_ Hall].
  rewrite all_range_true in Hall. apply private_at_spec in Hp as [Hl Hns]; [|unfold dir_index, directories; lia].
  split; [done|]. split; [done|]. intros j Hj Hpr. rewrite (linked_pte true s d _ t j Hl) in *.
  rewrite present_norm in Hpr. rewrite norm_present by done. specialize (Hall j Hj). unfold pae_entry_present in Hall.
  rewrite pae_entry_value_get, pae_physical in Hall. unfold present in Hpr. unfold PAE_PRESENT in Hall. rewrite Hpr in Hall.
  cbn [negb orb] in Hall. apply andb_true_iff in Hall as [Hu Hm].
  apply block_mapped_user; [apply Hok|apply frame_of_u32|done|done].
Qed.

(** The directories below [n]. *)
Definition nodes_below (n x : Z) : Prop := exists q, 0 <= q < n /\ node_of true (words s) d q = Some x.

Lemma pae_free_directory_ok n dd x : pae_preflight s d = true -> 0 <= n < 4 -> node_of true (words s) d n = Some dd ->
  freeing s (fun y => nodes_below n y \/ private_done true s d 0 (n * 512) y) x ->
  freeing s (fun y => nodes_below (n + 1) y \/ private_done true s d 0 ((n + 1) * 512) y) (pae_free_directory n dd x).
Proof using Hok Hd.
  intros Hpre Hn Hdd Hf. assert (d ∈ roots true s) as Hr by (by right). unfold pae_free_directory.
  assert (freeing s (fun y => nodes_below n y \/ private_done true s d 0 (n * 512 + 512) y)
    (for_loop 0 512 (fun k s => match pae_private_table s n dd k with None => s | Some table => pae_free_table table s end) x)) as Hloop.
  { apply (for_loop_inv (fun k x => freeing s (fun y => nodes_below n y \/ private_done true s d 0 (n * 512 + k) y) x)).
    - lia.
    - by rewrite Z.add_0_r.
    - intros k y Hk Hy. cbv beta. rewrite (proj2 (pae_private_same y (fr_words _ _ _ Hy) (fr_keeps _ _ _ Hy))).
      rewrite pae_private_at by done. rewrite Z.add_assoc.
      destruct (private_at true s d (n * 512 + k)) as [t|] eqn:E; [|by apply skip_private_ok].
      apply (free_private_ok true s d Hok Hr (nodes_below n) 0 (n * 512 + k) t y); try done; try lia.
      + unfold dir_index, directories. lia.
      + by eapply pae_checked.
      + intros z (q & _ & ?). by exists q.
      + intros j z. unfold pae_entry_present, PAE_PRESENT, PAE_USER. by rewrite !pae_entry_value_get, pae_physical. }
  unfold PAE_TABLE_ENTRIES. revert Hloop.
  generalize (for_loop 0 512 (fun k s => match pae_private_table s n dd k with None => s | Some table => pae_free_table table s end) x) as s2.
  intros s2 Hloop. destruct (node_owner true s Hok d n dd Hr Hdd) as [Hlow Ho]. pose proof (low_page_u32 dd Hlow) as (Hu & Hal & _).
  eapply freeing_iff; [apply (freeing_kernel s _ s2 dd Hloop Hu Hal); [|done]|].
  - intros [(q & Hq & Hqd)|(i & t & Hi & Hp & [->|Hx])].
    + destruct (forest_node_inj _ _ _ _ _ _ (ok_forest true s Hok) d n d q dd Hr Hr Hdd Hqd) as [_ ?]. lia.
    + destruct (private_table_owner true s d Hok Hr i t) as (_ & _ & Hnt); [unfold dir_index, directories; lia|done|].
      by apply (Hnt d n).
    + apply (private_owner true s d Hok Hr) in Hx. by rewrite Ho in Hx.
  - intros y. replace ((n + 1) * 512) with (n * 512 + 512) by lia. split.
    + intros [[(q & Hq & ?)|?]| ->]; [left; exists q; split; [lia|done]|by right|left; exists n; split; [lia|done]].
    + intros [(q & Hq & Hqd)|?]; [|by left; right]. destruct (decide (q = n)) as [->|]; [right; congruence|].
      left. left. exists q. split; [lia|done].
Qed.

Lemma pae_free_loop : pae_preflight s d = true ->
  freeing s (fun y => nodes_below 4 y \/ private_done true s d 0 2048 y)
    (for_loop 0 4 (fun index s => match pae_private_directory s d index with None => s | Some dd => pae_free_directory index dd s end) s).
Proof using Hok Hd.
  intros Hpre. apply (for_loop_inv (fun n x => freeing s (fun y => nodes_below n y \/ private_done true s d 0 (n * 512) y) x)).
  - lia.
  - eapply freeing_iff; [apply freeing_start, Hok|]. intros x. split; [done|]. intros [(q & Hq & _)|(i & t & Hi & _)]; lia.
  - intros n x Hn Hx. cbv beta. rewrite (proj1 (pae_private_same x (fr_words _ _ _ Hx) (fr_keeps _ _ _ Hx))).
    rewrite pae_private_node by done. destruct (node_of true (words s) d n) as [dd|] eqn:E; [by apply pae_free_directory_ok|].
    eapply freeing_iff; [exact Hx|]. intros y. split.
    + intros [(q & Hq & ?)|(i & t & Hi & ?)]; [left; exists q; split; [lia|done]|right; exists i, t; split; [lia|done]].
    + intros [(q & Hq & Hqd)|(i & t & Hi & Hp & ?)].
      * left. exists q. destruct (decide (q = n)) as [->|]; [congruence|]. split; [lia|done].
      * right. exists i, t. split; [|done]. destruct (decide (i / 512 = n)) as [Hin|]; [|dmlia]. exfalso.
        unfold private_at, pde_of, slot in Hp. by rewrite Hin, E in Hp.
Qed.

Lemma pae_destroy_loop_ok ok s' : d <> current_root true s -> pae_preflight s d = true ->
  (let s := for_loop 0 4 (fun index s => match pae_private_directory s d index with None => s | Some dd => pae_free_directory index dd s end) s in
   let s := free_frame d s in (true, pae_forget d s)) = (ok, s') -> destroyed true s d ok s'.
Proof using Hok Hd.
  intros Hcur Hpre. pose proof (pae_free_loop Hpre) as Hf. revert Hf.
  generalize (for_loop 0 4 (fun index s => match pae_private_directory s d index with None => s | Some dd => pae_free_directory index dd s end) s) as s2.
  intros s2 Hf [<- <-]%pair_equal_spec. assert (d ∈ roots true s) as Hr by (by right).
  apply (drop_ok true s d Hok Hd (free_frame d s2) Hcur). pose proof (root_page true s Hok d Hr) as Hlow.
  pose proof (low_page_u32 d Hlow) as (Hu & Hal & _). assert (node_of true (words s) d (-1) = Some d) as Hn by done.
  eapply freeing_iff; [apply (freeing_kernel s _ s2 d Hf Hu Hal)|].
  - intros [(q & Hq & Hqd)|(i & t & Hi & Hp & [->|Hx])].
    + destruct (forest_node_inj _ _ _ _ _ _ (ok_forest true s Hok) d (-1) d q d Hr Hr Hn Hqd) as [_ ?]. lia.
    + destruct (private_table_owner true s t Hok Hr i t) as (_ & _ & Hnt); [unfold dir_index, directories; lia|done|].
      by apply (Hnt t (-1)).
    + apply (private_owner true s d Hok Hr) in Hx. by rewrite (proj2 (node_owner true s Hok d (-1) d Hr Hn)) in Hx.
  - by apply (node_owner true s Hok d (-1) d Hr Hn).
  - intros x. unfold released, private_low, private_high. split.
    + intros [[(q & _ & ?)|?]| ->]; [left; by exists q|by right|left; by exists (-1)].
    + intros [[q Hq]|?]; [|by left; right]. destruct (decide (q = -1)) as [->|Hne]; [right; congruence|].
      left. left. exists q. split; [|done]. unfold node_of in Hq. replace (q =? -1) with false in Hq by lia.
      cbn [andb] in Hq. case_if; [|done]. lia.
Qed.
End Pae.

(** The guard of the call. *)
Lemma destroy_guard wide s d K C valid : paging_ok wide s -> K = kernel_root wide s -> C = current_root wide s ->
  (valid = true <-> d ∈ roots wide s) -> (d =? 0) || (d =? K) || (d =? C) || negb valid = false ->
  d ∈ space_list wide s /\ d <> current_root wide s.
Proof.
  intros Hok -> -> Hv Hg. apply orb_false_iff in Hg as [Hg H]. apply negb_false_iff, Hv in H.
  apply elem_of_cons in H as [->|H]; [lia|]. split; [done|lia].
Qed.

Lemma destroy_ok wide s d ok s' : paging_ok wide s -> paging_destroy_address_space d s = (ok, s') -> destroyed wide s d ok s'.
Proof.
  intros Hok. assert (destroyed wide s d false s) as Href by (by split). pose proof (registered_spec wide s d Hok) as Hreg.
  unfold paging_destroy_address_space. unfold paging_address_space_is_valid in Hreg. rewrite (proj1 (ok_mode _ _ Hok)) in Hreg |- *.
  destruct wide.
  - unfold pae_destroy_address_space. destruct (_ || _ || _ || _) eqn:Eg; [intros [= <- <-]; done|].
    destruct (destroy_guard true s d _ _ _ Hok eq_refl eq_refl Hreg Eg) as [Hd Hc].
    destruct (pae_preflight s d) eqn:Hpre; cbn [negb]; [|intros [= <- <-]; done].
    by apply pae_destroy_loop_ok.
  - unfold legacy_destroy_address_space. unfold paging_address_space_is_valid. rewrite (proj1 (ok_mode _ _ Hok)).
    destruct (_ || _ || _ || _) eqn:Eg; [intros [= <- <-]; done|].
    destruct (destroy_guard false s d _ _ _ Hok eq_refl eq_refl Hreg Eg) as [Hd Hc].
    destruct (preflight s d) eqn:Hpre; cbn [negb]; [|intros [= <- <-]; done].
    by apply legacy_destroy_ok.
Qed.
