(* ===== verification/PagingHw.v ===== *)
(** * What the processor sees

    The translation of the processor in a state that satisfies the invariant is the page-table entry
    of the current space: the directory entries on the way take nothing away. With pointer tables
    the processor walks from the four pointer entries it keeps in registers, which it loads with
    [cr3] and which a change of the pointer table in memory leaves alone. The translation is that of
    the current space when the registers name the page directories in memory ([coherent]), and it is
    part of it when they name no other ones ([unstale]). *)

From S2P Require Import Prelude Pmm PmmSpec PagingState PagingPae Paging PagingEntry PagingForest PagingView PagingInv PagingOps.
Local Open Scope c_scope.
Local Open Scope Z_scope.

(** The page directory of a gigabyte that the processor uses. *)
Definition loaded_directory (s : paging) (q : Z) : option Z :=
  let p := arr (pdptes (registers s)) q in if flag p 1 then Some (hw_frame p) else None.

Definition coherent (wide : bool) (s : paging) : Prop :=
  wide = true -> forall q, 0 <= q < 4 -> loaded_directory s q = node_of wide (words s) (current_root wide s) q.

Definition unstale (wide : bool) (s : paging) : Prop :=
  wide = true -> forall q d, 0 <= q < 4 -> loaded_directory s q = Some d -> node_of wide (words s) (current_root wide s) q = Some d.

Lemma coherent_unstale wide s : coherent wide s -> unstale wide s.
Proof. intros H Hw q d Hq <-. symmetry. by apply H. Qed.

(** The entry of the current space for an address. *)
Definition leaf_entry (wide : bool) (s : paging) (va : Z) : Z :=
  pte_of wide (words s) (current_root wide s) (dir_of wide va) (leaf_of wide va).

Definition entry_translation (v : Z) : option translation :=
  if flag v 1 then Some (Build_translation (frame_of v) (flag v 2) (flag v 4)) else None.

(** Registers loaded from a pointer table name its directories. *)
Lemma loaded_node s m r q : pdptes (registers s) = entry64 m r <$> seqZ 0 4 -> 0 <= q < 4 -> loaded_directory s q = node_of true m r q.
Proof.
  intros E Hq. unfold loaded_directory. rewrite E, (arr_lookup _ _ (entry64 m r q)).
  2: { rewrite list_lookup_fmap, lookup_seqZ_lt by lia. cbn. do 2 f_equal. lia. }
  unfold node_of. replace (q =? -1) with false by lia. by replace (true && (0 <=? q) && (q <? 4)) with true by lia.
Qed.

Lemma load_cr3_coherent wide s : flag (cr4 (registers s)) CR4_PAE = wide -> coherent wide (load_cr3 (current_root wide s) s).
Proof. intros H -> q Hq. apply loaded_node; [|done]. unfold load_cr3. cbn. by rewrite H. Qed.

Lemma node_get wide m m' r q : (wide = true -> get wide m' r q = get wide m r q) -> node_of wide m' r q = node_of wide m r q.
Proof. unfold node_of. destruct wide; [by intros ->|done]. Qed.

Section Walk.
Context (wide : bool) (s : paging).
Hypothesis Hok : paging_ok wide s.
#[local] Notation cur := (current_root wide s).

Lemma pde_narrow i : dir_index wide i -> present (pde_of wide (words s) cur i) -> narrow (pde_of wide (words s) cur i).
Proof using Hok.
  intros Hi Hp. by destruct (forest_link _ _ _ _ _ _ (ok_forest wide s Hok) cur i (frame_of (pde_of wide (words s) cur i))
    (ok_current _ _ Hok)) as (_ & _ & _ & Hn & _).
Qed.

(** The directory entry allows what the page's entry allows. *)
Lemma pde_permits i j : dir_index wide i -> table_index wide j -> present (pte_of wide (words s) cur i j) ->
  let v := pte_of wide (words s) cur i j in let e := pde_of wide (words s) cur i in
  present e /\ flag e 2 && flag v 2 = flag v 2 /\ flag e 4 && flag v 4 = flag v 4 /\ leaf_policy (paging_pae_nx_enabled s) v.
Proof using Hok.
  intros Hi Hj Hp. pose proof (ok_forest wide s Hok) as HF. pose proof (ok_current _ _ Hok) as Hcur.
  destruct (forest_leaf _ _ _ _ _ _ HF cur i j Hcur Hi Hj Hp) as [Hpd Hlf]. cbv zeta.
  destruct (forest_link _ _ _ _ _ _ HF cur i (frame_of (pde_of wide (words s) cur i)) Hcur) as (_ & _ & H2 & Hn & _); [done|].
  cbn in H2, Hn. rewrite H2. do 2 (split; [done|]). split; [|done].
  destruct (flag (pte_of wide (words s) cur i j) 4) eqn:E4; [|apply andb_false_r].
  destruct (forest_user _ _ _ _ _ _ HF cur i j Hcur) as (H4 & _); [done|]. cbn in H4. by rewrite H4.
Qed.
End Walk.

Lemma walk32_spec s va : paging_ok false s -> is_u32 va ->
  walk32 (words s) (current_root false s) va = entry_translation (leaf_entry false s va).
Proof.
  intros Hok Hva. destruct (va_index false va Hva) as (Hi & Hj & _). unfold entry_translation.
  pose proof (pde_permits false s Hok _ _ Hi Hj) as Hpp. cbv zeta in Hpp. fold (leaf_entry false s va) in Hpp.
  unfold walk32, leaf_entry, pte_of in *. rewrite legacy_pde in *. unfold entry_at in *.
  set (e := peek (words s) (current_root false s) (Z.shiftr va 22)) in *. rewrite <- frame_of_land64.
  destruct (flag e 1) eqn:E1; cbn [negb]; [|unfold norm; by rewrite E1].
  rewrite (norm_present e E1), E1 in *. change (Z.land (Z.shiftr va 12) 1023) with (leaf_of false va).
  cbn [get] in *. set (v := peek (words s) (frame_of e) (leaf_of false va)) in *.
  destruct (flag v 1) eqn:Ev; cbn [negb]; [|unfold norm; by rewrite Ev]. rewrite (norm_present v Ev), Ev in *.
  destruct (Hpp Ev) as (_ & H2 & H4 & _). by rewrite H2, H4, <- frame_of_land64.
Qed.

(** With the bit tested for a fetch, a page without the executable flag has no translation. *)
Lemma walk64_loaded s fetch va : paging_ok true s -> is_u32 va ->
  loaded_directory s (Z.shiftr va 30) = node_of true (words s) (current_root true s) (Z.shiftr va 30) ->
  walk64 (words s) (pdptes (registers s)) fetch va =
  let v := leaf_entry true s va in
  if fetch && flag v 1 && (flag (pde_of true (words s) (current_root true s) (dir_of true va)) PAE_NX || flag v PAE_NX)
  then None else entry_translation v.
Proof.
  intros Hok Hva Hld. destruct (va_index true va Hva) as (Hi & Hj & _). destruct (pae_indices va Hva) as (Hq & Hk & Hr).
  pose proof (pde_narrow true s Hok _ Hi) as Hnr. pose proof (pde_permits true s Hok _ _ Hi Hj) as Hpp. cbv zeta in Hpp |- *. fold (leaf_entry true s va) in Hpp.
  unfold walk64, entry_translation. unfold leaf_entry, pte_of in *. rewrite (pae_pde s _ va Hva) in *. rewrite <- Hld in *.
  unfold loaded_directory in *. set (p := arr (pdptes (registers s)) (Z.shiftr va 30)) in *. cbv zeta in *.
  destruct (flag p 1) eqn:Ep; cbn [negb]; [|by rewrite andb_false_r].
  change (Z.land p PAE_ADDRESS_MASK) with (hw_frame p). cbn [get] in *.
  set (e := entry64 (words s) (hw_frame p) (Z.land (Z.shiftr va 21) 511)) in *.
  destruct (flag e 1) eqn:E1; cbn [negb]; [|unfold norm; rewrite E1; by rewrite andb_false_r].
  rewrite (norm_present e E1), E1 in *. change (Z.land (Z.shiftr va 12) 511) with (leaf_of true va) in *.
  change (Z.land e PAE_ADDRESS_MASK) with (hw_frame e). rewrite (hw_frame_narrow e (Hnr E1)) in *.
  set (v := entry64 (words s) (frame_of e) (leaf_of true va)) in *.
  destruct (flag v 1) eqn:Ev; cbn [negb orb]; [|unfold norm; rewrite Ev; by rewrite andb_false_r].
  rewrite (norm_present v Ev), Ev in *. rewrite andb_true_r. destruct (fetch && (flag e PAE_NX || flag v PAE_NX)); [done|].
  destruct (Hpp Ev) as (_ & H2 & H4 & Hlf & _). change (Z.land v PAE_ADDRESS_MASK) with (hw_frame v).
  by rewrite H2, H4, (hw_frame_narrow v Hlf).
Qed.

Lemma walk64_spec s fetch va : paging_ok true s -> coherent true s -> is_u32 va ->
  walk64 (words s) (pdptes (registers s)) fetch va =
  let v := leaf_entry true s va in
  if fetch && flag v 1 && (flag (pde_of true (words s) (current_root true s) (dir_of true va)) PAE_NX || flag v PAE_NX)
  then None else entry_translation v.
Proof. intros Hok Hco Hva. apply walk64_loaded; [done..|]. apply Hco; [done|]. by destruct (pae_indices va Hva) as (_ & _ & ?). Qed.

(** A gigabyte without a page directory in the registers is not translated. *)
Lemma walk64_absent s fetch va : loaded_directory s (Z.shiftr va 30) = None -> walk64 (words s) (pdptes (registers s)) fetch va = None.
Proof. unfold loaded_directory, walk64. cbv zeta. by destruct (flag (arr (pdptes (registers s)) (Z.shiftr va 30)) 1). Qed.

(** The processor uses the current space, through the tables of the invariant. *)
Lemma translate_spec wide s va : paging_ok wide s -> paging_enabled s = true -> coherent wide s -> is_u32 va ->
  translate s va = entry_translation (leaf_entry wide s va).
Proof.
  intros Hok Hen Hco Hva. destruct (ok_hardware _ _ Hok Hen) as (H3 & H0 & _ & H4 & _). unfold translate.
  rewrite H0, H4. cbn [negb]. destruct wide.
  - rewrite (walk64_spec s false va Hok Hco Hva). done.
  - rewrite H3. pose proof (root_page false s Hok _ (ok_current _ _ Hok)) as Hlow. apply low_page_u32 in Hlow as (Hu & Hal & _).
    rewrite frame_of_land by done. rewrite frame_of_page by done. by apply walk32_spec.
Qed.

(** With registers that name no other directory, a translation is that of the current space. *)
Lemma translate_unstale wide s va t : paging_ok wide s -> paging_enabled s = true -> unstale wide s -> is_u32 va ->
  translate s va = Some t -> entry_translation (leaf_entry wide s va) = Some t.
Proof.
  intros Hok Hen Hun Hva. destruct wide.
  - destruct (ok_hardware _ _ Hok Hen) as (_ & H0 & _ & H4 & _). unfold translate. rewrite H0, H4. cbn [negb].
    destruct (pae_indices va Hva) as (_ & _ & Hr). destruct (loaded_directory s (Z.shiftr va 30)) as [d|] eqn:El; [|by rewrite walk64_absent].
    rewrite (walk64_loaded s false va Hok Hva); [done|]. by rewrite El, (Hun eq_refl _ d Hr El).
  - by rewrite (translate_spec false s va Hok Hen) by done.
Qed.

(** No page is writable and, where the processor can tell, executable. *)
Lemma fetch_denied s va t : paging_ok true s -> paging_enabled s = true -> unstale true s -> is_u32 va ->
  paging_pae_nx_enabled s = true -> translate s va = Some t -> t_write t = true -> translate_fetch s va = None.
Proof.
  intros Hok Hen Hun Hva Hnx Ht Hw. pose proof (translate_unstale true s va t Hok Hen Hun Hva Ht) as He.
  destruct (ok_hardware _ _ Hok Hen) as (_ & H0 & _ & H4 & Hn). destruct (pae_indices va Hva) as (_ & _ & Hr).
  unfold translate_fetch. rewrite H0, H4, (Hn Hnx). cbn [negb].
  destruct (loaded_directory s (Z.shiftr va 30)) as [d|] eqn:El; [|by rewrite walk64_absent].
  rewrite (walk64_loaded s true va Hok Hva) by (by rewrite El, (Hun eq_refl _ d Hr El)). cbv zeta. unfold entry_translation in *.
  destruct (va_index true va Hva) as (Hi & Hj & _). destruct (flag (leaf_entry true s va) 1) eqn:E1; [|done]. injection He as <-. cbn in Hw.
  destruct (pde_permits true s Hok _ _ Hi Hj E1) as (_ & _ & _ & _ & _ & Hwx & Hpol).
  fold (leaf_entry true s va) in Hwx, Hpol. rewrite (Hpol Hnx), (Hwx Hw). by rewrite orb_true_r.
Qed.
