(* ===== verification/PagingDangling.v ===== *)
(** * Unmapping a page of a shared kernel table

    [paging_unmap_page] in the kernel's space gives back the table of the last page in it, without
    asking whether other spaces link it. Where one does, its directory keeps the entry of a frame
    that is free: the case that [unmap_safe] excludes. *)

From S2P Require Import Prelude Pmm PmmSpec PagingState PagingPae Paging PagingEntry PagingForest PagingView PagingInv PagingOps PagingMap PagingProtect PagingUnmap PagingHw.
Local Open Scope c_scope.
Local Open Scope Z_scope.

(** A space links a table whose frame is free. *)
Definition dangling (wide : bool) (s : paging) (r i : Z) : Prop :=
  exists t, linked wide (view_of wide (words s)) r i t /\ owner_at s t = Free.

Section Dangling.
Context (wide : bool) (s : paging) (i t f k r : Z).
Hypothesis Hok : paging_ok wide s.
Hypothesis Hl : linked wide (view_of wide (words s)) (current_root wide s) i t.
Hypothesis Hs : slot wide (words s) (current_root wide s) i = Some (f, k).
Hypothesis Hr : r ∈ roots wide s.
Hypothesis Hne : r <> current_root wide s.
Hypothesis Hlr : linked wide (view_of wide (words s)) r i t.
#[local] Notation cur := (current_root wide s).

Definition unlinked : paging := free_frame t (flush_tlb (write_entry wide f k 0 s)).

Lemma unlinked_words : words unlinked = put wide (words s) f k 0.
Proof using. unfold unlinked, flush_tlb. cbn. by destruct (paging_enabled s). Qed.

Lemma unlinked_owners : pmm_wf (page_frames unlinked) /\ own_eq (own_set (owner_at s) t Free) (owner_at unlinked).
Proof using Hok Hl.
  destruct (forest_link _ _ _ _ _ _ (ok_forest wide s Hok) cur i t (ok_current _ _ Hok) Hl) as (Hlow & Hk & _).
  apply low_page_u32 in Hlow as (H1 & H2 & _). set (s1 := flush_tlb (write_entry wide f k 0 s)).
  assert (page_frames s1 = page_frames s) as Hf by (unfold s1, flush_tlb; by destruct (paging_enabled _)).
  destruct (free_frame_spec s1 t) as [Hwf Hown]; [by rewrite Hf; apply Hok|done|done|left; unfold owner_at in *; by rewrite Hf|].
  split; [done|]. unfold owner_at in Hown at 1. rewrite Hf in Hown. exact Hown.
Qed.

(** The other space's directory entry stays, and the directories of all spaces. *)
Lemma unlinked_other : linked wide (view_of wide (words unlinked)) r i t /\
  forall x q, x ∈ roots wide s -> node_of wide (words unlinked) x q = node_of wide (words s) x q.
Proof using All.
  pose proof (proj1 Hl) as Hi. rewrite unlinked_words.
  destruct (view_write_pde wide _ _ _ _ (words s) (proj1 (ok_spaces _ _ Hok)) (ok_forest wide s Hok) cur i f k 0
    (ok_current _ _ Hok) Hi Hs (zero_ok wide) ltac:(done)) as (Hn & _ & Hd & _).
  split; [|done]. unfold linked. cbn [pde view_of]. rewrite Hd by (done || naive_solver). exact Hlr.
Qed.

Lemma unlinked_dangling : dangling wide unlinked r i.
Proof using All.
  exists t. split; [apply unlinked_other|]. destruct (forest_link _ _ _ _ _ _ (ok_forest wide s Hok) cur i t (ok_current _ _ Hok) Hl) as (Hlow & _).
  apply low_page_u32 in Hlow as (H1 & H2 & _). destruct unlinked_owners as [_ Ho]. rewrite Ho by done. unfold own_set. by rewrite decide_True.
Qed.

(** Giving back the page directory as well changes nothing for the other space. *)
Lemma dropped_dangling q : wide = true -> 0 <= q < 4 -> node_of wide (words s) cur q = Some f ->
  dangling wide (free_frame f (write_entry wide cur q 0 unlinked)) r i.
Proof using All.
  intros Hw Hq Hn. pose proof (ok_forest wide s Hok) as HF. pose proof (ok_current _ _ Hok) as Hcur.
  destruct (forest_node _ _ _ _ _ _ HF cur q f Hcur Hn) as [Hlow Hk]. apply low_page_u32 in Hlow as (F1 & F2 & _).
  destruct (forest_link _ _ _ _ _ _ HF cur i t Hcur Hl) as (Htl & _ & _ & _ & Hno). apply low_page_u32 in Htl as (T1 & T2 & _).
  assert (f <> t) as Hft by (intros ->; by apply (Hno cur q Hcur)).
  destruct unlinked_owners as [Hwf Hown]. destruct unlinked_other as [Hl2 Hnodes]. set (s2 := write_entry wide cur q 0 unlinked).
  destruct (free_frame_spec s2 f Hwf F1 F2) as [_ Hown2].
  { left. change (owner_at s2 f) with (owner_at unlinked f). rewrite Hown by done. unfold own_set. by rewrite decide_False. }
  exists t. split.
  - change (words (free_frame f s2)) with (put wide (words unlinked) cur q 0). destruct Hl2 as (Hi & Hp & Hf2). split; [done|].
    cbn [pde view_of] in *. enough (pde_of wide (put wide (words unlinked) cur q 0) r i = pde_of wide (words unlinked) r i) as -> by done.
    assert (tables_ok (words unlinked)) as Htab by (rewrite unlinked_words; apply put_tables_ok; [apply Hok|apply zero_ok]).
    assert (forall g n, 0 <= n < entries wide -> g <> cur -> get wide (put wide (words unlinked) cur q 0) g n = get wide (words unlinked) g n) as Hg.
    { intros g n Hgn Hgc. rewrite get_put; [|done|rewrite Hw; cbn; lia|done|apply zero_ok]. rewrite decide_False; [done|]. by intros [? _]. }
    unfold pde_of. rewrite !(slot_wide wide _ _ _ Hw).
    assert (node_of wide (put wide (words unlinked) cur q 0) r (i / 512) = node_of wide (words unlinked) r (i / 512)) as ->.
    { apply node_get. intros _. apply Hg; [|done]. unfold dir_index, directories in Hi. rewrite Hw in *. cbn. dmlia. }
    rewrite Hnodes by done. destruct (node_of wide (words s) r (i / 512)) as [d|] eqn:Ed; [|done]. rewrite Hg; [done| |].
    + rewrite Hw. cbn. dmlia.
    + intros ->. destruct (forest_node_inj _ _ _ _ _ _ HF r (i / 512) cur (-1) cur Hr Hcur Ed) as [? _]; [|done].
      by apply (forest_root _ _ _ _ _ _ HF).
  - rewrite Hown2 by done. unfold own_set at 1. rewrite decide_False by done. change (owner_at s2 t) with (owner_at unlinked t).
    rewrite Hown by done. unfold own_set. by rewrite decide_True.
Qed.
End Dangling.

(** The call. *)
Lemma unmap_dangles wide s va pa s' r : paging_ok wide s -> is_u32 va -> paging_unmap_page va s = (pa, s') -> pa <> 0 ->
  current_root wide s = kernel_root wide s ->
  (forall j, table_index wide j -> j <> leaf_of wide va -> ~ present (pte_of wide (words s) (kernel_root wide s) (dir_of wide va) j)) ->
  r ∈ roots wide s -> r <> kernel_root wide s -> sees wide s r (kernel_root wide s) (dir_of wide va) ->
  dangling wide s' r (dir_of wide va).
Proof.
  intros Hok Hva E Hpa Hck Hlast Hr Hrk (t' & Hlr & Hlk). rewrite <- Hck in *. destruct (va_index wide va Hva) as (Hi & Hj & _).
  destruct (unmap_path wide s va pa s' Hok Hva E) as [[? _]|(t & [Hl Hp Hsh Hlow Hpos] & _ & Hend)]; [done|]. cbv zeta in *.
  set (i := dir_of wide va) in *. set (j := leaf_of wide va) in *. pose proof (ok_current _ _ Hok) as Hcur.
  rewrite (linked_eq _ _ _ _ _ _ Hlk Hl) in Hlr. clear Hlk.
  pose proof (unmapped_ok _ _ _ _ _ _ (cleared_unmapped wide s i j t Hok Hj Hl Hp Hsh Hlow Hpos)) as Hok1.
  destruct (config_fields wide _ _ (cleared_config wide s j t)) as (EK & EC & EL & _).
  destruct (cleared_linked wide s i j t Hok Hj Hl _ Hcur) as [Hk1 _]. destruct (cleared_linked wide s i j t Hok Hj Hl r Hr) as [Hk2 _].
  apply Hk1 in Hl as Hl1. apply Hk2 in Hlr as Hlr1. rewrite <- EC in Hl1.
  assert (table_is_empty wide (cleared wide s j t) t = true) as He.
  { apply table_is_empty_spec. intros k Hk. rewrite cleared_words. pose proof (ok_spaces _ _ Hok) as Hsp.
    rewrite get_put by (done || apply Hsp || apply zero_ok). case_decide as Ek; [done|].
    intros Hpk. apply (Hlast k Hk ltac:(naive_solver)). rewrite (linked_pte wide s _ _ _ _ Hl). by rewrite (norm_present _ Hpk). }
  set (s1 := cleared wide s j t) in *. assert (r ∈ roots wide s1) as Hr1 by (unfold roots; by rewrite EK, EL).
  destruct Hend as [[? _]|(_ & f & k & Hs & Hs')]; [congruence|]. rewrite <- EC in Hrk.
  destruct Hs' as [->|(Hw & Hn & _ & ->)].
  - by apply (unlinked_dangling wide s1 i t f k r).
  - apply (dropped_dangling wide s1 i t f k r); try done. unfold dir_index, directories in Hi. rewrite Hw in Hi. dmlia.
Qed.
