(* ===== verification/PagingLoaded.v ===== *)
(** * The pointer registers

    With pointer tables the processor keeps the four pointer entries of the current space in
    registers. Of the operations only entering another space loads them, and unmapping when it gives
    back a page table; a page directory that mapping adds, or that unmapping gives back afterwards,
    does not reach them. *)

From S2P Require Import Prelude Pmm PmmSpec PagingState PagingPae Paging PagingEntry PagingForest PagingView PagingInv PagingOps PagingMap PagingProtect PagingUnmap PagingSpaces PagingCreate PagingDestroy PagingHw.
Local Open Scope c_scope.
Local Open Scope Z_scope.

(** The page directories of the current space after a step: none is lost, or they are the same. *)
Definition keeps_directories (wide : bool) (s s' : paging) : Prop :=
  forall q d, 0 <= q < 4 -> node_of wide (words s) (current_root wide s) q = Some d ->
    node_of wide (words s') (current_root wide s) q = Some d.

Definition same_directories (wide : bool) (s s' : paging) : Prop :=
  forall q, 0 <= q < 4 -> node_of wide (words s') (current_root wide s) q = node_of wide (words s) (current_root wide s) q.

(** What the registers hold after a call in the same space: what they held, or what memory held. *)
Definition loads (wide : bool) (s s' : paging) : Prop :=
  current_root wide s' = current_root wide s /\
  (wide = true -> pdptes (registers s') = pdptes (registers s) \/ pdptes (registers s') = pointers_at s).

Lemma loads_registers wide s s' : current_root wide s' = current_root wide s -> registers s' = registers s -> loads wide s s'.
Proof. intros HC HR. split; [done|]. left. by rewrite HR. Qed.

Lemma loads_directory wide s s' q : loads wide s s' -> wide = true -> 0 <= q < 4 ->
  loaded_directory s' q = loaded_directory s q \/ loaded_directory s' q = node_of wide (words s) (current_root wide s) q.
Proof.
  intros [_ HL] Hw Hq. destruct (HL Hw) as [E|E]; [left; unfold loaded_directory; by rewrite E|right]. subst wide. by apply loaded_node.
Qed.

Lemma loads_unstale wide s s' : loads wide s s' -> keeps_directories wide s s' -> unstale wide s -> unstale wide s'.
Proof.
  intros HL Hk Hun Hw q d Hq El. rewrite (proj1 HL). apply Hk; [done|].
  destruct (loads_directory wide s s' q HL Hw Hq) as [E|E]; [|congruence]. apply Hun; [done..|]. congruence.
Qed.

Lemma loads_coherent wide s s' : loads wide s s' -> same_directories wide s s' -> coherent wide s -> coherent wide s'.
Proof.
  intros HL Hsame Hco Hw q Hq. rewrite (proj1 HL), Hsame by done.
  destruct (loads_directory wide s s' q HL Hw Hq) as [->|]; [by apply Hco|done].
Qed.

Lemma same_keeps_directories wide s s' : same_directories wide s s' -> keeps_directories wide s s'.
Proof. intros H q d Hq <-. by apply H. Qed.

(** ** The operations *)

Lemma mapped_loads wide i j pa flags s ok s' : mapped wide i j pa flags s ok s' -> loads wide s s' /\ keeps_directories wide s s'.
Proof.
  intros [_ Hk _ _ _ _ _ (own & Hgr & _)]. destruct (keeps_roots wide s s' Hk) as (_ & _ & EC & _). split.
  - apply loads_registers; [done|apply Hk].
  - intros q d _. apply (grown_nodes _ _ _ _ _ _ _ _ Hgr).
Qed.

Lemma protected_loads wide i j flags s ok s' : current_root wide s ∈ roots wide s -> protected wide i j flags s ok s' -> loads wide s s' /\ same_directories wide s s'.
Proof.
  intros Hcur [_ Hk _ _ _ _ (Hnd & _)]. destruct (keeps_roots wide s s' Hk) as (_ & _ & EC & _). split.
  - apply loads_registers; [done|apply Hk].
  - intros q _. by apply Hnd.
Qed.

(** Unmapping adds no directory, and frees the one it takes away. *)
Lemma unmapped_loads wide i j s pa s' : unmapped wide i j s pa s' -> loads wide s s' /\
  forall q d, node_of wide (words s) (current_root wide s) q = Some d ->
    node_of wide (words s') (current_root wide s) q = Some d \/ owner_at s' d = Free.
Proof.
  intros [_ [Hc _] Hnone _ _ _ _ Htab _ Hptr _]. destruct (config_fields wide s s' Hc) as (_ & EC & _). split; [by split|].
  intros q d Hn. destruct (decide (pa = 0)) as [E|Hne]; [left; by rewrite (Hnone E)|].
  destruct (Htab Hne) as (own & Hgr & _). exact (grown_new_node _ _ _ _ _ _ _ _ Hgr q d Hn).
Qed.

Lemma created_loads wide s d s' : paging_ok wide s -> created wide s d s' -> loads wide s s' /\ same_directories wide s s'.
Proof.
  intros Hok Hc. destruct (created_kernel _ _ _ _ Hc) as (_ & HC & _ & HR). split; [by apply loads_registers|].
  intros q Hq. apply node_get. intros ->. apply (created_words _ _ _ _ Hc); [|cbn; lia].
  destruct (forest_node _ _ _ _ _ _ (ok_forest true s Hok) _ (-1) (current_root true s) (ok_current _ _ Hok)) as [_ ->]; done.
Qed.

Lemma destroyed_loads wide s d ok s' : destroyed wide s d ok s' -> loads wide s s' /\ same_directories wide s s'.
Proof.
  intros HD. destruct (destroyed_roots _ _ _ _ _ HD) as (_ & HC & Hw & _ & HR). split; [by apply loads_registers|].
  intros q _. by rewrite Hw.
Qed.

(** Entering another space loads the registers from its pointer table. *)
Lemma switch_loads wide s d s' : paging_ok wide s -> paging_enabled s = true ->
  paging_switch_address_space d s = (true, s') -> d <> current_root wide s -> coherent wide s'.
Proof.
  intros Hok Hen. destruct (ok_hardware _ _ Hok Hen) as (_ & _ & _ & H4 & _).
  destruct wide; [|by intros _ _ ?]. unfold paging_switch_address_space, pae_switch_address_space, flush_tlb.
  rewrite (proj1 (ok_mode _ _ Hok)). case_if; [done|]. case_if; [intros _ Hne; cbn in Hne; lia|]. cbn. rewrite Hen.
  intros [= <-] _ _ q Hq. apply loaded_node; [|done]. unfold load_cr3. cbn. by rewrite H4.
Qed.

(** Entering the current space does nothing. *)
Lemma switch_same wide s ok s' : paging_ok wide s -> paging_switch_address_space (current_root wide s) s = (ok, s') -> s' = s.
Proof.
  intros Hok. unfold paging_switch_address_space, pae_switch_address_space, legacy_switch_address_space. rewrite (proj1 (ok_mode _ _ Hok)).
  destruct wide; (case_if; [by intros [= _ <-]|]); (case_if; [by intros [= _ <-]|]); cbn [current_root] in *; lia.
Qed.
