(* ===== verification/PagingInit.v ===== *)
(** * Initialisation

    [paging_init] builds the kernel's address space, maps the framebuffer, write-protects the kernel
    image and turns paging on. From the state after boot it ends in the invariant, with exactly the
    intended translation of every address. *)

From S2P Require Import Prelude BootInfo Pmm PmmSpec PagingState PagingPae Paging PagingEntry PagingForest PagingView PagingInv PagingOps PagingMap PagingProtect PagingUnmap PagingHw.
Local Open Scope c_scope.
Local Open Scope Z_scope.

(** ** One space *)

(** The invariant of a single space without user pages. *)
Lemma forest_single wide leaf_ok K V own :
  node V K (-1) = Some K ->
  (forall q x, node V K q = Some x -> low_page x /\ own x = Kernel) ->
  (forall q q' x, node V K q = Some x -> node V K q' = Some x -> q = q') ->
  (forall i t, linked wide V K i t -> low_page t /\ own t = Kernel /\ flag (pde V K i) 2 = true /\
     narrow (pde V K i) /\ flag (pde V K i) 4 = false /\ forall q, node V K q <> Some t) ->
  (forall i i' t, linked wide V K i t -> linked wide V K i' t -> i = i') ->
  (forall i j, dir_index wide i -> table_index wide j -> present (pte V K i j) ->
     present (pde V K i) /\ leaf_ok (pte V K i j) /\ flag (pte V K i j) 4 = false) ->
  (forall i j, dir_index wide i -> table_index wide j -> 1 <= page_number wide i j < 1024 ->
     present (pte V K i j) /\ frame_of (pte V K i j) = page_number wide i j * 4096) ->
  (forall x, is_u32 x -> x mod 4096 = 0 -> own x <> User true) ->
  forest wide leaf_ok K [] V own.
Proof.
  intros Hroot Hnode Hinj Hlink Hshare Hleaf Hlow Hown.
  assert (forall i j, ~ user_page wide V K i j) as Hnu.
  { intros i j (Hi & Hj & Hp & H4). destruct (Hleaf i j Hi Hj Hp) as (_ & _ & H). congruence. }
  split.
  - apply NoDup_singleton.
  - by intros r ->%list_elem_of_singleton.
  - intros r q x ->%list_elem_of_singleton. apply Hnode.
  - intros r q r' q' x ->%list_elem_of_singleton ->%list_elem_of_singleton H1 H2. split; [done|by eapply Hinj].
  - intros r i t ->%list_elem_of_singleton Hl. destruct (Hlink i t Hl) as (? & ? & ? & ? & _ & Hn).
    do 4 (split; [done|]). by intros r' q ->%list_elem_of_singleton.
  - intros r i r' i' t ->%list_elem_of_singleton ->%list_elem_of_singleton H1 H2. split; [by eapply Hshare|by left].
  - intros r i ->%list_elem_of_singleton (t & Hl & _). by destruct (Hlink i t Hl) as (_ & _ & _ & _ & ? & _).
  - by intros r r' i t j ->%list_elem_of_singleton ->%list_elem_of_singleton.
  - intros r i j ->%list_elem_of_singleton Hi Hj Hp. by destruct (Hleaf i j Hi Hj Hp) as (? & ? & _).
  - intros r i j ->%list_elem_of_singleton Hu. by apply Hnu in Hu.
  - intros r i j r' i' j' ->%list_elem_of_singleton _ Hu. by apply Hnu in Hu.
  - intros x Hx Ha Ho. by apply Hown in Ho.
  - intros r i j ->%list_elem_of_singleton Hi Hj Hn. destruct (Hlow i j Hi Hj Hn) as [Hp Hf].
    destruct (Hleaf i j Hi Hj Hp) as (Hpd & _). split; [|done]. exists (frame_of (pde V K i)). done.
Qed.

(** Tables of the identity window. *)
Definition low_tables (wide : bool) : Z := if wide then 2 else 1.

Lemma low_table wide i j : dir_index wide i -> table_index wide j -> page_number wide i j < 1024 <-> i < low_tables wide.
Proof. unfold dir_index, table_index, page_number, low_tables, directories. destruct wide; cbn; lia. Qed.

(** What the tables show after the first stage. *)
Record identity_tables (wide nx : bool) (m : tables) (K : Z) (tab : Z -> Z) (own : Z -> owner) : Prop := {
  it_node : forall q x, node_of wide m K q = Some x -> low_page x /\ own x = Kernel;
  it_inj : forall q q' x, node_of wide m K q = Some x -> node_of wide m K q' = Some x -> q = q';
  it_table : forall i, 0 <= i < low_tables wide -> low_page (tab i) /\ own (tab i) = Kernel /\
    forall q, node_of wide m K q <> Some (tab i);
  it_tables : forall i i', 0 <= i < low_tables wide -> 0 <= i' < low_tables wide -> tab i = tab i' -> i = i';
  it_pde : forall i, dir_index wide i ->
    pde_of wide m K i = if i <? low_tables wide then Z.lor (Z.lor (tab i) 1) 2 else 0;
  it_pte : forall i j, 0 <= i < low_tables wide -> table_index wide j ->
    if page_number wide i j =? 0 then pte_of wide m K i j = 0
    else entry_for nx (page_number wide i j * 4096) 2 (pte_of wide m K i j);
  it_users : forall x, is_u32 x -> x mod 4096 = 0 -> own x <> User true
}.

Lemma table_entry a : low_page a -> let e := Z.lor (Z.lor a 1) 2 in
  is_u32 e /\ present e /\ flag e 2 = true /\ narrow e /\ frame_of e = a /\ flag e 4 = false.
Proof. intros Ha. pose proof (new_pde a false Ha) as H. cbv zeta in H. by rewrite Z.lor_0_r in H. Qed.

Lemma identity_forest wide nx m K tab own : identity_tables wide nx m K tab own ->
  forest wide (leaf_policy nx) K [] (view_of wide m) own.
Proof.
  intros [Hnode Hinj Htab Htabs Hpde Hpte Hown].
  assert (forall i t, linked wide (view_of wide m) K i t -> 0 <= i < low_tables wide /\ t = tab i) as Hl.
  { intros i t (Hi & Hp & Hf). cbn in Hp, Hf. rewrite Hpde in * by done. destruct (Z.ltb_spec i (low_tables wide)); [|done].
    unfold dir_index in Hi. split; [lia|]. destruct (Htab i ltac:(lia)) as [Hlow _].
    destruct (table_entry (tab i) Hlow) as (_ & _ & _ & _ & He & _). congruence. }
  assert (forall i j, dir_index wide i -> table_index wide j -> ~ 0 <= i < low_tables wide -> pte_of wide m K i j = 0) as Hzero.
  { intros i j Hi Hj Hn. unfold pte_of. rewrite Hpde by done. unfold dir_index in Hi.
    destruct (Z.ltb_spec i (low_tables wide)); [lia|done]. }
  apply forest_single; [done|done|done|..|done]; cbn [node pde pte view_of].
  - intros i t H. destruct (Hl i t H) as [Hi ->]. destruct (Htab i Hi) as (Hlow & Ho & Hn). rewrite Hpde by apply H.
    destruct (Z.ltb_spec i (low_tables wide)); [|lia].
    destruct (table_entry (tab i) Hlow) as (_ & _ & ? & ? & _ & ?). done.
  - intros i i' t H H'. apply Hl in H as [Hi ->]. apply Hl in H' as [Hi' E]. by apply Htabs.
  - intros i j Hi Hj Hp. destruct (decide (0 <= i < low_tables wide)) as [Hr|Hr]; [|by rewrite Hzero in Hp].
    split; [rewrite Hpde by done; destruct (Z.ltb_spec i (low_tables wide)); [|lia];
            by destruct (table_entry (tab i)) as (_ & ? & _); [apply Htab|]|].
    specialize (Hpte i j Hr Hj). destruct (page_number wide i j =? 0); [by rewrite Hpte in Hp|].
    destruct Hpte as (_ & _ & _ & H4 & _ & _ & Hlf). done.
  - intros i j Hi Hj Hn. assert (0 <= i < low_tables wide) as Hr
      by (pose proof (low_table wide i j Hi Hj); unfold dir_index in Hi; lia).
    specialize (Hpte i j Hr Hj). replace (page_number wide i j =? 0) with false in Hpte by lia.
    destruct Hpte as (? & ? & _). done.
Qed.

(** ** The first stage *)

(** The state before the tables are written: the frames [fs] are the kernel's. *)
Record before_tables (s : paging) (fs : list Z) : Prop := {
  bt_pmm : pmm_wf (page_frames s);
  bt_tables : tables_ok (words s);
  bt_frames : NoDup fs /\ forall x, x ∈ fs -> low_page x /\ owner_at s x = Kernel;
  bt_users : forall x, is_u32 x -> x mod 4096 = 0 -> owner_at s x <> User true;
  bt_off : paging_enabled s = false;
  bt_spaces : length (address_spaces s) = 16%nat /\ length (pae_address_spaces s) = 16%nat
}.

(** The state after it. *)
Record identity_mapped (wide : bool) (s s' : paging) : Prop := {
  im_ok : paging_ok wide s';
  im_alone : space_list wide s' = [] /\ current_root wide s' = kernel_root wide s';
  im_same : page_frames s' = page_frames s /\ data s' = data s /\ registers s' = registers s /\
    paging_enabled s' = paging_enabled s /\ paging_pae_nx_enabled s' = paging_pae_nx_enabled s;
  im_tables : exists tab, identity_tables wide (paging_pae_nx_enabled s) (words s') (kernel_root wide s') tab (owner_at s')
}.

Lemma page_value k : 0 < k < 1024 -> k *32 PAGE_SIZE = k * 4096 /\ is_u32 (k * 4096) /\ k * 4096 <> 0 /\ (k * 4096) mod 4096 = 0.
Proof.
  intros Hk. unfold PAGE_SIZE. change 0x1000 with 4096. rewrite u32_id by (unfold is_u32; lia).
  split; [done|]. unfold is_u32. split; [lia|]. split; [lia|]. apply Z.mod_mul. lia.
Qed.

Lemma legacy_identity_words a b s : tables_ok (words s) -> low_page a -> low_page b -> a <> b -> page_directory_physical s = a ->
  let s' := legacy_identity b s in
  s' = set_words (set_spaces (set_kernel_directory (set_page_directory s a a) a a) (address_spaces s) 0) (words s') /\
  tables_ok (words s') /\
  (forall k, 0 <= k < 1024 -> get false (words s') a k = if k =? 0 then Z.lor (Z.lor b 1) 2 else 0) /\
  (forall k, 0 <= k < 1024 -> get false (words s') b k = if k =? 0 then 0 else Z.lor (Z.lor (k * 4096) 1) 2).
Proof.
  intros Hm Ha Hb Hab Hp. unfold legacy_identity. cbv zeta. cbn [page_directory_physical set_page_directory page_directory
    set_kernel_directory address_spaces set_spaces]. rewrite Hp.
  set (s1 := set_spaces (set_kernel_directory (set_page_directory s a a) a a) (address_spaces s) 0).
  change (page_directory s1) with a.
  destruct (clear_page_spec a s1 Hm) as (Hs2 & Hm2 & Hg2). revert Hs2 Hm2 Hg2. generalize (clear_page a s1) as s2. intros s2 Hs2 Hm2 Hg2.
  destruct (clear_page_spec b s2 Hm2) as (Hs3 & Hm3 & Hg3). revert Hs3 Hm3 Hg3. generalize (clear_page b s2) as s3. intros s3 Hs3 Hm3 Hg3.
  pose proof (fill_page_spec false b 1 1024 (fun index s => set_entry b index (Z.lor (Z.lor (index *32 PAGE_SIZE) PAGE_PRESENT) PAGE_FLAG_WRITABLE) s)
    (fun k => Z.lor (Z.lor (k * 4096) 1) 2) s3) as Hfill. cbv zeta in Hfill. unfold PAGE_TABLE_ENTRIES. revert Hfill.
  generalize (for_loop 1 1024 (fun index s => set_entry b index (Z.lor (Z.lor (index *32 PAGE_SIZE) PAGE_PRESENT) PAGE_FLAG_WRITABLE) s) s3) as s4.
  intros s4 Hfill. destruct Hfill as (Hs4 & Hm4 & Hg4); [lia|cbn; lia|done|..].
  { intros k Hk. destruct (page_value k ltac:(lia)) as (_ & Hu & Hn & Hal). by apply (legacy_entry (k * 4096) 2). }
  { intros k s' Hk _ _ _. rewrite set_entry_write. by rewrite (proj1 (page_value k ltac:(lia))). }
  assert (page_directory s4 = a /\ s4 = set_words s1 (words s4)) as [Hpd Hs41] by (rewrite Hs4, Hs3, Hs2; done). rewrite Hpd.
  destruct (table_entry b Hb) as (He & _). rewrite set_entry_write. unfold PAGE_PRESENT, PAGE_FLAG_WRITABLE.
  split; [rewrite Hs41; done|]. cbn [words write_entry set_words].
  split; [apply (put_tables_ok false); done|]. split; intros k Hk; rewrite get_put by (done || cbn; lia).
  - destruct (Z.eqb_spec k 0) as [->|]; [by rewrite decide_True|]. rewrite decide_False by naive_solver.
    rewrite Hg4 by done. rewrite decide_False by naive_solver. rewrite Hg3, decide_False by done. by rewrite Hg2, decide_True.
  - rewrite decide_False by naive_solver. rewrite Hg4 by done. destruct (Z.eqb_spec k 0) as [->|].
    + rewrite decide_False by lia. by rewrite Hg3, decide_True.
    + rewrite decide_True by (split; [done|lia]). done.
Qed.

Lemma legacy_identity_ok a b s : before_tables s [a; b] -> page_directory_physical s = a ->
  paging_pae_enabled s = false -> paging_pae_nx_enabled s = false -> identity_mapped false s (legacy_identity b s).
Proof.
  intros [Hp Hm [Hnd Hfr] Hnu Hoff [Hlen _]] Hpa Hpae Hnx.
  destruct (Hfr a) as [Ha Hoa]; [left|]. destruct (Hfr b) as [Hb Hob]; [right; left|].
  assert (a <> b) as Hab by (apply list.NoDup_cons in Hnd as [Hn _]; intros ->; apply Hn; left).
  destruct (legacy_identity_words a b s Hm Ha Hb Hab Hpa) as (Hs' & Hm' & Hga & Hgb). revert Hs' Hm' Hga Hgb.
  generalize (legacy_identity b s) as s'. intros s' Hs' Hm' Hga Hgb.
  assert (owner_at s' = owner_at s) as Ho by (rewrite Hs'; done).
  assert (kernel_root false s' = a /\ current_root false s' = a /\ space_list false s' = []) as (HK & HC & HL) by (rewrite Hs'; done).
  assert (identity_tables false (paging_pae_nx_enabled s) (words s') a (fun _ => b) (owner_at s')) as Hid.
  { rewrite Ho, Hnx. destruct (table_entry b Hb) as (_ & Hpe & _ & _ & Hfe & _). unfold present in Hpe.
    assert (forall i, dir_index false i -> pde_of false (words s') a i = if i <? 1 then Z.lor (Z.lor b 1) 2 else 0) as Hpde.
    { intros i Hi. unfold pde_of, slot. rewrite Hga by exact Hi. unfold dir_index in Hi.
      destruct (Z.eqb_spec i 0), (Z.ltb_spec i 1); try lia; [by apply norm_present|done]. }
    split; try done.
    - intros q x. unfold node_of. cbn [andb]. destruct (q =? -1); [|done]. by intros [= <-].
    - intros q q' x. unfold node_of. cbn [andb]. destruct (Z.eqb_spec q (-1)), (Z.eqb_spec q' (-1)); try done. congruence.
    - intros i _. split; [done|]. split; [done|]. intros q. unfold node_of. cbn [andb]. destruct (q =? -1); [|done]. congruence.
    - unfold low_tables. lia.
    - intros i j Hi Hj. unfold low_tables in Hi. replace i with 0 by lia. unfold page_number, pte_of.
      rewrite Hpde by (by compute). change (0 <? 1) with true. cbn match. rewrite Hpe, Hfe, Hgb by exact Hj.
      rewrite Z.mul_0_l, Z.add_0_l. destruct (Z.eqb_spec j 0); [done|]. unfold table_index in Hj. cbn in Hj.
      destruct (page_value j ltac:(lia)) as (_ & Hu & Hn & Hal).
      destruct (legacy_entry (j * 4096) 2) as [Hef _]; try done. by rewrite norm_present by apply Hef. }
  split.
  - assert (state_ok false s') as Hst.
    { unfold state_ok. rewrite HK, HL. split; [done|]. apply (identity_forest false _ _ _ (fun _ => b)). by rewrite Hs' at 1. }
    split; try done; try (rewrite Hs'; done).
    + rewrite HC. unfold roots. rewrite HK. left.
    + intros Hen. rewrite Hs' in Hen. cbn in Hen. congruence.
  - rewrite HL, HC, HK. done.
  - rewrite Hs'. done.
  - exists (fun _ => b). by rewrite HK.
Qed.

Lemma pae_identity_entry s pa :
  Z.lor (Z.lor (Z.lor pa PAE_PRESENT) PAE_WRITABLE) (if paging_pae_nx_enabled s then PAE_NX else 0) = pae_flags_to_entry s pa 2.
Proof.
  unfold pae_flags_to_entry. change (flag 2 PAGE_FLAG_WRITABLE) with true. change (flag 2 PAGE_FLAG_USER) with false.
  change (flag 2 PAGE_FLAG_EXECUTABLE) with false. change (Z.land 2 PAGE_FLAG_CACHE_DISABLE) with 0. cbn match.
  cbn [negb]. rewrite !Z.lor_0_r, andb_true_r. by destruct (paging_pae_nx_enabled s); [|rewrite Z.lor_0_r].
Qed.

(** The value for page [n] of the window. *)
Definition window_entry (s : paging) (n : Z) : Z := pae_flags_to_entry s (n * 4096) 2.

Lemma window_entry_ok s n : 0 < n < 1024 ->
  entry_for (paging_pae_nx_enabled s) (n * 4096) 2 (window_entry s n) /\ is_u64 (window_entry s n).
Proof. intros Hn. destruct (page_value n Hn) as (_ & Hu & Hnz & Hal). by apply pae_entry. Qed.

(** Filling one of the two tables. *)
Lemma window_fill b lo base (offset : Z -> Z) s0 s :
  0 <= lo <= 512 -> (forall k, lo <= k < 512 -> 0 < base + k < 1024 /\ offset k = base + k) -> tables_ok (words s) ->
  let s' := for_loop lo 512 (fun index s =>
    pae_set_entry b index (Z.lor (Z.lor (Z.lor (offset index *32 PAGE_SIZE) PAE_PRESENT) PAE_WRITABLE)
      (if paging_pae_nx_enabled s0 then PAE_NX else 0)) s) s in
  s' = set_words s (words s') /\ tables_ok (words s') /\
  forall g k, 0 <= k < 512 ->
    get true (words s') g k = if decide (g = b /\ lo <= k) then window_entry s0 (base + k) else get true (words s) g k.
Proof.
  intros Hlo Hoff Hm.
  pose proof (fill_page_spec true b lo 512 (fun index s =>
    pae_set_entry b index (Z.lor (Z.lor (Z.lor (offset index *32 PAGE_SIZE) PAE_PRESENT) PAE_WRITABLE)
      (if paging_pae_nx_enabled s0 then PAE_NX else 0)) s) (fun k => window_entry s0 (base + k)) s) as Hfill.
  cbv zeta in Hfill |- *. revert Hfill.
  generalize (for_loop lo 512 (fun index s =>
    pae_set_entry b index (Z.lor (Z.lor (Z.lor (offset index *32 PAGE_SIZE) PAE_PRESENT) PAE_WRITABLE)
      (if paging_pae_nx_enabled s0 then PAE_NX else 0)) s) s) as s'.
  intros s' Hfill. destruct Hfill as (Hs' & Hm' & Hg); [lia|cbn; lia|done|..].
  - intros k Hk. apply window_entry_ok. by apply Hoff.
  - intros k x Hk _ _ _. destruct (Hoff k Hk) as [Hr ->]. rewrite (proj1 (page_value _ Hr)), pae_identity_entry. done.
  - split; [done|]. split; [done|]. intros g k Hk. rewrite Hg by done.
    destruct (decide (g = b /\ lo <= k)); [by rewrite decide_True by (split; [tauto|lia])|by rewrite decide_False by naive_solver lia].
Qed.

Lemma pae_identity_words a d b1 b2 s : tables_ok (words s) -> low_page a -> low_page d -> low_page b1 -> low_page b2 ->
  NoDup [a; d; b1; b2] ->
  let s' := pae_identity a d b1 b2 s in
  s' = set_words (set_kernel_directory (set_pae_spaces (set_page_directory (set_kernel_pdpt (set_pdpt s a a) a a)
         (page_directory s) a) (pae_address_spaces s) 0) 0 a) (words s') /\
  tables_ok (words s') /\
  (forall k, 0 <= k < 512 -> get true (words s') a k = if k =? 0 then Z.lor d 1 else 0) /\
  (forall k, 0 <= k < 512 -> get true (words s') d k =
     if k =? 0 then Z.lor (Z.lor b1 1) 2 else if k =? 1 then Z.lor (Z.lor b2 1) 2 else 0) /\
  (forall k, 0 <= k < 512 -> get true (words s') b1 k = if k =? 0 then 0 else window_entry s k) /\
  (forall k, 0 <= k < 512 -> get true (words s') b2 k = window_entry s (512 + k)).
Proof.
  intros Hm Ha Hd Hb1 Hb2 Hnd. unfold pae_identity. cbv zeta.
  cbn [page_directory kernel_page_directory set_page_directory set_kernel_directory set_kernel_pdpt set_pdpt].
  set (s1 := set_kernel_directory (set_page_directory (set_kernel_pdpt (set_pdpt s a a) a a) (page_directory s) a) (kernel_page_directory s) a).
  destruct (clear_pae_page_spec a s1 Hm) as (Hs2 & Hm2 & Hg2). revert Hs2 Hm2 Hg2. generalize (clear_pae_page a s1) as s2. intros s2 Hs2 Hm2 Hg2.
  destruct (clear_pae_page_spec d s2 Hm2) as (Hs3 & Hm3 & Hg3). revert Hs3 Hm3 Hg3. generalize (clear_pae_page d s2) as s3. intros s3 Hs3 Hm3 Hg3.
  destruct (clear_pae_page_spec b1 s3 Hm3) as (Hs4 & Hm4 & Hg4). revert Hs4 Hm4 Hg4. generalize (clear_pae_page b1 s3) as s4. intros s4 Hs4 Hm4 Hg4.
  destruct (clear_pae_page_spec b2 s4 Hm4) as (Hs5 & Hm5 & Hg5). revert Hs5 Hm5 Hg5. generalize (clear_pae_page b2 s4) as s5. intros s5 Hs5 Hm5 Hg5.
  assert (s5 = set_words s1 (words s5)) as Hs51 by (rewrite Hs5, Hs4, Hs3, Hs2; done).
  assert (paging_pae_nx_enabled s5 = paging_pae_nx_enabled s) as Hnx by (rewrite Hs51; done). rewrite Hnx.
  destruct (table_entry b1 Hb1) as (He1 & _). destruct (table_entry b2 Hb2) as (He2 & _). destruct (pdpt_entry d Hd) as (He0 & _).
  assert (forall x, is_u32 x -> is_u64 x) as H64 by (unfold is_u32, is_u64; lia).
  rewrite (pae_set_entry_write d 1), (pae_set_entry_write d 0), (pae_set_entry_write a 0). unfold PAE_TABLE_ENTRIES.
  change (Z.lor d PAE_PRESENT) with (Z.lor d 1). change (Z.lor (Z.lor b1 PAE_PRESENT) PAE_WRITABLE) with (Z.lor (Z.lor b1 1) 2).
  change (Z.lor (Z.lor b2 PAE_PRESENT) PAE_WRITABLE) with (Z.lor (Z.lor b2 1) 2).
  set (s6 := write_entry true d 1 (Z.lor (Z.lor b2 1) 2) (write_entry true d 0 (Z.lor (Z.lor b1 1) 2) (write_entry true a 0 (Z.lor d 1) s5))).
  assert (tables_ok (words s6) /\ forall g k, 0 <= k < 512 -> get true (words s6) g k =
    if decide (g = d /\ k = 1) then Z.lor (Z.lor b2 1) 2 else if decide (g = d /\ k = 0) then Z.lor (Z.lor b1 1) 2
    else if decide (g = a /\ k = 0) then Z.lor d 1 else get true (words s5) g k) as [Hm6 Hg6].
  { unfold s6, write_entry. cbn [words set_words].
    assert (tables_ok (put true (words s5) a 0 (Z.lor d 1))) as Hp1 by (by apply (put_tables_ok true)).
    assert (tables_ok (put true (put true (words s5) a 0 (Z.lor d 1)) d 0 (Z.lor (Z.lor b1 1) 2))) as Hp2
      by (apply (put_tables_ok true); [done|by apply H64]).
    split; [apply (put_tables_ok true); [done|by apply H64]|]. intros g k Hk.
    rewrite !get_put by (done || (cbn; lia) || by apply H64). done. }
  assert (s6 = set_words s1 (words s6)) as Hs61 by (unfold s6; rewrite Hs51; done). revert Hm6 Hg6 Hs61. generalize s6 as x6. clear s6.
  intros x6 Hm6 Hg6 Hs61.
  pose proof (window_fill b1 1 0 (fun i => i) s x6) as Hf1. cbv beta zeta in Hf1. revert Hf1.
  match goal with |- context [for_loop 1 512 ?body x6] => generalize (for_loop 1 512 body x6) as s7 end.
  intros s7 Hf1. destruct Hf1 as (Hs7 & Hm7 & Hg7); [lia|intros k Hk; split; [lia|done]|done|].
  pose proof (window_fill b2 0 512 (fun i => 512 +32 i) s s7) as Hf2. cbv beta zeta in Hf2. revert Hf2.
  match goal with |- context [for_loop 0 512 ?body s7] => generalize (for_loop 0 512 body s7) as s8 end.
  intros s8 Hf2. destruct Hf2 as (Hs8 & Hm8 & Hg8);
    [lia|intros k Hk; split; [lia|apply u32_id; unfold is_u32; lia]|done|].
  cbn [words set_kernel_directory set_pae_spaces].
  split; [rewrite Hs8, Hs7, Hs61; done|]. split; [done|].
  assert (a <> d /\ a <> b1 /\ a <> b2 /\ d <> b1 /\ d <> b2 /\ b1 <> b2) as (? & ? & ? & ? & ? & ?).
  { clear -Hnd. rewrite !list.NoDup_cons, !elem_of_cons in Hnd. naive_solver. }
  clear Hs2 Hs3 Hs4 Hs5 Hs51 Hs61 Hs7 Hs8 Hm2 Hm3 Hm4 Hm5 Hm6 Hm7 Hm8 Hm Hnd.
  split_and!; intros k Hk; rewrite Hg8 by done.
  - rewrite decide_False by tauto. rewrite Hg7, decide_False, Hg6 by (done || tauto). do 2 rewrite decide_False by tauto.
    rewrite Hg5, Hg4, Hg3, Hg2 by done. rewrite !(decide_False (P := a = _)) by done. rewrite (decide_True (P := a = a)) by done.
    destruct (Z.eqb_spec k 0) as [->|]; [by rewrite decide_True|by rewrite decide_False by tauto].
  - rewrite decide_False by tauto. rewrite Hg7, decide_False, Hg6 by (done || tauto).
    rewrite (Hg5 d), (Hg4 d), (Hg3 d) by done. rewrite !(decide_False (P := d = _)) by done. rewrite (decide_True (P := d = d)) by done.
    destruct (Z.eqb_spec k 0) as [->|]; [rewrite decide_False by lia; by rewrite decide_True|].
    destruct (Z.eqb_spec k 1) as [->|]; [by rewrite decide_True|]. rewrite decide_False by tauto. rewrite decide_False by tauto.
    by rewrite decide_False by naive_solver.
  - rewrite decide_False by tauto. rewrite Hg7 by done. destruct (Z.eqb_spec k 0) as [->|].
    + rewrite decide_False by lia. rewrite Hg6 by done. rewrite !decide_False by naive_solver.
      rewrite Hg5, Hg4 by done. rewrite decide_False by done. by rewrite decide_True.
    + rewrite decide_True by (split; [done|lia]). done.
  - by rewrite decide_True by (split; [done|lia]).
Qed.

Lemma pae_identity_nodes a d m q : low_page d -> (forall k, 0 <= k < 512 -> get true m a k = if k =? 0 then Z.lor d 1 else 0) ->
  node_of true m a q = if q =? -1 then Some a else if q =? 0 then Some d else None.
Proof.
  intros Hd Hga. unfold node_of. destruct (q =? -1); [done|]. cbn [andb]. destruct ((0 <=? q) && (q <? 4)) eqn:Er.
  - rewrite Hga by lia. destruct (q =? 0); [|done]. destruct (pdpt_entry d Hd) as (_ & Hp & Hf). unfold present in Hp.
    by rewrite Hp, Hf.
  - cbn [andb]. by destruct (Z.eqb_spec q 0); [lia|].
Qed.

Lemma pae_identity_ok a d b1 b2 s : before_tables s [a; d; b1; b2] -> paging_pae_enabled s = true ->
  identity_mapped true s (pae_identity a d b1 b2 s).
Proof.
  intros [Hp Hm [Hnd Hfr] Hnu Hoff [_ Hlen]] Hpae.
  destruct (Hfr a) as [Ha Hoa]; [set_solver|]. destruct (Hfr d) as [Hd Hod]; [set_solver|].
  destruct (Hfr b1) as [Hb1 Hob1]; [set_solver|]. destruct (Hfr b2) as [Hb2 Hob2]; [set_solver|].
  destruct (pae_identity_words a d b1 b2 s Hm Ha Hd Hb1 Hb2 Hnd) as (Hs' & Hm' & Hga & Hgd & Hg1 & Hg2). revert Hs' Hm' Hga Hgd Hg1 Hg2.
  generalize (pae_identity a d b1 b2 s) as s'. intros s' Hs' Hm' Hga Hgd Hg1 Hg2.
  assert (a <> d /\ a <> b1 /\ a <> b2 /\ d <> b1 /\ d <> b2 /\ b1 <> b2) as (? & ? & ? & ? & ? & ?).
  { clear -Hnd. rewrite !list.NoDup_cons, !elem_of_cons in Hnd. naive_solver. }
  pose proof (fun q => pae_identity_nodes a d (words s') q Hd Hga) as Hnode.
  assert (owner_at s' = owner_at s) as Ho by (rewrite Hs'; done).
  assert (kernel_root true s' = a /\ current_root true s' = a /\ space_list true s' = []) as (HK & HC & HL) by (rewrite Hs'; done).
  set (tab := fun i => if i =? 0 then b1 else b2).
  assert (identity_tables true (paging_pae_nx_enabled s) (words s') a tab (owner_at s')) as Hid.
  { rewrite Ho.
    assert (forall i, dir_index true i -> pde_of true (words s') a i = if i <? 2 then Z.lor (Z.lor (tab i) 1) 2 else 0) as Hpde.
    { intros i Hi. unfold pde_of, slot. rewrite Hnode. unfold dir_index, directories in Hi.
      replace (i / 512 =? -1) with false by (symmetry; apply Z.eqb_neq; dmlia).
      destruct (Z.eqb_spec (i / 512) 0); [|destruct (Z.ltb_spec i 2); [dmlia|done]].
      rewrite Hgd, Z.mod_small by dmlia. unfold tab. destruct (Z.eqb_spec i 0) as [->|]; [apply norm_present; by apply table_entry|].
      destruct (Z.eqb_spec i 1) as [->|]; [apply norm_present; by apply table_entry|]. by destruct (Z.ltb_spec i 2); [lia|]. }
    split; try done.
    - intros q x. rewrite Hnode. destruct (q =? -1); [by intros [= <-]|]. destruct (q =? 0); [by intros [= <-]|done].
    - intros q q' x. rewrite !Hnode. destruct (Z.eqb_spec q (-1)), (Z.eqb_spec q' (-1)), (Z.eqb_spec q 0), (Z.eqb_spec q' 0); congruence.
    - intros i _. unfold tab. split; [by destruct (i =? 0)|]. split; [by destruct (i =? 0)|]. intros q. rewrite Hnode.
      destruct (i =? 0), (q =? -1), (q =? 0); congruence.
    - unfold low_tables, tab. intros i i' Hi Hi'. destruct (Z.eqb_spec i 0), (Z.eqb_spec i' 0); try done; lia.
    - intros i j Hi Hj. unfold low_tables in Hi. unfold table_index in Hj. cbn in Hj. unfold page_number, pte_of. cbn [entries].
      rewrite Hpde by (unfold dir_index, directories; lia). replace (i <? 2) with true by lia.
      destruct (table_entry (tab i)) as (_ & Hpe & _ & _ & Hfe & _); [by unfold tab; destruct (i =? 0)|]. unfold present in Hpe.
      rewrite Hpe, Hfe. unfold tab. destruct (Z.eqb_spec i 0) as [->|].
      + rewrite Hg1 by done. rewrite Z.mul_0_l, Z.add_0_l. destruct (Z.eqb_spec j 0) as [->|]; [done|].
        destruct (window_entry_ok s j ltac:(lia)) as [Hef _]. by rewrite norm_present by apply Hef.
      + rewrite Hg2 by done. replace (i * 512 + j) with (512 + j) by lia. replace (512 + j =? 0) with false by lia.
        destruct (window_entry_ok s (512 + j) ltac:(lia)) as [Hef _]. by rewrite norm_present by apply Hef. }
  split.
  - assert (state_ok true s') as Hst.
    { unfold state_ok. rewrite HK, HL. split; [done|]. apply (identity_forest true _ _ _ tab). by rewrite Hs' at 1. }
    split; try done; try (rewrite Hs'; done).
    + rewrite HC. unfold roots. rewrite HK. left.
    + intros Hen. rewrite Hs' in Hen. cbn in Hen. congruence.
  - rewrite HL, HC, HK. done.
  - rewrite Hs'. done.
  - exists tab. by rewrite HK.
Qed.

(** Taking the frames of the tables. *)
Lemma before_tables_alloc s fs a s1 : before_tables s fs -> alloc_low s = (a, s1) -> a <> 0 ->
  before_tables s1 (a :: fs) /\ s1 = set_page_frames s (page_frames s1).
Proof.
  intros [Hp Hm [Hnd Hfr] Hnu Hoff Hlen] E Hnz.
  destruct (alloc_low_spec s a s1 Hp E) as (Hs1 & Hp1 & [[? _]|(Hlow & Hfree & Hown)]); [done|]. split; [|done].
  assert (a ∉ fs) as Ha by (intros Hin; destruct (Hfr a Hin) as [_ Ho]; by rewrite Hfree in Ho).
  split; try done; try (rewrite Hs1; done).
  - split; [by constructor|]. intros x [->|Hin]%elem_of_cons.
    + split; [done|]. apply low_page_u32 in Hlow as (? & ? & _). rewrite Hown by done. unfold own_set. by rewrite decide_True.
    + destruct (Hfr x Hin) as [Hx Ho]. split; [done|]. pose proof (low_page_u32 x Hx) as (? & ? & _). rewrite Hown by done.
      unfold own_set. by case_decide.
  - intros x Hx Hxa. rewrite Hown by done. unfold own_set. case_decide; [done|by apply Hnu].
Qed.

Lemma before_tables_perm s fs fs' : before_tables s fs -> fs ≡ₚ fs' -> before_tables s fs'.
Proof.
  intros [Hp Hm [Hnd Hfr] Hnu Hoff Hlen] He. split; try done. split; [by rewrite <- He|]. intros x Hx. apply Hfr. by rewrite He.
Qed.

(** ** The framebuffer *)

(** The page number of the framebuffer's first page. *)
Definition framebuffer_base : Z := 917504.

Lemma framebuffer_page_eq k : 0 <= k < 768 ->
  framebuffer_page k = (framebuffer_base + k) * 4096 /\ is_u32 (framebuffer_page k) /\ framebuffer_page k / 4096 = framebuffer_base + k.
Proof.
  intros Hk. unfold framebuffer_page, framebuffer_base, VBE_FRAMEBUFFER_VIRTUAL, PAGE_SIZE.
  rewrite (u32_id (k * 4096)) by (unfold is_u32; lia). change 0xE0000000 with (917504 * 4096).
  rewrite <- Z.mul_add_distr_r. rewrite u32_id by (unfold is_u32; lia). split; [done|]. split; [unfold is_u32; lia|].
  apply Z.div_mul. lia.
Qed.

Lemma page_number_inj wide i j i' j' : table_index wide j -> table_index wide j' ->
  page_number wide i j = page_number wide i' j' -> i = i' /\ j = j'.
Proof. unfold table_index, page_number. destruct wide; cbn; lia. Qed.

Lemma grows_trans own1 own2 own3 : grows own1 own2 -> grows own2 own3 -> grows own1 own3.
Proof.
  intros H1 H2 x Hx Ha. destruct (H1 x Hx Ha) as [E1|[E1 E1']], (H2 x Hx Ha) as [E2|[E2 E2']]; rewrite ?E2; [by left|right|by right|].
  - by rewrite <- E1.
  - congruence.
Qed.

(** Pages [lo] to [hi] of the kernel's space map to themselves, writable; the rest is as in [m]. *)
Definition framebuffer_pages (wide nx : bool) (K : Z) (m m' : tables) (lo hi : Z) : Prop :=
  forall i j, dir_index wide i -> table_index wide j ->
  if (framebuffer_base + lo <=? page_number wide i j) && (page_number wide i j <? framebuffer_base + hi)
  then entry_for nx (page_number wide i j * 4096) 2 (pte_of wide m' K i j)
  else pte_of wide m' K i j = pte_of wide m K i j.

Lemma map_framebuffer_ok wide n : forall index s failed s', paging_ok wide s -> current_root wide s = kernel_root wide s ->
  0 <= index -> index + Z.of_nat n <= 768 -> map_framebuffer n index s = (failed, s') ->
  paging_ok wide s' /\ keeps s s' /\ grows (owner_at s) (owner_at s') /\
  (failed = None -> framebuffer_pages wide (paging_pae_nx_enabled s) (kernel_root wide s) (words s) (words s') index (index + Z.of_nat n)).
Proof.
  induction n as [|n IH]; intros index s failed s' Hok HcK H0 Hn; cbn [map_framebuffer].
  { intros [= <- <-]. split; [done|]. split; [done|]. split; [by apply grows_eq|]. intros _ i j Hi Hj.
    rewrite Z.add_0_r. by replace ((framebuffer_base + index <=? page_number wide i j) && (page_number wide i j <? framebuffer_base + index)) with false by lia. }
  destruct (framebuffer_page_eq index ltac:(lia)) as (Heq & Hu & Hdiv).
  destruct (paging_map_page (framebuffer_page index) (framebuffer_page index) PAGE_FLAG_WRITABLE s) as [ok s1] eqn:E.
  assert (is_u32 PAGE_FLAG_WRITABLE) as Hfl by (by compute).
  pose proof (map_page_ok wide s _ _ _ ok s1 Hok Hu Hu Hfl E) as [Hok1 Hk1 Hfail Hnew Hoth _ Hsup _].
  destruct (va_index wide _ Hu) as (Hi0 & Hj0 & Hpn0). rewrite Hdiv in Hpn0.
  destruct ok; cbn [negb].
  2: { intros [= <- <-]. split; [done|]. split; [done|]. split; [by apply Hfail|done]. }
  intros Hrec. destruct (keeps_roots wide s s1 Hk1) as (EK & EL & EC & ER & EN).
  destruct (IH (index + 1) s1 failed s' Hok1) as (Hok' & Hk' & Hgr' & Hpg'); [by rewrite EC, EK|lia|lia|done|].
  split; [done|]. split; [by eapply keeps_trans|]. specialize (Hsup eq_refl eq_refl). split; [by eapply grows_trans|].
  intros Hf. specialize (Hpg' Hf). rewrite EK, EN in Hpg'. destruct (Hnew eq_refl) as (v & Hv & Hz & Hcur & _). rewrite HcK in *.
  intros i j Hi Hj. specialize (Hpg' i j Hi Hj). rewrite Nat2Z.inj_succ.
  destruct (decide (i = dir_of wide (framebuffer_page index) /\ j = leaf_of wide (framebuffer_page index))) as [[-> ->]|Hne].
  - rewrite Hpn0 in *. replace (framebuffer_base + (index + 1) <=? framebuffer_base + index) with false in Hpg' by lia. cbn [andb] in Hpg'.
    replace ((framebuffer_base + index <=? framebuffer_base + index) && _) with true by lia.
    rewrite Hpg', Hcur, <- Heq. done.
  - assert (page_number wide i j <> framebuffer_base + index) as Hpn.
    { intros E'. apply Hne. apply (page_number_inj wide); [done..|]. by rewrite Hpn0. }
    replace ((framebuffer_base + index <=? page_number wide i j) && _)
      with ((framebuffer_base + (index + 1) <=? page_number wide i j) && (page_number wide i j <? framebuffer_base + (index + 1 + Z.of_nat n))) by lia.
    destruct (_ && _); [done|]. rewrite Hpg'. apply Hoth; [done|apply kernel_in|done|done|]. naive_solver.
Qed.

(** ** Write protection of the kernel image *)

(** The entry written for a page: the executable bit is the complement of no-execute, and code (with
    two-level tables every page) loses the writable bit. *)
Definition sealed (wide nx text : bool) (v : Z) : Z :=
  if wide then
    let v := Z.land v (UINT64_MAX - PAE_NX) in
    if text then Z.lor (Z.land v (UINT64_MAX - PAE_WRITABLE)) PAGE_FLAG_EXECUTABLE
    else let v := Z.land v (UINT64_MAX - PAGE_FLAG_EXECUTABLE) in if nx then Z.lor v PAE_NX else v
  else Z.land v (not32 PAGE_FLAG_WRITABLE).

Lemma narrow_land a b : narrow a -> 0 <= b -> narrow (Z.land a b).
Proof.
  intros [Hu Hn] Hb. assert (0 <= Z.land a b) as H0 by (apply Z.land_nonneg; by right).
  assert (forall n, 0 <= n -> Z.land a b mod 2 ^ n = Z.land (a mod 2 ^ n) b) as Hm.
  { intros n Hn'. rewrite <- !land_mask by done. rewrite <- !Z.land_assoc. f_equal. apply Z.land_comm. }
  assert (forall x n, 0 <= n -> 0 <= x < 2 ^ n -> Z.land x b < 2 ^ n) as Hlt.
  { intros x n Hn' Hx. rewrite Z.land_comm. by apply (land_range b x n). }
  split.
  - unfold is_u64 in *. split; [done|]. apply (Hlt a 64); [lia|exact Hu].
  - rewrite Hm by lia. apply (Hlt _ 32); [lia|]. split; [|done]. apply Z.mod_pos_bound. lia.
Qed.

(** Evaluate tests of bits of the masks. *)
Ltac mask_consts :=
  repeat match goal with
  | |- context [flag (UINT64_MAX - ?m) ?k] =>
      let b := eval vm_compute in (flag (UINT64_MAX - m) k) in change (flag (UINT64_MAX - m) k) with b
  | |- context [flag (not32 ?m) ?k] =>
      let b := eval vm_compute in (flag (not32 m) k) in change (flag (not32 m) k) with b
  end; flag_consts; cbn [andb orb negb].

(** What sealing an entry keeps and what it sets. *)
Lemma sealed_ok wide nx text v : (wide = false -> nx = false) -> entry_ok wide v -> present v -> leaf_policy nx v ->
  let v' := sealed wide nx text v in
  present v' /\ entry_ok wide v' /\ frame_of v' = frame_of v /\ flag v' 4 = flag v 4 /\ leaf_policy nx v' /\
  flag v' 2 = (if wide then flag v 2 && negb text else false) /\ (wide = true -> flag v' 0x200 = text).
Proof.
  intros Hwn He Hp (Hn & Hf & Hwx & Hnx). destruct one_bit_flags as (B1 & B2 & B4 & _ & B9 & B63).
  assert (narrow 0x200 /\ narrow PAE_NX) as [N9 N63] by (unfold narrow, is_u64; split_and!; vm_compute; (done || (split; done))).
  assert (forall M, Z.land M PAGE_ADDRESS_MASK = PAGE_ADDRESS_MASK -> forall w, frame_of (Z.land w M) = frame_of w) as Hfr.
  { intros M HM w. rewrite !frame_of_land64, <- Z.land_assoc. by rewrite HM. }
  unfold sealed, present, leaf_policy in *. destruct wide; cbv zeta.
  - assert (forall w, narrow w -> entry_ok true w) as Hen by (intros w [? _]; done).
    assert (forall w M, narrow w -> 0 <= M -> narrow (Z.land w M)) as Hnl by (intros; by apply narrow_land).
    change PAGE_FLAG_EXECUTABLE with 0x200. change PAE_WRITABLE with 2.
    match goal with |- _ /\ entry_ok _ ?w /\ _ => assert (narrow w) as Hn' end.
    { destruct text, nx; repeat first [apply narrow_lor | apply Hnl | done]. }
    pose proof (Hen _ Hn') as He'. revert Hn' He'.
    destruct text, nx; intros Hn' He'; rewrite ?flag_lor, ?flag_and, ?frame_of_or, ?Hfr, ?Hp by (done || by compute);
      change (frame_of 0x200) with 0; change (frame_of PAE_NX) with 0; rewrite ?Z.lor_0_r; mask_consts; done.
  - specialize (Hwn eq_refl) as ->. assert (is_u32 (Z.land v (not32 PAGE_FLAG_WRITABLE))) as Hu by (apply (land_range _ _ 32); by compute).
    assert (narrow (Z.land v (not32 PAGE_FLAG_WRITABLE))) as Hn' by (by apply narrow_u32).
    rewrite !flag_and, Hfr, Hp by (done || by compute). mask_consts. done.
Qed.

(** One step of either loop. *)
Definition seal_page (wide : bool) (text_end address : Z) (s : paging) : paging :=
  let table := table_at wide s (current_root wide s) (dir_of wide address) in
  write_entry wide table (leaf_of wide address)
    (sealed wide (paging_pae_nx_enabled s) (address <? text_end) (get wide (words s) table (leaf_of wide address))) s.

Fixpoint seal_loop (wide : bool) (fuel : nat) (address text_end end_ : Z) (s : paging) : option paging :=
  match fuel with
  | O => None
  | S fuel => if address <? end_ then seal_loop wide fuel (address +32 PAGE_SIZE) text_end end_ (seal_page wide text_end address s)
              else Some s
  end.

(** A page of the window, with its table. *)
Lemma window_page wide s n : paging_ok wide s -> 1 <= n < 1024 -> exists t,
  linked wide (view_of wide (words s)) (current_root wide s) (dir_of wide (n * 4096)) t /\
  table_at wide s (current_root wide s) (dir_of wide (n * 4096)) = t /\
  table_index wide (leaf_of wide (n * 4096)) /\ page_number wide (dir_of wide (n * 4096)) (leaf_of wide (n * 4096)) = n /\
  present (get wide (words s) t (leaf_of wide (n * 4096))) /\
  leaf_policy (paging_pae_nx_enabled s) (get wide (words s) t (leaf_of wide (n * 4096))).
Proof.
  intros Hok Hn. pose proof (ok_current _ _ Hok) as Hcur. pose proof (ok_forest wide s Hok) as HF.
  destruct (va_index wide (n * 4096) ltac:(unfold is_u32; lia)) as (Hi & Hj & Hpn). rewrite Z.div_mul in Hpn by lia.
  destruct (forest_low _ _ _ _ _ _ HF _ _ _ Hcur Hi Hj) as ((t & Hl & _) & Hp & _); [by rewrite Hpn|].
  destruct (forest_leaf _ _ _ _ _ _ HF _ _ _ Hcur Hi Hj Hp) as [_ Hlf]. cbn in Hp, Hlf.
  rewrite (linked_pte wide s _ _ _ _ Hl) in Hp, Hlf. rewrite present_norm in Hp. rewrite norm_present in Hlf by done.
  exists t. split; [done|]. split; [by apply linked_table_at|]. done.
Qed.

(** The pages of the kernel's space from [lo] up to [hi] are sealed, the others as they were. *)
Definition sealed_pages (wide nx : bool) (text_end K : Z) (m m' : tables) (lo hi : Z) : Prop :=
  forall i j, dir_index wide i -> table_index wide j -> pte_of wide m' K i j =
  if (lo <=? page_number wide i j) && (page_number wide i j <? hi)
  then sealed wide nx (page_number wide i j * 4096 <? text_end) (pte_of wide m K i j) else pte_of wide m K i j.

Lemma seal_page_ok wide text_end s n : paging_ok wide s -> current_root wide s = kernel_root wide s -> 1 <= n < 1024 ->
  let s' := seal_page wide text_end (n * 4096) s in
  paging_ok wide s' /\ keeps s s' /\ page_frames s' = page_frames s /\
  sealed_pages wide (paging_pae_nx_enabled s) text_end (kernel_root wide s) (words s) (words s') n (n + 1).
Proof.
  intros Hok HcK Hn. destruct (window_page wide s n Hok Hn) as (t & Hl & Ht & Hj & Hpn & Hp & Hlf).
  unfold seal_page. rewrite Ht. set (i := dir_of wide (n * 4096)) in *. set (j := leaf_of wide (n * 4096)) in *.
  set (v := get wide (words s) t j) in *. set (text := n * 4096 <? text_end).
  destruct (sealed_ok wide (paging_pae_nx_enabled s) text v (proj2 (ok_mode _ _ Hok)) (get_ok wide _ _ _ (ok_tables wide s Hok)) Hp Hlf)
    as (Hp' & He' & Hf' & H4' & Hlf' & _). set (v' := sealed wide (paging_pae_nx_enabled s) text v) in *. cbv zeta.
  assert (protected wide i j v' s true (write_entry wide t j v' s)) as [Hok' Hk' Hfr' _ Hnew Hoth].
  { apply (protect_tail wide s i j t v' v'); try done. apply put_tables_ok; [apply (ok_tables wide s Hok)|done]. }
  split; [done|]. split; [done|]. split; [done|].
  assert (sees wide s (current_root wide s) (current_root wide s) i) as Hsee by (by exists t).
  intros i' j' Hi' Hj'. destruct (decide (i' = i /\ j' = j)) as [[-> ->]|Hne].
  - rewrite Hpn. replace ((n <=? n) && (n <? n + 1)) with true by lia. rewrite <- HcK.
    rewrite (linked_pte wide s _ _ _ _ Hl). fold v. rewrite norm_present by done. fold text v'.
    destruct (write_effect wide _ _ _ (words s) (owner_at s) (current_root wide s) i j t v' (ok_spaces _ _ Hok) (ok_current _ _ Hok) Hl Hj He')
      as ([Hhit _] & _). cbn [words write_entry set_words]. rewrite Hhit; [by apply norm_present|apply Hok|done].
  - assert (page_number wide i' j' <> n) as Hpn' by (intros E; apply Hne, (page_number_inj wide); [done..|by rewrite Hpn]).
    replace ((n <=? page_number wide i' j') && (page_number wide i' j' <? n + 1)) with false by lia.
    apply Hoth; [done|apply kernel_in|done|done|]. rewrite HcK. naive_solver.
Qed.

Lemma seal_loop_ok wide text_end hi fuel : forall n s, paging_ok wide s -> current_root wide s = kernel_root wide s ->
  1 <= n -> hi <= 1024 -> Z.max 0 (hi - n) < Z.of_nat fuel -> exists s', seal_loop wide fuel (n * 4096) text_end (hi * 4096) s = Some s' /\
  paging_ok wide s' /\ keeps s s' /\ page_frames s' = page_frames s /\
  sealed_pages wide (paging_pae_nx_enabled s) text_end (kernel_root wide s) (words s) (words s') n hi.
Proof.
  induction fuel as [|fuel IH]; intros n s Hok HcK Hn Hhi Hfuel.
  { lia. }
  cbn [seal_loop]. destruct (Z.ltb_spec (n * 4096) (hi * 4096)) as [Hlt|Hge].
  2: { exists s. split; [done|]. split; [done|]. split; [done|]. split; [done|]. intros i j Hi Hj.
       by replace ((n <=? page_number wide i j) && (page_number wide i j <? hi)) with false by lia. }
  destruct (seal_page_ok wide text_end s n Hok HcK ltac:(lia)) as (Hok1 & Hk1 & Hf1 & Hp1). cbv zeta in *. revert Hok1 Hk1 Hf1 Hp1.
  generalize (seal_page wide text_end (n * 4096) s) as s1. intros s1 Hok1 Hk1 Hf1 Hp1.
  destruct (keeps_roots wide s s1 Hk1) as (EK & EL & EC & ER & EN).
  replace (n * 4096 +32 PAGE_SIZE) with ((n + 1) * 4096) by (unfold PAGE_SIZE; rewrite u32_id; unfold is_u32; lia).
  destruct (IH (n + 1) s1 Hok1) as (s' & Hs' & Hok' & Hk' & Hf' & Hp'); [by rewrite EC, EK|lia|lia|lia|].
  exists s'. split; [done|]. split; [done|]. split; [by eapply keeps_trans|]. split; [by rewrite Hf'|].
  rewrite EK, EN in Hp'. intros i j Hi Hj. rewrite (Hp' i j Hi Hj), (Hp1 i j Hi Hj).
  destruct (decide (page_number wide i j = n)) as [E|E].
  - rewrite E. replace (n + 1 <=? n) with false by lia. replace ((n <=? n) && (n <? n + 1)) with true by lia. cbn [andb].
    by replace ((n <=? n) && (n <? hi)) with true by lia.
  - replace ((n <=? page_number wide i j) && (page_number wide i j <? n + 1)) with false by lia.
    by replace ((n <=? page_number wide i j) && (page_number wide i j <? hi))
      with ((n + 1 <=? page_number wide i j) && (page_number wide i j <? hi)) by lia.
Qed.

(** The loops of the code are this one, as long as they stay in the window. *)
Lemma protect_loop_seal text_end hi fuel : forall n s, paging_ok false s -> current_root false s = kernel_root false s ->
  1 <= n -> hi <= 1024 -> protect_loop fuel (n * 4096) (hi * 4096) s = seal_loop false fuel (n * 4096) text_end (hi * 4096) s.
Proof.
  induction fuel as [|fuel IH]; intros n s Hok HcK Hn Hhi; [done|]. cbn [protect_loop seal_loop].
  destruct (Z.ltb_spec (n * 4096) (hi * 4096)) as [Hlt|Hge]; [|done].
  destruct (seal_page_ok false text_end s n Hok HcK ltac:(lia)) as (Hok1 & Hk1 & _). cbv zeta in *.
  assert (set_entry (get_page_table s (n * 4096)) (Z.land (Z.shiftr (n * 4096) 12) 0x3FF)
    (Z.land (entry_at s (get_page_table s (n * 4096)) (Z.land (Z.shiftr (n * 4096) 12) 0x3FF)) (not32 PAGE_FLAG_WRITABLE)) s =
    seal_page false text_end (n * 4096) s) as -> by (rewrite (legacy_get_table s Hok); done).
  revert Hok1 Hk1. generalize (seal_page false text_end (n * 4096) s) as s1. intros s1 Hok1 Hk1.
  replace (n * 4096 +32 PAGE_SIZE) with ((n + 1) * 4096) by (unfold PAGE_SIZE; rewrite u32_id; unfold is_u32; lia).
  destruct (keeps_roots false s s1 Hk1) as (EK & EL & EC & ER & EN).
  apply IH; [done|by rewrite EC, EK|lia|lia].
Qed.

Lemma pae_protect_loop_seal text_end hi fuel : forall n s, paging_ok true s -> current_root true s = kernel_root true s ->
  1 <= n -> hi <= 1024 -> pae_protect_loop fuel (n * 4096) text_end (hi * 4096) s = seal_loop true fuel (n * 4096) text_end (hi * 4096) s.
Proof.
  induction fuel as [|fuel IH]; intros n s Hok HcK Hn Hhi; [done|]. cbn [pae_protect_loop seal_loop].
  destruct (Z.ltb_spec (n * 4096) (hi * 4096)) as [Hlt|Hge]; [|done].
  destruct (seal_page_ok true text_end s n Hok HcK ltac:(lia)) as (Hok1 & Hk1 & _). cbv zeta in *.
  rewrite (pae_get_table s Hok (n * 4096)) by (unfold is_u32; lia).
  change (pae_set_entry _ _ _ s) with (seal_page true text_end (n * 4096) s).
  revert Hok1 Hk1. generalize (seal_page true text_end (n * 4096) s) as s1. intros s1 Hok1 Hk1.
  replace (n * 4096 +32 PAGE_SIZE) with ((n + 1) * 4096) by (unfold PAGE_SIZE; rewrite u32_id; unfold is_u32; lia).
  destruct (keeps_roots true s s1 Hk1) as (EK & EL & EC & ER & EN).
  apply IH; [done|by rewrite EC, EK|lia|lia].
Qed.

(** ** Turning paging on *)

(** The linker's symbols: the image starts on a page and lies in the identity window. *)
Definition kernel_image (text_start text_end rodata_end : Z) : Prop :=
  text_start mod 4096 = 0 /\ 4096 <= text_start /\ 0 <= text_end <= rodata_end /\ rodata_end <= 0x400000.

Lemma round_up_page_eq x : 0 <= x <= 0x400000 -> round_up_page x = (x + 4095) / 4096 * 4096.
Proof.
  intros Hx. unfold round_up_page, PAGE_SIZE. rewrite !u32_id by (unfold is_u32; lia || rewrite u32_id; unfold is_u32; lia).
  rewrite frame_of_land by (unfold is_u32; lia). rewrite frame_of_eq, u32_id by (unfold is_u32; lia). do 2 f_equal. lia.
Qed.

Lemma validate_fuel_enough n hi : Z.max 0 (hi - n) < Z.of_nat (validate_fuel (n * 4096) (hi * 4096)).
Proof.
  unfold validate_fuel, PAGE_SIZE. rewrite <- Z.mul_sub_distr_r, Z.div_mul by lia. lia.
Qed.

Lemma protect_kernel_ok wide text_start text_end rodata_end s : paging_ok wide s -> current_root wide s = kernel_root wide s ->
  kernel_image text_start text_end rodata_end ->
  exists s', protect_kernel_read_only text_start text_end rodata_end s = Some s' /\
  paging_ok wide s' /\ keeps s s' /\ page_frames s' = page_frames s /\
  sealed_pages wide (paging_pae_nx_enabled s) ((text_end + 4095) / 4096 * 4096) (kernel_root wide s) (words s) (words s')
    (text_start / 4096) ((rodata_end + 4095) / 4096).
Proof.
  intros Hok HcK (Hal & Hlo & Hte & Hre). unfold protect_kernel_read_only. rewrite (proj1 (ok_mode _ _ Hok)).
  rewrite !round_up_page_eq by lia. set (hi := (rodata_end + 4095) / 4096).
  assert (exists n, text_start = n * 4096) as [n ->] by (exists (text_start / 4096); dmlia). rewrite Z.div_mul by lia.
  assert (1 <= n /\ hi <= 1024) as [Hn Hhi] by (unfold hi; dmlia).
  destruct wide; [rewrite pae_protect_loop_seal by done|rewrite (protect_loop_seal ((text_end + 4095) / 4096 * 4096)) by done];
    (apply seal_loop_ok; [done|done|done|done|apply validate_fuel_enough]).
Qed.

(** The registers [enable_paging] leaves. *)
Definition enabled_cpu (s : paging) : cpu :=
  let r := registers s in
  let c4 := if paging_pae_enabled s then Z.lor (cr4 r) CR4_PAE else cr4 r in
  Build_cpu (Z.lor (cr0 r) (Z.lor PAGE_ENABLE PAGE_WRITE_PROTECT)) (page_directory_physical s) c4
    (if paging_pae_enabled s && paging_pae_nx_enabled s then Z.lor (efer r) EFER_NXE else efer r)
    (if flag c4 CR4_PAE then entry64 (words s) (page_directory_physical s) <$> seqZ 0 4 else pdptes r).

Lemma enable_paging_eq s :
  enable_paging s = set_modes (set_registers s (enabled_cpu s)) true (paging_pae_enabled s) (paging_pae_nx_enabled s).
Proof.
  destruct s as [w d pf r p1 p2 p3 p4 l1 n1 en pae nx q1 q2 q3 q4 l2 n2].
  destruct pae; [|reflexivity]. destruct nx; reflexivity.
Qed.

Lemma enable_paging_registers s : flag (cr4 (registers s)) CR4_PAE = false ->
  (paging_pae_enabled s = false -> paging_pae_nx_enabled s = false) ->
  let r := enabled_cpu s in
  cr3 r = page_directory_physical s /\ flag (cr0 r) PAGE_ENABLE = true /\ flag (cr0 r) PAGE_WRITE_PROTECT = true /\
  flag (cr4 r) CR4_PAE = paging_pae_enabled s /\ (paging_pae_nx_enabled s = true -> flag (efer r) EFER_NXE = true) /\
  (paging_pae_enabled s = true -> pdptes r = entry64 (words s) (page_directory_physical s) <$> seqZ 0 4).
Proof.
  intros Hcr4 Hnx. unfold enabled_cpu. cbn [cr0 cr3 cr4 efer pdptes]. rewrite !flag_lor.
  change (flag PAGE_ENABLE PAGE_ENABLE) with true. change (flag PAGE_WRITE_PROTECT PAGE_WRITE_PROTECT) with true.
  rewrite !orb_true_r. split; [reflexivity|]. split; [reflexivity|]. split; [reflexivity|].
  destruct (paging_pae_enabled s).
  - rewrite flag_lor. change (flag CR4_PAE CR4_PAE) with true. rewrite orb_true_r. split; [reflexivity|]. split; [|reflexivity].
    intros ->. cbn [andb]. rewrite flag_lor. change (flag EFER_NXE EFER_NXE) with true. apply orb_true_r.
  - split; [exact Hcr4|]. split; [|discriminate]. intros H. by rewrite (Hnx eq_refl) in H.
Qed.

Lemma enable_paging_ok wide s : paging_ok wide s -> flag (cr4 (registers s)) CR4_PAE = false ->
  let s' := enable_paging s in
  paging_ok wide s' /\ coherent wide s' /\ paging_enabled s' = true /\ words s' = words s /\ data s' = data s /\
  page_frames s' = page_frames s /\ kernel_root wide s' = kernel_root wide s /\ current_root wide s' = current_root wide s /\
  space_list wide s' = space_list wide s /\ paging_pae_nx_enabled s' = paging_pae_nx_enabled s.
Proof.
  intros [H1 H2 H3 H4 H5 H6 H7] Hcr4. destruct H1 as [Hpae Hnx].
  destruct (enable_paging_registers s Hcr4) as (R3 & R0 & Rw & R4 & Re & Rp); [by rewrite Hpae|].
  cbv zeta. rewrite enable_paging_eq. revert R3 R0 Rw R4 Re Rp. generalize (enabled_cpu s) as r. intros r R3 R0 Rw R4 Re Rp.
  assert (page_directory_physical s = current_root wide s) as Hcur by (destruct wide; [apply H4|done]).
  split; [|split; [|done]].
  - split; try done. intros _. cbn [registers set_modes set_registers]. rewrite R3, R0, Rw, R4, Hpae, Hcur. done.
  - intros -> q Hq. apply loaded_node; [|done]. cbn [registers set_modes set_registers words]. rewrite Rp by (by rewrite Hpae). by rewrite Hcur.
Qed.

(** ** The whole initialisation *)

(** The state [kernel_main] calls [paging_init] in: paging is off and no frame is mapped for user
    mode. The words of memory are arbitrary. *)
Record boot_state (s : paging) : Prop := {
  boot_pmm : pmm_wf (page_frames s);
  boot_words : tables_ok (words s);
  boot_users : forall x, is_u32 x -> x mod 4096 = 0 -> owner_at s x <> User true;
  boot_off : paging_enabled s = false;
  boot_cr4 : flag (cr4 (registers s)) CR4_PAE = false;
  boot_spaces : length (address_spaces s) = 16%nat /\ length (pae_address_spaces s) = 16%nat
}.

(** What page [n] is to be afterwards: nothing at 0, the identity window with the kernel image
    protected, and the framebuffer. *)
Definition image_page (text_start rodata_end n : Z) : bool :=
  (text_start / 4096 <=? n) && (n <? (rodata_end + 4095) / 4096).

Definition boot_writable (wide : bool) (text_start text_end rodata_end n : Z) : bool :=
  if image_page text_start rodata_end n then wide && negb (n * 4096 <? (text_end + 4095) / 4096 * 4096) else true.

Definition framebuffer_number (font : bool) (n : Z) : bool :=
  font && (framebuffer_base <=? n) && (n <? framebuffer_base + 768).

Definition boot_page (wide font : bool) (text_start text_end rodata_end n : Z) : option translation :=
  if (1 <=? n) && (n <? 1024) then
    Some (Build_translation (n * 4096) (boot_writable wide text_start text_end rodata_end n) false)
  else if framebuffer_number font n then Some (Build_translation (n * 4096) true false)
  else None.

(** The identity stage and the framebuffer. *)
Record window_mapped (wide font : bool) (s : paging) : Prop := {
  wm_ok : paging_ok wide s;
  wm_alone : space_list wide s = [] /\ current_root wide s = kernel_root wide s;
  wm_pages : forall i j, dir_index wide i -> table_index wide j ->
    let n := page_number wide i j in
    if ((1 <=? n) && (n <? 1024)) || framebuffer_number font n
    then entry_for (paging_pae_nx_enabled s) (n * 4096) 2 (pte_of wide (words s) (kernel_root wide s) i j)
    else pte_of wide (words s) (kernel_root wide s) i j = 0
}.

Lemma identity_window wide s s' : identity_mapped wide s s' -> window_mapped wide false s'.
Proof.
  intros [Hok Hal (_ & _ & _ & _ & Hnx) (tab & Hid)]. split; [done|done|].
  intros i j Hi Hj. cbv zeta. unfold framebuffer_number. cbn [andb]. rewrite orb_false_r, Hnx.
  pose proof (low_table wide i j Hi Hj) as Hlt. assert (0 <= page_number wide i j) as Hpn.
  { unfold page_number, dir_index, table_index in *. destruct wide; cbn in *; lia. }
  destruct (decide (i < low_tables wide)) as [Hil|Hil].
  - pose proof (it_pte _ _ _ _ _ _ Hid i j ltac:(unfold dir_index in Hi; lia) Hj) as Hp.
    destruct (Z.eqb_spec (page_number wide i j) 0) as [E|E].
    + rewrite E in *. done.
    + replace ((1 <=? page_number wide i j) && (page_number wide i j <? 1024)) with true by lia. done.
  - replace ((1 <=? page_number wide i j) && (page_number wide i j <? 1024)) with false by lia.
    unfold pte_of. rewrite (it_pde _ _ _ _ _ _ Hid i Hi). replace (i <? low_tables wide) with false by lia. done.
Qed.

Lemma map_framebuffer_index n : forall index s k s', map_framebuffer n index s = (Some k, s') -> index <= k < index + Z.of_nat n.
Proof.
  induction n as [|n IH]; intros index s k s'; cbn [map_framebuffer]; [done|].
  destruct (paging_map_page _ _ _ s) as [ok s1]. destruct ok; cbn [negb]; [intros H%IH; lia|]. intros [= <- _]. lia.
Qed.

Lemma framebuffer_window wide s s' : window_mapped wide false s ->
  map_framebuffer (Z.to_nat VBE_FRAMEBUFFER_PAGES) 0 s = (None, s') -> window_mapped wide true s' /\ keeps s s'.
Proof.
  intros [Hok [Hal HcK] Hpg] E. destruct (map_framebuffer_ok wide (Z.to_nat VBE_FRAMEBUFFER_PAGES) 0 s None s' Hok HcK) as (Hok' & Hk & _ & Hfb);
    [lia|by compute|done|]. specialize (Hfb eq_refl). change (0 + Z.of_nat (Z.to_nat VBE_FRAMEBUFFER_PAGES)) with 768 in Hfb.
  destruct (keeps_roots wide s s' Hk) as (EK & EL & EC & ER & EN). split; [|done]. split; [done|by rewrite EL, EC, EK|].
  intros i j Hi Hj. specialize (Hfb i j Hi Hj). specialize (Hpg i j Hi Hj). cbv zeta in *. rewrite EN, EK.
  unfold framebuffer_number in *. cbn [andb] in *. rewrite orb_false_r in Hpg. rewrite Z.add_0_r in Hfb.
  destruct ((framebuffer_base <=? page_number wide i j) && (page_number wide i j <? framebuffer_base + 768)) eqn:Ef.
  - by rewrite orb_true_r.
  - rewrite orb_false_r, Hfb. done.
Qed.

(** What [paging_init] leaves when it succeeds. *)
Record paging_started (wide nx font : bool) (text_start text_end rodata_end : Z) (s' : paging) : Prop := {
  started_ok : paging_ok wide s';
  started_on : paging_enabled s' = true /\ coherent wide s' /\ paging_pae_nx_enabled s' = nx;
  started_alone : space_list wide s' = [] /\ current_root wide s' = kernel_root wide s';
  started_pages : forall va, is_u32 va -> translate s' va = boot_page wide font text_start text_end rodata_end (va / 4096)
}.

Lemma pte_entry_ok wide m r i j : tables_ok m -> entry_ok wide (pte_of wide m r i j).
Proof.
  intros Hm. assert (entry_ok wide 0) as H0 by (destruct wide; by compute). unfold pte_of, norm. repeat case_if; try done.
  by apply get_ok.
Qed.

(** An entry of the window, sealed or not, as the processor reads it. *)
Lemma window_translation wide nx text n v : (wide = false -> nx = false) -> entry_ok wide v -> entry_for nx (n * 4096) 2 v ->
  entry_translation v = Some (Build_translation (n * 4096) true false) /\
  entry_translation (sealed wide nx text v) = Some (Build_translation (n * 4096) (wide && negb text) false).
Proof.
  intros Hwn He (Hp & Hf & H2 & H4 & _ & _ & Hlf). change (flag 2 2) with true in H2. change (flag 2 4) with false in H4.
  destruct (sealed_ok wide nx text v Hwn He Hp Hlf) as (Hp' & _ & Hf' & H4' & _ & H2' & _). cbv zeta in *.
  unfold entry_translation. unfold present in *. rewrite Hp, Hp', Hf', Hf, H4', H4, H2', H2. split; [done|]. by destruct wide.
Qed.

Lemma finish_init_ok wide font text_start text_end rodata_end s : window_mapped wide font s ->
  kernel_image text_start text_end rodata_end -> flag (cr4 (registers s)) CR4_PAE = false ->
  exists s', finish_init text_start text_end rodata_end s = Some (true, s') /\
  paging_started wide (paging_pae_nx_enabled s) font text_start text_end rodata_end s' /\ page_frames s' = page_frames s /\ data s' = data s.
Proof.
  intros [Hok [Hal HcK] Hpg] Him Hcr4. unfold finish_init.
  destruct (protect_kernel_ok wide _ _ _ s Hok HcK Him) as (s1 & -> & Hok1 & Hk1 & Hf1 & Hs1).
  destruct (keeps_roots wide s s1 Hk1) as (EK & EL & EC & ER & EN). destruct Hk1 as (_ & Hd1 & Hr1).
  destruct (enable_paging_ok wide s1 Hok1) as (Hok2 & Hco & Hen & Hw2 & Hd2 & Hf2 & HK2 & HC2 & HL2 & HN2); [by rewrite Hr1|].
  exists (enable_paging s1). split; [done|]. split; [|by rewrite Hf2, Hf1, Hd2, Hd1]. split.
  - done.
  - by rewrite HN2, EN.
  - by rewrite HL2, EL, HC2, HK2, EC, EK.
  - intros va Hva. rewrite (translate_spec wide _ va Hok2 Hen Hco Hva). destruct (va_index wide va Hva) as (Hi & Hj & Hpn).
    unfold leaf_entry. rewrite HC2, EC, HcK, Hw2, (Hs1 _ _ Hi Hj), Hpn. specialize (Hpg _ _ Hi Hj). cbv zeta in Hpg. rewrite Hpn in Hpg.
    pose proof (pte_entry_ok wide (words s) (kernel_root wide s) (dir_of wide va) (leaf_of wide va) (ok_tables wide s Hok)) as He.
    revert Hpg He. generalize (pte_of wide (words s) (kernel_root wide s) (dir_of wide va) (leaf_of wide va)) as v. intros v Hv He.
    destruct Him as (Hts & Hts' & Hte & Hre). unfold boot_page, boot_writable, image_page.
    assert (0 <= va / 4096 /\ 1 <= text_start / 4096 /\ (rodata_end + 4095) / 4096 <= 1024) as (Hn0 & Hlo & Hhi)
      by (unfold is_u32 in Hva; dmlia).
    set (n := va / 4096) in *. set (lo := text_start / 4096) in *. set (hi := (rodata_end + 4095) / 4096) in *.
    destruct ((lo <=? n) && (n <? hi)) eqn:Eim.
    + replace ((1 <=? n) && (n <? 1024)) with true in * by lia. cbn [orb] in Hv.
      by destruct (window_translation wide _ (n * 4096 <? (text_end + 4095) / 4096 * 4096) n v (proj2 (ok_mode _ _ Hok)) He Hv) as [_ ->].
    + destruct ((1 <=? n) && (n <? 1024)) eqn:Ew; cbn [orb] in Hv;
        [by destruct (window_translation wide _ true n v (proj2 (ok_mode _ _ Hok)) He Hv) as [-> _]|].
      destruct (framebuffer_number font n); [|by rewrite Hv].
      by destruct (window_translation wide _ true n v (proj2 (ok_mode _ _ Hok)) He Hv) as [-> _].
Qed.

(** *** When a frame is missing *)

(** The frames of [T] were free and are now the kernel's. *)
Record taking (s : paging) (T : Z -> Prop) (s' : paging) : Prop := {
  tk_same : s' = set_page_frames s (page_frames s');
  tk_pmm : pmm_wf (page_frames s');
  tk_own : forall x, is_u32 x -> x mod 4096 = 0 ->
    (T x /\ owner_at s x = Free /\ owner_at s' x = Kernel) \/ (~ T x /\ owner_at s' x = owner_at s x);
  tk_pages : forall x, T x -> low_page x
}.

Lemma taking_iff s T T' s' : taking s T s' -> (forall x, T x <-> T' x) -> taking s T' s'.
Proof.
  intros [? ? Ho Hp] Hiff. split; try done; [|intros x Hx; by apply Hp, Hiff]. intros x Hx Ha. rewrite <- Hiff. by apply Ho.
Qed.

Lemma taking_start s : pmm_wf (page_frames s) -> taking s (fun _ => False) s.
Proof. intros. split; try done; [by destruct s|]. intros x _ _. right. split; [tauto|done]. Qed.

Lemma taking_alloc s T s' a s1 : taking s T s' -> alloc_low s' = (a, s1) ->
  taking s (fun x => T x \/ (x = a /\ a <> 0)) s1 /\ (a <> 0 -> ~ T a).
Proof.
  intros [Hs Hwf Ho Hp] E. destruct (alloc_low_spec s' a s1 Hwf E) as (Hs1 & Hwf1 & [[-> Hown]|(Hlow & Hfree & Hown)]).
  - split; [|done]. split; [by rewrite Hs1, Hs|done| |intros x [?|[_ ?]]; [by apply Hp|done]].
    intros x Hx Ha. rewrite Hown by done. destruct (Ho x Hx Ha) as [?|[? ?]]; [left|right]; naive_solver.
  - pose proof (low_page_u32 a Hlow) as (Hu & Hal & _).
    assert (~ T a /\ owner_at s a = Free) as [HT Hf].
    { destruct (Ho a Hu Hal) as [(_ & _ & H)|[? H]]; [by rewrite Hfree in H|]. split; [done|]. by rewrite <- H. }
    split; [|done]. split; [by rewrite Hs1, Hs|done| |intros x [?|[-> _]]; [by apply Hp|done]].
    intros x Hx Ha. rewrite Hown by done. unfold own_set. assert (a <> 0) by (unfold low_page in Hlow; lia).
    case_decide as Hxa; [subst; left; split; [by right|done]|]. destruct (Ho x Hx Ha) as [?|[? ?]]; [left|right]; naive_solver.
Qed.

Lemma taking_free s T s' a : taking s T s' -> (a <> 0 -> T a) -> taking s (fun x => T x /\ x <> a) (free_nonzero a s').
Proof.
  intros [Hs Hwf Ho Hp] HT. unfold free_nonzero. destruct (Z.eqb_spec a 0) as [->|Hnz]; cbn [negb].
  - split; try done; [|intros x [? _]; by apply Hp]. intros x Hx Ha. destruct (Ho x Hx Ha) as [(? & ? & ?)|[? ?]]; [left|right].
    + split; [|done]. split; [done|]. intros ->. apply Hp in H. unfold low_page in H. lia.
    + split; [tauto|done].
  - specialize (HT Hnz). pose proof (low_page_u32 a (Hp a HT)) as (Hu & Hal & _).
    destruct (Ho a Hu Hal) as [(_ & Hf & Hk)|[? _]]; [|done].
    destruct (free_frame_spec s' a Hwf Hu Hal (or_introl Hk)) as [Hwf1 Hown].
    split; [by rewrite Hs|done| |intros x [? _]; by apply Hp]. intros x Hx Ha. rewrite Hown by done. unfold own_set.
    case_decide as Hxa; [subst; right; split; [tauto|done]|]. destruct (Ho x Hx Ha) as [(? & ? & ?)|[? ?]]; [left|right]; tauto.
Qed.

Lemma taking_none s T s' : taking s T s' -> (forall x, ~ T x) -> own_eq (owner_at s) (owner_at s').
Proof. intros [_ _ Ho _] HT x Hx Ha. destruct (Ho x Hx Ha) as [[? _]|[_ ?]]; [by destruct (HT x)|done]. Qed.

(** The result of the call. A failed call leaves paging off and, unless a framebuffer was being
    mapped, gives every frame back. *)
Definition init_result (wide nx font : bool) (text_start text_end rodata_end : Z) (s : paging) (ok : bool) (s' : paging) : Prop :=
  if ok then paging_started wide nx font text_start text_end rodata_end s'
  else paging_enabled s' = false /\ (font = false -> own_eq (owner_at s) (owner_at s')).

Lemma boot_before s : boot_state s -> before_tables s [].
Proof. intros [? ? ? ? ? ?]. split; try done. split; [constructor|]. by intros x ?%elem_of_nil. Qed.

Lemma before_tables_directory s fs p q : before_tables s fs -> before_tables (set_page_directory s p q) fs.
Proof. intros [? ? ? ? ? ?]. by split. Qed.

Lemma alloc_low_directory s p q : alloc_low (set_page_directory s p q) =
  let '(a, s') := alloc_low s in (a, set_page_directory s' p q).
Proof. unfold alloc_low. cbn. by destruct (pmm_alloc_block_below LOW_IDENTITY_LIMIT (page_frames s)). Qed.

Lemma free_nonzero_directory a s p q : free_nonzero a (set_page_directory s p q) = set_page_directory (free_nonzero a s) p q.
Proof. unfold free_nonzero. by destruct (a =? 0). Qed.

(** From the identity stage to the end; [fail] is what the code does when the framebuffer fails. *)
Lemma init_tail wide text_start text_end rodata_end info s0 s fail :
  window_mapped wide false s -> kernel_image text_start text_end rodata_end -> flag (cr4 (registers s)) CR4_PAE = false ->
  paging_enabled s = false ->
  (forall index s', 0 <= index < 768 -> paging_ok wide s' -> keeps s s' -> paging_enabled (fail index s') = false) ->
  exists ok s', (let '(failed, s) :=
      if font_available info then map_framebuffer (Z.to_nat VBE_FRAMEBUFFER_PAGES) 0 s else (None, s) in
    match failed with
    | Some index => Some (false, fail index s)
    | None => finish_init text_start text_end rodata_end s
    end) = Some (ok, s') /\
  init_result wide (paging_pae_nx_enabled s) (font_available info) text_start text_end rodata_end s0 ok s'.
Proof.
  intros Hwm Him Hcr4 Hoff Hfail. destruct (font_available info).
  - destruct (map_framebuffer (Z.to_nat VBE_FRAMEBUFFER_PAGES) 0 s) as [failed s1] eqn:E. destruct failed as [index|].
    + exists false, (fail index s1). split; [done|]. split; [|done]. destruct Hwm as [Hok [_ HcK] _].
      destruct (map_framebuffer_ok wide (Z.to_nat VBE_FRAMEBUFFER_PAGES) 0 s _ s1 Hok HcK ltac:(lia) ltac:(by compute) E) as (Hok1 & Hk1 & _).
      apply Hfail; [|done|done]. pose proof (map_framebuffer_index _ _ _ _ _ E) as Hr. by change (0 + _) with 768 in Hr.
    + destruct (framebuffer_window wide s s1 Hwm E) as [Hwm1 Hk1].
      destruct (finish_init_ok wide true text_start text_end rodata_end s1 Hwm1 Him) as (s' & Hs' & Hst & _).
      { destruct Hk1 as (_ & _ & ->). done. }
      exists true, s'. split; [done|]. destruct (keeps_roots wide s s1 Hk1) as (_ & _ & _ & _ & <-). done.
  - destruct (finish_init_ok wide false text_start text_end rodata_end s Hwm Him Hcr4) as (s' & Hs' & Hst & _).
    by exists true, s'.
Qed.

(** Unmapping in the kernel's space alone is safe. *)
Lemma unmap_framebuffer_off wide n : forall s, (n <= 768)%nat -> paging_ok wide s -> space_list wide s = [] ->
  paging_enabled (unmap_framebuffer n s) = paging_enabled s.
Proof.
  induction n as [|n IH]; intros s Hn Hok HL; cbn [unmap_framebuffer]; [done|].
  destruct (framebuffer_page_eq (Z.of_nat n) ltac:(lia)) as (_ & Hu & _).
  destruct (paging_unmap_page (framebuffer_page (Z.of_nat n)) s) as [pa s1] eqn:E.
  assert (unmap_safe wide s (dir_of wide (framebuffer_page (Z.of_nat n))) (leaf_of wide (framebuffer_page (Z.of_nat n)))) as Hsafe.
  { intros _. right. intros r Hr _. unfold roots in Hr. rewrite HL in Hr. by apply list_elem_of_singleton in Hr. }
  destruct (unmap_page_ok wide s _ pa s1 Hok Hu Hsafe E) as [Hok1 [Hc1 _] _ _ _ _ _ _]. cbn [snd].
  destruct (config_fields wide s s1 Hc1) as (_ & _ & HL1 & _ & _ & _ & _ & He1).
  rewrite IH; [done|lia|done|by rewrite HL1].
Qed.

Lemma legacy_init_ok text_start text_end rodata_end info s : boot_state s -> kernel_image text_start text_end rodata_end ->
  paging_pae_enabled s = false -> paging_pae_nx_enabled s = false -> exists ok s',
  legacy_init text_start text_end rodata_end info s = Some (ok, s') /\
  init_result false false (font_available info) text_start text_end rodata_end s ok s'.
Proof.
  intros Hb Him Hpae Hnx. unfold legacy_init. destruct (alloc_low s) as [a s1] eqn:E1.
  rewrite alloc_low_directory. destruct (alloc_low s1) as [b s2] eqn:E2.
  destruct (taking_alloc s _ s a s1 (taking_start s (boot_pmm s Hb)) E1) as [Ht1 _].
  destruct (taking_alloc s _ s1 b s2 Ht1 E2) as [Ht2 Hne]. cbn [page_directory_physical set_page_directory page_directory].
  destruct ((a =? 0) || (b =? 0)) eqn:Ez.
  { eexists false, _. split; [reflexivity|]. rewrite !free_nonzero_directory.
    pose proof (taking_free s _ s2 a Ht2) as Hf1. pose proof (taking_free s _ _ b (Hf1 ltac:(naive_solver))) as Hf2.
    specialize (Hf2 ltac:(naive_solver)). split; [|intros _; apply (taking_none s _ _ Hf2); naive_solver].
    cbn. destruct Hf2 as [-> _ _ _]. apply Hb. }
  apply orb_false_iff in Ez as [Ea Eb]. apply Z.eqb_neq in Ea, Eb.
  destruct (before_tables_alloc s [] a s1 (boot_before s Hb) E1 Ea) as [Hb1 Hs1].
  destruct (before_tables_alloc s1 [a] b s2 Hb1 E2 Eb) as [Hb2 Hs2].
  pose proof (before_tables_directory s2 _ (page_directory s1) a (before_tables_perm _ _ [a; b] Hb2 ltac:(solve_Permutation))) as Hb3.
  set (s3 := set_page_directory s2 (page_directory s1) a) in *.
  assert (paging_pae_enabled s3 = false /\ paging_pae_nx_enabled s3 = false /\ registers s3 = registers s) as (Hp3 & Hn3 & Hr3)
    by (unfold s3; rewrite Hs2, Hs1; done).
  pose proof (legacy_identity_ok a b s3 Hb3 eq_refl Hp3 Hn3) as Him3. revert Him3. generalize (legacy_identity b s3) as s4.
  intros s4 Him4. pose proof (identity_window false s3 s4 Him4) as Hwm. destruct Him4 as [_ [HL4 _] (_ & _ & Hr4 & He4 & Hn4) _].
  assert (paging_pae_nx_enabled s4 = false) as Hnx4 by (by rewrite Hn4).
  pose proof (init_tail false text_start text_end rodata_end info s s4 (fun index s =>
    let s := unmap_framebuffer (Z.to_nat index) s in
    let s := free_frame b s in
    let s := free_frame (page_directory_physical s) s in set_page_directory s 0 0) Hwm Him) as Htail. rewrite Hnx4 in Htail.
  apply Htail.
  - rewrite Hr4, Hr3. apply Hb.
  - rewrite He4. apply Hb3.
  - intros index s' Hi Hok' Hk'. cbn. destruct (config_fields false s4 s' (proj1 Hk')) as (_ & _ & HL' & _ & _ & _ & _ & He').
    rewrite (unmap_framebuffer_off false); [by rewrite He', He4; apply Hb3|lia|done|by rewrite HL'].
Qed.

Lemma pae_init_ok text_start text_end rodata_end info s : boot_state s -> kernel_image text_start text_end rodata_end ->
  paging_pae_enabled s = true -> exists ok s',
  pae_init text_start text_end rodata_end info s = Some (ok, s') /\
  init_result true (paging_pae_nx_enabled s) (font_available info) text_start text_end rodata_end s ok s'.
Proof.
  intros Hb Him Hpae. unfold pae_init. destruct (alloc_low s) as [a s1] eqn:E1. destruct (alloc_low s1) as [d s2] eqn:E2.
  destruct (alloc_low s2) as [b1 s3] eqn:E3. destruct (alloc_low s3) as [b2 s4] eqn:E4.
  destruct (taking_alloc s _ s a s1 (taking_start s (boot_pmm s Hb)) E1) as [Ht1 N1].
  destruct (taking_alloc s _ s1 d s2 Ht1 E2) as [Ht2 N2]. destruct (taking_alloc s _ s2 b1 s3 Ht2 E3) as [Ht3 N3].
  destruct (taking_alloc s _ s3 b2 s4 Ht3 E4) as [Ht4 N4].
  destruct ((a =? 0) || (d =? 0) || (b1 =? 0) || (b2 =? 0)) eqn:Ez.
  { eexists false, _. split; [reflexivity|].
    pose proof (taking_free s _ s4 a Ht4 ltac:(naive_solver)) as F1.
    pose proof (taking_free s _ _ d F1 ltac:(naive_solver)) as F2.
    pose proof (taking_free s _ _ b1 F2 ltac:(naive_solver)) as F3.
    pose proof (taking_free s _ _ b2 F3 ltac:(naive_solver)) as F4.
    split; [destruct F4 as [-> _ _ _]; apply Hb|intros _; apply (taking_none s _ _ F4); naive_solver]. }
  rewrite !orb_false_iff, !Z.eqb_neq in Ez. destruct Ez as (((Ea & Ed) & Eb1) & Eb2).
  destruct (before_tables_alloc s [] a s1 (boot_before s Hb) E1 Ea) as [Hb1 Hs1].
  destruct (before_tables_alloc s1 _ d s2 Hb1 E2 Ed) as [Hb2 Hs2].
  destruct (before_tables_alloc s2 _ b1 s3 Hb2 E3 Eb1) as [Hb3 Hs3].
  destruct (before_tables_alloc s3 _ b2 s4 Hb3 E4 Eb2) as [Hb4 Hs4].
  pose proof (before_tables_perm s4 _ [a; d; b1; b2] Hb4 ltac:(solve_Permutation)) as Hb5.
  assert (paging_pae_enabled s4 = true /\ paging_pae_nx_enabled s4 = paging_pae_nx_enabled s /\ registers s4 = registers s)
    as (Hp4 & Hn4 & Hr4) by (rewrite Hs4, Hs3, Hs2, Hs1; done).
  pose proof (pae_identity_ok a d b1 b2 s4 Hb5 Hp4) as Him4. revert Him4. generalize (pae_identity a d b1 b2 s4) as s5.
  intros s5 Him5. pose proof (identity_window true s4 s5 Him5) as Hwm. destruct Him5 as [_ _ (_ & _ & Hr5 & He5 & Hn5) _].
  rewrite <- Hn4, <- Hn5. apply (init_tail true text_start text_end rodata_end info s s5 (fun _ s => s)); [done|done| | |].
  - rewrite Hr5, Hr4. apply Hb.
  - rewrite He5. apply Hb4.
  - intros index s' Hi Hok' Hk'. destruct (config_fields true s5 s' (proj1 Hk')) as (_ & _ & _ & _ & _ & _ & _ & He').
    rewrite He', He5. apply Hb4.
Qed.

Lemma init_ok pae nx text_start text_end rodata_end info s : boot_state s -> kernel_image text_start text_end rodata_end ->
  exists ok s', paging_init pae nx text_start text_end rodata_end info s = Some (ok, s') /\
  init_result pae (pae && nx) (font_available info) text_start text_end rodata_end s ok s'.
Proof.
  intros [H1 H2 H3 H4 H5 H6] Him. unfold paging_init. destruct pae.
  - apply (pae_init_ok text_start text_end rodata_end info
      (set_modes (set_pae_spaces (set_kernel_pdpt (set_pdpt (set_modes s (paging_enabled s) false false) 0 0) 0 0) (pae_address_spaces s) 0)
        (paging_enabled s) true nx)); [by split|done|done].
  - apply (legacy_init_ok text_start text_end rodata_end info
      (set_pae_spaces (set_kernel_pdpt (set_pdpt (set_modes s (paging_enabled s) false false) 0 0) 0 0) (pae_address_spaces s) 0));
      [by split|done|done|done].
Qed.
