(* ===== verification/PagingUser.v ===== *)
(** * Access to user memory

    [paging_validate_user_range] and [paging_validate_user_execute] accept exactly what the processor
    allows user mode, and the copies between the kernel and user memory transfer exactly the bytes
    of the range, without a page fault. *)

From S2P Require Import Prelude Checked Pmm PmmSpec PagingState PagingPae Paging PagingEntry PagingForest PagingView PagingInv PagingOps PagingHw.
Local Open Scope c_scope.
Local Open Scope Z_scope.

(** ** One page *)

(** What the entry of an address allows user mode. *)
Definition user_access (wide : bool) (s : paging) (writable : bool) (va : Z) : bool :=
  let v := leaf_entry wide s va in flag v 1 && flag v 4 && (negb writable || flag v 2).

Definition user_execute (wide : bool) (s : paging) (va : Z) : bool :=
  let v := leaf_entry wide s va in
  flag v 1 && flag v 4 && negb (flag v 2) && flag v 0x200 && (negb (paging_pae_nx_enabled s) || negb (flag v PAE_NX)).

(** Comparing the bits of a mask. *)
Lemma mask_test v M X : 0 <= M < 1024 -> 0 <= X < 1024 ->
  (Z.land v M =? X) = all_range 0 10 (fun n => Bool.eqb (Z.testbit v n && Z.testbit M n) (Z.testbit X n)).
Proof.
  intros HM HX. apply eq_iff_eq_true. rewrite Z.eqb_eq, all_range_true. setoid_rewrite eqb_true_iff. split.
  - intros <- n _. by rewrite Z.land_spec.
  - intros H. apply Z.bits_inj'. intros n Hn. rewrite Z.land_spec. destruct (decide (n < 10)) as [Hlt|Hge]; [apply H; lia|].
    assert (forall x, 0 <= x < 1024 -> Z.testbit x n = false) as Hh.
    { intros x Hx. rewrite <- (Z.mod_small x (2 ^ 10)) by done. apply Z.mod_pow2_bits_high. lia. }
    by rewrite (Hh M), (Hh X), andb_false_r by done.
Qed.

(** Both sides as functions of the ten low bits. *)
Ltac mask_bits v :=
  generalize (Z.testbit v); intros f; vm_compute;
  repeat match goal with |- context [match f ?n with _ => _ end] => destruct (f n) end; reflexivity.

Lemma mask_user v : (Z.land v 5 =? 5) = flag v 1 && flag v 4.
Proof.
  rewrite mask_test by lia. change (flag v 1) with (flag v (2 ^ 0)). change (flag v 4) with (flag v (2 ^ 2)).
  rewrite !flag_pow2 by lia. mask_bits v.
Qed.

(** The table the code finds and the entry in it. *)
Lemma table_leaf wide s va : paging_ok wide s -> is_u32 va ->
  let t := table_at wide s (current_root wide s) (dir_of wide va) in
  let v := leaf_entry wide s va in
  (t = 0 -> v = 0) /\ (t <> 0 -> flag (pde_of wide (words s) (current_root wide s) (dir_of wide va)) 1 = true /\
    v = norm (get wide (words s) t (leaf_of wide va))).
Proof.
  intros Hok Hva. destruct (va_index wide va Hva) as (Hi & Hj & _). cbv zeta. split.
  - unfold table_at, leaf_entry, pte_of. destruct (flag (pde_of wide (words s) (current_root wide s) (dir_of wide va)) 1) eqn:E; [|done].
    intros Hz. exfalso. destruct (forest_link _ _ _ _ _ _ (ok_forest wide s Hok) (current_root wide s) (dir_of wide va)
      (frame_of (pde_of wide (words s) (current_root wide s) (dir_of wide va))) (ok_current _ _ Hok)) as [Hlow _]; [done|].
    rewrite Hz in Hlow. unfold low_page in Hlow. lia.
  - intros Ht. pose proof (table_at_linked wide s _ _ (ok_current _ _ Hok) Hi Ht) as Hl. split; [apply Hl|].
    by apply linked_pte.
Qed.

(** The directory entry has the user bit whenever the page has it. *)
Lemma directory_user wide s va : paging_ok wide s -> is_u32 va ->
  let v := leaf_entry wide s va in
  flag v 1 && flag v 4 = flag (pde_of wide (words s) (current_root wide s) (dir_of wide va)) 4 && (flag v 1 && flag v 4).
Proof.
  intros Hok Hva. destruct (va_index wide va Hva) as (Hi & Hj & _). cbv zeta.
  destruct (flag (leaf_entry wide s va) 1) eqn:E1; [|by rewrite andb_false_r].
  destruct (pde_permits wide s Hok _ _ Hi Hj E1) as (_ & _ & H4 & _). fold (leaf_entry wide s va) in H4. by rewrite <- H4 at 1.
Qed.

Lemma norm_flag v m : flag (norm v) 1 && flag (norm v) m = flag v 1 && flag v m.
Proof. unfold norm. destruct (flag v 1) eqn:E; [by rewrite E|done]. Qed.

Lemma legacy_user_page_spec s va writable : paging_ok false s -> is_u32 va ->
  legacy_user_page_ok s va writable = user_access false s writable va.
Proof.
  intros Hok Hva. destruct (table_leaf false s va Hok Hva) as [Hz Hnz]. pose proof (directory_user false s va Hok Hva) as Hu.
  cbv zeta in *. unfold legacy_user_page_ok, user_access. destruct (legacy_pointers s Hok) as [Hp _].
  rewrite (legacy_get_table s Hok va), Hp. change (Z.lor PAGE_PRESENT PAGE_FLAG_USER) with 5. rewrite mask_user.
  set (t := table_at false s (current_root false s) (dir_of false va)) in *. set (v := leaf_entry false s va) in *.
  destruct (Z.eqb_spec t 0) as [E|E]; cbn [orb]; [by rewrite (Hz E)|]. destruct (Hnz E) as [H1 Hv].
  rewrite legacy_pde in Hu, H1. assert (flag (entry_at s (current_root false s) (Z.shiftr va 22)) 1 = true) as H1'.
  { unfold norm in H1. destruct (flag (entry_at s (current_root false s) (Z.shiftr va 22)) 1) eqn:E1; [done|]. done. }
  rewrite norm_present in Hu by done. rewrite H1'. cbn [andb]. change (Z.land (Z.shiftr va 12) 1023) with (leaf_of false va).
  change (entry_at s t (leaf_of false va)) with (get false (words s) t (leaf_of false va)).
  rewrite Hu. unfold PAGE_PRESENT, PAGE_FLAG_USER, PAGE_FLAG_WRITABLE.
  destruct (flag (entry_at s (current_root false s) (Z.shiftr va 22)) 4); cbn [negb andb]; [|done].
  rewrite Hv. unfold norm. destruct (flag (get false (words s) t (leaf_of false va)) 1) eqn:Ev; [rewrite Ev|done].
  rewrite !negb_orb, !negb_involutive, negb_andb, negb_involutive. done.
Qed.

Lemma pae_directory_entry s va : paging_ok true s -> is_u32 va ->
  let d := pae_page_directory_for s (pae_pdpt_physical s) (Z.shiftr va 30) in
  pde_of true (words s) (current_root true s) (dir_of true va) =
  if d =? 0 then 0 else norm (pae_entry_value s d (Z.land (Z.shiftr va 21) 0x1FF)).
Proof.
  intros Hok Hva. destruct (pae_indices va Hva) as (_ & _ & Hq). cbv zeta. destruct (pae_pointers s Hok) as (_ & _ & -> & _).
  rewrite (pae_directory s Hok) by (apply Hok || done). rewrite (pae_pde s _ va Hva).
  destruct (node_of true (words s) (current_root true s) (Z.shiftr va 30)) as [d|] eqn:E; [|done].
  destruct (forest_node _ _ _ _ _ _ (ok_forest true s Hok) (current_root true s) (Z.shiftr va 30) d (ok_current _ _ Hok) E) as [Hlow _].
  by replace (d =? 0) with false by (unfold low_page in Hlow; lia).
Qed.

Lemma pae_user_page_spec s va writable : paging_ok true s -> is_u32 va ->
  pae_user_page_ok s va writable = user_access true s writable va.
Proof.
  intros Hok Hva. destruct (table_leaf true s va Hok Hva) as [Hz Hnz]. pose proof (directory_user true s va Hok Hva) as Hu.
  pose proof (pae_directory_entry s va Hok Hva) as Hd. cbv zeta in *. unfold pae_user_page_ok, user_access.
  rewrite (pae_get_table s Hok va Hva). change (Z.lor PAE_PRESENT PAE_USER) with 5. rewrite !mask_user.
  set (d := pae_page_directory_for s (pae_pdpt_physical s) (Z.shiftr va 30)) in *.
  set (t := table_at true s (current_root true s) (dir_of true va)) in *. set (v := leaf_entry true s va) in *.
  destruct (Z.eqb_spec t 0) as [E|E]; [by rewrite orb_true_r, (Hz E)|]. destruct (Hnz E) as [H1 Hv].
  rewrite Hd in H1, Hu. destruct (d =? 0); cbn [orb]; [done|].
  set (e := pae_entry_value s d (Z.land (Z.shiftr va 21) 511)) in *.
  assert (flag e 1 = true) as H1' by (unfold norm in H1; by destruct (flag e 1)).
  rewrite norm_present in Hu by done. rewrite H1'. cbn [andb]. change (Z.land (Z.shiftr va 12) 511) with (leaf_of true va).
  rewrite pae_entry_value_get, Hu. unfold PAE_WRITABLE.
  destruct (flag e 4); cbn [negb andb]; [|done].
  rewrite Hv. unfold norm. destruct (flag (get true (words s) t (leaf_of true va)) 1) eqn:Ev; [rewrite Ev|done].
  cbn [andb]. rewrite negb_orb, negb_involutive, negb_andb, negb_involutive. done.
Qed.

(** ** Ranges *)

Lemma leaf_entry_page wide s va : is_u32 va -> leaf_entry wide s (va / 4096 * 4096) = leaf_entry wide s va.
Proof.
  intros Hva. unfold leaf_entry, dir_of, leaf_of. unfold is_u32 in Hva.
  assert (forall n, 12 <= n -> Z.shiftr (va / 4096 * 4096) n = Z.shiftr va n) as Hs.
  { intros n Hn. replace n with (12 + (n - 12)) by lia. rewrite <- !Z.shiftr_shiftr by lia. f_equal.
    rewrite !Z.shiftr_div_pow2 by lia. change (2 ^ 12) with 4096. by rewrite Z.div_mul. }
  rewrite !Hs by (destruct wide; lia). done.
Qed.

Lemma user_access_page wide s w va : is_u32 va -> user_access wide s w (va / 4096 * 4096) = user_access wide s w va.
Proof. intros Hva. unfold user_access. by rewrite leaf_entry_page. Qed.

(** The loop visits every page of the range. *)
Lemma validate_loop_spec ok hi fuel : forall n, 0 <= n -> hi <= USER_ADDRESS_LIMIT -> Z.max 0 ((hi + 4095) / 4096 - n) < Z.of_nat fuel ->
  exists b, validate_loop fuel ok (n * 4096) hi = Some b /\ (b = true <-> forall k, n <= k -> k * 4096 < hi -> ok (k * 4096) = true).
Proof.
  unfold USER_ADDRESS_LIMIT. induction fuel as [|fuel IH]; intros n Hn Hhi Hf; [lia|]. cbn [validate_loop].
  destruct (Z.ltb_spec (n * 4096) hi) as [Hlt|Hge].
  2: { exists true. split; [done|]. split; [|done]. intros _ k Hk Hlt. lia. }
  destruct (ok (n * 4096)) eqn:Eo; cbn [negb].
  2: { exists false. split; [done|]. split; [done|]. intros H. rewrite H in Eo; [done|lia|done]. }
  replace (n * 4096 +32 PAGE_SIZE) with ((n + 1) * 4096) by (unfold PAGE_SIZE; rewrite u32_id; unfold is_u32; lia).
  destruct (IH (n + 1)) as (b & Hb & Hiff); [lia|done|dmlia|]. exists b. split; [done|]. rewrite Hiff. split.
  - intros H k Hk Hlt'. destruct (decide (k = n)) as [->|]; [done|]. apply H; [lia|done].
  - intros H k Hk Hlt'. apply H; [lia|done].
Qed.

(** A range of user memory that allows the access. *)
Definition user_range_ok (wide : bool) (s : paging) (writable : bool) (va len : Z) : Prop :=
  len = 0 \/ (4096 <= va /\ va + len <= USER_ADDRESS_LIMIT /\ forall k, 0 <= k < len -> user_access wide s writable (va + k) = true).

Lemma decide_user_range wide s writable va len : Decision (user_range_ok wide s writable va len).
Proof.
  unfold user_range_ok. destruct (decide (len = 0)) as [E|E]; [left; by left|].
  destruct (decide (4096 <= va)); [|right; lia]. destruct (decide (va + len <= USER_ADDRESS_LIMIT)); [|right; lia].
  destruct (all_range 0 len (fun k => user_access wide s writable (va + k))) eqn:Ea; [left; right|right].
  - split; [done|]. split; [done|]. by apply all_range_true.
  - intros [?|(_ & _ & H)]; [done|]. apply all_range_true in H. congruence.
Defined.

Lemma range_pages va len (P : Z -> Prop) : 0 <= va -> 0 < len ->
  (forall k, va / 4096 <= k -> k * 4096 < va + len -> P k) <-> (forall k, 0 <= k < len -> P ((va + k) / 4096)).
Proof.
  intros Hva Hlen. split.
  - intros H k Hk. apply H; [|dmlia]. apply Z.div_le_mono; lia.
  - intros H k Hlo Hhi. destruct (decide (va <= k * 4096)) as [Hle|Hgt].
    + replace k with ((va + (k * 4096 - va)) / 4096); [apply H; lia|]. replace (va + (k * 4096 - va)) with (k * 4096) by lia.
      apply Z.div_mul. lia.
    + replace k with ((va + 0) / 4096) by (rewrite Z.add_0_r; dmlia). apply H. lia.
Qed.

Lemma user_page_spec wide s va writable : paging_ok wide s -> is_u32 va ->
  (if wide then pae_user_page_ok s va writable else legacy_user_page_ok s va writable) = user_access wide s writable va.
Proof. intros Hok Hva. destruct wide; [by apply pae_user_page_spec|by apply legacy_user_page_spec]. Qed.

Lemma range_guard va len root : is_u32 va -> is_u32 len -> root <> 0 ->
  (root =? 0) || (va <? PAGE_SIZE) || (USER_ADDRESS_LIMIT <=? va) || (USER_ADDRESS_LIMIT -32 va <? len) = false <->
  4096 <= va < USER_ADDRESS_LIMIT /\ va + len <= USER_ADDRESS_LIMIT.
Proof.
  unfold is_u32, PAGE_SIZE, USER_ADDRESS_LIMIT. intros Hva Hlen Hr. rewrite !orb_false_iff, Z.eqb_neq, !Z.ltb_ge, Z.leb_gt.
  destruct (Z.le_gt_cases 0xC0000000 va); [split; lia|]. rewrite u32_id by (unfold is_u32; lia). lia.
Qed.

Lemma validate_range_spec wide s va len writable : paging_ok wide s -> is_u32 va -> is_u32 len ->
  exists b, paging_validate_user_range s va len writable = Some b /\ (b = true <-> user_range_ok wide s writable va len).
Proof.
  intros Hok Hva Hlen. unfold paging_validate_user_range. rewrite (proj1 (ok_mode _ _ Hok)).
  destruct (Z.eqb_spec len 0) as [->|Hnz].
  { exists true. split; [by destruct wide|]. split; [by left|done]. }
  assert (forall root, root <> 0 ->
    let guard := (root =? 0) || (va <? PAGE_SIZE) || (USER_ADDRESS_LIMIT <=? va) || (USER_ADDRESS_LIMIT -32 va <? len) in
    exists b, (if guard then Some false else
      validate_loop (validate_fuel (Z.land va PAGE_ADDRESS_MASK) (va +32 len))
        (fun page => if wide then pae_user_page_ok s page writable else legacy_user_page_ok s page writable)
        (Z.land va PAGE_ADDRESS_MASK) (va +32 len)) = Some b /\ (b = true <-> user_range_ok wide s writable va len)) as Hmain.
  { intros root Hr guard. pose proof (range_guard va len root Hva Hlen Hr) as Hg. fold guard in Hg. destruct guard.
    - exists false. split; [done|]. split; [done|]. intros [?|(H1 & H2 & _)]; [done|]. unfold is_u32 in Hlen. exfalso.
      assert (true = false) by (apply Hg; lia). done.
    - destruct (proj1 Hg eq_refl) as [Hr1 Hr2]. unfold USER_ADDRESS_LIMIT in *. unfold is_u32 in Hlen.
      rewrite (u32_id (va + len)) by (unfold is_u32; lia).
      rewrite frame_of_land, frame_of_eq, u32_id by done.
      destruct (validate_loop_spec (fun page => if wide then pae_user_page_ok s page writable else legacy_user_page_ok s page writable)
        (va + len) (validate_fuel (va / 4096 * 4096) (va + len)) (va / 4096)) as (b & Hb & Hiff).
      + dmlia.
      + unfold USER_ADDRESS_LIMIT. lia.
      + unfold validate_fuel, PAGE_SIZE. dmlia.
      + exists b. split; [done|]. rewrite Hiff. unfold user_range_ok, USER_ADDRESS_LIMIT.
        rewrite (range_pages va len (fun k => (if wide then pae_user_page_ok s (k * 4096) writable
          else legacy_user_page_ok s (k * 4096) writable) = true)) by lia.
        assert (forall k, 0 <= k < len -> (if wide then pae_user_page_ok s ((va + k) / 4096 * 4096) writable
          else legacy_user_page_ok s ((va + k) / 4096 * 4096) writable) = user_access wide s writable (va + k)) as He.
        { intros k Hk. rewrite user_page_spec by (done || (unfold is_u32; dmlia)). apply user_access_page. unfold is_u32. lia. }
        split; [intros H; right; split; [lia|]; split; [lia|]; intros k Hk; rewrite <- He by done; by apply H|].
        intros [?|(_ & _ & H)]; [done|]. intros k Hk. rewrite He by done. by apply H. }
  pose proof (root_nonzero wide s Hok _ (ok_current _ _ Hok)) as Hroot.
  destruct wide.
  - destruct (pae_pointers s Hok) as (Hp & _). apply (Hmain (pae_pdpt s)). rewrite Hp. lia.
  - destruct (legacy_pointers s Hok) as (Hp & _). apply (Hmain (page_directory s)). rewrite Hp. lia.
Qed.

(** ** Execution *)

Lemma mask_execute v : (Z.land v 0x207 =? 0x205) = flag v 1 && flag v 4 && negb (flag v 2) && flag v 0x200.
Proof.
  rewrite mask_test by lia. change (flag v 1) with (flag v (2 ^ 0)). change (flag v 2) with (flag v (2 ^ 1)).
  change (flag v 4) with (flag v (2 ^ 2)). change (flag v 0x200) with (flag v (2 ^ 9)). rewrite !flag_pow2 by lia.
  mask_bits v.
Qed.

Lemma mask_code v : (Z.land v 7 =? 5) = flag v 1 && flag v 4 && negb (flag v 2).
Proof.
  rewrite mask_test by lia. change (flag v 1) with (flag v (2 ^ 0)). change (flag v 2) with (flag v (2 ^ 1)).
  change (flag v 4) with (flag v (2 ^ 2)). rewrite !flag_pow2 by lia.
  mask_bits v.
Qed.

Definition executable_range (va : Z) : bool := (4096 <=? va) && (va <? USER_ADDRESS_LIMIT).

Lemma validate_execute_spec wide s va : paging_ok wide s -> is_u32 va ->
  paging_validate_user_execute s va = executable_range va && user_execute wide s va.
Proof.
  intros Hok Hva. destruct (table_leaf wide s va Hok Hva) as [Hz Hnz]. pose proof (directory_user wide s va Hok Hva) as Hu.
  pose proof (root_nonzero wide s Hok _ (ok_current _ _ Hok)) as Hroot. cbv zeta in *.
  unfold paging_validate_user_execute, pae_validate_user_execute, user_execute, executable_range. rewrite (proj1 (ok_mode _ _ Hok)).
  assert (forall b, b || (va <? PAGE_SIZE) || (USER_ADDRESS_LIMIT <=? va) = b || negb ((4096 <=? va) && (va <? USER_ADDRESS_LIMIT))) as Hg
    by (intros b; unfold PAGE_SIZE; lia).
  rewrite !Hg. set (v := leaf_entry wide s va) in *. destruct wide.
  - destruct (pae_pointers s Hok) as (Hp & _). rewrite Hp, Hroot. cbn [orb].
    destruct ((4096 <=? va) && (va <? USER_ADDRESS_LIMIT)); cbn [negb andb]; [|done].
    pose proof (pae_directory_entry s va Hok Hva) as Hd. cbv zeta in Hd. rewrite (pae_get_table s Hok va Hva).
    change (Z.lor PAE_PRESENT PAE_USER) with 5. change (Z.lor 5 PAE_WRITABLE) with 7. rewrite !mask_user.
    set (d := pae_page_directory_for s (pae_pdpt_physical s) (Z.shiftr va 30)) in *.
    set (t := table_at true s (current_root true s) (dir_of true va)) in *.
    destruct (Z.eqb_spec t 0) as [E|E]; [by rewrite orb_true_r, (Hz E)|]. destruct (Hnz E) as [H1 Hv].
    rewrite Hd in H1, Hu. destruct (d =? 0); cbn [orb]; [done|].
    set (e := pae_entry_value s d (Z.land (Z.shiftr va 21) 511)) in *.
    assert (flag e 1 = true) as H1' by (unfold norm in H1; by destruct (flag e 1)).
    rewrite norm_present in Hu by done. rewrite H1'. cbn [andb]. change (Z.land (Z.shiftr va 12) 511) with (leaf_of true va).
    rewrite pae_entry_value_get, Hu. change (Z.shiftl 1 9) with 0x200.
    rewrite mask_code. destruct (flag e 4); cbn [negb andb]; [|done].
    rewrite Hv. unfold norm. destruct (flag (get true (words s) t (leaf_of true va)) 1) eqn:Ev; [rewrite Ev|done]. done.
  - destruct (legacy_pointers s Hok) as (Hp & _). rewrite Hp, Hroot. cbn [orb].
    destruct ((4096 <=? va) && (va <? USER_ADDRESS_LIMIT)); cbn [negb andb]; [|done].
    rewrite (proj2 (ok_mode _ _ Hok) eq_refl). cbn [negb orb]. rewrite andb_true_r.
    rewrite (legacy_get_table s Hok va). change (Z.lor PAGE_PRESENT PAGE_FLAG_USER) with 5.
    change (Z.lor (Z.lor 5 PAGE_FLAG_WRITABLE) PAGE_FLAG_EXECUTABLE) with 0x207. change (Z.lor 5 PAGE_FLAG_EXECUTABLE) with 0x205.
    rewrite mask_user, mask_execute. rewrite legacy_pde in Hu, Hnz.
    set (t := table_at false s (current_root false s) (dir_of false va)) in *.
    set (e := entry_at s (current_root false s) (Z.shiftr va 22)) in *.
    destruct (Z.eqb_spec t 0) as [E|E]; [rewrite (Hz E); by destruct (flag e 1 && flag e 4)|]. destruct (Hnz E) as [H1 Hv].
    assert (flag e 1 = true) as H1' by (unfold norm in H1; by destruct (flag e 1)).
    rewrite norm_present in Hu by done. rewrite H1'. cbn [andb]. change (Z.land (Z.shiftr va 12) 1023) with (leaf_of false va).
    change (entry_at s t (leaf_of false va)) with (get false (words s) t (leaf_of false va)).
    rewrite Hu. destruct (flag e 4); cbn [negb andb]; [|done].
    rewrite Hv. unfold norm. destruct (flag (get false (words s) t (leaf_of false va)) 1) eqn:Ev; [rewrite Ev|done]. done.
Qed.

(** ** Copies *)

(** The physical address of a byte. *)
Definition physical_of (wide : bool) (s : paging) (va : Z) : Z := frame_of (leaf_entry wide s va) + va mod 4096.

Lemma user_translate wide s w va : paging_ok wide s -> paging_enabled s = true -> coherent wide s -> is_u32 va ->
  user_access wide s w va = true -> exists t, translate s va = Some t /\ t_frame t + va mod 4096 = physical_of wide s va /\
  t_user t = true /\ (w = true -> t_write t = true).
Proof.
  intros Hok Hen Hco Hva Hu. unfold user_access in Hu. split_bools. rewrite (translate_spec wide s va Hok Hen Hco Hva).
  unfold entry_translation. eexists. rewrite H. split; [reflexivity|]. split; [done|]. split; [done|]. intros ->. done.
Qed.

(** Different bytes of user memory are different bytes of memory. *)
Lemma physical_inj wide s va va' : paging_ok wide s -> is_u32 va -> is_u32 va' ->
  user_access wide s false va = true -> user_access wide s false va' = true ->
  physical_of wide s va = physical_of wide s va' -> va = va'.
Proof.
  intros Hok Hva Hva' Hu Hu' He. unfold user_access in *. split_bools. unfold physical_of in He.
  destruct (va_index wide va Hva) as (Hi & Hj & Hpn). destruct (va_index wide va' Hva') as (Hi' & Hj' & Hpn').
  pose proof (frame_of_aligned (leaf_entry wide s va)) as Ha. pose proof (frame_of_aligned (leaf_entry wide s va')) as Ha'.
  assert (frame_of (leaf_entry wide s va) = frame_of (leaf_entry wide s va') /\ va mod 4096 = va' mod 4096) as [Hf Hm] by dmlia.
  destruct (forest_user_inj _ _ _ _ _ _ (ok_forest wide s Hok) (current_root wide s) (dir_of wide va) (leaf_of wide va)
    (current_root wide s) (dir_of wide va') (leaf_of wide va') (ok_current _ _ Hok) (ok_current _ _ Hok)) as (_ & E1 & E2);
    [done|done|exact Hf|]. rewrite E1, E2 in Hpn. rewrite Hpn in Hpn'. dmlia.
Qed.

Definition user_byte (wide : bool) (s : paging) (va : Z) : Z := default 0 (data s !! physical_of wide s va).

Lemma paging_ok_data wide s d : paging_ok wide s -> paging_ok wide (set_data s d).
Proof. intros [? ? ? ? ? ? ?]. by split. Qed.

Lemma user_access_read wide s w va : user_access wide s w va = true -> user_access wide s false va = true.
Proof. unfold user_access. intros H. apply andb_true_iff in H as [-> _]. done. Qed.

Section Copies.
Context (wide : bool) (base len : Z).
Hypothesis Hbase : 0 <= base.
Hypothesis Hlen : base + len <= USER_ADDRESS_LIMIT.

Lemma copy_address k : 0 <= k < len -> base +32 k = base + k /\ is_u32 (base + k).
Proof using Hbase Hlen. unfold USER_ADDRESS_LIMIT, is_u32 in *. intros Hk. rewrite u32_id by (unfold is_u32; lia). split; [done|lia]. Qed.

Lemma copy_in_spec s n : forall index output, paging_ok wide s -> paging_enabled s = true -> coherent wide s ->
  (forall k, 0 <= k < len -> user_access wide s false (base + k) = true) ->
  0 <= index -> index + Z.of_nat n = len -> len <= Z.of_nat (length output) ->
  exists out, copy_in n index base output s = Ok out /\ length out = length output /\
  forall k, 0 <= k -> out !! Z.to_nat k = if (index <=? k) && (k <? len) then Some (user_byte wide s (base + k)) else output !! Z.to_nat k.
Proof using Hbase Hlen.
  induction n as [|n IH]; intros index output Hok Hen Hco Hacc Hi Hn Hout; cbn [copy_in].
  { exists output. split; [done|]. split; [done|]. intros k Hk. by replace ((index <=? k) && (k <? len)) with false by lia. }
  destruct (copy_address index ltac:(lia)) as [Haddr Hu]. unfold load_byte. rewrite Haddr.
  destruct (user_translate wide s false (base + index) Hok Hen Hco Hu (Hacc index ltac:(lia))) as (t & -> & Hph & _).
  rewrite Hph. fold (user_byte wide s (base + index)). unfold array_set.
  replace ((0 <=? index) && (index <? Z.of_nat (length output))) with true by lia. cbn [bind].
  destruct (IH (index + 1) (<[Z.to_nat index := user_byte wide s (base + index)]> output)) as (out & Ho & Hl & Hv);
    [done|done|done|done|lia|lia|rewrite length_insert; lia|].
  exists out. split; [done|]. split; [by rewrite Hl, length_insert|]. intros k Hk. rewrite Hv by done.
  destruct (decide (k = index)) as [->|Hne].
  - replace ((index + 1 <=? index) && (index <? len)) with false by lia. replace ((index <=? index) && (index <? len)) with true by lia.
    apply list_lookup_insert_eq. lia.
  - replace ((index <=? k) && (k <? len)) with ((index + 1 <=? k) && (k <? len)) by lia.
    destruct ((index + 1 <=? k) && (k <? len)); [done|]. apply list_lookup_insert_ne. lia.
Qed.

Lemma copy_out_spec n : forall s index input, paging_ok wide s -> paging_enabled s = true -> coherent wide s ->
  (forall k, 0 <= k < len -> user_access wide s true (base + k) = true) ->
  0 <= index -> index + Z.of_nat n = len -> len <= Z.of_nat (length input) ->
  exists s', copy_out n index base input s = Ok s' /\ s' = set_data s (data s') /\
  (forall k, index <= k < len -> data s' !! physical_of wide s (base + k) = input !! Z.to_nat k) /\
  (forall a, (forall k, index <= k < len -> a <> physical_of wide s (base + k)) -> data s' !! a = data s !! a).
Proof using Hbase Hlen.
  induction n as [|n IH]; intros s index input Hok Hen Hco Hacc Hi Hn Hin; cbn [copy_out].
  { exists s. split; [done|]. split; [by destruct s|]. split; [lia|done]. }
  destruct (copy_address index ltac:(lia)) as [Haddr Hu]. unfold array_get. replace (index <? 0) with false by lia.
  destruct (lookup_lt_is_Some_2 input (Z.to_nat index) ltac:(lia)) as [b Hb]. rewrite Hb. cbn [bind]. unfold store_byte. rewrite Haddr.
  destruct (user_translate wide s true (base + index) Hok Hen Hco Hu (Hacc index ltac:(lia))) as (t & -> & Hph & _ & Hw).
  rewrite (Hw eq_refl), Hph. set (s1 := set_data s (<[physical_of wide s (base + index) := b]> (data s))).
  destruct (IH s1 (index + 1) input) as (s' & Hs' & Hset & Hin' & Hout');
    [by apply paging_ok_data|done|done|done|lia|lia|done|].
  change (forall k, index + 1 <= k < len -> data s' !! physical_of wide s (base + k) = input !! Z.to_nat k) in Hin'.
  change (forall a, (forall k, index + 1 <= k < len -> a <> physical_of wide s (base + k)) -> data s' !! a = data s1 !! a) in Hout'.
  exists s'. split; [done|]. split; [by rewrite Hset|]. split.
  - intros k Hk. destruct (decide (k = index)) as [->|]; [|apply Hin'; lia]. rewrite Hout', Hb.
    + unfold s1. cbn. apply lookup_insert_eq.
    + intros k' Hk' Heq.
      assert (forall j, 0 <= j < len -> user_access wide s false (base + j) = true) as Hacc'.
      { intros j Hj. by apply (user_access_read wide s true), Hacc. }
      assert (base + index = base + k'); [|lia].
      apply (physical_inj wide s); [done|done|apply copy_address; lia|apply Hacc'; lia|apply Hacc'; lia|done].
  - intros a Ha. rewrite Hout' by (intros k Hk; apply Ha; lia). unfold s1. cbn. apply lookup_insert_ne. intros E. by apply (Ha index); [lia|].
Qed.
End Copies.

(** Whether the call succeeds is decided by the range alone. *)
Lemma copy_from_spec wide s output source len : paging_ok wide s -> paging_enabled s = true -> coherent wide s ->
  is_u32 source -> is_u32 len -> len <= Z.of_nat (length output) ->
  (user_range_ok wide s false source len -> exists out, paging_copy_from_user (Some output) source len s = Ok out /\
     length out = length output /\
     forall k, 0 <= k -> out !! Z.to_nat k = if k <? len then Some (user_byte wide s (source + k)) else output !! Z.to_nat k) /\
  (~ user_range_ok wide s false source len -> paging_copy_from_user (Some output) source len s = Reject).
Proof.
  intros Hok Hen Hco Hsrc Hlen Hout. unfold paging_copy_from_user.
  destruct (validate_range_spec wide s source len false Hok Hsrc Hlen) as (b & -> & Hb). unfold validated.
  split; intros Hr.
  - replace b with true by (symmetry; by apply Hb). cbn [bind require].
    destruct Hr as [->|(Hlo & Hhi & Hacc)]; [exists output; split; [done|]; split; [done|]; intros k Hk; by replace (k <? 0) with false by lia|].
    unfold is_u32 in *.
    destruct (copy_in_spec wide source len ltac:(lia) Hhi s (Z.to_nat len) 0 output Hok Hen Hco Hacc) as (out & Ho & Hl & Hv); [lia..|].
    exists out. split; [done|]. split; [done|]. intros k Hk. rewrite Hv by done. by replace (0 <=? k) with true by lia.
  - replace b with false; [done|]. symmetry. apply not_true_is_false. by rewrite Hb.
Qed.

Lemma copy_to_spec wide s input destination len : paging_ok wide s -> paging_enabled s = true -> coherent wide s ->
  is_u32 destination -> is_u32 len -> len <= Z.of_nat (length input) ->
  (user_range_ok wide s true destination len -> exists s', paging_copy_to_user destination (Some input) len s = Ok s' /\
     s' = set_data s (data s') /\
     (forall k, 0 <= k < len -> data s' !! physical_of wide s (destination + k) = input !! Z.to_nat k) /\
     (forall a, (forall k, 0 <= k < len -> a <> physical_of wide s (destination + k)) -> data s' !! a = data s !! a)) /\
  (~ user_range_ok wide s true destination len -> paging_copy_to_user destination (Some input) len s = Reject).
Proof.
  intros Hok Hen Hco Hdst Hlen Hin. unfold paging_copy_to_user.
  destruct (validate_range_spec wide s destination len true Hok Hdst Hlen) as (b & -> & Hb). unfold validated.
  split; intros Hr.
  - replace b with true by (symmetry; by apply Hb). cbn [bind require].
    destruct Hr as [->|(Hlo & Hhi & Hacc)]; [exists s; split; [done|]; split; [by destruct s|]; split; [lia|done]|].
    unfold is_u32 in *. apply (copy_out_spec wide destination len); try done; lia.
  - replace b with false; [done|]. symmetry. apply not_true_is_false. by rewrite Hb.
Qed.
