(* ===== verification/PagingTotal.v ===== *)
(** * When the operations succeed

    The lemmas of the other files say what a call does when it succeeds and when it fails; here are
    conditions under which it does succeed: enough free frames below the window's end, and a request
    that the checks of the code accept. *)

From S2P Require Import Prelude BootInfo Pmm PmmSpec PagingState PagingPae Paging PagingEntry PagingForest PagingView PagingInv PagingOps PagingMap PagingProtect PagingSpaces PagingCreate PagingInit.
Local Open Scope c_scope.
Local Open Scope Z_scope.

(** ** Free frames *)

(** At least [n] free frames of the identity window. *)
Definition free_low (s : paging) (n : nat) : Prop :=
  exists l, NoDup l /\ length l = n /\ forall x, x ∈ l -> low_page x /\ owner_at s x = Free.

Lemma free_low_le s n n' : (n' <= n)%nat -> free_low s n -> free_low s n'.
Proof.
  intros Hle (l & Hnd & Hl & Hf). exists (take n' l). split.
  - rewrite <- (take_drop n' l) in Hnd. by apply list.NoDup_app in Hnd as [? _].
  - split; [rewrite length_take; lia|]. intros x Hx. apply Hf. apply elem_of_take in Hx as (k & Hk & _). by eapply list_elem_of_lookup_2.
Qed.

(** A change of at most one frame. *)
Lemma free_low_set s s' n a o : own_eq (own_set (owner_at s) a o) (owner_at s') -> free_low s (S n) -> free_low s' n.
Proof.
  intros Hown (l & Hnd & Hl & Hf).
  assert (exists l', NoDup l' /\ (n <= length l')%nat /\ a ∉ l' /\ forall x, x ∈ l' -> x ∈ l) as (l' & Hnd' & Hl' & Ha & Hin).
  { destruct (decide (a ∈ l)) as [[l' Hp]%elem_of_Permutation|Ha].
    - exists l'. rewrite Hp in Hnd, Hl. apply list.NoDup_cons in Hnd as [? ?]. cbn in Hl.
      split; [done|]. split; [lia|]. split; [done|]. intros x Hx. rewrite Hp. by right.
    - exists l. split; [done|]. split; [lia|]. done. }
  apply (free_low_le s' (length l') n Hl'). exists l'. split; [done|]. split; [done|].
  intros x Hx. destruct (Hf x (Hin x Hx)) as [Hlow Ho]. split; [done|].
  pose proof (low_page_u32 x Hlow) as (? & ? & _). rewrite Hown by done. unfold own_set. rewrite decide_False; [done|]. by intros ->.
Qed.

Lemma free_low_eq s s' n : own_eq (owner_at s) (owner_at s') -> free_low s n -> free_low s' n.
Proof.
  intros Hown (l & Hnd & Hl & Hf). exists l. split; [done|]. split; [done|]. intros x Hx. destruct (Hf x Hx) as [Hlow Ho].
  split; [done|]. pose proof (low_page_u32 x Hlow) as (? & ? & _). by rewrite Hown.
Qed.

(** The allocator finds one of them. *)
Lemma alloc_low_total s n : pmm_wf (page_frames s) -> free_low s (S n) ->
  exists a s', alloc_low s = (a, s') /\ a <> 0 /\ s' = set_page_frames s (page_frames s') /\ pmm_wf (page_frames s') /\ free_low s' n.
Proof.
  intros Hwf Hfree. destruct (alloc_low s) as [a s'] eqn:E. exists a, s'. split; [done|].
  destruct (alloc_low_spec s a s' Hwf E) as (Hs' & Hwf' & [[-> _]|(Hlow & _ & Hown)]).
  - exfalso. destruct Hfree as (l & _ & Hl & Hf). destruct l as [|x l]; [done|]. destruct (Hf x) as [Hx Ho]; [left|].
    unfold alloc_low in E. destruct (pmm_alloc_block_below _ _) as [b f] eqn:Ea. injection E as -> _.
    apply alloc_below_refines in Ea as (_ & m' & Hs & _); [|done|unfold is_u32, LOW_IDENTITY_LIMIT; lia].
    pose proof (low_page_u32 x Hx) as (Hu & _). unfold low_page, owner_at in *. inversion Hs; subst.
    + unfold PMM_LOW_MEMORY_END in *. lia.
    + match goal with Hnone : forall b, in_blocks b -> _ |- _ => apply (Hnone (x / 4096)) end;
        [by apply u32_block|unfold LOW_IDENTITY_LIMIT; dmlia|done].
  - split; [unfold low_page in Hlow; lia|]. split; [done|]. split; [done|]. by eapply free_low_set.
Qed.

Lemma claim_frame_total s a : pmm_wf (page_frames s) -> is_u32 a -> a mod 4096 = 0 -> owner_at s a = User false ->
  exists s', claim_frame a s = (true, s').
Proof.
  intros Hwf Ha Hal Ho. unfold claim_frame. destruct (pmm_claim_user_block a (page_frames s)) as [ok f] eqn:E.
  destruct ok; [by eexists|]. exfalso. apply claim_refines in E as (_ & m' & Hs & _); [|done..].
  inversion Hs; subst. match goal with Hno : a mod 4096 = 0 -> _ |- _ => by apply (Hno Hal) end.
Qed.

(** ** Mapping *)

(** A request to map a page that the checks accept. *)
Record map_request (wide : bool) (s : paging) (va pa flags : Z) : Prop := {
  mr_virtual : is_u32 va /\ 4096 <= va /\ va mod 4096 = 0;
  mr_physical : is_u32 pa /\ 4096 <= pa /\ pa mod 4096 = 0;
  mr_flags : is_u32 flags /\ flag flags (not32 PAGE_ALLOWED_FLAGS) = false /\
    (Z.land flags (Z.lor PAGE_FLAG_WRITABLE PAGE_FLAG_EXECUTABLE) =? Z.lor PAGE_FLAG_WRITABLE PAGE_FLAG_EXECUTABLE) = false;
  mr_private : shares wide s (dir_of wide va) = false;
  mr_absent : pte_of wide (words s) (current_root wide s) (dir_of wide va) (leaf_of wide va) = 0;
  mr_user : flag flags 4 = true -> owner_at s pa = User false /\ current_root wide s <> kernel_root wide s /\
    USER_MAPPING_MIN <= va < USER_ADDRESS_LIMIT /\
    forall j, table_index wide j -> present (pte_of wide (words s) (current_root wide s) (dir_of wide va) j) ->
      flag (pte_of wide (words s) (current_root wide s) (dir_of wide va) j) 4 = true
}.

Lemma aligned_flag x : x mod 4096 = 0 -> flag x (PAGE_SIZE - 1) = false.
Proof. intros H. change (PAGE_SIZE - 1) with (PMM_BLOCK_SIZE - 1). by rewrite flag_aligned, H. Qed.

(** The tests before any table is touched. *)
Lemma map_guards wide s va pa flags root cur kernel shared : paging_ok wide s -> map_request wide s va pa flags ->
  root <> 0 -> cur = current_root wide s -> kernel = kernel_root wide s -> shared = shares wide s (dir_of wide va) ->
  (root =? 0) || (va <? PAGE_SIZE) || (pa <? PAGE_SIZE) || flag va (PAGE_SIZE - 1) || flag pa (PAGE_SIZE - 1) ||
  flag flags (not32 PAGE_ALLOWED_FLAGS) ||
  (Z.land flags (Z.lor PAGE_FLAG_WRITABLE PAGE_FLAG_EXECUTABLE) =? Z.lor PAGE_FLAG_WRITABLE PAGE_FLAG_EXECUTABLE) ||
  (flag flags PAGE_FLAG_USER && negb (pmm_block_is_user_owned (page_frames s) pa)) ||
  ((cur =? kernel) && flag flags PAGE_FLAG_USER) || shared ||
  (flag flags PAGE_FLAG_USER && ((va <? USER_MAPPING_MIN) || (USER_ADDRESS_LIMIT <=? va))) = false.
Proof.
  intros Hok [(Hva & Hv1 & Hv2) (Hpa & Hp1 & Hp2) (Hfl & Hal & Hwx) Hsh Habs Hus] Hr -> -> ->.
  rewrite Hal, Hwx, Hsh, !aligned_flag by done. change PAGE_FLAG_USER with 4. unfold PAGE_SIZE.
  replace (root =? 0) with false by lia. replace (va <? 0x1000) with false by lia. replace (pa <? 0x1000) with false by lia.
  cbn [orb]. destruct (flag flags 4); [|by rewrite andb_false_r]. destruct (Hus eq_refl) as (Ho & HcK & Hra & _).
  replace (pmm_block_is_user_owned (page_frames s) pa) with true.
  2: { symmetry. apply user_owned_spec; [apply Hok|done|]. split; [done|]. by exists false. }
  replace (current_root wide s =? kernel_root wide s) with false by lia. cbn. lia.
Qed.

(** What remains after the table has been found. *)
Lemma map_finish wide s va pa flags t s1 : paging_ok wide s -> map_request wide s va pa flags ->
  ensured wide flags (dir_of wide va) s t s1 -> t <> 0 ->
  flag (get wide (words s1) t (leaf_of wide va)) 1 = false /\
  exists s2, (if flag flags 4 then claim_frame pa s1 else (true, s1)) = (true, s2).
Proof.
  intros Hok [(Hva & _ & _) (Hpa & _ & Hal) _ _ Habs Hus] [[(Hok1 & _ & Hpg & Hgr & _) _] [Ht _]] Hnz.
  destruct (Ht Hnz) as (Hl & _). destruct (va_index wide va Hva) as (Hi & Hj & _). split.
  - specialize (Hpg _ _ _ (ok_current _ _ Hok) Hi Hj). rewrite Habs, (linked_pte wide s1 _ _ _ _ Hl) in Hpg.
    apply not_true_is_false. intros Hp. unfold norm in Hpg. rewrite Hp in Hpg. by rewrite Hpg in Hp.
  - destruct (flag flags 4); [|by eexists]. destruct (Hus eq_refl) as (Ho & _).
    apply claim_frame_total; [apply Hok1|done|done|]. destruct (Hgr pa Hpa Hal) as [E|[E _]]; congruence.
Qed.

(** A table of user pages only is accepted for user pages. *)
Lemma legacy_allows s va t : paging_ok false s -> is_u32 va -> linked false (view_of false (words s)) (current_root false s) (dir_of false va) t ->
  (forall j, table_index false j -> present (pte_of false (words s) (current_root false s) (dir_of false va) j) ->
     flag (pte_of false (words s) (current_root false s) (dir_of false va) j) 4 = true) ->
  page_table_allows_user_mappings s t = true.
Proof.
  intros Hok Hva Hl Hall. unfold page_table_allows_user_mappings.
  pose proof (linked_page false s Hok _ _ _ (ok_current _ _ Hok) Hl) as Hlow. replace (t =? 0) with false by (unfold low_page in Hlow; lia).
  apply all_range_true. intros j Hj. unfold PAGE_PRESENT, PAGE_FLAG_USER. apply negb_true_iff.
  destruct (flag (entry_at s t j) 1) eqn:E; [|done]. cbn [andb]. apply negb_false_iff.
  specialize (Hall j Hj). rewrite (linked_pte false s _ _ _ _ Hl) in Hall. rewrite norm_present in Hall by done. by apply Hall.
Qed.

Lemma pae_allows s va t : paging_ok true s -> is_u32 va -> linked true (view_of true (words s)) (current_root true s) (dir_of true va) t ->
  (forall j, table_index true j -> present (pte_of true (words s) (current_root true s) (dir_of true va) j) ->
     flag (pte_of true (words s) (current_root true s) (dir_of true va) j) 4 = true) ->
  pae_page_table_allows_user_mappings s t = true.
Proof.
  intros Hok Hva Hl Hall. unfold pae_page_table_allows_user_mappings.
  pose proof (linked_page true s Hok _ _ _ (ok_current _ _ Hok) Hl) as Hlow. replace (t =? 0) with false by (unfold low_page in Hlow; lia).
  apply all_range_true. intros j Hj. unfold pae_entry_present, PAE_PRESENT, PAE_USER. rewrite !pae_entry_value_get. apply negb_true_iff.
  destruct (flag (get true (words s) t j) 1) eqn:E; [|done]. cbn [andb]. apply negb_false_iff.
  specialize (Hall j Hj). rewrite (linked_pte true s _ _ _ _ Hl) in Hall. rewrite norm_present in Hall by done. by apply Hall.
Qed.

(** A request needs free frames only where the page has no table yet. *)
Definition frames_for (wide : bool) (s : paging) (va : Z) (n : nat) : Prop :=
  ~ present (pde_of wide (words s) (current_root wide s) (dir_of wide va)) -> free_low s n.

Lemma legacy_ensure_total s va pa flags : paging_ok false s -> map_request false s va pa flags -> frames_for false s va 1 ->
  fst (ensure_page_table va flags s) <> 0.
Proof.
  intros Hok [(Hva & _) _ _ Hsh _ Hus] Hfree. destruct (va_index false va Hva) as (Hi & _ & _).
  destruct (legacy_pointers s Hok) as [Hp _]. unfold ensure_page_table. rewrite Hp, (legacy_uses_shared s Hok va Hva), Hsh.
  unfold PAGE_PRESENT, PAGE_FLAG_USER, PAGE_FLAG_WRITABLE. rewrite <- !frame_of_land64.
  destruct (flag (entry_at s (current_root false s) (Z.shiftr va 22)) 1) eqn:E.
  - assert (linked false (view_of false (words s)) (current_root false s) (dir_of false va)
      (frame_of (entry_at s (current_root false s) (Z.shiftr va 22)))) as Hl.
    { split; [done|]. cbn [pde view_of]. rewrite legacy_pde, norm_present by done. done. }
    pose proof (linked_page false s Hok _ _ _ (ok_current _ _ Hok) Hl) as Hlow.
    destruct (flag flags 4); [|cbn [fst]; unfold low_page in Hlow; lia].
    rewrite (legacy_allows s va _ Hok Hva Hl) by (by apply Hus). cbn [negb fst]. unfold low_page in Hlow. lia.
  - assert (free_low s 1) as Hf1 by (apply Hfree; rewrite legacy_pde; unfold norm; by rewrite E).
    destruct (alloc_low_total s 0 (ok_pmm _ _ Hok) Hf1) as (a & s1 & -> & Hnz & _). by replace (a =? 0) with false by lia.
Qed.

Lemma legacy_map_total s va pa flags : paging_ok false s -> map_request false s va pa flags -> frames_for false s va 1 ->
  fst (legacy_map_page va pa flags s) = true.
Proof.
  intros Hok Hreq Hfree. pose proof (mr_virtual _ _ _ _ _ Hreq) as (Hva & _). destruct (legacy_pointers s Hok) as [Hp Hk].
  pose proof (root_nonzero false s Hok _ (ok_current _ _ Hok)) as Hroot. unfold legacy_map_page.
  rewrite (map_guards false s va pa flags) by (done || (rewrite Hp; lia) || apply (legacy_uses_shared s Hok va Hva)).
  pose proof (legacy_ensure_total s va pa flags Hok Hreq Hfree) as Ht. destruct (ensure_page_table va flags s) as [t s1] eqn:Ee.
  cbn [fst] in Ht. replace (t =? 0) with false by lia. pose proof (mr_user _ _ _ _ _ Hreq) as Hus.
  apply legacy_ensure_ok in Ee; [|done|done|apply Hreq|intros Hu; by apply Hus].
  destruct (map_finish false s va pa flags t s1 Hok Hreq Ee Ht) as [Habs [s2 Hc]].
  change (Z.land (Z.shiftr va 12) 1023) with (leaf_of false va). unfold PAGE_PRESENT, PAGE_FLAG_USER.
  change (entry_at s1 t (leaf_of false va)) with (get false (words s1) t (leaf_of false va)). by rewrite Habs, Hc.
Qed.

(** With pointer tables the page directory may be missing as well. *)
Lemma pae_directory_total s va n : paging_ok true s -> is_u32 va -> frames_for true s va (S n) ->
  exists d s', pae_ensure_directory (Z.shiftr va 30) s = (d, s') /\ d <> 0 /\ frames_for true s' va n.
Proof.
  intros Hok Hva Hfor. destruct (pae_indices va Hva) as (Hqd & _ & Hq). unfold pae_ensure_directory.
  destruct (Z.eqb_spec (pae_page_directory_for s (pae_pdpt_physical s) (Z.shiftr va 30)) 0) as [E|E]; cbn [negb].
  - assert (free_low s (S n)) as Hfree.
    { apply Hfor. change (pae_pdpt_physical s) with (current_root true s) in E. rewrite (pae_directory s Hok _ _ (ok_current _ _ Hok) Hq), Hqd in E.
      unfold pde_of. rewrite slot_wide by done. destruct (node_of true (words s) (current_root true s) (dir_of true va / 512)) as [d|] eqn:En; [|done].
      destruct (forest_node _ _ _ _ _ _ (ok_forest true s Hok) _ _ d (ok_current _ _ Hok) En) as [Hlow _]. unfold low_page in Hlow. lia. }
    unfold PAE_PDP_ENTRIES. replace (4 <=? Z.shiftr va 30) with false by lia.
    destruct (alloc_low_total s n (ok_pmm _ _ Hok) Hfree) as (a & s1 & -> & Hnz & Hs1 & _ & Hfree1). replace (a =? 0) with false by lia.
    eexists a, _. split; [reflexivity|]. split; [done|]. destruct (clear_pae_page_spec a s1) as (Hc & _).
    { rewrite Hs1. apply (ok_tables true s Hok). }
    revert Hc. generalize (clear_pae_page a s1) as s2. intros s2 -> _. exact Hfree1.
  - eexists _, s. split; [reflexivity|]. split; [done|]. intros Hp. apply (free_low_le s (S n)); [lia|by apply Hfor].
Qed.

Lemma pae_ensure_total s va pa flags : paging_ok true s -> map_request true s va pa flags -> frames_for true s va 2 ->
  fst (pae_ensure_page_table va flags s) <> 0.
Proof.
  intros Hok [(Hva & _) _ _ Hsh _ Hus] Hfree. destruct (va_index true va Hva) as (Hi & _ & _). destruct (pae_indices va Hva) as (Hq & Hk & Hqr).
  unfold pae_ensure_page_table. destruct (pae_directory_total s va 1 Hok Hva Hfree) as (d & s0 & Ed & Hdz & Hfree0). rewrite Ed.
  destruct (pae_ensure_directory_ok s va d s0 Hok Hva Ed) as [[Hadv _] [Hd Hpde]]. replace (d =? 0) with false by lia.
  pose proof (Hd Hdz) as Hnode. pose proof Hadv as (Hok0 & Hk0 & Hpg & _). destruct (keeps_roots true s s0 Hk0) as (EK & _ & EC & _).
  assert (shares true s0 (dir_of true va) = false) as Hsh0 by (rewrite (shares_same true s s0); [done..|apply Hok|done]).
  rewrite (pae_uses_shared s0 Hok0 va Hva), Hsh0. set (k := Z.land (Z.shiftr va 21) 0x1FF) in *.
  assert (slot true (words s0) (current_root true s) (dir_of true va) = Some (d, k)) as Hslot by (by rewrite slot_wide, <- Hq, Hnode, <- Hk).
  unfold pae_entry_present, PAE_PRESENT, PAE_USER, PAE_WRITABLE, PAGE_FLAG_USER. rewrite !pae_entry_value_get, !pae_physical.
  destruct (flag (get true (words s0) d k) 1) eqn:E.
  - assert (linked true (view_of true (words s0)) (current_root true s0) (dir_of true va) (frame_of (get true (words s0) d k))) as Hl.
    { split; [done|]. cbn [pde view_of]. rewrite EC, (pde_get true s0 _ _ _ _ Hslot), norm_present by done. done. }
    pose proof (linked_page true s0 Hok0 _ _ _ (ok_current _ _ Hok0) Hl) as Hlow.
    destruct (flag flags 4) eqn:E4; [|cbn [fst]; unfold low_page in Hlow; lia].
    rewrite (pae_allows s0 va _ Hok0 Hva Hl).
    + cbn [negb]. cbn [fst]. rewrite pae_set_entry_write.
      rewrite (marked_frame s0 (current_root true s0) va); [unfold low_page in Hlow; lia|done|apply Hok0|by rewrite EC|done].
    + intros j Hj. rewrite EC, (Hpg _ _ _ (ok_current _ _ Hok) Hi Hj). destruct (Hus eq_refl) as (_ & _ & _ & H). by apply H.
  - assert (free_low s0 1) as Hf1 by (apply Hfree0; rewrite EC, (pde_get true s0 _ _ _ _ Hslot); unfold norm; by rewrite E).
    destruct (alloc_low_total s0 0 (ok_pmm _ _ Hok0) Hf1) as (a & s1 & -> & Hnz & _). by replace (a =? 0) with false by lia.
Qed.

Lemma pae_map_total s va pa flags : paging_ok true s -> map_request true s va pa flags -> frames_for true s va 2 ->
  fst (pae_map_page va pa flags s) = true.
Proof.
  intros Hok Hreq Hfree. pose proof (mr_virtual _ _ _ _ _ Hreq) as (Hva & _). destruct (pae_pointers s Hok) as (Hp & _ & Hp' & Hk').
  pose proof (root_nonzero true s Hok _ (ok_current _ _ Hok)) as Hroot. unfold pae_map_page.
  rewrite (map_guards true s va pa flags) by (done || (rewrite Hp; lia) || apply (pae_uses_shared s Hok va Hva)).
  pose proof (pae_ensure_total s va pa flags Hok Hreq Hfree) as Ht. destruct (pae_ensure_page_table va flags s) as [t s1] eqn:Ee.
  cbn [fst] in Ht. replace (t =? 0) with false by lia. pose proof (mr_user _ _ _ _ _ Hreq) as Hus.
  apply pae_ensure_ok in Ee; [|done|done|apply Hreq|intros Hu; by apply Hus].
  destruct (map_finish true s va pa flags t s1 Hok Hreq Ee Ht) as [Habs [s2 Hc]].
  change (Z.land (Z.shiftr va 12) 511) with (leaf_of true va). unfold pae_entry_present, PAE_PRESENT, PAGE_FLAG_USER.
  rewrite pae_entry_value_get. by rewrite Habs, Hc.
Qed.

Lemma map_total_for wide s va pa flags : paging_ok wide s -> map_request wide s va pa flags -> frames_for wide s va 2 ->
  fst (paging_map_page va pa flags s) = true.
Proof.
  intros Hok Hreq Hfor. unfold paging_map_page. rewrite (proj1 (ok_mode _ _ Hok)).
  destruct wide; [by apply pae_map_total|]. apply legacy_map_total; [done|done|]. intros Hp. by apply (free_low_le s 2), Hfor; [lia|].
Qed.

Lemma map_total wide s va pa flags : paging_ok wide s -> map_request wide s va pa flags -> free_low s 2 ->
  fst (paging_map_page va pa flags s) = true.
Proof. intros Hok Hreq Hfree. apply (map_total_for wide); [done|done|]. by intros _. Qed.

(** ** Address spaces *)

Lemma free_low_frames s s' n : page_frames s' = page_frames s -> free_low s n -> free_low s' n.
Proof. intros H. apply free_low_eq. intros x _ _. unfold owner_at. by rewrite H. Qed.

Lemma pae_copy_frames from to s : page_frames (pae_copy_page from to s) = page_frames s.
Proof. apply (for_loop_inv (fun _ x => page_frames x = page_frames s)); [unfold PAE_TABLE_ENTRIES; lia|done|]. intros i x _ Hx. exact Hx. Qed.

Lemma pae_clear_frames page s : page_frames (clear_pae_page page s) = page_frames s.
Proof.
  Transparent clear_pae_page. unfold clear_pae_page. Opaque clear_pae_page.
  apply (for_loop_inv (fun _ x => page_frames x = page_frames s)); [unfold PAE_TABLE_ENTRIES; lia|done|]. intros i x _ Hx. exact Hx.
Qed.

Lemma pae_create_loop_total n : forall p r s, pmm_wf (page_frames s) -> free_low s n -> fst (pae_create_loop n p r s) = true.
Proof.
  induction n as [|n IH]; intros p r s Hwf Hfree; cbn [pae_create_loop]; [done|].
  destruct (pae_entry_present s (pae_kernel_pdpt s) p); cbn [negb]; [|apply IH; [done|by apply (free_low_le s (S n)); [lia|]]].
  destruct (alloc_low_total s n Hwf Hfree) as (a & s1 & -> & Hnz & _ & Hwf1 & Hfree1). replace (a =? 0) with false by lia.
  apply IH; [cbn; by rewrite pae_copy_frames|]. apply (free_low_frames s1); [|done]. cbn. by rewrite pae_copy_frames.
Qed.

(** A space can be created while fewer than 16 exist and five frames are free. *)
Lemma create_total wide s : paging_ok wide s -> (length (space_list wide s) < 16)%nat -> free_low s 5 ->
  fst (paging_create_address_space s) <> 0.
Proof.
  intros Hok Hlen Hfree. unfold paging_create_address_space. rewrite (proj1 (ok_mode _ _ Hok)).
  pose proof (root_nonzero wide s Hok _ (kernel_in wide s)) as Hroot. pose proof (ok_counts _ _ Hok) as Hc.
  destruct (alloc_low_total s 4 (ok_pmm _ _ Hok) Hfree) as (a & s1 & E & Hnz & _ & Hwf1 & Hfree1).
  unfold counts_ok, space_list in *. destruct wide; rewrite length_take in Hlen.
  - destruct (pae_pointers s Hok) as (_ & Hk & _). unfold pae_create_address_space. rewrite Hk, Hroot. cbn [orb].
    unfold PAGING_MAX_ADDRESS_SPACES. replace (pae_address_space_count s =? 16) with false by lia. rewrite E.
    replace (a =? 0) with false by lia.
    assert (fst (pae_create_loop 4 0 a (clear_pae_page a s1)) = true) as Hl.
    { apply pae_create_loop_total; [by rewrite pae_clear_frames|]. apply (free_low_frames s1); [apply pae_clear_frames|done]. }
    revert Hl. generalize (pae_create_loop 4 0 a (clear_pae_page a s1)). intros [ok s2]. cbn [fst]. intros ->. done.
  - destruct (legacy_pointers s Hok) as [_ Hk]. unfold legacy_create_address_space. rewrite Hk, Hroot. cbn [orb].
    unfold PAGING_MAX_ADDRESS_SPACES. replace (address_space_count s =? 16) with false by lia. rewrite E.
    by replace (a =? 0) with false by lia.
Qed.

(** ** The frames that mapping takes *)

Lemma alloc_low_cost s a s' n : pmm_wf (page_frames s) -> alloc_low s = (a, s') -> free_low s (S n) -> pmm_wf (page_frames s') /\ free_low s' n.
Proof.
  intros Hwf E Hfree. destruct (alloc_low_spec s a s' Hwf E) as (_ & Hwf' & [[_ Hown]|(_ & _ & Hown)]); (split; [done|]).
  - apply (free_low_le s' (S n)); [lia|]. by apply (free_low_eq s).
  - by eapply free_low_set.
Qed.

Lemma clear_frames page s : page_frames (clear_page page s) = page_frames s.
Proof.
  Transparent clear_page. unfold clear_page. Opaque clear_page.
  apply (for_loop_inv (fun _ x => page_frames x = page_frames s)); [unfold PAGE_TABLE_ENTRIES; lia|done|]. intros i x _ Hx. exact Hx.
Qed.

Lemma legacy_ensure_cost s va flags n : pmm_wf (page_frames s) -> free_low s (S n) -> free_low (snd (ensure_page_table va flags s)) n.
Proof.
  intros Hwf Hfree. assert (free_low s n) as Hn by (by apply (free_low_le s (S n)); [lia|]). unfold ensure_page_table.
  repeat case_if; try (cbn [snd]; exact Hn). destruct (alloc_low s) as [a s1] eqn:E. destruct (alloc_low_cost s a s1 n Hwf E Hfree) as [_ H1].
  case_if; cbn [snd]; [done|]. apply (free_low_frames s1); [|done]. cbn. by rewrite clear_frames.
Qed.

Lemma pae_ensure_cost s va flags n : pmm_wf (page_frames s) -> free_low s (S (S n)) -> free_low (snd (pae_ensure_page_table va flags s)) n.
Proof.
  intros Hwf Hfree. unfold pae_ensure_page_table.
  assert (pmm_wf (page_frames (snd (pae_ensure_directory (Z.shiftr va 30) s))) /\ free_low (snd (pae_ensure_directory (Z.shiftr va 30) s)) (S n)) as [Hw1 Hf1].
  { assert (free_low s (S n)) as Hn by (by apply (free_low_le s (S (S n))); [lia|]). unfold pae_ensure_directory. repeat case_if; [done..|].
    destruct (alloc_low s) as [a s1] eqn:E. destruct (alloc_low_cost s a s1 (S n) Hwf E Hfree) as [Hw H1]. case_if; cbn [snd]; [done|].
    split; [cbn; by rewrite pae_clear_frames|]. apply (free_low_frames s1); [|done]. cbn. by rewrite pae_clear_frames. }
  destruct (pae_ensure_directory (Z.shiftr va 30) s) as [d s1]. cbn [snd] in *.
  assert (free_low s1 n) as Hn by (by apply (free_low_le s1 (S n)); [lia|]). repeat case_if; try (cbn [snd]; exact Hn).
  all: destruct (alloc_low s1) as [a s2] eqn:E; destruct (alloc_low_cost s1 a s2 n Hw1 E Hf1) as [_ H2].
  all: case_if; cbn [snd]; [done|]; apply (free_low_frames s2); [cbn; by rewrite pae_clear_frames|done].
Qed.

(** A page of the kernel takes two frames at most. *)
Lemma map_super_cost wide s va pa flags n : paging_ok wide s -> flag flags 4 = false -> free_low s (S (S n)) ->
  free_low (snd (paging_map_page va pa flags s)) n.
Proof.
  intros Hok H4 Hfree. unfold paging_map_page. rewrite (proj1 (ok_mode _ _ Hok)). assert (free_low s n) as Hn by (by apply (free_low_le s (S (S n))); [lia|]).
  destruct wide.
  - unfold pae_map_page. case_if; [done|]. pose proof (pae_ensure_cost s va flags n (ok_pmm _ _ Hok) Hfree) as Hc.
    destruct (pae_ensure_page_table va flags s) as [t s1]. cbn [snd] in Hc. unfold PAGE_FLAG_USER. rewrite H4. by repeat case_if.
  - unfold legacy_map_page. case_if; [done|].
    pose proof (legacy_ensure_cost s va flags n (ok_pmm _ _ Hok) (free_low_le s (S (S n)) (S n) ltac:(lia) Hfree)) as Hc.
    destruct (ensure_page_table va flags s) as [t s1]. cbn [snd] in Hc. unfold PAGE_FLAG_USER. rewrite H4. by repeat case_if.
Qed.
