(* ===== verification/PagingBoot.v ===== *)
(** * When the initialisation succeeds

    [paging_init] with enough free frames, and with or without a framebuffer to map. *)

From S2P Require Import Prelude BootInfo Pmm PmmSpec PagingState PagingPae Paging PagingEntry PagingForest PagingView PagingInv PagingOps PagingMap PagingProtect PagingSpaces PagingCreate PagingInit PagingTotal.
Local Open Scope c_scope.
Local Open Scope Z_scope.

(** ** The framebuffer *)

(** The frames the pages from [index] on may need: one for the page directory, one for each table, and
    one more that [map_total] asks for. *)
Definition framebuffer_need (wide : bool) (index : Z) : nat :=
  if index =? 0 then (if wide then 4 else 2) else if wide && (index <=? 512) then 2 else 0.

Lemma framebuffer_request wide s index : paging_ok wide s -> current_root wide s = kernel_root wide s -> 0 <= index < 768 ->
  pte_of wide (words s) (current_root wide s) (dir_of wide (framebuffer_page index)) (leaf_of wide (framebuffer_page index)) = 0 ->
  map_request wide s (framebuffer_page index) (framebuffer_page index) PAGE_FLAG_WRITABLE.
Proof.
  intros Hok HcK Hi Hz. destruct (framebuffer_page_eq index Hi) as (Heq & Hu & _).
  assert (4096 <= framebuffer_page index /\ framebuffer_page index mod 4096 = 0) as [H1 H2].
  { rewrite Heq. unfold framebuffer_base. split; [lia|]. apply Z.mod_mul. lia. }
  split; try done. unfold shares. by replace (current_root wide s =? kernel_root wide s) with true by lia.
Qed.

Lemma map_framebuffer_total wide n : forall index s, paging_ok wide s -> current_root wide s = kernel_root wide s ->
  0 <= index -> index + Z.of_nat n <= 768 ->
  (forall i j, dir_index wide i -> table_index wide j -> framebuffer_base + index <= page_number wide i j < framebuffer_base + 768 ->
     pte_of wide (words s) (current_root wide s) i j = 0) ->
  (n <> O -> index mod entries wide = 0 \/ present (pde_of wide (words s) (current_root wide s) (dir_of wide (framebuffer_page index)))) ->
  free_low s (framebuffer_need wide index) -> fst (map_framebuffer n index s) = None.
Proof.
  induction n as [|n IH]; intros index s Hok HcK H0 Hn Hz Hpde Hfree; cbn [map_framebuffer]; [done|]. specialize (Hpde ltac:(done)).
  destruct (framebuffer_page_eq index ltac:(lia)) as (Heq & Hu & Hdiv). destruct (va_index wide _ Hu) as (Hi0 & Hj0 & Hpn0). rewrite Hdiv in Hpn0.
  set (va := framebuffer_page index) in *. set (i0 := dir_of wide va) in *. set (j0 := leaf_of wide va) in *.
  assert (pte_of wide (words s) (current_root wide s) i0 j0 = 0) as Habs by (apply Hz; [done|done|lia]).
  pose proof (framebuffer_request wide s index Hok HcK ltac:(lia) Habs) as Hreq. fold va in Hreq.
  assert (~ present (pde_of wide (words s) (current_root wide s) i0) -> framebuffer_need wide index = S (S (framebuffer_need wide (index + 1)))) as Hneed.
  { intros Hnp. destruct Hpde as [Hm|?]; [|done]. unfold framebuffer_need. clear -Hm H0 Hn. destruct wide; cbn [entries andb] in *.
    - assert (index = 0 \/ index = 512) as [-> | ->] by dmlia; done.
    - assert (index = 0) as -> by dmlia. done. }
  pose proof (map_total_for wide s va va PAGE_FLAG_WRITABLE Hok Hreq) as Hok1.
  assert (frames_for wide s va 2) as Hfor.
  { intros Hnp. rewrite (Hneed Hnp) in Hfree. by apply (free_low_le s _ 2) in Hfree; [|lia]. }
  specialize (Hok1 Hfor). pose proof (map_super_cost wide s va va PAGE_FLAG_WRITABLE (framebuffer_need wide (index + 1)) Hok eq_refl) as Hcost.
  destruct (paging_map_page va va PAGE_FLAG_WRITABLE s) as [ok s1] eqn:E. cbn [fst snd] in *. subst ok. cbn [negb].
  assert (is_u32 PAGE_FLAG_WRITABLE) as Hfl by (by compute).
  destruct (map_page_ok wide s va va PAGE_FLAG_WRITABLE true s1 Hok Hu Hu Hfl E) as [Hokn Hk _ Hnew Hoth _ _ (own & Hgr & Hown) _]. fold i0 j0 in Hnew, Hoth, Hgr.
  destruct (keeps_roots wide s s1 Hk) as (EK & _ & EC & _). destruct (Hnew eq_refl) as (v & (Hpv & _) & _ & Hv & _).
  apply IH; [done|congruence|lia|lia| | |].
  - intros i j Hi Hj Hr. rewrite EC. rewrite Hoth; [apply Hz; [done|done|lia]|done|apply Hok|done|done|].
    intros (_ & -> & ->). lia.
  - intros Hn0. destruct (decide ((index + 1) mod entries wide = 0)) as [|Hne]; [by left|right].
    replace (dir_of wide (framebuffer_page (index + 1))) with i0.
    + rewrite EC. rewrite <- EC in Hv. destruct (forest_leaf _ _ _ _ _ _ (ok_forest wide s1 Hokn) (current_root wide s1) i0 j0 (ok_current _ _ Hokn) Hi0 Hj0) as [Hp _].
      { cbn [pte view_of]. by rewrite Hv. }
      by rewrite EC in Hp.
    + destruct (framebuffer_page_eq (index + 1) ltac:(lia)) as (_ & Hu1 & Hdiv1). destruct (va_index wide _ Hu1) as (_ & Hj1 & Hpn1).
      rewrite Hdiv1 in Hpn1. set (i1 := dir_of wide (framebuffer_page (index + 1))) in *. set (j1 := leaf_of wide (framebuffer_page (index + 1))) in *.
      clear -Hpn0 Hpn1 Hj0 Hj1 Hne. unfold page_number, table_index, framebuffer_base in *. destruct wide; cbn [entries] in *; dmlia.
  - destruct (decide (present (pde_of wide (words s) (current_root wide s) i0))) as [Hp|Hnp]; [|apply Hcost; by rewrite <- (Hneed Hnp)].
    apply (free_low_le s1 (framebuffer_need wide index)).
    + unfold framebuffer_need. destruct wide; repeat case_if; lia.
    + apply (free_low_eq s); [|done]. pose proof (grown_found _ _ _ _ _ _ _ _ Hgr Hp) as Hg. intros x Hx Ha. rewrite (Hown x Hx Ha). by apply Hg.
Qed.

(** ** Initialisation *)

Lemma finish_init_result text_start text_end rodata_end s r : finish_init text_start text_end rodata_end s = Some r -> fst r = true.
Proof. unfold finish_init. destruct (protect_kernel_read_only _ _ _ s); [|done]. by intros [= <-]. Qed.

(** The frames after the tables of the first stage have been taken. *)
Definition init_need (font : bool) : nat := if font then 4 else 0.

Lemma window_framebuffer wide font s : window_mapped wide false s -> free_low s (init_need font) ->
  fst (if font then map_framebuffer (Z.to_nat VBE_FRAMEBUFFER_PAGES) 0 s else (None, s)) = None.
Proof.
  intros [Hok [_ HcK] Hpg] Hfree. destruct font; [|done]. apply (map_framebuffer_total wide); [done|done|lia|by compute| |by left|].
  - intros i j Hi Hj Hr. specialize (Hpg i j Hi Hj). cbv zeta in Hpg. unfold framebuffer_number, framebuffer_base in *. cbn [andb] in Hpg.
    rewrite HcK. replace ((1 <=? page_number wide i j) && (page_number wide i j <? 1024)) with false in Hpg by lia. exact Hpg.
  - apply (free_low_le s 4); [destruct wide; cbn; lia|done].
Qed.

Lemma init_tail_total wide text_start text_end rodata_end font s fail r : window_mapped wide false s -> free_low s (init_need font) ->
  (let '(failed, s) := if font : bool then map_framebuffer (Z.to_nat VBE_FRAMEBUFFER_PAGES) 0 s else (None, s) in
   match failed with
   | Some index => Some (false, fail index s)
   | None => finish_init text_start text_end rodata_end s
   end) = Some r -> fst r = true.
Proof.
  intros Hwm Hfree. pose proof (window_framebuffer wide font s Hwm Hfree) as Hf.
  destruct (if font then _ else _) as [failed s1]. cbn [fst] in Hf. subst failed. apply finish_init_result.
Qed.

(** Four free frames are enough, with a framebuffer eight. *)
Lemma pae_init_total text_start text_end rodata_end info s r : boot_state s -> paging_pae_enabled s = true ->
  free_low s (4 + init_need (font_available info)) -> pae_init text_start text_end rodata_end info s = Some r -> fst r = true.
Proof.
  intros Hb Hpae Hfree. unfold pae_init. set (m := init_need (font_available info)) in *.
  destruct (alloc_low_total s (3 + m) (boot_pmm s Hb) Hfree) as (a & s1 & E1 & Ha & _ & Hw1 & Hf1).
  destruct (alloc_low_total s1 (2 + m) Hw1 Hf1) as (d & s2 & E2 & Hd & _ & Hw2 & Hf2).
  destruct (alloc_low_total s2 (1 + m) Hw2 Hf2) as (b1 & s3 & E3 & Hb1 & _ & Hw3 & Hf3).
  destruct (alloc_low_total s3 m Hw3 Hf3) as (b2 & s4 & E4 & Hb2 & _ & _ & Hf4). rewrite E1, E2, E3, E4.
  replace ((a =? 0) || (d =? 0) || (b1 =? 0) || (b2 =? 0)) with false by lia.
  destruct (before_tables_alloc s [] a s1 (boot_before s Hb) E1 Ha) as [B1 Hs1]. destruct (before_tables_alloc s1 _ d s2 B1 E2 Hd) as [B2 Hs2].
  destruct (before_tables_alloc s2 _ b1 s3 B2 E3 Hb1) as [B3 Hs3]. destruct (before_tables_alloc s3 _ b2 s4 B3 E4 Hb2) as [B4 Hs4].
  pose proof (before_tables_perm s4 _ [a; d; b1; b2] B4 ltac:(solve_Permutation)) as B5.
  assert (paging_pae_enabled s4 = true) as Hp4 by (rewrite Hs4, Hs3, Hs2, Hs1; done).
  pose proof (pae_identity_ok a d b1 b2 s4 B5 Hp4) as Him. revert Him. generalize (pae_identity a d b1 b2 s4) as s5. intros s5 Him.
  apply (init_tail_total true text_start text_end rodata_end _ s5 (fun _ s => s)); [by eapply identity_window|].
  apply (free_low_frames s4); [apply Him|done].
Qed.

Lemma legacy_init_total text_start text_end rodata_end info s r : boot_state s -> paging_pae_enabled s = false -> paging_pae_nx_enabled s = false ->
  free_low s (2 + init_need (font_available info)) -> legacy_init text_start text_end rodata_end info s = Some r -> fst r = true.
Proof.
  intros Hb Hpae Hnx Hfree. unfold legacy_init. set (m := init_need (font_available info)) in *.
  destruct (alloc_low_total s (1 + m) (boot_pmm s Hb) Hfree) as (a & s1 & E1 & Ha & _ & Hw1 & Hf1).
  destruct (alloc_low_total s1 m Hw1 Hf1) as (b & s2 & E2 & Hb' & _ & _ & Hf2). rewrite E1, alloc_low_directory, E2.
  cbn [page_directory_physical set_page_directory page_directory]. replace ((a =? 0) || (b =? 0)) with false by lia.
  destruct (before_tables_alloc s [] a s1 (boot_before s Hb) E1 Ha) as [B1 Hs1]. destruct (before_tables_alloc s1 [a] b s2 B1 E2 Hb') as [B2 Hs2].
  pose proof (before_tables_directory s2 _ (page_directory s1) a (before_tables_perm _ _ [a; b] B2 ltac:(solve_Permutation))) as B3.
  set (s3 := set_page_directory s2 (page_directory s1) a) in *.
  assert (paging_pae_enabled s3 = false /\ paging_pae_nx_enabled s3 = false) as [Hp3 Hn3] by (unfold s3; rewrite Hs2, Hs1; done).
  pose proof (legacy_identity_ok a b s3 B3 eq_refl Hp3 Hn3) as Him. revert Him. generalize (legacy_identity b s3) as s4. intros s4 Him.
  apply (init_tail_total false text_start text_end rodata_end _ s4 (fun index s =>
    let s := unmap_framebuffer (Z.to_nat index) s in
    let s := free_frame b s in
    let s := free_frame (page_directory_physical s) s in set_page_directory s 0 0)); [by eapply identity_window|].
  apply (free_low_frames s3); [apply Him|done].
Qed.

Lemma paging_init_total pae nx text_start text_end rodata_end info s : boot_state s -> kernel_image text_start text_end rodata_end ->
  free_low s (4 + init_need (font_available info)) ->
  exists s', paging_init pae nx text_start text_end rodata_end info s = Some (true, s').
Proof.
  intros Hb Him Hfree. destruct (init_ok pae nx text_start text_end rodata_end info s Hb Him) as (ok & s' & E & _).
  exists s'. rewrite E. do 2 f_equal. change (fst (ok, s') = true). revert E. destruct Hb as [H1 H2 H3 H4 H5 H6]. unfold paging_init. destruct pae.
  - apply pae_init_total; [by split|done|exact Hfree].
  - apply legacy_init_total; [by split|done|done|]. apply (free_low_le s (4 + init_need (font_available info))); [lia|exact Hfree].
Qed.
