(* ===== verification/PagingSystem.v ===== *)
(** * Address spaces as a system

    From a successful boot of the frame allocator and of paging, the kernel maps, protects, unmaps,
    creates, destroys and switches address spaces, copies to user memory and uses frames of its own,
    in any order; in the kernel's space it does not unmap the last page of a table that other spaces
    use ([unmap_safe]). Every state it reaches satisfies the invariant of [PagingInv]. With pointer
    tables the processor follows the tables in memory as far as its pointer registers do: [settled]
    are the runs that enter another space before they go on after a call that took a page directory
    away from the current space (or, for the exact translation, added one). *)

From S2P Require Import Prelude BootInfo Checked Pmm PmmInit PmmSpec PagingState PagingPae Paging PagingEntry PagingForest PagingView PagingInv PagingOps PagingMap PagingProtect PagingUnmap PagingSpaces PagingCreate PagingDestroy PagingHw PagingLoaded PagingInit PagingUser.
Local Open Scope c_scope.
Local Open Scope Z_scope.

(** ** Boot *)

Lemma booted_owner ks ke info f f' b : boot_info_wf info -> arrays_ok f -> is_u32 ks -> is_u32 ke ->
  pmm_init ks ke (Some info) f = (true, f') -> in_blocks b ->
  frame_owner f' b = if usable_frame ks ke info b then Free else Reserved.
Proof.
  intros Hwf Ha Hks Hke E Hb. destruct (pmm_init_guards _ _ _ _ _ E) as [Hv Hlt].
  destruct (pmm_init_state ks ke info f) as (s1 & Hs1 & Heq); [done..|].
  rewrite Heq in E. injection E as _ <-. exact (init_state_owner _ _ b Hs1 Hb).
Qed.

Lemma pmm_booted ks ke info f f' : boot_info_wf info -> arrays_ok f -> is_u32 ks -> is_u32 ke ->
  pmm_init ks ke (Some info) f = (true, f') -> pmm_wf f' /\ forall b, in_blocks b -> frame_owner f' b <> User true.
Proof.
  intros Hwf Ha Hks Hke E. split; [exact (pmm_init_wf ks ke info f f' Hwf Ha Hks Hke E)|]. intros b Hb.
  rewrite (booted_owner ks ke info f f' b Hwf Ha Hks Hke E Hb). by destruct (usable_frame ks ke info b).
Qed.

(** The memory and the registers before paging is set up; the frame allocator has been booted. *)
Definition machine (w : tables) (d : gmap Z Z) (f : pmm) (r : cpu) : paging :=
  Build_paging w d f r 0 0 0 0 (replicate 16 0) 0 false false false 0 0 0 0 (replicate 16 0) 0.

Lemma machine_boot w d ks ke info f f' r : boot_info_wf info -> arrays_ok f -> is_u32 ks -> is_u32 ke ->
  pmm_init ks ke (Some info) f = (true, f') -> tables_ok w -> flag (cr4 r) CR4_PAE = false -> boot_state (machine w d f' r).
Proof.
  intros Hwf Ha Hks Hke E Hw Hr. destruct (pmm_booted ks ke info f f' Hwf Ha Hks Hke E) as [Hp Hu].
  split; try done. intros x Hx _. apply Hu. by apply u32_block.
Qed.

(** ** Steps *)

(** Calls of the frame allocator by the rest of the kernel: it allocates, and frees frames that are
    not page tables. *)
Definition frame_call (wide : bool) (s : paging) (op : pmm_op) : Prop :=
  match op with
  | OpAllocBelow limit => is_u32 limit
  | OpAllocUser => True
  | OpFree a => is_u32 a /\ unused wide (kernel_root wide s) (space_list wide s) (view_of wide (words s)) a
  | OpClaim _ | OpRelease _ => False
  end.

(** Copying stores bytes where the processor translates their addresses, so it is a step where the
    pointer registers are those of the space: elsewhere the bytes could land in a page table, which
    is kept apart from the data here. *)
Inductive paging_step (wide : bool) (s : paging) : paging -> Prop :=
  | step_map va pa flags ok s' : is_u32 va -> is_u32 pa -> is_u32 flags ->
      paging_map_page va pa flags s = (ok, s') -> paging_step wide s s'
  | step_protect va flags ok s' : is_u32 va -> is_u32 flags ->
      paging_protect_page va flags s = (ok, s') -> paging_step wide s s'
  | step_unmap va pa s' : is_u32 va -> unmap_safe wide s (dir_of wide va) (leaf_of wide va) ->
      paging_unmap_page va s = (pa, s') -> paging_step wide s s'
  | step_create d s' : paging_create_address_space s = (d, s') -> paging_step wide s s'
  | step_destroy d ok s' : paging_destroy_address_space d s = (ok, s') -> paging_step wide s s'
  | step_switch d ok s' : paging_switch_address_space d s = (ok, s') -> paging_step wide s s'
  | step_copy destination input len s' : is_u32 destination -> is_u32 len -> coherent wide s -> len <= Z.of_nat (length input) ->
      paging_copy_to_user destination (Some input) len s = Ok s' -> paging_step wide s s'
  | step_frames op r f : frame_call wide s op -> pmm_exec op (page_frames s) = (r, f) -> paging_step wide s (set_page_frames s f).

(** The state after boot, with tables of format [wide]. *)
Inductive booted (wide nx : bool) : paging -> Prop :=
  | booted_init w d ks ke info f f' r text_start text_end rodata_end s :
      boot_info_wf info -> arrays_ok f -> is_u32 ks -> is_u32 ke -> pmm_init ks ke (Some info) f = (true, f') ->
      tables_ok w -> flag (cr4 r) CR4_PAE = false -> kernel_image text_start text_end rodata_end ->
      paging_init wide nx text_start text_end rodata_end (Some info) (machine w d f' r) = Some (true, s) -> booted wide nx s.

(** The states reached from it, by calls in any order with the two exceptions above: an unmap that
    leaves another space with a link to a freed table, and a copy through pointer registers that are
    not those of the space. *)
Inductive reachable (wide nx : bool) : paging -> Prop :=
  | reach_init s : booted wide nx s -> reachable wide nx s
  | reach_step s s' : reachable wide nx s -> paging_step wide s s' -> reachable wide nx s'.

(** The states of runs in which a step of which [may] does not hold is followed, after any further
    steps, by entering another space. *)
Inductive settled (wide nx : bool) (may : paging -> paging -> Prop) : paging -> Prop :=
  | settled_boot s : booted wide nx s -> settled wide nx may s
  | settled_call s s' : settled wide nx may s -> paging_step wide s s' -> may s s' -> settled wide nx may s'
  | settled_enter s d s' : reachable wide nx s -> paging_switch_address_space d s = (true, s') -> d <> current_root wide s ->
      settled wide nx may s'.

(** A call of the allocator keeps the invariant. *)
Lemma frames_ok wide s op r f : paging_ok wide s -> frame_call wide s op -> pmm_exec op (page_frames s) = (r, f) ->
  paging_ok wide (set_page_frames s f).
Proof.
  intros Hok Hc E. assert (op_ok op) as Hop by (destruct op; cbn in *; tauto).
  destruct (pmm_exec_refines op _ r f (ok_pmm _ _ Hok) Hop E) as (Hwf & m' & Hs & Hm).
  eapply (paging_ok_keeps wide s); [done|done|done|]. split; [apply Hok|]. eapply forest_own; [apply (ok_forest wide s Hok)|..].
  - intros x Hx Hnu Ho. apply low_page_u32 in Hx as (Hu & Hal & _). unfold owner_at in *. cbn. rewrite Hm by (by apply u32_block).
    inversion Hs; subst; cbn in Hc; try done; unfold own_upd; try (case_decide as Hb; [|done]).
    + done.
    + by rewrite Hb in Ho; rewrite Ho in *.
    + exfalso. apply Hnu. destruct Hc as [_ Hc]. by replace x with (b * 4096) by (rewrite <- Hb; dmlia).
  - intros x Hx Hal. unfold owner_at. cbn. rewrite Hm by (by apply u32_block).
    inversion Hs; subst; cbn in Hc; try done; unfold own_upd; (case_decide as Hb; [|done]); rewrite Hb;
      repeat match goal with H : _ \/ _ |- _ => destruct H end; split; congruence.
Qed.

Lemma step_ok wide s s' : paging_ok wide s -> paging_enabled s = true -> paging_step wide s s' ->
  paging_ok wide s' /\ paging_enabled s' = true /\ paging_pae_nx_enabled s' = paging_pae_nx_enabled s.
Proof.
  intros Hok Hen Hst.
  assert (forall s', config s' = config s -> paging_enabled s' = true /\ paging_pae_nx_enabled s' = paging_pae_nx_enabled s) as Hcfg.
  { intros s1 Hk. destruct (config_fields wide s s1 Hk) as (_ & _ & _ & Hn & _ & _ & _ & He). by rewrite He. }
  destruct Hst as [va pa flags ok s' Hva Hpa Hfl E|va flags ok s' Hva Hfl E|va pa s' Hva Hsafe E|d s' E|d ok s' E|d ok s' E
    |destination input len s' Hd Hl Hco Hin E|op r f Hc E].
  - destruct (map_page_ok wide s va pa flags ok s' Hok Hva Hpa Hfl E) as [Hok' [Hk _] _ _ _ _ _ _]. split; [done|by apply Hcfg].
  - destruct (protect_page_ok wide s va flags ok s' Hok Hva Hfl E) as [Hok' [Hk _] _ _ _ _ _]. split; [done|by apply Hcfg].
  - destruct (unmap_page_ok wide s va pa s' Hok Hva Hsafe E) as [Hok' [Hk _] _ _ _ _ _ _]. split; [done|by apply Hcfg].
  - destruct (create_ok wide s d s' Hok E) as [Hok' _ [He Hn] _ _ _ _]. by rewrite He.
  - destruct (destroy_ok wide s d ok s' Hok E) as [Hok' _ _ [He Hn] _ _ _]. by rewrite He.
  - destruct (switch_ok wide s d ok s' Hok E) as (_ & Hf & Ht). destruct ok; [|by rewrite Hf].
    destruct (Ht eq_refl) as (Hok' & _ & _ & _ & _ & _ & _ & _ & Hn & He). by rewrite He.
  - destruct (copy_to_spec wide s input destination len Hok Hen Hco Hd Hl Hin) as [Hyes Hno].
    destruct (decide_user_range wide s true destination len) as [Hr|Hr]; [|by rewrite Hno in E].
    destruct (Hyes Hr) as (s1 & E1 & Hs1 & _). rewrite E in E1. injection E1 as <-. rewrite Hs1. split; [by apply paging_ok_data|done].
  - split; [by eapply frames_ok|done].
Qed.

Lemma booted_ok wide nx s : booted wide nx s ->
  paging_ok wide s /\ paging_enabled s = true /\ paging_pae_nx_enabled s = wide && nx /\ coherent wide s.
Proof.
  intros [w d ks ke info f f' r ts te re s' Hi Ha Hks Hke Ep Hw Hr Him Es].
  pose proof (machine_boot w d ks ke info f f' r Hi Ha Hks Hke Ep Hw Hr) as Hb.
  destruct (init_ok wide nx ts te re (Some info) _ Hb Him) as (ok & s1 & E1 & Hres). rewrite Es in E1. injection E1 as <- <-.
  destruct Hres as [Hok (Hen & Hco & Hnx) _ _]. done.
Qed.

Lemma reachable_ok wide nx s : reachable wide nx s ->
  paging_ok wide s /\ paging_enabled s = true /\ paging_pae_nx_enabled s = wide && nx.
Proof.
  induction 1 as [s Hb|s s' _ (Hok & Hen & Hnx) Hst].
  - by destruct (booted_ok wide nx s Hb) as (? & ? & ? & _).
  - destruct (step_ok wide s s' Hok Hen Hst) as (? & ? & ->). done.
Qed.

(** ** The pointer registers along a run *)

(** A directory is freed by the step, or all stay. *)
Lemma unmap_keeps wide s s' : (forall q d, node_of wide (words s) (current_root wide s) q = Some d ->
    node_of wide (words s') (current_root wide s) q = Some d \/ owner_at s' d = Free) ->
  keeps_directories wide s s' \/
  exists q d, 0 <= q < 4 /\ node_of wide (words s) (current_root wide s) q = Some d /\
    node_of wide (words s') (current_root wide s) q <> Some d /\ owner_at s' d = Free.
Proof.
  intros Hn. set (stays q := match node_of wide (words s) (current_root wide s) q with
    Some d => node_of wide (words s') (current_root wide s) q = Some d | None => True end).
  assert (forall q, Decision (stays q)) as Hdec by (intros q; unfold stays; destruct (node_of _ _ _ q); apply _).
  destruct (decide (Forall stays (seqZ 0 4))) as [HF|HF].
  - left. intros q d Hq Hd. rewrite list.Forall_forall in HF. specialize (HF q ltac:(apply elem_of_seqZ; lia)). unfold stays in HF. by rewrite Hd in HF.
  - right. apply not_Forall_Exists, list.Exists_exists in HF as (q & Hq%elem_of_seqZ & Hs); [|done]. unfold stays, compose in Hs.
    destruct (node_of wide (words s) (current_root wide s) q) as [d|] eqn:E; [|done]. exists q, d.
    destruct (Hn q d E) as [?|Ho]; [done|]. split_and!; (done || lia).
Qed.

(** Each step leaves the registers as they are or loads them, from the pointer table before the step
    or from that of a space it enters; and only an unmap takes a page directory from the current
    space, and frees it. *)
Lemma step_pointers wide s s' : paging_ok wide s -> paging_enabled s = true -> paging_step wide s s' ->
  (loads wide s s' \/ coherent wide s') /\
  (keeps_directories wide s s' \/
   exists va pa q d, paging_unmap_page va s = (pa, s') /\ 0 <= q < 4 /\ node_of wide (words s) (current_root wide s) q = Some d /\
     node_of wide (words s') (current_root wide s) q <> Some d /\ owner_at s' d = Free).
Proof.
  intros Hok Hen Hst. assert (forall x y, x /\ same_directories wide s s' -> (x \/ y) /\ (keeps_directories wide s s' \/
    exists va pa q d, paging_unmap_page va s = (pa, s') /\ 0 <= q < 4 /\ node_of wide (words s) (current_root wide s) q = Some d /\
     node_of wide (words s') (current_root wide s) q <> Some d /\ owner_at s' d = Free)) as Hsame.
  { intros x y [Hx Hs]. split; [by left|]. left. by apply same_keeps_directories. }
  destruct Hst as [va pa flags ok s' Hva Hpa Hfl E|va flags ok s' Hva Hfl E|va pa s' Hva Hsafe E|d s' E|d ok s' E|d ok s' E
    |destination input len s' Hd Hl Hco Hin E|op r f Hc E].
  - destruct (mapped_loads _ _ _ _ _ _ _ _ (map_page_ok wide s va pa flags ok s' Hok Hva Hpa Hfl E)) as [? ?]. split; by left.
  - apply Hsame, (protected_loads _ _ _ _ _ _ _ (ok_current _ _ Hok) (protect_page_ok wide s va flags ok s' Hok Hva Hfl E)).
  - destruct (unmapped_loads _ _ _ _ _ _ (unmap_page_ok wide s va pa s' Hok Hva Hsafe E)) as [HL Hn]. split; [by left|].
    destruct (unmap_keeps wide s s' Hn) as [?|(q & d & ?)]; [by left|right]. by exists va, pa, q, d.
  - apply Hsame, (created_loads wide s d s' Hok (create_ok wide s d s' Hok E)).
  - apply Hsame, (destroyed_loads wide s d ok s' (destroy_ok wide s d ok s' Hok E)).
  - destruct (switch_ok wide s d ok s' Hok E) as (_ & Hf & Ht). destruct ok; [|apply Hsame; rewrite (Hf eq_refl); split; [by apply loads_registers|done]].
    destruct (decide (d = current_root wide s)) as [->|Hne].
    { apply Hsame. rewrite (switch_same wide s true s' Hok E). split; [by apply loads_registers|done]. }
    split; [right; by eapply switch_loads|left]. destruct (Ht eq_refl) as (_ & _ & _ & _ & _ & Hw & _). intros q x _. by rewrite Hw.
  - apply Hsame. destruct (copy_to_spec wide s input destination len Hok Hen Hco Hd Hl Hin) as [Hyes Hno].
    destruct (decide_user_range wide s true destination len) as [Hr|Hr]; [|by rewrite Hno in E].
    destruct (Hyes Hr) as (s1 & E1 & Hs1 & _). rewrite E in E1. injection E1 as <-. rewrite Hs1. split; [by apply loads_registers|done].
  - apply Hsame. split; [by apply loads_registers|done].
Qed.

(** What holds along the settled runs. *)
Lemma settled_reachable wide nx may s : settled wide nx may s -> reachable wide nx s.
Proof.
  induction 1 as [s Hb|s s' _ IH Hst _|s d s' Hr E _]; [by apply reach_init|by eapply reach_step|].
  eapply reach_step; [exact Hr|by eapply step_switch].
Qed.

Lemma settled_ind_ok wide nx (may : paging -> paging -> Prop) (P : paging -> Prop) s : settled wide nx may s ->
  (forall s, coherent wide s -> P s) -> (forall s s', loads wide s s' -> may s s' -> P s -> P s') -> P s.
Proof.
  intros Hs Hco Hstep. induction Hs as [s Hb|s s' Hs IH Hst Hmay|s d s' Hr E Hne].
  - apply Hco. by destruct (booted_ok wide nx s Hb) as (_ & _ & _ & ?).
  - destruct (reachable_ok wide nx s (settled_reachable _ _ _ _ Hs)) as (Hok & Hen & _).
    destruct (step_pointers wide s s' Hok Hen Hst) as [[HL|HC] _]; [by eapply Hstep|by apply Hco].
  - apply Hco. destruct (reachable_ok wide nx s Hr) as (Hok & Hen & _). by eapply switch_loads.
Qed.

Lemma settled_unstale wide nx s : settled wide nx (keeps_directories wide) s -> unstale wide s.
Proof.
  intros Hs. apply (settled_ind_ok wide nx _ _ s Hs); [apply coherent_unstale|]. intros x y HL Hk. by apply loads_unstale.
Qed.

Lemma settled_coherent wide nx s : settled wide nx (same_directories wide) s -> coherent wide s.
Proof. intros Hs. apply (settled_ind_ok wide nx _ _ s Hs); [done|]. intros x y HL Hk. by apply loads_coherent. Qed.

Lemma settled_weaken wide nx (may may' : paging -> paging -> Prop) s : (forall s s', may s s' -> may' s s') ->
  settled wide nx may s -> settled wide nx may' s.
Proof.
  intros Hm. induction 1 as [s Hb|s s' _ IH Hst Hmay|s d s' Hr E Hne];
    [by apply settled_boot|eapply settled_call; [exact IH|exact Hst|by apply Hm]|by eapply settled_enter].
Qed.

(** Without pointer tables every run is settled. *)
Lemma settled_narrow nx s : reachable false nx s -> settled false nx (same_directories false) s.
Proof.
  induction 1 as [s Hb|s s' _ IH Hst]; [by apply settled_boot|]. eapply settled_call; [exact IH|exact Hst|].
  intros q Hq. unfold node_of. by replace (q =? -1) with false by lia.
Qed.
