(* ===== verification/PagingClient.v ===== *)
(** * Working in an address space

    What the calls of the rest of the kernel do to the space they work in, page by page: the entry of
    a page number, the frames the space is charged with, and the ownership map [F] that would be left
    if the space were destroyed. Mapping a frame that was allocated for it and unmapping it again
    leave [F] alone, so that a client that maps and unmaps pages keeps one [F] throughout. *)

From S2P Require Import Prelude Pmm PmmSpec PagingState PagingPae Paging PagingEntry PagingForest PagingView PagingInv PagingOps PagingMap PagingProtect PagingUnmap PagingSpaces PagingCreate PagingDestroy PagingHw PagingUser PagingTotal.
Local Open Scope c_scope.
Local Open Scope Z_scope.

(** ** Pages *)

Definition page_entry (wide : bool) (s : paging) (r n : Z) : Z :=
  pte_of wide (words s) r (n / entries wide) (n mod entries wide).

Lemma entries_pos wide : 0 < entries wide.
Proof. by destruct wide. Qed.

Lemma page_position wide n : 0 <= n < 1048576 ->
  dir_index wide (n / entries wide) /\ table_index wide (n mod entries wide) /\
  page_number wide (n / entries wide) (n mod entries wide) = n.
Proof. unfold dir_index, directories, table_index, page_number. destruct wide; cbn [entries]; intros Hn; dmlia. Qed.

Lemma position_page wide i j : dir_index wide i -> table_index wide j ->
  0 <= page_number wide i j < 1048576 /\ page_number wide i j / entries wide = i /\ page_number wide i j mod entries wide = j.
Proof. unfold dir_index, directories, table_index, page_number. destruct wide; cbn [entries]; intros Hi Hj; dmlia. Qed.

Lemma va_page wide va : is_u32 va ->
  dir_of wide va = va / 4096 / entries wide /\ leaf_of wide va = va / 4096 mod entries wide /\ 0 <= va / 4096 < 1048576.
Proof.
  intros Hva. destruct (va_index wide va Hva) as (Hi & Hj & Hn). rewrite <- Hn.
  destruct (position_page wide _ _ Hi Hj) as (? & -> & ->). done.
Qed.

Lemma leaf_page wide s va : is_u32 va -> leaf_entry wide s va = page_entry wide s (current_root wide s) (va / 4096).
Proof. intros Hva. unfold leaf_entry, page_entry. by destruct (va_page wide va Hva) as (-> & -> & _). Qed.

(** A space with the same tables and pages in both states. *)
Definition same_space (wide : bool) (r : Z) (s s' : paging) : Prop :=
  (forall q, node_of wide (words s') r q = node_of wide (words s) r q) /\
  (forall i, dir_index wide i -> pde_of wide (words s') r i = pde_of wide (words s) r i) /\
  (forall i j, dir_index wide i -> table_index wide j -> pte_of wide (words s') r i j = pte_of wide (words s) r i j).

Lemma same_space_refl wide r s : same_space wide r s s.
Proof. done. Qed.

Lemma same_space_trans wide r s1 s2 s3 : same_space wide r s1 s2 -> same_space wide r s2 s3 -> same_space wide r s1 s3.
Proof. intros (N1 & D1 & T1) (N2 & D2 & T2). split; [|split]; intros; [by rewrite N2|by rewrite D2, D1|by rewrite T2, T1]. Qed.

Lemma same_space_words wide r s s' : words s' = words s -> same_space wide r s s'.
Proof. intros E. unfold same_space. by rewrite E. Qed.

Lemma same_space_page wide r s s' n : same_space wide r s s' -> 0 <= n < 1048576 -> page_entry wide s' r n = page_entry wide s r n.
Proof. intros (_ & _ & H) Hn. destruct (page_position wide n Hn) as (? & ? & _). by apply H. Qed.

Lemma same_space_linked wide r s s' i t : same_space wide r s s' ->
  linked wide (view_of wide (words s')) r i t <-> linked wide (view_of wide (words s)) r i t.
Proof. intros (_ & H & _). unfold linked. cbn [pde view_of]. split; intros (Hi & H1 & H2); rewrite H in * by done; done. Qed.

(** ** The frames of a space *)

Section Charged.
Context (wide : bool) (s : paging) (d : Z).
#[local] Notation V := (view_of wide (words s)).
#[local] Notation K := (kernel_root wide s).

(** The tables that are not the kernel's hold user pages only. *)
Definition user_only : Prop := forall i, dir_index wide i -> present (pde_of wide (words s) d i) -> ~ shared wide V K d i ->
  private_low wide <= i < private_high wide /\ flag (pde_of wide (words s) d i) 4 = true /\
  forall j, table_index wide j -> present (pte_of wide (words s) d i j) -> flag (pte_of wide (words s) d i j) 4 = true.

Definition table_frame (x : Z) : Prop :=
  (exists q, node_of wide (words s) d q = Some x) \/ (exists i, linked wide V d i x /\ ~ shared wide V K d i).

Definition user_frame (x : Z) : Prop :=
  exists i j, user_page wide V d i j /\ frame_of (pte_of wide (words s) d i j) = x.

(** [F] is what the owners are without the space. *)
Definition without (F : Z -> owner) : Prop := forall x, is_u32 x -> x mod 4096 = 0 ->
  ((table_frame x \/ user_frame x) /\ F x = Free) \/ (~ table_frame x /\ ~ user_frame x /\ F x = owner_at s x).

Hypothesis Hok : paging_ok wide s.
Hypothesis Hd : d ∈ space_list wide s.

Lemma table_frame_owner x : table_frame x -> owner_at s x = Kernel /\ is_u32 x /\ x mod 4096 = 0.
Proof using Hok Hd.
  pose proof (ok_forest wide s Hok) as HF. assert (d ∈ roots wide s) as Hr by (by right).
  intros [[q Hq]|(i & Hl & _)].
  - destruct (forest_node _ _ _ _ _ _ HF d q x Hr Hq) as [Hlow Ho]. apply low_page_u32 in Hlow as (? & ? & _). done.
  - destruct (forest_link _ _ _ _ _ _ HF d i x Hr Hl) as (Hlow & Ho & _). apply low_page_u32 in Hlow as (? & ? & _). done.
Qed.

Lemma user_frame_owner x : user_frame x -> owner_at s x = User true /\ is_u32 x /\ x mod 4096 = 0.
Proof using Hok Hd.
  assert (d ∈ roots wide s) as Hr by (by right). intros (i & j & Hu & <-).
  destruct (forest_user _ _ _ _ _ _ (ok_forest wide s Hok) d i j Hr Hu) as (_ & Ho & _).
  split; [done|]. split; [apply frame_of_u32|apply frame_of_aligned].
Qed.

Lemma not_charged x : owner_at s x <> Kernel -> owner_at s x <> User true -> ~ table_frame x /\ ~ user_frame x.
Proof using Hok Hd.
  intros H1 H2. split; [intros [? _]%table_frame_owner|intros [? _]%user_frame_owner]; done.
Qed.

Lemma released_charged x : user_only -> released wide s d x <-> table_frame x \/ user_frame x.
Proof using Hok Hd.
  intros Hu. assert (forall i, private_low wide <= i < private_high wide -> dir_index wide i) as Hidx
    by (unfold private_low, private_high, dir_index, directories; destruct wide; lia). split.
  - intros [Hq|(i & t & Hi & Hp & Hx)]; [left; by left|]. apply Hidx in Hi as Hdi.
    apply (private_at_spec wide s d i t Hdi) in Hp as [Hl Hns]. destruct Hx as [->|(j & _ & Hup & Hf)].
    + left. right. by exists i.
    + right. by exists i, j.
  - intros [[Hq|(i & Hl & Hns)]|(i & j & Hup & <-)].
    + by left.
    + right. pose proof Hl as (Hi & Hp & _). destruct (Hu i Hi Hp Hns) as (Hrange & _). exists i, x. split; [done|].
      split; [by apply private_at_spec|by left].
    + by apply (user_released wide s d Hok Hd).
Qed.

Lemma space_not_kernel : d <> K.
Proof using Hok Hd.
  pose proof (forest_roots _ _ _ _ _ _ (ok_forest wide s Hok)) as [Hn _]%list.NoDup_cons. intros E. apply Hn. by rewrite <- E.
Qed.
End Charged.

(** ** Changes of the tables of a space *)

Section Grown.
Context (wide : bool) (s s' : paging) (d i0 : Z) (own1 : Z -> owner).
Hypothesis Hok : paging_ok wide s.
Hypothesis Hd : d ∈ space_list wide s.
Hypothesis HK : kernel_root wide s' = kernel_root wide s.
Hypothesis Hgr : grown wide (roots wide s) d i0 (words s) (owner_at s) (words s') own1.
Hypothesis Hi0 : dir_index wide i0.

Lemma grown_kernel i t : linked wide (view_of wide (words s')) (kernel_root wide s) i t <->
  linked wide (view_of wide (words s)) (kernel_root wide s) i t.
Proof using Hok Hd Hgr.
  unfold linked. cbn [pde view_of]. pose proof (space_not_kernel wide s d Hok Hd) as Hne.
  split; intros (Hi & H1 & H2); rewrite (grown_pde _ _ _ _ _ _ _ _ Hgr) in * by (done || constructor || naive_solver); done.
Qed.

Lemma grown_shared i : shared wide (view_of wide (words s')) (kernel_root wide s') d i <->
  shared wide (view_of wide (words s)) (kernel_root wide s) d i.
Proof using Hok Hd HK Hgr.
  rewrite HK. split; intros (t & H1 & H2).
  - apply grown_kernel in H2. exists t. split; [|done].
    destruct (grown_new_link _ _ _ _ _ _ _ _ Hgr i t H1) as [?|[Hf _]]; [done|].
    destruct (forest_link _ _ _ _ _ _ (ok_forest wide s Hok) _ i t (kernel_in wide s) H2) as (_ & Ho & _). congruence.
  - exists t. split; [by apply (grown_links _ _ _ _ _ _ _ _ Hgr)|by apply grown_kernel].
Qed.

Lemma grown_tables :
  (forall x, table_frame wide s d x -> table_frame wide s' d x) /\
  (forall x, table_frame wide s' d x -> table_frame wide s d x \/ owner_at s x = Free) /\
  (forall x, is_u32 x -> x mod 4096 = 0 -> own1 x = owner_at s x \/
     (owner_at s x = Free /\ own1 x = Kernel /\ table_frame wide s' d x)).
Proof using All.
  split; [|split].
  - intros x [[q Hq]|(i & Hl & Hns)].
    + left. exists q. by apply (grown_nodes _ _ _ _ _ _ _ _ Hgr).
    + right. exists i. rewrite grown_shared. split; [by apply (grown_links _ _ _ _ _ _ _ _ Hgr)|done].
  - intros x [[q Hq]|(i & Hl & Hns)].
    + destruct (grown_new_node _ _ _ _ _ _ _ _ Hgr q x Hq); [left; left; by exists q|by right].
    + rewrite grown_shared in Hns. destruct (grown_new_link _ _ _ _ _ _ _ _ Hgr i x Hl) as [?|[? _]]; [|by right].
      left. right. by exists i.
  - intros x Hx Ha. destruct (grown_frames _ _ _ _ _ _ _ _ Hgr x Hx Ha) as [?|(Hf & Hk & Hn)]; [by left|right].
    split; [done|]. split; [done|]. destruct Hn as [Hn|Hl]; [by left|right]. exists i0. split; [done|].
    rewrite HK. intros (t & H1 & H2%grown_kernel). rewrite (linked_eq _ _ _ _ _ _ H1 Hl) in H2.
    destruct (forest_link _ _ _ _ _ _ (ok_forest wide s Hok) _ i0 x (kernel_in wide s) H2) as (_ & Ho & _). congruence.
Qed.

Lemma grown_same r : r ∈ roots wide s -> r <> d ->
  (forall i j, dir_index wide i -> table_index wide j -> pte_of wide (words s') r i j = pte_of wide (words s) r i j) ->
  same_space wide r s s'.
Proof using Hgr.
  intros Hr Hne Hp. split; [|split; [|done]].
  - intros q. by apply (grown_node _ _ _ _ _ _ _ _ Hgr).
  - intros i Hi. apply (grown_pde _ _ _ _ _ _ _ _ Hgr); [done..|]. by intros [? _].
Qed.
End Grown.

(** The set of an optional frame. *)
Definition own_opt (own : Z -> owner) (a : option Z) (o : owner) : Z -> owner :=
  match a with Some a => own_set own a o | None => own end.

(** A page is added, or only tables. *)
Lemma without_map wide s s' d i0 own1 F a : paging_ok wide s -> paging_ok wide s' -> d ∈ space_list wide s ->
  config s' = config s -> dir_index wide i0 ->
  grown wide (roots wide s) d i0 (words s) (owner_at s) (words s') own1 ->
  (forall x, user_frame wide s' d x <-> user_frame wide s d x \/ a = Some x) ->
  own_eq (own_opt own1 a (User true)) (owner_at s') ->
  without wide s d F -> without wide s' d (own_opt F a Free).
Proof.
  intros Hok Hok' Hd Hc Hi0 Hgr Hu Hown HF x Hx Ha. destruct (config_fields wide s s' Hc) as (EK & _ & EL & _).
  assert (d ∈ space_list wide s') as Hd' by (by rewrite EL).
  destruct (grown_tables wide s s' d i0 own1 Hok Hd EK Hgr Hi0) as (T1 & T2 & T3).
  destruct (decide (a = Some x)) as [->|Hne].
  { left. split; [right; apply Hu; by right|]. cbn. unfold own_set. by rewrite decide_True. }
  assert (forall own o, own_opt own a o x = own x) as Hopt.
  { intros own o. destruct a as [a|]; [|done]. cbn. unfold own_set. rewrite decide_False by congruence. done. }
  specialize (Hown x Hx Ha). rewrite Hopt in Hown |- *. destruct (HF x Hx Ha) as [[[Ht|Hus] HFx]|(Hnt & Hnu & HFx)].
  - left. split; [left; by apply T1|done].
  - left. split; [right; apply Hu; by left|done].
  - destruct (T3 x Hx Ha) as [E|(E & _ & Ht)]; [|left; split; [by left|congruence]].
    right. split; [|split; [|congruence]].
    + intros Ht'. destruct (T2 x Ht') as [?|Hf]; [done|].
      destruct (table_frame_owner wide s' d Hok' Hd' x Ht') as [Hk _]. congruence.
    + rewrite Hu. naive_solver.
Qed.

(** A page is taken away, with the tables it leaves empty. *)
Lemma without_unmap wide s s' d i0 own1 F a : paging_ok wide s -> paging_ok wide s' -> d ∈ space_list wide s ->
  config s' = config s -> dir_index wide i0 ->
  grown wide (roots wide s) d i0 (words s') (owner_at s') (words s) own1 ->
  (forall x, user_frame wide s' d x <-> user_frame wide s d x /\ x <> a) -> owner_at s a = User true ->
  own_eq (own_set (owner_at s) a (User false)) own1 -> is_u32 a -> a mod 4096 = 0 ->
  without wide s d F -> without wide s' d (own_set F a (User false)).
Proof.
  intros Hok Hok' Hd Hc Hi0 Hgr Hu Hoa Hown Hau Haa HF x Hx Ha. destruct (config_fields wide s s' Hc) as (EK & _ & EL & _).
  assert (roots wide s = roots wide s') as ER by (unfold roots; by rewrite EK, EL). rewrite ER in Hgr.
  assert (d ∈ space_list wide s') as Hd' by (by rewrite EL).
  destruct (grown_tables wide s' s d i0 own1 Hok' Hd' (eq_sym EK) Hgr Hi0) as (T1 & T2 & T3).
  assert (forall y, owner_at s' y = Free \/ owner_at s' y = User false -> ~ table_frame wide s' d y /\ ~ user_frame wide s' d y) as Hfree.
  { intros y Hy. apply not_charged; [done|done|..]; destruct Hy as [->| ->]; done. }
  unfold own_set. destruct (decide (x = a)) as [->|Hne].
  { right. assert (owner_at s' a = User false) as Hoa'.
    { specialize (Hown a Hx Ha). unfold own_set in Hown. rewrite decide_True in Hown by done.
      destruct (T3 a Hx Ha) as [E|(_ & E & _)]; congruence. }
    split; [|split; [|by rewrite Hoa']]; apply Hfree; by right. }
  specialize (Hown x Hx Ha). unfold own_set in Hown. rewrite decide_False in Hown by done.
  destruct (HF x Hx Ha) as [[[Ht|Hus] HFx]|(Hnt & Hnu & HFx)].
  - destruct (T2 x Ht) as [Ht'|Hf]; [left; split; [by left|done]|right]. rewrite HFx, Hf.
    destruct (Hfree x (or_introl Hf)). done.
  - left. split; [right; by apply Hu|done].
  - right. split; [intros Ht; by apply Hnt, T1|]. split; [rewrite Hu; naive_solver|].
    destruct (T3 x Hx Ha) as [E|(_ & _ & Ht)]; [congruence|done].
Qed.

(** Only the owner of a frame that the space does not use changes. *)
Lemma without_own wide s s' d F a o : paging_ok wide s -> d ∈ space_list wide s -> words s' = words s -> kernel_root wide s' = kernel_root wide s ->
  own_eq (own_set (owner_at s) a o) (owner_at s') -> owner_at s a <> Kernel -> owner_at s a <> User true ->
  without wide s d F -> without wide s' d (own_set F a o).
Proof.
  intros Hok Hd Hw HK Hown H1 H2 HF x Hx Ha.
  assert (table_frame wide s' d x <-> table_frame wide s d x) as Ht by (unfold table_frame; by rewrite Hw, HK).
  assert (user_frame wide s' d x <-> user_frame wide s d x) as Hu by (unfold user_frame; by rewrite Hw).
  rewrite Ht, Hu, Hown by done. unfold own_set. case_decide as Hxa; [|by apply HF]. subst x.
  destruct (not_charged wide s d Hok Hd a H1 H2). by right.
Qed.

Lemma without_ext wide s d F F' : own_eq F F' -> without wide s d F -> without wide s d F'.
Proof. intros He HF x Hx Ha. rewrite He by done. by apply HF. Qed.

(** The same tables and owners, and the same user frames. *)
Lemma without_same wide s s' d F : kernel_root wide s' = kernel_root wide s ->
  (forall q, node_of wide (words s') d q = node_of wide (words s) d q) ->
  (forall r i, r = d \/ r = kernel_root wide s -> dir_index wide i -> pde_of wide (words s') r i = pde_of wide (words s) r i) ->
  owner_at s' = owner_at s ->
  (forall i j, dir_index wide i -> table_index wide j ->
     (user_entry (pte_of wide (words s') d i j) <-> user_entry (pte_of wide (words s) d i j)) /\
     (user_entry (pte_of wide (words s) d i j) -> frame_of (pte_of wide (words s') d i j) = frame_of (pte_of wide (words s) d i j))) ->
  (forall i, shared wide (view_of wide (words s')) (kernel_root wide s') d i <-> shared wide (view_of wide (words s)) (kernel_root wide s) d i) /\
  (without wide s d F -> without wide s' d F).
Proof.
  intros HK Hn Hp Ho Hu.
  assert (forall r i t, r = d \/ r = kernel_root wide s ->
    linked wide (view_of wide (words s')) r i t <-> linked wide (view_of wide (words s)) r i t) as Hl.
  { intros r i t Hr. unfold linked. cbn [pde view_of]. split; intros (Hi & H1 & H2); rewrite Hp in * by done; done. }
  assert (forall i, shared wide (view_of wide (words s')) (kernel_root wide s') d i <->
    shared wide (view_of wide (words s)) (kernel_root wide s) d i) as Hs.
  { intros i. rewrite HK. unfold shared. split; intros (t & H1 & H2); exists t; (split; [by apply (Hl d); [left|]|by apply (Hl (kernel_root wide s)); [right|]]). }
  split; [done|]. intros HF x Hx Ha. rewrite Ho.
  assert (table_frame wide s' d x <-> table_frame wide s d x) as Ht.
  { unfold table_frame. setoid_rewrite Hn. setoid_rewrite Hs. split; (intros [?|(i & H1 & H2)]; [by left|right; exists i; split; [by apply (Hl d); [left|]|done]]). }
  assert (user_frame wide s' d x <-> user_frame wide s d x) as Hus.
  { split; intros (i & j & (Hi & Hj & Hue) & Hf); exists i, j; destruct (Hu i j Hi Hj) as [H1 H2]; cbn [pte view_of] in Hue.
    - apply H1 in Hue. split; [done|]. by rewrite <- H2.
    - split; [split; [done|]; split; [done|by apply H1]|]. by rewrite H2. }
  rewrite Ht, Hus. by apply HF.
Qed.
