(* ===== verification/PagingWork.v ===== *)
(** * Calls made from a private space

    Contracts of the paging calls for a client that works in a space of its own below 1 GiB, as the
    program loader and the creation of processes do. [inside] is the state of such a client, [moved]
    what its calls leave alone. *)

From S2P Require Import Prelude Pmm PmmSpec PagingState PagingPae Paging PagingEntry PagingForest PagingView PagingInv PagingOps PagingMap PagingProtect PagingUnmap PagingSpaces PagingCreate PagingDestroy PagingHw PagingLoaded PagingUser PagingTotal PagingClient.
Local Open Scope c_scope.
Local Open Scope Z_scope.

(** A frame that the rest of the system does not use. *)
Definition room (o : owner) : Prop := o = Free \/ o = User false.

Definition frames_moved (F F' : Z -> owner) : Prop :=
  forall x, is_u32 x -> x mod 4096 = 0 -> F' x = F x \/ (room (F x) /\ room (F' x)).

(** The current space is [d], with private user pages only; [F] are the owners without it. *)
Record inside (wide : bool) (d : Z) (F : Z -> owner) (s : paging) : Prop := {
  in_ok : paging_ok wide s;
  in_enabled : paging_enabled s = true;
  in_coherent : coherent wide s;
  in_current : current_root wide s = d;
  in_space : d ∈ space_list wide s;
  in_user : user_only wide s d;
  in_without : without wide s d F
}.

(** The other spaces, the kernel's part of [d] and the contents of frames in use stay. *)
Record moved (wide : bool) (d : Z) (F : Z -> owner) (s s' : paging) : Prop := {
  mv_config : config s' = config s;
  mv_others : forall r, r ∈ roots wide s -> r <> d -> same_space wide r s s';
  mv_kernel : forall n, 0 <= n < 1048576 -> ~ (1024 <= n < 786432) -> page_entry wide s' d n = page_entry wide s d n;
  mv_shared : forall i, shared wide (view_of wide (words s')) (kernel_root wide s') d i <->
    shared wide (view_of wide (words s)) (kernel_root wide s) d i;
  mv_data : forall a, is_u32 a -> ~ room (F (a / 4096 * 4096)) -> data s' !! a = data s !! a
}.

Lemma frames_moved_refl F : frames_moved F F.
Proof. intros x _ _. by left. Qed.

Lemma frames_moved_eq F F' : own_eq F F' -> frames_moved F F'.
Proof. intros H x Hx Ha. left. by apply H. Qed.

Lemma frames_moved_trans F1 F2 F3 : frames_moved F1 F2 -> frames_moved F2 F3 -> frames_moved F1 F3.
Proof.
  intros H1 H2 x Hx Ha. destruct (H1 x Hx Ha) as [E1|[R1 R1']], (H2 x Hx Ha) as [E2|[R2 R2']].
  - left. congruence.
  - right. by rewrite <- E1.
  - right. by rewrite E2.
  - by right.
Qed.

Lemma frames_moved_set F a o : room (F a) -> room o -> frames_moved F (own_set F a o).
Proof. intros H1 H2 x Hx Ha. unfold own_set. case_decide; [subst; by right|by left]. Qed.

Lemma moved_refl wide d F s : moved wide d F s s.
Proof. by split. Qed.

Lemma moved_trans wide d F F' s1 s2 s3 : frames_moved F F' ->
  moved wide d F s1 s2 -> moved wide d F' s2 s3 -> moved wide d F s1 s3.
Proof.
  intros HF [C1 O1 K1 S1 D1] [C2 O2 K2 S2 D2]. destruct (config_fields wide s1 s2 C1) as (EK & _ & EL & _).
  split.
  - congruence.
  - intros r Hr Hne. eapply same_space_trans; [by apply O1|]. apply O2; [|done]. unfold roots. by rewrite EK, EL.
  - intros n Hn Hk. by rewrite K2, K1.
  - intros i. by rewrite S2, S1.
  - intros a Ha Hr. rewrite D2; [by apply D1|done|]. destruct (HF (a / 4096 * 4096)) as [->|[? _]]; [|dmlia|done|done].
    unfold is_u32 in *. dmlia.
Qed.

(** ** Lemmas on the steps *)

Lemma first_node wide s d : paging_ok wide s -> d ∈ roots wide s -> wide = true -> node_of wide (words s) d 0 <> None.
Proof.
  intros Hok Hd ->. destruct (forest_low _ _ _ _ _ _ (ok_forest true s Hok) d 0 1 Hd) as [(t & (_ & Hp & _) & _) _];
    [unfold dir_index, directories; lia|unfold table_index; cbn; lia|unfold page_number; cbn; lia|].
  cbn [pde view_of] in Hp. unfold pde_of, slot in Hp. change (0 / 512) with 0 in Hp.
  by destruct (node_of true (words s) d 0).
Qed.

Lemma low_directory wide n : 0 <= n < 262144 -> wide = true -> n / entries wide / 512 = 0.
Proof. intros Hn ->. cbn [entries]. dmlia. Qed.

Lemma user_only_grown wide s s' d i0 own1 : paging_ok wide s -> d ∈ space_list wide s -> kernel_root wide s' = kernel_root wide s ->
  grown wide (roots wide s) d i0 (words s) (owner_at s) (words s') own1 ->
  private_low wide <= i0 < private_high wide ->
  flag (pde_of wide (words s') d i0) 4 = true \/ pde_of wide (words s') d i0 = pde_of wide (words s) d i0 ->
  (forall i j, dir_index wide i -> table_index wide j -> present (pte_of wide (words s') d i j) ->
     flag (pte_of wide (words s') d i j) 4 = true \/ pte_of wide (words s') d i j = pte_of wide (words s) d i j) ->
  user_only wide s d -> user_only wide s' d.
Proof.
  intros Hok Hd EK Hgr Hi0 Hpd Hpt Hu i Hi Hp Hns. assert (d ∈ roots wide s) as Hr by (by right).
  rewrite (grown_shared wide s s' d i0 own1 Hok Hd EK Hgr) in Hns.
  assert (forall j, table_index wide j -> present (pte_of wide (words s') d i j) -> flag (pte_of wide (words s') d i j) 4 = true) as Hj.
  { intros j Hj Hpj. destruct (Hpt i j Hi Hj Hpj) as [?|E]; [done|]. rewrite E in Hpj |- *.
    destruct (forest_leaf _ _ _ _ _ _ (ok_forest wide s Hok) d i j Hr Hi Hj Hpj) as [Hpi _]. by apply (Hu i Hi Hpi Hns). }
  destruct (decide (i = i0)) as [->|Hne].
  - split; [done|]. split; [|done]. destruct Hpd as [?|E]; [done|]. rewrite E in Hp |- *. by apply (Hu i0 Hi Hp Hns).
  - rewrite (grown_pde _ _ _ _ _ _ _ _ Hgr) in Hp |- * by (done || naive_solver).
    destruct (Hu i Hi Hp Hns) as (? & ? & _). done.
Qed.

Lemma low_private wide n : 1024 <= n < 786432 -> private_low wide <= n / entries wide < private_high wide.
Proof. unfold private_low, private_high. destruct wide; cbn [entries]; intros Hn; dmlia. Qed.

Section Work.
Context (wide : bool) (d : Z) (F : Z -> owner) (s : paging).
Hypothesis Hin : inside wide d F s.
#[local] Notation E := (page_entry wide).

Lemma inside_root : d ∈ roots wide s.
Proof using Hin. right. apply Hin. Qed.

(** A frame that is not charged to the space has the same owner without it. *)
Lemma outside_owner x : is_u32 x -> x mod 4096 = 0 -> owner_at s x <> Kernel -> owner_at s x <> User true -> F x = owner_at s x.
Proof using Hin.
  intros Hx Ha H1 H2. destruct (not_charged wide s d (in_ok _ _ _ _ Hin) (in_space _ _ _ _ Hin) x H1 H2) as [Hnt Hnu].
  destruct (in_without _ _ _ _ Hin x Hx Ha) as [[[?|?] _]|(_ & _ & ?)]; done.
Qed.

Lemma inside_owner_free x : is_u32 x -> x mod 4096 = 0 -> owner_at s x = Free -> F x = Free.
Proof using Hin. intros Hx Ha Ho. rewrite outside_owner; [done..|by rewrite Ho|by rewrite Ho]. Qed.

(** Pages of the space by number and by position. *)
Lemma user_frame_page x : user_frame wide s d x <->
  exists n, 1024 <= n < 786432 /\ user_entry (E s d n) /\ frame_of (E s d n) = x.
Proof using Hin.
  split.
  - intros (i & j & Hu & Hf). destruct (forest_user _ _ _ _ _ _ (ok_forest wide s (in_ok _ _ _ _ Hin)) d i j inside_root Hu) as (_ & _ & Hn).
    destruct Hu as (Hi & Hj & Hue). destruct (position_page wide i j Hi Hj) as (_ & Ei & Ej).
    exists (page_number wide i j). unfold page_entry. rewrite Ei, Ej. done.
  - intros (n & Hn & Hu & Hf). destruct (page_position wide n ltac:(lia)) as (Hi & Hj & _).
    exists (n / entries wide), (n mod entries wide). done.
Qed.

(** Two user pages have two frames. *)
Lemma user_page_inj n n' : 0 <= n < 1048576 -> 0 <= n' < 1048576 -> user_entry (E s d n) -> user_entry (E s d n') ->
  frame_of (E s d n) = frame_of (E s d n') -> n = n'.
Proof using Hin.
  intros Hn Hn' Hu Hu' Hf. destruct (page_position wide n Hn) as (Hi & Hj & En), (page_position wide n' Hn') as (Hi' & Hj' & En').
  destruct (forest_user_inj _ _ _ _ _ _ (ok_forest wide s (in_ok _ _ _ _ Hin)) d (n / entries wide) (n mod entries wide)
    d (n' / entries wide) (n' mod entries wide) inside_root inside_root) as (_ & E1 & E2); [done..|].
  rewrite <- En, <- En', E1, E2. done.
Qed.
End Work.

(** Pages of [d] in two states that differ at most at page [n]. *)
Lemma pages_differ wide s s' d n : 0 <= n < 1048576 ->
  (forall i j, dir_index wide i -> table_index wide j -> ~ (i = n / entries wide /\ j = n mod entries wide) ->
     pte_of wide (words s') d i j = pte_of wide (words s) d i j) ->
  forall n', 0 <= n' < 1048576 -> n' <> n -> page_entry wide s' d n' = page_entry wide s d n'.
Proof.
  intros Hn H n' Hn' Hne. destruct (page_position wide n Hn) as (_ & _ & En), (page_position wide n' Hn') as (Hi & Hj & En').
  apply H; [done..|]. intros [E1 E2]. apply Hne. rewrite <- En, <- En', E1, E2. done.
Qed.

(** ** Mapping *)

Lemma sees_self wide s r i j : paging_ok wide s -> r ∈ roots wide s -> dir_index wide i -> table_index wide j ->
  present (pte_of wide (words s) r i j) -> sees wide s r r i.
Proof.
  intros Hok Hr Hi Hj Hp. destruct (forest_leaf _ _ _ _ _ _ (ok_forest wide s Hok) r i j Hr Hi Hj Hp) as [Hpd _].
  exists (frame_of (pde_of wide (words s) r i)). done.
Qed.

Section WorkMap.
Context (wide : bool) (d : Z) (F : Z -> owner) (s s' : paging) (n pa flags : Z) (ok : bool).
Hypothesis Hin : inside wide d F s.
Hypothesis Hn : 1024 <= n < 262144.
Hypothesis Hu4 : flag flags 4 = true.
Hypothesis Hpa : is_u32 pa.
Hypothesis Hm : mapped wide (n / entries wide) (n mod entries wide) pa flags s ok s'.
#[local] Notation E := (page_entry wide).

Lemma map_pages :
  (ok = false -> forall i j, dir_index wide i -> table_index wide j -> pte_of wide (words s') d i j = pte_of wide (words s) d i j) /\
  (ok = true -> owner_at s pa = User false /\ pa mod 4096 = 0 /\ E s d n = 0 /\ entry_for (paging_pae_nx_enabled s) pa flags (E s' d n) /\
     forall n', 0 <= n' < 1048576 -> n' <> n -> E s' d n' = E s d n') /\
  (forall r, r ∈ roots wide s -> r <> d -> forall i j, dir_index wide i -> table_index wide j ->
     pte_of wide (words s') r i j = pte_of wide (words s) r i j).
Proof using All.
  destruct Hm as [Hok' Hk Hf Hnew Hoth Hus _ _ _]. pose proof (in_current _ _ _ _ Hin) as Hc. rewrite Hc in *.
  pose proof (inside_root _ _ _ _ Hin) as Hr. split; [|split].
  - intros -> i j Hi Hj. by apply (proj1 (Hf eq_refl)).
  - intros ->. destruct (Hnew eq_refl) as (v & Hv & H0 & Hv' & _). destruct (Hus eq_refl Hu4) as (Ho & _).
    split; [done|]. split; [pose proof Hv as (_ & <- & _); apply frame_of_aligned|].
    unfold page_entry at 1 2. rewrite Hv'. split; [done|]. split; [done|].
    apply (pages_differ wide s s' d n); [lia|]. intros i j Hi Hj Hne. apply Hoth; [done..|]. naive_solver.
  - intros r Hrr Hne i j Hi Hj. destruct ok; [|by apply (proj1 (Hf eq_refl))].
    destruct (Hus eq_refl Hu4) as (_ & Hsole & _). apply Hoth; [done..|]. intros (Hs & _). by apply Hne, Hsole.
Qed.

Lemma map_user_frames x :
  user_frame wide s' d x <-> user_frame wide s d x \/ (if ok then Some pa else None) = Some x.
Proof using All.
  destruct map_pages as (Hfail & Hnew & _). destruct (page_position wide n ltac:(lia)) as (Hi & Hj & _).
  destruct ok.
  - destruct (Hnew eq_refl) as (_ & _ & H0 & (Hp & Hfr & _ & H4 & _) & Hsame). rewrite Hu4 in H4. split.
    + intros (i & j & Hup & Hx). destruct (position_page wide i j (proj1 Hup) (proj1 (proj2 Hup))) as (Hr & Ei & Ej).
      destruct (decide (page_number wide i j = n)) as [E1|E1].
      * right. f_equal. rewrite <- Hx. rewrite <- Hfr, <- E1. unfold page_entry. by rewrite Ei, Ej.
      * left. exists i, j. specialize (Hsame _ Hr E1). unfold page_entry in Hsame. rewrite Ei, Ej in Hsame.
        unfold user_page in *. cbn [pte view_of] in *. rewrite Hsame in Hup, Hx. done.
    + intros [(i & j & Hup & Hx)|[= ->]].
      * destruct (position_page wide i j (proj1 Hup) (proj1 (proj2 Hup))) as (Hr & Ei & Ej).
        assert (page_number wide i j <> n) as E1.
        { intros <-. unfold page_entry in H0. rewrite Ei, Ej in H0. destruct Hup as (_ & _ & Hup & _). cbn in Hup. by rewrite H0 in Hup. }
        exists i, j. specialize (Hsame _ Hr E1). unfold page_entry in Hsame. rewrite Ei, Ej in Hsame.
        unfold user_page in *. cbn [pte view_of] in *. by rewrite Hsame.
      * exists (n / entries wide), (n mod entries wide). done.
  - assert (forall i j, user_page wide (view_of wide (words s')) d i j <-> user_page wide (view_of wide (words s)) d i j) as Hup.
    { intros i j. unfold user_page. cbn [pte view_of]. split; intros (H1 & H2 & H3); rewrite Hfail in * by done; done. }
    split.
    + intros (i & j & Hp & Hx). left. pose proof Hp as (H1 & H2 & _). exists i, j. rewrite <- Hup, <- Hfail by done. done.
    + intros [(i & j & Hp & Hx)|]; [|done]. pose proof Hp as (H1 & H2 & _). exists i, j. rewrite Hup, Hfail by done. done.
Qed.

Lemma map_inside : inside wide d (own_opt F (if ok then Some pa else None) Free) s' /\ moved wide d F s s'.
Proof using All.
  pose proof (in_ok _ _ _ _ Hin) as Hok. pose proof (in_space _ _ _ _ Hin) as Hd. pose proof (in_current _ _ _ _ Hin) as Hc.
  destruct map_pages as (Hfail & Hnew & Hrest). pose proof map_user_frames as Huf.
  destruct Hm as [Hok' (Hcfg & Hdata & Hregs) _ _ _ _ _ (own & Hgr & Hown) Hmark]. rewrite Hc in Hgr, Hmark.
  destruct (config_fields wide s s' Hcfg) as (EK & EC & EL & _ & _ & _ & _ & EN).
  destruct (page_position wide n ltac:(lia)) as (Hi & Hj & Hpn).
  assert (forall i j, dir_index wide i -> table_index wide j -> present (pte_of wide (words s') d i j) ->
    flag (pte_of wide (words s') d i j) 4 = true \/ pte_of wide (words s') d i j = pte_of wide (words s) d i j) as Hpt.
  { intros i j Hi' Hj' _. destruct ok; [|right; by apply Hfail]. destruct (Hnew eq_refl) as (_ & _ & _ & (_ & _ & _ & H4 & _) & Hsame).
    destruct (position_page wide i j Hi' Hj') as (Hr & Ei & Ej). unfold page_entry in H4, Hsame.
    destruct (decide (page_number wide i j = n)) as [E1|E1]; [left; rewrite <- E1, Ei, Ej in H4; by rewrite H4|right].
    specialize (Hsame _ Hr E1). by rewrite Ei, Ej in Hsame. }
  assert (forall n', 0 <= n' < 1048576 -> n' <> n -> E s' d n' = E s d n') as Hpg.
  { destruct ok; [by apply Hnew|]. intros n' Hn' _. destruct (page_position wide n' Hn') as (H1 & H2 & _). by apply Hfail. }
  split; split.
  - done.
  - rewrite EN. apply Hin.
  - apply (loads_coherent wide s); [by apply loads_registers| |apply Hin]. intros q Hq. rewrite Hc. apply node_get. intros Hw.
    apply (grown_root _ _ _ _ _ _ _ _ Hgr Hw); [|done].
    rewrite (low_directory wide n) by (done || lia). by apply (first_node wide s d Hok (inside_root _ _ _ _ Hin)).
  - congruence.
  - by rewrite EL.
  - eapply (user_only_grown wide s s' d _ own Hok Hd EK Hgr); [apply low_private; lia|by apply Hmark|done|apply Hin].
  - eapply (without_map wide s s' d _ own); [done|done|done|done|exact Hi|done|done| |apply Hin]. rewrite Hu4 in Hown. by destruct ok.
  - done.
  - intros r Hr Hne. eapply grown_same; [done..|]. by apply Hrest.
  - intros n' Hn' Hk. apply Hpg; [done|lia].
  - intros i. by eapply grown_shared.
  - intros a _ _. by rewrite Hdata.
Qed.
End WorkMap.

(** Mapping an allocated frame as a user page. *)
Lemma work_map wide d F s n pa flags ok s' : inside wide d F s -> 1024 <= n < 262144 -> is_u32 flags -> flag flags 4 = true ->
  is_u32 pa -> paging_map_page (n * 4096) pa flags s = (ok, s') ->
  inside wide d (own_opt F (if ok then Some pa else None) Free) s' /\ moved wide d F s s' /\
  (ok = false -> forall n', 0 <= n' < 1048576 -> page_entry wide s' d n' = page_entry wide s d n') /\
  (ok = true -> F pa = User false /\ pa mod 4096 = 0 /\ page_entry wide s d n = 0 /\
     entry_for (paging_pae_nx_enabled s) pa flags (page_entry wide s' d n) /\
     forall n', 0 <= n' < 1048576 -> n' <> n -> page_entry wide s' d n' = page_entry wide s d n').
Proof.
  intros Hin Hn Hfl H4 Hpa Em. assert (is_u32 (n * 4096)) as Hva by (unfold is_u32; lia).
  pose proof (map_page_ok wide s _ _ _ _ _ (in_ok _ _ _ _ Hin) Hva Hpa Hfl Em) as Hm.
  destruct (va_page wide _ Hva) as (E1 & E2 & _). rewrite E1, E2, Z.div_mul in Hm by lia.
  destruct (map_inside wide d F s s' n pa flags ok Hin Hn H4 Hpa Hm) as [H1 H2]. split; [done|]. split; [done|].
  destruct (map_pages wide d F s s' n pa flags ok Hin Hn H4 Hpa Hm) as (Hf & Hs & _). split.
  - intros Hok n' Hn'. destruct (page_position wide n' Hn') as (? & ? & _). by apply Hf.
  - intros Hok. destruct (Hs Hok) as (Ho & Ha & Hrest). split; [|done].
    rewrite (outside_owner wide d F s Hin) by (done || by rewrite Ho). done.
Qed.

(** ** Unmapping *)

Section WorkUnmap.
Context (wide : bool) (d : Z) (F : Z -> owner) (s s' : paging) (n pa : Z).
Hypothesis Hin : inside wide d F s.
Hypothesis Hn : 1024 <= n < 262144.
Hypothesis Hm : unmapped wide (n / entries wide) (n mod entries wide) s pa s'.
Hypothesis Hpa : pa <> 0.
#[local] Notation E := (page_entry wide).

Lemma unmap_pages :
  user_entry (E s d n) /\ pa = frame_of (E s d n) /\ E s' d n = 0 /\
  (forall i j, dir_index wide i -> table_index wide j -> ~ (i = n / entries wide /\ j = n mod entries wide) ->
     pte_of wide (words s') d i j = pte_of wide (words s) d i j) /\
  (forall r, r ∈ roots wide s -> r <> d -> forall i j, dir_index wide i -> table_index wide j ->
     pte_of wide (words s') r i j = pte_of wide (words s) r i j).
Proof using All.
  pose proof (in_ok _ _ _ _ Hin) as Hok. pose proof (in_space _ _ _ _ Hin) as Hd. pose proof (inside_root _ _ _ _ Hin) as Hr.
  pose proof (ok_forest wide s Hok) as HF.
  destruct Hm as [Hok' _ _ Hgone Hoth _ _ _ _ _ Hprv]. specialize (Hoth Hpa). specialize (Hprv Hpa).
  rewrite (in_current _ _ _ _ Hin) in *. destruct (Hgone Hpa) as (Hp & Hfr & Hzero).
  destruct (page_position wide n ltac:(lia)) as (Hi & Hj & Hpn).
  destruct (forest_leaf _ _ _ _ _ _ HF d _ _ Hr Hi Hj Hp) as [Hpd _].
  destruct Hprv as [Hc|Hns]; [by destruct (space_not_kernel wide s d Hok Hd)|].
  destruct (in_user _ _ _ _ Hin _ Hi Hpd Hns) as (_ & _ & Hu4).
  split; [split; [done|by apply Hu4]|]. split; [done|]. split; [|split].
  - apply Hzero; [done|]. by eapply sees_self.
  - intros i j Hi' Hj' Hne. apply Hoth; [done..|]. naive_solver.
  - intros r Hrr Hne i j Hi' Hj'. apply Hoth; [done..|]. intros ((t & H1 & H2) & _). apply Hne.
    destruct (forest_share _ _ _ _ _ _ HF r _ d _ t Hrr Hr H1 H2) as [_ [?|HK]]; [done|]. destruct Hns. by exists t.
Qed.

Lemma unmap_inside : inside wide d (own_set F pa (User false)) s' /\ moved wide d F s s' /\ F pa = Free.
Proof using All.
  pose proof (in_ok _ _ _ _ Hin) as Hok. pose proof (in_space _ _ _ _ Hin) as Hd. pose proof (in_current _ _ _ _ Hin) as Hc.
  destruct unmap_pages as (Hue & Hfr & Hz & Hpg & Hrest). destruct (page_position wide n ltac:(lia)) as (Hi & Hj & Hpn).
  pose proof Hm as [Hok' (Hcfg & Hdata) _ _ _ _ _ Htab Hpde _ _]. destruct (Htab Hpa) as (own & Hgr & Hown). rewrite Hc in *.
  change (pte_of wide (words s) d (n / entries wide) (n mod entries wide)) with (E s d n) in Hown.
  rewrite (proj2 Hue) in Hown.
  destruct (config_fields wide s s' Hcfg) as (EK & EC & EL & _ & _ & _ & _ & EN).
  assert (d ∈ space_list wide s') as Hd' by (by rewrite EL).
  assert (roots wide s' = roots wide s) as ER by (unfold roots; by rewrite EK, EL).
  assert (user_frame wide s d pa) as Hupa.
  { exists (n / entries wide), (n mod entries wide). done. }
  destruct (user_frame_owner wide s d Hok Hd pa Hupa) as (Hopa & Hpu & Hpal).
  assert (forall x, user_frame wide s' d x <-> user_frame wide s d x /\ x <> pa) as Huf.
  { intros x. split.
    - intros (i & j & Hup & Hx). destruct (decide (i = n / entries wide /\ j = n mod entries wide)) as [[-> ->]|Hne].
      { destruct Hup as (_ & _ & Hp & _). cbn [pte view_of] in Hp. unfold page_entry in Hz. by rewrite Hz in Hp. }
      pose proof Hup as (Hi' & Hj' & Hup'). rewrite Hpg in Hx by done. cbn [pte view_of] in Hup'. rewrite Hpg in Hup' by done.
      split; [by exists i, j|]. intros ->. apply Hne.
      destruct (forest_user_inj _ _ _ _ _ _ (ok_forest wide s Hok) d i j d (n / entries wide) (n mod entries wide)
        (inside_root _ _ _ _ Hin) (inside_root _ _ _ _ Hin)) as (_ & ? & ?); [done|done| |done]. cbn. by rewrite Hx, Hfr.
    - intros [(i & j & Hup & Hx) Hne]. pose proof Hup as (Hi' & Hj' & _).
      assert (~ (i = n / entries wide /\ j = n mod entries wide)) as Hij.
      { intros [-> ->]. apply Hne. by rewrite <- Hx, Hfr. }
      exists i, j. unfold user_page in *. cbn [pte view_of] in *. by rewrite Hpg. }
  assert (F pa = Free) as HFpa.
  { destruct (in_without _ _ _ _ Hin pa Hpu Hpal) as [[_ ?]|(_ & Hnu & _)]; done. }
  split; [split|split; [split|done]].
  - done.
  - rewrite EN. apply Hin.
  - apply (loads_coherent wide s); [exact (proj1 (unmapped_loads wide _ _ s pa s' Hm))| |apply Hin]. intros q Hq. rewrite Hc. symmetry. apply node_get. intros Hw.
    apply (grown_root _ _ _ _ _ _ _ _ Hgr Hw); [|done]. rewrite (low_directory wide n) by (done || lia).
    apply (first_node wide s' d Hok'); [by rewrite ER; apply (inside_root _ _ _ _ Hin)|done].
  - congruence.
  - done.
  - intros i Hi' Hp Hns. rewrite Hpde in Hp |- * by done. rewrite <- ER in Hgr.
    rewrite <- (grown_shared wide s' s d _ own Hok' Hd' (eq_sym EK) Hgr) in Hns.
    destruct (in_user _ _ _ _ Hin i Hi' Hp Hns) as (? & ? & Hj4). split; [done|]. split; [done|]. intros j Hj' Hpj.
    destruct (decide (i = n / entries wide /\ j = n mod entries wide)) as [[-> ->]|Hne].
    + unfold page_entry in Hz. by rewrite Hz in Hpj.
    + rewrite Hpg in Hpj |- * by done. by apply Hj4.
  - eapply (without_unmap wide s s' d _ own); [done|done|done|done|exact Hi|done|done|done|done|done|done|apply Hin].
  - done.
  - intros r Hr Hne. rewrite <- ER in Hgr, Hr. destruct (grown_same wide s' s d _ own Hgr r Hr Hne) as (N & D & T).
    + intros i j Hi' Hj'. symmetry. apply Hrest; [by rewrite <- ER|done..].
    + split; [|split]; intros; symmetry; [by apply N|by apply D|by apply T].
  - intros n' Hn' Hk. apply (pages_differ wide s s' d n); [lia|done|done|lia].
  - intros i. rewrite <- ER in Hgr. symmetry. exact (grown_shared wide s' s d _ own Hok' Hd' (eq_sym EK) Hgr i).
  - intros a _ _. by rewrite Hdata.
Qed.
End WorkUnmap.

(** Unmapping a page: its frame is the caller's, who has to free it. *)
Lemma work_unmap wide d F s n pa s' : inside wide d F s -> 1024 <= n < 262144 ->
  paging_unmap_page (n * 4096) s = (pa, s') -> pa <> 0 ->
  inside wide d (own_set F pa (User false)) s' /\ moved wide d F s s' /\ F pa = Free /\
  user_entry (page_entry wide s d n) /\ pa = frame_of (page_entry wide s d n) /\ page_entry wide s' d n = 0 /\
  forall n', 0 <= n' < 1048576 -> n' <> n -> page_entry wide s' d n' = page_entry wide s d n'.
Proof.
  intros Hin Hn Em Hpa. assert (is_u32 (n * 4096)) as Hva by (unfold is_u32; lia).
  pose proof (in_ok _ _ _ _ Hin) as Hok. pose proof (space_not_kernel wide s d Hok (in_space _ _ _ _ Hin)) as HdK.
  pose proof (unmap_page_ok wide s (n * 4096) pa s' Hok Hva) as Hm. destruct (va_page wide _ Hva) as (E1 & E2 & _).
  rewrite E1, E2, Z.div_mul in Hm by lia.
  assert (unmapped wide (n / entries wide) (n mod entries wide) s pa s') as Hun.
  { apply Hm; [|done]. intros Hc. by rewrite (in_current _ _ _ _ Hin) in Hc. }
  destruct (unmap_inside wide d F s s' n pa Hin Hn Hun Hpa) as (H1 & H2 & H3).
  destruct (unmap_pages wide d F s s' n pa Hin Hn Hun Hpa) as (H4 & H5 & H6 & H7 & _). do 6 (split; [done|]).
  apply (pages_differ wide s s' d n); [lia|done].
Qed.

(** ** Calls that succeed *)

Lemma shares_not wide s i : paging_ok wide s -> dir_index wide i ->
  current_root wide s = kernel_root wide s \/ ~ shared wide (view_of wide (words s)) (kernel_root wide s) (current_root wide s) i ->
  shares wide s i = false.
Proof.
  intros Hok Hi Hc. unfold shares. destruct Hc as [->|Hns]; [by rewrite Z.eqb_refl|].
  destruct (Z.eqb_spec (current_root wide s) (kernel_root wide s)); [done|]. cbn [negb andb].
  destruct (Z.eqb_spec (table_at wide s (kernel_root wide s) i) 0) as [|Hk]; [done|]. cbn [negb andb].
  destruct (Z.eqb_spec (table_at wide s (kernel_root wide s) i) (table_at wide s (current_root wide s) i)) as [E|]; [|done].
  exfalso. apply Hns. exists (table_at wide s (kernel_root wide s) i). split; [|by apply table_at_linked; [apply kernel_in|..]].
  rewrite E. apply table_at_linked; [apply Hok|done|by rewrite <- E].
Qed.

(** The table and the raw entry of a page that is there. *)
Lemma present_table wide s va : paging_ok wide s -> is_u32 va -> present (leaf_entry wide s va) ->
  let t := table_at wide s (current_root wide s) (dir_of wide va) in
  t <> 0 /\ flag (get wide (words s) t (leaf_of wide va)) 1 = true /\ get wide (words s) t (leaf_of wide va) = leaf_entry wide s va /\
  frame_of (leaf_entry wide s va) <> 0.
Proof.
  intros Hok Hva Hp. destruct (va_index wide va Hva) as (Hi & Hj & _). cbv zeta.
  destruct (table_leaf wide s va Hok Hva) as [Hz Hnz]. destruct (decide (table_at wide s (current_root wide s) (dir_of wide va) = 0)) as [E|E].
  { rewrite (Hz E) in Hp. done. }
  destruct (Hnz E) as [_ Hv]. rewrite Hv in Hp. rewrite present_norm in Hp. rewrite norm_present in Hv by done.
  split; [done|]. split; [exact Hp|]. split; [done|].
  destruct (forest_leaf _ _ _ _ _ _ (ok_forest wide s Hok) (current_root wide s) _ _ (ok_current _ _ Hok) Hi Hj) as (_ & _ & Hf & _).
  - cbn [pte view_of]. fold (leaf_entry wide s va). by rewrite Hv.
  - exact Hf.
Qed.

(** A page that is there can be unmapped, unless its table is the kernel's. *)
Lemma unmap_total wide s va : paging_ok wide s -> is_u32 va -> 4096 <= va -> va mod 4096 = 0 ->
  (current_root wide s = kernel_root wide s -> USER_MAPPING_MIN <= va) ->
  current_root wide s = kernel_root wide s \/
    ~ shared wide (view_of wide (words s)) (kernel_root wide s) (current_root wide s) (dir_of wide va) ->
  present (leaf_entry wide s va) -> fst (paging_unmap_page va s) <> 0.
Proof.
  intros Hok Hva Hlo Hal HK Hprv Hp. destruct (va_index wide va Hva) as (Hi & Hj & _). pose proof (ok_current _ _ Hok) as Hcur.
  pose proof (shares_not wide s _ Hok Hi Hprv) as Hsh. destruct (present_table wide s va Hok Hva Hp) as (Ht & Hf & Hv & Hnz).
  unfold paging_unmap_page. rewrite (proj1 (ok_mode _ _ Hok)).
  assert ((current_root wide s =? kernel_root wide s) && (va <? USER_MAPPING_MIN) = false) as Hg.
  { destruct (Z.eqb_spec (current_root wide s) (kernel_root wide s)) as [E|]; [|done]. specialize (HK E). lia. }
  assert ((va <? PAGE_SIZE) = false) as Hg1 by (unfold PAGE_SIZE; lia).
  destruct wide.
  - unfold pae_unmap_page. destruct (pae_pointers s Hok) as (Hp1 & Hp2 & Hp3 & Hp4).
    rewrite (pae_uses_shared s Hok va Hva), Hsh, Hg1, (aligned_flag va Hal), (pae_get_table s Hok va Hva).
    change (pae_pdpt_physical s) with (current_root true s). change (pae_kernel_pdpt_physical s) with (kernel_root true s).
    rewrite Hg, Hp1. rewrite (root_nonzero true s Hok _ Hcur). cbn [orb].
    change (Z.land (Z.shiftr va 12) 511) with (leaf_of true va).
    replace (table_at true s (current_root true s) (dir_of true va) =? 0) with false by lia.
    unfold pae_entry_present, PAE_PRESENT. rewrite !pae_physical, !pae_entry_value_get, Hf. cbn [negb]. rewrite Hv. repeat case_if; exact Hnz.
  - unfold legacy_unmap_page. destruct (legacy_pointers s Hok) as [Hp1 Hp2].
    rewrite (legacy_uses_shared s Hok va Hva), Hsh, Hg1, (aligned_flag va Hal), (legacy_get_table s Hok va), Hp1, Hp2, Hg. cbn [orb].
    change (Z.land (Z.shiftr va 12) 1023) with (leaf_of false va).
    replace (table_at false s (current_root false s) (dir_of false va) =? 0) with false by lia.
    change (entry_at s (table_at false s (current_root false s) (dir_of false va)) (leaf_of false va)) with
      (get false (words s) (table_at false s (current_root false s) (dir_of false va)) (leaf_of false va)).
    unfold PAGE_PRESENT. rewrite Hf. cbn [negb]. rewrite Hv, <- frame_of_land64. repeat case_if; exact Hnz.
Qed.

Lemma is_mapped_spec wide s va : paging_ok wide s -> is_u32 va -> paging_is_mapped s va = flag (leaf_entry wide s va) 1.
Proof.
  intros Hok Hva. destruct (table_leaf wide s va Hok Hva) as [Hz Hnz]. unfold paging_is_mapped. rewrite (proj1 (ok_mode _ _ Hok)).
  assert (forall v, flag (norm v) 1 = flag v 1) as Hn by (intros v; unfold norm; by destruct (flag v 1) eqn:E).
  destruct wide.
  - unfold pae_is_mapped. rewrite (pae_get_table s Hok va Hva). change (Z.land (Z.shiftr va 12) 511) with (leaf_of true va).
    destruct (Z.eqb_spec (table_at true s (current_root true s) (dir_of true va)) 0) as [E|E]; cbn [negb andb]; [by rewrite (Hz E)|].
    destruct (Hnz E) as [_ ->]. unfold pae_entry_present, PAE_PRESENT. by rewrite pae_entry_value_get, Hn.
  - rewrite (legacy_get_table s Hok va). change (Z.land (Z.shiftr va 12) 1023) with (leaf_of false va).
    destruct (Z.eqb_spec (table_at false s (current_root false s) (dir_of false va)) 0) as [E|E]; [by rewrite (Hz E)|].
    destruct (Hnz E) as [_ ->]. by rewrite Hn.
Qed.

Lemma work_is_mapped wide s n : paging_ok wide s -> 0 <= n < 1048576 ->
  paging_is_mapped s (n * 4096) = flag (page_entry wide s (current_root wide s) n) 1.
Proof.
  intros Hok Hn. assert (is_u32 (n * 4096)) as Hva by (unfold is_u32; lia).
  rewrite (is_mapped_spec wide) by done. by rewrite leaf_page, Z.div_mul by (done || lia).
Qed.

(** A present page of the space can be unmapped. *)
Lemma work_unmap_total wide d F s n : inside wide d F s -> 1024 <= n < 262144 -> present (page_entry wide s d n) ->
  fst (paging_unmap_page (n * 4096) s) <> 0 \/ shared wide (view_of wide (words s)) (kernel_root wide s) d (n / entries wide).
Proof.
  intros Hin Hn Hp. assert (is_u32 (n * 4096)) as Hva by (unfold is_u32; lia). pose proof (in_ok _ _ _ _ Hin) as Hok.
  destruct (va_page wide _ Hva) as (Ed & _ & _). rewrite Z.div_mul in Ed by lia.
  destruct (shares wide s (n / entries wide)) eqn:Esh.
  - right. destruct (page_position wide n ltac:(lia)) as (Hi & _ & _). unfold shares in Esh. split_bools.
    assert (table_at wide s (kernel_root wide s) (n / entries wide) <> 0) as Hnz by lia.
    exists (table_at wide s (kernel_root wide s) (n / entries wide)). split; [|apply table_at_linked; [apply kernel_in|done..]].
    replace (table_at wide s (kernel_root wide s) (n / entries wide)) with (table_at wide s d (n / entries wide))
      by (rewrite (in_current _ _ _ _ Hin) in *; lia).
    apply table_at_linked; [apply (inside_root _ _ _ _ Hin)|done|]. rewrite (in_current _ _ _ _ Hin) in *. lia.
  - left. apply (unmap_total wide); [done|done|lia|by rewrite Z.mod_mul by lia| | |].
    + unfold USER_MAPPING_MIN. lia.
    + rewrite Ed. destruct (page_position wide n ltac:(lia)) as (Hi & _ & _). by apply shares_spec.
    + rewrite leaf_page, Z.div_mul, (in_current _ _ _ _ Hin) by (done || lia). done.
Qed.

Lemma work_unmap_user wide d F s n : inside wide d F s -> 1024 <= n < 262144 -> user_entry (page_entry wide s d n) ->
  fst (paging_unmap_page (n * 4096) s) <> 0.
Proof.
  intros Hin Hn Hu. destruct (work_unmap_total wide d F s n Hin Hn (proj1 Hu)) as [?|Hs]; [done|].
  destruct (page_position wide n ltac:(lia)) as (Hi & Hj & _).
  exfalso. eapply (user_not_shared wide _ _ _ _ _ d (n / entries wide) (n mod entries wide) (ok_forest wide s (in_ok _ _ _ _ Hin)));
    [apply (inside_root _ _ _ _ Hin)|done|done].
Qed.

(** ** Protecting *)

Lemma work_protect wide d F s n flags ok s' : inside wide d F s -> 1024 <= n < 262144 -> is_u32 flags -> flag flags 4 = true ->
  paging_protect_page (n * 4096) flags s = (ok, s') ->
  inside wide d F s' /\ moved wide d F s s' /\
  (ok = false -> forall n', 0 <= n' < 1048576 -> page_entry wide s' d n' = page_entry wide s d n') /\
  (ok = true -> user_entry (page_entry wide s d n) /\
     entry_for (paging_pae_nx_enabled s) (frame_of (page_entry wide s d n)) flags (page_entry wide s' d n) /\
     forall n', 0 <= n' < 1048576 -> n' <> n -> page_entry wide s' d n' = page_entry wide s d n').
Proof.
  intros Hin Hn Hfl H4 Em. assert (is_u32 (n * 4096)) as Hva by (unfold is_u32; lia).
  pose proof (in_ok _ _ _ _ Hin) as Hok. pose proof (in_space _ _ _ _ Hin) as Hd. pose proof (inside_root _ _ _ _ Hin) as Hr.
  pose proof (protect_page_ok wide s _ _ _ _ Hok Hva Hfl Em) as Hp.
  destruct (va_page wide _ Hva) as (E1 & E2 & _). rewrite E1, E2, Z.div_mul in Hp by lia.
  destruct Hp as [Hok' (Hcfg & Hdata & Hregs) Hfr Hfail Hnew Hoth (Hnd & Hpd & Hroot)]. rewrite (in_current _ _ _ _ Hin) in *.
  destruct (page_position wide n ltac:(lia)) as (Hi & Hj & _). destruct (config_fields wide s s' Hcfg) as (EK & EC & EL & _ & _ & _ & _ & EN).
  set (i0 := n / entries wide) in *. set (j0 := n mod entries wide) in *.
  assert (ok = true -> user_entry (page_entry wide s d n) /\
     entry_for (paging_pae_nx_enabled s) (frame_of (page_entry wide s d n)) flags (page_entry wide s' d n) /\
     ~ shared wide (view_of wide (words s)) (kernel_root wide s) d i0) as Hyes.
  { intros Eok. destruct (Hnew Eok) as (v & Hpv & H4v & Hv & Hsee).
    assert (user_entry (page_entry wide s d n)) as Hu by (split; [done|]; etransitivity; [exact H4v|done]).
    split; [done|]. unfold page_entry at 2. fold i0 j0. rewrite Hsee; [|done|by eapply sees_self]. split; [done|].
    by eapply (user_not_shared wide _ _ _ _ _ d i0 j0 (ok_forest wide s Hok)). }
  assert (forall i j, dir_index wide i -> table_index wide j -> ~ (ok = true /\ i = i0 /\ j = j0) ->
    pte_of wide (words s') d i j = pte_of wide (words s) d i j) as Hsame.
  { intros i j Hi' Hj' Hne. destruct ok; [|by apply Hfail]. apply Hoth; [done..|]. naive_solver. }
  assert (forall r, r ∈ roots wide s -> r <> d -> forall i j, dir_index wide i -> table_index wide j ->
    pte_of wide (words s') r i j = pte_of wide (words s) r i j) as Hrest.
  { intros r Hrr Hne i j Hi' Hj'. destruct ok; [|by apply Hfail]. apply Hoth; [done..|]. intros ((t & H1 & H2) & _).
    destruct (Hyes eq_refl) as (_ & _ & Hns). apply Hne.
    destruct (forest_share _ _ _ _ _ _ (ok_forest wide s Hok) r i0 d i0 t Hrr Hr H1 H2) as [_ [?|HK]]; [done|]. destruct Hns. by exists t. }
  assert (ok = true -> user_entry (pte_of wide (words s') d i0 j0) /\
    frame_of (pte_of wide (words s') d i0 j0) = frame_of (pte_of wide (words s) d i0 j0)) as Hhit.
  { intros Eok. destruct (Hyes Eok) as (_ & (Hpv & Hfv & _ & Hv4 & _) & _). split; [split; [exact Hpv|etransitivity; [exact Hv4|done]]|exact Hfv]. }
  destruct (without_same wide s s' d F EK) as [Hsh Hwo].
  { intros q. by apply Hnd. }
  { intros r i [->| ->] Hi'; apply Hpd; (done || apply kernel_in). }
  { unfold owner_at. by rewrite Hfr. }
  { intros i j Hi' Hj'. destruct (decide (ok = true /\ i = i0 /\ j = j0)) as [(Eok & -> & ->)|Hne]; [|by rewrite Hsame].
    destruct (Hhit Eok) as [H1 H2]. destruct (Hyes Eok) as (H3 & _). split; [by split|done]. }
  split; [split|split; [split|split]].
  - done.
  - rewrite EN. apply Hin.
  - apply (loads_coherent wide s); [by apply loads_registers| |apply Hin]. intros q _. apply Hnd, Hok.
  - rewrite EC. apply Hin.
  - by rewrite EL.
  - intros i Hi' Hp Hns. rewrite Hsh in Hns. rewrite Hpd in Hp |- * by done.
    destruct (in_user _ _ _ _ Hin i Hi' Hp Hns) as (? & ? & Hj4). split; [done|]. split; [done|]. intros j Hj' Hpj.
    destruct (decide (ok = true /\ i = i0 /\ j = j0)) as [(Eok & -> & ->)|Hne]; [by apply Hhit|].
    rewrite Hsame in Hpj |- * by done. by apply Hj4.
  - apply Hwo, Hin.
  - done.
  - intros r Hrr Hne. split; [intros q; by apply Hnd|split; [intros i Hi'; by apply Hpd|by apply Hrest]].
  - intros n' Hn' Hk. apply (pages_differ wide s s' d n); [lia| |done|lia]. intros i j Hi' Hj' Hne. apply Hsame; [done..|]. naive_solver.
  - done.
  - intros a _ _. by rewrite Hdata.
  - intros Eok n' Hn'. destruct (page_position wide n' Hn') as (H1 & H2 & _). apply Hsame; [done..|]. intros [? _]. congruence.
  - intros Eok. destruct (Hyes Eok) as (H1 & H2 & _). split; [done|]. split; [done|].
    apply (pages_differ wide s s' d n); [lia|]. intros i j Hi' Hj' Hne. apply Hsame; [done..|]. naive_solver.
Qed.

(** ** Frames *)

(** [pmm_alloc_user_block] and [pmm_alloc_block]. *)
Definition alloc_user_frame (s : paging) : Z * paging :=
  let '(physical, f) := pmm_alloc_user_block (page_frames s) in (physical, set_page_frames s f).

Definition alloc_frame (s : paging) : Z * paging :=
  let '(physical, f) := pmm_alloc_block (page_frames s) in (physical, set_page_frames s f).

(** Taking or giving back a frame that no space uses. *)
Lemma frame_set_ok wide s f a o : paging_ok wide s -> pmm_wf f ->
  own_eq (own_set (owner_at s) a o) (owner_at (set_page_frames s f)) ->
  o <> User true -> owner_at s a <> User true ->
  (owner_at s a = Kernel -> unused wide (kernel_root wide s) (space_list wide s) (view_of wide (words s)) a) ->
  paging_ok wide (set_page_frames s f).
Proof.
  intros Hok Hwf Hown Ho Hoa Hun. eapply (paging_ok_keeps wide s); [done|done|done|]. split; [apply Hok|].
  eapply forest_own; [apply (ok_forest wide s Hok)|..].
  - intros x Hx Hnu Hk. apply low_page_u32 in Hx as (Hu & Hal & _). rewrite Hown by done. unfold own_set. case_decide; [subst|done].
    destruct Hnu. by apply Hun.
  - intros x Hx Hal. rewrite Hown by done. unfold own_set. case_decide; [subst; done|done].
Qed.

Lemma inside_frames wide d F s f a o : inside wide d F s -> pmm_wf f ->
  own_eq (own_set (owner_at s) a o) (owner_at (set_page_frames s f)) ->
  room (owner_at s a) -> o <> User true ->
  inside wide d (own_set F a o) (set_page_frames s f) /\ moved wide d F s (set_page_frames s f).
Proof.
  intros Hin Hwf Hown Hr Ho. pose proof (in_ok _ _ _ _ Hin) as Hok.
  assert (owner_at s a <> Kernel /\ owner_at s a <> User true) as [H1 H2] by (destruct Hr as [->| ->]; done).
  assert (paging_ok wide (set_page_frames s f)) as Hok' by (eapply frame_set_ok; done).
  split; [|by split]. destruct Hin as [_ He Hco Hc Hd Hu HF]. split; try done.
  by eapply (without_own wide s).
Qed.

Lemma alloc_user_spec s a s' : pmm_wf (page_frames s) -> alloc_user_frame s = (a, s') ->
  s' = set_page_frames s (page_frames s') /\ pmm_wf (page_frames s') /\
  ((a = 0 /\ own_eq (owner_at s) (owner_at s')) \/
   (is_u32 a /\ a mod 4096 = 0 /\ 4096 <= a /\ owner_at s a = Free /\ own_eq (own_set (owner_at s) a (User false)) (owner_at s'))).
Proof.
  intros Hwf. unfold alloc_user_frame. destruct (pmm_alloc_user_block _) as [b f] eqn:E. intros [= <- <-].
  split; [done|]. apply alloc_user_refines in E as (Hwf' & m' & Hs & Ho); [|done]. split; [done|]. inversion Hs; subst.
  - right. assert (is_u32 (b0 * 4096)) as Hu by (unfold is_u32, PMM_USER_MIN_ADDRESS, PMM_USER_MAX_ADDRESS in *; lia).
    split; [done|]. split; [apply Z.mod_mul; lia|]. split; [unfold PMM_USER_MIN_ADDRESS in *; lia|].
    unfold owner_at at 1. rewrite Z.div_mul by lia. split; [done|].
    apply own_upd_set; [done|apply Z.mod_mul; lia|]. rewrite Z.div_mul by lia. done.
  - left. split; [done|]. intros x Hx _. apply Ho. by apply u32_block.
Qed.

Lemma work_alloc wide d F s a s' : inside wide d F s -> alloc_user_frame s = (a, s') ->
  words s' = words s /\ moved wide d F s s' /\
  ((a = 0 /\ inside wide d F s') \/
   (a <> 0 /\ is_u32 a /\ a mod 4096 = 0 /\ F a = Free /\ owner_at s' a = User false /\ inside wide d (own_set F a (User false)) s')).
Proof.
  intros Hin E. pose proof (in_ok _ _ _ _ Hin) as Hok.
  destruct (alloc_user_spec s a s' (ok_pmm _ _ Hok) E) as (Hs & Hwf & Hc).
  split; [by rewrite Hs|]. destruct Hc as [[-> Hown]|(Hu & Hal & Hlo & Hf & Hown)].
  - assert (paging_ok wide s') as Hok'.
    { rewrite Hs. eapply (paging_ok_keeps wide s); [done|done|done|]. eapply spaces_ok_own; [apply Hok|]. by rewrite Hs in Hown. }
    split; [rewrite Hs; by split|]. left. split; [done|]. destruct Hin as [_ He Hco Hcc Hd Hus HF].
    split; try (rewrite Hs; done); [done|]. intros x Hx Ha.
    assert (table_frame wide s' d x <-> table_frame wide s d x) as -> by (rewrite Hs; done).
    assert (user_frame wide s' d x <-> user_frame wide s d x) as -> by (rewrite Hs; done).
    rewrite Hown by done. by apply HF.
  - assert (own_eq (own_set (owner_at s) a (User false)) (owner_at (set_page_frames s (page_frames s')))) as Hown' by (by rewrite Hs in Hown).
    destruct (inside_frames wide d F s (page_frames s') a (User false) Hin Hwf Hown' (or_introl Hf)) as [H1 H2]; [done|].
    rewrite <- Hs in H1, H2. split; [done|]. right. split; [lia|]. do 2 (split; [done|]).
    split; [by apply (inside_owner_free wide d F s)|]. split; [|done]. rewrite Hown by done. unfold own_set. by rewrite decide_True.
Qed.

Lemma work_free wide d F s a : inside wide d F s -> is_u32 a -> a mod 4096 = 0 -> owner_at s a = User false ->
  inside wide d (own_set F a Free) (free_frame a s) /\ moved wide d F s (free_frame a s).
Proof.
  intros Hin Hu Hal Ho. pose proof (in_ok _ _ _ _ Hin) as Hok.
  destruct (free_frame_spec s a (ok_pmm _ _ Hok) Hu Hal (or_intror Ho)) as [Hwf Hown].
  apply (inside_frames wide d F s _ a Free Hin Hwf Hown (or_intror Ho)). done.
Qed.

Lemma inside_ext wide d F F' s : own_eq F F' -> inside wide d F s -> inside wide d F' s.
Proof. intros He [? ? ? ? ? ? ?]. split; try done. by eapply without_ext. Qed.

(** A frame of [F] that is allocated and unmapped is so in the state. *)
Lemma inside_claimed wide d F s a : inside wide d F s -> is_u32 a -> a mod 4096 = 0 -> F a = User false -> owner_at s a = User false.
Proof.
  intros Hin Hu Ha HF. destruct (in_without _ _ _ _ Hin a Hu Ha) as [[_ ?]|(_ & _ & E)]; congruence.
Qed.

(** ** Stores *)

(** The physical address of a byte of space [r]. *)
Definition byte_at (wide : bool) (s : paging) (r va : Z) : Z := frame_of (page_entry wide s r (va / 4096)) + va mod 4096.

Definition user_writable (v : Z) : Prop := flag v 1 = true /\ flag v 4 = true /\ flag v 2 = true.

Lemma inside_data wide d F s m : inside wide d F s -> inside wide d F (set_data s m).
Proof. intros [? ? ? ? ? ? ?]. split; try done. by apply paging_ok_data. Qed.

Lemma work_store wide d F s va b : inside wide d F s -> is_u32 va -> user_writable (page_entry wide s d (va / 4096)) ->
  store_byte va b s = Some (set_data s (<[byte_at wide s d va := b]> (data s))) /\
  moved wide d F s (set_data s (<[byte_at wide s d va := b]> (data s))).
Proof.
  intros Hin Hva (H1 & H4 & H2). pose proof (in_ok _ _ _ _ Hin) as Hok.
  assert (leaf_entry wide s va = page_entry wide s d (va / 4096)) as Hleaf by (by rewrite leaf_page, (in_current _ _ _ _ Hin)).
  split.
  - unfold store_byte. rewrite (translate_spec wide s va Hok (in_enabled _ _ _ _ Hin) (in_coherent _ _ _ _ Hin) Hva), Hleaf.
    unfold entry_translation. rewrite H1. cbn [t_write t_frame]. by rewrite H2.
  - split; try done. intros a Ha Hr. cbn [data set_data]. apply lookup_insert_ne. intros <-. apply Hr. left.
    destruct (va_page wide va Hva) as (_ & _ & Hn). destruct (page_position wide _ Hn) as (Hi & Hj & _).
    unfold byte_at. pose proof (frame_of_aligned (page_entry wide s d (va / 4096))) as Hal.
    pose proof (frame_of_u32 (page_entry wide s d (va / 4096))) as Hu.
    replace ((frame_of (page_entry wide s d (va / 4096)) + va mod 4096) / 4096 * 4096) with (frame_of (page_entry wide s d (va / 4096))) by dmlia.
    destruct (in_without _ _ _ _ Hin _ Hu Hal) as [[_ ?]|(_ & Hnu & _)]; [done|]. destruct Hnu.
    exists (va / 4096 / entries wide), (va / 4096 mod entries wide). split; [|done]. split; [done|]. split; [done|]. done.
Qed.

(** ** Pages with their frames *)

Lemma own_set_twice F a o : F a = o -> forall o', own_eq F (own_set (own_set F a o') a o).
Proof. intros Ho o' x _ _. unfold own_set. by repeat case_decide; subst. Qed.

Lemma own_opt_twice F a o o' : F a = o -> own_eq F (own_opt (own_set F a o') (Some a) o).
Proof. intros Ho. by apply own_set_twice. Qed.

(** The page number [n] changes to an entry with [P], and no other page of the space changes. *)
Definition one_page (wide : bool) (d n : Z) (P : Z -> Prop) (s s' : paging) : Prop :=
  P (page_entry wide s' d n) /\ forall n', 0 <= n' < 1048576 -> n' <> n -> page_entry wide s' d n' = page_entry wide s d n'.

(** No page of the space changes. *)
Definition same_entries (wide : bool) (d : Z) (s s' : paging) : Prop :=
  forall n, 0 <= n < 1048576 -> page_entry wide s' d n = page_entry wide s d n.

Lemma same_entries_words wide d s s' : words s' = words s -> same_entries wide d s s'.
Proof. intros E n _. unfold page_entry. by rewrite E. Qed.

(** Unmapping a page and freeing its frame. *)
Lemma work_release wide d F s n : inside wide d F s -> 1024 <= n < 262144 -> user_entry (page_entry wide s d n) ->
  exists s1, paging_unmap_page (n * 4096) s = (frame_of (page_entry wide s d n), s1) /\ frame_of (page_entry wide s d n) <> 0 /\
  let s' := free_frame (frame_of (page_entry wide s d n)) s1 in
  inside wide d F s' /\ moved wide d F s s' /\ data s' = data s /\ one_page wide d n (fun v => v = 0) s s'.
Proof.
  intros Hin Hn Hu. pose proof (work_unmap_user wide d F s n Hin Hn Hu) as Hnz.
  destruct (paging_unmap_page (n * 4096) s) as [pa s1] eqn:E. cbn [fst] in Hnz.
  destruct (work_unmap wide d F s n pa s1 Hin Hn E Hnz) as (Hin1 & Hmv1 & HF & _ & Hpa & Hz & Hoth).
  exists s1. rewrite <- Hpa. split; [done|]. split; [done|].
  assert (is_u32 pa /\ pa mod 4096 = 0) as [Hpu Hpal] by (rewrite Hpa; split; [apply frame_of_u32|apply frame_of_aligned]).
  assert (owner_at s1 pa = User false) as Ho.
  { eapply inside_claimed; [exact Hin1|done|done|]. unfold own_set. by rewrite decide_True. }
  destruct (work_free wide d _ s1 pa Hin1 Hpu Hpal Ho) as [Hin2 Hmv2]. cbv zeta.
  split; [eapply inside_ext; [|exact Hin2]; apply own_set_twice with (o' := User false) in HF; intros x Hx Ha; symmetry; by apply HF|].
  split; [|split].
  - eapply moved_trans; [|exact Hmv1|exact Hmv2]. apply frames_moved_set; [by left|by right].
  - pose proof (unmap_page_ok wide s (n * 4096) pa s1 (in_ok _ _ _ _ Hin) ltac:(unfold is_u32; lia)) as Hm.
    apply Hm; [|done]. intros Hc. rewrite (in_current _ _ _ _ Hin) in Hc.
    by destruct (space_not_kernel wide s d (in_ok _ _ _ _ Hin) (in_space _ _ _ _ Hin)).
  - split; [exact Hz|exact Hoth].
Qed.

(** Allocating a frame and mapping it, as far as the code gets. *)
Lemma work_take wide d F s n flags a s1 : inside wide d F s -> 1024 <= n < 262144 -> is_u32 flags -> flag flags 4 = true ->
  alloc_user_frame s = (a, s1) ->
  (a = 0 -> inside wide d F s1 /\ moved wide d F s s1 /\ data s1 = data s /\ same_entries wide d s s1) /\
  (a <> 0 -> forall ok s2, paging_map_page (n * 4096) a flags s1 = (ok, s2) ->
     (ok = false -> inside wide d F (free_frame a s2) /\ moved wide d F s (free_frame a s2) /\
        data (free_frame a s2) = data s /\ same_entries wide d s (free_frame a s2)) /\
     (ok = true -> inside wide d F s2 /\ moved wide d F s s2 /\ data s2 = data s /\ page_entry wide s d n = 0 /\
        one_page wide d n (entry_for (paging_pae_nx_enabled s) a flags) s s2)).
Proof.
  intros Hin Hn Hfl H4 E. destruct (work_alloc wide d F s a s1 Hin E) as (Hw & Hmv & Hcase).
  assert (data s1 = data s) as Hd1.
  { unfold alloc_user_frame in E. destruct (pmm_alloc_user_block (page_frames s)). by injection E as _ <-. }
  pose proof (same_entries_words wide d s s1 Hw) as Hse. split.
  - intros ->. destruct Hcase as [[_ ?]|[? _]]; done.
  - intros Hnz ok s2 Em. destruct Hcase as [[? _]|(_ & Hu & Hal & HFa & Ho & Hin1)]; [done|].
    destruct (work_map wide d _ s1 n a flags ok s2 Hin1 Hn Hfl H4 Hu Em) as (Hin2 & Hmv2 & Hfail & Hyes).
    assert (frames_moved F (own_set F a (User false))) as Hfm by (apply frames_moved_set; [by left|by right]).
    assert (data s2 = data s1) as Hd2.
    { destruct (map_page_ok wide s1 (n * 4096) a flags ok s2 (in_ok _ _ _ _ Hin1)) as [_ (_ & ? & _) _ _ _ _ _ _ _]; try done. unfold is_u32; lia. }
    assert (paging_pae_nx_enabled s1 = paging_pae_nx_enabled s) as Hnx by (by apply (config_fields wide s s1 (mv_config _ _ _ _ _ Hmv))).
    split; intros ->; cbn [own_opt] in Hin2.
    + destruct (work_free wide d _ s2 a Hin2 Hu Hal) as [Hin3 Hmv3].
      { eapply inside_claimed; [exact Hin2|done|done|]. unfold own_set. by rewrite decide_True. }
      split; [eapply inside_ext; [|exact Hin3]; intros x Hx Hxa; symmetry; by apply own_set_twice|].
      split; [|split].
      * eapply moved_trans; [exact Hfm|exact Hmv|]. eapply moved_trans; [apply frames_moved_refl|exact Hmv2|exact Hmv3].
      * change (data (free_frame a s2)) with (data s2). congruence.
      * intros n' Hn'. rewrite <- Hse by done. by apply Hfail.
    + destruct (Hyes eq_refl) as (_ & _ & H0 & Hent & Hoth).
      split; [eapply inside_ext; [|exact Hin2]; intros x Hx Hxa; symmetry; by apply own_opt_twice|].
      split; [by eapply moved_trans|]. split; [congruence|]. rewrite <- Hse by lia. split; [done|]. rewrite <- Hnx.
      split; [exact Hent|]. intros n' Hn' Hne. rewrite <- Hse by done. by apply Hoth.
Qed.
