(* ===== verification/PagingLife.v ===== *)
(** * The life of an address space

    A client creates a space, enters it, works in it, leaves it and destroys it. [paging_create_space]
    and a switch give a space in which the client is [inside]; a space with user pages only can always
    be destroyed, and the owners are then those it was created with. *)

From S2P Require Import Prelude Pmm PmmSpec PagingState PagingPae Paging PagingEntry PagingForest PagingView PagingInv PagingOps PagingMap PagingProtect PagingUnmap PagingSpaces PagingCreate PagingDestroy PagingHw PagingLoaded PagingUser PagingTotal PagingClient PagingWork.
Local Open Scope c_scope.
Local Open Scope Z_scope.

(** ** Switching *)

Lemma switch_coherent wide s d ok s' : paging_ok wide s -> paging_enabled s = true -> coherent wide s ->
  paging_switch_address_space d s = (ok, s') -> coherent wide s'.
Proof.
  intros Hok Hen Hco E. destruct ok; [|by rewrite (proj1 (proj2 (switch_ok wide s d false s' Hok E)))].
  destruct (decide (d = current_root wide s)) as [->|Hne]; [|by eapply switch_loads].
  by rewrite (switch_same wide s true s' Hok E).
Qed.

(** A registered space with user pages only, whether it is the current one or not. *)
Record space_at (wide : bool) (d : Z) (F : Z -> owner) (s : paging) : Prop := {
  at_ok : paging_ok wide s;
  at_enabled : paging_enabled s = true;
  at_coherent : coherent wide s;
  at_space : d ∈ space_list wide s;
  at_user : user_only wide s d;
  at_without : without wide s d F
}.

Lemma inside_at wide d F s : inside wide d F s <-> space_at wide d F s /\ current_root wide s = d.
Proof. split; [intros []; by split_and!|intros [[] ?]; by split]. Qed.

Lemma user_only_words wide s s' d : words s' = words s -> kernel_root wide s' = kernel_root wide s -> user_only wide s d -> user_only wide s' d.
Proof. intros Hw HK. unfold user_only. by rewrite Hw, HK. Qed.

Lemma without_words wide s s' d F : words s' = words s -> kernel_root wide s' = kernel_root wide s -> page_frames s' = page_frames s ->
  without wide s d F -> without wide s' d F.
Proof. intros Hw HK Hf. unfold without, table_frame, user_frame, owner_at. by rewrite Hw, HK, Hf. Qed.

(** Switching keeps the spaces. *)
Lemma switch_at wide d F s r ok s' : space_at wide d F s -> r ∈ roots wide s -> paging_switch_address_space r s = (ok, s') ->
  ok = true /\ space_at wide d F s' /\ switched wide r s s'.
Proof.
  intros [Hok Hen Hco Hd Hu HF] Hr E. destruct (switch_ok wide s r ok s' Hok E) as (H1 & _ & H2).
  apply H1 in Hr as Et. split; [done|]. specialize (H2 Et). split; [|done].
  destruct H2 as (Hok' & _ & _ & HK & HL & Hw & _ & Hf & _ & Hen'). split; [done|congruence| |congruence| |].
  - exact (switch_coherent wide s r ok s' Hok Hen Hco E).
  - exact (user_only_words wide s s' d Hw HK Hu).
  - exact (without_words wide s s' d F Hw HK Hf HF).
Qed.

(** ** Creating *)

Section Created.
Context (wide : bool) (s : paging) (d : Z) (s' : paging).
Hypothesis Hok : paging_ok wide s.
Hypothesis Hc : created wide s d s'.
Hypothesis Hd : d <> 0.

Lemma created_shared i : dir_index wide i -> present (pde_of wide (words s') d i) ->
  shared wide (view_of wide (words s')) (kernel_root wide s') d i.
Proof using Hc Hd.
  intros Hi Hp. pose proof (created_tables _ _ _ _ Hc Hd i Hi) as E. rewrite (proj1 (created_kernel _ _ _ _ Hc)).
  exists (frame_of (pde_of wide (words s') d i)). unfold linked. cbn [pde view_of]. rewrite <- E. done.
Qed.

Lemma created_user_only : user_only wide s' d.
Proof using Hc Hd. intros i Hi Hp Hns. by destruct (Hns (created_shared i Hi Hp)). Qed.

Lemma created_without : without wide s' d (owner_at s).
Proof using Hc Hd.
  destruct (created_new _ _ _ _ Hc Hd) as (_ & _ & Hgr & Hch). pose proof (proj1 (created_kernel _ _ _ _ Hc)) as HK.
  intros x Hx Ha. assert (forall x, table_frame wide s' d x <-> exists q, node_of wide (words s') d q = Some x) as Ht.
  { intros y. split; [|by left]. intros [?|(i & Hl & Hns)]; [done|]. exfalso. pose proof Hl as (Hi & Hp & _). by apply Hns, created_shared. }
  rewrite Ht, <- (Hch x Hx Ha). assert (~ user_frame wide s' d x) as Hnu.
  { intros (i & j & (Hi & Hj & Hup) & _). cbn [pte view_of] in Hup. rewrite (created_copy _ _ _ _ Hc Hd i j Hi Hj) in Hup.
    rewrite <- HK in Hup. by apply (kernel_no_user _ _ _ _ _ _ i j (ok_forest wide s' (created_ok _ _ _ _ Hc))). }
  destruct (Hgr x Hx Ha) as [E|[E1 E2]]; [right; rewrite E; split; [intros Hx'; by apply Hx'|done]|]. left. rewrite E1, E2. split; [by left|done].
Qed.

Lemma created_in : d ∈ space_list wide s'.
Proof using Hc Hd. destruct (created_new _ _ _ _ Hc Hd) as (_ & -> & _). apply elem_of_app. right. by apply list_elem_of_singleton. Qed.

Lemma created_at : paging_enabled s = true -> coherent wide s -> space_at wide d (owner_at s) s'.
Proof using All.
  intros Hen Hco. destruct (created_kernel _ _ _ _ Hc) as (HK & Hcur & _ & Hreg).
  split; [apply Hc|by rewrite (proj1 (created_modes _ _ _ _ Hc))| |apply created_in|apply created_user_only|apply created_without].
  destruct (created_loads wide s d s' Hok Hc) as [HL HS]. exact (loads_coherent wide s s' HL HS Hco).
Qed.
End Created.

(** ** Destroying *)

Lemma mapped_block p x : pmm_wf p -> is_u32 x -> x mod 4096 = 0 -> frame_owner p (x / 4096) = User true ->
  pmm_block_is_user_owned p x = true /\ pmm_user_block_is_mapped p x = true.
Proof.
  intros Hwf Hx Ha Ho. assert (pmm_block_is_user_owned p x = true) as Hu by (apply user_owned_spec; [done|done|]; split; [done|by exists true]).
  split; [done|]. unfold pmm_user_block_is_mapped. rewrite Hu. cbn [negb]. change PMM_BLOCK_SIZE with 4096.
  by apply (owner_user p _ true Hwf (u32_block x Hx)).
Qed.

Section Destroy.
Context (wide : bool) (s : paging) (d : Z).
Hypothesis Hok : paging_ok wide s.
Hypothesis Hd : d ∈ space_list wide s.
Hypothesis Hu : user_only wide s d.

(** What the first pass tests of a private table. *)
Lemma private_passes i t j : dir_index wide i -> table_index wide j -> private_at wide s d i = Some t ->
  flag (pde_of wide (words s) d i) 4 = true /\
  (flag (get wide (words s) t j) 1 = true ->
   pmm_block_is_user_owned (page_frames s) (frame_of (get wide (words s) t j)) = true /\
   pmm_user_block_is_mapped (page_frames s) (frame_of (get wide (words s) t j)) = true).
Proof using All.
  intros Hi Hj Hp. apply (private_at_spec wide s d i t Hi) in Hp as [Hl Hns]. pose proof Hl as (_ & Hpr & _). cbn [pde view_of] in Hpr.
  destruct (Hu i Hi Hpr Hns) as (_ & Hf & Hall). split; [done|]. intros Hpj. specialize (Hall j Hj).
  rewrite (linked_pte wide s d i t j Hl), norm_present in Hall by done. specialize (Hall Hpj).
  apply mapped_block; [apply Hok|apply frame_of_u32|apply frame_of_aligned|].
  destruct (forest_user _ _ _ _ _ _ (ok_forest wide s Hok) d i j) as (_ & Ho & _); [by right|split; [done|]; split; [done|]|].
  - cbn [pte view_of]. rewrite (linked_pte wide s d i t j Hl), norm_present by done. done.
  - cbn [pte view_of] in Ho. by rewrite (linked_pte wide s d i t j Hl), norm_present in Ho by done.
Qed.

Lemma destroy_total : d <> current_root wide s -> fst (paging_destroy_address_space d s) = true.
Proof using All.
  intros Hcur. assert (d ∈ roots wide s) as Hr by (by right). pose proof (registered_spec wide s d Hok) as Hreg.
  pose proof (space_not_kernel wide s d Hok Hd) as HdK. pose proof private_passes as Hpass.
  pose proof (root_nonzero wide s Hok d Hr) as Hnz. unfold paging_destroy_address_space. rewrite (proj1 (ok_mode _ _ Hok)).
  unfold paging_address_space_is_valid in Hreg. rewrite (proj1 (ok_mode _ _ Hok)) in Hreg. destruct wide.
  - unfold pae_destroy_address_space. rewrite (proj2 Hreg Hr), Hnz. cbn in Hcur, HdK.
    replace (d =? pae_kernel_pdpt_physical s) with false by lia. replace (d =? pae_pdpt_physical s) with false by lia. cbn [orb negb].
    replace (pae_preflight s d) with true; [done|]. symmetry. apply all_range_true. intros q Hq. rewrite (pae_private_node s d Hok Hd q Hq).
    destruct (node_of true (words s) d q) as [dd|] eqn:E; [|done]. apply all_range_true. intros k Hk.
    rewrite (pae_private_at s d Hok q dd k Hq Hk E). destruct (private_at true s d (q * 512 + k)) as [t|] eqn:Ep; [|done].
    assert (dir_index true (q * 512 + k)) as Hi by (unfold PAE_PDP_ENTRIES, PAE_TABLE_ENTRIES in *; unfold dir_index, directories; lia).
    apply andb_true_iff. split.
    + destruct (Hpass _ t 0 Hi ltac:(by split) Ep) as [Hf _]. unfold pde_of, slot in Hf. destruct (private_index q k Hk) as [E1 E2].
      rewrite E1, E2, E in Hf. unfold norm in Hf. case_if; [|done]. by rewrite pae_entry_value_get.
    + apply all_range_true. intros j Hj. destruct (Hpass _ t j Hi Hj Ep) as [_ Hb]. unfold pae_entry_present, PAE_PRESENT.
      rewrite pae_entry_value_get, pae_physical. destruct (flag (get true (words s) t j) 1); [|done].
      by destruct (Hb eq_refl) as [-> ->].
  - unfold legacy_destroy_address_space, paging_address_space_is_valid. rewrite (proj1 (ok_mode _ _ Hok)), (proj2 Hreg Hr), Hnz.
    cbn in Hcur, HdK. replace (d =? kernel_page_directory_physical s) with false by lia.
    replace (d =? page_directory_physical s) with false by lia. cbn [orb negb].
    replace (preflight s d) with true; [done|]. symmetry. apply all_range_true. intros i Hi.
    change (Z.shiftr USER_ADDRESS_LIMIT 22) with 768 in Hi. assert (dir_index false i) as Hdi by (unfold dir_index, directories; lia).
    rewrite (legacy_private s d Hok s i eq_refl (keeps_refl s)). destruct (private_at false s d i) as [t|] eqn:Ep; [|done].
    apply andb_true_iff. split.
    + destruct (Hpass _ t 0 Hdi ltac:(by split) Ep) as [Hf _]. unfold pde_of, slot, norm in Hf. cbn [get] in Hf. unfold entry_at.
      by destruct (flag (peek (words s) d i) 1).
    + apply all_range_true. intros j Hj. destruct (Hpass _ t j Hdi Hj Ep) as [_ Hb]. unfold entry_at, PAGE_PRESENT.
      cbn [get] in Hb. rewrite <- !frame_of_land64. destruct (flag (peek (words s) t j) 1); [|done].
      by destruct (Hb eq_refl) as [-> ->].
Qed.

Lemma destroy_owners F : d <> current_root wide s -> without wide s d F -> exists s',
  paging_destroy_address_space d s = (true, s') /\ destroyed wide s d true s' /\ own_eq F (owner_at s').
Proof using All.
  intros Hcur HF. pose proof (destroy_total Hcur) as Ht.
  destruct (paging_destroy_address_space d s) as [ok s'] eqn:E. cbn in Ht. subst ok. exists s'. split; [done|].
  pose proof (destroy_ok wide s d true s' Hok E) as HD. split; [done|].
  intros x Hx Ha. destruct (destroyed_frames _ _ _ _ _ HD eq_refl x Hx Ha) as [[Hr Ho]|[Hr Ho]];
    rewrite (released_charged wide s d Hok Hd x Hu) in Hr; destruct (HF x Hx Ha) as [[? ?]|(? & ? & ?)]; naive_solver congruence.
Qed.
End Destroy.

(** A space that is not in use is destroyed, and the owners are those without it. *)
Lemma destroy_at wide d F s : space_at wide d F s -> d <> current_root wide s -> exists s',
  paging_destroy_address_space d s = (true, s') /\ destroyed wide s d true s' /\ coherent wide s' /\ own_eq F (owner_at s').
Proof.
  intros [Hok Hen Hco Hd Hu HF] Hcur. destruct (destroy_owners wide s d Hok Hd Hu F Hcur HF) as (s' & E & HD & Ho).
  exists s'. split; [done|]. split; [done|]. split; [|done].
  destruct (destroyed_loads wide s d true s' HD) as [HL HS]. exact (loads_coherent wide s s' HL HS Hco).
Qed.
