(* ===== verification/PagingTheorems.v ===== *)
(** * Properties of paging

    The theorems about [memory/paging.c], for both table formats, and concrete runs that satisfy
    their hypotheses. *)

From S2P Require Import Prelude BootInfo Checked Pmm PmmInit PmmSpec PagingState PagingPae Paging PagingEntry PagingForest PagingView PagingInv PagingOps PagingMap PagingProtect PagingUnmap PagingSpaces PagingCreate PagingDestroy PagingHw PagingDangling PagingLoaded PagingInit PagingUser PagingTotal PagingBoot PagingSystem PagingClient PagingWork PagingLife.
Local Open Scope c_scope.
Local Open Scope Z_scope.

(** ** A concrete run *)

#[local] Opaque sample_booted zeroed_pmm paging_init pmm_init.

Definition sample_machine : paging := machine ∅ ∅ sample_booted (Build_cpu 0x11 0 0 0 []).

(** The states of a run: boot, create a space, enter it, take a user frame and map it at 4 MiB,
    writable; [run_high] is a kernel page at 1 GiB, mapped after boot; [run_ok] tells whether every step succeeded and what it left. *)
Record run := {
  run_ok : bool;
  run_kernel : paging;
  run_space : Z;
  run_created : paging;
  run_entered : paging;
  run_frame : Z;
  run_frames : pmm;
  run_mapped : paging;
  run_high : bool * paging
}.

Definition sample_run (wide : bool) : option run :=
  match paging_init wide true 0x100000 0x140000 0x150000 (Some sample_info) sample_machine with
  | None => None
  | Some (ok, kernel) =>
      let '(space, created) := paging_create_address_space kernel in
      let '(ok1, entered) := paging_switch_address_space space created in
      let '(frame, frames) := pmm_exec OpAllocUser (page_frames entered) in
      let '(ok2, mapped) :=
        paging_map_page 0x400000 frame (Z.lor PAGE_FLAG_WRITABLE PAGE_FLAG_USER) (set_page_frames entered frames) in
      let facts := ok && negb (space =? 0) && ok1 && ok2 && (0 <=? frame) && (frame <? 4294967296) && negb (current_root wide mapped =? kernel_root wide mapped) &&
        user_access wide mapped true 0x400000 && user_access wide mapped true 0x40000F &&
        bool_decide (node_of wide (words mapped) (current_root wide entered) <$> seqZ 0 4 = node_of wide (words entered) (current_root wide entered) <$> seqZ 0 4) &&
        negb (space =? current_root wide created) in
      let high := paging_map_page 0x40000000 0x500000 PAGE_FLAG_WRITABLE kernel in
      Some (Build_run (facts && fst high && negb (wide && flag (entry64 (words kernel) (current_root wide kernel) 1) 1))
        kernel space created entered frame frames mapped high)
  end.

Lemma sample_run_true wide : match sample_run wide with Some r => run_ok r | None => false end = true.
Proof. destruct wide; vm_compute; reflexivity. Qed.

Lemma empty_tables : tables_ok ∅.
Proof. intros f l. by rewrite lookup_empty. Qed.

Lemma sample_image : kernel_image 0x100000 0x140000 0x150000.
Proof. split; [done|]. lia. Qed.

Lemma sample_boot_state : boot_state sample_machine.
Proof.
  exact (machine_boot ∅ ∅ 0x100000 0x180000 sample_info zeroed_pmm sample_booted (Build_cpu 0x11 0 0 0 []) sample_info_wf zeroed_pmm_ok
    ltac:(by compute) ltac:(by compute) sample_boot empty_tables eq_refl).
Qed.

(** The run as a path of reachable states. *)
Lemma sample_trace wide : exists kernel space created entered frame frames mapped high,
  reachable wide true kernel /\ paging_create_address_space kernel = (space, created) /\ space <> 0 /\
  reachable wide true created /\ reachable wide true entered /\ reachable wide true (set_page_frames entered frames) /\
  is_u32 frame /\
  paging_map_page 0x400000 frame (Z.lor PAGE_FLAG_WRITABLE PAGE_FLAG_USER) (set_page_frames entered frames) = (true, mapped) /\
  settled wide true (same_directories wide) mapped /\ current_root wide mapped <> kernel_root wide mapped /\
  user_access wide mapped true 0x400000 = true /\ user_access wide mapped true 0x40000F = true /\
  coherent wide kernel /\ paging_map_page 0x40000000 0x500000 PAGE_FLAG_WRITABLE kernel = (true, high) /\
  (wide = true -> node_of true (words kernel) (current_root true kernel) 1 = None).
Proof.
  pose proof (sample_run_true wide) as H. unfold sample_run in H.
  destruct (paging_init wide true 0x100000 0x140000 0x150000 (Some sample_info) sample_machine) as [[ok kernel]|] eqn:Ei; [|done].
  destruct (paging_create_address_space kernel) as [space created] eqn:Ec.
  destruct (paging_switch_address_space space created) as [ok1 entered] eqn:Es.
  destruct (pmm_exec OpAllocUser (page_frames entered)) as [frame frames] eqn:Ef.
  destruct (paging_map_page 0x400000 frame (Z.lor PAGE_FLAG_WRITABLE PAGE_FLAG_USER) (set_page_frames entered frames)) as [ok2 mapped] eqn:Em.
  destruct (paging_map_page 0x40000000 0x500000 PAGE_FLAG_WRITABLE kernel) as [ok3 high] eqn:Eh.
  cbn [run_ok fst] in H. rewrite !andb_true_iff in H.
  destruct H as [[((((((((((H1 & H2) & H3) & H4) & H5) & H6) & H7) & H8) & H9) & H10) & H13) H11] H12]. subst.
  apply bool_decide_eq_true in H10. apply negb_true_iff, Z.eqb_neq in H2, H7, H13.
  assert (booted wide true kernel) as R0.
  { apply (booted_init wide true ∅ ∅ 0x100000 0x180000 sample_info zeroed_pmm sample_booted (Build_cpu 0x11 0 0 0 []) 0x100000 0x140000 0x150000);
      [apply sample_info_wf|apply zeroed_pmm_ok|unfold is_u32; lia|unfold is_u32; lia|apply sample_boot| |done| |exact Ei].
    - apply empty_tables.
    - apply sample_image. }
  assert (reachable wide true kernel) as R1 by (by apply reach_init).
  assert (reachable wide true created) as R2 by (eapply reach_step; [exact R1|by eapply step_create]).
  assert (reachable wide true entered) as R3 by (eapply reach_step; [exact R2|by eapply step_switch]).
  assert (reachable wide true (set_page_frames entered frames)) as R4
    by (eapply reach_step; [exact R3|by apply (step_frames wide entered OpAllocUser frame)]).
  assert (is_u32 frame) as Hfr by (unfold is_u32; lia).
  assert (settled wide true (same_directories wide) mapped) as R5.
  { assert (paging_step wide (set_page_frames entered frames) mapped) as Hst by (refine (step_map wide _ 0x400000 frame _ true mapped _ Hfr _ Em); by compute).
    refine (settled_call _ _ _ _ _ _ Hst _).
    - refine (settled_call _ _ _ entered _ _ (step_frames wide entered OpAllocUser frame frames I Ef) _); [|by intros q _].
      exact (settled_enter wide true _ created space entered R2 Es H13).
    - intros q Hq. pose proof (f_equal (fun l => l !! Z.to_nat q) H10) as E. cbn beta in E. rewrite !list_lookup_fmap, !lookup_seqZ_lt in E by lia.
      cbn in E. injection E as E. by replace (Z.of_nat (Z.to_nat q)) with q in E by lia. }
  assert (coherent wide kernel) as Hco by (by apply (booted_ok wide true)).
  assert (wide = true -> node_of true (words kernel) (current_root true kernel) 1 = None) as Hnode.
  { intros Hw. rewrite Hw in H12. cbn [andb] in H12. apply negb_true_iff in H12. unfold node_of. cbn [get].
    change (1 =? -1) with false. change (true && (0 <=? 1) && (1 <? 4)) with true. cbn match. cbn [andb]. by rewrite H12. }
  exists kernel, space, created, entered, frame, frames, mapped, high.
  exact (conj R1 (conj Ec (conj H2 (conj R2 (conj R3 (conj R4 (conj Hfr (conj Em (conj R5 (conj H7 (conj H8 (conj H9
    (conj Hco (conj Eh Hnode)))))))))))))).
Qed.

(** ** Isolation *)

Lemma translate_user wide s va t : paging_ok wide s -> paging_enabled s = true -> unstale wide s -> is_u32 va ->
  translate s va = Some t -> t_user t = true ->
  user_page wide (view_of wide (words s)) (current_root wide s) (dir_of wide va) (leaf_of wide va) /\
  t_frame t = frame_of (leaf_entry wide s va).
Proof.
  intros Hok Hen Hun Hva Ht. pose proof (translate_unstale wide s va t Hok Hen Hun Hva Ht) as He. revert He. unfold entry_translation.
  destruct (flag (leaf_entry wide s va) 1) eqn:E; [|done]. intros [= <-]. cbn. intros Hu.
  destruct (va_index wide va Hva) as (Hi & Hj & _). done.
Qed.


(** The last state of the run. *)
Lemma sample_settled wide : exists s t, settled wide true (same_directories wide) s /\ settled wide true (keeps_directories wide) s /\
  reachable wide true s /\ current_root wide s <> kernel_root wide s /\ user_access wide s true 0x400000 = true /\
  translate s 0x400000 = Some t /\ t_user t = true /\ t_write t = true.
Proof.
  destruct (sample_trace wide) as (k & d & c & e & f & fs & s & h & _ & _ & _ & _ & _ & _ & _ & _ & R & Hne & Hu & _).
  pose proof (settled_reachable _ _ _ _ R) as Hr. destruct (reachable_ok wide true s Hr) as (Hok & Hen & _).
  destruct (user_translate wide s true 0x400000 Hok Hen (settled_coherent _ _ _ R) ltac:(unfold is_u32; lia) Hu) as (t & Ht & _ & Htu & Hw).
  exists s, t. split; [done|]. split; [|by specialize (Hw eq_refl)]. eapply settled_weaken; [|exact R]. intros x y. apply same_keeps_directories.
Qed.


(** C8: in every reachable state a frame is marked as mapped for user mode exactly when one user
    page of one registered space maps it, so no mapping outlives its frame and no frame stays
    claimed without a mapping. [reachable] says which two calls are left out. *)
Theorem paging_frames_accounted wide nx s x : reachable wide nx s -> is_u32 x -> x mod 4096 = 0 ->
  owner_at s x = User true <->
  exists r i j, (r ∈ roots wide s /\ user_page wide (view_of wide (words s)) r i j /\ frame_of (pte_of wide (words s) r i j) = x) /\
  forall r' i' j', r' ∈ roots wide s -> user_page wide (view_of wide (words s)) r' i' j' ->
    frame_of (pte_of wide (words s) r' i' j') = x -> r' = r /\ i' = i /\ j' = j.
Proof.
  intros Hreach Hx Ha. destruct (reachable_ok wide nx s Hreach) as (Hok & _ & _). pose proof (ok_forest wide s Hok) as HF. split.
  - intros Ho. destruct (forest_mapped _ _ _ _ _ _ HF x Hx Ha Ho) as (r & i & j & Hr & Hup & Hf). exists r, i, j. split; [done|].
    intros r' i' j' Hr' Hup' Hf'. apply (forest_user_inj _ _ _ _ _ _ HF r' i' j' r i j Hr' Hr Hup' Hup). cbn in *. congruence.
  - intros (r & i & j & (Hr & Hup & <-) & _). by apply (forest_user _ _ _ _ _ _ HF r i j Hr Hup).
Qed.

Lemma paging_frames_accounted_witness : exists s, reachable false true s /\
  (owner_at s 0x700000 = User true <->
   exists r i j, (r ∈ roots false s /\ user_page false (view_of false (words s)) r i j /\ frame_of (pte_of false (words s) r i j) = 0x700000) /\
   forall r' i' j', r' ∈ roots false s -> user_page false (view_of false (words s)) r' i' j' ->
     frame_of (pte_of false (words s) r' i' j') = 0x700000 -> r' = r /\ i' = i /\ j' = j).
Proof.
  destruct (sample_settled false) as (s & t & _ & _ & R & _).
  exists s. split; [exact R|]. exact (paging_frames_accounted false true s 0x700000 R ltac:(unfold is_u32; lia) eq_refl).
Defined.



(** C26: the type of every reachable state: each table page has 1024 words of 32 bits; at most 16
    spaces are registered, under distinct roots; roots, directories and tables are frames of the
    identity-mapped low memory that the kernel owns; a table is linked from one place, or from the
    same place of the kernel and of spaces that share it; and every space maps the low memory to
    itself, so the kernel can reach all of them. [reachable] says which two calls are left out. *)
Theorem paging_tables_typed wide nx s : reachable wide nx s ->
  (forall x l, words s !! x = Some l -> length l = 1024%nat /\ Forall is_u32 l) /\
  (length (space_list wide s) <= 16)%nat /\ NoDup (roots wide s) /\ current_root wide s ∈ roots wide s /\
  (forall r q x, r ∈ roots wide s -> node_of wide (words s) r q = Some x -> low_page x /\ owner_at s x = Kernel) /\
  (forall r i t, r ∈ roots wide s -> linked wide (view_of wide (words s)) r i t -> low_page t /\ owner_at s t = Kernel /\
     forall r' i', r' ∈ roots wide s -> linked wide (view_of wide (words s)) r' i' t ->
       i = i' /\ (r = r' \/ linked wide (view_of wide (words s)) (kernel_root wide s) i t)) /\
  (forall r i j, r ∈ roots wide s -> dir_index wide i -> table_index wide j -> 1 <= page_number wide i j < 1024 ->
     present (pte_of wide (words s) r i j) /\ frame_of (pte_of wide (words s) r i j) = page_number wide i j * 4096).
Proof.
  intros Hreach. destruct (reachable_ok wide nx s Hreach) as (Hok & _ & _). pose proof (ok_forest wide s Hok) as HF.
  split_and!.
  - apply (ok_spaces wide s Hok).
  - pose proof (ok_counts wide s Hok) as Hc. unfold counts_ok, space_list in *. destruct wide; rewrite length_take; lia.
  - apply (forest_roots _ _ _ _ _ _ HF).
  - apply Hok.
  - intros r q x Hr Hn. by apply (forest_node _ _ _ _ _ _ HF r q).
  - intros r i t Hr Hl. destruct (forest_link _ _ _ _ _ _ HF r i t Hr Hl) as (H1 & H2 & _). split; [done|]. split; [done|].
    intros r' i' Hr' Hl'. by apply (forest_share _ _ _ _ _ _ HF r i r' i' t).
  - intros r i j Hr Hi Hj Hp. by destruct (forest_low _ _ _ _ _ _ HF r i j Hr Hi Hj Hp) as (_ & ? & ?).
Qed.

Lemma paging_tables_typed_witness : exists s, reachable true true s /\ NoDup (roots true s).
Proof.
  destruct (sample_settled true) as (s & t & _ & _ & R & _).
  exists s. split; [exact R|]. exact (proj1 (proj2 (proj2 (paging_tables_typed true true s R)))).
Defined.

(** ** Boot *)

(** C10: [paging_init], called after the frame allocator has booted, terminates. If it succeeds,
    paging is on, and the processor translates every address as [boot_page] says: page 0 faults, the
    rest of the first 4 MiB maps to itself, the framebuffer maps to itself if it is used, every other
    address faults, and nothing is accessible to user mode; the kernel's code is write-protected, and
    with two-level tables its [.rodata] as well. With pointer tables [.rodata] stays writable, which
    SECURITY.md says it is not ([pae_rodata_writable] of [PagingGaps]). If it fails, paging is off and, when no
    framebuffer was to be mapped, all frames have been given back. With four free frames below 4 MiB,
    eight if the framebuffer is mapped, it does not fail. *)
Theorem paging_init_correct pae nx w d ks ke info f f' r text_start text_end rodata_end :
  boot_info_wf info -> arrays_ok f -> is_u32 ks -> is_u32 ke -> pmm_init ks ke (Some info) f = (true, f') ->
  tables_ok w -> flag (cr4 r) CR4_PAE = false -> kernel_image text_start text_end rodata_end ->
  exists ok s', paging_init pae nx text_start text_end rodata_end (Some info) (machine w d f' r) = Some (ok, s') /\
  (ok = true -> paging_ok pae s' /\ paging_enabled s' = true /\ coherent pae s' /\
     forall va, is_u32 va -> translate s' va =
       boot_page pae (font_available (Some info)) text_start text_end rodata_end (va / 4096)) /\
  (ok = false -> paging_enabled s' = false /\
     (font_available (Some info) = false -> own_eq (owner_at (machine w d f' r)) (owner_at s'))) /\
  (free_low (machine w d f' r) (if font_available (Some info) then 8 else 4) -> ok = true).
Proof.
  intros Hi Ha Hks Hke Ep Hw Hr Him. pose proof (machine_boot w d ks ke info f f' r Hi Ha Hks Hke Ep Hw Hr) as Hb.
  destruct (init_ok pae nx text_start text_end rodata_end (Some info) _ Hb Him) as (ok & s' & E & Hres).
  exists ok, s'. split; [exact E|]. split; [|split].
  - intros ->. destruct Hres as [? (? & ? & _) _ ?]. done.
  - intros ->. exact Hres.
  - intros Hfree. destruct (paging_init_total pae nx text_start text_end rodata_end (Some info) _ Hb Him) as (s1 & E1).
    + revert Hfree. unfold init_need. by destruct (font_available (Some info)).
    + rewrite E in E1. by injection E1 as ->.
Qed.

Lemma sample_free_low : free_low sample_machine 4.
Proof.
  exists [0x180000; 0x181000; 0x182000; 0x183000]. split; [apply (bool_decide_unpack _); vm_compute; exact I|]. split; [done|].
  intros x Hx. rewrite !elem_of_cons, elem_of_nil in Hx.
  assert (low_page x) as Hlow by (unfold low_page; destruct Hx as [->|[->|[->|[->|[]]]]]; (split; [done|lia])).
  split; [done|]. change (frame_owner sample_booted (x / 4096) = Free). pose proof (low_page_u32 x Hlow) as (Hu & _).
  rewrite (booted_owner 0x100000 0x180000 sample_info zeroed_pmm sample_booted (x / 4096) sample_info_wf zeroed_pmm_ok
    ltac:(unfold is_u32; lia) ltac:(unfold is_u32; lia) sample_boot (u32_block x Hu)). destruct Hx as [->|[->|[->|[->|[]]]]]; vm_compute; reflexivity.
Qed.

Lemma paging_init_correct_witness : exists s',
  paging_init true true 0x100000 0x140000 0x150000 (Some sample_info) sample_machine = Some (true, s') /\
  translate s' 0 = None /\ translate s' 0x100000 = Some (Build_translation 0x100000 false false) /\
  translate s' 0x400000 = None.
Proof.
  destruct (paging_init_correct true true ∅ ∅ 0x100000 0x180000 sample_info zeroed_pmm sample_booted (Build_cpu 0x11 0 0 0 [])
    0x100000 0x140000 0x150000 sample_info_wf zeroed_pmm_ok ltac:(unfold is_u32; lia) ltac:(unfold is_u32; lia) sample_boot)
    as (ok & s' & E & Hok & _ & Hfree); [apply empty_tables|done|apply sample_image|].
  specialize (Hfree sample_free_low). subst ok. destruct (Hok eq_refl) as (_ & _ & _ & Htr).
  exists s'. split; [exact E|]. rewrite !Htr by (unfold is_u32; lia). split_and!; vm_compute; reflexivity.
Defined.

(** ** Operations *)

(** C15: [paging_map_page] gives the page, in the current space and those that share its table, an
    entry for the frame with exactly the requested permissions; every other page of every space and
    every allocated frame stay as they were, and a user frame goes from owned to mapped. A failed call
    changes no page. With two free frames, a request that the checks accept does not fail. *)
Theorem paging_map_correct wide nx s va pa flags : reachable wide nx s -> is_u32 va -> is_u32 pa -> is_u32 flags ->
  let '(ok, s') := paging_map_page va pa flags s in
  mapped wide (dir_of wide va) (leaf_of wide va) pa flags s ok s' /\
  (map_request wide s va pa flags -> free_low s 2 -> ok = true).
Proof.
  intros Hreach Hva Hpa Hfl. destruct (reachable_ok wide nx s Hreach) as (Hok & _ & _).
  pose proof (map_total wide s va pa flags Hok) as Ht. destruct (paging_map_page va pa flags s) as [ok s'] eqn:E.
  split; [by apply map_page_ok|]. exact Ht.
Qed.

Lemma paging_map_correct_witness : exists s pa, reachable true true s /\
  let '(ok, s') := paging_map_page 0x400000 pa 6 s in
  mapped true (dir_of true 0x400000) (leaf_of true 0x400000) pa 6 s ok s'.
Proof.
  destruct (sample_trace true) as (k & d & c & e & f & fs & s & h & _ & _ & _ & _ & _ & R & Hf & _).
  exists (set_page_frames e fs), f. split; [exact R|].
  pose proof (paging_map_correct true true (set_page_frames e fs) 0x400000 f 6 R ltac:(by compute) Hf ltac:(by compute)) as H.
  revert H. destruct (paging_map_page 0x400000 f 6 (set_page_frames e fs)) as [ok s']. intros [H _]. exact H.
Defined.



(** C24: [paging_protect_page] changes the permissions of a present page to exactly the requested
    ones, keeping its frame and its user bit, and changes no other page and no frame. *)
Theorem paging_protect_correct wide nx s va flags : reachable wide nx s -> is_u32 va -> is_u32 flags ->
  let '(ok, s') := paging_protect_page va flags s in protected wide (dir_of wide va) (leaf_of wide va) flags s ok s'.
Proof.
  intros Hreach Hva Hfl. destruct (reachable_ok wide nx s Hreach) as (Hok & _ & _).
  destruct (paging_protect_page va flags s) as [ok s'] eqn:E. by apply protect_page_ok.
Qed.

Lemma paging_protect_correct_witness : exists s, reachable true true s /\
  let '(ok, s') := paging_protect_page 0x400000 4 s in protected true (dir_of true 0x400000) (leaf_of true 0x400000) 4 s ok s'.
Proof.
  destruct (sample_settled true) as (s & t & _ & _ & R & _).
  exists s. split; [exact R|]. exact (paging_protect_correct true true s 0x400000 4 R ltac:(by compute) ltac:(by compute)).
Defined.

(** C21: [paging_destroy_address_space] either changes nothing or removes the space and makes free
    exactly the frames of its directories, its private tables and its user pages; the tables and the
    pages of all other spaces stay. *)
Theorem paging_destroy_correct wide nx s d : reachable wide nx s ->
  let '(ok, s') := paging_destroy_address_space d s in destroyed wide s d ok s'.
Proof.
  intros Hreach. destruct (reachable_ok wide nx s Hreach) as (Hok & _ & _).
  destruct (paging_destroy_address_space d s) as [ok s'] eqn:E. by apply destroy_ok.
Qed.

Lemma paging_destroy_correct_witness : exists s d, reachable false true s /\
  let '(ok, s') := paging_destroy_address_space d s in destroyed false s d ok s'.
Proof.
  destruct (sample_trace false) as (k & d & c & e & f & fs & s & h & _ & _ & _ & R & _).
  exists c, d. split; [exact R|]. exact (paging_destroy_correct false true c d R).
Defined.

(** C22: a new address space shows exactly the pages of the kernel, none of them for user mode, and
    destroying it at once succeeds and gives back every frame it took; with fewer than 16 spaces and
    five free frames, creating does not fail. *)
Theorem paging_create_destroy wide nx s d s1 : reachable wide nx s -> paging_create_address_space s = (d, s1) ->
  (d = 0 -> own_eq (owner_at s) (owner_at s1) /\ roots wide s1 = roots wide s /\
     ((length (space_list wide s) < 16)%nat -> ~ free_low s 5)) /\
  (d <> 0 ->
     (forall i j, dir_index wide i -> table_index wide j ->
        pte_of wide (words s1) d i j = pte_of wide (words s) (kernel_root wide s) i j /\ ~ user_page wide (view_of wide (words s1)) d i j) /\
     exists s2, paging_destroy_address_space d s1 = (true, s2) /\ own_eq (owner_at s) (owner_at s2) /\
       space_list wide s2 ≡ₚ space_list wide s /\
       same_pages wide (kernel_root wide s) (space_list wide s) (words s) (words s2)).
Proof.
  intros Hreach E. destruct (reachable_ok wide nx s Hreach) as (Hok & _ & _).
  pose proof (create_ok wide s d s1 Hok E) as HC.
  pose proof HC as [Hok1 (HK1 & HC1 & _) _ Hnone Hnew Hpg _ Hcopy]. split.
  - intros ->. destruct (Hnone eq_refl) as [Hc Ho]. destruct (config_fields wide s s1 Hc) as (EK & _ & EL & _).
    split; [done|]. split; [unfold roots; by rewrite EK, EL|]. intros Hlen Hfree.
    apply (create_total wide s Hok Hlen Hfree). by rewrite E.
  - intros Hnz. destruct (Hnew Hnz) as (Hfresh & HL & _). specialize (Hcopy Hnz).
    assert (d ∈ space_list wide s1) as Hd by (rewrite HL; apply elem_of_app; right; by apply list_elem_of_singleton).
    split.
    + intros i j Hi Hj. rewrite Hcopy by done. split; [by apply Hpg; [apply kernel_in|..]|].
      intros Hup. apply (kernel_no_user _ _ _ _ _ _ i j (ok_forest wide s1 Hok1)). destruct Hup as (_ & _ & Hue).
      split; [done|]. split; [done|]. cbn in *. rewrite HK1. by rewrite <- Hcopy.
    + assert (d <> current_root wide s1) as Hcur.
      { intros ->. apply Hfresh. rewrite HC1. apply Hok. }
      pose proof (created_user_only wide s d s1 HC Hnz) as Huo. pose proof (created_without wide s d s1 HC Hnz) as Hwo.
      destruct (destroy_owners wide s1 d Hok1 Hd Huo (owner_at s) Hcur Hwo) as (s2 & Ed & HD & Ho).
      destruct HD as [_ _ (_ & _ & Hw2 & _) _ Hlist _ _].
      exists s2. split; [done|]. split; [done|]. split.
      * destruct (Hlist eq_refl) as (_ & _ & Hp). rewrite HL in Hp. rewrite Permutation_app_comm in Hp. cbn in Hp.
        by apply Permutation_cons_inv in Hp.
      * by rewrite Hw2.
Qed.

Lemma paging_create_destroy_witness : exists s d s1 s2, reachable true true s /\ paging_create_address_space s = (d, s1) /\
  paging_destroy_address_space d s1 = (true, s2) /\ own_eq (owner_at s) (owner_at s2).
Proof.
  destruct (sample_trace true) as (k & d & c & e & f & fs & s & h & R & E & Hnz & _).
  destruct (proj2 (paging_create_destroy true true k d c R E) Hnz) as (_ & s2 & Hd & Ho & _).
  exists k, d, c, s2. exact (conj R (conj E (conj Hd Ho))).
Defined.

(** ** User memory *)

(** C19: [paging_validate_user_range] terminates and accepts a range exactly when it is empty, or lies
    between 4 KiB and 3 GiB and the processor lets user mode read (and, if asked, write) each of its
    bytes; in every state of a run in which another space is entered once a call has added a page
    directory to the current space or taken one away (with two-level tables: in every reachable
    state). Before that it can accept a page that the processor does not see
    ([pae_new_directory_unseen] of [PagingGaps]). *)
Theorem paging_validate_exact wide nx s va len writable : settled wide nx (same_directories wide) s -> is_u32 va -> is_u32 len ->
  exists b, paging_validate_user_range s va len writable = Some b /\
  (b = true <-> len = 0 \/ (4096 <= va /\ va + len <= USER_ADDRESS_LIMIT /\ forall k, 0 <= k < len ->
     exists t, translate s (va + k) = Some t /\ t_user t = true /\ (writable = true -> t_write t = true))).
Proof.
  intros Hset Hva Hlen. destruct (reachable_ok wide nx s (settled_reachable _ _ _ _ Hset)) as (Hok & Hen & _).
  pose proof (settled_coherent wide nx s Hset) as Hco.
  destruct (validate_range_spec wide s va len writable Hok Hva Hlen) as (b & Hb & Hiff). exists b. split; [done|]. rewrite Hiff.
  unfold user_range_ok, USER_ADDRESS_LIMIT. unfold is_u32 in Hva, Hlen.
  assert (va + len <= 0xC0000000 -> forall k, 0 <= k < len -> user_access wide s writable (va + k) = true <->
    exists t, translate s (va + k) = Some t /\ t_user t = true /\ (writable = true -> t_write t = true)) as Hacc.
  { intros Hhi k Hk. assert (is_u32 (va + k)) as Hu by (unfold is_u32; lia). split.
    - intros Ha. destruct (user_translate wide s writable (va + k) Hok Hen Hco Hu Ha) as (t & ? & _ & ? & ?). by exists t.
    - intros (t & Ht & Htu & Htw). rewrite (translate_spec wide s (va + k) Hok Hen Hco Hu) in Ht. unfold entry_translation in Ht.
      unfold user_access. destruct (flag (leaf_entry wide s (va + k)) 1); [|done]. injection Ht as <-. cbn in Htu, Htw. rewrite Htu.
      destruct writable; [|done]. by rewrite Htw. }
  split; (intros [?|(H1 & H2 & H3)]; [by left|right]; split; [done|]; split; [done|]; intros k Hk; apply Hacc; [done|done|by apply H3]).
Qed.

Lemma paging_validate_exact_witness : exists s b, settled true true (same_directories true) s /\
  paging_validate_user_range s 0x400FF0 0x20 true = Some b.
Proof.
  destruct (sample_settled true) as (s & t & R & _).
  destruct (paging_validate_exact true true s 0x400FF0 0x20 true R ltac:(by compute) ltac:(by compute)) as (b & Hb & _).
  exists s, b. exact (conj R Hb).
Defined.


