(* ===== verification/PagingGaps.v ===== *)
(** * Gaps of the pointer-table format

    What [memory/paging.c] leaves open where it uses pointer tables: the write protection of
    [.rodata], and the page directories that the processor has in its registers. *)

From S2P Require Import Prelude BootInfo Checked Pmm PmmInit PmmSpec PagingState PagingPae Paging PagingEntry PagingForest PagingView PagingInv PagingOps PagingMap PagingProtect PagingUnmap PagingSpaces PagingCreate PagingDestroy PagingHw PagingDangling PagingLoaded PagingInit PagingUser PagingTotal PagingBoot PagingSystem PagingClient PagingWork PagingLife PagingTheorems.
Local Open Scope c_scope.
Local Open Scope Z_scope.

#[local] Opaque sample_booted zeroed_pmm paging_init pmm_init.

(** With pointer tables, a successful [paging_init] leaves the pages of [.rodata] writable: every
    page of the image from the end of the code on. *)
Theorem pae_rodata_writable nx text_start text_end rodata_end info s s' va : boot_state s -> kernel_image text_start text_end rodata_end ->
  paging_init true nx text_start text_end rodata_end info s = Some (true, s') ->
  (text_end + 4095) / 4096 <= va / 4096 < (rodata_end + 4095) / 4096 -> text_start <= va -> is_u32 va ->
  exists t, translate s' va = Some t /\ t_write t = true.
Proof.
  intros Hb Him E Hpage Hlo Hva. destruct (init_ok true nx text_start text_end rodata_end info s Hb Him) as (ok & s1 & E1 & Hres).
  rewrite E in E1. injection E1 as <- <-. destruct Hres as [_ _ _ Htr]. rewrite (Htr va Hva). destruct Him as (_ & H1 & H2 & H3).
  unfold boot_page, boot_writable. replace ((1 <=? va / 4096) && (va / 4096 <? 1024)) with true by dmlia.
  eexists. split; [reflexivity|]. cbn [t_write]. case_if; [|done]. cbn [andb]. apply negb_true_iff, Z.ltb_ge. lia.
Qed.

Lemma pae_rodata_writable_witness : exists s' t,
  paging_init true true 0x100000 0x140000 0x150000 (Some sample_info) sample_machine = Some (true, s') /\
  translate s' 0x14F123 = Some t /\ t_write t = true.
Proof.
  assert ((0x140000 + 4095) / 4096 <= 0x14F123 / 4096 < (0x150000 + 4095) / 4096 /\ 0x100000 <= 0x14F123 /\ is_u32 0x14F123) as (H1 & H2 & H3)
    by (by compute).
  destruct (paging_init_total true true 0x100000 0x140000 0x150000 (Some sample_info) sample_machine sample_boot_state sample_image sample_free_low) as [s' E].
  destruct (pae_rodata_writable true 0x100000 0x140000 0x150000 (Some sample_info) sample_machine s' 0x14F123 sample_boot_state sample_image E
    H1 H2 H3) as (t & Ht & Hw).
  exists s', t. exact (conj E (conj Ht Hw)).
Defined.

(** With pointer tables, a page mapped in a gigabyte that had no page directory faults until
    [cr3] is loaded again: the processor keeps the pointer entries in registers, and mapping does not
    reload them. *)
Theorem pae_new_directory_unseen s va pa flags s' : paging_ok true s -> paging_enabled s = true -> coherent true s ->
  is_u32 va -> is_u32 pa -> is_u32 flags -> node_of true (words s) (current_root true s) (Z.shiftr va 30) = None ->
  paging_map_page va pa flags s = (true, s') ->
  present (leaf_entry true s' va) /\ translate s' va = None /\
  translate (load_cr3 (current_root true s') s') va = entry_translation (leaf_entry true s' va).
Proof.
  intros Hok Hen Hco Hva Hpa Hfl Hnode E. destruct (pae_indices va Hva) as (_ & _ & Hq).
  destruct (map_page_ok true s va pa flags true s' Hok Hva Hpa Hfl E) as [Hok' Hk _ Hnew _ _ _ _].
  destruct (keeps_roots true s s' Hk) as (EK & EL & EC & ER & EN). destruct (config_fields true s s' (proj1 Hk)) as (_ & _ & _ & _ & _ & _ & _ & EE).
  destruct Hk as (_ & _ & Hr). destruct (Hnew eq_refl) as (v & Hv & _ & Hcur & _).
  assert (leaf_entry true s' va = v) as Hleaf by (unfold leaf_entry; by rewrite EC).
  split; [rewrite Hleaf; apply Hv|]. split.
  - destruct (ok_hardware _ _ Hok Hen) as (_ & H0 & _ & H4 & _). unfold translate. rewrite Hr, H0, H4. cbn [negb]. rewrite <- Hr.
    apply walk64_absent. unfold loaded_directory. rewrite Hr. exact (eq_trans (Hco eq_refl _ Hq) Hnode).
  - assert (paging_enabled s' = true) as Hen' by (by rewrite EE). destruct (ok_hardware _ _ Hok' Hen') as (H3 & H0 & Hw & H4 & Hn).
    assert (paging_ok true (load_cr3 (current_root true s') s')) as Hok2.
    { destruct Hok' as [? ? ? ? ? ? ?]. split; try done. }
    apply (translate_spec true (load_cr3 (current_root true s') s') va Hok2 Hen' (load_cr3_coherent true s' H4) Hva).
Qed.

Lemma pae_new_directory_unseen_witness : exists s s', paging_ok true s /\
  paging_map_page 0x40000000 0x500000 PAGE_FLAG_WRITABLE s = (true, s') /\ translate s' 0x40000000 = None.
Proof.
  destruct (sample_trace true) as (k & d & c & e & f & fs & s & h & R & _ & _ & _ & _ & _ & _ & _ & _ & _ & _ & _ & Hco & Eh & Hnode).
  destruct (reachable_ok true true k R) as (Hok & Hen & _). exists k, h. split; [exact Hok|]. split; [exact Eh|].
  refine (proj1 (proj2 (pae_new_directory_unseen k 0x40000000 0x500000 PAGE_FLAG_WRITABLE h Hok Hen Hco _ _ _ (Hnode eq_refl) Eh)));
    unfold is_u32, PAGE_FLAG_WRITABLE; lia.
Defined.

(** With pointer tables, a page directory that [paging_unmap_page] gives back stays in use by the
    processor: it is free, and the pointer register still names it. *)
Theorem pae_directory_outlives s va pa s' q d : paging_ok true s -> coherent true s -> is_u32 va ->
  unmap_safe true s (dir_of true va) (leaf_of true va) -> paging_unmap_page va s = (pa, s') -> 0 <= q < 4 ->
  node_of true (words s) (current_root true s) q = Some d -> node_of true (words s') (current_root true s') q <> Some d ->
  loaded_directory s' q = Some d /\ owner_at s' d = Free.
Proof.
  intros Hok Hco Hva Hsafe E Hq Hn Hgone. destruct (unmapped_loads _ _ _ _ _ _ (unmap_page_ok true s va pa s' Hok Hva Hsafe E)) as [HL Hfree].
  rewrite (proj1 HL) in Hgone. split; [|by destruct (Hfree q d Hn)].
  destruct (loads_directory true s s' q HL eq_refl Hq) as [-> | ->]; [by rewrite (Hco eq_refl q Hq)|done].
Qed.

(** What that leads to: a space is created and entered, a user frame mapped at 1 GiB, the kernel's
    space entered and left, the page unmapped and the frame mapped at 8 MiB. The directory given back
    is now the table of that page, so that the processor takes the frame itself, whose words the
    program chooses, for a page table of 1 GiB: the entry 0x100007 lets user mode write the first
    frame of the kernel's code. (6 is writable and user.) *)
Lemma stale_path kernel space created ok1 entered frame frames ok2 mapped ok3 away ok4 again pa unmapped ok5 reused :
  reachable true true kernel -> paging_create_address_space kernel = (space, created) ->
  paging_switch_address_space space created = (ok1, entered) -> pmm_exec OpAllocUser (page_frames entered) = (frame, frames) -> is_u32 frame ->
  paging_map_page 0x40000000 frame 6 (set_page_frames entered frames) = (ok2, mapped) ->
  paging_switch_address_space (kernel_root true mapped) mapped = (ok3, away) -> paging_switch_address_space space away = (ok4, again) ->
  current_root true again <> kernel_root true again -> paging_unmap_page 0x40000000 again = (pa, unmapped) ->
  paging_map_page 0x800000 frame 6 unmapped = (ok5, reused) -> reachable true true reused.
Proof.
  intros R1 E1 E2 E3 Hf E4 E5 E6 Hne E7 E8. assert (is_u32 6 /\ is_u32 0x40000000 /\ is_u32 0x800000) as (U1 & U2 & U3) by (unfold is_u32; lia).
  refine (reach_step _ _ _ _ _ (step_map true _ _ _ _ _ _ U3 Hf U1 E8)).
  refine (reach_step _ _ _ _ _ (step_unmap true _ _ _ _ U2 (fun E => False_ind _ (Hne E)) E7)).
  refine (reach_step _ _ _ _ _ (step_switch true _ _ _ _ E6)). refine (reach_step _ _ _ _ _ (step_switch true _ _ _ _ E5)).
  refine (reach_step _ _ _ _ _ (step_map true _ _ _ _ _ _ U2 Hf U1 E4)). refine (reach_step _ _ _ _ _ (step_frames true _ OpAllocUser _ _ I E3)).
  refine (reach_step _ _ _ _ _ (step_switch true _ _ _ _ E2)). exact (reach_step _ _ _ _ R1 (step_create true _ _ _ E1)).
Qed.

Definition stale_words : tables := {[0x400000 := 0x100007 :: replicate 1023 0]}.

Definition stale_init : option (bool * paging) :=
  paging_init true true 0x100000 0x140000 0x150000 (Some sample_info) (machine stale_words ∅ sample_booted (Build_cpu 0x11 0 0 0 [])).
Definition stale_kernel : paging := default sample_machine (snd <$> stale_init).
Definition stale_created : Z * paging := paging_create_address_space stale_kernel.
Definition stale_entered : bool * paging := paging_switch_address_space (fst stale_created) (snd stale_created).
Definition stale_frame : Z * pmm := pmm_exec OpAllocUser (page_frames (snd stale_entered)).
Definition stale_mapped : bool * paging := paging_map_page 0x40000000 (fst stale_frame) 6 (set_page_frames (snd stale_entered) (snd stale_frame)).
Definition stale_away : bool * paging := paging_switch_address_space (kernel_root true (snd stale_mapped)) (snd stale_mapped).
Definition stale_again : bool * paging := paging_switch_address_space (fst stale_created) (snd stale_away).
Definition stale_unmapped : Z * paging := paging_unmap_page 0x40000000 (snd stale_again).
Definition stale_reused : bool * paging := paging_map_page 0x800000 (fst stale_frame) 6 (snd stale_unmapped).

Lemma stale_facts : fst <$> stale_init = Some true /\ fst stale_frame = 0x400000 /\
  (current_root true (snd stale_again) =? kernel_root true (snd stale_again)) = false /\
  translate (snd stale_reused) 0x40000000 = Some (Build_translation 0x100000 true true) /\
  frame_owner (page_frames (snd stale_reused)) 0x100 = Reserved.
Proof. split_and!; vm_compute; reflexivity. Qed.

Lemma stale_init_eq : fst <$> stale_init = Some true -> stale_init = Some (true, stale_kernel).
Proof. unfold stale_kernel. generalize stale_init. by intros [[ok k]|] [= ->]. Qed.

Lemma stale_tables : tables_ok stale_words.
Proof.
  unfold stale_words. intros x l [_ <-]%lookup_singleton_Some. split; [done|]. apply Forall_cons_2; [by compute|]. apply Forall_replicate. by compute.
Qed.

Lemma stale_booted : booted true true stale_kernel.
Proof.
  pose proof (stale_init_eq (proj1 stale_facts)) as E. unfold stale_init in E at 1. revert E. generalize stale_kernel. intros k E.
  refine (booted_init true true stale_words ∅ 0x100000 0x180000 sample_info zeroed_pmm sample_booted (Build_cpu 0x11 0 0 0 [])
      0x100000 0x140000 0x150000 k sample_info_wf zeroed_pmm_ok _ _ sample_boot stale_tables eq_refl sample_image E); unfold is_u32; lia.
Qed.

Lemma pae_stale_run : exists s, reachable true true s /\
  translate s 0x40000000 = Some (Build_translation 0x100000 true true) /\ owner_at s 0x100000 = Reserved.
Proof.
  destruct stale_facts as (_ & Hf & Hne & Ht & Ho). exists (snd stale_reused). split; [|exact (conj Ht Ho)]. apply Z.eqb_neq in Hne.
  assert (is_u32 (fst stale_frame)) as Hu by (rewrite Hf; unfold is_u32; lia). clear Hf Ht Ho.
  pose proof (reach_init _ _ _ stale_booted) as R. revert Hne Hu. unfold stale_reused.
  destruct (paging_map_page 0x800000 _ _ _) as [ok5 reused] eqn:E8. cbn [snd]. revert E8. unfold stale_unmapped.
  destruct (paging_unmap_page 0x40000000 _) as [pa unmapped] eqn:E7. cbn [snd]. revert E7. unfold stale_again.
  destruct (paging_switch_address_space (fst stale_created) (snd stale_away)) as [ok4 again] eqn:E6. cbn [snd]. revert E6. unfold stale_away.
  destruct (paging_switch_address_space (kernel_root _ _) _) as [ok3 away] eqn:E5. cbn [snd]. revert E5. unfold stale_mapped.
  destruct (paging_map_page 0x40000000 _ _ _) as [ok2 mapped] eqn:E4. cbn [snd]. revert E4. unfold stale_frame.
  destruct (pmm_exec OpAllocUser _) as [frame frames] eqn:E3. cbn [fst snd]. revert E3. unfold stale_entered.
  destruct (paging_switch_address_space _ (snd stale_created)) as [ok1 entered] eqn:E2. cbn [snd]. revert E2. unfold stale_created.
  destruct (paging_create_address_space stale_kernel) as [space created] eqn:E1. cbn [fst snd]. intros E2 E3 E4 E5 E6 E7 E8 Hne Hu.
  exact (stale_path _ _ _ _ _ _ _ _ _ _ _ _ _ _ _ _ _ R E1 E2 E3 Hu E4 E5 E6 Hne E7 E8).
Qed.
