(* ===== verification/ElfLoad.v ===== *)
(** * Loading programs

    Model of [elf_load_image] and [elf_unload_image] of src/process/elf_loader.c, on top of the page
    tables and of the allocator. The image is a buffer of the kernel; the loader writes to the pages
    it maps through their virtual addresses, in the current space. *)

From Stdlib Require Import String.
From S2P Require Import Prelude Checked KernelCall Pmm PagingState Paging PagingWork Elf.
Local Open Scope c_scope.
Local Open Scope call_scope.
Local Open Scope string_scope.
Local Open Scope Z_scope.

(** [release_pages], from the first page on. *)
Fixpoint release_pages (pages : list Z) : call paging unit :=
  match pages with
  | [] => ret tt
  | page :: pages =>
      physical <~ do (paging_unmap_page page);
      if physical =? 0 then kernel_panic "ELF mapping cleanup failed." else
      update (free_frame physical) ;~ release_pages pages
  end.

(** [release_pages(mapped_pages, mapped_count); return 0;] *)
Definition abandon {A} (mapped_pages : list Z) : call paging (option A) :=
  release_pages mapped_pages ;~ ret None.

(** [for (...; index < limit; index++) virtual_pointer(address + index)[0] = 0;] with [n] bytes left. *)
Fixpoint zero_bytes (n : nat) (address index : Z) : call paging unit :=
  match n with
  | O => ret tt
  | S n => store (store_byte (address +32 index) 0) ;~ zero_bytes n address (index + 1)
  end.

(** [for (page = 0; page < file_size; page++) ... = data[file_offset + page];] *)
Fixpoint copy_bytes (n : nat) (data : list Z) (file_offset address index : Z) : call paging unit :=
  match n with
  | O => ret tt
  | S n =>
      byte <~ value (byte data (file_offset +32 index));
      store (store_byte (address +32 index) byte) ;~ copy_bytes n data file_offset address (index + 1)
  end.

(** The loop that maps and clears the pages of a segment; [None] when it has given up. *)
Fixpoint map_pages (fuel : nat) (page page_end : Z) (mapped_pages : list Z) : call paging (option (list Z)) :=
  match fuel with
  | O => fun _ => Stuck
  | S fuel =>
      if negb (page <? page_end) then ret (Some mapped_pages) else
      is_mapped <~ ask (fun s => paging_is_mapped s page);
      if (Z.of_nat (length mapped_pages) =? ELF_MAX_IMAGE_PAGES) || is_mapped then abandon mapped_pages else
      physical <~ do alloc_user_frame;
      ok <~ (if physical =? 0 then ret false
             else do (paging_map_page page physical (Z.lor PAGE_FLAG_USER PAGE_FLAG_WRITABLE)));
      if negb ok then
        (if negb (physical =? 0) then update (free_frame physical) else ret tt) ;~ abandon mapped_pages
      else
      zero_bytes (Z.to_nat PAGE_SIZE) page 0 ;~
      map_pages fuel (page +32 PAGE_SIZE) page_end (mapped_pages ++ [page])
  end.

Definition segment_flags (flags : Z) : Z :=
  let page_flags := PAGE_FLAG_USER in
  let page_flags := if flag flags ELF_FLAG_WRITABLE then Z.lor page_flags PAGE_FLAG_WRITABLE else page_flags in
  if flag flags ELF_FLAG_EXECUTABLE then Z.lor page_flags PAGE_FLAG_EXECUTABLE else page_flags.

(** The loop that sets the final permissions; [false] when it has given up. *)
Fixpoint protect_pages (fuel : nat) (page page_end flags : Z) (mapped_pages : list Z) : call paging bool :=
  match fuel with
  | O => fun _ => Stuck
  | S fuel =>
      if negb (page <? page_end) then ret true else
      ok <~ do (paging_protect_page page (segment_flags flags));
      if negb ok then release_pages mapped_pages ;~ ret false
      else protect_pages fuel (page +32 PAGE_SIZE) page_end flags mapped_pages
  end.

(** Every page of a segment is a page of the array. *)
Definition page_fuel : nat := Z.to_nat ELF_MAX_IMAGE_PAGES + 1.

(** What the loop over the program headers carries. *)
Record loading := { mapped_pages : list Z; image_base : Z; image_end : Z }.

(** One segment with memory, after its fields are read. *)
Definition load_segment (data : list Z) (load_bias file_offset virtual_address file_size memory_size flags : Z) (l : loading)
    : call paging (option loading) :=
  if 0xFFFFFFFF -32 load_bias <? virtual_address then abandon (mapped_pages l) else
  let mapped_virtual_address := virtual_address +32 load_bias in
  if (USER_MAX_ADDRESS <=? mapped_virtual_address) || (USER_MAX_ADDRESS -32 mapped_virtual_address <? memory_size)
  then abandon (mapped_pages l) else
  let segment_end := mapped_virtual_address +32 memory_size in
  let page := Z.land mapped_virtual_address ELF_PAGE_MASK in
  let page_end := Z.land ((segment_end +32 PAGE_SIZE) -32 1) ELF_PAGE_MASK in
  if (page_end <? segment_end) || (page <? USER_MIN_ADDRESS) || (USER_MAX_ADDRESS <? page_end) ||
     overlaps_reserved_stack mapped_virtual_address memory_size
  then abandon (mapped_pages l) else
  let base := if page <? image_base l then page else image_base l in
  let end_ := if image_end l <? page_end then page_end else image_end l in
  mapped <~ map_pages page_fuel page page_end (mapped_pages l);
  match mapped with
  | None => ret None
  | Some mapped =>
      copy_bytes (Z.to_nat file_size) data file_offset mapped_virtual_address 0 ;~
      zero_bytes (Z.to_nat (page_end -32 (mapped_virtual_address +32 file_size))) (mapped_virtual_address +32 file_size) 0 ;~
      ok <~ protect_pages page_fuel (Z.land mapped_virtual_address ELF_PAGE_MASK) page_end flags mapped;
      ret (if ok : bool then Some (Build_loading mapped base end_) else None)
  end.

(** One program header. *)
Definition load_header (data : list Z) (load_bias offset : Z) (l : loading) : call paging (option loading) :=
  type <~ value (read_u32 data (offset +32 ELF_PT_TYPE_OFFSET));
  if negb (type =? ELF_PT_LOAD) then ret (Some l) else
  file_offset <~ value (read_u32 data (offset +32 ELF_PT_OFFSET_OFFSET));
  virtual_address <~ value (read_u32 data (offset +32 ELF_PT_VADDR_OFFSET));
  file_size <~ value (read_u32 data (offset +32 ELF_PT_FILESZ_OFFSET));
  memory_size <~ value (read_u32 data (offset +32 ELF_PT_MEMSZ_OFFSET));
  flags <~ value (read_u32 data (offset +32 ELF_PT_FLAGS_OFFSET));
  if memory_size =? 0 then ret (Some l) else
  load_segment data load_bias file_offset virtual_address file_size memory_size flags l.

Fixpoint load_headers (n : nat) (data : list Z) (load_bias phoff index : Z) (l : loading) : call paging (option loading) :=
  match n with
  | O => ret (Some l)
  | S n =>
      r <~ load_header data load_bias (phoff +32 (index *32 ELF32_PROGRAM_HEADER_SIZE)) l;
      match r with
      | None => ret None
      | Some l => load_headers n data load_bias phoff (index + 1) l
      end
  end.

(** What the loader stores through its pointers: the entry point and the bounds of the image. *)
Record image := { entry : Z; loaded_base : Z; loaded_end : Z }.

(** The part after the bias is known. *)
Definition load_at (data : list Z) (image_entry phoff phnum load_bias : Z) : call paging (option image) :=
  r <~ load_headers (Z.to_nat phnum) data load_bias phoff 0 (Build_loading [] USER_MAX_ADDRESS USER_MIN_ADDRESS);
  match r with
  | None => ret None
  | Some l =>
      if 0xFFFFFFFF -32 load_bias <? image_entry then abandon (mapped_pages l) else
      ret (Some (Build_image (image_entry +32 load_bias) (image_base l) (image_end l)))
  end.

(** [load_bias_state] is the state of the generator of load biases; it is returned with the result. *)
Definition elf_load_image (e : entropy) (data : list Z) (load_bias_state : Z) : call paging (option image * Z) :=
  validated <~ parse (elf_validate_image data);
  match validated with
  | None => ret (None, load_bias_state)
  | Some image_entry =>
      image_type <~ value (read_u16 data ELF_TYPE_OFFSET);
      phoff <~ value (read_u32 data ELF_PHOFF_OFFSET);
      phnum <~ value (read_u16 data ELF_PHNUM_OFFSET);
      bounds <~ parse (image_bounds data phoff phnum image_type);
      match bounds with
      | None => ret (None, load_bias_state)
      | Some (relative_min, relative_end) =>
          is_mapped <~ ask paging_is_mapped;
          let '(bias, load_bias_state) :=
            if image_type =? ELF_ET_DYN then dyn_bias_range e is_mapped relative_min relative_end load_bias_state
            else (Some 0, load_bias_state) in
          match bias with
          | None => ret (None, load_bias_state)
          | Some load_bias =>
              if (image_type =? ELF_ET_EXEC) && ((relative_min <? USER_MIN_ADDRESS) || (USER_MAX_ADDRESS <? relative_end))
              then ret (None, load_bias_state)
              else r <~ load_at data image_entry phoff phnum load_bias; ret (r, load_bias_state)
          end
      end
  end.

(** The two loops of [elf_unload_image]. *)
Fixpoint all_mapped (fuel : nat) (page loaded_end : Z) : call paging bool :=
  match fuel with
  | O => fun _ => Stuck
  | S fuel =>
      if negb (page <? loaded_end) then ret true else
      is_mapped <~ ask (fun s => paging_is_mapped s page);
      if negb is_mapped then ret false else all_mapped fuel (page +32 PAGE_SIZE) loaded_end
  end.

Fixpoint unload_pages (fuel : nat) (page loaded_end : Z) : call paging bool :=
  match fuel with
  | O => fun _ => Stuck
  | S fuel =>
      if negb (page <? loaded_end) then ret true else
      physical <~ do (paging_unmap_page page);
      if physical =? 0 then ret false else
      update (free_frame physical) ;~ unload_pages fuel (page +32 PAGE_SIZE) loaded_end
  end.

(** The pages below 1 GiB. *)
Definition unload_fuel : nat := Z.to_nat (USER_MAX_ADDRESS / PAGE_SIZE) + 1.

Definition elf_unload_image (loaded_base loaded_end : Z) : call paging bool :=
  if (loaded_base <? USER_MIN_ADDRESS) || (loaded_end <=? loaded_base) || flag loaded_base (PAGE_SIZE - 1) ||
     (USER_MAX_ADDRESS <? loaded_end) || flag loaded_end (PAGE_SIZE - 1)
  then ret false else
  ok <~ all_mapped unload_fuel loaded_base loaded_end;
  if negb ok then ret false else unload_pages unload_fuel loaded_base loaded_end.

(** ** The self test with real pages *)

(** From [cleanup:] on; [image_loaded] is the image that is still to be unloaded. *)
Definition runtime_cleanup (kernel_directory test_directory : Z) (image_loaded : option image) (result : bool) : call paging bool :=
  result <~ match image_loaded with
            | Some img => ok <~ elf_unload_image (loaded_base img) (loaded_end img); ret (ok && result)
            | None => ret result
            end;
  ok <~ do (paging_switch_address_space kernel_directory);
  if negb ok then ret false else
  ok <~ do (paging_destroy_address_space test_directory);
  ret (ok && result).

(** The attempts to give user mode a page of the kernel, a frame of the kernel, and one frame twice;
    [true] when they were refused. *)
Definition runtime_refusals : call paging bool :=
  ok <~ do (paging_protect_page PAGE_SIZE (Z.lor PAGE_FLAG_USER PAGE_FLAG_WRITABLE));
  if ok : bool then ret false else
  physical <~ do (paging_unmap_page PAGE_SIZE);
  if negb (physical =? 0) then ret false else
  kernel_frame <~ do alloc_frame;
  ok <~ (if kernel_frame =? 0 then ret true
         else do (paging_map_page 0x02000000 kernel_frame (Z.lor PAGE_FLAG_USER PAGE_FLAG_WRITABLE)));
  if ok : bool then
    (if kernel_frame =? 0 then ret tt else
     is_mapped <~ ask (fun s => paging_is_mapped s 0x02000000);
     (if is_mapped : bool then _ <~ do (paging_unmap_page 0x02000000); ret tt else ret tt) ;~
     update (free_frame kernel_frame)) ;~ ret false
  else
  update (free_frame kernel_frame) ;~
  user_frame <~ do alloc_user_frame;
  ok <~ (if user_frame =? 0 then ret false
         else do (paging_map_page 0x02000000 user_frame (Z.lor PAGE_FLAG_USER PAGE_FLAG_WRITABLE)));
  again <~ (if negb ok then ret true
            else do (paging_map_page 0x02001000 user_frame (Z.lor PAGE_FLAG_USER PAGE_FLAG_WRITABLE)));
  if again : bool then
    is_mapped <~ ask (fun s => paging_is_mapped s 0x02001000);
    (if is_mapped : bool then _ <~ do (paging_unmap_page 0x02001000); ret tt else ret tt) ;~
    is_mapped <~ ask (fun s => paging_is_mapped s 0x02000000);
    (if is_mapped : bool then _ <~ do (paging_unmap_page 0x02000000); ret tt else ret tt) ;~
    (if negb (user_frame =? 0) then update (free_frame user_frame) else ret tt) ;~ ret false
  else
  physical <~ do (paging_unmap_page 0x02000000);
  update (free_frame user_frame) ;~ ret (physical =? user_frame).

Definition runtime_image : list Z :=
  let image := set_u32 test_image ELF_ENTRY_OFFSET 0x02000000 in
  let image := set_u32 image (ELF32_HEADER_SIZE + ELF_PT_VADDR_OFFSET) 0x02000000 in
  arr_set (arr_set (arr_set image 117 0xEF) 118 0x05) 119 0xA5.

(** The checks after a load: the first five bytes, and unloading once but not twice. *)
Definition runtime_contents (img : image) : call paging bool :=
  let byte k := access (fun s => load_byte s (entry img +32 k)) in
  b0 <~ byte 0; if negb (b0 =? 0xC3) then ret false else
  b1 <~ byte 1; if negb (b1 =? 0xEF) then ret false else
  b2 <~ byte 2; if negb (b2 =? 0x05) then ret false else
  b3 <~ byte 3; if negb (b3 =? 0xA5) then ret false else
  b4 <~ byte 4; if negb (b4 =? 0) then ret false else
  ok <~ elf_unload_image (loaded_base img) (loaded_end img);
  if negb ok then ret false else
  is_mapped <~ ask (fun s => paging_is_mapped s (loaded_base img));
  if is_mapped : bool then ret false else
  again <~ elf_unload_image (loaded_base img) (loaded_end img);
  ret (negb again).

(** One load with its checks; the image left to unload, and whether the test goes on. *)
Definition runtime_load (e : entropy) (image : list Z) (load_bias_state : Z) (bounds_ok : ElfLoad.image -> bool)
    : call paging (option ElfLoad.image * bool * Z) :=
  r <~ elf_load_image e image load_bias_state;
  let '(loaded, load_bias_state) := r in
  match loaded with
  | None => ret (None, false, load_bias_state)
  | Some img =>
      is_mapped <~ ask (fun s => paging_is_mapped s (loaded_base img));
      executable <~ ask (fun s => paging_validate_user_execute s (entry img));
      if negb (bounds_ok img) || negb is_mapped || negb executable then ret (Some img, false, load_bias_state) else
      ok <~ runtime_contents img;
      ret (None, ok, load_bias_state)
  end.

Definition elf_loader_runtime_self_test (e : entropy) (load_bias_state : Z) : call paging (bool * Z) :=
  kernel_directory <~ ask paging_kernel_directory;
  test_directory <~ do paging_create_address_space;
  ok <~ (if test_directory =? 0 then ret false else do (paging_switch_address_space test_directory));
  if negb ok then
    current <~ ask paging_current_directory;
    (if negb (test_directory =? 0) && (current =? kernel_directory)
     then _ <~ do (paging_destroy_address_space test_directory); ret tt else ret tt) ;~
    ret (false, load_bias_state)
  else
  let cleanup image_loaded result load_bias_state :=
    result <~ runtime_cleanup kernel_directory test_directory image_loaded result; ret (result, load_bias_state) in
  ok <~ runtime_refusals;
  if negb ok then cleanup None false load_bias_state else
  r <~ runtime_load e runtime_image load_bias_state (fun img =>
    (entry img =? 0x02000000) && (loaded_base img =? 0x02000000) && (loaded_end img =? 0x02001000));
  let '(image_loaded, ok, load_bias_state) := r in
  if negb ok then cleanup image_loaded false load_bias_state else
  let image := set_u32 (set_u32 (set_u16 runtime_image ELF_TYPE_OFFSET ELF_ET_DYN) ELF_ENTRY_OFFSET 0)
    (ELF32_HEADER_SIZE + ELF_PT_VADDR_OFFSET) 0 in
  r <~ runtime_load e image load_bias_state (fun img =>
    negb ((entry img <? USER_DYN_BASE_MIN) || (loaded_base img <? USER_DYN_BASE_MIN) || (loaded_end img <=? loaded_base img) ||
          (entry img <? loaded_base img) || (loaded_end img <=? entry img)));
  let '(image_loaded, ok, load_bias_state) := r in
  cleanup image_loaded ok load_bias_state.
