(* ===== verification/ElfLoadSpec.v ===== *)
(** * What the loader does

    Loading either fails and leaves the pages and the frames as they were, or it maps exactly the
    pages of the segments, with the permissions of the segment, holding the bytes of the file
    followed by zeros. Unloading gives everything back. *)

From Stdlib Require Import String.
From S2P Require Import Prelude Checked KernelCall Pmm PmmSpec PagingState PagingPae Paging PagingEntry PagingForest PagingView PagingInv PagingOps PagingMap PagingProtect PagingUnmap PagingSpaces PagingCreate PagingDestroy PagingHw PagingUser PagingTotal PagingClient PagingWork Elf ElfSpec ElfPlace ElfLoad.
Local Open Scope c_scope.
Local Open Scope call_scope.
Local Open Scope Z_scope.

(** ** Writing to mapped pages *)

Section Write.
Context (wide : bool) (d : Z) (F : Z -> owner).

(** [n] bytes at [address] can be written by the kernel and belong to user pages. *)
Definition writable_range (s : paging) (address n : Z) : Prop :=
  forall k, 0 <= k < n -> user_writable (page_entry wide s d ((address + k) / 4096)).

(** Memory changes at those bytes only, where it has the bytes [f]. *)
Record wrote (s : paging) (address lo n : Z) (f : Z -> Z) (s' : paging) : Prop := {
  wrote_state : s' = set_data s (data s');
  wrote_moved : moved wide d F s s';
  wrote_bytes : forall k, lo <= k < n -> data s' !! byte_at wide s d (address + k) = Some (f k);
  wrote_other : forall a, (forall k, lo <= k < n -> a <> byte_at wide s d (address + k)) -> data s' !! a = data s !! a
}.

Lemma byte_at_inj s va va' : inside wide d F s -> is_u32 va -> is_u32 va' ->
  user_entry (page_entry wide s d (va / 4096)) -> user_entry (page_entry wide s d (va' / 4096)) ->
  byte_at wide s d va = byte_at wide s d va' -> va = va'.
Proof using.
  intros Hin Hva Hva' Hu Hu' He. unfold byte_at in He.
  pose proof (frame_of_aligned (page_entry wide s d (va / 4096))) as Ha.
  pose proof (frame_of_aligned (page_entry wide s d (va' / 4096))) as Ha'.
  assert (frame_of (page_entry wide s d (va / 4096)) = frame_of (page_entry wide s d (va' / 4096)) /\ va mod 4096 = va' mod 4096) as [Hf Hm] by dmlia.
  destruct (va_page wide va Hva) as (_ & _ & Hn). destruct (va_page wide va' Hva') as (_ & _ & Hn').
  pose proof (user_page_inj wide d F s Hin _ _ Hn Hn' Hu Hu' Hf). dmlia.
Qed.

(** One store of a loop, and the rest. *)
Lemma wrote_step s address lo n f s' : inside wide d F s -> 0 <= address -> address + n <= 0x40000000 ->
  writable_range s address n -> 0 <= lo < n ->
  let s1 := set_data s (<[byte_at wide s d (address + lo) := f lo]> (data s)) in
  store_byte (address +32 lo) (f lo) s = Some s1 /\ inside wide d F s1 /\ writable_range s1 address n /\
  (wrote s1 address (lo + 1) n f s' -> wrote s address lo n f s').
Proof using.
  intros Hin Ha Hn Hw Hlo s1.
  assert (address +32 lo = address + lo) as Haddr by (rewrite u32_id; [done|unfold is_u32; lia]).
  assert (forall k, 0 <= k < n -> is_u32 (address + k)) as Hu32 by (unfold is_u32; lia).
  destruct (work_store wide d F s (address + lo) (f lo) Hin (Hu32 lo Hlo) (Hw lo Hlo)) as [Hst Hmv].
  rewrite Haddr. split; [done|]. assert (inside wide d F s1) as Hin1 by (by apply inside_data).
  split; [done|]. split; [exact Hw|]. intros [Hst' Hmv' Hb Ho]. change (byte_at wide s1 d) with (byte_at wide s d) in Hb, Ho. split.
  - rewrite Hst'. done.
  - eapply moved_trans; [apply frames_moved_refl|exact Hmv|exact Hmv'].
  - intros k Hk. destruct (decide (k = lo)) as [->|]; [|apply Hb; lia]. rewrite Ho.
    + unfold s1. cbn. apply lookup_insert_eq.
    + intros k' Hk' He. assert (address + lo = address + k'); [|lia].
      assert (forall j, 0 <= j < n -> user_entry (page_entry wide s d ((address + j) / 4096))) as Hue.
      { intros j Hj. destruct (Hw j Hj) as (? & ? & _). done. }
      eapply (byte_at_inj s); [done|apply Hu32; lia|apply Hu32; lia|apply Hue; lia|apply Hue; lia|done].
  - intros a Hk. rewrite Ho by (intros k Hk'; apply Hk; lia). unfold s1. cbn. apply lookup_insert_ne. intros <-.
    by apply (Hk lo); [lia|].
Qed.

Lemma wrote_nothing s address n f : wrote s address n n f s.
Proof using. split; [by destruct s|apply moved_refl|lia|done]. Qed.

Lemma zero_bytes_spec m : forall s address lo n, inside wide d F s -> 0 <= address -> address + n <= 0x40000000 ->
  writable_range s address n -> 0 <= lo -> lo + Z.of_nat m = n ->
  returns (zero_bytes m address lo s) (fun _ s' => inside wide d F s' /\ wrote s address lo n (fun _ => 0) s').
Proof using.
  induction m as [|m IH]; intros s address lo n Hin Ha Hn Hw Hlo Hm; cbn [zero_bytes].
  { replace lo with n by lia. split; [done|apply wrote_nothing]. }
  destruct (wrote_step s address lo n (fun _ => 0) s Hin Ha Hn Hw ltac:(lia)) as (Hst & Hin1 & Hw1 & _).
  unfold call_bind at 1, store. rewrite Hst. eapply returns_weaken; [apply (IH _ address (lo + 1) n); [done..|lia|lia]|].
  intros _ s' [Hin' Hwr]. split; [done|].
  destruct (wrote_step s address lo n (fun _ => 0) s' Hin Ha Hn Hw ltac:(lia)) as (_ & _ & _ & H). by apply H.
Qed.

Lemma copy_bytes_spec data offset m : forall s address lo n, inside wide d F s -> 0 <= address -> address + n <= 0x40000000 ->
  writable_range s address n -> 0 <= lo -> lo + Z.of_nat m = n ->
  0 <= offset -> offset + n <= available data -> is_u32 (available data) ->
  returns (copy_bytes m data offset address lo s)
    (fun _ s' => inside wide d F s' /\ wrote s address lo n (fun k => arr data (offset + k)) s').
Proof using.
  induction m as [|m IH]; intros s address lo n Hin Ha Hn Hw Hlo Hm Ho Hsz Hav; cbn [copy_bytes].
  { replace lo with n by lia. split; [done|apply wrote_nothing]. }
  destruct (wrote_step s address lo n (fun k => arr data (offset + k)) s Hin Ha Hn Hw ltac:(lia)) as (Hst & Hin1 & Hw1 & _).
  unfold is_u32 in Hav. unfold call_bind at 1, value. rewrite (u32_id (offset + lo)) by (unfold is_u32; lia). rewrite byte_in by lia.
  cbn [ret]. unfold call_bind at 1, store. rewrite Hst.
  eapply returns_weaken; [apply (IH _ address (lo + 1) n); [done..|lia|lia|done|done|done]|].
  intros _ s' [Hin' Hwr]. split; [done|].
  destruct (wrote_step s address lo n (fun k => arr data (offset + k)) s' Hin Ha Hn Hw ltac:(lia)) as (_ & _ & _ & H). by apply H.
Qed.
End Write.

Arguments wrote_state {wide d F s address lo n f s'}.
Arguments wrote_moved {wide d F s address lo n f s'}.
Arguments wrote_bytes {wide d F s address lo n f s'}.
Arguments wrote_other {wide d F s address lo n f s'}.

(** ** Giving pages back *)

(** The pages of a list of addresses, all of them user pages of the space. *)
Definition held (wide : bool) (d : Z) (pages : list Z) (s : paging) : Prop :=
  NoDup pages /\ forall p, p ∈ pages -> exists n, p = n * 4096 /\ 1024 <= n < 262144 /\ user_entry (page_entry wide s d n).

Lemma release_pages_spec wide d F pages : forall s, inside wide d F s -> held wide d pages s ->
  returns (release_pages pages s) (fun _ s' => inside wide d F s' /\ moved wide d F s s' /\ data s' = data s /\
    forall n, 0 <= n < 1048576 -> page_entry wide s' d n = if decide (n * 4096 ∈ pages) then 0 else page_entry wide s d n).
Proof.
  induction pages as [|p pages IH]; intros s Hin [Hnd Hh]; cbn [release_pages].
  { split; [done|]. split; [apply moved_refl|]. split; [done|]. intros n _. by rewrite decide_False by apply not_elem_of_nil. }
  apply list.NoDup_cons in Hnd as [Hp Hnd]. destruct (Hh p ltac:(constructor)) as (n & -> & Hn & Hu).
  destruct (work_release wide d F s n Hin Hn Hu) as (s1 & E & Hnz & Hin1 & Hmv1 & Hd1 & Hz & Hoth). revert Hin1 Hmv1 Hd1 Hz Hoth.
  rewrite (bind_do _ _ _ _ _ E). replace (frame_of (page_entry wide s d n) =? 0) with false by lia.
  unfold call_bind at 1, update. generalize (free_frame (frame_of (page_entry wide s d n)) s1) as s2. intros s2 Hin1 Hmv1 Hd1 Hz Hoth.
  eapply returns_weaken; [apply (IH s2 Hin1)|].
  - split; [done|]. intros p' Hp'. destruct (Hh p' ltac:(by constructor)) as (n' & -> & Hn' & Hu'). exists n'. split; [done|]. split; [done|].
    rewrite Hoth; [done|lia|]. intros ->. done.
  - intros _ s' (Hin' & Hmv' & Hd' & He'). split; [done|]. split; [eapply moved_trans; [apply frames_moved_refl|done|done]|].
    split; [congruence|]. intros n' Hn'. rewrite He' by done. destruct (decide (n' * 4096 ∈ pages)) as [Hin2|Hin2].
    + rewrite decide_True; [done|by constructor].
    + destruct (decide (n' = n)) as [->|Hne]; [rewrite decide_True; [done|constructor]|].
      rewrite decide_False; [by apply Hoth|]. intros [?|?]%elem_of_cons; [lia|done].
Qed.

(** ** Mapping the pages of a segment *)

Section Load.
Context (wide : bool) (d : Z) (F : Z -> owner) (s0 : paging).

(** Everything is as at the start. *)
Definition undone (s : paging) : Prop := inside wide d F s /\ moved wide d F s0 s /\ same_entries wide d s0 s.

(** The pages in the list are the ones that were added. *)
Record added (pages : list Z) (s : paging) : Prop := {
  added_inside : inside wide d F s;
  added_moved : moved wide d F s0 s;
  added_held : held wide d pages s;
  added_new : forall n, n * 4096 ∈ pages -> page_entry wide s0 d n = 0;
  added_rest : forall n, 0 <= n < 1048576 -> n * 4096 ∉ pages -> page_entry wide s d n = page_entry wide s0 d n
}.

Lemma release_undone pages s : added pages s -> returns (release_pages pages s) (fun _ s' => undone s').
Proof using.
  intros [Hin Hmv Hh Hnew Hrest]. eapply returns_weaken; [by apply (release_pages_spec wide d F)|].
  intros _ s' (Hin' & Hmv' & _ & He). split; [done|]. split; [eapply moved_trans; [apply frames_moved_refl|done|done]|].
  intros n Hn. rewrite He by done. case_decide as Hp; [by rewrite Hnew|by apply Hrest].
Qed.

Lemma abandon_spec {A} pages s : added pages s -> returns (abandon (A := A) pages s) (fun r s' => r = None /\ undone s').
Proof using. intros Hadd. unfold abandon. eapply returns_bind; [by apply release_undone|]. by intros u s' Hu. Qed.

Lemma added_same pages s s1 : added pages s -> inside wide d F s1 -> moved wide d F s s1 -> same_entries wide d s s1 -> added pages s1.
Proof using.
  intros [_ Hmv (Hnd & Hh) Hnew Hrest] Hin1 Hmv1 He1. split; [done|by eapply moved_trans; [apply frames_moved_refl|..]| |done|].
  - split; [done|]. intros p Hp. destruct (Hh p Hp) as (n & -> & Hn & Hu). exists n. rewrite He1 by lia. done.
  - intros n Hn Hp. rewrite He1 by done. by apply Hrest.
Qed.

(** The bytes of the user pages in [P]. *)
Definition same_bytes (P : Z -> Prop) (s s' : paging) : Prop :=
  forall n o, P n -> 0 <= n < 1048576 -> 0 <= o < 4096 -> user_entry (page_entry wide s d n) ->
    data s' !! (frame_of (page_entry wide s d n) + o) = data s !! (frame_of (page_entry wide s d n) + o).

(** Bytes written to other pages. *)
Lemma wrote_same_bytes s address lo n f s' (P : Z -> Prop) : inside wide d F s -> wrote wide d F s address lo n f s' ->
  0 <= address -> address + n <= 0x40000000 -> 0 <= lo -> writable_range wide d s address n ->
  (forall k, lo <= k < n -> ~ P ((address + k) / 4096)) -> same_bytes P s s'.
Proof using.
  intros Hin Hwr Ha Hn Hlo Hwb HP m o Hm Hmr Ho Hu. apply (wrote_other Hwr). intros k Hk He.
  apply (HP k Hk). assert (is_u32 (address + k)) as Hu32 by (unfold is_u32; lia).
  destruct (Hwb k ltac:(lia)) as (H1 & H4 & _). destruct (va_page wide _ Hu32) as (_ & _ & Hnr).
  unfold byte_at in He. pose proof (frame_of_aligned (page_entry wide s d m)) as Hal.
  pose proof (frame_of_aligned (page_entry wide s d ((address + k) / 4096))) as Hal'.
  assert (frame_of (page_entry wide s d m) = frame_of (page_entry wide s d ((address + k) / 4096))) as Hf by dmlia.
  by rewrite <- (user_page_inj wide d F s Hin m _ Hmr Hnr Hu (conj H1 H4) Hf).
Qed.

(** A page that was just added and cleared. *)
Lemma cleared_page s n s1 : inside wide d F s -> 1024 <= n < 262144 -> inside wide d F s1 ->
  (exists a, one_page wide d n (entry_for (paging_pae_nx_enabled s) a 6) s s1) -> data s1 = data s ->
  returns (zero_bytes (Z.to_nat PAGE_SIZE) (n * 4096) 0 s1) (fun _ s' => inside wide d F s' /\ moved wide d F s1 s' /\ words s' = words s1 /\
    (forall o, 0 <= o < 4096 -> data s' !! (frame_of (page_entry wide s1 d n) + o) = Some 0) /\
    same_bytes (fun m => m <> n) s1 s').
Proof using.
  intros Hin Hn Hin1 (a & (Hp & _ & H2 & H4 & _) & _) Hd1.
  assert (forall k, 0 <= k < 4096 -> (n * 4096 + k) / 4096 = n) as Hdiv by (intros; dmlia).
  assert (writable_range wide d s1 (n * 4096) 4096) as Hw by (intros k Hk; rewrite Hdiv by done; done).
  change PAGE_SIZE with 4096.
  eapply returns_weaken; [apply (zero_bytes_spec wide d F _ s1 (n * 4096) 0 4096); [done|lia|lia|done|lia|lia]|].
  intros _ s' [Hin' Hwr]. split; [done|]. split; [apply Hwr|]. split; [rewrite (wrote_state Hwr); done|]. split.
  - intros o Ho. rewrite <- (wrote_bytes Hwr o Ho). unfold byte_at. rewrite Hdiv by done. f_equal. f_equal. dmlia.
  - eapply wrote_same_bytes; [done|done|lia|lia|lia|done|]. intros k Hk. rewrite Hdiv by done. auto.
Qed.

(** What mapping the pages from [a] to [b] gives. *)
Record fresh (a b : Z) (s s' : paging) : Prop := {
  fresh_entries : forall n, a <= n < b -> user_writable (page_entry wide s' d n);
  fresh_zero : forall n o, a <= n < b -> 0 <= o < 4096 -> data s' !! (frame_of (page_entry wide s' d n) + o) = Some 0;
  fresh_rest : forall n, 0 <= n < 1048576 -> ~ (a <= n < b) -> page_entry wide s' d n = page_entry wide s d n;
  fresh_bytes : same_bytes (fun n => ~ (a <= n < b)) s s'
}.

Definition page_list (a b : Z) : list Z := (fun n => n * 4096) <$> seqZ a (b - a).

Lemma page_list_in a b p : p ∈ page_list a b <-> exists n, p = n * 4096 /\ a <= n < b.
Proof using. unfold page_list. rewrite list_elem_of_fmap. setoid_rewrite elem_of_seqZ. split; intros (n & ? & ?); exists n; (split; [done|lia]). Qed.

Lemma page_list_cons a b : a < b -> page_list a b = a * 4096 :: page_list (a + 1) b.
Proof using. intros H. unfold page_list. rewrite seqZ_cons by lia. cbn. do 3 f_equal; lia. Qed.

Lemma page_list_nil a b : b <= a -> page_list a b = [].
Proof using. intros H. unfold page_list. by rewrite seqZ_nil by lia. Qed.

Lemma added_cons s1 n pages s s2 : added pages s -> 1024 <= n < 262144 -> inside wide d F s1 -> moved wide d F s s1 ->
  page_entry wide s d n = 0 -> (exists a, one_page wide d n (entry_for (paging_pae_nx_enabled s) a 6) s s1) ->
  inside wide d F s2 -> moved wide d F s1 s2 -> words s2 = words s1 -> added (pages ++ [n * 4096]) s2.
Proof using.
  intros [Hin Hmv (Hnd & Hh) Hnew Hrest] Hn Hin1 Hmv1 H0 (a & (Hp & _ & _ & H4 & _) & Hoth) Hin2 Hmv2 Hw2.
  pose proof (same_entries_words wide d s1 s2 Hw2) as He2.
  assert (n * 4096 ∉ pages) as Hnp.
  { intros Hp'. destruct (Hh _ Hp') as (n' & E & _ & Hu & _). replace n' with n in Hu by lia. by rewrite H0 in Hu. }
  split.
  - done.
  - eapply moved_trans; [apply frames_moved_refl|exact Hmv|]. eapply moved_trans; [apply frames_moved_refl|exact Hmv1|exact Hmv2].
  - split.
    + apply list.NoDup_app. split; [done|]. split; [|apply NoDup_singleton]. by intros x Hx ->%list_elem_of_singleton.
    + intros p [Hp'|Hp']%elem_of_app.
      * destruct (Hh p Hp') as (n' & -> & Hn' & Hu). exists n'. split; [done|]. split; [done|]. rewrite He2, Hoth; [done|lia| |lia].
        by intros ->.
      * apply list_elem_of_singleton in Hp' as ->. exists n. split; [done|]. split; [done|]. rewrite He2 by lia. done.
  - intros n' [Hp'|Hp']%elem_of_app; [by apply Hnew|]. apply list_elem_of_singleton in Hp'. replace n' with n by lia.
    rewrite <- Hrest by (done || lia). done.
  - intros n' Hn' Hni. rewrite not_elem_of_app in Hni. destruct Hni as [H1 H2]. rewrite He2 by done.
    rewrite Hoth; [by apply Hrest|done|]. intros ->. apply H2. by apply list_elem_of_singleton.
Qed.

(** The first page and the rest. *)
Lemma fresh_cons a b s s1 s2 s3 : a < b -> 0 <= a -> b <= 1048576 -> inside wide d F s1 ->
  (exists x, one_page wide d a (entry_for (paging_pae_nx_enabled s) x 6) s s1) -> data s1 = data s -> words s2 = words s1 ->
  inside wide d F s -> page_entry wide s d a = 0 ->
  (forall o, 0 <= o < 4096 -> data s2 !! (frame_of (page_entry wide s1 d a) + o) = Some 0) ->
  same_bytes (fun m => m <> a) s1 s2 -> fresh (a + 1) b s2 s3 -> fresh a b s s3.
Proof using.
  intros Hab Ha Hb Hin1 (x & (Hp & _ & Hw & H4 & _) & Hoth) Hd1 Hw2 Hin H0 Hz Hsb [He Hzz Hr Hbb].
  pose proof (same_entries_words wide d s1 s2 Hw2) as He2.
  assert (page_entry wide s3 d a = page_entry wide s1 d a) as Ea by (rewrite Hr, He2 by lia; done).
  split.
  - intros n Hn. destruct (decide (n = a)) as [->|]; [by rewrite Ea|apply He; lia].
  - intros n o Hn Ho. destruct (decide (n = a)) as [->|]; [|apply Hzz; lia]. rewrite Ea, <- (Hz o Ho).
    rewrite <- (He2 a) by lia. apply Hbb; [lia|lia|done|]. rewrite He2 by lia. done.
  - intros n Hn Hne. rewrite Hr, He2, Hoth by lia. done.
  - intros n o Hn Hnr Ho Hu. assert (n <> a) as Hna by lia.
    assert (page_entry wide s2 d n = page_entry wide s d n) as En by (rewrite He2, Hoth by lia; done).
    assert (page_entry wide s1 d n = page_entry wide s d n) as En1 by (by apply Hoth).
    rewrite <- En at 1. rewrite Hbb by (rewrite ?En; done || lia). rewrite En, <- En1. rewrite Hsb by (rewrite ?En1; done). by rewrite Hd1.
Qed.

Lemma map_image_pages_spec fuel : forall a b pages s, 1024 <= a -> a <= b <= 262144 -> added pages s ->
  Z.of_nat (length pages) <= 1024 -> 1024 - Z.of_nat (length pages) < Z.of_nat fuel ->
  returns (map_pages fuel (a * 4096) (b * 4096) pages s) (fun r s' =>
    match r with
    | None => undone s'
    | Some pages' => pages' = pages ++ page_list a b /\ added pages' s' /\ fresh a b s s' /\ Z.of_nat (length pages') <= 1024
    end).
Proof using.
  induction fuel as [|fuel IH]; intros a b pages s Ha Hb Hadd Hlen Hfuel; [lia|]. cbn [map_pages].
  destruct (Z.ltb_spec (a * 4096) (b * 4096)) as [Hlt|Hge]; cbn [negb].
  2: { rewrite page_list_nil, app_nil_r by lia. split; [done|]. split; [done|]. split; [|done].
       split; [lia|lia|done|]. by intros n o _ _ _ _. }
  pose proof (added_inside _ _ Hadd) as Hin.
  unfold call_bind at 1, ask. rewrite (work_is_mapped wide s a (in_ok _ _ _ _ Hin)) by lia. rewrite (in_current _ _ _ _ Hin).
  unfold ELF_MAX_IMAGE_PAGES. destruct (_ || _) eqn:Eg.
  { eapply returns_weaken; [by apply abandon_spec|]. intros r s' [-> Hu]. done. }
  apply orb_false_elim in Eg as [Glen Gm].
  destruct (alloc_user_frame s) as [pa s1] eqn:E. rewrite (bind_do _ _ _ _ _ E).
  destruct (work_take wide d F s a 6 pa s1 Hin ltac:(lia) ltac:(done) ltac:(done) E) as [Hzero Hsome].
  pose proof (added_moved _ _ Hadd) as Hmv.
  destruct (Z.eqb_spec pa 0) as [->|Hnz].
  { destruct (Hzero eq_refl) as (Hin1 & Hmv1 & Hd1 & He1). unfold call_bind at 1. cbn [ret negb].
    unfold call_bind at 1. cbn [ret].
    eapply returns_weaken; [by apply abandon_spec, (added_same pages s)|]. by intros r s' [-> Hu]. }
  change (Z.lor PAGE_FLAG_USER PAGE_FLAG_WRITABLE) with 6.
  destruct (paging_map_page (a * 4096) pa 6 s1) as [ok s2] eqn:Em. rewrite (bind_do _ _ _ _ _ Em).
  destruct (Hsome Hnz ok s2 eq_refl) as [Hfail Hok]. destruct ok; cbn [negb].
  2: { destruct (Hfail eq_refl) as (Hin2 & Hmv2 & Hd2 & He2). unfold call_bind at 1, update. revert Hin2 Hmv2 Hd2 He2.
       generalize (free_frame pa s2) as s3. intros s3 Hin2 Hmv2 Hd2 He2.
       eapply returns_weaken; [by apply abandon_spec, (added_same pages s)|]. by intros r s' [-> Hu]. }
  destruct (Hok eq_refl) as (Hin2 & Hmv2 & Hd2 & H0 & Hone).
  assert (exists x, one_page wide d a (entry_for (paging_pae_nx_enabled s) x 6) s s2) as Hone' by (by exists pa).
  eapply returns_bind; [by apply (cleared_page s a s2 Hin ltac:(lia))|]. intros _ s3 (Hin3 & Hmv3 & Hw3 & Hz3 & Hsb3).
  replace (a * 4096 +32 PAGE_SIZE) with ((a + 1) * 4096) by (unfold PAGE_SIZE; rewrite u32_id by (unfold is_u32; lia); lia).
  assert (added (pages ++ [a * 4096]) s3) as Hadd3 by (apply (added_cons s2 a pages s s3); done || lia).
  eapply returns_weaken; [apply (IH (a + 1) b _ s3); [lia|lia|done|rewrite length_app; cbn; lia|rewrite length_app; cbn; lia]|].
  intros [pages'|] s4; [|done]. intros (-> & Hadd4 & Hfr & Hl4). rewrite (page_list_cons a b) by lia. rewrite <- app_assoc in *.
  split; [done|]. split; [done|]. split; [|done].
  apply (fresh_cons a b s s2 s3 s4); done || lia.
Qed.

(** ** The final permissions *)

(** The pages from [a] to [b] get an entry with the permissions [flags] and keep their frames. *)
Record sealed (a b flags : Z) (s s' : paging) : Prop := {
  sealed_entries : forall n, a <= n < b ->
    entry_for (paging_pae_nx_enabled s) (frame_of (page_entry wide s d n)) flags (page_entry wide s' d n);
  sealed_rest : forall n, 0 <= n < 1048576 -> ~ (a <= n < b) -> page_entry wide s' d n = page_entry wide s d n;
  sealed_data : data s' = data s
}.

Lemma protect_pages_spec flags fuel : is_u32 (segment_flags flags) -> flag (segment_flags flags) 4 = true ->
  forall a b pages s, 1024 <= a -> a <= b <= 262144 -> b - a < Z.of_nat fuel ->
  added pages s -> (forall n, a <= n < b -> n * 4096 ∈ pages) ->
  returns (protect_pages fuel (a * 4096) (b * 4096) flags pages s) (fun ok s' =>
    if ok then added pages s' /\ sealed a b (segment_flags flags) s s' else undone s').
Proof using.
  intros Hfu Hf4. induction fuel as [|fuel IH]; intros a b pages s Ha Hb Hfuel Hadd Hall; [lia|]. cbn [protect_pages].
  destruct (Z.ltb_spec (a * 4096) (b * 4096)) as [Hlt|Hge]; cbn [negb].
  2: { split; [done|]. split; [lia|done|done]. }
  pose proof (added_inside _ _ Hadd) as Hin.
  destruct (paging_protect_page (a * 4096) (segment_flags flags) s) as [ok s1] eqn:E. rewrite (bind_do _ _ _ _ _ E).
  destruct (work_protect wide d F s a _ ok s1 Hin ltac:(lia) Hfu Hf4 E) as (Hin1 & Hmv1 & Hfail & Hyes).
  assert (data s1 = data s) as Hd1.
  { destruct (protect_page_ok wide s (a * 4096) (segment_flags flags) ok s1 (in_ok _ _ _ _ Hin)) as [_ (_ & ? & _) _ _ _ _ _]; try done.
    unfold is_u32; lia. }
  destruct ok; cbn [negb].
  2: { eapply returns_bind; [apply (release_undone pages), (added_same pages s); [done..|exact (Hfail eq_refl)]|].
       by intros r s2 Hu. }
  destruct (Hyes eq_refl) as (Hue & Hent & Hoth).
  assert (added pages s1) as Hadd1.
  { destruct Hadd as [_ Hmv (Hnd & Hh) Hnew Hrest]. split; [done|by eapply moved_trans; [apply frames_moved_refl|..]| |done|].
    - split; [done|]. intros p Hp. destruct (Hh p Hp) as (n & -> & Hn & Hu). exists n. split; [done|]. split; [done|].
      destruct (decide (n = a)) as [->|]; [|rewrite Hoth by lia; done]. destruct Hent as (Hp' & _ & _ & H4 & _). split; [done|by rewrite H4].
    - intros n Hn Hp. rewrite Hoth; [by apply Hrest|done|]. intros ->. apply Hp, Hall. lia. }
  replace (a * 4096 +32 PAGE_SIZE) with ((a + 1) * 4096) by (unfold PAGE_SIZE; rewrite u32_id by (unfold is_u32; lia); lia).
  assert (paging_pae_nx_enabled s1 = paging_pae_nx_enabled s) as Hnx by (by apply (config_fields wide s s1 (mv_config _ _ _ _ _ Hmv1))).
  eapply returns_weaken; [apply (IH (a + 1) b pages s1); [lia|lia|lia|done|intros n Hn; apply Hall; lia]|].
  intros [|] s2; [|done]. intros [Hadd2 [Hs Hr Hd]]. split; [done|]. rewrite Hnx in Hs. split.
  - intros n Hn. destruct (decide (n = a)) as [->|]; [rewrite Hr by lia; done|]. rewrite <- (Hoth n) by lia. apply Hs. lia.
  - intros n Hn Hne. rewrite Hr, Hoth by lia. done.
  - congruence.
Qed.

(** ** One segment *)

(** The bytes of a segment in memory. *)
Definition segment_byte (data : list Z) (h : program_header) (bias va : Z) : Z :=
  if (p_vaddr h + bias <=? va) && (va <? p_vaddr h + bias + p_filesz h)
  then arr data (p_offset h + (va - (p_vaddr h + bias))) else 0.

Definition seg_first (h : program_header) (bias : Z) : Z := (p_vaddr h + bias) / 4096.
Definition seg_last (h : program_header) (bias : Z) : Z := (p_vaddr h + bias + p_memsz h + 4095) / 4096.

(** A loaded segment: permissions and contents of its pages. *)
Definition segment_loaded (data : list Z) (h : program_header) (bias : Z) (s : paging) : Prop :=
  forall n, seg_first h bias <= n < seg_last h bias ->
    let v := page_entry wide s d n in
    entry_for (paging_pae_nx_enabled s0) (frame_of v) (segment_flags (p_flags h)) v /\
    forall o, 0 <= o < 4096 -> PagingState.data s !! (frame_of v + o) = Some (segment_byte data h bias (n * 4096 + o)).

Lemma wrote_at s address n f s' va : inside wide d F s -> wrote wide d F s address 0 n f s' ->
  0 <= address -> address + n <= 0x40000000 -> writable_range wide d s address n ->
  is_u32 va -> user_entry (page_entry wide s d (va / 4096)) ->
  data s' !! byte_at wide s d va =
    if (address <=? va) && (va <? address + n) then Some (f (va - address)) else data s !! byte_at wide s d va.
Proof using.
  intros Hin Hwr Ha Hn Hw Hva Hu. destruct (_ && _) eqn:E.
  - split_bools. rewrite <- (wrote_bytes Hwr (va - address)) by lia. do 2 f_equal. lia.
  - apply (wrote_other Hwr). intros k Hk He. assert (va = address + k); [|lia].
    destruct (Hw k Hk) as (? & ? & _). eapply (byte_at_inj wide d F s); [done|done|unfold is_u32; lia|done|done|done].
Qed.

Lemma segment_flags_ok flags : is_u32 (segment_flags flags) /\ flag (segment_flags flags) 4 = true.
Proof using. unfold segment_flags. by destruct (flag flags ELF_FLAG_WRITABLE), (flag flags ELF_FLAG_EXECUTABLE). Qed.

(** The two loops that fill a segment. *)
Lemma fill_segment_spec data h bias s1 : header_u32 h -> p_filesz h <= p_memsz h -> p_offset h + p_filesz h <= available data ->
  is_u32 (available data) -> 0 <= bias -> p_vaddr h + bias + p_memsz h <= 0x40000000 ->
  inside wide d F s1 ->
  let a := seg_first h bias in let b := seg_last h bias in
  (forall n, a <= n < b -> user_writable (page_entry wide s1 d n)) ->
  (forall n o, a <= n < b -> 0 <= o < 4096 -> PagingState.data s1 !! (frame_of (page_entry wide s1 d n) + o) = Some 0) ->
  returns ((copy_bytes (Z.to_nat (p_filesz h)) data (p_offset h) (p_vaddr h + bias) 0 ;~
            zero_bytes (Z.to_nat (b * 4096 - (p_vaddr h + bias + p_filesz h))) (p_vaddr h + bias + p_filesz h) 0) s1)
    (fun _ s2 => inside wide d F s2 /\ moved wide d F s1 s2 /\ words s2 = words s1 /\
      (forall n o, a <= n < b -> 0 <= o < 4096 ->
         PagingState.data s2 !! (frame_of (page_entry wide s1 d n) + o) = Some (segment_byte data h bias (n * 4096 + o))) /\
      same_bytes (fun n => ~ (a <= n < b)) s1 s2).
Proof using.
  intros (_ & Hoff & Hva & Hfs & Hms & _) Hle Hsz Hav Hbias Hend Hin a b Hw Hz. unfold is_u32 in Hoff, Hva, Hfs, Hms.
  set (va0 := p_vaddr h + bias) in *.
  assert (a * 4096 <= va0 /\ va0 + p_memsz h <= b * 4096 /\ b * 4096 <= 0x40000000 /\ 0 <= a) as (A1 & A2 & A3 & A4)
    by (unfold a, b, seg_first, seg_last; fold va0; dmlia).
  assert (forall x, va0 <= x < b * 4096 -> a <= x / 4096 < b) as Hpg by (intros; dmlia).
  assert (writable_range wide d s1 va0 (p_filesz h)) as Hw1 by (intros k Hk; apply Hw, Hpg; lia).
  eapply returns_bind; [apply (copy_bytes_spec wide d F data (p_offset h) _ s1 va0 0 (p_filesz h)); done || lia|].
  intros _ s2 [Hin2 Hwr2]. assert (words s2 = words s1) as Hw2 by (rewrite (wrote_state Hwr2); done).
  assert (forall n, page_entry wide s2 d n = page_entry wide s1 d n) as He2 by (intros; unfold page_entry; by rewrite Hw2).
  assert (writable_range wide d s2 (va0 + p_filesz h) (b * 4096 - (va0 + p_filesz h))) as Hw3
    by (intros k Hk; rewrite He2; apply Hw, Hpg; lia).
  eapply returns_weaken; [apply (zero_bytes_spec wide d F _ s2 (va0 + p_filesz h) 0 (b * 4096 - (va0 + p_filesz h))); done || lia|].
  intros _ s3 [Hin3 Hwr3]. assert (words s3 = words s2) as Hw4 by (rewrite (wrote_state Hwr3); done).
  split; [done|]. split; [eapply moved_trans; [apply frames_moved_refl|apply Hwr2|apply Hwr3]|]. split; [congruence|]. split.
  - intros n o Hn Ho. assert ((n * 4096 + o) / 4096 = n /\ (n * 4096 + o) mod 4096 = o) as [E1 E2] by (clear - Ho; dmlia).
    assert (frame_of (page_entry wide s1 d n) + o = byte_at wide s2 d (n * 4096 + o)) as Hb2
      by (unfold byte_at; rewrite E1, E2, He2; done).
    assert (byte_at wide s2 d (n * 4096 + o) = byte_at wide s1 d (n * 4096 + o)) as Hb1 by (unfold byte_at; by rewrite He2).
    assert (user_entry (page_entry wide s1 d ((n * 4096 + o) / 4096))) as Hu by (rewrite E1; destruct (Hw n Hn) as (? & ? & _); done).
    assert (is_u32 (n * 4096 + o)) as Hu32 by (unfold is_u32; lia).
    rewrite Hb2, (wrote_at s2 (va0 + p_filesz h) (b * 4096 - (va0 + p_filesz h)) (fun _ => 0) s3 (n * 4096 + o)); try done; [|lia|lia|by rewrite He2].
    unfold segment_byte. fold va0. destruct (_ && _) eqn:G1; split_bools.
    + by replace ((va0 <=? n * 4096 + o) && (n * 4096 + o <? va0 + p_filesz h)) with false by lia.
    + rewrite Hb1, (wrote_at s1 va0 (p_filesz h) (fun k => arr data (p_offset h + k)) s2 (n * 4096 + o)); try done; [|lia|lia].
      destruct ((va0 <=? n * 4096 + o) && (n * 4096 + o <? va0 + p_filesz h)); [done|].
      rewrite <- Hb1, <- Hb2. by apply Hz.
  - intros n o Hn Hnr Ho Hu.
    assert (same_bytes (fun n => ~ (a <= n < b)) s1 s2) as S1
      by (eapply (wrote_same_bytes s1 va0 0 (p_filesz h)); [done|done|lia|lia|lia|done|intros k Hk HP; apply HP, Hpg; lia]).
    assert (same_bytes (fun n => ~ (a <= n < b)) s2 s3) as S2
      by (eapply (wrote_same_bytes s2 (va0 + p_filesz h) 0); [done|done|lia|lia|lia|done|intros k Hk HP; apply HP, Hpg; lia]).
    rewrite <- S1 by done. rewrite <- He2 in *. by apply S2.
Qed.

(** Pages outside of a range, with their contents. *)
Definition kept_outside (a b : Z) (s s' : paging) : Prop :=
  (forall n, 0 <= n < 1048576 -> ~ (a <= n < b) -> page_entry wide s' d n = page_entry wide s d n) /\
  same_bytes (fun n => ~ (a <= n < b)) s s'.

Record segment_done (data : list Z) (h : program_header) (bias : Z) (l : loading) (s : paging) (l' : loading) (s' : paging) : Prop := {
  sd_range : p_vaddr h + bias + p_memsz h <= 0x40000000 /\ 1024 <= seg_first h bias < seg_last h bias;
  sd_stack : 0x1800000 <= p_vaddr h + bias \/ p_vaddr h + bias + p_memsz h <= 0x800000;
  sd_pages : mapped_pages l' = mapped_pages l ++ page_list (seg_first h bias) (seg_last h bias);
  sd_bounds : image_base l' = Z.min (seg_first h bias * 4096) (image_base l) /\
    image_end l' = Z.max (seg_last h bias * 4096) (image_end l);
  sd_count : Z.of_nat (length (mapped_pages l')) <= 1024;
  sd_added : added (mapped_pages l') s';
  sd_loaded : segment_loaded data h bias s';
  sd_kept : kept_outside (seg_first h bias) (seg_last h bias) s s'
}.

Lemma fill_protect {A} data h bias l s s1 b (k : bool -> A) : header_u32 h -> p_filesz h <= p_memsz h -> p_offset h + p_filesz h <= available data ->
  is_u32 (available data) -> 0 <= bias -> p_memsz h <> 0 -> p_vaddr h + bias + p_memsz h <= 0x40000000 -> b = seg_last h bias ->
  1024 <= seg_first h bias -> added (l ++ page_list (seg_first h bias) b) s1 -> fresh (seg_first h bias) b s s1 ->
  Z.of_nat (length (l ++ page_list (seg_first h bias) b)) <= 1024 ->
  returns ((copy_bytes (Z.to_nat (p_filesz h)) data (p_offset h) (p_vaddr h + bias) 0 ;~
      zero_bytes (Z.to_nat (b * 4096 - (p_vaddr h + bias + p_filesz h))) (p_vaddr h + bias + p_filesz h) 0 ;~
      ok <~ protect_pages page_fuel (seg_first h bias * 4096) (b * 4096) (p_flags h) (l ++ page_list (seg_first h bias) b);
      ret (k ok)) s1) (fun r s' => exists ok, r = k ok /\ if ok then
        added (l ++ page_list (seg_first h bias) b) s' /\ segment_loaded data h bias s' /\ kept_outside (seg_first h bias) b s s'
        else undone s').
Proof using.
  intros Hh Hle Hsz Hav Hbias Hmz Hend -> Hlo Hadd Hfr Hlen. pose proof (added_inside _ _ Hadd) as Hin1. set (a := seg_first h bias) in *. set (b := seg_last h bias) in *.
  pose proof Hh as (_ & _ & Hva & _ & Hms & _). unfold is_u32 in Hva, Hms.
  assert (a < b <= 262144) as Hab by (unfold a, b, seg_first, seg_last; dmlia).
  destruct Hfr as [He Hz Hr Hb]. pose proof (fill_segment_spec data h bias s1 Hh Hle Hsz Hav Hbias Hend Hin1 He Hz) as Hfill.
  unfold call_bind at 1 in Hfill. unfold call_bind at 1.
  destruct (copy_bytes _ _ _ _ _ s1) as [u s2| | |]; [|done..]. unfold call_bind at 1.
  destruct (zero_bytes _ _ _ s2) as [u' s3| | |]; [|done..]. cbn [returns] in Hfill. clear u u'.
  destruct Hfill as (Hin3 & Hmv3 & Hw3 & Hbytes & Hsb). pose proof (same_entries_words wide d s1 s3 Hw3) as He3.
  assert (added (l ++ page_list a b) s3) as Hadd3 by (by eapply added_same).
  destruct (segment_flags_ok (p_flags h)) as [Hf1 Hf2].
  assert (b - a <= 1024) as Hcount.
  { rewrite length_app in Hlen. unfold page_list in Hlen. rewrite length_fmap, length_seqZ in Hlen. lia. }
  eapply returns_bind; [apply (protect_pages_spec (p_flags h) page_fuel Hf1 Hf2 a b _ s3); [lia|lia|unfold page_fuel, ELF_MAX_IMAGE_PAGES; lia|done|]|].
  { intros n Hn. apply elem_of_app. right. apply page_list_in. by exists n. }
  intros ok s4 Hok. exists ok. split; [done|]. destruct ok; [|done]. destruct Hok as [Hadd4 [Hs4 Hr4 Hd4]].
  split; [done|]. assert (paging_pae_nx_enabled s3 = paging_pae_nx_enabled s0) as Hnx
    by (by apply (config_fields wide s0 s3 (mv_config _ _ _ _ _ (added_moved _ _ Hadd3)))).
  split; [|split].
  - intros n Hn. specialize (Hs4 n Hn). rewrite Hnx in Hs4. cbv zeta. destruct Hs4 as (P1 & P2 & P3). rewrite P2. split; [by split|].
    intros o Ho. rewrite Hd4, He3 by lia. by apply Hbytes.
  - intros n Hn Hne. rewrite Hr4, He3, Hr by done. done.
  - intros n o Hn Hnr Ho Hu. rewrite Hd4. rewrite <- (Hb n o) by done. rewrite <- (Hr n) in Hu |- * by done. by apply Hsb.
Qed.

Lemma load_segment_spec data h bias l s : header_u32 h -> p_filesz h <= p_memsz h -> p_offset h + p_filesz h <= available data ->
  is_u32 (available data) -> p_memsz h <> 0 -> is_u32 bias -> added (mapped_pages l) s -> Z.of_nat (length (mapped_pages l)) <= 1024 ->
  returns (load_segment data bias (p_offset h) (p_vaddr h) (p_filesz h) (p_memsz h) (p_flags h) l s)
    (fun r s' => match r with None => undone s' | Some l' => segment_done data h bias l s l' s' end).
Proof using.
  intros Hh Hle Hsz Hav Hmz Hbias Hadd Hlen. pose proof Hh as (_ & Hoff & Hva & Hfs & Hms & _). unfold is_u32 in *.
  assert (forall r s', r = None /\ undone s' -> match r with None => undone s' | Some l' => segment_done data h bias l s l' s' end) as Hgu
    by (intros r s' [-> ?]; done).
  unfold load_segment, USER_MAX_ADDRESS, USER_MIN_ADDRESS. rewrite (u32_id (0xFFFFFFFF - bias)) by (unfold is_u32; lia).
  destruct (Z.ltb_spec (0xFFFFFFFF - bias) (p_vaddr h)) as [|G1]; [eapply returns_weaken; [by apply abandon_spec|done]|].
  rewrite (u32_id (p_vaddr h + bias)) by (unfold is_u32; lia). set (va0 := p_vaddr h + bias) in *.
  destruct (_ || _) eqn:G2; [eapply returns_weaken; [by apply abandon_spec|done]|]. apply orb_false_elim in G2 as [G2 G3].
  rewrite (u32_id (0x40000000 - va0)) in G3 by (unfold is_u32; lia).
  rewrite (u32_id (va0 + p_memsz h)) by (unfold is_u32; lia).
  assert (va0 + p_memsz h <= 0x40000000) as Hend by lia.
  assert (Z.land va0 ELF_PAGE_MASK = seg_first h bias * 4096) as E1 by (rewrite page_mask by (unfold is_u32; lia); done).
  assert (Z.land ((va0 + p_memsz h +32 PAGE_SIZE) -32 1) ELF_PAGE_MASK = seg_last h bias * 4096) as E2.
  { unfold PAGE_SIZE. rewrite (u32_id (va0 + p_memsz h + 4096)) by (unfold is_u32; lia). rewrite u32_id by (unfold is_u32; lia).
    rewrite page_mask by (unfold is_u32; lia). unfold seg_last. fold va0. do 2 f_equal. lia. }
  rewrite E1, E2. destruct (_ || _) eqn:G4; [eapply returns_weaken; [by apply abandon_spec|done]|].
  rewrite !orb_false_iff in G4. destruct G4 as (((G4 & G5) & G6) & G7).
  rewrite overlaps_spec in G7 by lia.
  assert (va0 + p_memsz h <= seg_last h bias * 4096 /\ seg_first h bias < seg_last h bias) as [H1 H2] by (unfold seg_last, seg_first; fold va0; dmlia).
  eapply returns_bind; [apply (map_image_pages_spec page_fuel (seg_first h bias) (seg_last h bias) (mapped_pages l) s);
    [lia|lia|done|done|unfold page_fuel, ELF_MAX_IMAGE_PAGES; lia]|].
  intros [m|] s1; [|done]. intros (-> & Hadd1 & Hfr & Hlen1).
  rewrite (u32_id (va0 + p_filesz h)) by (unfold is_u32; lia).
  rewrite (u32_id (seg_last h bias * 4096 - (va0 + p_filesz h))) by (unfold is_u32; lia).
  eapply returns_weaken; [apply (fill_protect data h bias (mapped_pages l) s s1 (seg_last h bias)
    (fun ok : bool => if ok then Some (Build_loading (mapped_pages l ++ page_list (seg_first h bias) (seg_last h bias)) _ _) else None)); try done; lia|].
  intros r s' (ok & -> & Hres). destruct ok; [|done]. destruct Hres as (Hadd2 & Hld & Hkept).
  split; try done; cbn [mapped_pages image_base image_end].
  - split; [done|lia].
  - lia.
  - split; case_if; lia.
Qed.
End Load.

(** ** The program headers *)

(** The bounds the loader reports. *)
Definition span (bias : Z) (hs : list program_header) : Z * Z :=
  foldl (fun b h => if occupied h then (Z.min (seg_first h bias * 4096) b.1, Z.max (seg_last h bias * 4096) b.2) else b)
    (0x40000000, 0x400000) hs.

(** The page lies in a segment. *)
Definition in_image (bias : Z) (hs : list program_header) (n : Z) : Prop :=
  exists h, h ∈ hs /\ occupied h = true /\ seg_first h bias <= n < seg_last h bias.

(** The segments [hs] are loaded: their pages are the ones that were added, each with the permissions
    and the contents of its segment. *)
Record segments_loaded (wide : bool) (d : Z) (F : Z -> owner) (s0 : paging) (data : list Z) (bias : Z)
    (hs : list program_header) (l : loading) (s : paging) : Prop := {
  sl_added : added wide d F s0 (mapped_pages l) s;
  sl_count : Z.of_nat (length (mapped_pages l)) <= 1024;
  sl_pages : forall n, n * 4096 ∈ mapped_pages l <-> in_image bias hs n;
  sl_loaded : forall h, h ∈ hs -> occupied h = true -> segment_loaded wide d s0 data h bias s /\
    p_vaddr h + bias + p_memsz h <= 0x40000000 /\ 1024 <= seg_first h bias < seg_last h bias /\
    (0x1800000 <= p_vaddr h + bias \/ p_vaddr h + bias + p_memsz h <= 0x800000);
  sl_span : (image_base l, image_end l) = span bias hs
}.

Section Headers.
Context (wide : bool) (d : Z) (F : Z -> owner) (s0 : paging) (data : list Z) (bias : Z).
Hypothesis Hdata : bytes_ok data.
Hypothesis Hsize : available data < 4294967296.
Hypothesis Hbias : is_u32 bias.
#[local] Notation loaded := (segments_loaded wide d F s0 data bias).
#[local] Notation undone := (undone wide d F s0).

Lemma in_image_snoc hs h n : in_image bias (hs ++ [h]) n <->
  in_image bias hs n \/ (occupied h = true /\ seg_first h bias <= n < seg_last h bias).
Proof using.
  unfold in_image. split.
  - intros (x & Hx & Ho & Hn). apply elem_of_app in Hx as [Hx|Hx%list_elem_of_singleton]; [left; by exists x|right; by subst].
  - intros [(x & Hx & Ho & Hn)|[Ho Hn]]; [exists x|exists h]; rewrite elem_of_app, list_elem_of_singleton; auto.
Qed.

Lemma loaded_skip hs h l s : occupied h = false -> loaded hs l s -> loaded (hs ++ [h]) l s.
Proof using.
  intros Ho [Ha Hc Hp Hl Hs]. split; try done.
  - intros n. rewrite in_image_snoc, Ho, <- Hp. split; [auto|by intros [?|[? _]]].
  - intros x [Hx|Hx%list_elem_of_singleton]%elem_of_app Hox; [by apply Hl|]. by rewrite Hx, Ho in Hox.
  - unfold span in *. by rewrite foldl_app, <- Hs; cbn; rewrite Ho.
Qed.

Lemma loaded_step hs h l s l' s' : occupied h = true -> loaded hs l s ->
  segment_done wide d F s0 data h bias l s l' s' -> loaded (hs ++ [h]) l' s'.
Proof using.
  intros Ho [Ha Hc Hp Hl Hs] [[R1 R2] Rs Rp [Rb Re] Rc Ra Rl [Rk Rb']].
  assert (forall x n, x ∈ hs -> occupied x = true -> seg_first x bias <= n < seg_last x bias -> ~ (seg_first h bias <= n < seg_last h bias)) as Hdis.
  { intros x n Hx Hox Hn Hnh. destruct (added_held _ _ _ _ _ _ Ra) as [Hnd _]. rewrite Rp in Hnd.
    apply list.NoDup_app in Hnd as (_ & Hnd & _). apply (Hnd (n * 4096)); [apply Hp; by exists x|]. apply page_list_in. by exists n. }
  split; try done.
  - intros n. rewrite Rp, elem_of_app, Hp, in_image_snoc, page_list_in. split.
    + intros [?|(m & E & Hm)]; [by left|right]. replace n with m by lia. done.
    + intros [?|[_ Hn]]; [by left|right; by exists n].
  - intros x [Hx|Hx%list_elem_of_singleton]%elem_of_app Hox; [|by subst].
    destruct (Hl x Hx Hox) as (Hld & Hr1 & Hr2 & Hr3). split; [|done]. intros n Hn. destruct (Hld n Hn) as [He Hb].
    assert (0 <= n < 1048576) as Hnr by (unfold seg_last in Hn; clear - Hn Hr1 Hr2; dmlia).
    assert (page_entry wide s' d n = page_entry wide s d n) as En by (apply Rk; [done|by apply (Hdis x)]).
    cbv zeta. rewrite En. split; [done|]. intros o Ho'. rewrite <- Hb by done. apply Rb'; [by apply (Hdis x)|done|done|].
    destruct He as (Hpr & _ & _ & H4 & _). split; [done|]. rewrite H4. apply segment_flags_ok.
  - unfold span in *. rewrite foldl_app, <- Hs. cbn. rewrite Ho. cbn. by rewrite Rb, Re.
Qed.

Lemma value_read o (k : Z -> call paging (option loading)) s : 0 <= o -> o + 4 <= available data ->
  call_bind (value (read_u32 data o)) k s = k (le32 data o) s.
Proof using Hdata. intros H1 H2. unfold call_bind, value. by rewrite (elf_read_u32 data Hdata). Qed.

Lemma load_header_spec type o hs l s : 0 <= o -> o + 32 <= available data -> header_ok (available data) type (header_at data o) ->
  loaded hs l s ->
  returns (load_header data bias o l s) (fun r s' =>
    match r with None => undone s' | Some l' => loaded (hs ++ [header_at data o]) l' s' end).
Proof using Hdata Hsize Hbias.
  intros Ho Hs [_ Hseg] Hld. set (h := header_at data o) in *.
  unfold load_header, ELF_PT_TYPE_OFFSET, ELF_PT_OFFSET_OFFSET, ELF_PT_VADDR_OFFSET, ELF_PT_FILESZ_OFFSET, ELF_PT_MEMSZ_OFFSET, ELF_PT_FLAGS_OFFSET.
  rewrite !u32_id by (unfold is_u32; lia). rewrite Z.add_0_r, value_read by lia. change (le32 data o) with (p_type h).
  assert (occupied h = (p_type h =? 1) && negb (p_memsz h =? 0)) as Hocc by done.
  unfold ELF_PT_LOAD. destruct (Z.eqb_spec (p_type h) 1) as [Et|Et]; cbn [negb]; [|by apply loaded_skip].
  rewrite !value_read by lia. change (le32 data (o + 4)) with (p_offset h). change (le32 data (o + 8)) with (p_vaddr h).
  change (le32 data (o + 16)) with (p_filesz h). change (le32 data (o + 20)) with (p_memsz h). change (le32 data (o + 24)) with (p_flags h).
  destruct (Z.eqb_spec (p_memsz h) 0) as [Em|Em]; [by apply loaded_skip|].
  assert (loadable h = true) as Hlo by (unfold loadable; lia). destruct (Hseg Hlo) as [(S1 & S2 & _) _].
  assert (header_u32 h) as Hh by (by apply header_at_u32).
  eapply returns_weaken; [apply (load_segment_spec wide d F s0 data h bias l s); [done..|unfold is_u32, available in *; lia|done|done|apply Hld|apply Hld]|].
  intros [l'|] s'; [|done]. intros Hd. by apply (loaded_step hs h l s).
Qed.

Lemma load_headers_spec type n : forall i hs l s, 0 <= i -> 0 <= e_phoff data -> e_phoff data + 32 * (i + Z.of_nat n) <= available data ->
  Forall (header_ok (available data) type) (headers_from data n i) -> loaded hs l s ->
  returns (load_headers n data bias (e_phoff data) i l s) (fun r s' =>
    match r with None => undone s' | Some l' => loaded (hs ++ headers_from data n i) l' s' end).
Proof using Hdata Hsize Hbias.
  induction n as [|n IH]; intros i hs l s Hi Hp Hs HF Hld; cbn [load_headers].
  { unfold headers_from. cbn. by rewrite app_nil_r. }
  rewrite headers_from_cons in *. apply list.Forall_cons in HF as [Hh HF].
  unfold ELF32_PROGRAM_HEADER_SIZE. rewrite (u32_id (i * 32)) by (unfold is_u32; lia). rewrite u32_id by (unfold is_u32; lia).
  replace (i * 32) with (32 * i) by lia.
  eapply returns_bind; [apply (load_header_spec type _ hs); [lia|lia|done|done]|]. intros [l'|] s'; [|done]. intros Hld'.
  eapply returns_weaken; [apply (IH (i + 1) (hs ++ [header_at data (e_phoff data + 32 * i)]) l' s'); [lia|lia|lia|done|done]|].
  intros [l2|] s2; [|done]. by rewrite <- app_assoc.
Qed.
End Headers.

(** ** The loader *)

(** What a successful load gives. *)
Record image_loaded (wide : bool) (d : Z) (F : Z -> owner) (s0 : paging) (data : list Z) (img : image) (s : paging) : Prop := {
  il_valid : elf_ok data;
  il_segments : exists bias l, segments_loaded wide d F s0 data bias (headers data) l s /\
    (e_type data = 2 -> bias = 0) /\ (e_type data = 3 -> 0x2000000 <= bias < 0x30000000) /\ bias mod 4096 = 0 /\
    entry img = e_entry data + bias /\ (loaded_base img, loaded_end img) = span bias (headers data)
}.

Lemma bias_state_u32 e mapped lo hi slots n : entropy_ok e -> forall state, is_u32 state -> is_u32 (snd (bias_loop e mapped n lo hi slots state)).
Proof.
  intros [Ha Hr Hp]. induction n as [|n IH]; intros state Hs; cbn [bias_loop]; [done|]. cbv zeta.
  destruct (next_nonzero e state Ha Hr Hp Hs) as [Hu _]. repeat case_if; try (by apply IH); done.
Qed.

Lemma dyn_state_u32 e mapped lo hi state : entropy_ok e -> is_u32 state -> is_u32 (snd (dyn_bias_range e mapped lo hi state)).
Proof. intros He Hs. unfold dyn_bias_range. cbv zeta. repeat case_if; try done. by apply bias_state_u32. Qed.

(** An entry point that is inside a segment does not overflow. *)
Lemma entry_in_range data bias wide d F s0 l s : elf_ok data -> segments_loaded wide d F s0 data bias (headers data) l s ->
  0 <= bias -> e_entry data + bias < 0x40000000.
Proof.
  intros Hok Hld Hb. pose proof (ok_entry _ Hok) as He. apply existsb_exists in He as (h & Hin & Hc).
  apply list_elem_of_In in Hin. unfold has_code in Hc. split_bools.
  assert (occupied h = true) as Ho by (unfold occupied; lia).
  destruct (sl_loaded _ _ _ _ _ _ _ _ _ Hld h Hin Ho) as (_ & Hmax & _). lia.
Qed.

Lemma load_at_spec wide d F s0 data bias : bytes_ok data -> available data < 4294967296 -> is_u32 bias -> elf_ok data -> inside wide d F s0 ->
  returns (load_at data (e_entry data) (e_phoff data) (e_phnum data) bias s0) (fun r s' =>
    match r with
    | None => undone wide d F s0 s'
    | Some img => exists l, segments_loaded wide d F s0 data bias (headers data) l s' /\
        entry img = e_entry data + bias /\ (loaded_base img, loaded_end img) = span bias (headers data)
    end).
Proof.
  intros Hdata Hsize Hbias Hok Hin. pose proof (ok_phnum _ Hok) as Hn. pose proof (ok_phoff _ Hok) as Hp.
  pose proof (le32_u32 data 28 Hdata) as Hpo. change (le32 data 28) with (e_phoff data) in Hpo.
  pose proof (le32_u32 data 24 Hdata) as Heo. change (le32 data 24) with (e_entry data) in Heo. unfold is_u32 in Hpo, Heo, Hbias.
  unfold load_at. eapply returns_bind.
  - apply (load_headers_spec wide d F s0 data bias Hdata Hsize Hbias (e_type data) _ 0 []); [lia|lia|lia|apply Hok|].
    split; try done.
    + split; [done|apply moved_refl| |by intros n ?%not_elem_of_nil|done]. split; [constructor|by intros p ?%not_elem_of_nil].
    + intros n. cbn. split; [by intros ?%not_elem_of_nil|]. by intros (h & ?%not_elem_of_nil & _).
    + by intros h ?%not_elem_of_nil.
  - intros [l|] s'; [|done]. intros Hld. change ([] ++ headers_from data (Z.to_nat (e_phnum data)) 0) with (headers data) in Hld.
    pose proof (entry_in_range data bias wide d F s0 l s' Hok Hld ltac:(lia)) as He.
    rewrite (u32_id (0xFFFFFFFF - bias)) by (unfold is_u32; lia). replace (0xFFFFFFFF - bias <? e_entry data) with false by lia.
    cbn. exists l. split; [done|]. rewrite u32_id by (unfold is_u32; lia). split; [done|apply Hld].
Qed.

Lemma load_image_spec wide d F s0 e data state : bytes_ok data -> available data < 4294967296 -> entropy_ok e -> is_u32 state ->
  inside wide d F s0 ->
  returns (elf_load_image e data state s0) (fun r s' => is_u32 (snd r) /\
    match fst r with None => undone wide d F s0 s' | Some img => image_loaded wide d F s0 data img s' end).
Proof.
  intros Hdata Hsize Hent Hst Hin. assert (undone wide d F s0 s0) as Hundo by (split; [done|]; split; [apply moved_refl|done]).
  unfold elf_load_image. pose proof (validate_safe data Hdata Hsize) as Hsafe.
  destruct (elf_validate_image data) as [en| | |] eqn:Ev; [|done..]. unfold call_bind at 1. cbn [parse ret].
  destruct (validate_sound data Hdata Hsize en Ev) as [Hok ->].
  pose proof (ok_size _ Hok) as Hlen. unfold ELF_TYPE_OFFSET, ELF_PHOFF_OFFSET, ELF_PHNUM_OFFSET.
  unfold call_bind at 1, value at 1. rewrite (elf_read_u16 data Hdata 16) by lia. cbn [ret].
  unfold call_bind at 1, value at 1. rewrite (elf_read_u32 data Hdata 28) by lia. cbn [ret].
  unfold call_bind at 1, value at 1. rewrite (elf_read_u16 data Hdata 44) by lia. cbn [ret].
  fold (e_type data) (e_phoff data) (e_phnum data).
  destruct (image_bounds_ok data Hdata Hsize Hok) as ((lo & hi) & Eb & Hhull & Hlo & Hhi & Al & Ah & Hx). cbn [fst snd] in *.
  unfold call_bind at 1. rewrite Eb. cbn [parse ret]. unfold call_bind at 1, ask.
  destruct Hent as [En1 En2 En3] eqn:Eent. clear Eent.
  destruct (ok_type _ Hok) as [Et|Et]; rewrite Et; cbn [Z.eqb]; unfold ELF_ET_DYN, ELF_ET_EXEC; cbn [Z.eqb Pos.eqb andb].
  - unfold USER_MIN_ADDRESS, USER_MAX_ADDRESS. specialize (Hx Et). replace (_ || _) with false by lia.
    eapply returns_bind; [apply (load_at_spec wide d F s0 data 0); done|]. intros r s' Hr. cbn. split; [done|].
    destruct r as [img|]; [|done]. destruct Hr as (l & Hld & He & Hsp). split; [done|]. exists 0, l. rewrite Et. split_and!; try done; lia.
  - destruct (dyn_bias_range e (paging_is_mapped s0) lo hi state) as [b state'] eqn:Ed.
    assert (is_u32 state') as Hst'.
    { pose proof (dyn_state_u32 e (paging_is_mapped s0) lo hi state Hent Hst) as H. by rewrite Ed in H. }
    pose proof (dyn_bias_spec e (paging_is_mapped s0) En1 En2 En3 lo hi state Hlo Hhi Al Ah Hst) as Hb. rewrite Ed in Hb. cbn [fst] in Hb.
    destruct b as [bias|]; [|done]. destruct (_ && _) in Hb; [|done]. symmetry in Hb.
    apply find_some in Hb as [Hcand%list_elem_of_In Hfit]. destruct (candidates_range e (paging_is_mapped s0) En1 En2 En3 32 state Hst bias Hcand) as [Hr Ha].
    eapply returns_bind; [apply (load_at_spec wide d F s0 data bias); try done; unfold is_u32; lia|]. intros r s' Hres. cbn. split; [done|].
    destruct r as [img|]; [|done]. destruct Hres as (l & Hld & He & Hsp). split; [done|]. exists bias, l. rewrite Et. split_and!; try done; lia.
Qed.

(** ** Unloading *)

Lemma unload_fuel_value : Z.of_nat unload_fuel = 262145.
Proof. unfold unload_fuel. rewrite Nat2Z.inj_add, Z2Nat.id; [done|]. by compute. Qed.

Lemma next_page a : 0 <= a < 262144 -> a * 4096 +32 PAGE_SIZE = (a + 1) * 4096.
Proof. intros Ha. unfold PAGE_SIZE. rewrite u32_id by (unfold is_u32; lia). lia. Qed.

Section Unload.
Context (wide : bool) (d : Z) (F : Z -> owner).

Lemma all_mapped_spec fuel : forall a b s, inside wide d F s -> 0 <= a <= b -> b <= 262144 -> b - a < Z.of_nat fuel ->
  returns (all_mapped fuel (a * 4096) (b * 4096) s) (fun ok s' => s' = s /\
    (ok = true <-> forall n, a <= n < b -> present (page_entry wide s d n))).
Proof using.
  induction fuel as [|fuel IH]; intros a b s Hin Ha Hb Hf; [lia|]. cbn [all_mapped].
  destruct (Z.ltb_spec (a * 4096) (b * 4096)) as [Hlt|Hge]; cbn [negb]; [|split; [done|]; split; [lia|done]].
  unfold call_bind at 1, ask. rewrite (work_is_mapped wide s a (in_ok _ _ _ _ Hin)) by lia. rewrite (in_current _ _ _ _ Hin).
  destruct (flag (page_entry wide s d a) 1) eqn:E; cbn [negb].
  - rewrite next_page by lia. eapply returns_weaken; [apply (IH (a + 1) b s Hin); lia|]. intros ok s' [-> Hok]. split; [done|].
    rewrite Hok. split; intros H n Hn; [|apply H; lia]. destruct (decide (n = a)) as [->|]; [done|apply H; lia].
  - split; [done|]. split; [done|]. intros H. specialize (H a ltac:(lia)). unfold present in H. congruence.
Qed.

Lemma unload_pages_spec fuel : forall a b s, inside wide d F s -> 1024 <= a <= b -> b <= 262144 -> b - a < Z.of_nat fuel ->
  (forall n, a <= n < b -> user_entry (page_entry wide s d n)) ->
  returns (unload_pages fuel (a * 4096) (b * 4096) s) (fun ok s' => ok = true /\ inside wide d F s' /\ moved wide d F s s' /\
    data s' = data s /\ forall n, 0 <= n < 1048576 -> page_entry wide s' d n = if (a <=? n) && (n <? b) then 0 else page_entry wide s d n).
Proof using.
  induction fuel as [|fuel IH]; intros a b s Hin Ha Hb Hf Hu; [lia|]. cbn [unload_pages].
  destruct (Z.ltb_spec (a * 4096) (b * 4096)) as [Hlt|Hge]; cbn [negb].
  2: { split; [done|]. split; [done|]. split; [apply moved_refl|]. split; [done|]. intros n Hn. by replace ((a <=? n) && (n <? b)) with false by lia. }
  destruct (work_release wide d F s a Hin ltac:(lia) (Hu a ltac:(lia))) as (s1 & E & Hnz & Hin1 & Hmv1 & Hd1 & Hz & Hoth).
  revert Hin1 Hmv1 Hd1 Hz Hoth. rewrite (bind_do _ _ _ _ _ E). replace (frame_of (page_entry wide s d a) =? 0) with false by lia.
  unfold call_bind at 1, update. generalize (free_frame (frame_of (page_entry wide s d a)) s1) as s2. intros s2 Hin1 Hmv1 Hd1 Hz Hoth.
  rewrite next_page by lia. eapply returns_weaken; [apply (IH (a + 1) b s2 Hin1); [lia|lia|lia|]|].
  - intros n Hn. rewrite Hoth by lia. apply Hu. lia.
  - intros ok s' (-> & Hin' & Hmv' & Hd' & He). split; [done|]. split; [done|].
    split; [eapply moved_trans; [apply frames_moved_refl|done|done]|]. split; [congruence|]. intros n Hn. rewrite He by done.
    destruct (decide (n = a)) as [->|].
    + replace ((a + 1 <=? a) && (a <? b)) with false by lia. replace ((a <=? a) && (a <? b)) with true by lia. done.
    + replace ((a + 1 <=? n) && (n <? b)) with ((a <=? n) && (n <? b)) by lia.
      destruct ((a <=? n) && (n <? b)); [done|by apply Hoth].
Qed.

(** The range is unloaded completely, or not at all when a page of it is missing. *)
Lemma unload_image_spec a b s : inside wide d F s -> 1024 <= a < b -> b <= 262144 ->
  (forall n, a <= n < b -> present (page_entry wide s d n) -> user_entry (page_entry wide s d n)) ->
  returns (elf_unload_image (a * 4096) (b * 4096) s) (fun ok s' =>
    (ok = true <-> forall n, a <= n < b -> present (page_entry wide s d n)) /\ (ok = false -> s' = s) /\
    (ok = true -> inside wide d F s' /\ moved wide d F s s' /\ data s' = data s /\
       forall n, 0 <= n < 1048576 -> page_entry wide s' d n = if (a <=? n) && (n <? b) then 0 else page_entry wide s d n)).
Proof using.
  intros Hin Ha Hb Hu. unfold elf_unload_image, USER_MIN_ADDRESS, USER_MAX_ADDRESS.
  assert (forall x, flag (x * 4096) (PAGE_SIZE - 1) = false) as Hal by (intros x; apply aligned_flag, Z.mod_mul; lia).
  rewrite !Hal. replace (_ || _) with false by lia.
  eapply returns_bind; [apply (all_mapped_spec unload_fuel a b s Hin); [lia|lia|rewrite unload_fuel_value; lia]|].
  intros ok s' [-> Hok]. destruct ok; cbn [negb]; [|split; [done|]; done].
  pose proof (proj1 Hok eq_refl) as Hall.
  eapply returns_weaken; [apply (unload_pages_spec unload_fuel a b s Hin); [lia|lia|rewrite unload_fuel_value; lia|]|].
  - intros n Hn. by apply Hu, Hall.
  - intros ok s' (-> & Hrest). split; [done|]. split; [done|]. by intros _.
Qed.
End Unload.
