(* ===== verification/ElfTheorems.v ===== *)
(** * Properties of the loader

    The theorems about [elf_load_image] and [elf_unload_image] of src/process/elf_loader.c, in an
    address space that was created for the program. *)

From Stdlib Require Import String.
From S2P Require Import Prelude BootInfo Checked KernelCall Pmm PmmInit PmmSpec PagingState PagingPae Paging PagingEntry PagingForest PagingView PagingInv PagingOps PagingMap PagingProtect PagingUnmap PagingSpaces PagingCreate PagingDestroy PagingHw PagingInit PagingUser PagingTotal PagingSystem PagingClient PagingWork PagingLife PagingTheorems Elf ElfSpec ElfPlace ElfLoad ElfLoadSpec.
Local Open Scope c_scope.
Local Open Scope call_scope.
Local Open Scope Z_scope.

(** ** The bounds of a loaded image *)

Lemma span_pages bias hs : (forall h, h ∈ hs -> occupied h = true -> 1024 <= seg_first h bias < seg_last h bias /\ seg_last h bias <= 262144) ->
  forall a0 b0, 1024 <= b0 -> a0 <= 262144 -> exists a b,
  foldl (fun b h => if occupied h then (Z.min (seg_first h bias * 4096) b.1, Z.max (seg_last h bias * 4096) b.2) else b)
    (a0 * 4096, b0 * 4096) hs = (a * 4096, b * 4096) /\ a <= a0 /\ b0 <= b /\
  (forall n, in_image bias hs n -> a <= n < b) /\ ((a = a0 \/ 1024 <= a) /\ (b = b0 \/ b <= 262144)).
Proof.
  induction hs as [|h hs IH]; intros Hh a0 b0 Hb0 Ha0; cbn [foldl].
  - exists a0, b0. split_and!; try done; try lia; [|by left..]. by intros n (h & Hin%not_elem_of_nil & _).
  - assert (forall h, h ∈ hs -> occupied h = true -> 1024 <= seg_first h bias < seg_last h bias /\ seg_last h bias <= 262144) as Hhs
      by (intros; apply Hh; [by right|done]). cbn [fst snd]. destruct (occupied h) eqn:E.
    + destruct (Hh h ltac:(by left) E) as [Hr Hl].
      destruct (IH Hhs (Z.min (seg_first h bias) a0) (Z.max (seg_last h bias) b0)) as (a & b & Ef & H1 & H2 & H3 & H4); [lia..|].
      exists a, b. split; [by rewrite <- Ef, Z.mul_min_distr_nonneg_r, Z.mul_max_distr_nonneg_r by lia|].
      split_and!; try lia. intros n (h' & Hin & Ho & Hn). apply list.elem_of_cons in Hin as [->|Hin]; [lia|]. apply H3. by exists h'.
    + destruct (IH Hhs a0 b0 Hb0 Ha0) as (a & b & Ef & H1 & H2 & H3 & H4). exists a, b. split_and!; try done; try lia.
      intros n (h' & Hin & Ho & Hn). apply list.elem_of_cons in Hin as [->|Hin]; [congruence|]. apply H3. by exists h'.
Qed.

Section Loaded.
Context (wide : bool) (d : Z) (F : Z -> owner) (s0 : paging) (data : list Z) (img : image) (s : paging).
Hypothesis Hl : image_loaded wide d F s0 data img s.

(** The pages of the image, and the pages between its bounds. *)
Lemma loaded_bounds : exists bias l a b, segments_loaded wide d F s0 data bias (headers data) l s /\
  (loaded_base img, loaded_end img) = span bias (headers data) /\ loaded_base img = a * 4096 /\ loaded_end img = b * 4096 /\ 1024 <= a < b /\ b <= 262144 /\
  forall n, in_image bias (headers data) n -> a <= n < b.
Proof using Hl.
  destruct Hl as [Hok (bias & l & Hsl & _ & _ & _ & _ & Hsp)]. exists bias, l.
  assert (forall h, h ∈ headers data -> occupied h = true -> 1024 <= seg_first h bias < seg_last h bias /\ seg_last h bias <= 262144) as Hh.
  { intros h Hin Ho. destruct (sl_loaded _ _ _ _ _ _ _ _ _ Hsl h Hin Ho) as (_ & Hmax & Hf & _). split; [done|].
    unfold seg_last. dmlia. }
  destruct (span_pages bias (headers data) Hh 262144 1024 ltac:(lia) ltac:(lia)) as (a & b & Ef & _ & _ & Hin & Ha & Hb).
  pose proof Hsp as Hspan. unfold span in Hsp. change (0x40000000, 0x400000) with (262144 * 4096, 1024 * 4096) in Hsp. rewrite Ef in Hsp. injection Hsp as E1 E2.
  exists a, b. assert (exists n, in_image bias (headers data) n) as (n & Hn).
  { pose proof (ok_entry _ Hok) as He. apply existsb_exists in He as (h & Hi & Hc). apply list_elem_of_In in Hi. unfold has_code in Hc. split_bools.
    exists (seg_first h bias), h. split; [done|]. assert (occupied h = true) as Ho by (unfold occupied; lia). split; [done|]. specialize (Hh h Hi Ho). lia. }
  specialize (Hin n Hn) as Hr. split_and!; try done; lia.
Qed.
End Loaded.

(** ** Loading and unloading *)

(** C11: loading an image into the current address space always returns, and either changes nothing
    but the tables of the space and frames that are in no use, or the image is valid and its pages,
    and no others, have been added, each with the contents and the permissions of its segment, inside
    the bounds it reports. *)
Theorem elf_load_correct wide d F e image_data bias_state s : bytes_ok image_data -> available image_data < 4294967296 ->
  entropy_ok e -> is_u32 bias_state -> inside wide d F s ->
  returns (elf_load_image e image_data bias_state s) (fun r s' => is_u32 (snd r) /\
    match fst r with
    | None => inside wide d F s' /\ moved wide d F s s' /\ same_entries wide d s s'
    | Some img => elf_ok image_data /\ inside wide d F s' /\ moved wide d F s s' /\ exists bias,
        (e_type image_data = 2 -> bias = 0) /\ (e_type image_data = 3 -> 0x2000000 <= bias < 0x30000000) /\
        entry img = e_entry image_data + bias /\ (loaded_base img, loaded_end img) = span bias (headers image_data) /\
        (forall n, 0 <= n < 1048576 -> ~ in_image bias (headers image_data) n -> page_entry wide s' d n = page_entry wide s d n) /\
        (forall n, in_image bias (headers image_data) n -> page_entry wide s d n = 0) /\
        forall h, h ∈ headers image_data -> occupied h = true -> segment_loaded wide d s image_data h bias s'
    end).
Proof.
  intros Hdata Hsize He Hst Hin. eapply returns_weaken; [by apply load_image_spec|]. intros [[img|] st] s' [Hu Hr]; (split; [done|]); cbn [fst] in *.
  - destruct Hr as [Hok (bias & l & Hsl & H2 & H3 & _ & Hen & Hsp)]. pose proof (sl_added _ _ _ _ _ _ _ _ _ Hsl) as Ha.
    split; [done|]. split; [apply Ha|]. split; [apply Ha|]. exists bias. split_and!; try done.
    + intros n Hn Hni. apply (added_rest _ _ _ _ _ _ Ha n Hn). by rewrite (sl_pages _ _ _ _ _ _ _ _ _ Hsl).
    + intros n Hi. apply (added_new _ _ _ _ _ _ Ha). by apply (sl_pages _ _ _ _ _ _ _ _ _ Hsl).
    + intros h Hh Ho. by apply (sl_loaded _ _ _ _ _ _ _ _ _ Hsl).
  - done.
Qed.


(** ** A concrete run *)

Lemma boot_page_low wide font ts te re n : 1024 <= n < 262144 -> boot_page wide font ts te re n = None.
Proof.
  intros Hn. unfold boot_page, framebuffer_number, framebuffer_base. replace ((1 <=? n) && (n <? 1024)) with false by lia.
  case_if; [lia|done].
Qed.

(** No page between 4 MiB and 1 GiB. *)
Definition low_empty (wide : bool) (d : Z) (s : paging) : Prop :=
  forall n, 1024 <= n < 262144 -> ~ present (page_entry wide s d n).

(** A space that is created and entered after the start. *)
Lemma started_enter wide nx font ts te re kernel d s1 ok s2 : paging_started wide nx font ts te re kernel ->
  paging_create_address_space kernel = (d, s1) -> d <> 0 -> paging_switch_address_space d s1 = (ok, s2) ->
  inside wide d (owner_at kernel) s2 /\ low_empty wide d s2.
Proof.
  intros [Hok (Hen & Hco & _) [_ Hcur] Hpg] Ec Hd Es. pose proof (create_ok wide kernel d s1 Hok Ec) as HC.
  pose proof (created_at wide kernel d s1 Hok HC Hd Hen Hco) as Hat.
  destruct (switch_at wide d (owner_at kernel) s1 d ok s2 Hat ltac:(right; apply Hat) Es) as (-> & Hat2 & Hsw).
  pose proof Hsw as (_ & Hcur2 & _ & _ & _ & Hw & _). split; [by apply inside_at|]. intros n Hn.
  destruct (page_position wide n ltac:(lia)) as (Hi & Hj & Hpn). unfold page_entry. rewrite Hw, (created_copy _ _ _ _ HC Hd _ _ Hi Hj).
  rewrite (created_pages _ _ _ _ HC _ _ _ (kernel_in wide kernel) Hi Hj).
  specialize (Hpg (n * 4096) ltac:(unfold is_u32; lia)). rewrite Z.div_mul, boot_page_low in Hpg by lia.
  rewrite (translate_spec wide kernel (n * 4096) Hok Hen Hco) in Hpg by (unfold is_u32; lia).
  rewrite (leaf_page wide kernel (n * 4096)), Hcur, Z.div_mul in Hpg by (unfold is_u32; lia).
  unfold entry_translation, page_entry in Hpg. unfold present. by case_if.
Qed.

Lemma sample_entered wide : exists r, sample_run wide = Some r /\
  inside wide (run_space r) (owner_at (run_kernel r)) (run_entered r) /\ low_empty wide (run_space r) (run_entered r).
Proof.
  pose proof (sample_run_true wide) as H. destruct (sample_run wide) as [r|] eqn:Er; [|done]. exists r. split; [done|]. unfold sample_run in Er.
  destruct (init_ok wide true 0x100000 0x140000 0x150000 (Some sample_info) sample_machine sample_boot_state PagingTheorems.sample_image) as (ok & s1 & E1 & Hres).
  rewrite E1 in Er. destruct (paging_create_address_space s1) as [space created] eqn:Ec.
  destruct (paging_switch_address_space space created) as [ok1 entered] eqn:Es.
  destruct (pmm_exec OpAllocUser (page_frames entered)) as [frame frames].
  destruct (paging_map_page 0x400000 frame (Z.lor PAGE_FLAG_WRITABLE PAGE_FLAG_USER) (set_page_frames entered frames)) as [ok2 mapped].
  injection Er as <-. cbn [run_ok run_space run_kernel run_entered] in *. rewrite !andb_true_iff in H.
  destruct H as [[((((((((((H1 & H2) & _) & _) & _) & _) & _) & _) & _) & _) & _) _] _]. subst ok. apply negb_true_iff, Z.eqb_neq in H2.
  eapply started_enter; [apply Hres|exact Ec|exact H2|exact Es].
Qed.

(** The image of the boot self test, loaded and unloaded in that space, and an image with a gap. *)
Definition gap_image : list Z :=
  let image := test_image ++ replicate 40 0 in
  let image := set_u16 image ELF_PHNUM_OFFSET 2 in
  let image := set_u32 image (84 + ELF_PT_TYPE_OFFSET) ELF_PT_LOAD in
  let image := set_u32 image (84 + ELF_PT_OFFSET_OFFSET) 124 in
  let image := set_u32 image (84 + ELF_PT_VADDR_OFFSET) 0x402000 in
  let image := set_u32 image (84 + ELF_PT_FILESZ_OFFSET) 4 in
  let image := set_u32 image (84 + ELF_PT_MEMSZ_OFFSET) 8 in
  let image := set_u32 image (84 + ELF_PT_FLAGS_OFFSET) ELF_FLAG_WRITABLE in
  set_u32 image (84 + ELF_PT_ALIGN_OFFSET) 1.

Definition load_and_unload (image_data : list Z) (s : paging) : option (Z * Z * bool) :=
  match elf_load_image sample_entropy image_data 0 s with
  | Done (Some img, _) s1 =>
      match elf_unload_image (loaded_base img) (loaded_end img) s1 with
      | Done ok _ => Some (loaded_base img, loaded_end img, ok)
      | _ => None
      end
  | _ => None
  end.

Lemma sample_load : (load_and_unload test_image ∘ run_entered <$> sample_run true) = Some (Some (0x400000, 0x401000, true)) /\
  (load_and_unload gap_image ∘ run_entered <$> sample_run true) = Some (Some (0x400000, 0x403000, false)).
Proof. split; vm_compute; reflexivity. Qed.

Lemma test_image_bytes : bytes_ok test_image.
Proof. repeat (apply Forall_cons_2; [unfold is_u8; vm_compute; split; [discriminate|reflexivity]|]). apply Forall_nil_2. Qed.

Lemma gap_image_bytes : bytes_ok gap_image.
Proof. repeat (apply Forall_cons_2; [unfold is_u8; vm_compute; split; [discriminate|reflexivity]|]). apply Forall_nil_2. Qed.

#[local] Opaque sample_run elf_load_image elf_unload_image.

(** The runs of [sample_load], step by step. *)
Lemma sample_steps wide image_data base end_ ok :
  (load_and_unload image_data ∘ run_entered <$> sample_run wide) = Some (Some (base, end_, ok)) -> exists r img st s1 s2,
  sample_run wide = Some r /\ inside wide (run_space r) (owner_at (run_kernel r)) (run_entered r) /\ low_empty wide (run_space r) (run_entered r) /\
  elf_load_image sample_entropy image_data 0 (run_entered r) = Done (Some img, st) s1 /\ loaded_base img = base /\ loaded_end img = end_ /\
  elf_unload_image base end_ s1 = Done ok s2.
Proof.
  destruct (sample_entered wide) as (r & Er & Hin & Hlow). rewrite Er. cbn. unfold load_and_unload.
  destruct (elf_load_image sample_entropy image_data 0 (run_entered r)) as [[[img|] st] s1| | |] eqn:El; try done.
  destruct (elf_unload_image (loaded_base img) (loaded_end img) s1) as [ok' s2| | |] eqn:Eu; [|done..]. intros [= <- <- <-].
  exists r, img, st, s1, s2. split_and!; done.
Qed.

Lemma elf_load_correct_witness : exists d F s img st s', inside true d F s /\
  elf_load_image sample_entropy test_image 0 s = Done (Some img, st) s' /\ loaded_base img = 0x400000 /\
  inside true d F s' /\ exists bias h, h ∈ headers test_image /\ segment_loaded true d s test_image h bias s'.
Proof.
  destruct (sample_steps true test_image _ _ _ (proj1 sample_load)) as (r & img & st & s1 & s2 & _ & Hin & _ & El & Eb & _).
  pose proof (elf_load_correct true _ _ sample_entropy test_image 0 _ test_image_bytes ltac:(vm_compute; reflexivity) sample_entropy_ok
    ltac:(unfold is_u32; lia) Hin) as H. rewrite El in H. destruct H as (_ & _ & Hin' & _ & bias & _ & _ & _ & _ & _ & _ & Hseg).
  exists (run_space r), (owner_at (run_kernel r)), (run_entered r), img, st, s1. split; [exact Hin|]. split; [exact El|]. split; [exact Eb|].
  split; [exact Hin'|]. destruct (headers test_image) as [|h hs] eqn:Eh; [vm_compute in Eh; discriminate|].
  exists bias, h. assert (h ∈ h :: hs) as Hh by left. split; [exact Hh|]. apply (Hseg h Hh). vm_compute in Eh. injection Eh as <- _. reflexivity.
Defined.


(** The self test with real pages passes after boot and leaves the allocator's counters alone. *)
Lemma elf_runtime_self_test_passes : match run_kernel <$> sample_run true with
  | Some s => match elf_loader_runtime_self_test sample_entropy 0 s with
              | Done (ok, _) s' => ok && (pmm_used_blocks (page_frames s') =? pmm_used_blocks (page_frames s)) &&
                  (paging_current_directory s' =? paging_kernel_directory s)
              | _ => false
              end
  | None => false
  end = true.
Proof. vm_compute. reflexivity. Qed.
