(* ===== verification/Scheduler.v ===== *)
(** * The task table

    The data and the operations of src/process/scheduler.c. A pointer to a saved interrupt frame is
    its virtual address, a function pointer the address of the function; 0 is the null pointer.

    The operations also work on memory: stacks are mapped and given back, canaries and frames are read
    and written, address spaces entered, and the process of a task that ends is taken back. What these
    calls answer is an argument here ([answers], and those of the two functions that add a task); the
    tables and the memory behind the answers are the subject of the paging files. The model keeps what
    the code does with each answer: the panics, the early returns, and every change of the table. *)

From Stdlib Require Import String.
From S2P Require Import Prelude Checked KernelCall PagingState.
Local Open Scope c_scope.
Local Open Scope call_scope.
Local Open Scope Z_scope.

Definition SCHEDULER_MAX_TASKS : Z := 16.
Definition SCHEDULER_STACK_PAGES : Z := 8.
Definition SCHEDULER_STACK_STRIDE : Z := PAGE_SIZE *32 (SCHEDULER_STACK_PAGES +32 1).
Definition SCHEDULER_STACK_BASE : Z := 0xC0000000.
Definition TASK_RUNNABLE : Z := 0.
Definition TASK_TERMINATED : Z := 1.
Definition TASK_BLOCKED : Z := 2.
Definition TASK_KERNEL : Z := 0.
Definition TASK_USER : Z := 1.
Definition SCHEDULER_USER_MIN_ADDRESS : Z := 0x00400000.
Definition SCHEDULER_USER_ADDRESS_LIMIT : Z := 0xC0000000.
Definition SCHEDULER_DEFAULT_PRIORITY : Z := 1.
Definition SCHEDULER_MAX_PRIORITY : Z := 8.
Definition SCHEDULER_MAX_GENERATION : Z := 0x00FFFFFF.
Definition SCHEDULER_NAME_MAX : Z := 16.
Definition SCHEDULER_STACK_CANARY : Z := 0x51ACCE55.

Record scheduler_task := {
  task_name : list Z;
  task_entry : Z;
  task_frame : Z;
  stack_base : Z;
  stack_frames : list Z;
  stack_canary : Z;
  user_entry_point : Z;
  user_stack_top : Z;
  address_space : Z;
  task_mode : Z;
  priority : Z;
  ticks_left : Z;
  switches : Z;
  task_state : Z;
  task_id : Z
}.

Record scheduler := {
  tasks : list scheduler_task;
  task_count : Z;
  current_task : Z;
  scheduler_started : bool;
  pending_reap_mask : Z;
  stack_reap_count : Z;
  last_added_task : Z;
  slot_generation : list Z
}.

(** [clear_task] writes every field. *)
Definition clear_task : scheduler_task :=
  Build_scheduler_task (replicate 16 0) 0 0 0 (replicate 8 0) 0 0 0 0 TASK_KERNEL SCHEDULER_DEFAULT_PRIORITY
    SCHEDULER_DEFAULT_PRIORITY 0 TASK_TERMINATED 0.

#[export] Instance task_inhabited : Inhabited scheduler_task := populate clear_task.

Definition task (s : scheduler) (index : Z) : scheduler_task := tasks s !!! Z.to_nat index.

Definition set_task (index : Z) (t : scheduler_task) (s : scheduler) : scheduler :=
  Build_scheduler (<[Z.to_nat index := t]> (tasks s)) (task_count s) (current_task s) (scheduler_started s)
    (pending_reap_mask s) (stack_reap_count s) (last_added_task s) (slot_generation s).

(** ** Assignments to one field *)

Definition with_frame (t : scheduler_task) (x : Z) : scheduler_task :=
  Build_scheduler_task (task_name t) (task_entry t) x (stack_base t) (stack_frames t) (stack_canary t) (user_entry_point t)
    (user_stack_top t) (address_space t) (task_mode t) (priority t) (ticks_left t) (switches t) (task_state t) (task_id t).
Definition with_name (t : scheduler_task) (x : list Z) : scheduler_task :=
  Build_scheduler_task x (task_entry t) (task_frame t) (stack_base t) (stack_frames t) (stack_canary t) (user_entry_point t)
    (user_stack_top t) (address_space t) (task_mode t) (priority t) (ticks_left t) (switches t) (task_state t) (task_id t).
Definition with_stack (t : scheduler_task) (base : Z) (frames : list Z) (canary : Z) : scheduler_task :=
  Build_scheduler_task (task_name t) (task_entry t) (task_frame t) base frames canary (user_entry_point t)
    (user_stack_top t) (address_space t) (task_mode t) (priority t) (ticks_left t) (switches t) (task_state t) (task_id t).
Definition with_slice (t : scheduler_task) (p ticks count : Z) : scheduler_task :=
  Build_scheduler_task (task_name t) (task_entry t) (task_frame t) (stack_base t) (stack_frames t) (stack_canary t)
    (user_entry_point t) (user_stack_top t) (address_space t) (task_mode t) p ticks count (task_state t) (task_id t).
Definition with_state (t : scheduler_task) (x : Z) : scheduler_task :=
  Build_scheduler_task (task_name t) (task_entry t) (task_frame t) (stack_base t) (stack_frames t) (stack_canary t)
    (user_entry_point t) (user_stack_top t) (address_space t) (task_mode t) (priority t) (ticks_left t) (switches t) x (task_id t).

Definition set_current (s : scheduler) (x : Z) : scheduler :=
  Build_scheduler (tasks s) (task_count s) x (scheduler_started s) (pending_reap_mask s) (stack_reap_count s)
    (last_added_task s) (slot_generation s).
Definition set_pending (s : scheduler) (x : Z) : scheduler :=
  Build_scheduler (tasks s) (task_count s) (current_task s) (scheduler_started s) x (stack_reap_count s)
    (last_added_task s) (slot_generation s).
Definition set_reaps (s : scheduler) (x : Z) : scheduler :=
  Build_scheduler (tasks s) (task_count s) (current_task s) (scheduler_started s) (pending_reap_mask s) x
    (last_added_task s) (slot_generation s).

(** ** Names *)

(** The characters of [source] without the terminating zero. *)
Definition copy_task_name (destination source : list Z) : bool * list Z :=
  let index := Z.min (Z.of_nat (length source)) (SCHEDULER_NAME_MAX - 1) in
  let copied := take (Z.to_nat index) source ++ drop (Z.to_nat index) destination in
  if negb (index =? Z.of_nat (length source)) then (false, copied) else (true, <[Z.to_nat index := 0]> copied).

(** ** Searching the table *)

Definition pending (s : scheduler) (index : Z) : bool := flag (pending_reap_mask s) (shl32 1 index).

Definition find_task_slot (s : scheduler) : Z :=
  match find_first 1 (task_count s) (fun index =>
          negb (pending s index) && (task_state (task s index) =? TASK_TERMINATED) &&
          (stack_base (task s index) =? 0) && (task_frame (task s index) =? 0)) with
  | Some index => index
  | None => if task_count s <? SCHEDULER_MAX_TASKS then task_count s else SCHEDULER_MAX_TASKS
  end.

Definition can_run (s : scheduler) (index : Z) : bool :=
  (task_state (task s index) =? TASK_RUNNABLE) && negb (task_frame (task s index) =? 0).

Definition find_next_runnable (s : scheduler) : Z :=
  match find_first 1 (task_count s + 1) (fun offset => can_run s ((current_task s +32 offset) mod task_count s)) with
  | Some offset => (current_task s +32 offset) mod task_count s
  | None => SCHEDULER_MAX_TASKS
  end.

Definition has_other_runnable (s : scheduler) : bool :=
  match find_first 0 (task_count s) (fun index => negb (index =? current_task s) && can_run s index) with
  | Some _ => true
  | None => false
  end.

Definition address_space_in_use (s : scheduler) (space : Z) : bool :=
  match find_first 1 (task_count s) (fun index =>
          (task_mode (task s index) =? TASK_USER) && negb (task_state (task s index) =? TASK_TERMINATED) &&
          (address_space (task s index) =? space)) with
  | Some _ => true
  | None => false
  end.

(** ** Operations *)

Definition scheduler_init (kernel_directory : Z) : scheduler :=
  let first := clear_task in
  let first := Build_scheduler_task (snd (copy_task_name (task_name first) [107; 101; 114; 110; 101; 108])) (task_entry first)
    (task_frame first) (stack_base first) (stack_frames first) (stack_canary first) (user_entry_point first) (user_stack_top first)
    kernel_directory (task_mode first) (priority first) (ticks_left first) (switches first) TASK_RUNNABLE 0 in
  Build_scheduler (first :: replicate 15 clear_task) 1 0 false 0 0 SCHEDULER_MAX_TASKS (replicate 16 0).

Definition scheduler_set_priority (index p : Z) (s : scheduler) : bool * scheduler :=
  if (index =? 0) || (task_count s <=? index) || (p =? 0) || (SCHEDULER_MAX_PRIORITY <? p) || scheduler_started s
  then (false, s) else
  (true, set_task index (with_slice (task s index) p p (switches (task s index))) s).

Definition scheduler_block_task (index : Z) (s : scheduler) : bool * scheduler :=
  if (index =? 0) || (task_count s <=? index) || scheduler_started s ||
     negb (task_state (task s index) =? TASK_RUNNABLE) || (task_frame (task s index) =? 0)
  then (false, s) else
  (true, set_task index (with_state (task s index) TASK_BLOCKED) s).

Definition scheduler_wake_task_unlocked (index : Z) (s : scheduler) : bool * scheduler :=
  if (index =? 0) || (task_count s <=? index) || negb (task_state (task s index) =? TASK_BLOCKED) ||
     (task_frame (task s index) =? 0)
  then (false, s) else
  let t := with_state (task s index) TASK_RUNNABLE in
  (true, set_task index (with_slice t (priority t) (priority t) (switches t)) s).

Definition scheduler_wake_task (index : Z) (s : scheduler) : bool * scheduler := scheduler_wake_task_unlocked index s.

Definition scheduler_wake_task_id (id : Z) (s : scheduler) : bool * scheduler :=
  if id =? 0 then (false, s) else
  match find_first 1 (task_count s) (fun index => task_id (task s index) =? id) with
  | Some index => scheduler_wake_task_unlocked index s
  | None => (false, s)
  end.

Definition scheduler_wake_user_tasks (s : scheduler) : Z * scheduler :=
  for_loop 1 (task_count s) (fun index '(woken, s) =>
    if negb (task_mode (task s index) =? TASK_USER) then (woken, s) else
    let '(ok, s) := scheduler_wake_task_unlocked index s in
    (if ok : bool then woken +32 1 else woken, s)) (0, s).

Definition scheduler_task_id_is_active_user (id : Z) (s : scheduler) : bool :=
  if id =? 0 then false else
  match find_first 1 (task_count s) (fun index =>
          (task_id (task s index) =? id) && (task_mode (task s index) =? TASK_USER) &&
          negb (task_state (task s index) =? TASK_TERMINATED) && negb (task_frame (task s index) =? 0)) with
  | Some _ => true
  | None => false
  end.

Definition scheduler_block_current (s : scheduler) : bool * scheduler :=
  if negb (scheduler_started s) || (current_task s =? 0) || (task_count s <=? current_task s) ||
     negb (task_state (task s (current_task s)) =? TASK_RUNNABLE) || negb (has_other_runnable s)
  then (false, s) else
  (true, set_task (current_task s) (with_state (task s (current_task s)) TASK_BLOCKED) s).

Definition scheduler_start (s : scheduler) : scheduler :=
  let s := set_task 0 (with_state (task s 0) TASK_TERMINATED) s in
  Build_scheduler (tasks s) (task_count s) (current_task s) true (pending_reap_mask s) (stack_reap_count s)
    (last_added_task s) (slot_generation s).

(** ** Registering a task *)

Definition next_generation (s : scheduler) (slot : Z) : Z :=
  let generation := arr (slot_generation s) slot +32 1 in
  if generation =? 0 then generation +32 1 else generation.

Definition set_generation (s : scheduler) (slot generation : Z) : scheduler :=
  Build_scheduler (tasks s) (task_count s) (current_task s) (scheduler_started s) (pending_reap_mask s) (stack_reap_count s)
    (last_added_task s) (arr_set (slot_generation s) slot generation).

Definition task_identifier (generation slot : Z) : Z := Z.lor (shl32 generation 8) slot.

(** The fields of a new task before it has a stack: of a kernel task and of a user task. *)
Definition new_task (name : list Z) (entry kernel_directory id : Z) : scheduler_task :=
  Build_scheduler_task name entry 0 0 (replicate 8 0) 0 0 0 kernel_directory TASK_KERNEL SCHEDULER_DEFAULT_PRIORITY
    SCHEDULER_DEFAULT_PRIORITY 0 TASK_RUNNABLE id.

Definition new_user_task (name : list Z) (entry stack_top space id : Z) : scheduler_task :=
  Build_scheduler_task name 0 0 0 (replicate 8 0) 0 entry stack_top space TASK_USER SCHEDULER_DEFAULT_PRIORITY
    SCHEDULER_DEFAULT_PRIORITY 0 TASK_RUNNABLE id.

(** [if (slot == task_count) task_count++; last_added_task = slot;] *)
Definition added_task (slot : Z) (s : scheduler) : scheduler :=
  Build_scheduler (tasks s) (if slot =? task_count s then task_count s +32 1 else task_count s) (current_task s)
    (scheduler_started s) (pending_reap_mask s) (stack_reap_count s) slot (slot_generation s).

Definition INTERRUPT_FRAME_SIZE : Z := 68.

Definition task_stack (slot : Z) : Z := SCHEDULER_STACK_BASE +32 (slot *32 SCHEDULER_STACK_STRIDE).

(** The fields that [allocate_task_stack] sets when it has mapped [frames]. *)
Definition stacked (t : scheduler_task) (slot : Z) (frames : list Z) : scheduler_task :=
  let base := task_stack slot in
  let canary := Z.lxor (Z.lxor SCHEDULER_STACK_CANARY base) slot in
  with_frame (with_stack t base frames canary) (((base +32 SCHEDULER_STACK_STRIDE) -32 INTERRUPT_FRAME_SIZE) -32 8).

(** The part that both functions share, from the generation of the slot on; [fill] makes the task from
    its name and identifier, and [stack] are the frames of its stack if they could be mapped. A name
    that is too long leaves its first characters in the cleared slot. *)
Definition register_task (fill : list Z -> Z -> scheduler_task) (name : list Z) (stack : option (list Z)) (slot : Z) (s : scheduler)
    : bool * scheduler :=
  if SCHEDULER_MAX_GENERATION <=? arr (slot_generation s) slot then (false, s) else
  let '(ok, copied) := copy_task_name (task_name clear_task) name in
  if negb ok then (false, set_task slot (with_name clear_task copied) s) else
  let generation := next_generation s slot in
  let t := fill copied (task_identifier generation slot) in
  let s := set_generation (set_task slot t s) slot generation in
  match stack with
  | None => (false, set_task slot clear_task s)
  | Some frames => (true, added_task slot (set_task slot (stacked t slot frames) s))
  end.

(** [None] for the name is the null pointer. *)
Definition scheduler_add_task (name : option (list Z)) (entry kernel_directory : Z) (stack : option (list Z)) (s : scheduler)
    : bool * scheduler :=
  match name with
  | None => (false, s)
  | Some name =>
      if entry =? 0 then (false, s) else
      let slot := find_task_slot s in
      if slot =? SCHEDULER_MAX_TASKS then (false, s) else
      register_task (fun name id => new_task name entry kernel_directory id) name stack slot s
  end.

(** [valid], [enters], [user_context_valid] and [returns] are the answers of
    [paging_address_space_is_valid], of the switch to the space, of the two validations in it, and of
    the switch back. *)
Definition scheduler_add_user_task_in_space (name : option (list Z)) (entry user_stack_top space kernel_directory current_directory : Z)
    (valid enters user_context_valid returns : bool) (stack : option (list Z)) : call scheduler bool :=
  match name with
  | None => ret false
  | Some name =>
      if (entry <? SCHEDULER_USER_MIN_ADDRESS) || (SCHEDULER_USER_ADDRESS_LIMIT <=? entry) ||
         (user_stack_top <? SCHEDULER_USER_MIN_ADDRESS) || (SCHEDULER_USER_ADDRESS_LIMIT <? user_stack_top) ||
         flag user_stack_top (PAGE_SIZE - 1) || negb valid || (space =? kernel_directory) ||
         negb (current_directory =? kernel_directory)
      then ret false else
      if negb enters then ret false else
      if negb returns then kernel_panic "Failed to restore kernel address space after user validation." else
      if negb user_context_valid then ret false else
      slot <~ ask find_task_slot;
      if slot =? SCHEDULER_MAX_TASKS then ret false else
      in_use <~ ask (fun s => address_space_in_use s space);
      if in_use : bool then ret false else
      do (register_task (fun name id => new_user_task name entry user_stack_top space id) name stack slot)
  end.

Definition scheduler_add_user_task (name : option (list Z)) (entry user_stack_top kernel_directory current_directory : Z)
    (valid enters user_context_valid returns : bool) (stack : option (list Z)) : call scheduler bool :=
  scheduler_add_user_task_in_space name entry user_stack_top current_directory kernel_directory current_directory
    valid enters user_context_valid returns stack.

(** ** Ending a task and giving its stack back *)

Definition mark_pending (index : Z) (s : scheduler) : scheduler :=
  set_pending s (Z.lor (pending_reap_mask s) (shl32 1 index)).

Definition clear_pending (index : Z) (s : scheduler) : scheduler :=
  set_pending s (Z.land (pending_reap_mask s) (not32 (shl32 1 index))).

Definition end_current (s : scheduler) : scheduler :=
  set_task (current_task s) (with_state (task s (current_task s)) TASK_TERMINATED) s.

Definition mark_current (s : scheduler) : scheduler := mark_pending (current_task s) s.

Definition scheduler_current_task_id (s : scheduler) : Z :=
  if task_count s <=? current_task s then 0 else task_id (task s (current_task s)).

(** What memory answers during an interrupt: whether the canary of the task in a slot is intact,
    whether its guard page is unmapped, whether a page of its stack maps the frame that the task
    records for it, whether a space can be entered, the directories at the start, whether the frame returns to user mode and whether user mode
    can execute its instruction, and whether the process of a task could be taken back. *)
Record answers := {
  canary_intact : Z -> bool;
  guard_unmapped : Z -> bool;
  page_owned : Z -> Z -> bool;
  space_entered : Z -> bool;
  current_directory : Z;
  kernel_directory : Z;
  returns_to_user : bool;
  user_executable : bool;
  process_reaped : Z -> Z -> bool
}.

Definition verify_stack_canary (w : answers) (index : Z) : call scheduler unit :=
  t <~ ask (fun s => task s index);
  if stack_base t =? 0 then ret tt else
  if (stack_canary t =? 0) || negb (canary_intact w index) then kernel_panic "Scheduler stack canary corrupted." else ret tt.

Definition without_stack (index : Z) (s : scheduler) : scheduler :=
  set_reaps (set_task index (with_frame (with_stack (task s index) 0 (replicate 8 0) (stack_canary (task s index))) 0) s)
    (stack_reap_count s +32 1).

Definition reap_task_stack (w : answers) (index : Z) : call scheduler unit :=
  t <~ ask (fun s => task s index);
  if stack_base t =? 0 then ret tt else
  verify_stack_canary w index ;~
  if negb (guard_unmapped w index) then kernel_panic "Kernel task stack guard page is mapped." else
  match find_first 0 SCHEDULER_STACK_PAGES (fun page => (arr (stack_frames t) page =? 0) || negb (page_owned w index page)) with
  | Some page =>
      if arr (stack_frames t) page =? 0 then kernel_panic "Kernel task stack ownership is incomplete."
      else kernel_panic "Kernel task stack mapping ownership mismatch."
  | None => update (without_stack index)
  end.

Definition reapable (s : scheduler) (index : Z) : bool := pending s index && negb (index =? current_task s).

Fixpoint reap_loop (w : answers) (n : nat) (index : Z) : call scheduler unit :=
  match n with
  | O => ret tt
  | S n =>
      yes <~ ask (fun s => reapable s index);
      (if yes : bool then reap_task_stack w index ;~ update (clear_pending index) else ret tt) ;~
      reap_loop w n (index + 1)
  end.

Definition reap_pending_stacks (w : answers) : call scheduler unit :=
  count <~ ask task_count;
  found <~ ask (fun s => find_first 1 count (reapable s));
  let switched_to_kernel := match found with Some _ => negb (current_directory w =? kernel_directory w) | None => false end in
  if switched_to_kernel && negb (space_entered w (kernel_directory w))
  then kernel_panic "Failed to enter kernel address space for stack cleanup." else
  reap_loop w (Z.to_nat (count - 1)) 1 ;~
  if switched_to_kernel && negb (space_entered w (current_directory w))
  then kernel_panic "Failed to restore address space after stack cleanup." else ret tt.

(** ** Choosing the next task *)

(** [schedule_from_frame] after the frame has been saved. *)
Definition choose_task (w : answers) (frame : Z) (force : bool) : call scheduler Z :=
  t <~ ask (fun s => task s (current_task s));
  if negb force && (task_state t =? TASK_RUNNABLE) && (1 <? ticks_left t) then
    update (fun s => set_task (current_task s) (with_slice t (priority t) (ticks_left t -32 1) (switches t)) s) ;~ ret frame
  else
  next <~ ask find_next_runnable;
  if next =? SCHEDULER_MAX_TASKS then kernel_panic "Scheduler has no runnable task." else
  current <~ ask current_task;
  if next =? current then ret frame else
  t <~ ask (fun s => task s next);
  update (fun s => set_task next (with_slice t (priority t) (priority t) (switches t +32 1)) (set_current s next)) ;~
  if negb (space_entered w (address_space t)) then kernel_panic "Task address-space switch failed." else
  ret (task_frame t).

(** [scheduler_on_user_fault] and [scheduler_on_user_exit] between their guard and their last call; the
    messages of the task are removed from the ring of [Ipc]. *)
Definition end_user_task (w : answers) (message : string) : call scheduler unit :=
  update end_current ;~
  update mark_current ;~
  index <~ ask current_task;
  id <~ ask scheduler_current_task_id;
  if negb (process_reaped w index id) then kernel_panic message else ret tt.

Definition user_task_runs (s : scheduler) : bool :=
  scheduler_started s && (current_task s <? task_count s) && (task_mode (task s (current_task s)) =? TASK_USER).

(** A user task that would return to an address it cannot execute ends as if it had faulted, and the
    scheduler is entered again, with new answers. The task has ended then, so that this happens at most
    once: two rounds are enough, and one when the current task has ended. *)
Fixpoint schedule (rounds : list answers) (frame : Z) (force : bool) : call scheduler Z :=
  match rounds with
  | [] => fun _ => Stuck
  | w :: rounds =>
      idle <~ ask (fun s => negb (scheduler_started s) || (task_count s =? 0) || (frame =? 0));
      if idle : bool then ret frame else
      current <~ ask current_task;
      verify_stack_canary w current ;~
      reap_pending_stacks w ;~
      t <~ ask (fun s => task s (current_task s));
      if (task_mode t =? TASK_USER) && (task_state t =? TASK_RUNNABLE) && returns_to_user w && negb (user_executable w) then
        runs <~ ask user_task_runs;
        if negb runs then ret frame else
        end_user_task w "Unowned user task faulted." ;~ schedule rounds frame true
      else
      (if task_mode t =? TASK_USER then ret tt
       else update (fun s => set_task (current_task s) (with_frame (task s (current_task s)) frame) s)) ;~
      choose_task w frame force
  end.

Definition schedule_from_frame (w w' : answers) (frame : Z) (force : bool) : call scheduler Z := schedule [w; w'] frame force.

Definition scheduler_on_timer (w w' : answers) (frame : Z) : call scheduler Z := schedule_from_frame w w' frame false.

Definition scheduler_on_yield (w w' : answers) (frame : Z) : call scheduler Z := schedule_from_frame w w' frame true.

Definition scheduler_on_user_fault (w w' : answers) (frame : Z) : call scheduler Z :=
  runs <~ ask user_task_runs;
  if negb runs then ret frame else
  end_user_task w "Unowned user task faulted." ;~ schedule [w'] frame true.

Definition scheduler_on_user_exit (w w' : answers) (frame : Z) : call scheduler Z :=
  runs <~ ask user_task_runs;
  if negb runs then ret frame else
  end_user_task w "Unowned user task exited." ;~ schedule [w'] frame true.

(** Queries. *)
Definition scheduler_task_runs (s : scheduler) (index : Z) : Z := if task_count s <=? index then 0 else switches (task s index).
Definition scheduler_task_name (s : scheduler) (index : Z) : list Z := if task_count s <=? index then [] else task_name (task s index).
Definition scheduler_task_id (s : scheduler) (index : Z) : Z := if task_count s <=? index then 0 else task_id (task s index).
Definition scheduler_blocked_count (s : scheduler) : Z :=
  for_loop 0 (task_count s) (fun index blocked => if task_state (task s index) =? TASK_BLOCKED then blocked +32 1 else blocked) 0.
