(* ===== verification/SchedulerSpec.v ===== *)
(** * Properties of the task table

    The invariant of the table, kept slot by slot, and that the operations outside the interrupts keep
    it; new identifiers differ from those given out before. *)

From S2P Require Import Prelude KernelCall PagingState PagingEntry Scheduler.
Local Open Scope c_scope.
Local Open Scope Z_scope.

(** ** Access to the table *)

Definition slot_index (i : Z) : Prop := 0 <= i < 16.

Lemma task_set_eq i t s : length (tasks s) = 16%nat -> slot_index i -> task (set_task i t s) i = t.
Proof. intros Hl Hi. unfold task, set_task. cbn [tasks]. apply list_lookup_total_insert_eq. unfold slot_index in Hi. lia. Qed.

Lemma task_set_ne i j t s : slot_index i -> slot_index j -> i <> j -> task (set_task i t s) j = task s j.
Proof.
  intros Hi Hj Hne. unfold task, set_task. cbn [tasks]. apply list_lookup_total_insert_ne. unfold slot_index in *. lia.
Qed.

Lemma task_set i j t s : length (tasks s) = 16%nat -> slot_index i -> slot_index j ->
  task (set_task i t s) j = if decide (i = j) then t else task s j.
Proof. intros Hl Hi Hj. case_decide as E; [subst; by apply task_set_eq|by apply task_set_ne]. Qed.

(** ** The invariant *)

(** Where the stack of a slot lies. *)
Definition stack_area (i : Z) : Z := 0xC0000000 + i * 0x9000.

(** Eight frames and a canary. *)
Definition stack_owned (t : scheduler_task) : Prop :=
  length (stack_frames t) = 8%nat /\ Forall (fun frame => frame <> 0) (stack_frames t) /\ stack_canary t <> 0.

(** A task of a slot other than the first has a stack in the area of its slot, or it has ended; its stack
    waits to be given back only when it has ended. *)
Record slot_ok (count generation : Z) (reap : bool) (i : Z) (t : scheduler_task) : Prop := {
  so_slice : 1 <= ticks_left t <= priority t /\ priority t <= 8;
  so_state : task_state t = TASK_RUNNABLE \/ task_state t = TASK_TERMINATED \/ task_state t = TASK_BLOCKED;
  so_mode : task_mode t = TASK_KERNEL \/ task_mode t = TASK_USER;
  so_id : task_id t = 0 \/ (1 <= i /\ 1 <= generation /\ task_id t = generation * 256 + i);
  so_first : i = 0 -> stack_base t = 0 /\ task_mode t = TASK_KERNEL /\ task_id t = 0 /\ reap = false;
  so_stack : 1 <= i ->
    (stack_base t = 0 /\ task_frame t = 0 /\ task_state t = TASK_TERMINATED /\ reap = false) \/
    (stack_base t = stack_area i /\ task_frame t <> 0 /\ i < count /\ stack_owned t /\ task_id t <> 0 /\
     (reap = true -> task_state t = TASK_TERMINATED))
}.

Record table_ok (s : scheduler) : Prop := {
  tk_length : length (tasks s) = 16%nat;
  tk_generations : length (slot_generation s) = 16%nat;
  tk_generation : forall i, slot_index i -> 0 <= arr (slot_generation s) i <= SCHEDULER_MAX_GENERATION;
  tk_count : 1 <= task_count s <= 16;
  tk_current : 0 <= current_task s < task_count s;
  tk_running : current_task s <> 0 -> stack_base (task s (current_task s)) <> 0;
  tk_mask : is_u32 (pending_reap_mask s);
  tk_slots : forall i, slot_index i -> slot_ok (task_count s) (arr (slot_generation s) i) (pending s i) i (task s i)
}.

Lemma pending_bit s i : slot_index i -> pending s i = Z.testbit (pending_reap_mask s) i.
Proof.
  unfold slot_index, pending, shl32. intros Hi. rewrite Z.shiftl_1_l, u32_id, flag_pow2 by (try apply pow2_u32; lia). done.
Qed.

Lemma mark_pending_spec i j s : slot_index i -> slot_index j ->
  pending (mark_pending i s) j = (i =? j) || pending s j.
Proof.
  intros Hi Hj. rewrite !pending_bit by done. unfold mark_pending. cbn [pending_reap_mask set_pending].
  unfold shl32, slot_index in *. rewrite Z.shiftl_1_l, u32_id by (apply pow2_u32; lia).
  rewrite Z.lor_spec, Z.pow2_bits_eqb by lia. apply orb_comm.
Qed.

Lemma clear_pending_spec i j s : slot_index i -> slot_index j ->
  pending (clear_pending i s) j = negb (i =? j) && pending s j.
Proof.
  intros Hi Hj. rewrite !pending_bit by done. unfold clear_pending. cbn [pending_reap_mask set_pending].
  unfold shl32, slot_index in *. rewrite Z.shiftl_1_l, (u32_id (2 ^ i)) by (apply pow2_u32; lia).
  rewrite Z.land_spec, not32_testbit, Z.pow2_bits_eqb by (lia || apply pow2_u32; lia). apply andb_comm.
Qed.

Lemma clear_ok count generation i : slot_ok count generation false i clear_task.
Proof. split; cbn; [unfold SCHEDULER_DEFAULT_PRIORITY; lia|by right; left|by left|by left|done|by left]. Qed.

(** ** Identifiers *)

(** An identifier that some task has had. *)
Definition issued (s : scheduler) (id : Z) : Prop :=
  exists i g, 1 <= i < 16 /\ 1 <= g <= arr (slot_generation s) i /\ id = g * 256 + i.

Definition generations_le (s s' : scheduler) : Prop := forall i, slot_index i -> arr (slot_generation s) i <= arr (slot_generation s') i.

Lemma issued_le s s' id : generations_le s s' -> issued s id -> issued s' id.
Proof. intros Hle (i & g & Hi & Hg & ->). exists i, g. specialize (Hle i ltac:(split; lia)). split_and!; (done || lia). Qed.

Lemma table_issued s i : table_ok s -> slot_index i -> task_id (task s i) <> 0 -> issued s (task_id (task s i)).
Proof.
  intros Hok Hi Hne. destruct (so_id _ _ _ _ _ (tk_slots _ Hok i Hi)) as [?|(H1 & H2 & ->)]; [done|].
  exists i, (arr (slot_generation s) i). unfold slot_index in Hi. split_and!; (done || lia).
Qed.

(** Two tasks do not share an identifier. *)
Lemma ids_unique s i j : table_ok s -> slot_index i -> slot_index j -> task_id (task s i) <> 0 ->
  task_id (task s i) = task_id (task s j) -> i = j.
Proof.
  intros Hok Hi Hj Hne E. destruct (so_id _ _ _ _ _ (tk_slots _ Hok i Hi)) as [?|(_ & _ & Ei)]; [done|].
  destruct (so_id _ _ _ _ _ (tk_slots _ Hok j Hj)) as [?|(_ & _ & Ej)]; [congruence|]. unfold slot_index in *. lia.
Qed.

(** ** Changes of the table *)

(** A change keeps the invariant; generations do not go down; an identifier that is given out is new;
    a slot keeps its identifier, or it has none, or it has the new one. *)
Record stepped (s : scheduler) (new : option Z) (s' : scheduler) : Prop := {
  st_ok : table_ok s';
  st_generations : generations_le s s';
  st_new : forall id, new = Some id -> ~ issued s id /\ issued s' id;
  st_ids : forall i, slot_index i ->
    task_id (task s' i) = task_id (task s i) \/ task_id (task s' i) = 0 \/ new = Some (task_id (task s' i))
}.

Lemma stepped_refl s : table_ok s -> stepped s None s.
Proof. intros Hok. split; [done|by intros i _|done|by left]. Qed.

Lemma stepped_trans s s1 s2 : stepped s None s1 -> stepped s1 None s2 -> stepped s None s2.
Proof.
  intros [A1 A2 A3 A4] [B1 B2 B3 B4]. split; [done| |done|].
  - intros i Hi. specialize (A2 i Hi). specialize (B2 i Hi). lia.
  - intros i Hi. destruct (B4 i Hi) as [E|[E|?]]; [|by right; left|done]. rewrite E. by apply A4.
Qed.

(** A change that leaves the tasks, their number, the running task and the generations alone. *)
Lemma stepped_same s s' : table_ok s -> table_ok s' -> tasks s' = tasks s -> slot_generation s' = slot_generation s -> stepped s None s'.
Proof. intros Hok Hok' Et Eg. split; [done|intros i _; by rewrite Eg|done|]. intros i _. left. unfold task. by rewrite Et. Qed.

Section Table.
Context (s : scheduler).
Hypothesis Hok : table_ok s.

Lemma count_slot i : 0 <= i < task_count s -> slot_index i.
Proof using Hok. pose proof (tk_count _ Hok). unfold slot_index. lia. Qed.

Lemma current_slot : slot_index (current_task s).
Proof using Hok. apply count_slot, Hok. Qed.

Lemma table_set i t : slot_index i -> stack_base t = stack_base (task s i) \/ i <> current_task s ->
  slot_ok (task_count s) (arr (slot_generation s) i) (pending s i) i t -> table_ok (set_task i t s).
Proof using Hok.
  intros Hi Hb Ht. pose proof current_slot as Hc. destruct Hok as [H1 H2 H3 H4 H5 HR H6 H7]. split; try done.
  - cbn. by rewrite length_insert.
  - intros Hne. change (current_task (set_task i t s)) with (current_task s) in *. rewrite task_set by done.
    case_decide as E; [|by apply HR]. subst i. destruct Hb as [->|?]; [by apply HR|done].
  - intros j Hj. rewrite task_set by done. case_decide as E; [by subst|by apply H7].
Qed.

Lemma stepped_set i t : slot_index i -> stack_base t = stack_base (task s i) \/ i <> current_task s ->
  task_id t = task_id (task s i) \/ task_id t = 0 ->
  slot_ok (task_count s) (arr (slot_generation s) i) (pending s i) i t -> stepped s None (set_task i t s).
Proof using Hok.
  intros Hi Hb Hid Ht. split; [by apply table_set|by intros j _|done|]. intros j Hj. rewrite task_set by (done || apply Hok).
  case_decide; [subst; tauto|by left].
Qed.

(** A change of the time slice, or of a live task's state to another live one. *)
Lemma slot_slice count generation reap i t p ticks n : slot_ok count generation reap i t -> 1 <= ticks <= p -> p <= 8 ->
  slot_ok count generation reap i (with_slice t p ticks n).
Proof. intros [H1 H2 H3 H4 H5 H6] ? ?. by split. Qed.

Lemma slot_live count generation reap i t x : slot_ok count generation reap i t ->
  x = TASK_RUNNABLE \/ x = TASK_BLOCKED -> task_state t <> TASK_TERMINATED -> slot_ok count generation reap i (with_state t x).
Proof.
  intros [H1 H2 H3 H4 H5 H6] Hx Hne. split; try done; cbn; [naive_solver|].
  intros Hi. destruct (H6 Hi) as [(_ & _ & ? & _)|(? & ? & ? & ? & ? & Hr)]; [done|]. right. split_and!; try done.
  intros Er. by specialize (Hr Er).
Qed.

Lemma set_priority_ok index p : 0 <= index -> 0 <= p -> stepped s None (snd (scheduler_set_priority index p s)).
Proof using Hok.
  intros Hi Hp. unfold scheduler_set_priority, SCHEDULER_MAX_PRIORITY. case_if; [by apply stepped_refl|]. cbn [snd].
  assert (slot_index index) as Hs by (apply count_slot; lia). apply stepped_set; [done|by left..|]. apply slot_slice; [by apply Hok|lia..].
Qed.

Lemma block_task_ok index : 0 <= index -> stepped s None (snd (scheduler_block_task index s)).
Proof using Hok.
  intros Hi. unfold scheduler_block_task. case_if; [by apply stepped_refl|]. cbn [snd].
  assert (slot_index index) as Hs by (apply count_slot; lia). apply stepped_set; [done|by left..|].
  apply slot_live; [by apply Hok|by right|unfold TASK_RUNNABLE, TASK_TERMINATED in *; lia].
Qed.

Lemma wake_unlocked_ok index : 0 <= index -> stepped s None (snd (scheduler_wake_task_unlocked index s)).
Proof using Hok.
  intros Hi. unfold scheduler_wake_task_unlocked. case_if; [by apply stepped_refl|]. cbn [snd].
  assert (slot_index index) as Hs by (apply count_slot; lia). pose proof (tk_slots _ Hok index Hs) as Ht. apply stepped_set; [done|by left..|].
  apply slot_slice.
  - apply slot_live; [done|by left|unfold TASK_BLOCKED, TASK_TERMINATED in *; lia].
  - cbn. destruct (so_slice _ _ _ _ _ Ht). lia.
  - cbn. destruct (so_slice _ _ _ _ _ Ht). lia.
Qed.

Lemma block_current_ok : stepped s None (snd (scheduler_block_current s)).
Proof using Hok.
  unfold scheduler_block_current. case_if; [by apply stepped_refl|]. cbn [snd]. pose proof current_slot as Hs. apply stepped_set; [done|by left..|].
  apply slot_live; [by apply Hok|by right|unfold TASK_RUNNABLE, TASK_TERMINATED in *; lia].
Qed.

Lemma start_ok : stepped s None (scheduler_start s).
Proof using Hok.
  pose proof (tk_slots _ Hok 0 ltac:(by split)) as H0.
  assert (stepped s None (set_task 0 (with_state (task s 0) TASK_TERMINATED) s)) as H.
  { apply stepped_set; [by split|by left..|]. destruct H0 as [H1 H2 H3 H4 H5 H6]. split; try done; cbn; by right; left. }
  eapply stepped_trans; [apply H|]. destruct H as [H _ _ _]. apply stepped_same; try done. destruct H. by split.
Qed.

(** The chosen task. *)
Lemma next_runnable_spec : let n := find_next_runnable s in
  (n = SCHEDULER_MAX_TASKS /\ forall i, 0 <= i < task_count s -> can_run s i = false) \/
  (0 <= n < task_count s /\ can_run s n = true /\ exists o, 1 <= o <= task_count s /\ n = (current_task s + o) mod task_count s /\
     forall o', 1 <= o' < o -> can_run s ((current_task s + o') mod task_count s) = false).
Proof using Hok.
  pose proof (tk_count _ Hok) as Hc. pose proof (tk_current _ Hok) as Hcur. cbv zeta. unfold find_next_runnable.
  assert (forall o, 1 <= o <= task_count s -> current_task s +32 o = current_task s + o) as Hw
    by (intros o Ho; apply u32_id; unfold is_u32; lia).
  destruct (find_first _ _ _) as [o|] eqn:E; [right|left].
  - apply find_first_Some in E as (Ho & Hr & Hmin). rewrite Hw in * by lia. split; [apply Z.mod_pos_bound; lia|]. split; [done|].
    exists o. split; [lia|]. split; [done|]. intros o' Ho'. specialize (Hmin o' ltac:(lia)). by rewrite Hw in Hmin by lia.
  - split; [done|]. pose proof (proj1 (find_first_None _ _ _) E) as Hn. intros i Hi.
    destruct (decide (current_task s < i)) as [Hlt|Hge].
    + specialize (Hn (i - current_task s) ltac:(lia)). cbv beta in Hn. rewrite Hw in Hn by lia. rewrite Z.mod_small in Hn by lia. by replace (_ + _) with i in Hn by lia.
    + specialize (Hn (i - current_task s + task_count s) ltac:(lia)). cbv beta in Hn. rewrite Hw in Hn by lia.
      replace (current_task s + _) with (i + 1 * task_count s) in Hn by lia. by rewrite Z.mod_add, Z.mod_small in Hn by lia.
Qed.

(** ** Registering, terminating and reaping *)

Lemma find_slot_spec : find_task_slot s = SCHEDULER_MAX_TASKS \/
  (1 <= find_task_slot s < 16 /\ find_task_slot s <> current_task s /\ find_task_slot s <= task_count s /\
   pending s (find_task_slot s) = false).
Proof using Hok.
  pose proof (tk_count _ Hok) as Hc. pose proof (tk_current _ Hok) as Hcur. pose proof (tk_running _ Hok) as Hrun. unfold find_task_slot. destruct (find_first _ _ _) as [i|] eqn:E.
  - right. apply find_first_Some in E as (Hi & Hp & _). split_bools. split; [lia|]. split; [|split; [lia|done]]. intros E. rewrite <- E in Hrun. apply Hrun; lia.
  - case_if; [right|by left]. unfold SCHEDULER_MAX_TASKS in *.
    destruct (so_stack _ _ _ _ _ (tk_slots _ Hok (task_count s) ltac:(split; lia)) ltac:(lia)) as [(_ & _ & _ & ?)|(_ & _ & ? & _)]; [|lia].
    split_and!; try done; lia.
Qed.

Definition with_generation (slot : Z) (t : scheduler_task) : scheduler :=
  set_generation (set_task slot t s) slot (next_generation s slot).

Lemma next_generation_spec slot : slot_index slot -> arr (slot_generation s) slot < SCHEDULER_MAX_GENERATION ->
  next_generation s slot = arr (slot_generation s) slot + 1 /\ task_identifier (next_generation s slot) slot = (arr (slot_generation s) slot + 1) * 256 + slot.
Proof using Hok.
  intros Hs Hg. pose proof (tk_generation _ Hok slot Hs) as Hr. unfold SCHEDULER_MAX_GENERATION in *. unfold slot_index in Hs.
  assert (next_generation s slot = arr (slot_generation s) slot + 1) as E.
  { unfold next_generation. rewrite (u32_id (_ + 1)) by (unfold is_u32; lia). case_if; [lia|done]. }
  split; [done|]. rewrite E. unfold task_identifier, shl32. rewrite Z.shiftl_mul_pow2, u32_id by (unfold is_u32; lia).
  rewrite <- (Z.shiftl_mul_pow2 _ 8) by lia. rewrite Z.lor_comm, lor_shiftl by lia. lia.
Qed.

Lemma with_generation_slots slot t i : slot_index slot -> slot_index i ->
  task (with_generation slot t) i = (if decide (slot = i) then t else task s i) /\
  arr (slot_generation (with_generation slot t)) i = if decide (slot = i) then next_generation s slot else arr (slot_generation s) i.
Proof using Hok.
  intros Hs Hi. split; [exact (task_set slot i t s (tk_length _ Hok) Hs Hi)|]. unfold with_generation. cbn [slot_generation set_generation set_task].
  pose proof (tk_generations _ Hok). unfold slot_index in *. case_decide as E; [subst; apply arr_set_eq; lia|apply arr_set_ne; lia].
Qed.

Lemma with_generation_running slot t : slot_index slot -> slot <> current_task s ->
  current_task s <> 0 -> stack_base (task (with_generation slot t) (current_task s)) <> 0.
Proof using Hok.
  intros Hs Hc Hne. destruct (with_generation_slots slot t _ Hs current_slot) as [-> _]. rewrite decide_False by done. by apply Hok.
Qed.

Lemma with_generation_ok slot t : slot_index slot -> slot <> current_task s -> arr (slot_generation s) slot < SCHEDULER_MAX_GENERATION ->
  slot_ok (task_count s) (next_generation s slot) (pending s slot) slot t -> table_ok (with_generation slot t).
Proof using Hok.
  intros Hs Hc Hg Ht. pose proof (next_generation_spec slot Hs Hg) as [Eg _]. pose proof (tk_generation _ Hok) as H3.
  split; try apply Hok; try (by apply with_generation_running).
  - cbn. rewrite length_insert. apply Hok.
  - cbn. rewrite length_arr_set. apply Hok.
  - intros i Hi. destruct (with_generation_slots slot t i Hs Hi) as [_ ->]. case_decide; [|by apply H3]. specialize (H3 slot Hs). lia.
  - intros i Hi. destruct (with_generation_slots slot t i Hs Hi) as [-> ->]. change (pending (with_generation slot t) i) with (pending s i).
    change (task_count (with_generation slot t)) with (task_count s). case_decide; [by subst|by apply Hok].
Qed.

Lemma slot_count count count' generation reap i t : count <= count' -> slot_ok count generation reap i t -> slot_ok count' generation reap i t.
Proof.
  intros Hc [H1 H2 H3 H4 H5 H6]. split; try done. intros Hi. destruct (H6 Hi) as [?|(? & ? & ? & ?)]; [by left|right]. split; [done|]. split; [done|]. split; [lia|done].
Qed.

Lemma added_ok slot t : 1 <= slot < 16 -> slot <> current_task s -> slot <= task_count s -> pending s slot = false -> arr (slot_generation s) slot < SCHEDULER_MAX_GENERATION ->
  slot_ok 16 (next_generation s slot) false slot t -> table_ok (added_task slot (with_generation slot t)).
Proof using Hok.
  intros Hs Hcur Hle Hp Hg Ht. assert (slot_index slot) as Hsi by (split; lia). pose proof (tk_count _ Hok) as Hc.
  assert (forall c, c = task_count (added_task slot (with_generation slot t)) -> task_count s <= c <= 16 /\ slot < c) as Hcount.
  { intros c ->. cbn [added_task task_count]. change (task_count (with_generation slot t)) with (task_count s).
    case_if; [rewrite u32_id by (unfold is_u32; lia)|]; lia. }
  destruct (Hcount _ eq_refl) as [Hc1 Hc2]. pose proof (next_generation_spec slot Hsi Hg) as [Eg _]. pose proof (tk_generation _ Hok) as H3. split.
  - cbn. rewrite length_insert. apply Hok.
  - cbn. rewrite length_arr_set. apply Hok.
  - intros i Hi. cbn [added_task slot_generation]. destruct (with_generation_slots slot t i Hsi Hi) as [_ ->].
    case_decide; [|by apply H3]. specialize (H3 slot Hsi). lia.
  - lia.
  - change (current_task (added_task slot (with_generation slot t))) with (current_task s). pose proof (tk_current _ Hok). lia.
  - by apply with_generation_running.
  - apply Hok.
  - intros i Hi. change (task (added_task slot (with_generation slot t)) i) with (task (with_generation slot t) i).
    change (slot_generation (added_task slot (with_generation slot t))) with (slot_generation (with_generation slot t)).
    destruct (with_generation_slots slot t i Hsi Hi) as [-> ->].
    change (pending (added_task slot (with_generation slot t)) i) with (pending s i). case_decide as E.
    + subst i. rewrite Hp. destruct Ht as [T1 T2 T3 T4 T5 T6]. split; try done. intros Hi'. destruct (T6 Hi') as [?|(? & ? & _ & ?)]; [by left|right].
      split_and!; try done; naive_solver lia.
    + eapply slot_count; [apply Hc1|by apply Hok].
Qed.

End Table.

(** ** The table at the start *)

Lemma init_table_ok directory : table_ok (scheduler_init directory).
Proof.
  assert (forall i, arr (slot_generation (scheduler_init directory)) i = 0) as Hg.
  { intros i. unfold arr, scheduler_init. cbn [slot_generation]. change (replicate 16 0) with (repeat 0 16). apply nth_repeat. }
  split; try done; try (cbn; lia).
  - intros i _. rewrite Hg. by compute.
  - intros i Hi. rewrite Hg. replace (pending (scheduler_init directory) i) with false.
    2: { symmetry. rewrite pending_bit by done. apply Z.bits_0. }
    unfold slot_index in Hi. unfold task, scheduler_init. cbn [tasks task_count]. destruct (Z.to_nat i) as [|n] eqn:E.
    + assert (i = 0) as -> by lia. split; cbn; try done; by left.
    + change ((_ :: replicate 15 clear_task) !!! S n) with (replicate 15 clear_task !!! n). rewrite lookup_total_replicate_2 by lia. apply clear_ok.
Qed.

(** A new identifier has not been given out before. *)
Lemma new_id s slot t : table_ok s -> 1 <= slot < 16 -> arr (slot_generation s) slot < SCHEDULER_MAX_GENERATION ->
  let id := task_identifier (next_generation s slot) slot in
  ~ issued s id /\ issued (with_generation s slot t) id /\ generations_le s (with_generation s slot t) /\ is_u32 id /\ id <> 0.
Proof.
  intros Hok Hs Hg. cbv zeta. assert (slot_index slot) as Hsi by (split; lia). destruct (next_generation_spec s Hok slot Hsi Hg) as [Eg ->].
  pose proof (tk_generation _ Hok slot Hsi) as Hr. unfold SCHEDULER_MAX_GENERATION in *. split_and!.
  - intros (i & g & Hi & Hgi & E). assert (i = slot) as -> by lia. lia.
  - exists slot, (arr (slot_generation s) slot + 1). destruct (with_generation_slots s Hok slot t slot Hsi Hsi) as [_ ->].
    rewrite decide_True by done. split_and!; (done || lia).
  - intros i Hi. destruct (with_generation_slots s Hok slot t i Hsi Hi) as [_ ->]. case_decide; [subst; lia|lia].
  - unfold is_u32. lia.
  - lia.
Qed.

Lemma wake_id_ok id s : table_ok s -> stepped s None (snd (scheduler_wake_task_id id s)).
Proof.
  intros Hok. unfold scheduler_wake_task_id. case_if; [by apply stepped_refl|]. destruct (find_first _ _ _) as [i|] eqn:E; [|by apply stepped_refl].
  apply find_first_Some in E as (Hi & _). apply wake_unlocked_ok; [done|lia].
Qed.

Lemma wake_users_ok s : table_ok s -> stepped s None (snd (scheduler_wake_user_tasks s)).
Proof.
  intros Hok. unfold scheduler_wake_user_tasks. pose proof (tk_count _ Hok).
  apply (for_loop_inv (fun _ (x : Z * scheduler) => stepped s None (snd x))).
  - lia.
  - by apply stepped_refl.
  - intros i [n s'] Hi Hs'. case_if; [done|]. pose proof (wake_unlocked_ok s' (st_ok _ _ _ Hs') i ltac:(lia)) as Hw.
    destruct (scheduler_wake_task_unlocked i s'). by eapply stepped_trans.
Qed.

(** ** Registering *)

Lemma task_stack_area slot : slot_index slot -> task_stack slot = stack_area slot.
Proof.
  unfold slot_index, task_stack, SCHEDULER_STACK_BASE, stack_area. change SCHEDULER_STACK_STRIDE with 0x9000. intros Hs.
  rewrite (u32_id (slot * 0x9000)) by (unfold is_u32; lia). apply u32_id. unfold is_u32. lia.
Qed.

(** No slot has a canary that is zero, or a frame at the null pointer. *)
Lemma stack_words slot : 1 <= slot < 16 ->
  Z.lxor (Z.lxor SCHEDULER_STACK_CANARY (task_stack slot)) slot <> 0 /\
  ((task_stack slot +32 SCHEDULER_STACK_STRIDE) -32 INTERRUPT_FRAME_SIZE) -32 8 <> 0.
Proof.
  intros Hs.
  assert (forallb (fun slot => negb (Z.lxor (Z.lxor SCHEDULER_STACK_CANARY (task_stack slot)) slot =? 0) &&
    negb (((task_stack slot +32 SCHEDULER_STACK_STRIDE) -32 INTERRUPT_FRAME_SIZE) -32 8 =? 0)) (map Z.of_nat (seq 1 15)) = true) as H by by vm_compute.
  rewrite forallb_forall in H. assert (In slot (map Z.of_nat (seq 1 15))) as Hin by (apply in_map_iff; exists (Z.to_nat slot); rewrite in_seq; lia).
  specialize (H slot Hin). cbv beta in H. split_bools. split; by apply Z.eqb_neq.
Qed.

(** The frames of a new stack, if there is one. *)
Definition stack_answer (stack : option (list Z)) : Prop :=
  forall frames, stack = Some frames -> length frames = 8%nat /\ Forall (fun frame => frame <> 0) frames.

(** What both functions write into a new task. *)
Definition fills (fill : list Z -> Z -> scheduler_task) : Prop := forall name id,
  ticks_left (fill name id) = 1 /\ priority (fill name id) = 1 /\ task_state (fill name id) = TASK_RUNNABLE /\
  (task_mode (fill name id) = TASK_KERNEL \/ task_mode (fill name id) = TASK_USER) /\ task_id (fill name id) = id.

(** The identifier of the task that a call has added. *)
Definition added (ok : bool) (s : scheduler) : option Z := if ok then Some (task_id (task s (last_added_task s))) else None.

Lemma stacked_ok s t slot frames : table_ok s -> 1 <= slot < 16 -> arr (slot_generation s) slot < SCHEDULER_MAX_GENERATION ->
  ticks_left t = 1 -> priority t = 1 -> task_state t = TASK_RUNNABLE -> task_mode t = TASK_KERNEL \/ task_mode t = TASK_USER ->
  task_id t = task_identifier (next_generation s slot) slot -> length frames = 8%nat -> Forall (fun frame => frame <> 0) frames ->
  slot_ok 16 (next_generation s slot) false slot (stacked t slot frames).
Proof.
  intros Hok Hs Hg H1 H2 H3 H4 H5 Hf Hnz. assert (slot_index slot) as Hsi by (split; lia). destruct (stack_words slot Hs) as [Hcanary Hframe].
  destruct (next_generation_spec s Hok slot Hsi Hg) as [Eg Eid]. pose proof (tk_generation _ Hok slot Hsi).
  split; cbn [stacked with_frame with_stack ticks_left priority task_state task_mode task_id stack_base task_frame stack_frames].
  - lia.
  - by left.
  - done.
  - right. split; [lia|]. split; [lia|]. rewrite H5, Eid, Eg. done.
  - lia.
  - intros _. right. rewrite task_stack_area by done. split; [done|]. split; [by rewrite <- task_stack_area|]. split; [lia|]. split; [done|].
    rewrite H5, Eid, H3. split; [lia|done].
Qed.

Lemma set_with_generation s slot t x : set_task slot x (with_generation s slot t) = with_generation s slot x.
Proof. unfold with_generation, set_generation, set_task. cbn. by rewrite list_insert_insert_eq. Qed.

Lemma register_task_ok s fill name stack slot : table_ok s -> slot = find_task_slot s -> slot <> SCHEDULER_MAX_TASKS ->
  fills fill -> stack_answer stack -> let r := register_task fill name stack slot s in stepped s (added (fst r) (snd r)) (snd r).
Proof.
  intros Hok -> Hmax Hfill Hstack. destruct (find_slot_spec s Hok) as [?|(Hs & Hc & Hle & Hp)]; [done|].
  set (slot := find_task_slot s) in *. assert (slot_index slot) as Hsi by (split; lia).
  cbv zeta. unfold register_task. case_if; [by apply stepped_refl|]. destruct (copy_task_name _ _) as [ok copied]. case_if.
  { apply stepped_set; [done|done|by right|by right|]. rewrite Hp. destruct (clear_ok (task_count s) (arr (slot_generation s) slot) slot). by split. }
  assert (arr (slot_generation s) slot < SCHEDULER_MAX_GENERATION) as Hg by lia.
  set (t := fill copied _). destruct (Hfill copied (task_identifier (next_generation s slot) slot)) as (F1 & F2 & F3 & F4 & F5).
  change (set_generation (set_task slot t s) slot (next_generation s slot)) with (with_generation s slot t).
  assert (forall x j, slot_index j -> task (with_generation s slot x) j = if decide (slot = j) then x else task s j) as Htask
    by (intros x j Hj; by apply (with_generation_slots s Hok)).
  destruct stack as [frames|]; cbn [fst snd]; rewrite set_with_generation.
  - destruct (Hstack frames eq_refl) as [Hl Hnz]. pose proof (stacked_ok s t slot frames Hok Hs Hg F1 F2 F3 F4 F5 Hl Hnz) as Hst.
    set (x := stacked t slot frames) in *. destruct (new_id s slot x Hok Hs Hg) as (N1 & N2 & N3 & _).
    assert (added true (added_task slot (with_generation s slot x)) = Some (task_identifier (next_generation s slot) slot)) as ->.
    { unfold added. cbn [last_added_task added_task]. change (task (added_task slot ?y) slot) with (task y slot).
      rewrite Htask, decide_True by done. f_equal. exact F5. }
    split; [by apply added_ok|done|by intros id [= <-]|]. intros j Hj. change (task (added_task slot ?y) j) with (task y j).
    rewrite Htask by done. case_decide; [right; right; f_equal; symmetry; exact F5|by left].
  - destruct (new_id s slot clear_task Hok Hs Hg) as (_ & _ & N3 & _). split; [|done|done|].
    + apply with_generation_ok; [done..|]. rewrite Hp. apply clear_ok.
    + intros j Hj. rewrite Htask by done. case_decide; [by right; left|by left].
Qed.

Lemma add_task_ok s name entry directory stack : table_ok s -> stack_answer stack ->
  let r := scheduler_add_task name entry directory stack s in stepped s (added (fst r) (snd r)) (snd r).
Proof.
  intros Hok Hstack. unfold scheduler_add_task. destruct name; [|by apply stepped_refl]. do 2 (case_if; [by apply stepped_refl|]).
  apply register_task_ok; [done|done|lia| |done]. intros ? ?. by split_and!; try left.
Qed.

Lemma add_user_ok s name entry top space kernel current valid enters good leaves stack ok s' : table_ok s -> stack_answer stack ->
  scheduler_add_user_task_in_space name entry top space kernel current valid enters good leaves stack s = Done ok s' ->
  stepped s (added ok s') s'.
Proof.
  intros Hok Hstack. unfold scheduler_add_user_task_in_space. assert (stepped s (added false s) s) by by apply stepped_refl.
  destruct name as [name|]; [|by intros [= <- <-]]. case_if; [by intros [= <- <-]|]. case_if; [by intros [= <- <-]|]. case_if; [done|].
  case_if; [by intros [= <- <-]|]. unfold call_bind, ask, do. case_if; [by intros [= <- <-]|]. case_if; [by intros [= <- <-]|].
  pose proof (register_task_ok s (fun name id => new_user_task name entry top space id) name stack (find_task_slot s) Hok eq_refl) as H1.
  destruct (register_task _ _ _ _ _). intros [= <- <-]. apply H1; [lia| |done]. intros ? ?. by split_and!; try right.
Qed.

(** [scheduler_add_user_task] never adds a task: the current space is that of the kernel, which holds no
    user task, or the caller is not in the space of the kernel. *)
Lemma add_user_task_refused s name entry top kernel current valid enters good leaves stack :
  scheduler_add_user_task name entry top kernel current valid enters good leaves stack s = Done false s.
Proof.
  unfold scheduler_add_user_task, scheduler_add_user_task_in_space. destruct name; [|done]. case_if; [done|].
  split_bools; lia.
Qed.
