(* ===== verification/SchedulerSwitch.v ===== *)
(** * The scheduler's interrupts

    What the timer, a yield, a fault and an exit do to the table, for all answers of the memory side:
    the invariant holds afterwards; when the answers are sound and another task can run there is no
    panic; and each interrupt takes a tick of the running task or moves on towards every task that can
    run. *)

From S2P Require Import Prelude KernelCall PagingState PagingEntry Scheduler SchedulerSpec.
Local Open Scope c_scope.
Local Open Scope call_scope.
Local Open Scope Z_scope.

(** The memory side finds nothing wrong. *)
Record sound (w : answers) : Prop := {
  sd_canary : forall i, canary_intact w i = true;
  sd_guard : forall i, guard_unmapped w i = true;
  sd_page : forall i page, page_owned w i page = true;
  sd_space : forall d, space_entered w d = true;
  sd_process : forall i id, process_reaped w i id = true
}.

(** ** Changes before a task is chosen *)

(** The running task stays the same, and the other tasks that can run. *)
Record kept (s s' : scheduler) : Prop := {
  kp_step : stepped s None s';
  kp_count : task_count s' = task_count s;
  kp_current : current_task s' = current_task s;
  kp_started : scheduler_started s' = scheduler_started s;
  kp_run : forall i, slot_index i -> i <> current_task s -> can_run s' i = can_run s i;
  kp_slice : ticks_left (task s' (current_task s)) = ticks_left (task s (current_task s));
  kp_mode : task_mode (task s' (current_task s)) = task_mode (task s (current_task s))
}.

Lemma kept_refl s : table_ok s -> kept s s.
Proof. intros Hok. split; try done. by apply stepped_refl. Qed.

Lemma kept_trans s s1 s2 : kept s s1 -> kept s1 s2 -> kept s s2.
Proof.
  intros [A1 A2 A3 A4 A5 A6 A7] [B1 B2 B3 B4 B5 B6 B7]. rewrite A3 in *. split; try congruence.
  - by eapply stepped_trans.
  - intros i Hi Hne. rewrite B5, A5 by done. done.
Qed.

Section Kept.
Context (s : scheduler).
Hypothesis Hok : table_ok s.

(** A change of the running task. *)
Lemma kept_current t : stack_base t = stack_base (task s (current_task s)) -> task_id t = task_id (task s (current_task s)) ->
  ticks_left t = ticks_left (task s (current_task s)) -> task_mode t = task_mode (task s (current_task s)) ->
  slot_ok (task_count s) (arr (slot_generation s) (current_task s)) (pending s (current_task s)) (current_task s) t ->
  kept s (set_task (current_task s) t s).
Proof using Hok.
  intros E1 E2 E3 E4 Ht. pose proof (current_slot s Hok) as Hs. pose proof (tk_length _ Hok) as Hl. split; try done.
  - apply stepped_set; [done|done|by left..|done].
  - intros i Hi Hne. unfold can_run. by rewrite task_set_ne by done.
  - by rewrite task_set_eq.
  - by rewrite task_set_eq.
Qed.

Lemma end_current_kept : kept s (end_current s).
Proof using Hok.
  pose proof (current_slot s Hok) as Hs. apply kept_current; try done.
  destruct (tk_slots _ Hok _ Hs) as [T1 T2 T3 T4 T5 T6]. split; try done; cbn; [by right; left|].
  intros H. destruct (T6 H) as [(? & ? & ? & ?)|(? & ? & ? & ? & ? & ?)]; [by left|by right].
Qed.

Lemma save_frame_kept frame : frame <> 0 -> kept s (set_task (current_task s) (with_frame (task s (current_task s)) frame) s).
Proof using Hok.
  intros Hf. pose proof (current_slot s Hok) as Hs. apply kept_current; try done.
  destruct (tk_slots _ Hok _ Hs) as [T1 T2 T3 T4 T5 T6]. split; try done; cbn.
  intros H. destruct (T6 H) as [(Hb & _)|(? & ? & ?)]; [|by right]. by destruct (tk_running _ Hok ltac:(lia)).
Qed.

Lemma mark_current_kept : current_task s <> 0 -> task_state (task s (current_task s)) = TASK_TERMINATED -> kept s (mark_current s).
Proof using Hok.
  intros Hne Ht. pose proof (current_slot s Hok) as Hs. unfold mark_current.
  assert (table_ok (mark_pending (current_task s) s)) as Hok'; [|split; try done; by apply stepped_same].
  pose proof (tk_running _ Hok Hne) as Hrun. destruct Hok as [H1 H2 H3 H4 H5 HR H6 H7]. split; try done.
  - cbn [pending_reap_mask mark_pending set_pending]. unfold is_u32. change 4294967296 with (2 ^ 32).
    apply lor_range; [lia|done|]. unfold shl32. rewrite Z.shiftl_1_l. apply u32_range.
  - intros j Hj. rewrite mark_pending_spec by done. change (task (mark_pending _ s) j) with (task s j).
    change (task_count (mark_pending _ s)) with (task_count s). change (slot_generation (mark_pending _ s)) with (slot_generation s).
    destruct (Z.eqb_spec (current_task s) j) as [<-|]; [|by apply H7]. cbn [orb].
    destruct (H7 _ Hs) as [T1 T2 T3 T4 T5 T6]. split; try done. intros H. destruct (T6 H) as [[? _]|(? & ? & ? & ? & ? & ?)]; [done|by right].
Qed.

(** ** Giving stacks back *)

Lemma verify_ok w i : slot_index i -> ends (sound w) (verify_stack_canary w i s) (fun _ s' => s' = s).
Proof using Hok.
  intros Hi. unfold verify_stack_canary, call_bind, ask. case_if; [done|]. case_if; [|done]. cbn. intros Hw.
  pose proof (tk_slots _ Hok i Hi) as Ht. destruct (decide (i = 0)) as [E|]; [destruct (so_first _ _ _ _ _ Ht E) as [? _]; lia|].
  destruct (so_stack _ _ _ _ _ Ht ltac:(unfold slot_index in Hi; lia)) as [[? _]|(_ & _ & _ & (_ & _ & ?) & _)]; [lia|].
  rewrite (sd_canary w Hw) in *. split_bools; lia.
Qed.

Lemma reaped_kept i : 1 <= i < 16 -> i <> current_task s -> pending s i = true ->
  kept s (clear_pending i (without_stack i s)) /\ task (clear_pending i (without_stack i s)) (current_task s) = task s (current_task s).
Proof using Hok.
  intros Hi Hne Hp. assert (slot_index i) as Hs by (split; lia). pose proof (current_slot s Hok) as Hcs. pose proof (tk_length _ Hok) as Hl.
  pose (t := with_frame (with_stack (task s i) 0 (replicate 8 0) (stack_canary (task s i))) 0).
  assert (forall j, slot_index j -> task (clear_pending i (without_stack i s)) j = if decide (i = j) then t else task s j) as Htask
    by (intros j Hj; exact (task_set i j t s Hl Hs Hj)).
  assert (task_state (task s i) = TASK_TERMINATED) as Hended.
  { destruct (so_stack _ _ _ _ _ (tk_slots _ Hok i Hs) ltac:(lia)) as [(_ & _ & ? & _)|(_ & _ & _ & _ & _ & Hr)]; [done|by apply Hr]. }
  assert (table_ok (clear_pending i (without_stack i s))) as Hok'.
  { split; try apply Hok.
    - cbn. by rewrite length_insert.
    - cbn [current_task clear_pending set_pending without_stack set_reaps set_task]. rewrite Htask, decide_False by done. apply Hok.
    - cbn [pending_reap_mask clear_pending set_pending without_stack set_reaps set_task]. rewrite Z.land_comm.
      unfold is_u32. change 4294967296 with (2 ^ 32). apply land_range; [lia|apply Hok].
    - intros j Hj. rewrite clear_pending_spec, Htask by done. change (pending (without_stack i s) j) with (pending s j).
      change (task_count (clear_pending _ _)) with (task_count s). change (slot_generation (clear_pending _ _)) with (slot_generation s).
      case_decide as E; [subst j|replace (i =? j) with false by lia; by apply Hok].
      rewrite Z.eqb_refl. destruct (tk_slots _ Hok i Hs) as [T1 T2 T3 T4 T5 T6]. split; try done; cbn; [lia|by left]. }
  rewrite Htask, decide_False by done. split; [|done]. split; try done; try (by rewrite Htask, decide_False).
  - split; [done|by intros j _|done|]. intros j Hj. left. rewrite Htask by done. by case_decide; subst.
  - intros j Hj _. unfold can_run. rewrite Htask by done. case_decide; [subst j|done]. cbn. by rewrite Hended.
Qed.

Lemma reap_task_ok w i : 1 <= i < 16 -> i <> current_task s -> pending s i = true ->
  ends (sound w) ((reap_task_stack w i ;~ update (clear_pending i)) s)
    (fun _ s' => kept s s' /\ task s' (current_task s) = task s (current_task s)).
Proof using Hok.
  intros Hi Hne Hp. assert (slot_index i) as Hs by (split; lia). unfold reap_task_stack.
  destruct (so_stack _ _ _ _ _ (tk_slots _ Hok i Hs) ltac:(lia)) as [(_ & _ & _ & ?)|(Hb & _ & _ & (Hl & Hf & _) & _)]; [congruence|].
  unfold stack_area in Hb. unfold call_bind at 1 2, ask. case_if; [lia|].
  pose proof (verify_ok w i Hs) as Hv. unfold call_bind at 1. destruct (verify_stack_canary w i s) as [? s1| | |]; cbn [ends] in Hv; try done. subst s1.
  case_if; [intros Hw; by rewrite (sd_guard w Hw) in *|].
  destruct (find_first _ _ _) as [page|] eqn:E; [|by apply reaped_kept].
  apply find_first_Some in E as (Hpage & Hbad & _). cbv beta in Hbad. unfold SCHEDULER_STACK_PAGES in *.
  assert (arr (stack_frames (task s i)) page <> 0) as Hnz.
  { unfold arr. rewrite list.Forall_forall in Hf. apply Hf. apply list_elem_of_In, nth_In. lia. }
  case_if; [lia|]. intros Hw. rewrite (sd_page w Hw) in *. split_bools; lia.
Qed.
End Kept.

Lemma reap_loop_ok w n : forall s index, table_ok s -> 1 <= index -> index + Z.of_nat n <= 16 ->
  ends (sound w) (reap_loop w n index s) (fun _ s' => kept s s' /\ task s' (current_task s) = task s (current_task s)).
Proof.
  induction n as [|n IH]; intros s index Hok Hi Hn; [by split; [apply kept_refl|]|]. cbn [reap_loop]. unfold call_bind at 1, ask.
  apply (ends_bind _ (sound w) _ _ _ (fun _ s1 => kept s s1 /\ task s1 (current_task s) = task s (current_task s))); [done| |].
  - destruct (reapable s index) eqn:E; [|by split; [apply kept_refl|]]. unfold reapable in E. split_bools. apply reap_task_ok; (done || lia).
  - intros _ s1 [Hk Ht]. pose proof (st_ok _ _ _ (kp_step _ _ Hk)) as Hok1.
    eapply ends_weaken; [done|by apply IH; (done || lia)|]. intros _ s2 [Hk2 Ht2]. rewrite (kp_current _ _ Hk) in Ht2.
    split; [by eapply kept_trans|congruence].
Qed.

Lemma reap_pending_ok w s : table_ok s ->
  ends (sound w) (reap_pending_stacks w s) (fun _ s' => kept s s' /\ task s' (current_task s) = task s (current_task s)).
Proof.
  intros Hok. pose proof (tk_count _ Hok). unfold reap_pending_stacks. unfold call_bind at 1 2, ask. set (switched := match find_first _ _ _ with Some _ => _ | None => _ end).
  case_if; [intros Hw; rewrite (sd_space w Hw) in *; by split_bools|].
  eapply ends_bind; [done|apply reap_loop_ok; (done || lia)|]. intros [] s1 Hs1.
  case_if; [intros Hw; rewrite (sd_space w Hw) in *; by split_bools|done].
Qed.

(** ** Choosing a task *)

(** The steps from the running task to task [j], going round. *)
Definition distance (s : scheduler) (j : Z) : Z := (j - current_task s) mod task_count s.

(** A tick of the running task is used up, or every other task that can run is closer to its turn. *)
Definition progress (s s' : scheduler) : Prop :=
  (current_task s' = current_task s /\ ticks_left (task s' (current_task s)) = ticks_left (task s (current_task s)) - 1 /\
   1 < ticks_left (task s (current_task s))) \/
  forall j, 0 <= j < task_count s -> j <> current_task s -> can_run s j = true -> distance s' j < distance s j.

(** The same tasks can run, except the one that was running. *)
Record moved (s s' : scheduler) : Prop := {
  mv_step : stepped s None s';
  mv_count : task_count s' = task_count s;
  mv_started : scheduler_started s' = scheduler_started s;
  mv_run : forall i, slot_index i -> i <> current_task s -> can_run s' i = can_run s i
}.

Lemma kept_moved s s1 s2 : kept s s1 -> moved s1 s2 -> moved s s2.
Proof.
  intros [A1 A2 A3 A4 A5 A6 A7] [B1 B2 B3 B4]. rewrite A3 in *. split; try congruence; [by eapply stepped_trans|].
  intros i Hi Hne. by rewrite B4, A5.
Qed.

Lemma kept_progress s s1 s2 : table_ok s -> kept s s1 -> progress s1 s2 -> progress s s2.
Proof.
  intros Hok [A1 A2 A3 A4 A5 A6 A7]. unfold progress, distance. rewrite A2, A3, A6. intros [?|H]; [by left|right].
  intros j Hj Hne Hr. apply H; [done|done|]. rewrite A5; [done|by apply (count_slot s)|done].
Qed.

Lemma distance_pos s j : table_ok s -> 0 <= j < task_count s -> j <> current_task s -> 0 < distance s j < task_count s.
Proof.
  intros Hok Hj Hne. pose proof (tk_current _ Hok). unfold distance. pose proof (Z.mod_pos_bound (j - current_task s) (task_count s) ltac:(lia)) as Hb.
  split; [|lia]. destruct (decide ((j - current_task s) mod task_count s = 0)) as [E|]; [|lia].
  apply Z.mod_divide in E as [q Hq]; [|lia]. assert (q = 0) as -> by nia. lia.
Qed.

(** The next task is not beyond any other task that can run. *)
Lemma next_closer s o : table_ok s -> 1 <= o <= task_count s ->
  (forall o', 1 <= o' < o -> can_run s ((current_task s + o') mod task_count s) = false) ->
  forall j, 0 <= j < task_count s -> j <> current_task s -> can_run s j = true ->
  o <= distance s j /\ (j - (current_task s + o) mod task_count s) mod task_count s = distance s j - o.
Proof.
  intros Hok Ho Hmin j Hj Hne Hr. pose proof (distance_pos s j Hok Hj Hne) as HD. unfold distance in *.
  set (c := task_count s) in *. set (cur := current_task s) in *. set (D := (j - cur) mod c) in *.
  assert ((cur + D) mod c = j) as EjD. { unfold D. rewrite Zplus_mod_idemp_r. replace (cur + (j - cur)) with j by lia. by apply Z.mod_small. }
  assert (o <= D) as HoD. { destruct (decide (o <= D)); [done|]. specialize (Hmin D ltac:(lia)). rewrite EjD in Hmin. congruence. }
  split; [done|]. rewrite Zminus_mod_idemp_r. replace (j - (cur + o)) with ((j - cur) + (- o)) by lia. rewrite <- Zplus_mod_idemp_l. fold D.
  rewrite Z.mod_small; lia.
Qed.

Lemma can_run_slice s i t p q n : length (tasks s) = 16%nat -> slot_index i -> t = task s i ->
  forall j, slot_index j -> can_run (set_task i (with_slice t p q n) s) j = can_run s j.
Proof. intros Hl Hi -> j Hj. unfold can_run. rewrite task_set by done. by case_decide; subst. Qed.

(** A task that can run has a stack, unless it is the first one. *)
Lemma can_run_stack s i : table_ok s -> 1 <= i < 16 -> can_run s i = true -> stack_base (task s i) <> 0.
Proof.
  unfold can_run. intros Hok Hi Hr. split_bools.
  destruct (so_stack _ _ _ _ _ (tk_slots _ Hok i ltac:(split; lia)) ltac:(lia)) as [(_ & ? & _)|(-> & _)]; [lia|unfold stack_area; lia].
Qed.

Lemma slice_moved s : table_ok s -> task_state (task s (current_task s)) = TASK_RUNNABLE -> 1 < ticks_left (task s (current_task s)) ->
  let t := task s (current_task s) in let s' := set_task (current_task s) (with_slice t (priority t) (ticks_left t -32 1) (switches t)) s in
  moved s s' /\ progress s s'.
Proof.
  intros Hok Hst Hsl. cbv zeta. pose proof (current_slot s Hok) as Hs. pose proof (tk_length _ Hok) as Hl. pose proof (tk_slots _ Hok _ Hs) as Ht.
  destruct (so_slice _ _ _ _ _ Ht). assert (ticks_left (task s (current_task s)) -32 1 = ticks_left (task s (current_task s)) - 1) as ->
    by (apply u32_id; unfold is_u32; lia). split.
  - split; try done; [|intros i Hi _; by apply can_run_slice]. apply stepped_set; [done|done|by left..|]. apply slot_slice; [done|lia..].
  - left. split; [done|]. by rewrite task_set_eq.
Qed.

Lemma switch_moved s : table_ok s -> find_next_runnable s <> SCHEDULER_MAX_TASKS -> let n := find_next_runnable s in n <> current_task s ->
  let s' := set_task n (with_slice (task s n) (priority (task s n)) (priority (task s n)) (switches (task s n) +32 1)) (set_current s n) in
  moved s s' /\ progress s s'.
Proof.
  intros Hok Hmax n Hne s'. destruct (next_runnable_spec s Hok) as [[? _]|(Hn & Hrn & o & Ho & En & Hmin)]; [done|]. fold n in Hn, Hrn, En.
  pose proof (tk_length _ Hok) as Hl. assert (slot_index n) as Hsn by by apply (count_slot s).
  assert (table_ok (set_current s n)) as Hok1.
  { destruct Hok as [H1 H2 H3 H4 H5 HR H6 H7] eqn:E. split; try done. intros Hn0. change (task (set_current s n) _) with (task s n).
    apply can_run_stack; [done|unfold slot_index in Hsn; cbn in Hn0; lia|done]. }
  assert (stepped (set_current s n) None s') as Hst.
  { apply stepped_set; [done|done|by left..|]. pose proof (tk_slots _ Hok1 _ Hsn) as Ht. destruct (so_slice _ _ _ _ _ Ht). apply slot_slice; [done|..];
    change (task (set_current s n) n) with (task s n) in *; lia. }
  split.
  - split; try done; [eapply stepped_trans; [by apply (stepped_same s (set_current s n))|done]|].
    intros i Hi _. exact (can_run_slice (set_current s n) n _ _ _ _ Hl Hsn eq_refl i Hi).
  - right. intros j Hj Hjc Hr. destruct (next_closer s o Hok Ho Hmin j Hj Hjc Hr) as [HoD E].
    unfold distance at 1. change (current_task s') with n. change (task_count s') with (task_count s). rewrite En, E. lia.
Qed.

Lemma choose_ok w frame force s : table_ok s ->
  ends (sound w /\ exists j, 0 <= j < task_count s /\ can_run s j = true) (choose_task w frame force s) (fun _ s' => moved s s' /\ progress s s').
Proof.
  intros Hok. unfold choose_task. unfold call_bind at 1, ask. case_if.
  { split_bools. apply slice_moved; (done || lia). }
  unfold call_bind at 1. destruct (next_runnable_spec s Hok) as [[E Hnone]|(Hn & Hrn & o & Ho & En & Hmin)].
  { rewrite E. cbn. intros [_ (j & Hj & Hr)]. by rewrite (Hnone j Hj) in Hr. }
  pose proof (switch_moved s Hok) as Hsw. set (n := find_next_runnable s) in *. unfold SCHEDULER_MAX_TASKS in *. case_if; [pose proof (tk_count _ Hok); lia|].
  unfold call_bind at 1. case_if.
  - split; [split; try done; by apply stepped_refl|]. right. intros j Hj Hne Hr. destruct (next_closer s o Hok Ho Hmin j Hj Hne Hr) as [HoD E].
    rewrite <- En in E. unfold distance at 1. assert (current_task s = n) as -> by lia. rewrite E. lia.
  - unfold call_bind, update. case_if; [intros [Hw _]; by rewrite (sd_space w Hw) in *|]. apply Hsw; lia.
Qed.

(** ** Interrupts *)

(** Another task can run. *)
Definition other_runs (s : scheduler) : Prop := exists j, 0 <= j < task_count s /\ j <> current_task s /\ can_run s j = true.

Lemma kept_other s s1 : table_ok s -> kept s s1 -> other_runs s -> other_runs s1.
Proof.
  intros Hok [A1 A2 A3 A4 A5 A6 A7] (j & Hj & Hne & Hr). exists j. rewrite A2, A3. split; [done|]. split; [done|].
  rewrite A5; [done|by apply (count_slot s)|done].
Qed.

(** What an interrupt does to the table; there is progress when the scheduler runs. *)
Definition interrupted (frame : Z) (s s' : scheduler) : Prop :=
  moved s s' /\ (scheduler_started s = true -> frame <> 0 -> progress s s').

Lemma kept_interrupted frame s s1 s2 : table_ok s -> kept s s1 -> interrupted frame s1 s2 -> interrupted frame s s2.
Proof.
  intros Hok Hk [Hm Hp]. split; [by eapply kept_moved|]. intros Hst Hf. eapply kept_progress; [done|done|]. apply Hp; [|done].
  by rewrite (kp_started _ _ Hk).
Qed.

Lemma interrupted_same frame s : table_ok s -> scheduler_started s = false \/ frame = 0 -> interrupted frame s s.
Proof. intros Hok H. split; [split; try done; by apply stepped_refl|]. intros Hst Hf. destruct H; congruence. Qed.

(** A user task is never the first one. *)
Lemma user_not_first s : table_ok s -> task_mode (task s (current_task s)) = TASK_USER -> current_task s <> 0.
Proof.
  intros Hok Hm E. destruct (so_first _ _ _ _ _ (tk_slots _ Hok _ (current_slot s Hok)) E) as (_ & H & _). by rewrite H in Hm.
Qed.

Lemma end_user_ok w message s : table_ok s -> task_mode (task s (current_task s)) = TASK_USER ->
  ends (sound w) (end_user_task w message s) (fun _ s' => kept s s' /\ task_state (task s' (current_task s)) = TASK_TERMINATED).
Proof.
  intros Hok Hm. pose proof (user_not_first s Hok Hm) as Hne. pose proof (end_current_kept s Hok) as Hk.
  pose proof (st_ok _ _ _ (kp_step _ _ Hk)) as Hok1. assert (task_state (task (end_current s) (current_task s)) = TASK_TERMINATED) as Ht
    by (unfold end_current; rewrite task_set_eq; [done|apply Hok|by apply current_slot]).
  unfold end_user_task, call_bind, update, ask. case_if; [intros Hw; by rewrite (sd_process w Hw) in *|].
  split; [|exact Ht]. eapply kept_trans; [done|]. by apply mark_current_kept.
Qed.

(** One round; the next one, if there is one, starts when the running task has ended. *)
Lemma round_ok w rounds frame force s : table_ok s ->
  (task_state (task s (current_task s)) = TASK_RUNNABLE -> forall s1, table_ok s1 ->
    task_state (task s1 (current_task s1)) = TASK_TERMINATED ->
    ends (Forall sound rounds /\ other_runs s1) (schedule rounds frame true s1) (fun _ s' => interrupted frame s1 s')) ->
  ends (Forall sound (w :: rounds) /\ other_runs s) (schedule (w :: rounds) frame force s) (fun _ s' => interrupted frame s s').
Proof.
  intros Hok Hnext. cbn [schedule]. unfold call_bind at 1, ask. case_if.
  { apply interrupted_same; [done|]. pose proof (tk_count _ Hok). split_bools; destruct (scheduler_started s); (by left) || (right; lia) || lia. }
  assert (scheduler_started s = true /\ frame <> 0) as [Hstart Hframe] by (split_bools; split; [by destruct (scheduler_started s)|lia]).
  unfold call_bind at 1. eapply ends_bind; [by intros [[Hw _]%list.Forall_cons _]; exact Hw|by apply verify_ok; [done|apply current_slot]|].
  intros ? ? ->. eapply ends_bind; [by intros [[Hw _]%list.Forall_cons _]; exact Hw|by apply reap_pending_ok|].
  intros ? s1 [Hk Ht]. unfold call_bind at 1. pose proof (st_ok _ _ _ (kp_step _ _ Hk)) as Hok1. rewrite (kp_current _ _ Hk), Ht. case_if.
  - split_bools. unfold call_bind at 1.
    assert (user_task_runs s1 = true) as ->.
    { unfold user_task_runs. rewrite (kp_started _ _ Hk), Hstart, (kp_current _ _ Hk), (kp_count _ _ Hk), Ht. pose proof (tk_current _ Hok). lia. }
    eapply ends_bind; [by intros [[Hw _]%list.Forall_cons _]; exact Hw|apply end_user_ok; [done|rewrite (kp_current _ _ Hk), Ht; lia]|].
    intros ? s2 [Hk2 Hended]. pose proof (kept_trans _ _ _ Hk Hk2) as Hk3. pose proof (st_ok _ _ _ (kp_step _ _ Hk2)) as Hok2.
    eapply ends_weaken; [|apply Hnext; [lia|done|by rewrite (kp_current _ _ Hk2)]|].
    + intros [[_ Hw]%list.Forall_cons Ho]. split; [done|by apply (kept_other s)].
    + intros ? s3 Hi. by eapply kept_interrupted.
  - assert (exists s2, kept s s2 /\ (if task_mode (task s (current_task s)) =? TASK_USER then ret tt
       else update (fun s => set_task (current_task s) (with_frame (task s (current_task s)) frame) s)) s1 = Done tt s2) as (s2 & Hk2 & Es2).
    { case_if; [by exists s1|]. eexists. split; [|done]. eapply kept_trans; [done|]. by apply save_frame_kept. }
    rewrite (bind_done _ _ _ _ _ Es2). pose proof (st_ok _ _ _ (kp_step _ _ Hk2)) as Hok2.
    eapply ends_weaken; [|by apply choose_ok|].
    + intros [[Hw _]%list.Forall_cons Ho]. split; [done|]. destruct (kept_other s s2 Hok Hk2 Ho) as (j & ? & _ & ?). by exists j.
    + intros ? s3 [Hm Hp]. apply (kept_interrupted frame s s2); [done|done|]. by split.
Qed.

Lemma schedule_ended w frame s : table_ok s -> task_state (task s (current_task s)) = TASK_TERMINATED ->
  ends (Forall sound [w] /\ other_runs s) (schedule [w] frame true s) (fun _ s' => interrupted frame s s').
Proof. intros Hok Ht. apply round_ok; [done|]. by rewrite Ht. Qed.

Lemma schedule_ok w w' frame force s : table_ok s ->
  ends (Forall sound [w; w'] /\ other_runs s) (schedule_from_frame w w' frame force s) (fun _ s' => interrupted frame s s').
Proof. intros Hok. apply round_ok; [done|]. intros _ s1 Hok1 Ht. by apply schedule_ended. Qed.

(** The end of a user task by a fault or by its own call. *)
Lemma user_end_ok w w' message frame s : table_ok s ->
  ends (Forall sound [w; w'] /\ other_runs s)
    ((runs <~ ask user_task_runs; if negb runs then ret frame else end_user_task w message ;~ schedule [w'] frame true) s)
    (fun _ s' => moved s s').
Proof.
  intros Hok. unfold call_bind at 1, ask. case_if; [split; try done; by apply stepped_refl|].
  assert (task_mode (task s (current_task s)) = TASK_USER) as Hm by (unfold user_task_runs in *; split_bools; lia).
  eapply ends_bind; [by intros [[Hw _]%list.Forall_cons _]; exact Hw|by apply end_user_ok|].
  intros ? s1 [Hk Ht]. pose proof (st_ok _ _ _ (kp_step _ _ Hk)) as Hok1. rewrite <- (kp_current _ _ Hk) in Ht.
  eapply ends_weaken; [|by apply schedule_ended|].
  - intros [[_ Hw]%list.Forall_cons Ho]. split; [done|by apply (kept_other s)].
  - intros ? s2 [Hm2 _]. by eapply kept_moved.
Qed.

Lemma fault_ok w w' frame s : table_ok s ->
  ends (Forall sound [w; w'] /\ other_runs s) (scheduler_on_user_fault w w' frame s) (fun _ s' => moved s s').
Proof. apply user_end_ok. Qed.

Lemma exit_ok w w' frame s : table_ok s ->
  ends (Forall sound [w; w'] /\ other_runs s) (scheduler_on_user_exit w w' frame s) (fun _ s' => moved s s').
Proof. apply user_end_ok. Qed.
