(* ===== verification/SchedulerTheorems.v ===== *)
(** * Properties of the scheduler

    The tables that occur are those that the operations and the interrupts lead to from the start, in any
    order. In all of them identifiers are given out once, and a task that can run gets the processor after
    a bounded number of interrupts. *)

From S2P Require Import Prelude KernelCall PagingState PagingEntry Scheduler SchedulerSpec SchedulerSwitch.
Local Open Scope c_scope.
Local Open Scope call_scope.
Local Open Scope Z_scope.

(** ** The life of the table *)

(** The calls and interrupts, with the identifier that a new task gets. The last two are
    [scheduler_task_trampoline] after the function of the task has returned: interrupts are enabled
    there, so that others may come between the two assignments, and before the yield that follows. *)
Inductive table_step (s : scheduler) : option Z -> scheduler -> Prop :=
  | ts_priority index p : 0 <= index -> 0 <= p -> table_step s None (snd (scheduler_set_priority index p s))
  | ts_block index : 0 <= index -> table_step s None (snd (scheduler_block_task index s))
  | ts_wake index : 0 <= index -> table_step s None (snd (scheduler_wake_task index s))
  | ts_wake_id id : table_step s None (snd (scheduler_wake_task_id id s))
  | ts_wake_users : table_step s None (snd (scheduler_wake_user_tasks s))
  | ts_block_current : table_step s None (snd (scheduler_block_current s))
  | ts_start : table_step s None (scheduler_start s)
  | ts_add name entry directory stack : stack_answer stack -> let r := scheduler_add_task name entry directory stack s in
      table_step s (added (fst r) (snd r)) (snd r)
  | ts_add_user name entry top space kernel current valid enters good leaves stack ok s' : stack_answer stack ->
      scheduler_add_user_task_in_space name entry top space kernel current valid enters good leaves stack s = Done ok s' ->
      table_step s (added ok s') s'
  | ts_timer w w' frame f s' : scheduler_on_timer w w' frame s = Done f s' -> table_step s None s'
  | ts_yield w w' frame f s' : scheduler_on_yield w w' frame s = Done f s' -> table_step s None s'
  | ts_fault w w' frame f s' : scheduler_on_user_fault w w' frame s = Done f s' -> table_step s None s'
  | ts_exit w w' frame f s' : scheduler_on_user_exit w w' frame s = Done f s' -> table_step s None s'
  | ts_ended : current_task s <> 0 -> table_step s None (end_current s)
  | ts_marked : current_task s <> 0 -> task_state (task s (current_task s)) = TASK_TERMINATED -> table_step s None (mark_current s).

Lemma table_step_ok s o s' : table_ok s -> table_step s o s' -> stepped s o s'.
Proof.
  intros Hok Hst. destruct Hst as [index p Hi Hp|index Hi|index Hi|id| | | |name entry directory stack Ha r|????????????? Ha E|w w' frame f s' E|w w' frame f s' E|w w' frame f s' E|w w' frame f s' E|Hne|Hne Ht].
  - by apply set_priority_ok.
  - by apply block_task_ok.
  - by apply wake_unlocked_ok.
  - by apply wake_id_ok.
  - by apply wake_users_ok.
  - by apply block_current_ok.
  - by apply start_ok.
  - by apply add_task_ok.
  - by eapply add_user_ok.
  - by destruct (ends_done _ _ _ _ _ (schedule_ok w w' frame false s Hok) E) as [[? _ _ _] _].
  - by destruct (ends_done _ _ _ _ _ (schedule_ok w w' frame true s Hok) E) as [[? _ _ _] _].
  - by destruct (ends_done _ _ _ _ _ (fault_ok w w' frame s Hok) E) as [? _ _ _].
  - by destruct (ends_done _ _ _ _ _ (exit_ok w w' frame s Hok) E) as [? _ _ _].
  - by apply end_current_kept.
  - by apply mark_current_kept.
Qed.

(** The tables that occur, with the identifiers given out so far, the last one first. *)
Inductive table_run : scheduler -> list Z -> Prop :=
  | tr_init directory : table_run (scheduler_init directory) []
  | tr_step s ids s' : table_run s ids -> table_step s None s' -> table_run s' ids
  | tr_new s ids id s' : table_run s ids -> table_step s (Some id) s' -> table_run s' (id :: ids).

Lemma table_run_ok s ids : table_run s ids -> table_ok s /\ NoDup ids /\ (forall id, id ∈ ids -> issued s id) /\
  forall i, slot_index i -> task_id (task s i) <> 0 -> task_id (task s i) ∈ ids.
Proof.
  induction 1 as [directory|s ids s' _ (Hok & Hnd & Hi & Hin) Hst|s ids id s' _ (Hok & Hnd & Hi & Hin) Hst].
  - split; [apply init_table_ok|]. split; [constructor|]. split; [by intros id Hid%not_elem_of_nil|].
    intros i Hi Hne. destruct (table_issued _ i (init_table_ok directory) Hi Hne) as (j & g & _ & Hg & _).
    exfalso. revert Hg. unfold arr, scheduler_init. cbn [slot_generation]. change (replicate 16 0) with (repeat 0 16). rewrite nth_repeat. lia.
  - destruct (table_step_ok s _ s' Hok Hst) as [Hok' Hle _ Hids]. split; [done|]. split; [done|]. split.
    + intros id Hid. eapply issued_le; [done|by apply Hi].
    + intros i Hs Hne. destruct (Hids i Hs) as [E|[?|?]]; [|done..]. rewrite E in *. by apply Hin.
  - destruct (table_step_ok s _ s' Hok Hst) as [Hok' Hle Hnew Hids]. destruct (Hnew id eq_refl) as [Hno Hyes]. split; [done|]. split; [|split].
    + constructor; [|done]. intros Hid. by apply Hno, Hi.
    + intros x [->|Hx]%list.elem_of_cons; [done|]. eapply issued_le; [done|by apply Hi].
    + intros i Hs Hne. apply list.elem_of_cons. destruct (Hids i Hs) as [E|[?|[= ->]]]; [|done|by left].
      right. rewrite E in *. by apply Hin.
Qed.

(** ** Waiting for the processor *)

(** The two interrupts that only pass the processor on, each with the answers of its rounds and the
    address of its frame. *)
Inductive interrupt := Timer (w w' : answers) (frame : Z) | Yield (w w' : answers) (frame : Z).

Definition handle (i : interrupt) : call scheduler Z :=
  match i with
  | Timer w w' frame => scheduler_on_timer w w' frame
  | Yield w w' frame => scheduler_on_yield w w' frame
  end.

Fixpoint handle_all (l : list interrupt) : call scheduler unit :=
  match l with
  | [] => ret tt
  | i :: l => handle i ;~ handle_all l
  end.

Definition interrupt_sound (i : interrupt) : Prop :=
  match i with Timer w w' frame | Yield w w' frame => sound w /\ sound w' /\ frame <> 0 end.

Lemma handle_progress i s : table_ok s -> scheduler_started s = true -> interrupt_sound i -> other_runs s ->
  exists f s', handle i s = Done f s' /\ moved s s' /\ progress s s'.
Proof.
  intros Hok Hst Hi Ho. assert (exists w w' frame force, Forall sound [w; w'] /\ frame <> 0 /\ handle i s = schedule_from_frame w w' frame force s)
    as (w & w' & frame & force & Hw & Hf & ->).
  { destruct i as [w w' frame|w w' frame]; destruct Hi as (? & ? & ?);
      [exists w, w', frame, false|exists w, w', frame, true]; (split; [by constructor; [|constructor]|done]). }
  destruct (returns_eq _ _ (ends_returns _ _ _ (schedule_ok w w' frame force s Hok) (conj Hw Ho))) as (f & s' & E & Hm & Hp).
  exists f, s'. split; [done|]. split; [done|]. by apply Hp.
Qed.

(** What is left of the slice of the running task, and full slices for those between it and task [j]. *)
Definition wait (s : scheduler) (j : Z) : Z := ticks_left (task s (current_task s)) + 8 * (distance s j - 1).

Lemma wait_bound l : forall s j, table_ok s -> scheduler_started s = true -> Forall interrupt_sound l -> 0 <= j < task_count s ->
  can_run s j = true -> j <> current_task s -> wait s j <= Z.of_nat (length l) ->
  exists n s', Z.of_nat n <= wait s j /\ handle_all (take n l) s = Done tt s' /\ current_task s' = j.
Proof.
  induction l as [|i l IH]; intros s j Hok Hst Hl Hj Hr Hne Hlen; pose proof (distance_pos s j Hok Hj Hne) as HD;
    pose proof (so_slice _ _ _ _ _ (tk_slots _ Hok _ (current_slot s Hok))) as [Hsl _]; unfold wait in Hlen; [cbn in Hlen; lia|].
  apply list.Forall_cons in Hl as [Hi Hl]. destruct (handle_progress i s Hok Hst Hi) as (f & s1 & E & [[Hok1 _ _ _] Hc1 Hst1 Hr1] & Hp); [by exists j|].
  destruct (decide (j = current_task s1)) as [Ej|Hne1].
  { exists 1%nat, s1. split; [unfold wait; lia|]. split; [|done]. cbn. rewrite take_0. cbn. unfold call_bind. by rewrite E. }
  pose proof (so_slice _ _ _ _ _ (tk_slots _ Hok1 _ (current_slot s1 Hok1))) as [Hsl1 Hp1].
  assert (wait s1 j + 1 <= wait s j) as Hw.
  { unfold wait. destruct Hp as [(Ec & Et & _)|Hd]; [|specialize (Hd j Hj Hne Hr); lia].
    assert (distance s1 j = distance s j) as -> by (unfold distance; by rewrite Ec, Hc1). rewrite Ec, Et. lia. }
  destruct (IH s1 j) as (n & s2 & Hn & E2 & Ej); [done|congruence|done|lia| |done|unfold wait in *; cbn [length] in Hlen; lia|].
  { rewrite Hr1; [done|by apply (count_slot s)|done]. }
  exists (S n), s2. split; [lia|]. split; [|done]. cbn. unfold call_bind. by rewrite E.
Qed.

(** ** The properties *)

(** C13: let the table be one that occurs, with the scheduler started, and let task [j] be able to run.
    Then in every sequence of timer ticks and yields, for which the memory side finds nothing wrong,
    task [j] has the processor after at most eight of them for every other slot in use. All of these
    return: none finds that no task can run. It does not matter which other tasks can run, what their
    priorities are, and which of them return to code that they cannot execute and are ended. *)
Theorem scheduler_bounded_wait s ids j l : table_run s ids -> scheduler_started s = true -> 0 <= j < task_count s ->
  can_run s j = true -> Forall interrupt_sound l -> 8 * (task_count s - 1) <= Z.of_nat (length l) ->
  exists n s', Z.of_nat n <= 8 * (task_count s - 1) /\ handle_all (take n l) s = Done tt s' /\ current_task s' = j.
Proof.
  intros Hrun Hst Hj Hr Hl Hlen. destruct (table_run_ok s ids Hrun) as (Hok & _).
  destruct (decide (j = current_task s)) as [->|Hne]; [exists 0%nat, s; split; [lia|done]|].
  pose proof (so_slice _ _ _ _ _ (tk_slots _ Hok _ (current_slot s Hok))) as [Hsl Hp]. pose proof (distance_pos s j Hok Hj Hne) as HD.
  assert (wait s j <= 8 * (task_count s - 1)) as Hw by (unfold wait; lia).
  destruct (wait_bound l s j Hok Hst Hl Hj Hr Hne ltac:(lia)) as (n & s' & Hn & E & Ej). exists n, s'. split; [lia|done].
Qed.

(** C30: a task identifier is given out once: the identifiers of all tasks ever registered differ, and
    those of the tasks in the table are among them, each in one slot. *)
Theorem scheduler_ids_unique s ids : table_run s ids -> NoDup ids /\
  (forall i, slot_index i -> task_id (task s i) <> 0 -> task_id (task s i) ∈ ids) /\
  forall i j, slot_index i -> slot_index j -> task_id (task s i) <> 0 -> task_id (task s i) = task_id (task s j) -> i = j.
Proof.
  intros Hrun. destruct (table_run_ok s ids Hrun) as (Hok & Hnd & _ & Hin). split; [done|]. split; [done|].
  intros i j Hi Hj Hne E. exact (ids_unique s i j Hok Hi Hj Hne E).
Qed.

(** In every table that occurs, a slot without a stack holds no live task and no frame, a slot
    with one has it in its own area, only ended tasks wait for it to be given back, and the running task
    has one unless it is the first; the slices stay between one tick and the priority. *)
Lemma scheduler_table_invariant s ids i : table_run s ids -> slot_index i ->
  slot_ok (task_count s) (arr (slot_generation s) i) (pending s i) i (task s i) /\
  1 <= task_count s <= 16 /\ 0 <= current_task s < task_count s /\ (current_task s <> 0 -> stack_base (task s (current_task s)) <> 0).
Proof.
  intros Hrun Hi. destruct (table_run_ok s ids Hrun) as (Hok & _). split; [by apply Hok|]. split_and!; apply Hok.
Qed.

(** ** A concrete run: two kernel tasks and a user task *)

Definition sample_stack : option (list Z) := Some (replicate 8 0x500000).

Definition sample_first : scheduler := snd (scheduler_add_task (Some [99]) 0x100000 0x6000 sample_stack (scheduler_init 0x6000)).
Definition sample_second : scheduler := snd (scheduler_add_task (Some [115]) 0x101000 0x6000 sample_stack sample_first).
Definition sample_third : scheduler :=
  match scheduler_add_user_task_in_space (Some [117]) 0x400000 0x802000 0x7000 0x6000 0x6000 true true true true sample_stack sample_second with
  | Done _ s => s
  | _ => sample_second
  end.
Definition sample_table : scheduler := scheduler_start sample_third.

Definition sample_answers : answers :=
  Build_answers (fun _ => true) (fun _ => true) (fun _ _ => true) (fun _ => true) 0x6000 0x6000 true false (fun _ _ => true).

Lemma sample_stack_answer : stack_answer sample_stack.
Proof. intros frames [= <-]. split; [done|]. by repeat constructor. Qed.

Lemma sample_table_run : table_run sample_table [259; 258; 257].
Proof.
  apply (tr_step sample_third); [|apply ts_start].
  pose proof (ts_add (scheduler_init 0x6000) (Some [99]) 0x100000 0x6000 sample_stack sample_stack_answer) as H1.
  pose proof (ts_add sample_first (Some [115]) 0x101000 0x6000 sample_stack sample_stack_answer) as H2.
  pose proof (ts_add_user sample_second (Some [117]) 0x400000 0x802000 0x7000 0x6000 0x6000 true true true true sample_stack true sample_third
    sample_stack_answer ltac:(by vm_compute)) as H3.
  cbv zeta in H1, H2. assert (added true sample_first = Some 257) as E1 by (vm_compute; reflexivity).
  assert (added true sample_second = Some 258) as E2 by (vm_compute; reflexivity).
  assert (added true sample_third = Some 259) as E3 by (vm_compute; reflexivity).
  fold sample_first in H1. fold sample_second in H2.
  replace (fst (scheduler_add_task (Some [99]) _ _ _ _)) with true in H1 by (vm_compute; reflexivity).
  replace (fst (scheduler_add_task (Some [115]) _ _ _ _)) with true in H2 by (vm_compute; reflexivity).
  rewrite E1 in H1. rewrite E2 in H2. rewrite E3 in H3.
  apply (tr_new sample_second [258; 257] 259 _ (tr_new sample_first [257] 258 _ (tr_new _ [] 257 _ (tr_init 0x6000) H1) H2) H3).
Qed.

Lemma sample_sound : sound sample_answers.
Proof. done. Qed.

Definition sample_tick : interrupt := Timer sample_answers sample_answers 0xC0008F00.

(** Two ticks later the second kernel task runs. *)
Definition sample_later : scheduler := match handle_all [sample_tick; sample_tick] sample_table with Done _ s => s | _ => sample_table end.

Lemma handle_run i s ids f s' : table_run s ids -> handle i s = Done f s' -> table_run s' ids.
Proof. intros Hrun E. eapply tr_step; [done|]. destruct i; [by eapply ts_timer|by eapply ts_yield]. Qed.

Lemma handle_all_run l : forall s ids s', table_run s ids -> handle_all l s = Done tt s' -> table_run s' ids.
Proof.
  induction l as [|i l IH]; intros s ids s' Hrun E; [by injection E as <-|]. cbn in E. unfold call_bind in E.
  destruct (handle i s) as [f s1| | |] eqn:E1; try done. eapply IH; [by eapply handle_run|done].
Qed.

Lemma sample_later_run : table_run sample_later [259; 258; 257].
Proof. apply (handle_all_run [sample_tick; sample_tick] sample_table); [exact sample_table_run|vm_compute; reflexivity]. Qed.

(** The turn of the user task comes first; it returns to code that it cannot execute, and ends. *)
Lemma scheduler_bounded_wait_witness : current_task sample_later = 2 /\ can_run sample_later 3 = true /\ exists n s', (n <= 24)%nat /\
  handle_all (take n (replicate 24 sample_tick)) sample_later = Done tt s' /\ current_task s' = 1.
Proof.
  split; [vm_compute; reflexivity|]. split; [vm_compute; reflexivity|].
  destruct (scheduler_bounded_wait sample_later _ 1 (replicate 24 sample_tick) sample_later_run) as (n & s' & Hn & E & Hc).
  - vm_compute. reflexivity.
  - vm_compute. split; [discriminate|reflexivity].
  - vm_compute. reflexivity.
  - apply Forall_replicate. split; [exact sample_sound|]. split; [exact sample_sound|discriminate].
  - vm_compute. discriminate.
  - exists n, s'. split; [|exact (conj E Hc)]. assert (task_count sample_later = 4) as E4 by (vm_compute; reflexivity). rewrite E4 in Hn. lia.
Defined.

Lemma scheduler_ids_unique_witness : NoDup [259; 258; 257] /\ task_id (task sample_table 3) = 259.
Proof. split; [exact (proj1 (scheduler_ids_unique sample_table _ sample_table_run))|vm_compute; reflexivity]. Defined.

Lemma scheduler_table_invariant_witness : stack_base (task sample_table 2) = stack_area 2 /\ 1 <= task_count sample_table <= 16.
Proof.
  destruct (scheduler_table_invariant sample_table _ 2 sample_table_run ltac:(by split)) as (_ & H & _).
  split; [vm_compute; reflexivity|exact H].
Defined.

(** ** A stack that is lost *)

(** The first kernel task returns from its function, and a timer tick comes between the two assignments
    of [scheduler_task_trampoline]. *)
Definition sample_switched : scheduler := match handle sample_tick sample_table with Done _ s => s | _ => sample_table end.
Definition sample_lost : scheduler := match handle sample_tick (end_current sample_switched) with Done _ s => s | _ => sample_table end.

(** The table occurs; the task of the slot has ended and does not run again, but it is not marked: its
    stack is not given back, and the slot not used for a new task. *)
Lemma trampoline_tick_loses_stack : table_run sample_lost [259; 258; 257] /\ current_task sample_lost <> 1 /\
  task_state (task sample_lost 1) = TASK_TERMINATED /\ stack_base (task sample_lost 1) = stack_area 1 /\
  reapable sample_lost 1 = false /\ find_task_slot sample_lost <> 1.
Proof.
  split; [|vm_compute; split_and!; (reflexivity || discriminate)].
  assert (table_run sample_switched [259; 258; 257]) as Hrun
    by (apply (handle_run sample_tick sample_table _ 0xC0011FB4); [exact sample_table_run|vm_compute; reflexivity]).
  apply (handle_run sample_tick (end_current sample_switched) _ 0xC001AFB4); [|vm_compute; reflexivity].
  apply (tr_step sample_switched); [done|]. apply ts_ended. vm_compute. discriminate.
Qed.
